(* ===== verification/_CoqProject ===== *)
-Q . S2P
Prelude.v
L4.v
Pages.v
HashUtil.v
Rollback.v
Containers.v
UapiState.v
UapiThreads.v
UapiThreadProps.v
ProgImage.v
ProgImageProps.v
UapiProc.v
UapiOps.v
UapiSigProps.v
UapiOpsProps.v
UapiLifeProps.v
UapiExec.v
UapiExecProps.v
CString.v
CStringProps.v
UserFd.v
UserFdProps.v
SysIo.v
SysIoProps.v
SysIoEventProps.v
Poll.v
PollProps.v
Chrdev.v
ChrdevProps.v
Vm.v
VmMaps.v
VmOps.v
VmProps.v
VmPageProps.v
VmSpaceProps.v
VmTraceProps.v
VmForkProps.v
VmContentProps.v
VmFaultProps.v
VmServeProps.v
VmAnswerProps.v
VmMapProps.v
VmRequests.v
Sysmem.v
SysmemOps.v
SysmemProps.v
SysmemReplProps.v
SysmemClockProps.v
SysmemTaskProps.v
SysmemAllocProps.v
SysmemFaultProps.v
SysmemDropProps.v
SysmemBrkProps.v
SysmemSendProps.v
SysmemFlagProps.v
SysmemGrantProps.v
SysmemServeProps.v
SysmemReachProps.v
SysmemRequests.v
Sort.v
SortProps.v
SysMsg.v
SysMsgProps.v
Mtx.v
MtxProps.v
