(* ===== verification/Prelude.v ===== *)
(** * Verification of sneks

    sneks is a multi-server operating system personality on an L4.X2 microkernel:
    a root task that keeps the table of processes, servers for files and devices in
    system tasks of their own, and a C runtime in each user program that talks to
    them.  This library models the parts of it that carry state or tricky data, each
    the way its source is written, and proves what they promise each other.

    ** Parts and files

    - Foundations.  [Prelude] has machine integers, the monad of stateful code that
      may stop, and lemmas all files share.  [L4] is the part of the microkernel's
      binary interface the code relies on, as a class with its laws, and the
      encoding of process IDs in thread IDs (lib/pidof.c, sneks/process.h).
      [Pages] has page addresses and flexpages, which both memory servers use.
      [HashUtil] is lib/hash.c.  [Containers] has what the code takes from CCAN:
      bitmaps, hash tables, darrays and range allocators, as the data they stand
      for.  [Rollback] is lib/rollback.c, against a class [RollbackHost] that
      each server instantiates with its own state and handlers.
    - The root task's userspace API server (root/uapi.c, root/sig.c, root/defs.h).
      [UapiState] is its state, one record for the globals and one for struct
      process; [UapiThreads] the allocation of thread numbers and UTCB slots;
      [UapiProc] signals and the end of processes; [UapiOps] the entry points of
      Sneks::Proc; [ProgImage] the pure parts of program loading (ELF segments,
      argument blocks, startup stack, placement of reserved areas); [UapiExec]
      spawn and exec.  Properties are in the files ending in Props:
      [UapiThreadProps], [UapiSigProps], [UapiOpsProps], [UapiLifeProps],
      [ProgImageProps], [UapiExecProps].
    - The I/O servers.  [SysIo] is the library all of them are linked with
      (sys/io/io.c): clients, files and descriptors, translation tables at fork, the
      ring of process lifecycle events, requests and their confirmation.  [Poll] is
      sys/io/pollimpl.c, [Chrdev] the layer for character devices
      (sys/chrdev/chrdev.c) with the pipe server and the null devices on top.
      Properties: [SysIoProps], [SysIoEventProps], [PollProps], [ChrdevProps].
    - The virtual memory server, sys/vm/vm.c.  [Vm] has physical pages, virtual pages
      and the lists they are on, with the owners and shares of pages and the page
      cache; [VmMaps] the mappings of address spaces and their trees, with munmap and
      the placing of new ones; [VmOps] the requests of Sneks::VM, fork and page
      faults, the start of the server and the turns of its main loop.  [VmProps]
      states what the books of memory have to agree on and what keeps it so,
      [VmPageProps] what operations on pages do, [VmSpaceProps] adds address spaces
      and unmapping, [VmTraceProps] that no failed call is forgotten, [VmForkProps] erase
      and fork, [VmContentProps] what pages are filled with, [VmFaultProps] faults and
      uploads, [VmServeProps] the server as a whole and its reachable states,
      [VmAnswerProps] the ways for a fault to stop vm when memory runs out, [VmMapProps]
      the trees, and [VmRequests] the theorems on requests, with runs that show them at
      work.  Every call of malloc() and htable_add() may fail.  When htable_add() fails for
      the table of shares, vm.c goes on with books that are wrong; the invariant is
      stated for runs in which that has not happened ([no_share_lost]), and
      [lost_share_breaks_isolation] is a run in which it has.
    - The system memory server, sys/sysmem/sysmem.c.  [Sysmem] has its allocator
      within pages, logical and physical pages, and their replacement by compressed
      copies; [SysmemOps] page faults, the requests of Sneks::Sysmem, the start and the
      turns of its main loop.  [SysmemProps] states what the books of its memory have to
      agree on, as facts that each operation is shown to keep: [SysmemReplProps]
      replacement and what compressed pages store, [SysmemClockProps] the clock that
      chooses pages, [SysmemTaskProps] giving and expanding pages, [SysmemAllocProps]
      allocation, [SysmemFaultProps] faults, [SysmemDropProps] removal,
      [SysmemBrkProps] the break, [SysmemSendProps] pages sent between tasks,
      [SysmemFlagProps] flags, [SysmemGrantProps] frames from the root task,
      [SysmemServeProps] a turn of the main loop, [SysmemReachProps] the start and the
      reachable states, the writes of tasks to their memory included.
      [SysmemRequests] has the theorems on requests, with runs that show them at work.
    - The message server, sys/msg/sysmsg.c.  [SysMsg] has its clients, subscriptions and
      counting filters, broadcasts, and the calls that the handlers of clients make back
      while a broadcast waits for them; what they and the allocator do is the class
      [MsgEnv].  [SysMsgProps] has its invariant, what filters hold and whom a broadcast
      reaches.
    - Mutexes, lib/mtx.c.  [Mtx] has the accesses of mtx_lock(), mtx_trylock(),
      mtx_unlock() and of the serializing thread to the word of a mutex, and the messages
      between them, as steps on a state that all threads share; [MtxProps] an invariant of
      every interleaving, and what follows from it.
    - Sorting.  [Sort] is lib/sort.c and lib/bsearch.c on the list of an array's
      elements, [SortProps] that they sort and find; the message server sorts with it.
    - User programs.  [CString] is lib/string.c on a byte memory, [UserFd] the
      descriptor table of user/crt/file.c with what exec and startup do to it.
      Properties: [CStringProps], [UserFdProps].

    ** How they interact

    Servers call each other by IDL messages.  A call's effects are applied before its
    reply is known to have arrived, so each server installs a rollback or a confirm
    handler with [Rollback]; [check_rollback] runs it when the outcome of the reply is
    known, and lookups force it.  [RollbackHost] is instantiated by the API server
    (HDestroyProcess and the like) and by the I/O library (transfers, closes and the
    server's own handlers).  The I/O library calls the server's callbacks through
    [IoEnv], whose functions may act on the library's state in turn, as a pipe does
    with io_notify; [IoEnvOk] is what it needs of them, proved for pipes and null
    devices in [ChrdevProps].  Process exit, fork and exec reach I/O servers as
    lifecycle events, queued by a handler in another thread and applied by the next
    lookup; that order is the order of the events of [io_event].

    The root task makes, fills and erases address spaces by requests to vm: in the
    model of the API server they are calls it makes, and [VmOps] is what vm does.
    User programs reach vm by requests and by their page faults, and vm in turn reads
    files from their servers; the class [VmEnv] has the answers.  System tasks, vm and
    the root task among them, have their memory from sysmem in the same way; its frames
    come from the root task, as requests (send_phys) and as answers to its own calls
    for more, which the class [SysmemEnv] has, as well as the rights that an unmapping
    finds.  LZ4 is a class of two functions with the law that what was compressed
    expands to what it was.

    ** Conventions

    A stateful function is a term of [M S A]: it takes a state and returns a value
    and a state, or stops with a reason: a failed assertion (StAssert), abort()
    (StAbort), panic(), a bad pointer (StFault), or no fuel left (StFuel).  Machine
    integers are [Z] with wrap-around and two's complement written out.  Pointers are
    keys of finite maps; a null pointer is 0 or [None].  Assertions of the source are
    kept in the model and so appear in the theorems, either as proved never to fail
    or as the outcome of a named input.  What the code gets from outside (results of
    system calls, of other servers, of memory allocation) is answered by an oracle: a
    function of the trace of calls so far, over which theorems quantify.  [wp] says of
    a term that it ends with a result of which something holds, or stops for one of the
    reasons that are allowed; statements on longer pieces of code are made with it.
    Where threads share memory, as mutexes do, the model is a relation: [mtx_step] lets
    any thread take its next atomic access, and theorems speak of all states that are
    reached by such steps.

    Loops without an evident measure take fuel, and the theorems say that the fuel
    chosen is enough: the signal recursion takes three levels
    ([sig_send_zombify_bounded]), [drop_handles] the length of the array it empties,
    [next_gap] the number of descriptors, string loops the length of the string, the
    program header loop the count in the ELF header.  The loops of vm run over the
    lists, tables and trees it has, and take no fuel.  The clock of sysmem goes around the
    active pages with [replace_fuel], which is proved enough; its loops over the pages of
    an address range take one step for each page an address space can have.  Heap sort and
    the binary search have the length of the array as fuel, and the bits of a mask are 32.

    ** What is shown

    - Invariants of state: descriptors, clients and files of an I/O server refer to
      each other consistently in every reachable state ([io_reachable_links]), also
      with the pipe server's callbacks composed in ([pipe_server_consistent]); ignored
      and default signal sets stay disjoint.
    - Refinement: a pipe is a first-in first-out byte stream whatever replies are lost
      ([pipe_is_a_stream]); the lifecycle ring is a bounded queue with its overflow
      ([lifecycle_queue_refines_fifo]).
    - Memory: in every state vm reaches, its books of physical pages, virtual pages and
      address spaces agree ([vm_reachable_sane]), and memory that can be written to
      through a page that is not shared is nobody else's ([vm_isolation]), as long as no
      htable_add() on the table of shares has failed.  Faults on anonymous memory and on
      pages that are copied on write are replied to, or stop vm for want of memory and for
      no other reason ([anon_fault_served], [cow_fault_served]); any fault comes to one of
      six outcomes, each with its condition ([vm_fault_outcome]); fork, munmap,
      erase, uploads and faults change what they are to change and no other page or
      contents; the search for mappings finds them exactly.
    - Memory of system tasks: in every state sysmem reaches, its books agree
      ([sysmem_reachable_sane]), no two logical pages have a physical page or a part of a
      compressed one in common, and what is mapped to a task is its own
      ([sysmem_isolation]).  Replacement and expansion change no task's memory
      ([sysmem_replacement_transparent], [sysmem_compression_roundtrip]); faults are
      served or stop for the reasons named ([sysmem_fault_outcome]); brk, rm_task,
      send_virt, alter_flags and send_phys have their exact effects.
    - Messages: a client gets each message it subscribed to with a label it put into its
      filter, however filters fill up ([sysmsg_filter_lets_pass]), and a broadcast reaches
      its recipients once each ([sysmsg_broadcast_exact]).
    - Threads: at most one has a mutex ([mtx_mutual_exclusion]), none sleeps on a mutex
      that nobody is to unlock, unless its owner's mtx_unlock() has failed without saying so
      or its assertion has stopped the owner ([mtx_no_lost_waiter]), the lists are served in order
      ([mtx_handed_in_order]), and the assertions hold but for one, which a thread fails
      when it runs before the word of its mutex was changed ([mtx_assertions_hold]).
    - Wake-ups: every thread a notification concerns is replied to ([io_notify_wakes],
      [pipe_write_wakes_reader]).
    - Life cycle of processes: thread numbers, exit, wait and the destruction of
      zombies exactly once; who may signal whom; which credentials a process gets.
    - Program loading: accepted images are covered by whole pages, argument blocks
      round-trip, the startup stack is laid out as the runtime reads it, and exec
      either leaves its caller alone or has given it up.
    - Library functions: string functions agree with their specifications, hashes are
      injective, descriptors are the lowest free ones and survive exec, and qsort() sorts
      ([qsort_sorts]).
    - Errors: what bad descriptors, the wrong end of a pipe and the last close() come
      to, including where the code stops on an assertion or, with a descriptor number past
      the 2^16 of the table, reads outside of its memory ([bad_descriptor_outcome]).

    ** Not modelled

    The microkernel itself; IDL stubs and their dispatch (generated); the allocator,
    LZ4, red-black trees and CCAN (third-party code, which appears as classes with
    laws or as the data it stands for: the rebalancing of trees is [RbOps]); the order
    of memory accesses between threads, except within lib/mtx.c; lifecycle events are
    atomic here.  vm has one thread, so that the epochs of its lists are left out, as are the
    checks of its books that only a debugging build makes, whose conditions on pages
    [VmProps] has as the invariant.  Boot code (vm's in sys/vm/boot.c too), device
    drivers and test programs are one-time or hardware I/O.  Of
    sysmem, its debugging output, the abend() helper that is compiled out and the
    contents of the kmsg buffer are left out.  Of the mutexes, their initialisation and
    destruction are left out, with the magic number that says they are in use, and IPC that
    fails after a call was received; calls that fail before, in mtx_lock() and in
    mtx_unlock(), are steps of the model.  The file system server, the clients' side of the message
    server, path resolution, threads and condition variables, and the user runtime beyond
    descriptors are not modelled. *)
From Stdlib Require Export ZArith Lia Sorting.Sorted.
From stdpp Require Export base numbers gmap list.
#[global] Open Scope Z_scope.

(** ** Machine integers *)

Definition u8 (z : Z) : Z := z mod 2 ^ 8.
Definition u16 (z : Z) : Z := z mod 2 ^ 16.
Definition u32 (z : Z) : Z := z mod 2 ^ 32.
Definition u64 (z : Z) : Z := z mod 2 ^ 64.

(** Two's complement reading of the low [w] bits of [z]. *)
Definition signed (w z : Z) : Z :=
  let r := z mod 2 ^ w in if r <? 2 ^ (w - 1) then r else r - 2 ^ w.
Definition s8 (z : Z) : Z := signed 8 z.
Definition s16 (z : Z) : Z := signed 16 z.
Definition s32 (z : Z) : Z := signed 32 z.
Definition s64 (z : Z) : Z := signed 64 z.

(** C's [~x] on an unsigned [w]-bit value. *)
Definition unot (w x : Z) : Z := Z.lnot x mod 2 ^ w.
Definition bnot64 (x : Z) : Z := unot 64 x.
Definition bnot32 (x : Z) : Z := unot 32 x.

(** [ffsll(x)], [ffsl(x)]: one plus the index of the lowest set bit, 0 for 0. *)
Definition ffs_fuel (w : nat) (x : Z) : Z :=
  (fix go n i := match n with
                 | O => 0
                 | S n' => if Z.testbit x i then i + 1 else go n' (i + 1)
                 end) w 0.
Definition ffsll (x : Z) : Z := ffs_fuel 64 x.
Definition ffsl (x : Z) : Z := ffs_fuel 32 x.

Definition bool_to_Z (b : bool) : Z := if b then 1 else 0.

(** ** Error numbers, <errno.h> *)

Definition EPERM : Z := 1.
Definition ENOENT : Z := 2.
Definition ESRCH : Z := 3.
Definition EINTR : Z := 4.
Definition EIO : Z := 5.
Definition E2BIG : Z := 7.
Definition ENOEXEC : Z := 8.
Definition EBADF : Z := 9.
Definition ECHILD : Z := 10.
Definition EAGAIN : Z := 11.
Definition ENOMEM : Z := 12.
Definition EACCES : Z := 13.
Definition EFAULT : Z := 14.
Definition EBUSY : Z := 16.
Definition EEXIST : Z := 17.
Definition ENOTDIR : Z := 20.
Definition EISDIR : Z := 21.
Definition EINVAL : Z := 22.
Definition EMFILE : Z := 24.
Definition ENOTTY : Z := 25.
Definition ESPIPE : Z := 29.
Definition EROFS : Z := 30.
Definition EPIPE : Z := 32.
Definition ERANGE : Z := 34.
Definition EDEADLK : Z := 35.
Definition ENAMETOOLONG : Z := 36.
Definition ENOSYS : Z := 38.
Definition EWOULDBLOCK : Z := 41.
Definition EOVERFLOW : Z := 75.
Definition ETIMEDOUT : Z := 110.

(** ** A state monad with hard stops *)

Inductive stop :=
| StAssert     (* a failing assert() *)
| StAbort      (* abort() *)
| StPanic      (* panic() *)
| StFault      (* a null or dangling dereference *)
| StUB         (* undefined behaviour of an integer operation *)
| StFuel.      (* the bound given to a recursion was used up *)

#[global] Instance stop_eq_dec : EqDecision stop.
Proof. solve_decision. Defined.

Inductive result (S A : Type) :=
| Ret (a : A) (s : S)
| Stop (r : stop).
Arguments Ret {S A} _ _.
Arguments Stop {S A} _.

Definition M (S A : Type) : Type := S -> result S A.

#[global] Instance M_ret S : MRet (M S) := fun A a s => Ret a s.
#[global] Instance M_bind S : MBind (M S) := fun A B k m s =>
  match m s with Ret a s' => k a s' | Stop r => Stop r end.

Definition halt {S A} (r : stop) : M S A := fun _ => Stop r.
Definition get {S} : M S S := fun s => Ret s s.
Definition gets {S A} (f : S -> A) : M S A := fun s => Ret (f s) s.
Definition modify {S} (f : S -> S) : M S unit := fun s => Ret tt (f s).
Definition assert_ {S} (b : bool) : M S unit :=
  fun s => if b then Ret tt s else Stop StAssert.
Definition of_option {S A} (r : stop) (o : option A) : M S A :=
  fun s => match o with Some a => Ret a s | None => Stop r end.
Definition when_ {S} (b : bool) (m : M S unit) : M S unit :=
  if b then m else mret tt.

(** [x << n] on a 64-bit unsigned operand: undefined for a count of 64 or more. *)
Definition shl_ull {S} (x n : Z) : M S Z :=
  if (0 <=? n) && (n <? 64) then mret (u64 (Z.shiftl x n)) else halt StUB.

Fixpoint mapM_ {S A} (f : A -> M S unit) (l : list A) : M S unit :=
  match l with [] => mret tt | x :: l => _ ← f x; mapM_ f l end.

(** ** Lemmas on the monad *)

Section monad.
Context {S : Type}.

Lemma bind_ret_inv {A B} (m : M S A) (k : A -> M S B) s b s' :
  (m ≫= k) s = Ret b s' <-> exists a s1, m s = Ret a s1 /\ k a s1 = Ret b s'.
Proof.
  unfold mbind, M_bind. destruct (m s) as [a s1|r]; split.
  - intros H. by exists a, s1.
  - intros (a' & s1' & [= -> ->] & H). exact H.
  - done.
  - intros (? & ? & ? & ?). done.
Qed.

Lemma mret_inv {A} (a : A) s b s' :
  (mret a : M S A) s = Ret b s' <-> b = a /\ s' = s.
Proof. unfold mret, M_ret. split; [intros E; by inversion E | by intros [-> ->]]. Qed.

Lemma assert_inv b s u s' :
  (assert_ b : M S unit) s = Ret u s' <-> b = true /\ s' = s.
Proof.
  unfold assert_. destruct u, b; split; intros E; inversion E; subst; done.
Qed.

Lemma bind_gets {A B} (f : S -> A) (k : A -> M S B) s :
  (gets f ≫= k) s = k (f s) s.
Proof. done. Qed.
Lemma bind_get {B} (k : S -> M S B) s : (get ≫= k) s = k s s.
Proof. done. Qed.
Lemma bind_modify {B} f (k : unit -> M S B) s : (modify f ≫= k) s = k tt (f s).
Proof. done. Qed.
Lemma bind_mret {A B} (a : A) (k : A -> M S B) s : (mret a ≫= k) s = k a s.
Proof. done. Qed.
Lemma bind_bind {A B C} (m : M S A) (k : A -> M S B) (l : B -> M S C) s :
  ((m ≫= k) ≫= l) s = (m ≫= (fun a => k a ≫= l)) s.
Proof. unfold mbind, M_bind. by destruct (m s). Qed.
Lemma bind_halt {A B} r (k : A -> M S B) s : (halt r ≫= k) s = Stop r.
Proof. done. Qed.
Lemma bind_assert {B} b (k : unit -> M S B) s :
  (assert_ b ≫= k) s = if b then k tt s else Stop StAssert.
Proof. by destruct b. Qed.
Lemma bind_of_some {A B} r a (k : A -> M S B) s : (of_option r (Some a) ≫= k) s = k a s.
Proof. done. Qed.
Lemma bind_if {A B} (b : bool) (m1 m2 : M S A) (k : A -> M S B) s :
  ((if b then m1 else m2) ≫= k) s = if b then (m1 ≫= k) s else (m2 ≫= k) s.
Proof. by destruct b. Qed.
Lemma bind_ext {A B} (m : M S A) (k l : A -> M S B) s :
  (forall a s', k a s' = l a s') -> (m ≫= k) s = (m ≫= l) s.
Proof. intros E. unfold mbind, M_bind. destruct (m s); auto. Qed.
Lemma bind_ret {A B} (m : M S A) (k : A -> M S B) s a s' :
  m s = Ret a s' -> (m ≫= k) s = k a s'.
Proof. intros E. unfold mbind, M_bind. by rewrite E. Qed.

(** [preserves I m]: whenever [m] returns from a state satisfying [I], the
    final state satisfies [I] too. *)
Definition preserves (I : S -> Prop) {A} (m : M S A) : Prop :=
  forall s a s', I s -> m s = Ret a s' -> I s'.

Context (I : S -> Prop).

Lemma preserves_bind {A B} (m : M S A) (k : A -> M S B) :
  preserves I m -> (forall a, preserves I (k a)) -> preserves I (m ≫= k).
Proof. intros Hm Hk s b s' Hs (a & s1 & H1 & H2)%bind_ret_inv.
  exact (Hk a s1 b s' (Hm s a s1 Hs H1) H2). Qed.

Lemma preserves_ret {A} (a : A) : preserves I (mret a).
Proof. intros s b s' Hs [_ ->]%mret_inv. done. Qed.

Lemma preserves_halt {A} r : preserves I (halt r : M S A).
Proof. intros s b s' _ H. discriminate H. Qed.

Lemma preserves_gets {A} (f : S -> A) : preserves I (gets f).
Proof. intros s b s' Hs [= <- <-]. done. Qed.

Lemma preserves_get : preserves I get.
Proof. intros s b s' Hs [= <- <-]. done. Qed.

Lemma preserves_assert b : preserves I (assert_ b).
Proof. intros s u s' Hs [_ ->]%assert_inv. done. Qed.

Lemma preserves_of_option {A} r (o : option A) : preserves I (of_option r o).
Proof. intros s u s' Hs. unfold of_option. destruct o; [by intros [= _ <-] | done]. Qed.

Lemma preserves_modify f : (forall s, I s -> I (f s)) -> preserves I (modify f).
Proof. intros Hf s u s' Hs [= _ <-]. auto. Qed.

Lemma preserves_when b m : preserves I m -> preserves I (when_ b m).
Proof. intros Hm. destruct b; [done | apply preserves_ret]. Qed.

Lemma preserves_if {A} (b : bool) (m1 m2 : M S A) :
  preserves I m1 -> preserves I m2 -> preserves I (if b then m1 else m2).
Proof. by destruct b. Qed.
End monad.

(** ** Runs that end well or stop for an allowed reason

    [wp E m Q s]: from [s], [m] returns a value and a state that satisfy [Q], or stops
    for a reason in [E]. *)
Definition wp {S A} (E : stop -> Prop) (m : M S A) (Q : A -> S -> Prop) (s : S) : Prop :=
  match m s with Ret a s' => Q a s' | Stop r => E r end.

Section wp.
Context {S : Type} (E : stop -> Prop).

Lemma wp_bind {A B} (m : M S A) (k : A -> M S B) Q s :
  wp E m (fun a s' => wp E (k a) Q s') s -> wp E (m ≫= k) Q s.
Proof. unfold wp, mbind, M_bind. by destruct (m s). Qed.
Lemma wp_ret {A} (a : A) (Q : A -> S -> Prop) s : Q a s -> wp E (mret a) Q s.
Proof. done. Qed.
Lemma wp_get (Q : S -> S -> Prop) s : Q s s -> wp E get Q s.
Proof. done. Qed.
Lemma wp_gets {A} (f : S -> A) (Q : A -> S -> Prop) s : Q (f s) s -> wp E (gets f) Q s.
Proof. done. Qed.
Lemma wp_modify f (Q : unit -> S -> Prop) s : Q tt (f s) -> wp E (modify f) Q s.
Proof. done. Qed.
Lemma wp_halt {A} r (Q : A -> S -> Prop) s : E r -> wp E (halt r) Q s.
Proof. done. Qed.
Lemma wp_assert b (Q : unit -> S -> Prop) s : b = true -> Q tt s -> wp E (assert_ b) Q s.
Proof. by intros ->. Qed.
Lemma wp_of_some {A} r (o : option A) a (Q : A -> S -> Prop) s : o = Some a -> Q a s -> wp E (of_option r o) Q s.
Proof. by intros ->. Qed.
Lemma wp_conseq {A} (m : M S A) (Q Q' : A -> S -> Prop) s :
  wp E m Q s -> (forall a s', Q a s' -> Q' a s') -> wp E m Q' s.
Proof. unfold wp. destruct (m s); auto. Qed.
Lemma wp_when b (m : M S unit) Q s : (b = true -> wp E m Q s) -> (b = false -> Q tt s) -> wp E (when_ b m) Q s.
Proof. destruct b; intros H1 H2; [by apply H1|by apply H2]. Qed.
Lemma wp_mono {A} (E' : stop -> Prop) (m : M S A) Q s : wp E m Q s -> (forall r, E r -> E' r) -> wp E' m Q s.
Proof. unfold wp. destruct (m s); auto. Qed.
Lemma wp_assert_false b (Q : unit -> S -> Prop) s : b = false -> E StAssert -> wp E (assert_ b) Q s.
Proof. by intros ->. Qed.
Lemma wp_assoc {A B C} (m : M S A) (g : A -> M S B) (k : B -> M S C) Q s :
  wp E (x ← (y ← m; g y); k x) Q s -> wp E (y ← m; x ← g y; k x) Q s.
Proof. unfold wp, mbind, M_bind. by destruct (m s). Qed.
Lemma wp_run {A} (m : M S A) Q s a s' : wp E m Q s -> m s = Ret a s' -> Q a s'.
Proof. unfold wp. intros H E0. by rewrite E0 in H. Qed.
End wp.

(** Goes through the primitive steps at the head of a program. *)
Ltac wp_step :=
  lazymatch goal with
  | |- wp _ (_ ≫= _) _ _ => apply wp_bind
  | |- wp _ (mret _) _ _ => apply wp_ret
  | |- wp _ get _ _ => apply wp_get
  | |- wp _ (gets _) _ _ => apply wp_gets
  | |- wp _ (modify _) _ _ => apply wp_modify
  | |- wp _ (halt _) _ _ => apply wp_halt
  end; cbv beta.
Ltac wp_steps := repeat wp_step.

Create HintDb preserves discriminated.
#[export] Hint Resolve preserves_bind preserves_ret preserves_halt preserves_gets
  preserves_get preserves_assert preserves_of_option preserves_when preserves_if
  : preserves.

Create Rewrite HintDb monad.
#[export] Hint Rewrite @bind_gets @bind_get @bind_modify @bind_mret @bind_bind
  @bind_halt @bind_assert @bind_of_some : monad.

(** Evaluate the primitive steps at the head of a monadic program. *)
Ltac mstep := repeat (progress (try autorewrite with monad; cbn beta match)).
Ltac mstep_in H :=
  repeat (progress (try autorewrite with monad in H; cbn beta match in H)).

(** Decompose [m s = Ret a s'] for a monadic program into its steps. *)
Ltac run_inv :=
  repeat match goal with
  | H : (_ ≫= _) _ = Ret _ _ |- _ =>
      let a := fresh "v" in let s := fresh "s" in
      let H1 := fresh "Hm" in let H2 := fresh "Hk" in
      apply bind_ret_inv in H as (a & s & H1 & H2)
  | H : mret _ _ = Ret _ _ |- _ => apply mret_inv in H as [? ?]; subst
  | H : assert_ _ _ = Ret _ _ |- _ => apply assert_inv in H as [? ?]; subst
  | H : halt _ _ = Ret _ _ |- _ => discriminate H
  | H : gets _ _ = Ret _ _ |- _ => injection H as ? ?; subst
  | H : get _ = Ret _ _ |- _ => injection H as ? ?; subst
  | H : modify _ _ = Ret _ _ |- _ => injection H as ? ?; subst
  | H : Ret _ _ = Ret _ _ |- _ => injection H as ? ?; subst
  | H : Stop _ = Ret _ _ |- _ => discriminate H
  end.

(** ** Lemmas on machine integers *)

Lemma u32_range z : 0 <= u32 z < 2 ^ 32.
Proof. apply Z.mod_pos_bound. lia. Qed.
Lemma u32_id z : 0 <= z < 2 ^ 32 -> u32 z = z.
Proof. apply Z.mod_small. Qed.
Lemma u64_range z : 0 <= u64 z < 2 ^ 64.
Proof. apply Z.mod_pos_bound. lia. Qed.
Lemma u64_id z : 0 <= z < 2 ^ 64 -> u64 z = z.
Proof. apply Z.mod_small. Qed.

Lemma mod_pow2_testbit w z i :
  0 <= w -> Z.testbit (z mod 2 ^ w) i = (i <? w) && Z.testbit z i.
Proof.
  intros Hw. destruct (Z.ltb_spec i w).
  - rewrite Z.mod_pow2_bits_low by lia. done.
  - rewrite Z.mod_pow2_bits_high by lia. done.
Qed.

Lemma unot_testbit w x i :
  0 <= w -> 0 <= i -> Z.testbit (unot w x) i = (i <? w) && negb (Z.testbit x i).
Proof. intros Hw Hi. unfold unot. by rewrite mod_pow2_testbit, Z.lnot_spec. Qed.

Lemma testbit_high w x i : 0 <= w -> 0 <= x < 2 ^ w -> w <= i -> Z.testbit x i = false.
Proof.
  intros Hw Hx Hi. rewrite <- (Z.mod_small x (2 ^ w)) by done.
  apply Z.mod_pow2_bits_high. lia.
Qed.

Lemma bits_bound w x : 0 <= w -> 0 <= x ->
  (forall i, w <= i -> Z.testbit x i = false) -> x < 2 ^ w.
Proof.
  intros Hw Hx H. destruct (Z.eq_dec x 0) as [->|]; [lia|].
  apply Z.log2_lt_pow2; [lia|]. destruct (Z.lt_ge_cases (Z.log2 x) w); [done|].
  specialize (H (Z.log2 x) H0). rewrite Z.bit_log2 in H by lia. done.
Qed.

Lemma signed_range w z : 0 < w -> - 2 ^ (w - 1) <= signed w z < 2 ^ (w - 1).
Proof.
  intros Hw. unfold signed. assert (2 ^ w = 2 * 2 ^ (w - 1)) as E.
  { rewrite <- Z.pow_succ_r by lia. f_equal. lia. }
  pose proof (Z.mod_pos_bound z (2 ^ w) ltac:(lia)).
  destruct (Z.ltb_spec (z mod 2 ^ w) (2 ^ (w - 1))); lia.
Qed.

Lemma signed_id w z : 0 < w -> - 2 ^ (w - 1) <= z < 2 ^ (w - 1) -> signed w z = z.
Proof.
  intros Hw Hz. unfold signed. assert (2 ^ w = 2 * 2 ^ (w - 1)) as E.
  { rewrite <- Z.pow_succ_r by lia. f_equal. lia. }
  destruct (Z.le_gt_cases 0 z).
  - rewrite Z.mod_small by lia. destruct (Z.ltb_spec z (2 ^ (w - 1))); lia.
  - rewrite <- (Z.mod_add z 1), Z.mod_small by lia.
    destruct (Z.ltb_spec (z + 1 * 2 ^ w) (2 ^ (w - 1))); lia.
Qed.

Section ffs.
Lemma ffs_go_spec n x : forall i, 0 <= i ->
  let r := (fix go n i := match n with
               | O => 0
               | S n' => if Z.testbit x i then i + 1 else go n' (i + 1)
               end) n i in
  (r = 0 /\ forall j, i <= j < i + Z.of_nat n -> Z.testbit x j = false)
  \/ (i < r <= i + Z.of_nat n /\ Z.testbit x (r - 1) = true
      /\ forall j, i <= j < r - 1 -> Z.testbit x j = false).
Proof.
  induction n as [|n IH]; intros i Hi; simpl.
  - left. split; [done | lia].
  - destruct (Z.testbit x i) eqn:E.
    + right. replace (i + 1 - 1) with i by lia. split; [lia|]. split; [done | lia].
    + destruct (IH (i + 1) ltac:(lia)) as [[Hr H]|[Hr [Ht H]]].
      * left. split; [done|]. intros j Hj.
        destruct (Z.eq_dec j i) as [->|]; [done | apply H; lia].
      * right. split; [lia|]. split; [done|]. intros j Hj.
        destruct (Z.eq_dec j i) as [->|]; [done | apply H; lia].
Qed.

(** [ffs] returns 0 exactly when the low [w] bits are clear, and otherwise one
    plus the position of the lowest set bit. *)
Lemma ffs_spec w x :
  (ffs_fuel w x = 0 /\ forall j, 0 <= j < Z.of_nat w -> Z.testbit x j = false)
  \/ (0 < ffs_fuel w x <= Z.of_nat w /\ Z.testbit x (ffs_fuel w x - 1) = true
      /\ forall j, 0 <= j < ffs_fuel w x - 1 -> Z.testbit x j = false).
Proof. exact (ffs_go_spec w x 0 ltac:(lia)). Qed.
End ffs.

Lemma ffsll_pos x : 0 < x < 2 ^ 64 -> 1 <= ffsll x <= 64.
Proof.
  intros Hx. destruct (ffs_spec 64 x) as [[_ H]|[H _]]; [|unfold ffsll; lia].
  exfalso. assert (x = 0); [|lia]. apply Z.bits_inj'. intros n Hn. rewrite Z.bits_0.
  destruct (Z.lt_ge_cases n 64); [apply H; lia | apply (testbit_high 64); lia].
Qed.

(** Composing disjoint bit fields by [lor] is addition. *)
Lemma lor_shiftl_add a b k : 0 <= k -> 0 <= b < 2 ^ k ->
  Z.lor (Z.shiftl a k) b = a * 2 ^ k + b.
Proof.
  intros Hk Hb. rewrite <- Z.shiftl_mul_pow2 by done. symmetry.
  rewrite Z.add_nocarry_lxor; [apply Z.lxor_lor|]; apply Z.bits_inj'; intros i Hi;
    rewrite Z.land_spec, Z.shiftl_spec, Z.bits_0 by done;
    (destruct (Z.lt_ge_cases i k);
     [rewrite (Z.testbit_neg_r a) by lia; done
     | rewrite (testbit_high k b) by lia; apply andb_false_r]).
Qed.

Lemma land_1 v : Z.land v 1 = v mod 2.
Proof. exact (Z.land_ones v 1 ltac:(lia)). Qed.
Lemma land_3 v : Z.land v 3 = v mod 4.
Proof. exact (Z.land_ones v 2 ltac:(lia)). Qed.

(** Masking with a run of [w] ones at bit [k] extracts that field in place. *)
Lemma land_field n w k : 0 <= w -> 0 <= k ->
  Z.land n (Z.shiftl (Z.ones w) k) = n / 2 ^ k mod 2 ^ w * 2 ^ k.
Proof.
  intros Hw Hk. rewrite <- Z.shiftl_mul_pow2, <- Z.land_ones, <- Z.shiftr_div_pow2 by lia.
  apply Z.bits_inj'. intros i Hi. rewrite Z.land_spec, !Z.shiftl_spec, Z.land_spec by lia.
  destruct (Z.lt_ge_cases i k).
  - rewrite !(Z.testbit_neg_r _ (i - k)) by lia. by rewrite !andb_false_r.
  - rewrite Z.shiftr_spec by lia. by replace (i - k + k) with i by lia.
Qed.

(** Filters that agree on the elements of a list agree on the list. *)
Lemma filter_ext_elem {A} (P Q : A -> Prop) `{!forall x, Decision (P x), !forall x, Decision (Q x)} (l : list A) :
  (forall x, x ∈ l -> P x <-> Q x) -> filter P l = filter Q l.
Proof.
  induction l as [|x l IH]; intros Hl; [done|]. rewrite !filter_cons.
  rewrite IH by (intros y Hy; apply Hl; by constructor).
  pose proof (Hl x ltac:(by constructor)). repeat case_decide; tauto.
Qed.

Lemma filter_all {A} (P : A -> Prop) `{!forall x, Decision (P x)} (l : list A) :
  (forall x, x ∈ l -> P x) -> filter P l = l.
Proof.
  intros Hl. induction l as [|x l IH]; [done|]. rewrite filter_cons_True by (apply Hl; by left). f_equal. apply IH. set_solver.
Qed.

Lemma StronglySorted_filter {A} (R : A -> A -> Prop) (P : A -> Prop)
    `{!forall x, Decision (P x)} (l : list A) :
  StronglySorted R l -> StronglySorted R (filter P l).
Proof.
  induction 1 as [|x l _ IH Hx]; [constructor|]. rewrite filter_cons.
  case_decide; [|done]. constructor; [done|]. rewrite Forall_forall in Hx |- *.
  intros y [_ Hy]%list_elem_of_filter. auto.
Qed.

Lemma StronglySorted_seqZ m n : StronglySorted Z.lt (seqZ m n).
Proof.
  destruct (Z.le_gt_cases n 0); [rewrite seqZ_nil by done; constructor|].
  rewrite <- (Z2Nat.id n) by lia. generalize (Z.to_nat n) as k. clear n H.
  intros k. revert m. induction k as [|k IH]; intros m; [constructor|].
  rewrite seqZ_cons by lia. constructor; [|apply Forall_forall; intros y Hy%elem_of_seqZ; lia].
  replace (Z.pred (Z.of_nat (S k))) with (Z.of_nat k) by lia. apply IH.
Qed.

(** Goals and hypotheses made of [NoDup] over [++] and [::]. *)
Ltac nodup_solver :=
  repeat match goal with
  | H : NoDup _ |- _ => progress (repeat rewrite ?NoDup_app, ?NoDup_cons in H)
  end;
  repeat (rewrite NoDup_app || rewrite NoDup_cons);
  destruct_and?; split_and?; try apply NoDup_nil_2; try done; set_solver.
