(* ===== verification/L4.v ===== *)
(** The part of the L4.X2 binary interface sneks relies on, as a class of
    operations with their documented laws (the microkernel's headers are not
    part of this repository), an instance with the 32-bit layout of the L4.X2
    reference manual, and the process-ID encoding of lib/pidof.c on top. *)
From S2P Require Import Prelude.

(** ** Interface of the microkernel's ID types *)

(** Thread IDs and flexpages are raw machine words, as in the C headers.
    [nilthread] and [nilpage] are the zero word. *)
Class L4Abi := {
  L4_GlobalId : Z -> Z -> Z;        (* thread number, version *)
  L4_ThreadNo : Z -> Z;
  L4_Version : Z -> Z;
  L4_IsLocalId : Z -> bool;
  L4_FpageLog2 : Z -> Z -> Z;       (* base address, size log2 *)
  L4_Address : Z -> Z;
  L4_SizeLog2 : Z -> Z;
  L4_Set_Rights : Z -> Z -> Z;      (* flexpage, rights *)
  ThreadNo_GlobalId n v :
    0 <= n < 2 ^ 18 -> 0 <= v < 2 ^ 14 -> L4_ThreadNo (L4_GlobalId n v) = n;
  Version_GlobalId n v :
    0 <= n < 2 ^ 18 -> 0 <= v < 2 ^ 14 -> L4_Version (L4_GlobalId n v) = v;
  Version_range t : 0 <= L4_Version t < 2 ^ 14;
  (* a global ID has a nonzero value in the low six version bits *)
  IsLocalId_GlobalId n v :
    0 <= n < 2 ^ 18 -> 0 <= v < 2 ^ 14 ->
    L4_IsLocalId (L4_GlobalId n v) = (v mod 64 =? 0);
  GlobalId_not_nil n v :
    0 <= n < 2 ^ 18 -> 0 <= v < 2 ^ 14 -> v mod 64 <> 0 -> L4_GlobalId n v <> 0;
  Address_FpageLog2 a s :
    10 <= s < 32 -> 0 <= a < 2 ^ 32 -> a mod 2 ^ s = 0 ->
    L4_Address (L4_FpageLog2 a s) = a;
  SizeLog2_FpageLog2 a s :
    10 <= s < 32 -> 0 <= a < 2 ^ 32 -> a mod 2 ^ s = 0 ->
    L4_SizeLog2 (L4_FpageLog2 a s) = s;
  FpageLog2_not_nil a s :
    10 <= s < 32 -> 0 <= a < 2 ^ 32 -> a mod 2 ^ s = 0 ->
    L4_FpageLog2 a s <> 0;
  (* rights are apart from where a flexpage is *)
  Address_Set_Rights f r : 10 <= L4_SizeLog2 f -> L4_Address (L4_Set_Rights f r) = L4_Address f;
  SizeLog2_Set_Rights f r : L4_SizeLog2 (L4_Set_Rights f r) = L4_SizeLog2 f;
  Set_Rights_not_nil f r : 0 <= f -> 0 < r < 8 -> L4_Set_Rights f r <> 0
}.

Definition L4_nilthread : Z := 0.
Definition L4_Nilpage : Z := 0.
Definition L4_IsNilThread (t : Z) : bool := t =? L4_nilthread.
Definition L4_IsNilFpage (f : Z) : bool := f =? L4_Nilpage.

(** ** lib/pidof.c *)

Definition FF_CWD : Z := 2 ^ 16.          (* marks __cwd_fd in struct sneks_startup_fd *)
Definition SNEKS_MAX_PID : Z := 32767.
Definition SNEKS_MIN_SYSID : Z := 50000.
Definition SNEKS_PID_V_MASK : Z := 1.
Definition SNEKS_PID_V_VALUE : Z := 1.
Definition SNEKS_SYS_V_MASK : Z := 3.
Definition SNEKS_SYS_V_VALUE : Z := 2.
Definition SNEKS_PID_T_MASK : Z := 0x30000.
Definition SNEKS_PID_T_SHIFT : Z := 3.

Definition IS_SYSTASK (pid : Z) : bool := SNEKS_MIN_SYSID <=? pid.

Section pidof.
Context `{L4Abi}.

(** [my_global] is what [L4_MyGlobalId()] returns in the calling thread. *)
Definition pidof_NP (my_global tid : Z) : Z :=
  let tid := if L4_IsLocalId tid then my_global else tid in
  let v := L4_Version tid in
  let n := L4_ThreadNo tid in
  if Z.land v SNEKS_PID_V_MASK =? SNEKS_PID_V_VALUE then
    Z.lor (Z.shiftr v (ffsl (bnot32 SNEKS_PID_V_MASK) - 1))
          (Z.shiftr (Z.land n SNEKS_PID_T_MASK) SNEKS_PID_T_SHIFT)
  else if Z.land v SNEKS_SYS_V_MASK =? SNEKS_SYS_V_VALUE then
    u32 (SNEKS_MIN_SYSID + Z.shiftr v (ffsl (bnot32 SNEKS_SYS_V_MASK) - 1))
  else 0.

(** The thread ID [allocate_thread] of root/uapi.c composes for the thread
    number [bit] of number map [map] in the task [pid]. *)
Definition compose_tid (pid map bit : Z) : Z :=
  L4_GlobalId (Z.lor (Z.shiftl map 16) bit)
    (if IS_SYSTASK pid then Z.lor (Z.shiftl (pid - SNEKS_MIN_SYSID) 2) 2
     else Z.lor (Z.shiftl (Z.land pid 0x1fff) 1) 1).

(** Which of the four thread number maps a userspace process draws from. *)
Definition tno_map_of (pid : Z) : Z :=
  if IS_SYSTASK pid then 0 else Z.shiftr (Z.land pid 0x6000) 13.
End pidof.

(** ** An instance: 18 bits of thread number above 14 bits of version, and
    flexpages with the size in bits 4..9. *)

Lemma l4_fpage_arith a s :
  10 <= s < 32 -> 0 <= a < 2 ^ 32 -> a mod 2 ^ s = 0 ->
  let f := a / 2 ^ 10 * 2 ^ 10 + s * 16 in
  f / 16 mod 64 = s /\ f / 2 ^ s * 2 ^ s = a /\ f <> 0.
Proof.
  intros Hs Ha Hm f. assert (a / 2 ^ 10 * 2 ^ 10 = a) as E.
  { replace (2 ^ s) with (2 ^ (s - 10) * 2 ^ 10) in Hm; cycle 1.
    { rewrite <- Z.pow_add_r by lia. f_equal. lia. }
    apply Z.mod_divide in Hm as [q ->]; [|lia].
    rewrite Z.mul_assoc, Z.div_mul by lia. lia. }
  assert (f = a + s * 16) as -> by (unfold f; lia).
  assert (16 * s < 2 ^ s) as Hs2.
  { assert (2 ^ 10 <= 2 ^ s) by (apply Z.pow_le_mono_r; lia). lia. }
  apply Z.mod_divide in Hm as [q ->]; [|lia].
  split; [|split; [|lia]].
  - rewrite <- E. Z.to_euclidean_division_equations. lia.
  - rewrite Z.div_add_l, (Z.div_small (s * 16)) by lia. lia.
Qed.

#[refine] Definition l4_x2_32 : L4Abi := {|
  L4_GlobalId n v := n * 2 ^ 14 + v;
  L4_ThreadNo t := t / 2 ^ 14;
  L4_Version t := t mod 2 ^ 14;
  L4_IsLocalId t := t mod 64 =? 0;
  L4_FpageLog2 a s := a / 2 ^ 10 * 2 ^ 10 + s * 16;
  L4_Address f := f / 2 ^ (f / 16 mod 64) * 2 ^ (f / 16 mod 64);
  L4_SizeLog2 f := f / 16 mod 64;
  L4_Set_Rights f r := f / 16 * 16 + r mod 8
|}.
Proof.
  - intros n v Hn Hv. Z.to_euclidean_division_equations. lia.
  - intros n v Hn Hv. Z.to_euclidean_division_equations. lia.
  - intros t. by apply Z.mod_pos_bound.
  - intros n v Hn Hv. f_equal. Z.to_euclidean_division_equations. lia.
  - intros n v Hn Hv Hm E. apply Hm. replace v with 0 by lia. done.
  - intros a s Hs Ha Hm. destruct (l4_fpage_arith a s Hs Ha Hm) as (E1 & E2 & _).
    by rewrite E1, E2.
  - intros a s Hs Ha Hm. by destruct (l4_fpage_arith a s Hs Ha Hm) as (E1 & _ & _).
  - intros a s Hs Ha Hm. by destruct (l4_fpage_arith a s Hs Ha Hm) as (_ & _ & E).
  - cbn. intros f r Hs. assert ((f / 16 * 16 + r mod 8) / 16 = f / 16) as -> by (Z.to_euclidean_division_equations; lia).
    set (s := f / 16 mod 64) in *. f_equal.
    replace (2 ^ s) with (16 * 2 ^ (s - 4)); cycle 1.
    { change 16 with (2 ^ 4). rewrite <- Z.pow_add_r by lia. f_equal. lia. }
    rewrite <- !Z.div_div by lia. f_equal. Z.to_euclidean_division_equations. lia.
  - cbn. intros f r. f_equal. Z.to_euclidean_division_equations. lia.
  - cbn. intros f r Hf Hr. Z.to_euclidean_division_equations. lia.
Defined.

(** ** The PID encoding is revertible *)

Section pidof_lemmas.
Context `{L4Abi}.

(** What is not a process is a system task, of which there are as many as versions tell. *)
Lemma pidof_range g tid : pidof_NP g tid < 2 ^ 16.
Proof.
  unfold pidof_NP. set (t := if L4_IsLocalId tid then g else tid). pose proof (Version_range t) as Hv.
  set (v := L4_Version t) in *. set (n := L4_ThreadNo t). destruct (_ =? _); [|destruct (_ =? _); [|done]].
  - change (ffsl (bnot32 SNEKS_PID_V_MASK) - 1) with 1. unfold SNEKS_PID_T_MASK, SNEKS_PID_T_SHIFT.
    assert (0 <= Z.land n 0x30000) by (apply Z.land_nonneg; by right).
    apply bits_bound; [done| |].
    + apply Z.lor_nonneg. rewrite !Z.shiftr_nonneg. lia.
    + intros i Hi. rewrite Z.lor_spec, !Z.shiftr_spec, Z.land_spec by lia.
      rewrite (testbit_high 14 v), (testbit_high 18 0x30000) by lia. by rewrite andb_false_r.
  - change (ffsl (bnot32 SNEKS_SYS_V_MASK) - 1) with 2. unfold SNEKS_MIN_SYSID. rewrite Z.shiftr_div_pow2, u32_id by (Z.to_euclidean_division_equations; lia).
    Z.to_euclidean_division_equations; lia.
Qed.

Lemma compose_user_fields pid bit :
  1 <= pid <= SNEKS_MAX_PID -> 0 <= bit < 2 ^ 16 ->
  let n := Z.lor (Z.shiftl (tno_map_of pid) 16) bit in
  let v := Z.lor (Z.shiftl (Z.land pid 0x1fff) 1) 1 in
  n = (pid / 2 ^ 13) * 2 ^ 16 + bit /\ v = 2 * (pid mod 2 ^ 13) + 1
  /\ 0 <= n < 2 ^ 18 /\ 0 <= v < 2 ^ 14.
Proof.
  intros Hp Hb n v. unfold SNEKS_MAX_PID in Hp.
  assert (tno_map_of pid = pid / 2 ^ 13) as Em.
  { unfold tno_map_of, IS_SYSTASK, SNEKS_MIN_SYSID.
    destruct (Z.leb_spec 50000 pid); [lia|].
    rewrite Z.shiftr_land. change (Z.shiftr 0x6000 13) with (Z.ones 2).
    rewrite Z.land_ones by lia.
    rewrite Z.shiftr_div_pow2 by lia. apply Z.mod_small.
    Z.to_euclidean_division_equations. lia. }
  assert (n = pid / 2 ^ 13 * 2 ^ 16 + bit) as En.
  { unfold n. rewrite Em. apply lor_shiftl_add; lia. }
  assert (v = 2 * (pid mod 2 ^ 13) + 1) as Ev.
  { unfold v. rewrite lor_shiftl_add by lia.
    change 0x1fff with (Z.ones 13). rewrite Z.land_ones by lia. lia. }
  split; [done|]. split; [done|]. rewrite En, Ev.
  split; Z.to_euclidean_division_equations; lia.
Qed.

(** A thread ID composed for a userspace process reads back as its PID. *)
Lemma pidof_compose_user g pid bit :
  1 <= pid <= SNEKS_MAX_PID -> 0 <= bit < 2 ^ 16 ->
  pidof_NP g (compose_tid pid (tno_map_of pid) bit) = pid
  /\ compose_tid pid (tno_map_of pid) bit <> L4_nilthread.
Proof.
  intros Hp Hb. destruct (compose_user_fields pid bit Hp Hb) as (En & Ev & Rn & Rv).
  unfold compose_tid. replace (IS_SYSTASK pid) with false; cycle 1.
  { symmetry. apply Z.leb_gt. unfold SNEKS_MIN_SYSID, SNEKS_MAX_PID in *. lia. }
  unfold pidof_NP. rewrite IsLocalId_GlobalId by done.
  assert ((Z.lor (Z.shiftl (Z.land pid 0x1fff) 1) 1) mod 64 <> 0) as Hl.
  { rewrite Ev. Z.to_euclidean_division_equations. lia. }
  split; [|by apply GlobalId_not_nil].
  replace (_ mod 64 =? 0) with false by (symmetry; by apply Z.eqb_neq).
  rewrite Version_GlobalId, ThreadNo_GlobalId by done. rewrite En, Ev.
  unfold SNEKS_PID_V_MASK, SNEKS_PID_V_VALUE, SNEKS_PID_T_MASK, SNEKS_PID_T_SHIFT.
  rewrite land_1. replace ((2 * (pid mod 2 ^ 13) + 1) mod 2 =? 1) with true; cycle 1.
  { symmetry. apply Z.eqb_eq. Z.to_euclidean_division_equations. lia. }
  change (ffsl (bnot32 1) - 1) with 1. change 0x30000 with (Z.shiftl (Z.ones 2) 16).
  rewrite land_field, !Z.shiftr_div_pow2 by lia.
  unfold SNEKS_MAX_PID in *.
  replace (_ / 2 ^ 3) with (pid / 2 ^ 13 * 2 ^ 13)
    by (Z.to_euclidean_division_equations; lia).
  rewrite <- Z.shiftl_mul_pow2, Z.lor_comm, lor_shiftl_add by
    (try (Z.to_euclidean_division_equations); lia).
  Z.to_euclidean_division_equations. lia.
Qed.

(** Likewise for the first 4096 system task IDs, from any number map. *)
Lemma pidof_compose_systask g pid map bit :
  SNEKS_MIN_SYSID <= pid < SNEKS_MIN_SYSID + 4096 -> 0 <= map < 4 -> 0 <= bit < 2 ^ 16 ->
  pidof_NP g (compose_tid pid map bit) = pid
  /\ compose_tid pid map bit <> L4_nilthread.
Proof.
  intros Hp Hm Hb. unfold compose_tid.
  replace (IS_SYSTASK pid) with true by (symmetry; apply Z.leb_le; lia).
  rewrite !lor_shiftl_add by lia.
  unfold SNEKS_MIN_SYSID in *. unfold pidof_NP.
  rewrite IsLocalId_GlobalId by lia.
  assert (((pid - 50000) * 2 ^ 2 + 2) mod 64 <> 0) as Hl.
  { Z.to_euclidean_division_equations. lia. }
  split; [|apply GlobalId_not_nil; [lia..|done]].
  replace (_ mod 64 =? 0) with false by (symmetry; by apply Z.eqb_neq).
  rewrite Version_GlobalId by lia.
  unfold SNEKS_PID_V_MASK, SNEKS_PID_V_VALUE, SNEKS_SYS_V_MASK, SNEKS_SYS_V_VALUE, SNEKS_MIN_SYSID.
  rewrite land_1, land_3.
  replace (_ mod 2 =? 1) with false; cycle 1.
  { symmetry. apply Z.eqb_neq. Z.to_euclidean_division_equations. lia. }
  replace (_ mod 4 =? 2) with true; cycle 1.
  { symmetry. apply Z.eqb_eq. Z.to_euclidean_division_equations. lia. }
  change (ffsl (bnot32 3) - 1) with 2. rewrite Z.shiftr_div_pow2, u32_id by
    (try (Z.to_euclidean_division_equations); lia).
  Z.to_euclidean_division_equations. lia.
Qed.
End pidof_lemmas.
