(* ===== verification/Pages.v ===== *)
(** Pages of memory: sneks/mm.h and the flexpages of the microkernel, with the arithmetic
    of page addresses and flag bits that the memory servers share. *)
From S2P Require Import Prelude L4.

Definition PAGE_BITS : Z := 12.
Definition PAGE_SIZE : Z := 4096.
Definition PAGE_MASK : Z := 4095.
Definition page_of (x : Z) : Z := Z.land x (bnot32 PAGE_MASK).
Definition PAGE_CEIL (x : Z) : Z := page_of (u32 (x + PAGE_SIZE - 1)).

Definition L4_Readable : Z := 4.
Definition L4_Writable : Z := 2.
Definition L4_eXecutable : Z := 1.
Definition L4_FullyAccessible : Z := 7.

Definition has (x flag : Z) : bool := negb (Z.land x flag =? 0).
Definition clear_bits (x m : Z) : Z := Z.land x (bnot32 m).

(** ** Flexpages *)
Definition L4_Size `{L4Abi} (fp : Z) : Z := u32 (Z.shiftl 1 (L4_SizeLog2 fp)).
Definition fpage_overlap `{L4Abi} (a b : Z) : bool :=
  let mask := bnot32 (u32 (Z.shiftl 1 (Z.max (L4_SizeLog2 a) (L4_SizeLog2 b))) - 1) in
  Z.land (Z.lxor a b) mask =? 0.
Definition ADDR_IN_FPAGE `{L4Abi} (haystack needle : Z) : bool :=
  fpage_overlap haystack (L4_FpageLog2 needle 0).

(** ** Flags and page addresses *)

Lemma has_lor x y f : has (Z.lor x y) f = has x f || has y f.
Proof.
  unfold has. rewrite <- negb_andb. f_equal. rewrite Z.land_lor_distr_l.
  apply eq_bool_prop_intro. rewrite andb_True, !Is_true_true, !Z.eqb_eq. apply Z.lor_eq_0_iff.
Qed.
Lemma has_bit x k : 0 <= k -> has x (2 ^ k) = Z.testbit x k.
Proof.
  intros Hk. unfold has. destruct (Z.testbit x k) eqn:E.
  - apply negb_true_iff, Z.eqb_neq. intros E0. assert (Z.testbit (Z.land x (2 ^ k)) k = true) as Ht.
    { rewrite Z.land_spec, E, Z.pow2_bits_true by done. done. }
    by rewrite E0, Z.bits_0 in Ht.
  - apply negb_false_iff, Z.eqb_eq. apply Z.bits_inj'. intros i Hi. rewrite Z.land_spec, Z.bits_0.
    destruct (Z.eq_dec i k) as [->|Hne]; [by rewrite E|]. rewrite Z.pow2_bits_false by done. apply andb_false_r.
Qed.
Lemma has_clear x m k : 0 <= k < 32 -> has (clear_bits x m) (2 ^ k) = has x (2 ^ k) && negb (Z.testbit m k).
Proof.
  intros Hk. rewrite !has_bit by lia. unfold clear_bits, bnot32.
  rewrite Z.land_spec, unot_testbit by lia. by replace (k <? 32) with true by lia.
Qed.
Lemma page_of_bit x k : 0 <= k < 12 -> Z.testbit (page_of x) k = false.
Proof.
  intros Hk. unfold page_of, bnot32. rewrite Z.land_spec, unot_testbit by lia.
  change PAGE_MASK with (Z.ones 12). rewrite Z.testbit_ones by lia.
  replace (0 <=? k) with true by lia. replace (k <? 12) with true by lia. by rewrite !andb_false_r.
Qed.
Lemma page_of_page x : page_of (page_of x) = page_of x.
Proof. unfold page_of. by rewrite <- Z.land_assoc. Qed.
Lemma page_of_lor x m : Z.land m (bnot32 PAGE_MASK) = 0 -> page_of (Z.lor x m) = page_of x.
Proof. intros Hm. unfold page_of. by rewrite Z.land_lor_distr_l, Hm, Z.lor_0_r. Qed.
Lemma page_of_clear x m : Z.land m (bnot32 PAGE_MASK) = 0 -> 0 <= m < 2 ^ 32 -> page_of (clear_bits x m) = page_of x.
Proof.
  intros Hm Hr. unfold page_of, clear_bits. apply Z.bits_inj'. intros i Hi. rewrite !Z.land_spec.
  assert (Z.testbit (Z.land m (bnot32 PAGE_MASK)) i = false) as Hb by by rewrite Hm, Z.bits_0.
  rewrite Z.land_spec in Hb. unfold bnot32 at 1. rewrite unot_testbit by lia.
  destruct (Z.testbit (bnot32 PAGE_MASK) i) eqn:Eb; [|by rewrite !andb_false_r].
  rewrite andb_true_r in Hb. rewrite Hb, !andb_true_r. destruct (Z.ltb_spec i 32); [by rewrite andb_true_r|].
  unfold bnot32 in Eb. rewrite unot_testbit in Eb by lia. by replace (i <? 32) with false in Eb by lia.
Qed.
Lemma page_of_id a : 0 <= a < 2 ^ 32 -> has a PAGE_MASK = false -> page_of a = a.
Proof.
  intros Ha Hm. unfold has in Hm. apply negb_false_iff, Z.eqb_eq in Hm. unfold page_of. apply Z.bits_inj'. intros i Hi.
  rewrite Z.land_spec. unfold bnot32. rewrite unot_testbit by lia.
  assert (Z.testbit a i && Z.testbit PAGE_MASK i = false) as Hb by by rewrite <- Z.land_spec, Hm, Z.bits_0.
  destruct (Z.testbit a i) eqn:Ei; [|done]. cbn in Hb |- *. rewrite Hb.
  destruct (Z.ltb_spec i 32); [done|]. rewrite (testbit_high 32 a i) in Ei; [done|lia..].
Qed.
Lemma page_of_aligned x : has (page_of x) PAGE_MASK = false /\ 0 <= page_of x < 2 ^ 32.
Proof.
  unfold has, page_of. rewrite <- Z.land_assoc. change (Z.land (bnot32 PAGE_MASK) PAGE_MASK) with 0. rewrite Z.land_0_r.
  split; [done|]. assert (0 <= Z.land x (bnot32 PAGE_MASK)) as H0 by (apply Z.land_nonneg; by right).
  split; [done|]. apply bits_bound; [lia|done|]. intros i Hi. rewrite Z.land_spec.
  rewrite (testbit_high 32 (bnot32 PAGE_MASK)) by (done || lia). apply andb_false_r.
Qed.
Lemma page_of_div x : 0 <= x < 2 ^ 32 -> page_of x = PAGE_SIZE * (x / PAGE_SIZE).
Proof.
  intros Hx. change PAGE_SIZE with (2 ^ 12). rewrite Z.mul_comm, <- Z.shiftl_mul_pow2, <- Z.shiftr_div_pow2 by lia.
  apply Z.bits_inj'. intros i Hi. unfold page_of. rewrite Z.land_spec, Z.shiftl_spec by lia. unfold bnot32.
  rewrite unot_testbit by lia. change PAGE_MASK with (Z.ones 12). rewrite Z.testbit_ones by lia.
  destruct (Z.ltb_spec i 12).
  - rewrite (Z.testbit_neg_r _ (i - 12)) by lia. replace (0 <=? i) with true by lia. by destruct (Z.testbit x i), (i <? 32).
  - rewrite Z.shiftr_spec by lia. replace (i - 12 + 12) with i by lia. rewrite !andb_false_r.
    destruct (Z.ltb_spec i 32); [by rewrite andb_true_r|]. by rewrite (testbit_high 32 x) by lia.
Qed.
