(* ===== verification/HashUtil.v ===== *)
(** lib/hash.c: the integer hash functions of <sneks/hash.h>, on 32-bit words. *)
From S2P Require Import Prelude.

Definition hash32shiftmult (key : Z) : Z :=
  let c2 := 0x27d4eb2d in
  let key := Z.lxor (Z.lxor key 61) (Z.shiftr key 16) in
  let key := u32 (key + u32 (Z.shiftl key 3)) in
  let key := Z.lxor key (Z.shiftr key 4) in
  let key := u32 (key * c2) in
  let key := Z.lxor key (Z.shiftr key 15) in
  key.

Definition int_hash (x : Z) : Z := hash32shiftmult x.

Definition int64_hash (key : Z) : Z :=
  Z.lxor (hash32shiftmult (u32 key)) (hash32shiftmult (u32 (Z.shiftr key 32))).

Definition bob96bitmix (a b c : Z) : Z :=
  let a := u32 (a - b) in let a := u32 (a - c) in let a := Z.lxor a (Z.shiftr c 13) in
  let b := u32 (b - c) in let b := u32 (b - a) in let b := Z.lxor b (u32 (Z.shiftl a 8)) in
  let c := u32 (c - a) in let c := u32 (c - b) in let c := Z.lxor c (Z.shiftr b 13) in
  let a := u32 (a - b) in let a := u32 (a - c) in let a := Z.lxor a (Z.shiftr c 12) in
  let b := u32 (b - c) in let b := u32 (b - a) in let b := Z.lxor b (u32 (Z.shiftl a 16)) in
  let c := u32 (c - a) in let c := u32 (c - b) in let c := Z.lxor c (Z.shiftr b 5) in
  let a := u32 (a - b) in let a := u32 (a - c) in let a := Z.lxor a (Z.shiftr c 3) in
  let b := u32 (b - c) in let b := u32 (b - a) in let b := Z.lxor b (u32 (Z.shiftl a 10)) in
  let c := u32 (c - a) in let c := u32 (c - b) in let c := Z.lxor c (Z.shiftr b 15) in
  c.

(** ** Inverting the mixing steps *)

(** [x ^ (x >> k)] loses nothing when [2 * k >= 32] after one more step, and in
    general after enough of them. *)
Definition xorshift (k x : Z) : Z := Z.lxor x (Z.shiftr x k).

Lemma xorshift_range k x : 0 <= k -> 0 <= x < 2 ^ 32 -> 0 <= xorshift k x < 2 ^ 32.
Proof.
  intros Hk Hx. unfold xorshift.
  assert (0 <= Z.lxor x (Z.shiftr x k)).
  { apply Z.lxor_nonneg. rewrite Z.shiftr_nonneg. lia. }
  split; [done|]. apply bits_bound; [lia|done|]. intros i Hi.
  rewrite Z.lxor_spec, Z.shiftr_spec, !(testbit_high 32) by lia. done.
Qed.

Lemma xorshift_inj k x y : 0 < k -> 0 <= x < 2 ^ 32 -> 0 <= y < 2 ^ 32 ->
  xorshift k x = xorshift k y -> x = y.
Proof.
  intros Hk Hx Hy E. apply Z.bits_inj'. intros i Hi.
  remember (Z.to_nat (32 - i)) as n eqn:En.
  revert i Hi En. induction n as [n IH] using lt_wf_ind. intros i Hi ->.
  destruct (Z.lt_ge_cases i 32); [|by rewrite !(testbit_high 32) by lia].
  assert (Z.testbit (xorshift k x) i = Z.testbit (xorshift k y) i) as Ei by by rewrite E.
  unfold xorshift in Ei. rewrite !Z.lxor_spec, !Z.shiftr_spec in Ei by lia.
  assert (Z.testbit x (i + k) = Z.testbit y (i + k)) as Ek.
  { eapply IH; [|lia|reflexivity]. lia. }
  rewrite Ek in Ei. by destruct (Z.testbit x i), (Z.testbit y i), (Z.testbit y (i + k)).
Qed.

(** Multiplication by a factor with an inverse modulo [2 ^ 32] is injective. *)
Lemma mulmod_inj c d x y : (c * d) mod 2 ^ 32 = 1 ->
  0 <= x < 2 ^ 32 -> 0 <= y < 2 ^ 32 -> u32 (x * c) = u32 (y * c) -> x = y.
Proof.
  intros Hcd Hx Hy E.
  assert (forall z, 0 <= z < 2 ^ 32 -> u32 (u32 (z * c) * d) = z) as Hinv.
  { intros z Hz. unfold u32.
    rewrite Z.mul_mod_idemp_l, <- Z.mul_assoc, <- Z.mul_mod_idemp_r, Hcd, Z.mul_1_r
      by lia. by apply Z.mod_small. }
  rewrite <- (Hinv x Hx), <- (Hinv y Hy), E. done.
Qed.

Lemma hash_step1 key : Z.lxor (Z.lxor key 61) (Z.shiftr key 16) = Z.lxor (xorshift 16 key) 61.
Proof. unfold xorshift. rewrite !Z.lxor_assoc. f_equal. apply Z.lxor_comm. Qed.

Lemma lxor_range a b : 0 <= a < 2 ^ 32 -> 0 <= b < 2 ^ 32 -> 0 <= Z.lxor a b < 2 ^ 32.
Proof.
  intros Ha Hb. assert (0 <= Z.lxor a b) by (apply Z.lxor_nonneg; lia).
  split; [done|]. apply bits_bound; [lia|done|]. intros i Hi.
  by rewrite Z.lxor_spec, !(testbit_high 32) by lia.
Qed.

Lemma hash_step2 k : u32 (k + u32 (Z.shiftl k 3)) = u32 (k * 9).
Proof.
  unfold u32. rewrite Z.add_mod_idemp_r by lia. f_equal.
  rewrite Z.shiftl_mul_pow2 by lia. lia.
Qed.

(** ** Properties *)

(** The integer hash is a 32-bit value and distinct 32-bit keys never collide,
    so a table keyed by [int_hash] of a PID, handle number or page number has
    one bucket chain per key. *)
Theorem int_hash_injective x y :
  0 <= x < 2 ^ 32 -> 0 <= y < 2 ^ 32 ->
  0 <= int_hash x < 2 ^ 32 /\ (int_hash x = int_hash y -> x = y).
Proof.
  intros Hx Hy. unfold int_hash, hash32shiftmult. cbv zeta.
  rewrite !hash_step1, !hash_step2. fold (xorshift 4 (u32 (Z.lxor (xorshift 16 x) 61 * 9))).
  fold (xorshift 4 (u32 (Z.lxor (xorshift 16 y) 61 * 9))).
  fold (xorshift 15 (u32 (xorshift 4 (u32 (Z.lxor (xorshift 16 x) 61 * 9)) * 0x27d4eb2d))).
  fold (xorshift 15 (u32 (xorshift 4 (u32 (Z.lxor (xorshift 16 y) 61 * 9)) * 0x27d4eb2d))).
  split; [apply xorshift_range; [lia | apply u32_range]|].
  intros E. apply xorshift_inj in E; [|lia|apply u32_range..].
  apply (mulmod_inj _ 4218002597) in E;
    [|reflexivity|apply xorshift_range; [lia|apply u32_range]..].
  apply xorshift_inj in E; [|lia|apply u32_range..].
  apply (mulmod_inj 9 954437177) in E;
    [|reflexivity|apply lxor_range; [apply xorshift_range; lia|lia]..].
  apply (f_equal (fun z => Z.lxor z 61)) in E.
  rewrite !Z.lxor_assoc, Z.lxor_nilpotent, !Z.lxor_0_r in E.
  by apply xorshift_inj in E.
Qed.

Lemma int_hash_injective_witness :
  0 <= int_hash 1 < 2 ^ 32 /\ (int_hash 1 = int_hash 32767 -> 1 = 32767).
Proof. apply (int_hash_injective 1 32767); lia. Defined.
