(* ===== verification/Rollback.v ===== *)
(** lib/rollback.c: lazy confirmation and pessimistic rollback of IDL calls
    whose reply may be lost.  The module keeps one context per thread with at
    most one rollback and one confirm handler; the server loop reports the
    outcome of every reply to [check_rollback].

    The servers that use the module (root/uapi.c, sys/io) differ in their state
    and in the handlers they install, so the functions are stated against the
    class [RollbackHost]: where the thread's context is stored, what muidl says
    of the message being served, and how a handler runs. *)
From S2P Require Import Prelude.

(** A handler is [{ fn, param, priv }] in the source; [fn == NULL] is [None]. *)
Record rbctx (H : Type) := RbCtx {
  rb_sender : Z;
  rb_tag : Z;
  rb_r : option H;
  rb_c : option H
}.
Arguments RbCtx {H} _ _ _ _.
Arguments rb_sender {H} _.
Arguments rb_tag {H} _.
Arguments rb_r {H} _.
Arguments rb_c {H} _.

Class RollbackHost (S H : Type) := {
  host_ctx : S -> option (rbctx H);        (* tss_get(rollback_tss) *)
  host_set_ctx : rbctx H -> S -> S;
  muidl_get_sender : S -> Z;
  muidl_get_tag : S -> Z;
  run_handler : H -> M S unit              (* ( *fn)(param, priv) *)
}.

(** What the module relies on: thread-specific storage returns what was put in
    it, and storing there does not change the message being served. *)
Class RollbackHostOk (S H : Type) `{!RollbackHost S H} : Prop := {
  host_ctx_set c s : host_ctx (host_set_ctx c s) = Some c;
  host_sender_set c s : muidl_get_sender (host_set_ctx c s) = muidl_get_sender s;
  host_tag_set c s : muidl_get_tag (host_set_ctx c s) = muidl_get_tag s
}.

Definition empty_rbctx {H} : rbctx H := RbCtx 0 0 None None.

Section rollback.
Context {S H : Type} `{!RollbackHost S H}.
(** muidl's classification of dispatch results. *)
Context (MUIDL_IS_L4_ERROR : Z -> bool).

Definition put_ctx (c : rbctx H) : M S unit := modify (host_set_ctx c).

Definition get_ctx : M S (rbctx H) :=
  c ← gets host_ctx;
  match c with
  | Some ctx => mret ctx
  | None => _ ← put_ctx empty_rbctx; mret empty_rbctx
  end.

Definition set_rollback (h : option H) : M S unit :=
  ctx ← get_ctx;
  sender ← gets muidl_get_sender;
  tag ← gets muidl_get_tag;
  put_ctx (RbCtx sender tag h (rb_c ctx)).

Definition set_confirm (h : option H) : M S unit :=
  ctx ← get_ctx;
  sender ← gets muidl_get_sender;
  tag ← gets muidl_get_tag;
  put_ctx (RbCtx sender tag (rb_r ctx) h).

Definition clear_c (ctx : rbctx H) : rbctx H :=
  RbCtx (rb_sender ctx) (rb_tag ctx) (rb_r ctx) None.
Definition clear_r (ctx : rbctx H) : rbctx H :=
  RbCtx (rb_sender ctx) (rb_tag ctx) None (rb_c ctx).

Definition sync_confirm : M S unit :=
  c ← gets host_ctx;
  match c with
  | Some ctx =>
      match rb_c ctx with
      | Some fn => _ ← put_ctx (clear_c ctx); run_handler fn
      | None => mret tt
      end
  | None => mret tt
  end.

(** Set [ctx->r.fn = NULL] in whatever the context is by now. *)
Definition drop_r : M S unit :=
  c ← gets host_ctx;
  match c with Some ctx => put_ctx (clear_r ctx) | None => mret tt end.
Definition drop_c : M S unit :=
  c ← gets host_ctx;
  match c with Some ctx => put_ctx (clear_c ctx) | None => mret tt end.

Definition check_rollback (status : Z) : M S bool :=
  if negb (MUIDL_IS_L4_ERROR status) then mret false
  else
    c ← gets host_ctx;
    yep ← (if Z.odd status then
             _ ← sync_confirm;
             _ ← drop_r;
             mret false
           else
             match c with
             | None => mret false
             | Some ctx =>
                 tag ← gets muidl_get_tag;
                 sender ← gets muidl_get_sender;
                 if (rb_tag ctx =? tag) && (rb_sender ctx =? sender) then
                   yep ← (match rb_r ctx with
                          | Some fn => _ ← put_ctx (clear_r ctx);
                                       _ ← run_handler fn; mret true
                          | None => mret false
                          end);
                   _ ← drop_c;
                   mret yep
                 else mret false
             end);
    _ ← drop_r;
    mret yep.
End rollback.

(** ** A host that only records which handlers ran

    Used to state what the module promises its clients irrespective of what the
    handlers do. *)

Record logger := Logger {
  lg_ctx : option (rbctx nat);
  lg_sender : Z;
  lg_tag : Z;
  lg_ran : list nat
}.

#[export] Instance logger_host : RollbackHost logger nat := {
  host_ctx := lg_ctx;
  host_set_ctx c s := Logger (Some c) (lg_sender s) (lg_tag s) (lg_ran s);
  muidl_get_sender := lg_sender;
  muidl_get_tag := lg_tag;
  run_handler h :=
    modify (fun s => Logger (lg_ctx s) (lg_sender s) (lg_tag s) (h :: lg_ran s))
}.

#[export] Instance logger_host_ok : RollbackHostOk logger nat.
Proof. by split. Qed.

(** What a server thread does with the module, one event at a time. *)
Inductive rb_event :=
| EvMessage (sender tag : Z)         (* a new message is being served *)
| EvSetRollback (h : nat)
| EvSetConfirm (h : nat)
| EvSync                             (* sync_confirm() from a callback *)
| EvCheck (status : Z).              (* the server loop after a dispatch *)

Section events.
Context (IS_ERR : Z -> bool).

Definition rb_step (e : rb_event) : M logger unit :=
  match e with
  | EvMessage sender tag =>
      modify (fun s => Logger (lg_ctx s) sender tag (lg_ran s))
  | EvSetRollback h => set_rollback (Some h)
  | EvSetConfirm h => set_confirm (Some h)
  | EvSync => sync_confirm
  | EvCheck st => _ ← check_rollback IS_ERR st; mret tt
  end.

Fixpoint rb_steps (es : list rb_event) : M logger unit :=
  match es with
  | [] => mret tt
  | e :: es => _ ← rb_step e; rb_steps es
  end.
End events.

Definition ev_handler (e : rb_event) : list nat :=
  match e with EvSetRollback h | EvSetConfirm h => [h] | _ => [] end.
Definition ev_handlers (es : list rb_event) : list nat := es ≫= ev_handler.

Definition logger0 : logger := Logger None 0 0 [].

(** The handlers a context still holds. *)
Definition pending (c : option (rbctx nat)) : list nat :=
  match c with
  | Some ctx => option_list (rb_r ctx) ++ option_list (rb_c ctx)
  | None => []
  end.

(** ** Lemmas *)

Section rollback_lemmas.
Context {S H : Type} `{!RollbackHost S H, !RollbackHostOk S H}.
Context (IS_ERR : Z -> bool).

Lemma check_rollback_no_error st s :
  IS_ERR st = false -> check_rollback IS_ERR st s = Ret false s.
Proof. intros E. unfold check_rollback. by rewrite E. Qed.

Lemma sync_confirm_none s :
  (forall ctx, host_ctx s = Some ctx -> rb_c ctx = None) ->
  sync_confirm s = Ret tt s.
Proof.
  intros Hc. unfold sync_confirm. mstep.
  destruct (host_ctx s) as [ctx|]; [|done]. by rewrite (Hc ctx).
Qed.

Lemma sync_confirm_some s ctx h :
  host_ctx s = Some ctx -> rb_c ctx = Some h ->
  sync_confirm s = run_handler h (host_set_ctx (clear_c ctx) s).
Proof. intros Hc Hh. unfold sync_confirm, put_ctx. mstep. rewrite Hc, Hh. by mstep. Qed.

(** A send-side failure of the call that set the handlers runs the rollback
    handler, reports it, and forgets the confirm handler without running it. *)
Lemma check_rollback_matching st s ctx h :
  IS_ERR st = true -> Z.odd st = false ->
  host_ctx s = Some ctx -> rb_r ctx = Some h ->
  rb_tag ctx = muidl_get_tag s -> rb_sender ctx = muidl_get_sender s ->
  check_rollback IS_ERR st s =
    (_ ← run_handler h; _ ← drop_c; _ ← drop_r; mret true)
      (host_set_ctx (clear_r ctx) s).
Proof.
  intros He Ho Hc Hr Ht Hs. unfold check_rollback, put_ctx.
  rewrite He. cbn [negb]. mstep. rewrite Hc, Ho. mstep.
  rewrite Ht, Hs, !Z.eqb_refl, Hr. cbn [andb]. mstep.
  apply bind_ext. intros _ s'. by mstep.
Qed.
End rollback_lemmas.

(** A host's invariant that storing a context and running a handler preserve is
    preserved by every function of the module. *)
Section rollback_preserves.
Context {S H : Type} `{!RollbackHost S H}.
Context (I : S -> Prop).
Context (HI : forall c, preserves I (modify (host_set_ctx c))).
Context (HR : forall h, preserves I (run_handler h)).

Lemma preserves_put_ctx c : preserves I (put_ctx c).
Proof. apply HI. Qed.
Hint Resolve preserves_put_ctx HR : preserves.

Ltac pres := repeat first
  [ apply preserves_bind; [solve [eauto 3 with preserves]|intros ?]
  | apply preserves_if
  | case_match
  | solve [eauto 4 with preserves] ].

Lemma preserves_get_ctx : preserves I get_ctx.
Proof. unfold get_ctx. pres. Qed.
Lemma preserves_drop_r : preserves I drop_r.
Proof. unfold drop_r. pres. Qed.
Lemma preserves_drop_c : preserves I drop_c.
Proof. unfold drop_c. pres. Qed.
Lemma preserves_sync_confirm : preserves I sync_confirm.
Proof. unfold sync_confirm. pres. Qed.
Hint Resolve preserves_get_ctx preserves_drop_r preserves_drop_c preserves_sync_confirm : preserves.
Lemma preserves_set_rollback h : preserves I (set_rollback h).
Proof. unfold set_rollback. pres. Qed.
Lemma preserves_set_confirm h : preserves I (set_confirm h).
Proof. unfold set_confirm. pres. Qed.
Lemma preserves_check_rollback IS_ERR st : preserves I (check_rollback IS_ERR st).
Proof.
  unfold check_rollback. apply preserves_if; [eauto with preserves|].
  apply preserves_bind; [eauto with preserves|intros c].
  apply preserves_bind; [|intros ?; pres].
  apply preserves_if; [pres|]. destruct c; [|pres].
  do 2 (apply preserves_bind; [eauto with preserves|intros ?]). apply preserves_if; [|pres].
  apply preserves_bind; [|intros ?]; pres.
Qed.
End rollback_preserves.

(** Along any run, the handlers that ran, those still pending and those yet to
    be installed stay pairwise distinct. *)
Definition logger_inv (future : list nat) (s : logger) : Prop :=
  NoDup (lg_ran s ++ pending (lg_ctx s) ++ future).

Section logger_proofs.
Context (IS_ERR : Z -> bool).

Lemma NoDup_perm_weaken {A} (l k m : list A) :
  l ≡ₚ k ++ m -> NoDup l -> NoDup k.
Proof. intros Hp Hl. rewrite Hp in Hl. by apply NoDup_app in Hl as (? & _ & _). Qed.

Lemma rb_step_inv e es s s' :
  logger_inv (ev_handler e ++ es) s ->
  rb_step IS_ERR e s = Ret tt s' -> logger_inv es s'.
Proof.
  unfold logger_inv. destruct s as [[[s0 t0 [r0|] [c0|]]|] sd tg ran];
    destruct e as [sd' tg'|h|h| |st]; intros Hi Hr;
    cbv [rb_step set_rollback set_confirm get_ctx sync_confirm check_rollback
      drop_c drop_r put_ctx gets modify mbind M_bind mret M_ret run_handler
      logger_host host_ctx host_set_ctx muidl_get_sender muidl_get_tag clear_c
      clear_r rb_r rb_c rb_sender rb_tag lg_ctx lg_sender lg_tag lg_ran negb
      empty_rbctx] in Hr;
    repeat case_match; simplify_eq/=;
    nodup_solver.
Qed.

Lemma rb_steps_inv es s s' :
  logger_inv (ev_handlers es) s -> rb_steps IS_ERR es s = Ret tt s' -> logger_inv [] s'.
Proof.
  revert s. induction es as [|e es IH]; intros s Hi Hr; cbn in Hr.
  - by run_inv.
  - run_inv. destruct v. eapply IH; [|done]. by eapply rb_step_inv.
Qed.
End logger_proofs.

Lemma rb_step_total IS_ERR e s : exists s', rb_step IS_ERR e s = Ret tt s'.
Proof.
  destruct s as [[[s0 t0 [r0|] [c0|]]|] sd tg ran]; destruct e as [| | | |st];
    cbv -[Z.eqb Z.odd]; repeat case_match; simplify_eq; eauto.
Qed.

Lemma rb_steps_total IS_ERR es s : exists s', rb_steps IS_ERR es s = Ret tt s'.
Proof.
  revert s. induction es as [|e es IH]; intros s; [by eexists|].
  destruct (rb_step_total IS_ERR e s) as [s1 H1]. destruct (IH s1) as [s2 H2].
  exists s2. cbn. by rewrite (bind_ret _ _ _ _ _ H1).
Qed.

(** ** Properties *)

(** Whatever messages a server thread handles, in whatever order it
    installs handlers and however its replies fail, the module always returns
    and no installed rollback or confirm handler runs more than once. *)
Theorem rollback_handlers_run_once IS_ERR es :
  NoDup (ev_handlers es) ->
  exists s, rb_steps IS_ERR es logger0 = Ret tt s
            /\ NoDup (lg_ran s ++ pending (lg_ctx s)).
Proof.
  intros Hn. destruct (rb_steps_total IS_ERR es logger0) as [s Hs].
  exists s. split; [done|].
  assert (logger_inv [] s) as Hi by exact (rb_steps_inv IS_ERR es logger0 s Hn Hs).
  unfold logger_inv in Hi. by rewrite app_nil_r in Hi.
Qed.

Lemma rollback_handlers_run_once_witness :
  exists s, rb_steps (fun st => negb (st =? 0))
    [EvMessage 7 1; EvSetRollback 1; EvCheck 2; EvMessage 7 2; EvSetConfirm 3; EvCheck 3]
    logger0 = Ret tt s /\ NoDup (lg_ran s ++ pending (lg_ctx s)).
Proof.
  apply rollback_handlers_run_once. cbn. nodup_solver.
Defined.

(** The outcome of a reply decides between rollback and confirmation.  When
    a call has installed a rollback handler [h] and a confirm handler [g], then
    a send-side failure reported for that same call runs [h] and never [g]; a
    receive-side failure (which implies that the reply went through) runs [g]
    and never [h]; and without an L4 error both stay pending. *)
Theorem check_rollback_outcome IS_ERR s sender tag h g st :
  exists s1, rb_steps IS_ERR [EvMessage sender tag; EvSetRollback h; EvSetConfirm g] s
             = Ret tt s1
    /\ exists s2 b, check_rollback IS_ERR st s1 = Ret b s2
    /\ if IS_ERR st then
         b = negb (Z.odd st) /\ pending (lg_ctx s2) = []
         /\ lg_ran s2 = (if Z.odd st then g else h) :: lg_ran s
       else b = false /\ pending (lg_ctx s2) = [h; g] /\ lg_ran s2 = lg_ran s.
Proof.
  destruct s as [[[s0 t0 r0 c0]|] sd tg ran]; eexists; (split; [reflexivity|]);
    cbv -[Z.eqb Z.odd]; destruct (IS_ERR st); [|by eauto 10| |by eauto 10];
    destruct (Z.odd st); rewrite ?Z.eqb_refl; by eauto 10.
Qed.
