(* ===== verification/Containers.v ===== *)
(** Containers the servers take from CCAN and from the microkernel's support
    library, as the abstract data they stand for. *)
From S2P Require Import Prelude.

(** ** Bitmaps (ccan/bitmap) *)

Record bitmap := Bitmap { bm_len : Z; bm_clear : gset Z }.

Definition bitmap_alloc1 (n : Z) : bitmap := Bitmap n ∅.
Definition bitmap_test_bit (b : bitmap) (i : Z) : bool := bool_decide (i ∉ bm_clear b).
Definition bitmap_set_bit (b : bitmap) (i : Z) : bitmap :=
  Bitmap (bm_len b) (bm_clear b ∖ {[i]}).
Definition bitmap_clear_bit (b : bitmap) (i : Z) : bitmap :=
  Bitmap (bm_len b) ({[i]} ∪ bm_clear b).

(** First set bit in [from, from + n), or [from + n]. *)
Fixpoint bitmap_ffs_from (n : nat) (b : bitmap) (from : Z) : Z :=
  match n with
  | O => from
  | S n => if bitmap_test_bit b from then from else bitmap_ffs_from n b (from + 1)
  end.
Definition bitmap_ffs (b : bitmap) (from to : Z) : Z :=
  bitmap_ffs_from (Z.to_nat (to - from)) b from.

(** ** Range allocators (ukernel/rangealloc.h)

    Slots keep their contents across free and reuse; memory that was never
    written reads as zero. *)
Record ra (A : Type) := Ra { ra_used : gset Z; ra_mem : gmap Z A }.
Arguments Ra {A} _ _.
Arguments ra_used {A} _.
Arguments ra_mem {A} _.

Definition ra_slot {A} (zero : A) (r : ra A) (id : Z) : A := default zero (ra_mem r !! id).
Definition ra_store {A} (id : Z) (a : A) (r : ra A) : ra A :=
  Ra (ra_used r) (<[id := a]> (ra_mem r)).
(** [ra_alloc(ra, id)] for a given [id]; [n_ids] is the size of the range. *)
Definition ra_alloc {A} (n_ids id : Z) (r : ra A) : option (ra A) :=
  if (0 <=? id) && (id <? n_ids) && bool_decide (id ∉ ra_used r)
  then Some (Ra ({[id]} ∪ ra_used r) (ra_mem r)) else None.
Definition ra_free {A} (id : Z) (r : ra A) : ra A :=
  Ra (ra_used r ∖ {[id]}) (ra_mem r).

(** ** Hash tables (ccan/htable): the entries with the hash they were added
    under, oldest first *)
Definition htable := list (Z * Z).
Definition htable_del (h v : Z) (t : htable) : htable :=
  match list_find (fun e => e = (h, v)) t with
  | Some (i, _) => delete i t
  | None => t
  end.
Definition htable_vals (h : Z) (t : htable) : list Z :=
  snd <$> filter (fun e => e.1 = h) t.
