(* ===== verification/UapiState.v ===== *)
(** The state of the userspace API server of the root task (root/defs.h and the
    globals of root/uapi.c), the calls it makes into the microkernel and the
    other servers, and the small operations on that state.

    Containers from CCAN and the microkernel's support library appear as the
    abstract data they stand for: a bitmap is the set of its clear bits, a darray
    a list, a hash table the list of its entries with the hash each was added
    under, a rangealloc the set of its allocated IDs with the memory behind them.
    The outcome of every call that can fail (system calls, IPC to other servers,
    memory allocation) comes from an environment function of the calls so far. *)
From S2P Require Import Prelude L4 HashUtil Rollback Containers.

(** ** struct task_common, struct process *)

Record task_common := TaskCommon {
  kip_area : Z;
  utcb_area : Z;
  utcb_free : option bitmap;
  threads : list Z              (* empty for a zombie *)
}.

Definition PF_WAIT_ANY : Z := 1.
Definition PF_SAVED_MASK : Z := 2.

Record process := Process {
  task : task_common;
  flags : Z;
  ppid : Z;
  real_uid : Z; eff_uid : Z; saved_uid : Z;
  wait_tid : Z;
  signo : Z; status : Z; code : Z;
  sigpage_addr : Z;
  ign_set : Z; dfl_set : Z; mask_set : Z; pending_set : Z;
  saved_mask_set : Z;
  sighelper_tid : Z; sighelper_utcb : Z;
  dead_list : list Z;           (* zombie children, by PID *)
  limits : list (Z * Z)         (* rlim_cur, rlim_max *)
}.

Definition task0 : task_common := TaskCommon L4_Nilpage L4_Nilpage None [].
Definition N_LIMITS : nat := 4. (* RLIMIT_STACK + 1 *)
Definition process0 : process :=
  Process task0 0 0 0 0 0 L4_nilthread 0 0 0 0 0 0 0 0 0 L4_nilthread 0 []
    (replicate N_LIMITS (0, 0)).

(** Field updates. *)
Definition set_task (f : task_common -> task_common) (p : process) : process :=
  Process (f (task p)) (flags p) (ppid p) (real_uid p) (eff_uid p) (saved_uid p)
    (wait_tid p) (signo p) (status p) (code p) (sigpage_addr p) (ign_set p)
    (dfl_set p) (mask_set p) (pending_set p) (saved_mask_set p) (sighelper_tid p)
    (sighelper_utcb p) (dead_list p) (limits p).
Definition set_flags (v : Z) (p : process) : process :=
  Process (task p) v (ppid p) (real_uid p) (eff_uid p) (saved_uid p)
    (wait_tid p) (signo p) (status p) (code p) (sigpage_addr p) (ign_set p)
    (dfl_set p) (mask_set p) (pending_set p) (saved_mask_set p) (sighelper_tid p)
    (sighelper_utcb p) (dead_list p) (limits p).
Definition set_ppid (v : Z) (p : process) : process :=
  Process (task p) (flags p) v (real_uid p) (eff_uid p) (saved_uid p)
    (wait_tid p) (signo p) (status p) (code p) (sigpage_addr p) (ign_set p)
    (dfl_set p) (mask_set p) (pending_set p) (saved_mask_set p) (sighelper_tid p)
    (sighelper_utcb p) (dead_list p) (limits p).
Definition set_uids (r e s : Z) (p : process) : process :=
  Process (task p) (flags p) (ppid p) r e s
    (wait_tid p) (signo p) (status p) (code p) (sigpage_addr p) (ign_set p)
    (dfl_set p) (mask_set p) (pending_set p) (saved_mask_set p) (sighelper_tid p)
    (sighelper_utcb p) (dead_list p) (limits p).
Definition set_wait_tid (v : Z) (p : process) : process :=
  Process (task p) (flags p) (ppid p) (real_uid p) (eff_uid p) (saved_uid p)
    v (signo p) (status p) (code p) (sigpage_addr p) (ign_set p)
    (dfl_set p) (mask_set p) (pending_set p) (saved_mask_set p) (sighelper_tid p)
    (sighelper_utcb p) (dead_list p) (limits p).
Definition set_exit (sg st cd : Z) (p : process) : process :=
  Process (task p) (flags p) (ppid p) (real_uid p) (eff_uid p) (saved_uid p)
    (wait_tid p) sg st cd (sigpage_addr p) (ign_set p)
    (dfl_set p) (mask_set p) (pending_set p) (saved_mask_set p) (sighelper_tid p)
    (sighelper_utcb p) (dead_list p) (limits p).
Definition set_sigpage (v : Z) (p : process) : process :=
  Process (task p) (flags p) (ppid p) (real_uid p) (eff_uid p) (saved_uid p)
    (wait_tid p) (signo p) (status p) (code p) v (ign_set p)
    (dfl_set p) (mask_set p) (pending_set p) (saved_mask_set p) (sighelper_tid p)
    (sighelper_utcb p) (dead_list p) (limits p).
Definition set_sigs (ign dfl mask pend saved : Z) (p : process) : process :=
  Process (task p) (flags p) (ppid p) (real_uid p) (eff_uid p) (saved_uid p)
    (wait_tid p) (signo p) (status p) (code p) (sigpage_addr p) ign
    dfl mask pend saved (sighelper_tid p)
    (sighelper_utcb p) (dead_list p) (limits p).
Definition set_helper (tid utcb : Z) (p : process) : process :=
  Process (task p) (flags p) (ppid p) (real_uid p) (eff_uid p) (saved_uid p)
    (wait_tid p) (signo p) (status p) (code p) (sigpage_addr p) (ign_set p)
    (dfl_set p) (mask_set p) (pending_set p) (saved_mask_set p) tid
    utcb (dead_list p) (limits p).
Definition set_dead_list (v : list Z) (p : process) : process :=
  Process (task p) (flags p) (ppid p) (real_uid p) (eff_uid p) (saved_uid p)
    (wait_tid p) (signo p) (status p) (code p) (sigpage_addr p) (ign_set p)
    (dfl_set p) (mask_set p) (pending_set p) (saved_mask_set p) (sighelper_tid p)
    (sighelper_utcb p) v (limits p).
Definition set_limits (v : list (Z * Z)) (p : process) : process :=
  Process (task p) (flags p) (ppid p) (real_uid p) (eff_uid p) (saved_uid p)
    (wait_tid p) (signo p) (status p) (code p) (sigpage_addr p) (ign_set p)
    (dfl_set p) (mask_set p) (pending_set p) (saved_mask_set p) (sighelper_tid p)
    (sighelper_utcb p) (dead_list p) v.
Definition set_pending (v : Z) (p : process) : process :=
  set_sigs (ign_set p) (dfl_set p) (mask_set p) v (saved_mask_set p) p.

Definition set_threads (l : list Z) (t : task_common) : task_common :=
  TaskCommon (kip_area t) (utcb_area t) (utcb_free t) l.
Definition set_utcb_free (b : option bitmap) (t : task_common) : task_common :=
  TaskCommon (kip_area t) (utcb_area t) b (threads t).
Definition set_areas (kip utcb : Z) (t : task_common) : task_common :=
  TaskCommon kip utcb (utcb_free t) (threads t).
Definition set_utcb_area (utcb : Z) (t : task_common) : task_common :=
  TaskCommon (kip_area t) utcb (utcb_free t) (threads t).

(** ** Calls out of the server *)

Inductive call :=
| ThreadControl (dest space sched pager utcb : Z)
| SpaceControl (tid kip utcb : Z)
| Reply (tid : Z) (mrs : list Z)             (* 1 when the IPC succeeded *)
| AllocBitmap                                (* 1 when memory was available *)
| AllocMem                                   (* malloc: likewise *)
| HtableAdd (hash val : Z)                   (* likewise *)
| RaAllocAny                                 (* ra_alloc(ra, -1): the ID or -1 *)
| SysmemRmTask (pid : Z)
| SysmsgBroadcast (mask maskp : Z) (msg : list Z)
| VmFork (src dst : Z)
| VmErase (pid : Z)
| VmMmap (pid addr len prot flags serv fd off : Z)
| VmConfigure (pid utcb kip : Z)
| VmConfigureResv                            (* its last_resv output *)
| VmUploadPage (pid addr : Z) (data : list Z)
| VmBreathOfLife (tid sp ip : Z)
| VmBreathStatus                             (* its rc output *)
| IoDupTo (serv fd pid : Z)
| IoDupHandle                                (* its handle output *)
| IoClose (serv fd : Z)
| IoTouch (serv fd : Z)
| PathStatMode (serv fd : Z)                 (* Path::stat_handle, then st_mode *)
| OpenHandle (serv fd : Z)                   (* sfdopen_NP: 0 when it succeeded *)
| Fopen (path : list Z)                      (* 0, or the server of the open file *)
| FopenHandle                                (* and its handle there *)
| PathGetPath (serv fd : Z).                 (* Path::get_path *)

(** Handlers the server installs with rollback.h: only [call_destroy_process]. *)
Inductive uapi_handler := HDestroyProcess (dead self : Z).

Record uapi := Uapi {
  ra_process : ra process;
  ra_systask : ra task_common;
  tno_free_maps : list bitmap;
  tno_free_counts : list Z;
  next_user_pid : Z;
  pid_to_child_hash : htable;          (* PIDs of children *)
  waitany_hash : htable;               (* thread IDs *)
  uapi_rb : option (rbctx uapi_handler);
  cur_sender : Z;                      (* the message being served *)
  cur_tag : Z;
  no_reply : bool;                     (* muidl_raise_no_reply() was called *)
  systask_done : bool * bool;          (* add_systask ran for the root task, for sysmem *)
  trace : list call                    (* calls made, latest first *)
}.

Definition set_ra_process f w :=
  Uapi (f (ra_process w)) (ra_systask w) (tno_free_maps w) (tno_free_counts w)
    (next_user_pid w) (pid_to_child_hash w) (waitany_hash w) (uapi_rb w)
    (cur_sender w) (cur_tag w) (no_reply w) (systask_done w) (trace w).
Definition set_ra_systask f w :=
  Uapi (ra_process w) (f (ra_systask w)) (tno_free_maps w) (tno_free_counts w)
    (next_user_pid w) (pid_to_child_hash w) (waitany_hash w) (uapi_rb w)
    (cur_sender w) (cur_tag w) (no_reply w) (systask_done w) (trace w).
Definition set_tnos maps counts w :=
  Uapi (ra_process w) (ra_systask w) maps counts
    (next_user_pid w) (pid_to_child_hash w) (waitany_hash w) (uapi_rb w)
    (cur_sender w) (cur_tag w) (no_reply w) (systask_done w) (trace w).
Definition set_next_user_pid v w :=
  Uapi (ra_process w) (ra_systask w) (tno_free_maps w) (tno_free_counts w)
    v (pid_to_child_hash w) (waitany_hash w) (uapi_rb w)
    (cur_sender w) (cur_tag w) (no_reply w) (systask_done w) (trace w).
Definition set_children f w :=
  Uapi (ra_process w) (ra_systask w) (tno_free_maps w) (tno_free_counts w)
    (next_user_pid w) (f (pid_to_child_hash w)) (waitany_hash w) (uapi_rb w)
    (cur_sender w) (cur_tag w) (no_reply w) (systask_done w) (trace w).
Definition set_waitany f w :=
  Uapi (ra_process w) (ra_systask w) (tno_free_maps w) (tno_free_counts w)
    (next_user_pid w) (pid_to_child_hash w) (f (waitany_hash w)) (uapi_rb w)
    (cur_sender w) (cur_tag w) (no_reply w) (systask_done w) (trace w).
Definition set_uapi_rb c w :=
  Uapi (ra_process w) (ra_systask w) (tno_free_maps w) (tno_free_counts w)
    (next_user_pid w) (pid_to_child_hash w) (waitany_hash w) (Some c)
    (cur_sender w) (cur_tag w) (no_reply w) (systask_done w) (trace w).
Definition set_no_reply b w :=
  Uapi (ra_process w) (ra_systask w) (tno_free_maps w) (tno_free_counts w)
    (next_user_pid w) (pid_to_child_hash w) (waitany_hash w) (uapi_rb w)
    (cur_sender w) (cur_tag w) b (systask_done w) (trace w).
Definition add_trace c w :=
  Uapi (ra_process w) (ra_systask w) (tno_free_maps w) (tno_free_counts w)
    (next_user_pid w) (pid_to_child_hash w) (waitany_hash w) (uapi_rb w)
    (cur_sender w) (cur_tag w) (no_reply w) (systask_done w) (c :: trace w).
(** A new message arrives. *)
Definition set_message sender tag w :=
  Uapi (ra_process w) (ra_systask w) (tno_free_maps w) (tno_free_counts w)
    (next_user_pid w) (pid_to_child_hash w) (waitany_hash w) (uapi_rb w)
    sender tag false (systask_done w) (trace w).
Definition set_systask_done d w :=
  Uapi (ra_process w) (ra_systask w) (tno_free_maps w) (tno_free_counts w)
    (next_user_pid w) (pid_to_child_hash w) (waitany_hash w) (uapi_rb w)
    (cur_sender w) (cur_tag w) (no_reply w) d (trace w).

(** Process slot access and update. *)
Definition proc_of (w : uapi) (pid : Z) : process := ra_slot process0 (ra_process w) pid.
Definition st_of (w : uapi) (id : Z) : task_common := ra_slot task0 (ra_systask w) id.

Definition proc (pid : Z) : M uapi process := gets (fun w => proc_of w pid).
Definition upd (pid : Z) (f : process -> process) : M uapi unit :=
  modify (fun w => set_ra_process (ra_store pid (f (proc_of w pid))) w).
Definition st_get (id : Z) : M uapi task_common := gets (fun w => st_of w id).
Definition st_upd (id : Z) (f : task_common -> task_common) : M uapi unit :=
  modify (fun w => set_ra_systask (ra_store id (f (st_of w id))) w).

Definition muidl_raise_no_reply : M uapi unit := modify (set_no_reply true).

(** ** The environment *)

(** Static facts of the running server and the answers of its environment. *)
Class UapiEnv := {
  env : list call -> call -> Z;
  utcb_size_log2 : Z;
  my_global : Z;                       (* L4_MyGlobalId(), also L4_Myself() *)
  vm_tid : Z;
  sysmsg_tid : Z
}.

Section ask.
Context `{UapiEnv}.
(** Make a call and receive its result. *)
Definition ask (c : call) : M uapi Z :=
  fun w => Ret (env (trace w) c) (add_trace c w).
End ask.

(** A struct task_common pointer: the common part of a process or of a system
    task. *)
Inductive taskref := TProc (pid : Z) | TSys (id : Z).

Definition task_of (w : uapi) (t : taskref) : task_common :=
  match t with TProc pid => task (proc_of w pid) | TSys id => st_of w id end.
Definition task_get (t : taskref) : M uapi task_common := gets (fun w => task_of w t).
Definition task_upd (t : taskref) (f : task_common -> task_common) : M uapi unit :=
  match t with TProc pid => upd pid (set_task f) | TSys id => st_upd id f end.
