(* ===== verification/UapiThreads.v ===== *)
(** Thread number and UTCB slot allocation of root/uapi.c. *)
From S2P Require Import Prelude L4 HashUtil Rollback Containers UapiState.

Definition TNOS_PER_BITMAP : Z := 2 ^ 16.
Definition NUM_SYSTASK_IDS : Z := 2 ^ 14.

Section threads.
Context `{L4Abi, UapiEnv}.

Definition pidof (tid : Z) : Z := pidof_NP my_global tid.

Definition tno_map (i : Z) : M uapi bitmap :=
  m ← gets tno_free_maps; of_option StFault (m !! Z.to_nat i).
Definition tno_count (i : Z) : M uapi Z :=
  c ← gets tno_free_counts; of_option StFault (c !! Z.to_nat i).
Definition tno_store (i : Z) (b : bitmap) (count : Z) : M uapi unit :=
  modify (fun w => set_tnos (<[Z.to_nat i := b]> (tno_free_maps w))
                            (<[Z.to_nat i := count]> (tno_free_counts w)) w).

Definition free_threadno (tid : Z) : M uapi unit :=
  let map := Z.shiftr (L4_ThreadNo tid) 16 in
  let bit := Z.land (L4_ThreadNo tid) 0xffff in
  b ← tno_map map;
  _ ← assert_ (negb (bitmap_test_bit b bit));
  n ← tno_count map;
  _ ← tno_store map (bitmap_set_bit b bit) (n + 1);
  assert_ (n + 1 <=? TNOS_PER_BITMAP).

(** *** Process lookup; forces pending confirmations first *)

Definition destroy_process_core (p : Z) : M uapi unit :=
  pr ← proc p;
  _ ← modify (set_children (htable_del (int_hash (ppid pr)) p));
  _ ← upd p (set_task (set_utcb_area L4_Nilpage));
  modify (set_ra_process (ra_free p)).

Definition valid_process (w : uapi) (pid : Z) : option Z :=
  if (pid <=? 0) || (SNEKS_MAX_PID <? pid) then None
  else if L4_IsNilFpage (utcb_area (task (proc_of w pid))) then None
  else Some pid.

(** [call_destroy_process]: the confirm handler installed by [uapi_wait].  The
    lookup [destroy_process] ends on finds no confirm handler to run, since
    [sync_confirm] cleared it before the call. *)
Definition call_destroy_process (dead self : Z) : M uapi unit :=
  sp ← proc self;
  _ ← assert_ (bool_decide (dead ∈ dead_list sp));
  _ ← upd self (set_dead_list (filter (fun d => d <> dead) (dead_list sp)));
  _ ← destroy_process_core dead;
  w ← get;
  assert_ (bool_decide (valid_process w dead = None)).

#[export] Instance uapi_host : RollbackHost uapi uapi_handler := {
  host_ctx := uapi_rb;
  host_set_ctx := set_uapi_rb;
  muidl_get_sender := cur_sender;
  muidl_get_tag := cur_tag;
  run_handler h := let 'HDestroyProcess dead self := h in call_destroy_process dead self
}.

#[export] Instance uapi_host_ok : RollbackHostOk uapi uapi_handler.
Proof. by split. Qed.

Definition get_process (pid : Z) : M uapi (option Z) :=
  if (pid <=? 0) || (SNEKS_MAX_PID <? pid) then mret None
  else _ ← sync_confirm; gets (fun w => valid_process w pid).

Definition get_systask (pid : Z) : M uapi (option Z) :=
  let stid := pid - SNEKS_MIN_SYSID in
  if (stid <? 0) || (NUM_SYSTASK_IDS <=? stid) then mret None
  else
    _ ← sync_confirm;
    t ← st_get stid;
    mret (if L4_IsNilFpage (utcb_area t) then None else Some stid).

Definition get_task (pid : Z) : M uapi (option taskref) :=
  if IS_SYSTASK pid then st ← get_systask pid; mret (TSys <$> st)
  else p ← get_process pid; mret (TProc <$> p).

Definition destroy_process (p : Z) : M uapi unit :=
  _ ← destroy_process_core p;
  r ← get_process p;
  assert_ (bool_decide (r = None)).

(** *** Thread lists and UTCB slots *)

Definition n_utcb_slots (area : Z) : Z := Z.shiftl 1 (L4_SizeLog2 area - utcb_size_log2).

Definition alloc_utcb_bitmap (area : Z) : M uapi (option bitmap) :=
  ok ← ask AllocBitmap;
  mret (if ok =? 0 then None else Some (bitmap_alloc1 (n_utcb_slots area))).

Definition task_common_ctor (t : taskref) (kip utcb : Z) : M uapi bool :=
  _ ← task_upd t (set_utcb_area L4_Nilpage);
  b ← alloc_utcb_bitmap utcb;
  _ ← task_upd t (set_utcb_free b);
  match b with
  | None => mret false
  | Some _ => _ ← task_upd t (fun x => set_threads [] (set_areas kip utcb x)); mret true
  end.

Definition delete_thread (tid : Z) : M uapi unit :=
  res ← ask (ThreadControl tid L4_nilthread L4_nilthread L4_nilthread (-1));
  if negb (res =? 1) then halt StAbort else mret tt.

Definition task_common_dtor (t : taskref) : M uapi unit :=
  tc ← task_get t;
  _ ← mapM_ (fun tid => _ ← delete_thread tid; free_threadno tid) (threads tc);
  _ ← task_upd t (fun x => set_utcb_free None (set_threads [] x));
  tc ← task_get t;
  assert_ (negb (L4_IsNilFpage (utcb_area tc))).

Definition tid_remove_fast (ix : nat) (tids : list Z) : list Z :=
  match last tids with
  | None => tids
  | Some l => take (length tids - 1) (<[ix := l]> tids)
  end.

(** [global tid] is L4_GlobalIdOf(tid): a global ID is its own. *)
Definition tidlist_remove_from (tid : Z) (tids : list Z) : option (list Z) :=
  match list_find (fun x => x = tid) tids with
  | Some (ix, _) => Some (tid_remove_fast ix tids)
  | None => None
  end.

(** The number map a new thread of [pid] is drawn from: fixed by the PID for
    processes, the first nonempty one for system tasks; 4 when there is none. *)
Fixpoint pick_map (fuel : nat) (counts : list Z) (sys : bool) (map : Z) : Z :=
  match fuel with
  | O => map
  | S n =>
      if (default 0 (counts !! Z.to_nat map) =? 0) && sys && (map <? 4)
      then pick_map n counts sys (map + 1) else map
  end.

(** Returns the thread ID, with the UTCB location on success. *)
Definition allocate_thread (pid : Z) : M uapi (Z * Z) :=
  counts ← gets tno_free_counts;
  let map := pick_map 4 counts (IS_SYSTASK pid) (tno_map_of pid) in
  if (3 <? map) || (default 0 (counts !! Z.to_nat map) =? 0) then mret (L4_nilthread, 0)
  else
    task ← get_task pid;
    match task with
    | None => mret (L4_nilthread, 0)
    | Some t =>
        b ← tno_map map;
        let bit := bitmap_ffs b 0 TNOS_PER_BITMAP in
        _ ← assert_ (bit <? TNOS_PER_BITMAP);
        _ ← assert_ (bitmap_test_bit b bit);
        n ← tno_count map;
        _ ← tno_store map (bitmap_clear_bit b bit) n;
        _ ← assert_ (0 <? n);
        _ ← tno_store map (bitmap_clear_bit b bit) (n - 1);
        let tid := compose_tid pid map bit in
        _ ← assert_ (pidof tid =? pid);
        tc ← task_get t;
        free ← of_option StFault (utcb_free tc);
        let n_slots := n_utcb_slots (utcb_area tc) in
        let slot := bitmap_ffs free 0 n_slots in
        if slot =? n_slots then
          b ← tno_map map;
          _ ← assert_ (negb (bitmap_test_bit b bit));
          n ← tno_count map;
          _ ← tno_store map (bitmap_set_bit b bit) (n + 1);
          _ ← assert_ (n + 1 <=? TNOS_PER_BITMAP);
          mret (L4_nilthread, 0)
        else
          _ ← task_upd t (fun x =>
                set_threads (threads x ++ [tid])
                  (set_utcb_free (Some (bitmap_clear_bit free slot)) x));
          mret (tid, L4_Address (utcb_area tc) + Z.shiftl slot utcb_size_log2)
    end.

Definition free_thread (t : taskref) (tid utcb_loc : Z) : M uapi unit :=
  tc ← task_get t;
  let pos := utcb_loc - L4_Address (utcb_area tc) in
  let slot := Z.shiftr pos utcb_size_log2 in
  _ ← assert_ ((L4_Address (utcb_area tc) <=? utcb_loc)
               && (pos <? Z.shiftl 1 (L4_SizeLog2 (utcb_area tc))));
  free ← of_option StFault (utcb_free tc);
  _ ← assert_ (negb (bitmap_test_bit free slot));
  task_upd t (fun x =>
    set_threads (default (threads x) (tidlist_remove_from tid (threads x)))
      (set_utcb_free (Some (bitmap_set_bit free slot)) x)).

Definition make_space (tid kip utcb : Z) : M uapi Z :=
  res ← ask (ThreadControl tid tid my_global my_global (-1));
  if negb (res =? 1) then halt StAbort else
  res ← ask (SpaceControl tid kip utcb);
  if negb (res =? 1) then halt StAbort else mret 0.
End threads.

(** [uapi_init]: all thread numbers free but the first 512 of map 0, no tasks,
    and PID 0 kept out of use.  [next_user_pid] and the tables are statically
    initialised. *)
Definition uapi_init_tnos : list bitmap * list Z :=
  let maps := replicate 4 (bitmap_alloc1 TNOS_PER_BITMAP) in
  let counts := replicate 4 TNOS_PER_BITMAP in
  (alter (fun b => foldl bitmap_clear_bit b (seqZ 0 512)) 0%nat maps,
   alter (fun n => n - 512) 0%nat counts).

Definition uapi_init : uapi :=
  Uapi (Ra {[0]} ∅) (Ra ∅ ∅) uapi_init_tnos.1 uapi_init_tnos.2 1 [] [] None 0 0 false
    (false, false) [].
