(* ===== verification/UapiThreadProps.v ===== *)
(** Thread number and UTCB slot accounting: what [allocate_thread],
    [free_thread] and [free_threadno] keep true. *)
From S2P Require Import Prelude L4 HashUtil Rollback Containers UapiState UapiThreads.

(** ** Bitmaps *)

Lemma bitmap_set_clear b i :
  bitmap_test_bit b i = true -> bitmap_set_bit (bitmap_clear_bit b i) i = b.
Proof.
  unfold bitmap_test_bit. intros Hi%bool_decide_eq_true.
  destruct b as [n c]; unfold bitmap_set_bit, bitmap_clear_bit; cbn in *.
  f_equal. set_solver.
Qed.

Lemma bitmap_test_cleared b i : bitmap_test_bit (bitmap_clear_bit b i) i = false.
Proof. apply bool_decide_eq_false. cbn. set_solver. Qed.

Lemma bitmap_test_set b i : bitmap_test_bit (bitmap_set_bit b i) i = true.
Proof. apply bool_decide_eq_true. cbn. set_solver. Qed.

Lemma bitmap_test_set_ne b i j :
  j <> i -> bitmap_test_bit (bitmap_set_bit b i) j = bitmap_test_bit b j.
Proof. intros Hj. apply bool_decide_ext. cbn. set_solver. Qed.

Lemma bitmap_test_clear_ne b i j :
  j <> i -> bitmap_test_bit (bitmap_clear_bit b i) j = bitmap_test_bit b j.
Proof. intros Hj. apply bool_decide_ext. cbn. set_solver. Qed.

Lemma bitmap_ffs_from_spec n b from :
  let r := bitmap_ffs_from n b from in
  from <= r <= from + Z.of_nat n
  /\ (forall i, from <= i < r -> bitmap_test_bit b i = false)
  /\ (r < from + Z.of_nat n -> bitmap_test_bit b r = true).
Proof.
  revert from. induction n as [|n IH]; intros from; cbn [bitmap_ffs_from].
  - split_and!; lia.
  - destruct (bitmap_test_bit b from) eqn:E.
    + split_and!; [lia|lia| |done]. lia.
    + destruct (IH (from + 1)) as (H1 & H2 & H3). split_and!; [lia|lia| |].
      * intros i Hi. destruct (Z.eq_dec i from) as [->|]; [done | apply H2; lia].
      * intros Hr. apply H3. lia.
Qed.

Lemma bitmap_ffs_spec b to :
  0 <= to ->
  0 <= bitmap_ffs b 0 to <= to
  /\ (forall i, 0 <= i < bitmap_ffs b 0 to -> bitmap_test_bit b i = false)
  /\ (bitmap_ffs b 0 to < to -> bitmap_test_bit b (bitmap_ffs b 0 to) = true).
Proof.
  intros Ht. destruct (bitmap_ffs_from_spec (Z.to_nat (to - 0)) b 0) as (H1 & H2 & H3).
  unfold bitmap_ffs. split_and!; [lia|lia|done|]. intros Hr. apply H3. lia.
Qed.

(** Fewer than [n] clear bits leave a set bit below [n]. *)
Lemma bitmap_ffs_exists b n :
  0 <= n -> Z.of_nat (size (bm_clear b)) < n -> bitmap_ffs b 0 n < n.
Proof.
  intros Hn Hc. destruct (bitmap_ffs_spec b n Hn) as (H1 & H2 & _).
  destruct (Z.lt_ge_cases (bitmap_ffs b 0 n) n); [done|]. exfalso.
  assert (list_to_set (seqZ 0 n) ⊆ bm_clear b) as Hs.
  { intros i Hi%elem_of_list_to_set%elem_of_seqZ.
    specialize (H2 i ltac:(lia)). unfold bitmap_test_bit in H2.
    apply bool_decide_eq_false in H2. by apply dec_stable in H2. }
  apply subseteq_size in Hs.
  rewrite size_list_to_set, length_seqZ in Hs by apply NoDup_seqZ. lia.
Qed.

(** ** The accounting invariant *)

(** A number map's count is the number of its set bits. *)
Definition tno_map_ok (b : bitmap) (n : Z) : Prop :=
  (forall i, i ∈ bm_clear b -> 0 <= i < TNOS_PER_BITMAP)
  /\ n + Z.of_nat (size (bm_clear b)) = TNOS_PER_BITMAP.

Definition tno_ok (w : uapi) : Prop :=
  length (tno_free_maps w) = 4%nat
  /\ Forall2 tno_map_ok (tno_free_maps w) (tno_free_counts w).

(** The thread number [bit] of [map] may be handed out. *)
Definition tno_is_free (w : uapi) (map bit : Z) : Prop :=
  exists b, tno_free_maps w !! Z.to_nat map = Some b /\ bitmap_test_bit b bit = true.

Lemma tno_map_ok_clear b n bit :
  tno_map_ok b n -> 0 <= bit < TNOS_PER_BITMAP -> bitmap_test_bit b bit = true ->
  tno_map_ok (bitmap_clear_bit b bit) (n - 1).
Proof.
  intros [Hs Hn] Hb Ht%bool_decide_eq_true. split; cbn.
  - intros i [->%elem_of_singleton|Hi]%elem_of_union; auto.
  - rewrite size_union, size_singleton by set_solver. lia.
Qed.

Lemma tno_map_ok_set b n bit :
  tno_map_ok b n -> bitmap_test_bit b bit = false ->
  tno_map_ok (bitmap_set_bit b bit) (n + 1) /\ n + 1 <= TNOS_PER_BITMAP.
Proof.
  intros [Hs Hn] Ht%bool_decide_eq_false%dec_stable. split; [split|]; cbn.
  - intros i [Hi _]%elem_of_difference. auto.
  - rewrite size_difference, size_singleton by set_solver.
    assert (0 < size (bm_clear b))%nat; [|lia].
    apply Nat.neq_0_lt_0. intros E%size_empty_inv. set_solver.
  - assert (0 < size (bm_clear b))%nat; [|lia].
    apply Nat.neq_0_lt_0. intros E%size_empty_inv. set_solver.
Qed.

Lemma tno_map_ok_nonneg b n : tno_map_ok b n -> 0 <= n.
Proof.
  intros [Hs Hn]. assert (bm_clear b ⊆ list_to_set (seqZ 0 TNOS_PER_BITMAP)) as Hsub.
  { intros i Hi. apply elem_of_list_to_set, elem_of_seqZ. specialize (Hs i Hi). lia. }
  apply subseteq_size in Hsub.
  rewrite size_list_to_set, length_seqZ in Hsub by apply NoDup_seqZ.
  unfold TNOS_PER_BITMAP in *. lia.
Qed.

Lemma tno_ok_store w i b n :
  tno_ok w -> tno_map_ok b n ->
  tno_ok (set_tnos (<[i := b]> (tno_free_maps w)) (<[i := n]> (tno_free_counts w)) w).
Proof.
  intros [Hl Hf] Hm. split; cbn; [by rewrite length_insert|]. by apply Forall2_insert.
Qed.

Lemma tno_ok_lookup w i :
  tno_ok w -> 0 <= i < 4 ->
  exists b n, tno_free_maps w !! Z.to_nat i = Some b
              /\ tno_free_counts w !! Z.to_nat i = Some n /\ tno_map_ok b n.
Proof.
  intros [Hl Hf] Hi. destruct (lookup_lt_is_Some_2 (tno_free_maps w) (Z.to_nat i)) as [b Hb].
  { lia. }
  destruct (Forall2_lookup_l _ _ _ _ _ Hf Hb) as (n & Hn & Hm). by exists b, n.
Qed.

Lemma set_tnos_id w : set_tnos (tno_free_maps w) (tno_free_counts w) w = w.
Proof. by destruct w. Qed.
Lemma set_tnos_twice a b c d w : set_tnos a b (set_tnos c d w) = set_tnos a b w.
Proof. done. Qed.

Section thread_props.
Context `{L4Abi, UapiEnv}.

Lemma tno_map_run i w b {B} (k : bitmap -> M uapi B) :
  tno_free_maps w !! Z.to_nat i = Some b -> (tno_map i ≫= k) w = k b w.
Proof. intros E. unfold tno_map. mstep. by rewrite E. Qed.
Lemma tno_count_run i w n {B} (k : Z -> M uapi B) :
  tno_free_counts w !! Z.to_nat i = Some n -> (tno_count i ≫= k) w = k n w.
Proof. intros E. unfold tno_count. mstep. by rewrite E. Qed.

(** *** Giving numbers back *)

Lemma free_threadno_spec tid w :
  let map := Z.shiftr (L4_ThreadNo tid) 16 in
  let bit := Z.land (L4_ThreadNo tid) 0xffff in
  tno_ok w -> 0 <= map < 4 -> ~ tno_is_free w map bit ->
  exists w', free_threadno tid w = Ret tt w' /\ tno_ok w' /\ tno_is_free w' map bit
    /\ (forall m b, m <> map \/ b <> bit -> 0 <= m -> tno_is_free w' m b <-> tno_is_free w m b).
Proof.
  intros map bit Hok Hm Hf. destruct (tno_ok_lookup w map Hok Hm) as (b & n & Hb & Hn & Hbn).
  assert (bitmap_test_bit b bit = false) as Ht.
  { apply not_true_is_false. intros Ht. apply Hf. by exists b. }
  destruct (tno_map_ok_set b n bit Hbn Ht) as [Hbn' Hle].
  unfold free_threadno. fold map bit.
  rewrite (tno_map_run _ _ _ _ Hb), bind_assert, Ht. cbn [negb].
  rewrite (tno_count_run _ _ _ _ Hn). unfold tno_store. mstep.
  unfold assert_. rewrite (proj2 (Z.leb_le _ _) Hle).
  eexists. split; [reflexivity|]. split; [by apply tno_ok_store|].
  assert (Z.to_nat map < length (tno_free_maps w))%nat as Hlen by (destruct Hok; lia).
  split.
  - exists (bitmap_set_bit b bit). cbn. rewrite list_lookup_insert_eq by done.
    by rewrite bitmap_test_set.
  - intros m c Hne Hm0. unfold tno_is_free; cbn.
    destruct (decide (m = map)) as [->|Hmm].
    + rewrite list_lookup_insert_eq, Hb by done.
      assert (c <> bit) by (destruct Hne; congruence).
      pose proof (bitmap_test_set_ne b bit c ltac:(done)) as E.
      split; intros (b' & [= <-] & ?); eexists; (split; [done|]); congruence.
    + rewrite list_lookup_insert_ne by lia. done.
Qed.

(** *** Handing numbers out *)

(** PIDs whose thread IDs the encoding can carry. *)
Definition encodable (pid : Z) : Prop :=
  1 <= pid <= SNEKS_MAX_PID \/ SNEKS_MIN_SYSID <= pid < SNEKS_MIN_SYSID + 4096.

Lemma pick_map_user n counts m : pick_map n counts false m = m.
Proof. destruct n; cbn; [done|]. by rewrite andb_false_r. Qed.

Lemma pick_map_ge n counts s m : m <= pick_map n counts s m.
Proof.
  revert m. induction n as [|n IH]; intros m; cbn; [lia|].
  destruct (_ && _ && _); [specialize (IH (m + 1))|]; lia.
Qed.

(** The number map [allocate_thread] settles on. *)
Definition chosen_map (w : uapi) (pid : Z) : Z :=
  pick_map 4 (tno_free_counts w) (IS_SYSTASK pid) (tno_map_of pid).

Lemma tno_map_of_user pid :
  1 <= pid <= SNEKS_MAX_PID -> IS_SYSTASK pid = false /\ 0 <= tno_map_of pid < 4.
Proof.
  unfold SNEKS_MAX_PID. intros Hp. assert (IS_SYSTASK pid = false) as E.
  { apply Z.leb_gt. unfold SNEKS_MIN_SYSID. lia. }
  split; [done|]. unfold tno_map_of. rewrite E, Z.shiftr_land.
  change (Z.shiftr 0x6000 13) with (Z.ones 2). rewrite Z.land_ones by lia.
  apply Z.mod_pos_bound. lia.
Qed.

Lemma chosen_map_pidof w pid bit :
  encodable pid -> chosen_map w pid <= 3 -> 0 <= bit < 2 ^ 16 ->
  0 <= chosen_map w pid
  /\ pidof (compose_tid pid (chosen_map w pid) bit) = pid
  /\ compose_tid pid (chosen_map w pid) bit <> L4_nilthread.
Proof.
  intros [Hp|Hp] Hm Hb; unfold chosen_map in *.
  - destruct (tno_map_of_user pid Hp) as [E Hr]. rewrite E, pick_map_user in *.
    split; [lia|]. by apply pidof_compose_user.
  - assert (IS_SYSTASK pid = true) as E by (apply Z.leb_le; lia).
    pose proof (pick_map_ge 4 (tno_free_counts w) (IS_SYSTASK pid) (tno_map_of pid)) as Hg.
    assert (tno_map_of pid = 0) as E0 by (unfold tno_map_of; by rewrite E).
    split; [lia|]. apply pidof_compose_systask; lia.
Qed.

(** The state after handing out number [bit] of [map] and UTCB slot [slot] to
    the task [t]. *)
Definition thread_given (t : taskref) (tid map bit slot : Z) (w w' : uapi) : Prop :=
  tno_is_free w map bit /\ ~ tno_is_free w' map bit
  /\ (forall m b, m <> map \/ b <> bit -> 0 <= m -> tno_is_free w' m b <-> tno_is_free w m b)
  /\ exists free, utcb_free (task_of w t) = Some free /\ bitmap_test_bit free slot = true
     /\ 0 <= slot < n_utcb_slots (utcb_area (task_of w t))
     /\ task_of w' t = set_threads (threads (task_of w t) ++ [tid])
          (set_utcb_free (Some (bitmap_clear_bit free slot)) (task_of w t)).

Lemma task_upd_run t f w :
  task_upd t f w = Ret tt (match t with
                           | TProc p => set_ra_process (ra_store p (set_task f (proc_of w p))) w
                           | TSys i => set_ra_systask (ra_store i (f (st_of w i))) w end).
Proof. by destruct t. Qed.

Lemma task_upd_self t f w w' : task_upd t f w = Ret tt w' -> task_of w' t = f (task_of w t).
Proof.
  rewrite task_upd_run. intros [= <-].
  destruct t as [p|i]; cbn; unfold proc_of, st_of, ra_slot; cbn; by rewrite lookup_insert_eq.
Qed.

Lemma task_upd_tnos t f w w' : task_upd t f w = Ret tt w' ->
  tno_free_maps w' = tno_free_maps w /\ tno_free_counts w' = tno_free_counts w.
Proof. rewrite task_upd_run. intros [= <-]. by destruct t. Qed.

Lemma tno_store_run i b n w {B} (k : unit -> M uapi B) :
  (tno_store i b n ≫= k) w
  = k tt (set_tnos (<[Z.to_nat i := b]> (tno_free_maps w))
                   (<[Z.to_nat i := n]> (tno_free_counts w)) w).
Proof. done. Qed.

Lemma tno_store_again i b b' n n' w {B} (k : unit -> M uapi B) :
  (tno_store i b' n' ≫= k)
    (set_tnos (<[Z.to_nat i := b]> (tno_free_maps w))
              (<[Z.to_nat i := n]> (tno_free_counts w)) w)
  = k tt (set_tnos (<[Z.to_nat i := b']> (tno_free_maps w))
                   (<[Z.to_nat i := n']> (tno_free_counts w)) w).
Proof.
  unfold tno_store. rewrite bind_modify, set_tnos_twice. f_equal.
  destruct w; cbn. by rewrite !list_insert_insert_eq.
Qed.

Lemma task_of_tnos a c t w : task_of (set_tnos a c w) t = task_of w t.
Proof. by destruct t. Qed.

Lemma n_utcb_slots_nonneg a : 0 <= n_utcb_slots a.
Proof. apply Z.shiftl_nonneg. lia. Qed.

Opaque bitmap_ffs.

Lemma allocate_thread_run w pid t free :
  tno_ok w -> get_task pid w = Ret (Some t) w -> encodable pid ->
  utcb_free (task_of w t) = Some free ->
  let map := chosen_map w pid in
  let area := utcb_area (task_of w t) in
  let slot := bitmap_ffs free 0 (n_utcb_slots area) in
  allocate_thread pid w = Ret (L4_nilthread, 0) w \/
  exists b n bit,
    0 <= map < 4 /\ 0 <= bit < 2 ^ 16 /\ slot < n_utcb_slots area
    /\ tno_free_maps w !! Z.to_nat map = Some b
    /\ tno_free_counts w !! Z.to_nat map = Some n
    /\ bitmap_test_bit b bit = true
    /\ let tid := compose_tid pid map bit in
    allocate_thread pid w =
      (_ ← task_upd t (fun x => set_threads (threads x ++ [tid])
                        (set_utcb_free (Some (bitmap_clear_bit free slot)) x));
       mret (tid, L4_Address area + Z.shiftl slot utcb_size_log2))
        (set_tnos (<[Z.to_nat map := bitmap_clear_bit b bit]> (tno_free_maps w))
                  (<[Z.to_nat map := n - 1]> (tno_free_counts w)) w).
Proof.
  intros Hok Hg Hp Hf map area slot. unfold allocate_thread. rewrite bind_gets.
  change (pick_map 4 _ _ _) with map.
  destruct ((3 <? map) || _) eqn:E; [by left|].
  apply orb_false_iff in E as [Hm%Z.ltb_ge Hc%Z.eqb_neq].
  rewrite (bind_ret _ _ _ _ _ Hg).
  destruct (chosen_map_pidof w pid 0 Hp Hm ltac:(lia)) as [Hm0 _]. fold map in Hm0.
  destruct (tno_ok_lookup w map Hok ltac:(lia)) as (b & n & Hb & Hn & Hbn).
  rewrite Hn in Hc; cbn in Hc. pose proof (tno_map_ok_nonneg b n Hbn) as Hn0.
  rewrite (tno_map_run _ _ _ _ Hb).
  set (bit := bitmap_ffs b 0 TNOS_PER_BITMAP).
  assert (bit < TNOS_PER_BITMAP) as Hbit.
  { apply bitmap_ffs_exists; [done|]. destruct Hbn as [_ Hbn].
    unfold TNOS_PER_BITMAP in *. lia. }
  destruct (bitmap_ffs_spec b TNOS_PER_BITMAP ltac:(done)) as (Hb1 & _ & Hb2).
  fold bit in Hb1, Hb2. specialize (Hb2 Hbit).
  destruct (chosen_map_pidof w pid bit Hp Hm ltac:(unfold TNOS_PER_BITMAP in *; lia))
    as (_ & Hpid & _). fold map in Hpid.
  assert (Z.to_nat map < length (tno_free_maps w))%nat as Hl by (destruct Hok; lia).
  assert (Z.to_nat map < length (tno_free_counts w))%nat as Hl2
    by (by apply lookup_lt_is_Some; eexists).
  rewrite bind_assert, (proj2 (Z.ltb_lt _ _) Hbit), bind_assert, Hb2.
  rewrite (tno_count_run _ _ _ _ Hn), tno_store_run, bind_assert.
  rewrite (proj2 (Z.ltb_lt 0 n)), tno_store_again by lia.
  rewrite bind_assert, Hpid, Z.eqb_refl.
  unfold task_get. rewrite bind_gets, task_of_tnos, Hf, bind_of_some.
  fold area. fold slot. destruct (Z.eqb_spec slot (n_utcb_slots area)).
  - left. rewrite (tno_map_run _ _ (bitmap_clear_bit b bit))
      by (cbn; by rewrite list_lookup_insert_eq).
    rewrite bind_assert, bitmap_test_cleared. cbn [negb].
    rewrite (tno_count_run _ _ (n - 1)) by (cbn; by rewrite list_lookup_insert_eq).
    rewrite tno_store_again, bind_assert, bitmap_set_clear by done.
    replace (n - 1 + 1) with n by lia. rewrite !list_insert_id, set_tnos_id by done.
    rewrite (proj2 (Z.leb_le _ _)); [done|]. destruct Hbn as [_ Hbn]. lia.
  - right. exists b, n, bit.
    destruct (bitmap_ffs_spec free (n_utcb_slots area) (n_utcb_slots_nonneg area))
      as (Hs & _). fold slot in Hs.
    split_and!; [lia..|unfold TNOS_PER_BITMAP in *; lia|lia|done|done|done|done].
Qed.

Lemma chosen_map_threadno w pid bit :
  encodable pid -> 0 <= chosen_map w pid < 4 -> 0 <= bit < 2 ^ 16 ->
  let n := L4_ThreadNo (compose_tid pid (chosen_map w pid) bit) in
  Z.shiftr n 16 = chosen_map w pid /\ Z.land n 0xffff = bit.
Proof.
  intros Hp Hm Hb n. assert (n = chosen_map w pid * 2 ^ 16 + bit) as ->.
  { unfold n, compose_tid. rewrite lor_shiftl_add by lia.
    apply ThreadNo_GlobalId; [lia|].
    unfold encodable, SNEKS_MAX_PID, SNEKS_MIN_SYSID in Hp.
    unfold IS_SYSTASK, SNEKS_MIN_SYSID. destruct (Z.leb_spec 50000 pid).
    - rewrite lor_shiftl_add by lia. lia.
    - change 0x1fff with (Z.ones 13). rewrite Z.land_ones, lor_shiftl_add by lia.
      Z.to_euclidean_division_equations. lia. }
  change 0xffff with (Z.ones 16). rewrite Z.land_ones, Z.shiftr_div_pow2 by lia.
  Z.to_euclidean_division_equations. lia.
Qed.

Lemma not_free_cleared w map b n bit :
  tno_free_maps w !! map = Some b ->
  ~ tno_is_free (set_tnos (<[map := bitmap_clear_bit b bit]> (tno_free_maps w)) n w)
      (Z.of_nat map) bit.
Proof.
  intros Hb (b' & Hb' & Ht). cbn in Hb'. rewrite Nat2Z.id, list_lookup_insert_eq in Hb'
    by (by apply lookup_lt_is_Some; eexists).
  injection Hb' as <-. by rewrite bitmap_test_cleared in Ht.
Qed.

Lemma other_free_cleared w map b n bit m c :
  tno_free_maps w !! Z.to_nat map = Some b -> 0 <= map -> 0 <= m -> m <> map \/ c <> bit ->
  tno_is_free (set_tnos (<[Z.to_nat map := bitmap_clear_bit b bit]> (tno_free_maps w)) n w) m c
  <-> tno_is_free w m c.
Proof.
  intros Hb H0map Hm Hne. unfold tno_is_free; cbn. destruct (decide (m = map)) as [->|].
  - assert (c <> bit) by (destruct Hne; congruence).
    rewrite list_lookup_insert_eq, Hb by (by apply lookup_lt_is_Some; eexists).
    pose proof (bitmap_test_clear_ne b bit c ltac:(done)) as E.
    split; intros (b' & [= <-] & ?); eexists; (split; [done|]); congruence.
  - rewrite list_lookup_insert_ne by lia. done.
Qed.

(** C34: [allocate_thread] on a live task never trips an assertion.  Either it
    reports that there is no thread number or no UTCB slot left and changes
    nothing, or it returns an ID that [pidof_NP] maps back to the task's PID,
    whose thread number and UTCB slot were free before and are taken after,
    and which is appended to the task's threads.  The number maps stay in step
    with their counts, and no other number changes hands. *)
Theorem allocate_thread_spec w pid t free :
  tno_ok w -> get_task pid w = Ret (Some t) w -> encodable pid ->
  utcb_free (task_of w t) = Some free ->
  exists tid loc w', allocate_thread pid w = Ret (tid, loc) w' /\ tno_ok w'
    /\ (tid = L4_nilthread /\ w' = w
        \/ pidof tid = pid /\ tid <> L4_nilthread
           /\ exists map bit slot, thread_given t tid map bit slot w w'
              /\ loc = L4_Address (utcb_area (task_of w t)) + Z.shiftl slot utcb_size_log2).
Proof.
  intros Hok Hg Hp Hf.
  destruct (allocate_thread_run w pid t free Hok Hg Hp Hf)
    as [E|(b & n & bit & Hm & Hb & Hs & Hbm & Hn & Ht & E)].
  { exists L4_nilthread, 0, w. split; [done|]. split; [done|]. by left. }
  cbv zeta in *. set (map := chosen_map w pid) in *. set (tid := compose_tid pid map bit) in *.
  set (slot := bitmap_ffs free 0 _) in *.
  destruct (chosen_map_pidof w pid bit Hp ltac:(unfold map in *; lia) Hb) as (_ & Hpid & Hnil).
  destruct (tno_ok_lookup w map Hok Hm) as (b' & n' & Hb' & Hn' & Hbn).
  simplify_eq. set (w1 := set_tnos _ _ w) in E.
  destruct (task_upd t (fun x => set_threads (threads x ++ [tid])
              (set_utcb_free (Some (bitmap_clear_bit free slot)) x)) w1) as [[] w2|r] eqn:Eu.
  2:{ rewrite task_upd_run in Eu. done. }
  rewrite (bind_ret _ _ _ _ _ Eu) in E.
  pose proof (task_upd_self _ _ _ _ Eu) as Hself. unfold w1 in Hself.
  rewrite task_of_tnos in Hself. pose proof (task_upd_tnos _ _ _ _ Eu) as [Em Ec].
  assert (tno_ok w1) as Hok1.
  { apply tno_ok_store; [done|]. by apply tno_map_ok_clear. }
  eexists tid, _, w2. split; [done|]. split; [unfold tno_ok; by rewrite Em, Ec|].
  right. split; [done|]. split; [done|]. exists map, bit, slot. split; [|done].
  destruct (bitmap_ffs_spec free _ (n_utcb_slots_nonneg (utcb_area (task_of w t))))
    as (Hs0 & _ & Hst). unfold thread_given. split_and!.
  - by exists b.
  - unfold tno_is_free. rewrite Em.
    pose proof (not_free_cleared w (Z.to_nat map) b (<[Z.to_nat map := n - 1]>
      (tno_free_counts w)) bit Hbm) as Hc. by rewrite Z2Nat.id in Hc by lia.
  - intros m c Hne Hm0. unfold tno_is_free at 1. rewrite Em.
    apply (other_free_cleared w map b _ bit); [done|lia|done|done].
  - exists free. split_and!; [done|by apply Hst|lia|done|done].
Qed.

Lemma store_back t f g w :
  utcb_free (task_of w t) <> None -> (forall x, x = task_of w t -> g (f x) = x) ->
  (_ ← task_upd t f; task_upd t g) w = Ret tt w.
Proof.
  intros Hu Hg. destruct w as [[us m] [us' m'] maps counts pid ch wa rb sd tg nr sd' tr].
  destruct t as [p|i]; cbn in *; unfold upd, st_upd; mstep; unfold modify;
    cbn; do 2 f_equal; unfold proc_of, st_of, ra_slot, ra_store in *; cbn in *.
  - destruct (m !! p) as [x|] eqn:E; cbn in *; [|done]. rewrite lookup_insert_eq; cbn.
    unfold set_ra_process; cbn. rewrite insert_insert_eq, insert_id; [done|]. rewrite E. destruct x; cbn in *.
    f_equal. unfold set_task; cbn. f_equal. symmetry. by apply Hg.
  - destruct (m' !! i) as [x|] eqn:E; cbn in *; [|done]. rewrite lookup_insert_eq; cbn.
    unfold set_ra_systask; cbn. rewrite insert_insert_eq, insert_id; [done|]. rewrite E. f_equal. symmetry. by apply Hg.
Qed.

Lemma tidlist_remove_last tid l :
  tid ∉ l -> tidlist_remove_from tid (l ++ [tid]) = Some l.
Proof.
  intros Hn. unfold tidlist_remove_from.
  rewrite (list_find_app_r _ l [tid]); cycle 1.
  { apply list_find_None, Forall_forall. intros x Hx ->. done. }
  cbn. rewrite decide_True by done. cbn. unfold tid_remove_fast.
  rewrite last_snoc, length_app. cbn. f_equal.
  replace (length l + 1 - 1)%nat with (length l) by lia.
  rewrite list_insert_id, take_app_length by (rewrite lookup_app_r, Nat.sub_diag by done; done).
  done.
Qed.

Lemma shl_slot_bound slot area :
  0 <= utcb_size_log2 -> 0 <= slot < n_utcb_slots area ->
  Z.shiftl slot utcb_size_log2 < Z.shiftl 1 (L4_SizeLog2 area).
Proof.
  unfold n_utcb_slots. intros Hu Hs.
  destruct (Z.lt_ge_cases (L4_SizeLog2 area) utcb_size_log2) as [Hlt|Hge].
  { rewrite (Z.shiftl_div_pow2 1 (L4_SizeLog2 area - _)) in Hs by lia.
    rewrite Z.div_small in Hs; [lia|]. split; [lia|]. apply Z.pow_gt_1; lia. }
  rewrite !Z.shiftl_mul_pow2 in * by lia.
  replace (2 ^ L4_SizeLog2 area)
    with (2 ^ (L4_SizeLog2 area - utcb_size_log2) * 2 ^ utcb_size_log2); [nia|].
  rewrite <- Z.pow_add_r by lia. f_equal. lia.
Qed.

Lemma free_thread_run t tid free slot w :
  0 <= utcb_size_log2 -> utcb_free (task_of w t) = Some free ->
  0 <= slot < n_utcb_slots (utcb_area (task_of w t)) -> bitmap_test_bit free slot = false ->
  free_thread t tid (L4_Address (utcb_area (task_of w t)) + Z.shiftl slot utcb_size_log2) w
  = task_upd t (fun x =>
      set_threads (default (threads x) (tidlist_remove_from tid (threads x)))
        (set_utcb_free (Some (bitmap_set_bit free slot)) x)) w.
Proof.
  intros Hu Hf Hs Ht. unfold free_thread, task_get. rewrite bind_gets, Hf.
  set (a := L4_Address _). replace (a + Z.shiftl slot _ - a)
    with (Z.shiftl slot utcb_size_log2) by lia.
  pose proof (shl_slot_bound slot _ Hu Hs) as Hb.
  assert (0 <= Z.shiftl slot utcb_size_log2) by (apply Z.shiftl_nonneg; lia).
  rewrite bind_assert, (proj2 (Z.leb_le _ _)), (proj2 (Z.ltb_lt _ _)) by lia.
  cbn [andb]. rewrite bind_of_some, Z.shiftr_shiftl_l, Z.sub_diag, Z.shiftl_0_r by lia.
  by rewrite bind_assert, Ht.
Qed.

(** [free_thread] followed by [free_threadno] undoes a successful
    [allocate_thread] completely. *)
Theorem thread_alloc_free_roundtrip w pid t free tid loc w1 :
  tno_ok w -> get_task pid w = Ret (Some t) w -> encodable pid ->
  utcb_free (task_of w t) = Some free -> 0 <= utcb_size_log2 ->
  tid ∉ threads (task_of w t) ->
  allocate_thread pid w = Ret (tid, loc) w1 -> tid <> L4_nilthread ->
  (_ ← free_thread t tid loc; free_threadno tid) w1 = Ret tt w.
Proof.
  intros Hok Hg Hp Hf Hu Hn Hr Hnil.
  destruct (allocate_thread_run w pid t free Hok Hg Hp Hf)
    as [E|(b & n & bit & Hm & Hb & Hs & Hbm & Hcn & Ht & E)]; [congruence|].
  cbv zeta in *. rewrite E in Hr. set (map := chosen_map w pid) in *.
  set (slot := bitmap_ffs free 0 _) in *. set (N := set_tnos _ _ w) in Hr.
  apply bind_ret_inv in Hr as ([] & s1 & Eu & [[= -> ->] ->]%mret_inv).
  set (tid := compose_tid pid map bit) in *.
  destruct (chosen_map_threadno w pid bit Hp Hm Hb) as [Hmap Hbit].
  fold map in Hmap, Hbit. fold tid in Hmap, Hbit.
  pose proof (task_upd_self _ _ _ _ Eu) as Hself. unfold N in Hself.
  rewrite task_of_tnos in Hself.
  destruct (bitmap_ffs_spec free _ (n_utcb_slots_nonneg (utcb_area (task_of w t))))
    as (Hs0 & _ & Hst). fold slot in Hs0, Hst. specialize (Hst Hs).
  pose proof (free_thread_run t tid (bitmap_clear_bit free slot) slot s1 Hu) as Hfree.
  rewrite Hself in Hfree. cbn [utcb_area utcb_free set_threads set_utcb_free] in Hfree.
  assert (free_thread t tid (L4_Address (utcb_area (task_of w t))
            + Z.shiftl slot utcb_size_log2) s1 = Ret tt N) as Hft.
  { rewrite Hfree by (done || lia || apply bitmap_test_cleared).
    rewrite <- (bind_ret _ (fun _ => task_upd t _) _ _ _ Eu). apply store_back.
    - unfold N. by rewrite task_of_tnos, Hf.
    - intros x ->. unfold N. rewrite task_of_tnos. destruct (task_of w t) eqn:Et.
      cbn in *. rewrite tidlist_remove_last by done. cbn.
      by rewrite bitmap_set_clear, Hf. }
  rewrite (bind_ret _ _ _ _ _ Hft). unfold free_threadno. rewrite Hmap, Hbit.
  rewrite (tno_map_run _ _ (bitmap_clear_bit b bit))
    by (cbn; rewrite list_lookup_insert_eq; [done | by apply lookup_lt_is_Some; eexists]).
  rewrite bind_assert, bitmap_test_cleared. cbn [negb].
  rewrite (tno_count_run _ _ (n - 1))
    by (cbn; rewrite list_lookup_insert_eq; [done | by apply lookup_lt_is_Some; eexists]).
  unfold N. rewrite tno_store_again, bitmap_set_clear by done.
  replace (n - 1 + 1) with n by lia. rewrite !list_insert_id, set_tnos_id by done.
  destruct (tno_ok_lookup w map Hok Hm) as (b' & n' & Hb' & Hn' & [_ Hbn]). simplify_eq.
  unfold assert_. by rewrite (proj2 (Z.leb_le _ _)) by lia.
Qed.
End thread_props.
(** ** The invariant holds after [uapi_init] *)

Lemma uapi_init_burned :
  bm_clear (foldl bitmap_clear_bit (bitmap_alloc1 TNOS_PER_BITMAP) (seqZ 0 512))
  = list_to_set (seqZ 0 512).
Proof. vm_compute. reflexivity. Qed.

Lemma tno_map_ok_fresh : tno_map_ok (bitmap_alloc1 TNOS_PER_BITMAP) TNOS_PER_BITMAP.
Proof. split; [by intros i ?%elem_of_empty | done]. Qed.

Lemma uapi_init_tno_ok : tno_ok uapi_init.
Proof.
  split; [done|]. cbn [uapi_init tno_free_maps tno_free_counts uapi_init_tnos fst snd].
  constructor; [|by repeat constructor; apply tno_map_ok_fresh].
  split; rewrite uapi_init_burned.
  - intros i Hi%elem_of_list_to_set%elem_of_seqZ. unfold TNOS_PER_BITMAP. lia.
  - rewrite size_list_to_set by apply NoDup_seqZ. by rewrite length_seqZ.
Qed.

(** ** A small running system for concrete evaluation *)

(** Every call succeeds. *)
Definition demo_answer (c : call) : Z :=
  match c with
  | ThreadControl _ _ _ _ _ | SpaceControl _ _ _ | Reply _ _ | AllocBitmap | AllocMem
  | HtableAdd _ _ => 1
  | Fopen _ => 7
  | FopenHandle => 4
  | RaAllocAny => 5
  | IoDupHandle => 3
  | PathStatMode _ _ => 0x81ff
  | VmConfigureResv => 0x7fff
  | _ => 0
  end.

Definition demo_env : UapiEnv := {|
  env _ c := demo_answer c;
  utcb_size_log2 := 9;
  my_global := 600 * 2 ^ 14 + 2;
  vm_tid := 601 * 2 ^ 14 + 10;
  sysmsg_tid := 602 * 2 ^ 14 + 14
|}.

(** Process [pid], child of [parent], with 128 UTCB slots and no threads. *)
Definition demo_process (parent uid : Z) : process :=
  set_sigs 0 (2 ^ 64 - 1) 0 0 0
    (set_uids uid uid uid (set_ppid parent
      (set_task (fun _ => TaskCommon (0x20000 + 12 * 16) (0x100000 + 16 * 16)
                            (Some (bitmap_alloc1 128)) []) process0))).

Definition demo_world (procs : list (Z * process)) : uapi :=
  set_ra_process (fun _ => Ra ({[0]} ∪ list_to_set procs.*1) (list_to_map procs)) uapi_init.

Lemma demo_world_tno_ok procs : tno_ok (demo_world procs).
Proof. exact uapi_init_tno_ok. Qed.

Definition demo1 : uapi := demo_world [(1, demo_process 0 0); (2, demo_process 1 1000)].

Lemma allocate_thread_spec_witness :
  exists tid loc w', @allocate_thread l4_x2_32 demo_env 2 demo1
                     = Ret (tid, loc) w' /\ tno_ok w'.
Proof.
  destruct (@allocate_thread_spec l4_x2_32 demo_env demo1 2 (TProc 2) (bitmap_alloc1 128))
    as (tid & loc & w' & E & Hok & _).
  - exact (demo_world_tno_ok _).
  - reflexivity.
  - left. unfold SNEKS_MAX_PID. lia.
  - reflexivity.
  - exists tid, loc, w'. split; [exact E | exact Hok].
Defined.
Lemma thread_alloc_free_roundtrip_witness :
  exists tid loc w1, @allocate_thread l4_x2_32 demo_env 2 demo1 = Ret (tid, loc) w1
    /\ (_ ← @free_thread l4_x2_32 demo_env (TProc 2) tid loc; @free_threadno l4_x2_32 tid) w1
       = Ret tt demo1.
Proof.
  eexists _, _, _. split; [vm_compute; reflexivity|].
  apply (@thread_alloc_free_roundtrip l4_x2_32 demo_env demo1 2 (TProc 2) (bitmap_alloc1 128)).
  - exact (demo_world_tno_ok _).
  - reflexivity.
  - left. unfold SNEKS_MAX_PID. lia.
  - reflexivity.
  - cbn. lia.
  - apply not_elem_of_nil.
  - vm_compute. reflexivity.
  - discriminate.
Defined.
