(* ===== verification/ProgImage.v ===== *)
(** Program images and start-up stacks: the pure parts of exec and spawn in
    root/uapi.c, and the argument packing of user/crt/exec.c on the other side.

    Memory blocks are lists of bytes.  Memory allocation is taken to succeed here;
    the operations in [UapiExec] account for its failure. *)
From S2P Require Import Prelude.

Definition PAGE_SIZE : Z := 4096.
Definition PAGE_MASK : Z := 4095.
Definition RECSEP : Z := 0x1e.

(** [(x + PAGE_MASK) & ~PAGE_MASK] on 32 bits *)
Definition page_round (x : Z) : Z := Z.land (u32 (x + PAGE_MASK)) (bnot32 PAGE_MASK).

(** ** Results of the image routines: a value, a negative errno, or a stop *)

Inductive outcome (A : Type) := Good (a : A) | Err (errno : Z) | Crash (r : stop).
Arguments Good {A} _.
Arguments Err {A} _.
Arguments Crash {A} _.

#[global] Instance outcome_ret : MRet outcome := fun A a => Good a.
#[global] Instance outcome_bind : MBind outcome := fun A B k m =>
  match m with Good a => k a | Err e => Err e | Crash r => Crash r end.
Definition check (b : bool) : outcome unit := if b then Good tt else Crash StAssert.

(** ** ELF files, read_elf() *)


(** Little-endian field of [n] bytes at [off]. *)
Fixpoint le_bytes (l : list Z) : Z :=
  match l with [] => 0 | b :: l => b + 256 * le_bytes l end.
Definition field (off n : nat) (l : list Z) : Z := le_bytes (take n (drop off l)).

Definition SIZEOF_EHDR : nat := 52.
Definition SIZEOF_PHDR : nat := 32.
Definition ELFMAG : list Z := [0x7f; 0x45; 0x4c; 0x46].
Definition PT_LOAD : Z := 1.
Definition PROT_RWX : Z := 7.
Definition PROT_RW : Z := 3.

Record phdr := Phdr {
  p_type : Z; p_offset : Z; p_vaddr : Z; p_filesz : Z; p_memsz : Z
}.
Definition parse_phdr (l : list Z) : phdr :=
  Phdr (field 0 4 l) (field 4 4 l) (field 8 4 l) (field 16 4 l) (field 20 4 l).

(** [flags] of the source distinguishes a file mapping from an anonymous one. *)
Record loadseg := Loadseg {
  virt_addr : Z; fileoff : Z; filesz : Z; memsz : Z; prot : Z; anonymous : bool
}.
Record program_image := ProgramImage { hi : Z; lo : Z; start : Z; segs : list loadseg }.

(** One program header. *)
Definition load_phdr (ep : phdr) (img : program_image) : outcome program_image :=
  if negb (p_type ep =? PT_LOAD) then Good img
  else if negb (Z.land (p_vaddr ep) PAGE_MASK =? 0) then Err (- ENOEXEC)
  else
    let tailsz := s32 (page_round (p_memsz ep)) in
    r ← (if 0 <? p_filesz ep then
           if negb (Z.land (p_offset ep) PAGE_MASK =? 0) then Err (- ENOEXEC)
           else
             let seg := Loadseg (p_vaddr ep) (p_offset ep) (p_filesz ep)
                          (page_round (p_filesz ep)) PROT_RWX false in
             let tailsz := s32 (tailsz - memsz seg) in
             _ ← check (0 <=? tailsz);
             Good ([seg], tailsz)
         else Good ([], tailsz));
    let '(s1, tailsz) := r in
    let s2 := if 0 <? tailsz then
                [Loadseg (page_round (u32 (p_vaddr ep + p_filesz ep))) 0 0 tailsz PROT_RW true]
              else [] in
    Good (ProgramImage
            (Z.max (hi img) (page_round (u32 (p_vaddr ep + p_memsz ep))))
            (Z.min (lo img) (p_vaddr ep)) (start img) (segs img ++ s1 ++ s2)).

Fixpoint load_phdrs (eps : list phdr) (img : program_image) : outcome program_image :=
  match eps with
  | [] => Good img
  | ep :: eps => img ← load_phdr ep img; load_phdrs eps img
  end.

(** [fread(epbuf, 32, want, file)] at [pos]: the whole headers there are. *)
Definition fread_phdrs (file : list Z) (pos want : nat) : list phdr :=
  let n := Nat.min want ((length file - pos) / SIZEOF_PHDR) in
  (fun i => parse_phdr (take SIZEOF_PHDR (drop (pos + i * SIZEOF_PHDR) file))) <$> seq 0 n.

(** The loop over buffers full of headers; every turn that goes on consumes at
    least one, so [phnum] turns are enough. *)
Fixpoint elf_loop (fuel : nat) (file : list Z) (bufsize h phnum pos : nat)
    (img : program_image) : outcome program_image :=
  if (phnum <=? h)%nat then Good img
  else match fuel with
       | O => Crash StFuel
       | S fuel =>
           let eps := fread_phdrs file pos (Nat.min (phnum - h) bufsize) in
           match eps with
           | [] => Err (- ENOEXEC)
           | _ :: _ =>
               img ← load_phdrs eps img;
               elf_loop fuel file bufsize (h + length eps) phnum
                 (pos + length eps * SIZEOF_PHDR) img
           end
       end.

(** There is a file header, with the magic number. *)
Definition elf_header_ok (file : list Z) : bool :=
  negb (length file <? SIZEOF_EHDR)%nat && bool_decide (take 4 file = ELFMAG).

Definition read_elf (file : list Z) : outcome program_image :=
  if negb (elf_header_ok file) then Err (- ENOEXEC)
  else
    let phnum := Z.to_nat (field 44 2 file) in
    let bufsize := if field 42 2 file =? Z.of_nat SIZEOF_PHDR
                   then Nat.min phnum (512 / SIZEOF_PHDR)%nat else 1%nat in
    elf_loop phnum file bufsize 0 phnum SIZEOF_EHDR
      (ProgramImage 0 (2 ^ 32 - 1) (field 24 4 file) []).

(** ** Placement of the UTCB and KIP areas, configure() *)

Definition STKRESV : Z := 0x14000.     (* 64k forbidden zone, 16k startup stack *)
Definition UA_SHIFT : Z := 19.         (* size_to_shift(512 * 1024) *)
Definition UA_SIZE : Z := 2 ^ UA_SHIFT.

(** The address of the UTCB area and of the KIP area, for an image at [lo..hi]
    and a KIP area of [kip] bytes. *)
Definition place_areas (kip lo hi : Z) : outcome (Z * Z) :=
  let resv_size := u32 (UA_SIZE + kip + PAGE_SIZE) in
  let ua_mask := bnot32 (UA_SIZE - 1) in
  let low := Z.land (u32 (lo - resv_size)) ua_mask in
  resv_start ← (if low <? STKRESV then
                  let r := Z.land (u32 (hi + UA_SIZE - 1)) ua_mask in
                  _ ← check (hi <? r); Good r
                else
                  _ ← check (STKRESV <=? low);
                  _ ← check (u32 (low + resv_size) <=? lo); Good low);
  if (hi <? resv_start) || (resv_size - UA_SIZE <=? Z.land lo ua_mask) then
    Good (resv_start, u32 (resv_start + UA_SIZE))
  else
    let ua := u32 (Z.land lo ua_mask - UA_SIZE) in
    Good (ua, u32 (ua - kip - PAGE_SIZE)).

(** ** Argument buffers *)

(** Sender side, pack_argbuf(): every string is followed by a record separator,
    the last of which becomes the terminator.  With no string at all the
    terminator is written in front of the buffer. *)
Definition pack_argbuf (strs : list (list Z)) : outcome (list Z) :=
  match strs with
  | [] => Crash StUB
  | _ => Good (removelast (concat (map (fun s => s ++ [RECSEP]) strs)))
  end.

(** The length of a segment up to the next separator or the end, and whether a
    separator follows: strchrnul(seg, RECSEP). *)
Fixpoint seg_len (l : list Z) : nat * bool :=
  match l with
  | [] => (0%nat, false)
  | b :: l => if b =? RECSEP then (0%nat, true)
              else let '(n, s) := seg_len l in (S n, s)
  end.

(** Receiver side, strsplit_offsets(): the buffer up to its terminator in, the
    offsets of the segments and the buffer with separators zeroed out.  Every
    turn takes at least one byte. *)
Fixpoint strsplit_loop (fuel : nat) (buf : list Z) (pos : nat) : list nat * list Z :=
  match buf with
  | [] => ([], [])
  | _ =>
      match fuel with
      | O => ([], buf)
      | S fuel =>
          let '(n, sep) := seg_len buf in
          let used := if sep then S n else n in
          let '(offs, rest) := strsplit_loop fuel (drop used buf) (pos + used) in
          (pos :: offs, take n buf ++ (if sep then [0] else []) ++ rest)
      end
  end.
Definition strsplit_offsets (buf : list Z) : list nat * list Z :=
  strsplit_loop (length buf) buf 0.

(** ** Auxiliary vectors *)

Definition AT_NULL : Z := 0.
Definition AT_IGNORE : Z := 1.
Definition AT_PAGESZ : Z := 6.
Definition AT_FLAGS : Z := 8.
Definition AT_UID : Z := 11.
Definition AT_EUID : Z := 12.
Definition AT_GID : Z := 13.
Definition AT_EGID : Z := 14.
Definition AT_PLATFORM : Z := 15.
Definition AT_BASE_PLATFORM : Z := 24.
Definition AT_RANDOM : Z := 25.
Definition AT_EXECFN : Z := 31.

(** The values given so far and the set of names present. *)
Fixpoint auxv_args (args : list Z) (vals : gmap Z Z) (present : Z)
  : outcome (gmap Z Z * Z) :=
  match args with
  | [] => Crash StUB                      (* va_arg past the last argument *)
  | name :: args =>
      if name =? AT_NULL then Good (vals, present)
      else
        _ ← check (name <? 64);
        if name =? AT_IGNORE then auxv_args args vals present
        else match args with
             | [] => Crash StUB
             | v :: args =>
                 auxv_args args (<[name := v]> vals) (Z.lor present (Z.shiftl 1 name))
             end
  end.

Fixpoint auxv_list (fuel : nat) (vals : gmap Z Z) (present : Z) : list (Z * Z) :=
  match fuel with
  | O => []
  | S fuel =>
      if present =? 0 then []
      else
        let name := ffsll present - 1 in
        (name, default 0 (vals !! name))
          :: auxv_list fuel vals (Z.land present (bnot64 (Z.shiftl 1 name)))
  end.

Definition build_auxv (args : list Z) : outcome (list (Z * Z)) :=
  r ← auxv_args args {[ AT_PAGESZ := PAGE_SIZE; AT_FLAGS := 0 ]}
        (Z.lor (Z.shiftl 1 AT_PAGESZ) (Z.shiftl 1 AT_FLAGS));
  let '(vals, present) := r in
  _ ← check (negb (present =? 0));
  Good (auxv_list 64 vals present).

Definition str_attr (typ : Z) : bool :=
  (typ =? AT_PLATFORM) || (typ =? AT_BASE_PLATFORM) || (typ =? AT_EXECFN) || (typ =? AT_RANDOM).

(** The doubling of the string buffer until [len + 1] bytes fit below the last 16. *)
Fixpoint grow_auxbuf (fuel : nat) (alloc pos len : Z) : option Z :=
  if len <? u32 (alloc - pos - 16) then Some alloc
  else match fuel with O => None | S fuel => grow_auxbuf fuel (2 * alloc) pos len end.

(** Strings are looked up in [mem], the memory of the server: 16 bytes for
    AT_RANDOM and up to the terminator for others.  [junk] is the value of bytes
    of the buffer that are not written.  Returns the vector with string values
    replaced by offsets, each marked true, and the buffer's contents. *)
Fixpoint pack_auxv (mem : Z -> list Z) (junk : Z) (alloc : Z) (auxv : list (Z * Z))
    (buf : list Z) : outcome (list (Z * bool * Z) * list Z) :=
  match auxv with
  | [] => Good ([], buf)
  | (typ, val) :: auxv =>
      if negb (str_attr typ) then
        r ← pack_auxv mem junk alloc auxv buf;
        Good ((typ, false, val) :: r.1, r.2)
      else
        let pos := Z.of_nat (length buf) in
        r ← (if typ =? AT_RANDOM then
               _ ← check (16 <=? u32 (alloc - pos));
               Good (alloc, take 16 (mem val) ++ [junk])
             else
               let len := Z.of_nat (length (mem val)) in
               match grow_auxbuf 32 alloc pos len with
               | Some alloc => Good (alloc, mem val ++ [0])
               | None => Crash StFuel
               end);
        let '(alloc, s) := r in
        r ← pack_auxv mem junk alloc auxv (buf ++ s);
        Good ((typ, true, pos) :: r.1, r.2)
  end.
Definition pack_auxv_top mem junk auxv : outcome (list (Z * bool * Z) * list Z) :=
  r ← pack_auxv mem junk 128 auxv [];
  (* *sz_p = max(1, pos) - 1, with buf[0] a terminator to begin with *)
  Good (r.1, if bool_decide (r.2 = []) then [0] else r.2).

(** ** The start-up stack, upload_startup_stack() *)

Definition round16 (x : Z) : Z := Z.land (x + 15) (Z.lnot 15).
Definition le_word (w : Z) : list Z :=
  (fun i => u32 w / 256 ^ Z.of_nat i mod 256) <$> seq 0 4.

(** The words in front of the strings.  [argsp], [envsp] and [auxsp] are the
    addresses of the string blocks. *)
Definition stack_meta (rlim argsp envsp auxsp : Z) (argv envp : list nat)
    (auxv : list (Z * bool * Z)) : list Z :=
  [rlim; Z.of_nat (length argv)]
  ++ map (fun o => Z.of_nat o + argsp) argv ++ [0]
  ++ map (fun o => Z.of_nat o + envsp) envp ++ [0]
  ++ concat (map (fun a => [a.1.1; if a.1.2 : bool then a.2 + auxsp else a.2]) auxv)
  ++ [AT_NULL; 0].

(** The image and the address it goes to, and the new stack pointer.  [junk]
    stands for memory that was allocated and not written. *)
Definition upload_startup_stack (mem : Z -> list Z) (junk rlim sp : Z)
    (argbuf envbuf : list Z) (auxargs : list Z) : outcome (list Z * Z * Z) :=
  _ ← check (Z.land sp (PAGE_SIZE - 1) =? 0);
  let '(argv, args) := strsplit_offsets argbuf in
  let '(envp, envs) := strsplit_offsets envbuf in
  auxv ← build_auxv auxargs;
  p ← pack_auxv_top mem junk auxv;
  let '(auxv, auxbuf) := p in
  let argsiz := Z.of_nat (length argbuf) in
  let envsiz := Z.of_nat (length envbuf) in
  let auxsiz := Z.of_nat (length auxbuf) - 1 in
  let body_len := argsiz + envsiz + auxsiz + 3 in
  let body_space := round16 body_len in
  let meta_len := 1 + 1 + Z.of_nat (length argv) + 1 + Z.of_nat (length envp) + 1
                  + (Z.of_nat (length auxv) + 1) * 2 in
  let meta_space := round16 (4 * meta_len) in
  let n_pages := (body_space + meta_space + PAGE_SIZE - 1) / PAGE_SIZE in
  let body_sp := u32 (sp - body_space) in
  let meta := stack_meta rlim body_sp (body_sp + argsiz + 1) (body_sp + argsiz + envsiz + 2)
                argv envp auxv in
  _ ← check (Z.of_nat (length meta) =? meta_len);
  _ ← check (Z.of_nat (length meta) * 4 <=? meta_space);
  let body := args ++ [0] ++ envs ++ [0] ++ auxbuf in
  _ ← check (Z.of_nat (length body) =? body_len);
  let pad n := replicate (Z.to_nat n) junk in
  Good (pad (n_pages * PAGE_SIZE - body_space - meta_space)
        ++ concat (map le_word meta) ++ pad (meta_space - 4 * meta_len)
        ++ body ++ pad (body_space - body_len),
        u32 (sp - n_pages * PAGE_SIZE), u32 (sp - (body_space + meta_space))).

(** The auxiliary vector exec and spawn ask for. *)
Definition exec_auxargs (uid euid rand_bytes execfn : Z) : list Z :=
  [AT_UID; uid; AT_EUID; euid; AT_GID; uid; AT_EGID; euid;
   AT_RANDOM; rand_bytes; AT_EXECFN; execfn; AT_NULL].
