(* ===== verification/ProgImageProps.v ===== *)
(** Program images and start-up stacks are laid out as the new process needs
    them: segments cover what the ELF headers ask for, argument strings survive
    packing, splitting and the move to the stack, and the reserved areas do not
    overlap the image. *)
From S2P Require Import Prelude ProgImage.

(** ** Rounding *)

Lemma land_page_mask x : Z.land x PAGE_MASK = x mod PAGE_SIZE.
Proof. change PAGE_MASK with (Z.ones 12). by rewrite Z.land_ones. Qed.

Lemma land_not_ones x k w : 0 <= k <= w -> 0 <= x < 2 ^ w ->
  Z.land x (unot w (Z.ones k)) = x / 2 ^ k * 2 ^ k.
Proof.
  intros Hk Hx. rewrite <- Z.shiftl_mul_pow2, <- Z.shiftr_div_pow2 by lia.
  apply Z.bits_inj'. intros i Hi.
  rewrite Z.land_spec, unot_testbit, Z.shiftl_spec by lia.
  destruct (Z.lt_ge_cases i k).
  - rewrite Z.ones_spec_low, (Z.testbit_neg_r _ (i - k)) by lia. by rewrite andb_false_r, andb_false_r.
  - rewrite Z.ones_spec_high, Z.shiftr_spec by lia. replace (i - k + k) with i by lia.
    destruct (Z.ltb_spec i w); [by rewrite andb_true_r|]. by rewrite (testbit_high w) by lia.
Qed.

Lemma page_round_eq x : 0 <= x < 2 ^ 32 - PAGE_SIZE ->
  page_round x = (x + PAGE_MASK) / PAGE_SIZE * PAGE_SIZE.
Proof.
  unfold PAGE_SIZE, PAGE_MASK. intros Hx. unfold page_round, bnot32, PAGE_MASK.
  rewrite u32_id by lia. exact (land_not_ones (x + 4095) 12 32 ltac:(lia) ltac:(lia)).
Qed.

Lemma page_round_bounds x : 0 <= x < 2 ^ 32 - PAGE_SIZE ->
  x <= page_round x < x + PAGE_SIZE /\ page_round x mod PAGE_SIZE = 0.
Proof.
  intros Hx. rewrite page_round_eq by done. unfold PAGE_SIZE, PAGE_MASK in *.
  Z.to_euclidean_division_equations. lia.
Qed.

Lemma page_round_add a x :
  a mod PAGE_SIZE = 0 -> 0 <= a -> 0 <= x -> a + x < 2 ^ 32 - PAGE_SIZE ->
  page_round (a + x) = a + page_round x.
Proof.
  intros Ha H0 Hx Hb. rewrite !page_round_eq by lia. unfold PAGE_SIZE, PAGE_MASK in *.
  Z.to_euclidean_division_equations. lia.
Qed.

Lemma page_round_mono x y : 0 <= x <= y -> y < 2 ^ 32 - PAGE_SIZE -> page_round x <= page_round y.
Proof.
  intros Hx Hy. rewrite !page_round_eq by lia. unfold PAGE_SIZE, PAGE_MASK in *.
  Z.to_euclidean_division_equations. lia.
Qed.

(** ** ELF loading *)

(** The program headers as they follow the file header. *)
Definition elf_phdrs (file : list Z) : list phdr :=
  (fun i => parse_phdr (take SIZEOF_PHDR (drop (SIZEOF_EHDR + i * SIZEOF_PHDR) file)))
    <$> seq 0 (Z.to_nat (field 44 2 file)).

Lemma fread_phdrs_all file pos want :
  exists n, (n <= want)%nat /\ fread_phdrs file pos want =
    (fun i => parse_phdr (take SIZEOF_PHDR (drop (pos + i * SIZEOF_PHDR) file))) <$> seq 0 n.
Proof. eexists. split; [|reflexivity]. lia. Qed.

Lemma load_phdrs_app l k img :
  load_phdrs (l ++ k) img = (img ← load_phdrs l img; load_phdrs k img).
Proof.
  revert img. induction l as [|ep l IH]; intros img; [done|]. cbn.
  destruct (load_phdr ep img); [apply IH|done|done].
Qed.

(** Reading buffer by buffer is reading header by header. *)
Lemma elf_loop_good fuel file bufsize h phnum pos img img' :
  (h <= phnum)%nat ->
  elf_loop fuel file bufsize h phnum pos img = Good img' ->
  load_phdrs ((fun i => parse_phdr (take SIZEOF_PHDR (drop (pos + i * SIZEOF_PHDR) file)))
    <$> seq 0 (phnum - h)) img = Good img'.
Proof.
  revert h pos img. induction fuel as [|fuel IH]; intros h pos img Hh; cbn [elf_loop];
    (destruct (phnum <=? h)%nat eqn:E; [apply Nat.leb_le in E|apply Nat.leb_gt in E; try done]).
  - replace (phnum - h)%nat with 0%nat by lia. done.
  - replace (phnum - h)%nat with 0%nat by lia. done.
  - destruct (fread_phdrs_all file pos (Nat.min (phnum - h) bufsize)) as (n & Hn & Ef).
    rewrite Ef. destruct n as [|n]; [done|].
    set (eps := _ <$> seq 0 (S n)). assert (length eps = S n) as El.
    { unfold eps. by rewrite length_fmap, length_seq. }
    replace (match eps with [] => Err (- ENOEXEC) | _ :: _ => _ end) with
      (img0 ← load_phdrs eps img; elf_loop fuel file bufsize (h + S n) phnum
         (pos + S n * SIZEOF_PHDR) img0) by (rewrite <- El; by destruct eps).
    destruct (load_phdrs eps img) as [img0| |] eqn:E0; [|done|done]. cbn.
    intros Hr. apply IH in Hr; [|lia].
    replace (phnum - h)%nat with (S n + (phnum - (h + S n)))%nat by lia.
    rewrite seq_app, fmap_app, load_phdrs_app. change (_ <$> seq 0 (S n)) with eps. rewrite E0. cbn [mbind outcome_bind].
    rewrite <- Hr. f_equal. rewrite Nat.add_comm, <- (fmap_add_seq (S n) 0), <- list_fmap_compose.
    apply list_fmap_ext. intros ? i _. cbn. do 3 f_equal. lia.
Qed.

(** Enough turns: [elf_loop] is never out of fuel. *)
Lemma elf_loop_fuel fuel file bufsize h phnum pos img :
  (phnum <= h + fuel)%nat -> elf_loop fuel file bufsize h phnum pos img <> Crash StFuel.
Proof.
  assert (forall eps img, load_phdrs eps img <> Crash StFuel) as Hl.
  { intros eps. induction eps as [|ep eps IHe]; intros i; [done|]. cbn.
    assert (load_phdr ep i <> Crash StFuel) as Hp.
    { unfold load_phdr, check. by repeat case_match; simplify_eq/=. }
    destruct (load_phdr ep i); [apply IHe|done|]. cbn. congruence. }
  revert h pos img. induction fuel as [|fuel IH]; intros h pos img Hf; cbn [elf_loop].
  - by rewrite (proj2 (Nat.leb_le phnum h)) by lia.
  - destruct (phnum <=? h)%nat; [done|]. destruct (fread_phdrs _ _ _) as [|ep eps]; [done|].
    specialize (Hl (ep :: eps) img). destruct (load_phdrs (ep :: eps) img); cbn [mbind outcome_bind]; [|done|congruence].
    apply IH. cbn [length]. lia.
Qed.

(** A program header that fits the lower half of the address space. *)
Definition phdr_ok (ep : phdr) : Prop :=
  0 <= p_vaddr ep /\ 0 <= p_filesz ep /\ 0 <= p_memsz ep
  /\ p_vaddr ep + p_memsz ep < 2 ^ 31 - PAGE_SIZE
  /\ p_vaddr ep + p_filesz ep < 2 ^ 31 - PAGE_SIZE.

Definition seg_covers (a : Z) (s : loadseg) : Prop :=
  virt_addr s <= a < virt_addr s + memsz s.

(** What loading a program header owes the program: the header's memory is
    covered by segments that are whole pages, lies between [lo] and [hi], and
    starts with the file's bytes mapped from the right offset. *)
Definition phdr_loaded (img : program_image) (ep : phdr) : Prop :=
  p_vaddr ep mod PAGE_SIZE = 0
  /\ lo img <= p_vaddr ep /\ p_vaddr ep + p_memsz ep <= hi img
  /\ (forall a, p_vaddr ep <= a < p_vaddr ep + p_memsz ep -> Exists (seg_covers a) (segs img))
  /\ (0 < p_filesz ep ->
      Loadseg (p_vaddr ep) (p_offset ep) (p_filesz ep) (page_round (p_filesz ep)) PROT_RWX false
        ∈ segs img).

Definition seg_ok (s : loadseg) : Prop :=
  virt_addr s mod PAGE_SIZE = 0 /\ memsz s mod PAGE_SIZE = 0 /\ 0 < memsz s
  /\ 0 <= filesz s <= memsz s.

Lemma phdr_loaded_mono img img' ep :
  lo img' <= lo img -> hi img <= hi img' -> segs img ⊆ segs img' ->
  phdr_loaded img ep -> phdr_loaded img' ep.
Proof.
  intros Hl Hh Hs (H1 & H2 & H3 & H4 & H5). split_and!; [done|lia|lia| |auto].
  intros a Ha. specialize (H4 a Ha). apply Exists_exists in H4 as (s & Hin & Hc).
  apply Exists_exists. eauto.
Qed.

Lemma s32_id x : - 2 ^ 31 <= x < 2 ^ 31 -> s32 x = x.
Proof. intros Hx. by apply signed_id. Qed.

Lemma load_phdr_spec ep img img' :
  phdr_ok ep -> load_phdr ep img = Good img' ->
  lo img' <= lo img /\ hi img <= hi img' /\ start img' = start img
  /\ (exists new, segs img' = segs img ++ new /\ Forall seg_ok new)
  /\ (p_type ep = PT_LOAD -> phdr_loaded img' ep).
Proof.
  intros (Hv & Hf & Hm & Hvm & Hvf). unfold load_phdr.
  destruct (Z.eqb_spec (p_type ep) PT_LOAD) as [Et|Et]; cbn [negb]; cycle 1.
  { intros [= <-]. split_and!; try done. exists []. by rewrite app_nil_r. }
  rewrite !land_page_mask. destruct (Z.eqb_spec (p_vaddr ep mod PAGE_SIZE) 0) as [Ha|]; [|done].
  cbn [negb]. unfold PAGE_SIZE in Hvm, Hvf.
  pose proof (page_round_bounds (p_memsz ep) ltac:(unfold PAGE_SIZE; lia)) as [Rm Rm0].
  pose proof (page_round_bounds (p_filesz ep) ltac:(unfold PAGE_SIZE; lia)) as [Rf Rf0].
  pose proof (page_round_add (p_vaddr ep) (p_memsz ep) Ha Hv Hm ltac:(unfold PAGE_SIZE; lia)) as Am.
  pose proof (page_round_add (p_vaddr ep) (p_filesz ep) Ha Hv Hf ltac:(unfold PAGE_SIZE; lia)) as Af.
  unfold PAGE_SIZE in Rm, Rf.
  rewrite (s32_id (page_round (p_memsz ep))), !u32_id by lia. rewrite Am, Af.
  set (M := page_round (p_memsz ep)) in *. set (F := page_round (p_filesz ep)) in *.
  destruct (Z.ltb_spec 0 (p_filesz ep)) as [Hf0|Hf0].
  - destruct (Z.eqb_spec (p_offset ep mod PAGE_SIZE) 0); [|done]. cbn [negb].
    cbn [mbind outcome_bind memsz]. rewrite s32_id by lia. unfold check.
    destruct (Z.leb_spec 0 (M - F)); [|done]. cbn [mbind outcome_bind]. intros [= <-].
    cbn [lo hi start segs]. split_and!; [lia|lia|done| |].
    + eexists. split; [done|]. constructor; [|destruct (Z.ltb_spec 0 (M - F)); repeat constructor];
        unfold seg_ok; cbn; unfold PAGE_SIZE in *; try lia; Z.to_euclidean_division_equations; lia.
    + intros _. unfold phdr_loaded; cbn. split_and!; [done|lia|lia| |set_solver].
      intros a Haa. apply Exists_exists. destruct (Z.lt_ge_cases a (p_vaddr ep + F)).
      * eexists. split; [apply elem_of_app; right; left|]. split; cbn; lia.
      * exists (Loadseg (p_vaddr ep + F) 0 0 (M - F) PROT_RW true). split; [|split; cbn; lia].
        rewrite (proj2 (Z.ltb_lt 0 (M - F))) by lia. set_solver.
  - assert (p_filesz ep = 0) as E0 by lia. cbn [mbind outcome_bind]. intros [= <-].
    assert (F = 0) as EF by (unfold PAGE_SIZE in *; Z.to_euclidean_division_equations; lia).
    cbn [lo hi start segs]. split_and!; [lia|lia|done| |].
    + eexists. split; [done|]. destruct (Z.ltb_spec 0 M); repeat constructor;
        cbn; unfold PAGE_SIZE in *; try lia; Z.to_euclidean_division_equations; lia.
    + intros _. unfold phdr_loaded; cbn. split_and!; [done|lia|lia| |lia].
      intros a Haa. apply Exists_exists.
      exists (Loadseg (p_vaddr ep + F) 0 0 M PROT_RW true). split; [|split; cbn; lia].
      rewrite (proj2 (Z.ltb_lt 0 M)) by lia. set_solver.
Qed.

Lemma load_phdrs_spec eps img img' :
  Forall phdr_ok eps -> load_phdrs eps img = Good img' ->
  lo img' <= lo img /\ hi img <= hi img' /\ start img' = start img
  /\ (exists new, segs img' = segs img ++ new /\ Forall seg_ok new)
  /\ Forall (fun ep => p_type ep = PT_LOAD -> phdr_loaded img' ep) eps.
Proof.
  revert img. induction eps as [|ep eps IH]; intros img Hok; cbn.
  - intros [= ->]. split_and!; try done. exists []. by rewrite app_nil_r.
  - apply Forall_cons in Hok as [Hep Hok]. destruct (load_phdr ep img) as [img1| |] eqn:E; [|done|done].
    cbn [mbind outcome_bind]. intros Hr.
    destruct (load_phdr_spec _ _ _ Hep E) as (L1 & H1 & S1 & (n1 & G1 & O1) & P1).
    destruct (IH _ Hok Hr) as (L2 & H2 & S2 & (n2 & G2 & O2) & P2).
    split_and!; [lia|lia|congruence| |].
    + exists (n1 ++ n2). rewrite G2, G1, app_assoc. split; [done|]. by apply Forall_app.
    + constructor; [|done]. intros Ht. apply (phdr_loaded_mono img1); [done|done| |auto].
      rewrite G2. set_solver.
Qed.

(** C39: an image that [read_elf] accepts covers the memory of every loadable
    program header of the file with page-aligned, whole-page segments, maps the
    header's file part from its offset, keeps the entry point, and bounds all of it
    by [lo] and [hi].  Reading the headers never runs out of turns. *)
Theorem read_elf_covers file :
  read_elf file <> Crash StFuel
  /\ forall img, Forall phdr_ok (elf_phdrs file) -> read_elf file = Good img ->
     start img = field 24 4 file
     /\ Forall seg_ok (segs img)
     /\ Forall (fun ep => p_type ep = PT_LOAD -> phdr_loaded img ep) (elf_phdrs file).
Proof.
  unfold read_elf. destruct (negb _); [done|].
  split; [apply elf_loop_fuel; lia|]. intros img Hok Hr%elf_loop_good; [|lia].
  rewrite Nat.sub_0_r in Hr.
  destruct (load_phdrs_spec _ _ _ Hok Hr) as (_ & _ & Hs & (new & Hn & Hso) & Hp).
  split_and!; [done|by rewrite Hn|done].
Qed.

(** ** Argument strings *)

(** C strings that an argument buffer can carry. *)
Definition arg_ok (s : list Z) : Prop := Forall (fun b => b <> 0 /\ b <> RECSEP) s.

(** The strings one after another, each followed by [sep]. *)
Definition joined (sep : Z) (strs : list (list Z)) : list Z :=
  concat (map (fun s => s ++ [sep]) strs).

(** Where each of them begins. *)
Fixpoint starts (pos : nat) (strs : list (list Z)) : list nat :=
  match strs with [] => [] | s :: strs => pos :: starts (pos + length s + 1) strs end.

Lemma seg_len_sep s rest : arg_ok s -> seg_len (s ++ RECSEP :: rest) = (length s, true).
Proof.
  induction 1 as [|b s [_ Hb] _ IH]; cbn; [done|].
  rewrite (proj2 (Z.eqb_neq b RECSEP)) by done. by rewrite IH.
Qed.
Lemma seg_len_end s : arg_ok s -> seg_len s = (length s, false).
Proof.
  induction 1 as [|b s [_ Hb] _ IH]; cbn; [done|].
  rewrite (proj2 (Z.eqb_neq b RECSEP)) by done. by rewrite IH.
Qed.

Lemma joined_cons sep s strs : joined sep (s :: strs) = s ++ sep :: joined sep strs.
Proof. unfold joined; cbn. by rewrite <- app_assoc. Qed.

Lemma removelast_joined_cons sep s s' strs :
  removelast (joined sep (s :: s' :: strs)) = s ++ sep :: removelast (joined sep (s' :: strs)).
Proof.
  rewrite joined_cons. rewrite removelast_app by done. f_equal.
  rewrite joined_cons. cbn. by destruct s'.
Qed.
Lemma removelast_joined_one sep s : removelast (joined sep [s]) = s.
Proof. unfold joined; cbn. rewrite app_nil_r, removelast_last. done. Qed.

Lemma strsplit_loop_joined strs s fuel pos :
  Forall arg_ok (strs ++ [s]) -> s <> [] ->
  (length (removelast (joined RECSEP (strs ++ [s]))) <= fuel)%nat ->
  strsplit_loop fuel (removelast (joined RECSEP (strs ++ [s]))) pos
  = (starts pos (strs ++ [s]), removelast (joined 0 (strs ++ [s]))).
Proof.
  intros Hok Hs. revert fuel pos. induction strs as [|t strs IH]; intros fuel pos Hf.
  - cbn [app] in *. rewrite !removelast_joined_one in *. apply Forall_cons in Hok as [Hok _].
    destruct fuel as [|fuel]; [destruct s; cbn in Hf; [done|lia]|].
    cbn [strsplit_loop]. rewrite (seg_len_end s Hok), drop_all, take_ge by lia.
    destruct s as [|b s]; [done|]. destruct fuel; cbn; by rewrite app_nil_r.
  - cbn [app] in *. apply Forall_cons in Hok as [Ht Hok].
    destruct (strs ++ [s]) as [|u us] eqn:E; [by destruct strs|].
    rewrite !removelast_joined_cons in *. rewrite length_app in Hf. cbn [length] in Hf.
    destruct fuel as [|fuel]; [lia|]. cbn [strsplit_loop].
    rewrite (seg_len_sep t _ Ht). specialize (IH Hok fuel (pos + S (length t))%nat ltac:(lia)).
    replace (drop (S (length t)) (t ++ RECSEP :: removelast (joined RECSEP (u :: us))))
      with (removelast (joined RECSEP (u :: us)))
      by (by rewrite drop_app_ge, Nat.sub_succ_l, Nat.sub_diag by lia).
    rewrite IH, take_app_length. cbn [starts app].
    replace (pos + length t + 1)%nat with (pos + S (length t))%nat by lia.
    by destruct t.
Qed.

Lemma strsplit_loop_terminated strs fuel pos :
  Forall arg_ok strs -> (length (joined RECSEP strs) <= fuel)%nat ->
  strsplit_loop fuel (joined RECSEP strs) pos = (starts pos strs, joined 0 strs).
Proof.
  intros Hok. revert fuel pos. induction Hok as [|t strs Ht Hok IH]; intros fuel pos Hf.
  - by destruct fuel.
  - rewrite !joined_cons in *. rewrite length_app in Hf. cbn [length] in Hf.
    destruct fuel as [|fuel]; [lia|]. cbn [strsplit_loop].
    rewrite (seg_len_sep t _ Ht). specialize (IH fuel (pos + S (length t))%nat ltac:(lia)).
    replace (drop (S (length t)) (t ++ RECSEP :: joined RECSEP strs)) with (joined RECSEP strs)
      by (by rewrite drop_app_ge, Nat.sub_succ_l, Nat.sub_diag by lia).
    rewrite IH, take_app_length. cbn [starts app].
    replace (pos + length t + 1)%nat with (pos + S (length t))%nat by lia.
    by destruct t.
Qed.

(** The C string that begins at [off] in [l]. *)
Fixpoint cstring (l : list Z) : list Z :=
  match l with [] => [] | b :: l => if b =? 0 then [] else b :: cstring l end.
Definition cstring_at (l : list Z) (off : nat) : list Z := cstring (drop off l).

Lemma cstring_app s rest : Forall (fun b => b <> 0) s -> cstring (s ++ 0 :: rest) = s.
Proof.
  induction 1 as [|b s Hb _ IH]; [done|]. cbn. by rewrite (proj2 (Z.eqb_neq b 0)), IH.
Qed.

Lemma arg_ok_nonzero s : arg_ok s -> Forall (fun b => b <> 0) s.
Proof. intros Hs. eapply Forall_impl; [exact Hs|]. cbn. tauto. Qed.

Lemma length_starts pos strs : length (starts pos strs) = length strs.
Proof. revert pos. induction strs; intros; cbn; auto. Qed.

(** Every string is found at its start, wherever the block is put. *)
Lemma starts_cstring pre strs i s rest :
  Forall arg_ok strs -> strs !! i = Some s ->
  exists o, starts (length pre) strs !! i = Some o
            /\ cstring_at (pre ++ joined 0 strs ++ rest) o = s.
Proof.
  intros Hok. revert pre i. induction Hok as [|t strs Ht Hok IH]; intros pre i; [done|].
  destruct i as [|i]; cbn [starts].
  - intros [= ->]. exists (length pre). split; [done|]. unfold cstring_at.
    rewrite drop_app_length, joined_cons, <- app_assoc. cbn [app].
    apply cstring_app. by apply arg_ok_nonzero.
  - intros Hi. destruct (IH (pre ++ t ++ [0]) i Hi) as (o & Ho & Hc).
    exists o. rewrite !length_app in Ho. cbn in Ho. cbn [lookup list_lookup].
    replace (length pre + length t + 1)%nat with (length pre + (length t + 1))%nat by lia.
    split; [exact Ho|]. rewrite joined_cons. rewrite <- Hc. f_equal.
    by rewrite <- !app_assoc.
Qed.

Lemma strsplit_pack strs s :
  Forall arg_ok (strs ++ [s]) -> s <> [] ->
  exists buf, pack_argbuf (strs ++ [s]) = Good buf
    /\ strsplit_offsets buf = (starts 0 (strs ++ [s]), removelast (joined 0 (strs ++ [s])))
    /\ length buf = length (removelast (joined 0 (strs ++ [s]))).
Proof.
  intros Hok Hs. exists (removelast (joined RECSEP (strs ++ [s]))).
  assert (strsplit_offsets (removelast (joined RECSEP (strs ++ [s])))
          = (starts 0 (strs ++ [s]), removelast (joined 0 (strs ++ [s])))) as E.
  { by apply strsplit_loop_joined. }
  split_and!; [by destruct strs|done|].
  assert (forall a b l, length (removelast (joined a l)) = length (removelast (joined b l))) as Hl.
  { intros a b l. induction l as [|x [|y l] IH]; [done|by rewrite !removelast_joined_one|].
    rewrite !removelast_joined_cons, !length_app; cbn [length]. by rewrite IH. }
  apply Hl.
Qed.

Lemma removelast_joined sep strs s :
  joined sep (strs ++ [s]) = removelast (joined sep (strs ++ [s])) ++ [sep].
Proof.
  unfold joined. rewrite map_app, concat_app. cbn. rewrite app_nil_r, app_assoc.
  by rewrite removelast_last.
Qed.

(** argument strings survive the way from [pack_argbuf] in the calling process
    to [strsplit_offsets] in the server: as many offsets come out as strings went
    in, and each is the position of its string.  A last string that is empty is
    lost on the way, since its separator is taken for the end of the one before;
    and a list without strings makes the packing write before its buffer. *)
Theorem args_roundtrip strs s :
  Forall arg_ok (strs ++ [s]) ->
  pack_argbuf [] = Crash StUB
  /\ exists buf, pack_argbuf (strs ++ [s]) = Good buf
     /\ if decide (s = []) then length (strsplit_offsets buf).1 = length strs
        else length (strsplit_offsets buf).1 = S (length strs)
          /\ forall i t, (strs ++ [s]) !! i = Some t ->
             exists o, (strsplit_offsets buf).1 !! i = Some o
               /\ cstring_at ((strsplit_offsets buf).2 ++ [0]) o = t.
Proof.
  intros Hok. split; [done|]. case_decide as Hs.
  - subst s. exists (removelast (joined RECSEP (strs ++ [[]]))). split; [by destruct strs|].
    replace (removelast (joined RECSEP (strs ++ [[]]))) with (joined RECSEP strs); cycle 1.
    { unfold joined. rewrite map_app, concat_app. cbn. by rewrite removelast_last. }
    unfold strsplit_offsets. apply Forall_app in Hok as [Hok _].
    rewrite strsplit_loop_terminated by done. apply length_starts.
  - destruct (strsplit_pack strs s Hok Hs) as (buf & Eb & Es & _). exists buf.
    split; [done|]. rewrite Es. cbn [fst snd]. rewrite length_starts, length_app.
    split; [cbn; lia|]. intros i t Ht. rewrite <- removelast_joined.
    destruct (starts_cstring [] (strs ++ [s]) i t [] Hok Ht) as (o & Ho & Hc).
    exists o. split; [done|]. by rewrite app_nil_r in Hc.
Qed.

(** ** The start-up stack *)

(** The argument buffer [buf] stands for the strings [strs]. *)
Definition carries (buf : list Z) (strs : list (list Z)) : Prop :=
  Forall arg_ok strs
  /\ exists z tail, strsplit_offsets buf = (starts 0 strs, z)
     /\ z ++ [0] = joined 0 strs ++ tail /\ length z = length buf.

Lemma carries_nil : carries [] [].
Proof. split; [done|]. by exists [], [0]. Qed.

Lemma carries_pack strs s buf :
  Forall arg_ok (strs ++ [s]) -> s <> [] -> pack_argbuf (strs ++ [s]) = Good buf ->
  carries buf (strs ++ [s]).
Proof.
  intros Hok Hs Hb. destruct (strsplit_pack strs s Hok Hs) as (buf' & Eb & Es & El).
  rewrite Hb in Eb. injection Eb as <-. split; [done|]. eexists _, [].
  split; [done|]. rewrite app_nil_r. split; [symmetry; apply removelast_joined|by rewrite El].
Qed.

Lemma starts_shift n k strs : starts (n + k) strs = map (Nat.add n) (starts k strs).
Proof.
  revert k. induction strs as [|s strs IH]; intros k; [done|]. cbn. f_equal.
  rewrite <- IH. f_equal. lia.
Qed.

(** Strings of a block [z] stay where they are when the block is moved to [pre]. *)
Lemma carries_string buf strs z pre rest i s :
  carries buf strs -> (strsplit_offsets buf).2 = z -> strs !! i = Some s ->
  exists o, (strsplit_offsets buf).1 !! i = Some o
            /\ cstring_at (pre ++ z ++ 0 :: rest) (length pre + o) = s.
Proof.
  intros (Hok & z' & tail & Es & Ez & _) <- Hi. rewrite Es. cbn [fst snd].
  destruct (starts_cstring pre strs i s (tail ++ rest) Hok Hi) as (o & Ho & Hc).
  replace (length pre) with (length pre + 0)%nat in Ho at 1 by lia.
  rewrite starts_shift in Ho. apply list_lookup_fmap_Some in Ho as (o' & -> & Ho').
  exists o'. split; [done|]. rewrite <- Hc. f_equal. f_equal.
  change (z' ++ 0 :: rest) with (z' ++ [0] ++ rest). by rewrite app_assoc, Ez, <- app_assoc.
Qed.

(** *** Words *)

Definition read_word (l : list Z) (off : nat) : Z := field off 4 l.

Lemma le_bytes_word w : le_bytes (le_word w) = u32 w.
Proof.
  unfold le_word. cbn [seq fmap list_fmap le_bytes].
  pose proof (u32_range w). generalize dependent (u32 w). intros u Hu.
  change (256 ^ Z.of_nat 0) with 1. change (256 ^ Z.of_nat 1) with 256.
  change (256 ^ Z.of_nat 2) with 65536. change (256 ^ Z.of_nat 3) with 16777216.
  Z.to_euclidean_division_equations. lia.
Qed.

Lemma length_le_word w : length (le_word w) = 4%nat.
Proof. done. Qed.
Opaque le_word.

Lemma length_words meta : length (concat (map le_word meta)) = (4 * length meta)%nat.
Proof.
  induction meta as [|w meta IH]; [done|]. cbn [map concat].
  rewrite length_app, IH, length_le_word. cbn [length]. lia.
Qed.

Lemma read_word_meta pre meta rest k w :
  meta !! k = Some w ->
  read_word (pre ++ concat (map le_word meta) ++ rest) (length pre + 4 * k) = u32 w.
Proof.
  revert pre k. induction meta as [|v meta IH]; intros pre k; [done|].
  cbn [map concat]. destruct k as [|k].
  - intros [= ->]. unfold read_word, field. rewrite Nat.mul_0_r, Nat.add_0_r, drop_app_length.
    rewrite <- app_assoc, take_app_length' by done. apply le_bytes_word.
  - intros Hk. rewrite <- (IH (pre ++ le_word v) k Hk), length_app, length_le_word.
    rewrite <- !app_assoc. f_equal. lia.
Qed.

Lemma round16_eq x : round16 x = (x + 15) / 16 * 16.
Proof.
  unfold round16. change 15 with (Z.ones 4) at 2.
  change (Z.land (x + 15) (Z.lnot (Z.ones 4))) with (Z.ldiff (x + 15) (Z.ones 4)).
  rewrite Z.ldiff_ones_r, Z.shiftl_mul_pow2, Z.shiftr_div_pow2 by lia. done.
Qed.

(** *** The auxiliary vector *)

Lemma exec_auxv uid euid pr pn :
  build_auxv (exec_auxargs uid euid pr pn)
  = Good [(AT_PAGESZ, PAGE_SIZE); (AT_FLAGS, 0); (AT_UID, uid); (AT_EUID, euid);
          (AT_GID, uid); (AT_EGID, euid); (AT_RANDOM, pr); (AT_EXECFN, pn)].
Proof. reflexivity. Qed.

Lemma grow_auxbuf_some fuel alloc pos len :
  0 <= pos -> pos + 16 < alloc -> 0 <= len -> len + pos + 17 <= alloc * 2 ^ Z.of_nat fuel ->
  len + pos + 17 < 2 ^ 30 -> alloc < 2 ^ 31 -> is_Some (grow_auxbuf fuel alloc pos len).
Proof.
  intros Hp. revert alloc. induction fuel as [|fuel IH]; intros alloc Ha Hl Hf Hb Hal;
    cbn [grow_auxbuf]; rewrite u32_id by lia;
    (destruct (Z.ltb_spec len (alloc - pos - 16)); [by eexists|]).
  - lia.
  - apply IH; try lia. rewrite Nat2Z.inj_succ, Z.pow_succ_r in Hf by lia. lia.
Qed.

Lemma exec_pack_auxv mem junk uid euid pr pn :
  length (mem pr) = 16%nat -> Z.of_nat (length (mem pn)) < 2 ^ 29 ->
  pack_auxv_top mem junk
    [(AT_PAGESZ, PAGE_SIZE); (AT_FLAGS, 0); (AT_UID, uid); (AT_EUID, euid);
     (AT_GID, uid); (AT_EGID, euid); (AT_RANDOM, pr); (AT_EXECFN, pn)]
  = Good ([(AT_PAGESZ, false, PAGE_SIZE); (AT_FLAGS, false, 0); (AT_UID, false, uid);
           (AT_EUID, false, euid); (AT_GID, false, uid); (AT_EGID, false, euid);
           (AT_RANDOM, true, 0); (AT_EXECFN, true, 17)],
          mem pr ++ [junk] ++ mem pn ++ [0]).
Proof.
  intros Hr Hn. unfold pack_auxv_top. cbn [pack_auxv str_attr].
  change (str_attr AT_RANDOM) with true. change (str_attr AT_EXECFN) with true.
  repeat (match goal with |- context [str_attr ?x] => change (str_attr x) with false end).
  cbn [negb]. change (AT_RANDOM =? AT_RANDOM) with true. cbv match.
  change (check (16 <=? u32 (128 - Z.of_nat (length (@nil Z))))) with (Good tt).
  cbn [mbind outcome_bind]. rewrite take_ge by lia. cbn [app].
  change (AT_EXECFN =? AT_RANDOM) with false. cbv match.
  rewrite length_app, Hr. cbn [length].
  destruct (grow_auxbuf_some 32 128 (Z.of_nat (16 + 1)) (Z.of_nat (length (mem pn))))
    as [al El]; [lia|lia|lia|lia|lia|lia|].
  rewrite El. cbn [mbind outcome_bind pack_auxv fst snd].
  rewrite bool_decide_eq_false_2; [by rewrite <- app_assoc|]. by destruct (mem pr).
Qed.

(** *** Layout *)

Lemma carries_count buf strs : carries buf strs -> (length strs <= S (length buf))%nat.
Proof.
  intros (_ & z & tail & _ & Ez & Hl). apply (f_equal length) in Ez.
  rewrite !length_app, Hl in Ez. cbn in Ez.
  assert (length strs <= length (joined 0 strs))%nat; [|lia]. clear.
  induction strs as [|s strs IH]; [done|]. rewrite joined_cons, length_app. cbn [length]. lia.
Qed.

Lemma length_stack_meta rlim a b c argv envp auxv :
  length (stack_meta rlim a b c argv envp auxv)
  = (6 + length argv + length envp + 2 * length auxv)%nat.
Proof.
  unfold stack_meta. rewrite !length_app, !length_map. cbn [length].
  assert (forall l : list (Z * bool * Z), length (concat (map (fun a =>
    [a.1.1; if a.1.2 : bool then a.2 + c else a.2]) l)) = (2 * length l)%nat) as ->; [|lia].
  induction l as [|x l IH]; [done|]. cbn [map concat app length]. lia.
Qed.

Definition exec_packed (uid euid : Z) : list (Z * bool * Z) :=
  [(AT_PAGESZ, false, PAGE_SIZE); (AT_FLAGS, false, 0); (AT_UID, false, uid);
   (AT_EUID, false, euid); (AT_GID, false, uid); (AT_EGID, false, euid);
   (AT_RANDOM, true, 0); (AT_EXECFN, true, 17)].

(** What the image consists of: padding, the words, padding, the strings. *)
Definition stack_image (pad1 pad2 pad3 : list Z) (meta : list Z) (args envs aux : list Z) : list Z :=
  pad1 ++ concat (map le_word meta) ++ pad2 ++ (args ++ [0] ++ envs ++ [0] ++ aux) ++ pad3.

Lemma page_aligned_land sp : 0 <= sp -> sp mod PAGE_SIZE = 0 -> Z.land sp (PAGE_SIZE - 1) =? 0 = true.
Proof.
  intros H0 Hs. change (PAGE_SIZE - 1) with PAGE_MASK. rewrite land_page_mask, Hs. done.
Qed.

Lemma upload_run mem junk rlim sp argbuf envbuf args envs uid euid pr pn :
  carries argbuf args -> carries envbuf envs ->
  length (mem pr) = 16%nat -> (length (mem pn) <= 4096)%nat ->
  (length argbuf <= 4096)%nat -> (length envbuf <= 4096)%nat ->
  sp mod PAGE_SIZE = 0 -> 2 ^ 17 <= sp < 2 ^ 32 ->
  exists pad1 pad2 pad3 base nsp bsp,
    let argsp := bsp in
    let envsp := bsp + Z.of_nat (length argbuf) + 1 in
    let auxsp := bsp + Z.of_nat (length argbuf) + Z.of_nat (length envbuf) + 2 in
    let meta := stack_meta rlim argsp envsp auxsp (strsplit_offsets argbuf).1
                  (strsplit_offsets envbuf).1 (exec_packed uid euid) in
    let image := stack_image pad1 pad2 pad3 meta (strsplit_offsets argbuf).2
                   (strsplit_offsets envbuf).2 (mem pr ++ [junk] ++ mem pn ++ [0]) in
    upload_startup_stack mem junk rlim sp argbuf envbuf (exec_auxargs uid euid pr pn)
      = Good (image, base, nsp)
    /\ 0 <= base /\ base mod PAGE_SIZE = 0 /\ nsp mod 16 = 0
    /\ sp = base + Z.of_nat (length image)
    /\ nsp = base + Z.of_nat (length pad1)
    /\ bsp = nsp + 4 * Z.of_nat (length meta) + Z.of_nat (length pad2).
Proof.
  intros Ha He Hr Hn La Le Hsp Hb.
  pose proof (carries_count _ _ Ha) as Ca. pose proof (carries_count _ _ He) as Ce.
  destruct Ha as (_ & za & ta & Ea & _ & Lza), He as (_ & ze & te & Ee & _ & Lze).
  rewrite Ea, Ee. cbn [fst snd]. unfold upload_startup_stack.
  rewrite page_aligned_land by (done || lia). cbn [check mbind outcome_bind].
  rewrite Ea, Ee, exec_auxv. cbn [mbind outcome_bind].
  rewrite exec_pack_auxv by lia. cbn [mbind outcome_bind]. fold (exec_packed uid euid).
  rewrite length_stack_meta, !length_starts. rewrite !length_app, Lza, Lze, Hr.
  change (length (exec_packed uid euid)) with 8%nat. cbn [length].
  set (A := Z.of_nat (length argbuf)) in *. set (E := Z.of_nat (length envbuf)) in *.
  set (X := Z.of_nat (16 + (1 + (length (mem pn) + 1))) - 1).
  set (m := (6 + length args + length envs + 2 * 8)%nat).
  replace (1 + 1 + Z.of_nat (length args) + 1 + Z.of_nat (length envs) + 1
           + (Z.of_nat 8 + 1) * 2) with (Z.of_nat m) by lia.
  rewrite Z.eqb_refl. cbn [check mbind outcome_bind].
  rewrite !round16_eq. set (ms := (4 * Z.of_nat m + 15) / 16 * 16).
  set (bs := (A + E + X + 3 + 15) / 16 * 16).
  assert (4 * Z.of_nat m <= ms < 4 * Z.of_nat m + 16 /\ ms mod 16 = 0) as [Hms Hms0]
    by (unfold ms; Z.to_euclidean_division_equations; lia).
  assert (A + E + X + 3 <= bs < A + E + X + 3 + 16 /\ bs mod 16 = 0) as [Hbs Hbs0]
    by (unfold bs; Z.to_euclidean_division_equations; lia).
  set (np := (bs + ms + PAGE_SIZE - 1) / PAGE_SIZE).
  assert (bs + ms <= np * PAGE_SIZE < bs + ms + PAGE_SIZE) as Hnp
    by (unfold np, PAGE_SIZE; Z.to_euclidean_division_equations; lia).
  rewrite (proj2 (Z.leb_le (Z.of_nat m * 4) ms)) by lia. cbn [check mbind outcome_bind].
  match goal with |- context [check (?a =? ?b)] => assert (a = b) as Hbl end; [unfold A, E, X; lia|].
  rewrite (proj2 (Z.eqb_eq _ _) Hbl). cbn [check mbind outcome_bind].
  clearbody np bs ms. unfold PAGE_SIZE, X, A, E in *. rewrite !u32_id by lia.
  eexists _, _, _, _, _, (sp - bs). split; [reflexivity|].
  unfold stack_image. rewrite !length_app, !length_replicate, length_words, length_stack_meta,
    !length_starts, Lza, Lze, Hr.
  change (length (exec_packed uid euid)) with 8%nat. cbn [length].
  split_and!; try lia; clear -Hsp Hms0 Hbs0; Z.to_euclidean_division_equations; lia.
Qed.

(** *** Reading the words *)

Lemma lookup_app_at {A} (l k : list A) n i : n = length l -> (l ++ k) !! (n + i)%nat = k !! i.
Proof. intros ->. rewrite lookup_app_r by lia. f_equal. lia. Qed.

Lemma lookup_map {A B} (f : A -> B) l i x : l !! i = Some x -> map f l !! i = Some (f x).
Proof. intros E. change (map f l) with (f <$> l). by rewrite list_lookup_fmap, E. Qed.

Lemma stack_meta_lookup rlim a b c argv envp auxv :
  let n := length argv in let m := length envp in
  let meta := stack_meta rlim a b c argv envp auxv in
  meta !! 0%nat = Some rlim /\ meta !! 1%nat = Some (Z.of_nat n)
  /\ (forall i o, argv !! i = Some o -> meta !! (2 + i)%nat = Some (Z.of_nat o + a))
  /\ meta !! (2 + n)%nat = Some 0
  /\ (forall i o, envp !! i = Some o -> meta !! (3 + n + i)%nat = Some (Z.of_nat o + b))
  /\ meta !! (3 + n + m)%nat = Some 0
  /\ forall k, meta !! (4 + n + m + k)%nat =
       (concat (map (fun x => [x.1.1; if x.1.2 : bool then x.2 + c else x.2]) auxv)
         ++ [AT_NULL; 0]) !! k.
Proof.
  intros n m meta. unfold meta, stack_meta. split; [done|]. split; [done|].
  assert (forall i, ([rlim; Z.of_nat n] ++ map (fun o => Z.of_nat o + a) argv ++ [0]
      ++ map (fun o => Z.of_nat o + b) envp ++ [0]
      ++ concat (map (fun x => [x.1.1; if x.1.2 : bool then x.2 + c else x.2]) auxv)
      ++ [AT_NULL; 0]) !! (2 + n + i)%nat
    = ([0] ++ map (fun o => Z.of_nat o + b) envp ++ [0]
      ++ concat (map (fun x => [x.1.1; if x.1.2 : bool then x.2 + c else x.2]) auxv)
      ++ [AT_NULL; 0]) !! i) as Hn.
  { intros i. rewrite <- Nat.add_assoc, lookup_app_at by done.
    apply lookup_app_at. by rewrite length_map. }
  assert (forall i, ([0] ++ map (fun o => Z.of_nat o + b) envp ++ [0]
      ++ concat (map (fun x => [x.1.1; if x.1.2 : bool then x.2 + c else x.2]) auxv)
      ++ [AT_NULL; 0]) !! (1 + m + i)%nat
    = ([0] ++ concat (map (fun x => [x.1.1; if x.1.2 : bool then x.2 + c else x.2]) auxv)
      ++ [AT_NULL; 0]) !! i) as Hm.
  { intros i. rewrite <- Nat.add_assoc, lookup_app_at by done.
    apply lookup_app_at. by rewrite length_map. }
  split_and!.
  - intros i o Ho. rewrite lookup_app_at by done. apply lookup_app_l_Some. exact (lookup_map (fun o => Z.of_nat o + a) _ _ _ Ho).
  - replace (2 + n)%nat with (2 + n + 0)%nat by lia. by rewrite Hn.
  - intros i o Ho. replace (3 + n + i)%nat with (2 + n + (1 + i))%nat by lia.
    rewrite Hn, lookup_app_at by done. apply lookup_app_l_Some. exact (lookup_map (fun o => Z.of_nat o + b) _ _ _ Ho).
  - replace (3 + n + m)%nat with (2 + n + (1 + m + 0))%nat by lia. by rewrite Hn, Hm.
  - intros k. replace (4 + n + m + k)%nat with (2 + n + (1 + m + S k))%nat by lia.
    by rewrite Hn, Hm.
Qed.

Lemma starts_bound pos strs o : o ∈ starts pos strs -> (o <= pos + length (joined 0 strs))%nat.
Proof.
  revert pos. induction strs as [|s strs IH]; intros pos Ho; [by apply elem_of_nil in Ho|].
  rewrite joined_cons, length_app. cbn [length]. cbn [starts] in Ho.
  apply elem_of_cons in Ho as [->|Ho]; [lia|]. apply IH in Ho. lia.
Qed.

Lemma carries_bound buf strs i o :
  carries buf strs -> (strsplit_offsets buf).1 !! i = Some o -> (o <= S (length buf))%nat.
Proof.
  intros (_ & z & tail & Es & Ez & Hl) Ho. rewrite Es in Ho.
  apply list_elem_of_lookup_2, starts_bound in Ho. apply (f_equal length) in Ez.
  rewrite !length_app, Hl in Ez. cbn in Ez. lia.
Qed.

Lemma carries_lengths buf strs :
  carries buf strs -> length (strsplit_offsets buf).1 = length strs
                      /\ length (strsplit_offsets buf).2 = length buf.
Proof. intros (_ & z & tail & Es & _ & Hl). by rewrite Es, <- Hl, <- (length_starts 0 strs). Qed.

Section stack.
Context (mem : Z -> list Z) (junk rlim sp : Z) (argbuf envbuf : list Z)
  (args envs : list (list Z)) (uid euid pr pn : Z).
Hypothesis (Hargs : carries argbuf args) (Henvs : carries envbuf envs).
Hypothesis (Hrand : length (mem pr) = 16%nat).
Hypothesis (Hname : arg_ok (mem pn) /\ (length (mem pn) <= 4096)%nat).
Hypothesis (Hlens : (length argbuf <= 4096)%nat /\ (length envbuf <= 4096)%nat).
Hypothesis (Hsp : sp mod PAGE_SIZE = 0 /\ 2 ^ 17 <= sp < 2 ^ 32).

(** The word [k] of the stack and the string at an address, as the program sees
    them in an image loaded at [base] with the stack pointer at [nsp]. *)
Definition stack_word (image : list Z) (base nsp : Z) (k : nat) : Z :=
  read_word image (Z.to_nat (nsp - base) + 4 * k).
Definition stack_string (image : list Z) (base p : Z) : list Z :=
  cstring_at image (Z.to_nat (p - base)).

Lemma stack_string_carries pre z rest buf strs i s o base bs :
  carries buf strs -> (strsplit_offsets buf).2 = z ->
  (strsplit_offsets buf).1 !! i = Some o -> strs !! i = Some s ->
  Z.of_nat (length pre) = bs - base -> 0 <= bs -> Z.of_nat o + bs < 2 ^ 32 ->
  stack_string (pre ++ z ++ 0 :: rest) base (u32 (Z.of_nat o + bs)) = s.
Proof.
  intros Hc Hz Ho Hs Hp H0 Hb. unfold stack_string. rewrite u32_id by lia.
  destruct (carries_string buf strs z pre rest i s Hc Hz Hs) as (o' & Ho' & <-).
  simplify_eq. f_equal. lia.
Qed.

Lemma stack_aux_strings q rest base auxsp :
  Z.of_nat (length q) = auxsp - base -> 0 <= auxsp -> 17 + auxsp < 2 ^ 32 ->
  let image := q ++ mem pr ++ [junk] ++ mem pn ++ 0 :: rest in
  take 16 (drop (Z.to_nat (u32 (0 + auxsp) - base)) image) = mem pr
  /\ stack_string image base (u32 (17 + auxsp)) = mem pn.
Proof.
  intros Hq H0 Hb image. rewrite !u32_id by lia. split.
  - replace (Z.to_nat (0 + auxsp - base)) with (length q) by lia.
    unfold image. by rewrite drop_app_length, take_app_length'.
  - unfold stack_string, cstring_at. replace (Z.to_nat (17 + auxsp - base))
      with (length (q ++ mem pr ++ [junk])) by (rewrite !length_app, Hrand; cbn [length]; lia).
    replace image with ((q ++ mem pr ++ [junk]) ++ mem pn ++ 0 :: rest)
      by (unfold image; by rewrite <- !app_assoc).
    rewrite drop_app_length. apply cstring_app, arg_ok_nonzero. apply Hname.
Qed.

(** [upload_startup_stack] builds what the startup code of the new process
    expects: a 16-byte aligned stack pointer, from which follow the stack limit,
    the number of arguments, a pointer to each argument string, a null, a pointer
    to each environment string, a null, and the auxiliary vector with the random
    bytes, the name of the program and the terminator.  All of it lies in the
    whole pages below [sp] that are uploaded. *)
Theorem startup_stack_spec :
  exists image base nsp,
    upload_startup_stack mem junk rlim sp argbuf envbuf (exec_auxargs uid euid pr pn)
      = Good (image, base, nsp)
    /\ sp = base + Z.of_nat (length image) /\ base mod PAGE_SIZE = 0 /\ nsp mod 16 = 0
    /\ let w := stack_word image base nsp in
       let n := length args in let m := length envs in
       w 0%nat = u32 rlim /\ w 1%nat = Z.of_nat n
    /\ (forall i s, args !! i = Some s -> stack_string image base (w (2 + i)%nat) = s)
    /\ w (2 + n)%nat = 0
    /\ (forall i s, envs !! i = Some s -> stack_string image base (w (3 + n + i)%nat) = s)
    /\ w (3 + n + m)%nat = 0
    /\ (w (4 + n + m + 12)%nat = AT_RANDOM
        /\ take 16 (drop (Z.to_nat (w (4 + n + m + 13)%nat - base)) image) = mem pr)
    /\ (w (4 + n + m + 14)%nat = AT_EXECFN
        /\ stack_string image base (w (4 + n + m + 15)%nat) = mem pn)
    /\ w (4 + n + m + 16)%nat = AT_NULL.
Proof.
  destruct Hname as [Hno Hnl], Hlens as [La Le], Hsp as [Hs1 Hs2].
  destruct (upload_run mem junk rlim sp argbuf envbuf args envs uid euid pr pn Hargs Henvs
    Hrand Hnl La Le Hs1 Hs2) as (p1 & p2 & p3 & base & nsp & bsp & E & Hb0 & Hb & Hn & El & En & Ebs).
  cbv zeta in *. set (meta := stack_meta _ _ _ _ _ _ _) in *.
  set (image := stack_image _ _ _ _ _ _ _) in *.
  exists image, base, nsp. split; [done|]. split; [done|]. split; [done|]. split; [done|].
  assert (forall k v, meta !! k = Some v -> stack_word image base nsp k = u32 v) as Hw.
  { intros k v Hk. unfold stack_word, image, stack_image. rewrite En.
    replace (Z.to_nat (base + Z.of_nat (length p1) - base)) with (length p1) by lia.
    by apply read_word_meta. }
  destruct (stack_meta_lookup rlim bsp (bsp + Z.of_nat (length argbuf) + 1)
    (bsp + Z.of_nat (length argbuf) + Z.of_nat (length envbuf) + 2) (strsplit_offsets argbuf).1
    (strsplit_offsets envbuf).1 (exec_packed uid euid)) as (M0 & M1 & Ma & Mz & Me & Mz' & Mx).
  assert (Z.of_nat (length (p1 ++ concat (map le_word meta) ++ p2)) = bsp - base) as Hpre.
  { rewrite !length_app, length_words. lia. }
  destruct (carries_lengths _ _ Hargs) as [Ln Lz], (carries_lengths _ _ Henvs) as [Lm Lz'].
  set (za := (strsplit_offsets argbuf).2) in *. set (ze := (strsplit_offsets envbuf).2) in *.
  set (aux := mem pr ++ [junk] ++ mem pn ++ [0]) in *.
  set (pre := p1 ++ concat (map le_word meta) ++ p2) in *.
  assert (image = pre ++ za ++ 0 :: (ze ++ 0 :: aux ++ p3)) as Ei.
  { unfold image, stack_image, pre. by rewrite <- !app_assoc. }
  assert (length aux = 18 + length (mem pn))%nat as Laux.
  { unfold aux. rewrite !length_app, Hrand. cbn [length]. lia. }
  assert (Z.of_nat (length image) = bsp - base + Z.of_nat (length argbuf)
          + Z.of_nat (length envbuf) + Z.of_nat (length (mem pn)) + 20 + Z.of_nat (length p3)) as Hlen.
  { rewrite Ei. rewrite !length_app. cbn [length]. rewrite !length_app. cbn [length].
    rewrite length_app. lia. }
  destruct (stack_aux_strings (pre ++ za ++ 0 :: ze ++ [0]) p3 base
    (bsp + Z.of_nat (length argbuf) + Z.of_nat (length envbuf) + 2)) as [Sr Sn].
  { rewrite !length_app. cbn [length]. rewrite length_app. cbn [length]. lia. }
  { lia. }
  { lia. }
  replace (_ ++ mem pr ++ [junk] ++ mem pn ++ 0 :: p3) with image in Sr, Sn
    by (rewrite Ei; unfold aux; rewrite <- !app_assoc; cbn [app]; by rewrite <- !app_assoc).
  rewrite Ln, Lm in *. fold meta in M0, M1, Ma, Mz, Me, Mz', Mx. cbv zeta in *.
  split_and!.
  - by apply Hw.
  - rewrite (Hw _ _ M1). pose proof (carries_count _ _ Hargs). apply u32_id. lia.
  - intros i s Hs. destruct (lookup_lt_is_Some_2 (strsplit_offsets argbuf).1 i) as [o Ho].
    { rewrite Ln. by eapply lookup_lt_Some. }
    pose proof (carries_bound _ _ _ _ Hargs Ho). rewrite (Hw _ _ (Ma i o Ho)), Ei.
    apply (stack_string_carries _ _ _ argbuf args i); try done; lia.
  - by rewrite (Hw _ _ Mz).
  - intros i s Hs. destruct (lookup_lt_is_Some_2 (strsplit_offsets envbuf).1 i) as [o Ho].
    { rewrite Lm. by eapply lookup_lt_Some. }
    pose proof (carries_bound _ _ _ _ Henvs Ho). rewrite (Hw _ _ (Me i o Ho)), Ei.
    replace (pre ++ za ++ 0 :: ze ++ 0 :: aux ++ p3)
      with ((pre ++ za ++ [0]) ++ ze ++ 0 :: aux ++ p3) by (by rewrite <- !app_assoc).
    apply (stack_string_carries _ _ _ envbuf envs i); try done; rewrite ?length_app; cbn [length]; lia.
  - by rewrite (Hw _ _ Mz').
  - rewrite (Hw _ AT_RANDOM); [done|]. by rewrite Mx.
  - erewrite Hw; [exact Sr|]. by rewrite Mx.
  - rewrite (Hw _ AT_EXECFN); [done|]. by rewrite Mx.
  - erewrite Hw; [exact Sn|]. by rewrite Mx.
  - rewrite (Hw _ AT_NULL); [done|]. by rewrite Mx.
Qed.
End stack.

(** ** Placement of the reserved areas *)

Lemma ua_floor x : 0 <= x < 2 ^ 32 -> Z.land x (bnot32 (UA_SIZE - 1)) = x / UA_SIZE * UA_SIZE.
Proof. intros Hx. exact (land_not_ones x 19 32 ltac:(lia) Hx). Qed.

(** The two areas, from [u], with the KIP at [k]: in the free space below an image
    at [lo], or right above one that ends at [hi]. *)
Definition below_image (kip lo u k : Z) : Prop :=
  k = u + UA_SIZE /\ u mod UA_SIZE = 0 /\ STKRESV <= u /\ k + kip + PAGE_SIZE <= lo.
Definition above_image (hi u k : Z) : Prop :=
  k = u + UA_SIZE /\ u mod UA_SIZE = 0 /\ hi < u < hi + UA_SIZE.

(** Where [configure] puts the UTCB and KIP areas of an image at [lo..hi].
    Below the image when there is room for them above the space kept for the
    stack: aligned, disjoint from each other and from the image.  Right above the
    image when there is none, except that an image ending exactly on a multiple of
    the area's size trips the assertion.  And when the image begins below the size
    of the reservation the subtraction wraps around, so that the assertion fails
    or the areas end up at the top of the address space, out of user memory. *)
Theorem place_areas_spec kip lo hi :
  0 <= lo <= hi -> hi < 2 ^ 31 -> 0 < kip <= 2 ^ 18 ->
  let resv := UA_SIZE + kip + PAGE_SIZE in
  (resv + UA_SIZE <= lo ->
     exists u k, place_areas kip lo hi = Good (u, k) /\ below_image kip lo u k)
  /\ (resv <= lo < resv + UA_SIZE ->
     if hi mod UA_SIZE =? 0 then place_areas kip lo hi = Crash StAssert
     else exists u k, place_areas kip lo hi = Good (u, k) /\ above_image hi u k)
  /\ (lo < resv -> place_areas kip lo hi = Crash StAssert
       \/ exists u k, place_areas kip lo hi = Good (u, k) /\ 2 ^ 31 <= u).
Proof.
  intros Hlo Hhi Hk resv. unfold place_areas, below_image, above_image. fold resv.
  assert (UA_SIZE = 2 ^ 19) as EU by done. unfold resv, STKRESV, PAGE_SIZE in *.
  rewrite (u32_id (UA_SIZE + kip + 4096)) by lia.
  rewrite !(ua_floor lo) by lia. rewrite !(ua_floor (u32 _)) by apply u32_range.
  rewrite (u32_id (hi + UA_SIZE - 1)) by lia. split_and!; intros Hc.
  - rewrite (u32_id (lo - _)) by lia.
    set (u := (lo - _) / UA_SIZE * UA_SIZE).
    assert (u <= lo - (UA_SIZE + kip + 4096) /\ UA_SIZE <= u /\ u mod UA_SIZE = 0) as (B1 & B2 & B3)
      by (unfold u; rewrite EU in *; Z.to_euclidean_division_equations; lia).
    assert (UA_SIZE <= lo / UA_SIZE * UA_SIZE)
      by (rewrite EU in *; Z.to_euclidean_division_equations; lia).
    clearbody u. exists u, (u + UA_SIZE). rewrite (proj2 (Z.ltb_ge u _)) by lia.
    rewrite (u32_id (u + (UA_SIZE + kip + 4096))) by lia. unfold check.
    rewrite (proj2 (Z.leb_le _ u)), (proj2 (Z.leb_le _ lo)) by lia. cbn [mbind outcome_bind].
    rewrite (proj2 (Z.leb_le (_ - UA_SIZE) _)), orb_true_r, u32_id by lia.
    split_and!; [done|done|done|lia|lia].
  - rewrite (u32_id (lo - _)) by lia. rewrite (Z.div_small (lo - (UA_SIZE + kip + 4096)) UA_SIZE) by lia.
    rewrite Z.mul_0_l. change (0 <? 81920) with true. cbv match.
    set (u := (hi + _ - 1) / UA_SIZE * UA_SIZE).
    assert (hi <= u < hi + UA_SIZE /\ u mod UA_SIZE = 0 /\ (u = hi <-> hi mod UA_SIZE = 0))
      as (B1 & B2 & B3) by (unfold u; rewrite EU in *; Z.to_euclidean_division_equations; lia).
    clearbody u. destruct (Z.eqb_spec (hi mod UA_SIZE) 0) as [E|E].
    + apply B3 in E as ->. unfold check. by rewrite Z.ltb_irrefl.
    + assert (u <> hi) by tauto. exists u, (u + UA_SIZE). unfold check. rewrite (proj2 (Z.ltb_lt hi u)) by lia.
      cbn [mbind outcome_bind]. rewrite (proj2 (Z.ltb_lt hi u)) by lia. cbn [orb].
      rewrite u32_id by lia. split_and!; [done|done|done|lia|lia].
  - set (x := lo - _). destruct (Z.ltb_spec x 0) as [Hx|]; [|unfold x in *; lia].
    assert (u32 x = x + 2 ^ 32) as ->
      by (unfold u32, x; rewrite EU in *; Z.to_euclidean_division_equations; lia).
    set (u := (x + 2 ^ 32) / UA_SIZE * UA_SIZE).
    assert (2 ^ 31 <= u) as B1 by (unfold u, x; rewrite EU in *; Z.to_euclidean_division_equations; lia).
    clearbody u. rewrite (proj2 (Z.ltb_ge u _)) by lia. unfold check.
    rewrite (proj2 (Z.leb_le _ u)) by lia. cbn [mbind outcome_bind].
    destruct (u32 (u + _) <=? lo); cbn [mbind outcome_bind]; [right|by left].
    rewrite (proj2 (Z.ltb_lt hi u)) by lia. cbn [orb]. eauto.
Qed.

(** ** Witnesses *)

(** A file with one loadable header: 0x1234 bytes of file and 0x3000 of memory at
    0x400000. *)
Definition demo_elf : list Z :=
  [0x7f; 0x45; 0x4c; 0x46] ++ replicate 20 0 ++ [0x10; 0; 0x40; 0] ++ replicate 14 0
  ++ [32; 0; 1; 0] ++ replicate 6 0
  ++ [1; 0; 0; 0] ++ [0; 0x10; 0; 0] ++ [0; 0; 0x40; 0] ++ [0; 0; 0; 0]
  ++ [0x34; 0x12; 0; 0] ++ [0; 0x30; 0; 0] ++ replicate 8 0.

Lemma read_elf_covers_witness :
  exists img, read_elf demo_elf = Good img /\ start img = 0x400010 /\ Forall seg_ok (segs img).
Proof.
  destruct (read_elf_covers demo_elf) as [_ Hr].
  destruct (read_elf demo_elf) as [img| |] eqn:E; [|discriminate E|discriminate E].
  exists img. split; [done|]. destruct (Hr img) as (Hs & Ho & _); [|done|split; done].
  change (elf_phdrs demo_elf) with [Phdr 1 0x1000 0x400000 0x1234 0x3000].
  constructor; [|constructor]. unfold phdr_ok, PAGE_SIZE; cbn. lia.
Defined.

Definition demo_args : list (list Z) := [[0x6c; 0x73]; []; [0x2d; 0x6c]].

Lemma demo_args_ok : Forall arg_ok demo_args.
Proof. repeat constructor; discriminate. Qed.

Lemma args_roundtrip_witness :
  exists buf, pack_argbuf demo_args = Good buf /\ length (strsplit_offsets buf).1 = 3%nat.
Proof.
  destruct (args_roundtrip [[0x6c; 0x73]; []] [0x2d; 0x6c] demo_args_ok) as (_ & buf & E & Hb).
  exists buf. split; [exact E|]. rewrite decide_False in Hb by discriminate.
  destruct Hb as [Hb _]. exact Hb.
Defined.

Lemma startup_stack_spec_witness :
  exists image base nsp,
    upload_startup_stack (fun p => if p =? 1 then replicate 16 7 else [0x6c; 0x73]) 0 0x4000
      0x400000 [0x6c; 0x73; RECSEP; RECSEP; 0x2d; 0x6c] [] (exec_auxargs 0 0 1 2)
      = Good (image, base, nsp)
    /\ stack_word image base nsp 1 = 3
    /\ stack_string image base (stack_word image base nsp 4) = [0x2d; 0x6c].
Proof.
  destruct (startup_stack_spec (fun p => if p =? 1 then replicate 16 7 else [0x6c; 0x73]) 0
    0x4000 0x400000 [0x6c; 0x73; RECSEP; RECSEP; 0x2d; 0x6c] [] demo_args [] 0 0 1 2)
    as (image & base & nsp & E & _ & _ & _ & _ & W1 & Wa & _).
  - apply (carries_pack [[0x6c; 0x73]; []] [0x2d; 0x6c]); [exact demo_args_ok|done|done].
  - exact carries_nil.
  - done.
  - split; [repeat constructor; discriminate | cbn; lia].
  - cbn. lia.
  - split; [reflexivity | lia].
  - exists image, base, nsp. split; [exact E|]. split; [exact W1|].
    exact (Wa 2%nat _ eq_refl).
Defined.

Lemma place_areas_spec_witness :
  (exists u k, place_areas 0x1000 0x400000 0x500000 = Good (u, k)
               /\ below_image 0x1000 0x400000 u k)
  /\ place_areas 0x1000 0x90000 0x100000 = Crash StAssert.
Proof.
  split.
  - destruct (place_areas_spec 0x1000 0x400000 0x500000 ltac:(lia) ltac:(lia) ltac:(lia))
      as (Hl & _ & _).
    exact (Hl ltac:(cbv; discriminate)).
  - destruct (place_areas_spec 0x1000 0x90000 0x100000 ltac:(lia) ltac:(lia) ltac:(lia))
      as (_ & Hh & _). exact (Hh ltac:(cbv; split; [discriminate|done])).
Defined.
