(* ===== verification/UapiProc.v ===== *)
(** Process life cycle and signals: root/sig.c and the zombie, exit, wait, fork,
    credential and limit operations of root/uapi.c. *)
From S2P Require Import Prelude L4 HashUtil Rollback Containers UapiState UapiThreads ProgImage.

(** <bits/signal.h>, <signal.h>, <sys/wait.h>, <sneks/process.h>, <sneks/msg.h> *)
Definition SIGABRT : Z := 6.
Definition SIGKILL : Z := 9.
Definition SIGSEGV : Z := 11.
Definition SIGTERM : Z := 15.
Definition SIGCHLD : Z := 17.
Definition CLD_EXITED : Z := 1.
Definition CLD_KILLED : Z := 2.
Definition P_ALL : Z := 0.
Definition P_PID : Z := 1.
Definition P_PGID : Z := 2.
Definition WNOHANG : Z := 1.
Definition MPL_FORK : Z := 0.
Definition MPL_EXEC : Z := 1.
Definition MPL_EXIT : Z := 2.
Definition MSGB_PROCESS_LIFECYCLE : Z := 0.

Definition sigpage_tail_code : list Z :=
  [0xe8; 0x08; 0x00; 0x00; 0x00;
   0xff; 0x93; 0x0c; 0x00; 0x00; 0x00;
   0xeb; 0xf8;
   0x8b; 0x1c; 0x24;
   0xc3;
   0x00; 0x00; 0x00; 0x00].

Definition SIGPAGE_TAIL_LEN : Z := Z.of_nat (length sigpage_tail_code).

Definition sig_bit (sig : Z) : Z := Z.shiftl 1 (sig - 1).

Section proc.
Context `{L4Abi, UapiEnv}.

Definition sig_remove_helper (p : Z) : M uapi unit :=
  pr ← proc p;
  _ ← delete_thread (sighelper_tid pr);
  _ ← free_thread (TProc p) (sighelper_tid pr) (sighelper_utcb pr);
  _ ← free_threadno (sighelper_tid pr);
  upd p (fun x => set_helper L4_nilthread (sighelper_utcb x) x).

(** *** Signal delivery, root/sig.c *)

Definition add_pending (p sig : Z) : M uapi unit :=
  upd p (fun x => set_pending (Z.lor (pending_set x) (sig_bit sig)) x).

Definition sig_deliver (p sig : Z) (self : bool) : M uapi unit :=
  _ ← assert_ ((1 <=? sig) && (sig <=? 64));
  pr ← proc p;
  if negb (L4_IsNilThread (sighelper_tid pr)) || self then add_pending p sig
  else
    _ ← assert_ (0 <? Z.of_nat (length (threads (task pr))));
    '(tid, utcb) ← allocate_thread p;
    _ ← upd p (fun x =>
          set_helper tid (if L4_IsNilThread tid then sighelper_utcb x else utcb) x);
    if L4_IsNilThread tid then mret tt
    else
      pr ← proc p;
      space ← of_option StFault (threads (task pr) !! 0%nat);
      res ← ask (ThreadControl tid space my_global vm_tid utcb);
      if negb (res =? 1) then halt StAbort
      else
        let ip := u32 (sigpage_addr pr + PAGE_SIZE - SIGPAGE_TAIL_LEN) in
        let sp := Z.land (u32 (ip - 64)) (bnot32 63) in
        n ← ask (VmBreathOfLife tid sp ip);
        if negb (n =? 0) then halt StAbort else add_pending p sig.

(** The default disposition. [zombify] is passed in because the two functions
    call each other. *)
Definition sig_default (zombify : Z -> M uapi unit) (p sig : Z) : M uapi bool :=
  if (sig =? SIGSEGV) || (sig =? SIGABRT) || (sig =? SIGKILL) || (sig =? SIGTERM) then
    _ ← upd p (set_exit sig 0 CLD_KILLED);
    _ ← zombify p;
    mret true
  else
    pr ← proc p;
    b ← shl_ull 1 sig;
    _ ← assert_ (negb (Z.land (bnot64 (pending_set pr)) b =? 0));
    mret false.

Definition sig_send_body (zombify : Z -> M uapi unit) (p sig : Z) (self : bool)
  : M uapi unit :=
  _ ← assert_ ((1 <=? sig) && (sig <=? 64));
  pr ← proc p;
  if negb (Z.land (mask_set pr) (sig_bit sig) =? 0) then add_pending p sig
  else if negb (Z.land (bnot64 (pending_set pr)) (sig_bit sig) =? 0) then
    if negb (Z.land (dfl_set pr) (sig_bit sig) =? 0) then
      _ ← assert_ (Z.land (ign_set pr) (sig_bit sig) =? 0);
      died ← sig_default zombify p sig;
      when_ (died && self) muidl_raise_no_reply
    else if Z.land (ign_set pr) (sig_bit sig) =? 0 then sig_deliver p sig self
    else mret tt
  else mret tt.

Definition process_dtor (p : Z) : M uapi unit :=
  _ ← task_common_dtor (TProc p);
  _ ← ask (VmErase p);
  mret tt.

(** First waiter of [ppid] in the wait-any table, and whether there are more. *)
Definition find_waiter (w : uapi) (ppid : Z) : option Z * bool :=
  match filter (fun t => pidof t = ppid) (htable_vals (int_hash ppid) (waitany_hash w)) with
  | [] => (None, false)
  | [t] => (Some t, false)
  | t :: _ => (Some t, true)
  end.

Definition zombify_body (sig_send : Z -> Z -> bool -> M uapi unit) (p : Z) : M uapi unit :=
  pr ← proc p;
  _ ← when_ (negb (L4_IsNilThread (sighelper_tid pr))) (sig_remove_helper p);
  _ ← process_dtor p;
  parent ← get_process (ppid pr);
  parent ← (match parent with
            | Some q => mret q
            | None =>
                if p =? 1 then halt StPanic
                else
                  _ ← upd p (set_ppid 1);
                  q ← get_process 1;
                  match q with
                  | None => halt StPanic
                  | Some q => _ ← assert_ (negb (q =? p)); mret q
                  end
            end);
  _ ← sig_send parent SIGCHLD false;
  pr ← proc p;
  pa ← proc parent;
  waiter ← (if negb (L4_IsNilThread (wait_tid pr)) then mret (wait_tid pr)
            else if negb (Z.land (flags pa) PF_WAIT_ANY =? 0) then
              '(w, more) ← gets (fun w => find_waiter w (ppid pr));
              _ ← (match w with
                   | Some t => modify (set_waitany (htable_del (int_hash (ppid pr)) t))
                   | None => mret tt
                   end);
              _ ← when_ (negb more)
                    (upd parent (fun x => set_flags (Z.land (flags x) (Z.lnot PF_WAIT_ANY)) x));
              mret (default L4_nilthread w)
            else mret L4_nilthread);
  _ ← assert_ (negb (L4_IsNilThread sysmsg_tid));
  _ ← ask (SysmsgBroadcast (Z.shiftl 1 MSGB_PROCESS_LIFECYCLE) 0
             [p; Z.lor MPL_EXIT (Z.shiftl (signo pr) 8); status pr; code pr]);
  let enlist := upd parent (fun x => set_dead_list (dead_list x ++ [p]) x) in
  if negb (L4_IsNilThread waiter) then
    ok ← ask (Reply waiter [p; 0; signo pr; status pr; code pr]);
    if negb (ok =? 0) then destroy_process p else enlist
  else enlist.

(** [sig_send] and [zombify] recurse into each other; the recursion is bounded
    because the SIGCHLD a dying process sends never kills the parent. *)
Fixpoint sig_send_n (fuel : nat) (p sig : Z) (self : bool) : M uapi unit :=
  match fuel with
  | O => halt StFuel
  | S n => sig_send_body (zombify_body (sig_send_n n)) p sig self
  end.

Definition sig_send : Z -> Z -> bool -> M uapi unit := sig_send_n 2.
Definition zombify : Z -> M uapi unit := zombify_body (sig_send_n 1).
End proc.
