(* ===== verification/UapiOps.v ===== *)
(** The operations of Sneks::Proc: entry points of root/sig.c and root/uapi.c. *)
From S2P Require Import Prelude L4 HashUtil Rollback Containers UapiState UapiThreads ProgImage UapiProc.

Section ops.
Context `{L4Abi, UapiEnv}.
(** What add_systask and destroy_systask see of the running system. *)
Context (L4_Pager sysmem_tid : Z).

Definition sender_pid : M uapi Z := gets (fun w => pidof (cur_sender w)).

(** *** root/sig.c *)

(** The permission check of kill: [s] is the sender, [p] the target. *)
Definition kill_denied (sender_pid : Z) (s p : process) : bool :=
  negb (IS_SYSTASK sender_pid)
  && negb (eff_uid s =? 0)
  && negb (real_uid s =? real_uid p)
  && negb (real_uid s =? saved_uid p)
  && negb (eff_uid s =? real_uid p)
  && negb (eff_uid s =? saved_uid p).

Definition root_uapi_kill (pid sig : Z) : M uapi Z :=
  p ← get_process pid;
  match p with
  | None => mret (- ESRCH)
  | Some p =>
      spid ← sender_pid;
      s ← get_process spid;
      (* a userspace sender that is not there would be a null dereference *)
      s ← (if IS_SYSTASK spid then mret p else of_option StFault s);
      sp ← proc s;
      pp ← proc p;
      if kill_denied spid sp pp then mret (- EPERM)
      else if (sig <? 0) || (64 <? sig) then mret (- EINVAL)
      else
        early ← (if spid =? pidof vm_tid then
                   sender ← gets cur_sender;
                   ok ← ask (Reply sender []);
                   if negb (ok =? 0) then _ ← muidl_raise_no_reply; mret 0
                   else mret (- EAGAIN)
                 else mret 0);
        if early <? 0 then mret early
        else
          _ ← when_ (negb (sig =? 0)) (sig_send p sig (pid =? spid));
          mret 0
  end.

(** Returns tail_data, its length and the handler offset. *)
Definition root_uapi_sigconfig (sigpage : Z) : M uapi (list Z * Z * Z) :=
  let zeros := replicate 1024 0 in
  pid ← sender_pid;
  if IS_SYSTASK pid then mret (zeros, 1024, 1020)
  else
    self ← get_process pid;
    self ← of_option StFault self;
    _ ← upd self (set_sigpage sigpage);
    let len := length sigpage_tail_code in
    mret (replicate (1024 - len) 0 ++ sigpage_tail_code, 1024, PAGE_SIZE - 4).

Inductive sigsetname := SetIgn | SetDfl | SetMask | SetPending.

Definition sig_read (s : sigsetname) (p : process) : Z :=
  match s with
  | SetIgn => ign_set p | SetDfl => dfl_set p
  | SetMask => mask_set p | SetPending => pending_set p
  end.
Definition sig_write (s : sigsetname) (v : Z) (p : process) : process :=
  match s with
  | SetIgn => set_sigs v (dfl_set p) (mask_set p) (pending_set p) (saved_mask_set p) p
  | SetDfl => set_sigs (ign_set p) v (mask_set p) (pending_set p) (saved_mask_set p) p
  | SetMask => set_sigs (ign_set p) (dfl_set p) v (pending_set p) (saved_mask_set p) p
  | SetPending => set_pending v p
  end.

(** The set named by [set_name], and whether it is to be concealed. *)
Definition sigset_of_name (set_name : Z) : option (sigsetname * bool) :=
  if set_name =? 0 then Some (SetIgn, false)
  else if set_name =? 1 then Some (SetDfl, false)
  else if set_name =? 2 then Some (SetMask, false)
  else if set_name =? 4 then Some (SetPending, true)
  else if set_name =? 3 then Some (SetPending, false)
  else None.

(** Application of [and_bits] and [or_bits], up to the triggering of newly
    unmasked signals: the old value to be returned and the new process. *)
Definition sigset_apply (set : sigsetname) (conceal : bool) (or_bits and_bits : Z)
    (p : process) : Z * process :=
  let oldval := sig_read set p in
  let '(oldval, v) :=
    if negb conceal then (oldval, Z.land oldval and_bits)
    else (Z.land oldval (bnot64 (mask_set p)),
          Z.land oldval (Z.lor and_bits (mask_set p))) in
  match set with
  | SetPending =>
      let p := sig_write set v p in
      if negb (oldval =? 0) && negb (Z.land (flags p) PF_SAVED_MASK =? 0) then
        let low := ffsll oldval - 1 in
        let bit := Z.shiftl 1 low in
        let p := set_pending (Z.lor (pending_set p) (Z.land oldval (bnot64 bit))) p in
        let p := set_flags (Z.land (flags p) (Z.lnot PF_SAVED_MASK)) p in
        (bit, sig_write SetMask (saved_mask_set p) p)
      else (oldval, p)
  | _ =>
      let v := Z.lor v or_bits in
      let p := sig_write set v p in
      let pos_change := Z.lxor oldval v in
      let p := if negb (pos_change =? 0) then
                 match set with
                 | SetIgn => sig_write SetDfl (Z.land (dfl_set p) (bnot64 pos_change)) p
                 | SetDfl => sig_write SetIgn (Z.land (ign_set p) (bnot64 pos_change)) p
                 | _ => p
                 end
               else p in
      (oldval, p)
  end.

Fixpoint trigger (fuel : nat) (p trig : Z) : M uapi unit :=
  if trig =? 0 then mret tt
  else match fuel with
       | O => halt StFuel
       | S n =>
           let sig := ffsll trig in
           _ ← sig_send p sig true;
           trigger n p (Z.land trig (bnot64 (sig_bit sig)))
       end.

Definition root_uapi_sigset (set_name or_bits and_bits : Z) : M uapi Z :=
  pid ← sender_pid;
  p ← get_process pid;
  p ← of_option StFault p;
  pr ← proc p;
  sender ← gets cur_sender;
  if (set_name =? 4) && (Z.lor (pending_set pr) and_bits =? 0)
     && negb (L4_IsNilThread (sighelper_tid pr)) && (sender =? sighelper_tid pr)
  then
    _ ← sig_remove_helper p;
    _ ← muidl_raise_no_reply;
    mret 0
  else
    match sigset_of_name set_name with
    | None => mret 0
    | Some (set, conceal) =>
        let '(oldval, pr') := sigset_apply set conceal or_bits and_bits pr in
        _ ← upd p (fun _ => pr');
        _ ← assert_ (match set with
                     | SetPending => (* on leaving sigsuspend mode *)
                         (Z.land (flags pr) PF_SAVED_MASK =? 0) || (oldval =? 0)
                         || (ffsl oldval =? ffsll oldval)
                     | _ => Z.land (ign_set pr') (dfl_set pr') =? 0
                     end);
        _ ← (match set with
             | SetMask =>
                 let trig := Z.land (pending_set pr') (Z.land oldval (bnot64 and_bits)) in
                 _ ← upd p (fun x => set_pending (Z.land (pending_set x) (bnot64 trig)) x);
                 trigger 64 p (Z.land trig (bnot64 (ign_set pr')))
             | _ => mret tt
             end);
        mret oldval
    end.

(** [~(1 << (trig - 1))] in C: an [int] shift, undefined from bit 32 on and, at
    bit 31, sign extended to the 64 bits of the set it is applied to. *)
Definition sigsuspend_keep (trig : Z) : option Z :=
  if 32 <? trig then None else Some (u64 (Z.lnot (s32 (Z.shiftl 1 (trig - 1))))).

Definition root_uapi_sigsuspend (mask : Z) : M uapi Z :=
  pid ← sender_pid;
  p ← get_process pid;
  match p with
  | None => mret (- EINVAL)
  | Some p =>
      pr ← proc p;
      if negb (Z.land (flags pr) PF_SAVED_MASK =? 0) then mret (- EAGAIN)
      else
        let trig := ffsll (Z.land (pending_set pr) (bnot64 mask)) in
        if 0 <? trig then
          keep ← of_option StUB (sigsuspend_keep trig);
          _ ← upd p (fun x => set_pending (Z.land (pending_set x) keep) x);
          mret trig
        else
          _ ← upd p (fun x =>
                set_sigs (ign_set x) (dfl_set x) mask (pending_set x) (mask_set x) x);
          _ ← assert_ (Z.land (pending_set pr) (bnot64 mask) =? 0);
          _ ← upd p (fun x => set_flags (Z.lor (flags x) PF_SAVED_MASK) x);
          _ ← muidl_raise_no_reply;
          mret 0
  end.

(** *** Threads, root/uapi.c *)

Definition uapi_create_thread : M uapi (Z * option Z) :=
  sender ← gets cur_sender;
  let pid := pidof sender in
  if pid =? 0 then mret (- EINVAL, None)
  else
    ta ← get_task pid;
    match ta with
    | None => mret (- EINVAL, None)
    | Some t =>
        tc ← task_get t;
        let first_thread := bool_decide (threads tc = []) in
        '(tid, utcb) ← allocate_thread pid;
        if L4_IsNilThread tid then mret (- ENOMEM, None)
        else
          _ ← assert_ (500 <=? L4_ThreadNo tid);
          n ← (if first_thread then make_space tid (kip_area tc) (utcb_area tc) else mret 0);
          if n <? 0 then _ ← free_thread t tid utcb; mret (n, None)
          else
            tc ← task_get t;
            space ← of_option StFault (threads tc !! 0%nat);
            res ← ask (ThreadControl tid space my_global
                         (if IS_SYSTASK pid then L4_Pager else L4_nilthread) utcb);
            if negb (res =? 1) then halt StAbort else mret (0, Some tid)
    end.

Definition uapi_remove_thread (tid utcb : Z) : M uapi Z :=
  if L4_IsLocalId tid then mret (- EINVAL)
  else
    sender ← gets cur_sender;
    let is_self := tid =? sender in
    let pid := pidof sender in
    if pid <=? 0 then mret (- EINVAL)
    else
      ta ← get_task pid;
      match ta with
      | None => mret (- EINVAL)
      | Some t =>
          tc ← task_get t;
          match tidlist_remove_from tid (threads tc) with
          | None => mret (- EINVAL)
          | Some tids =>
              _ ← task_upd t (set_threads tids);
              _ ← free_threadno tid;
              tc ← task_get t;
              _ ← assert_ (L4_Address (utcb_area tc) <=? utcb);
              let pos := utcb - L4_Address (utcb_area tc) in
              _ ← assert_ (pos <? Z.shiftl 1 (L4_SizeLog2 (utcb_area tc)));
              let slot := Z.shiftr pos utcb_size_log2 in
              free ← of_option StFault (utcb_free tc);
              _ ← assert_ (negb (bitmap_test_bit free slot));
              _ ← task_upd t (set_utcb_free (Some (bitmap_set_bit free slot)));
              _ ← delete_thread tid;
              _ ← when_ is_self muidl_raise_no_reply;
              mret 0
          end
      end.

(** *** System tasks *)

(** [boot] holds the threads of the root task found at start-up, slot by slot;
    it is consulted only when @pid is the root task's own. *)
Definition add_systask (boot : list (option Z)) (pid kip utcb : Z) : M uapi Z :=
  if (0 <=? pid) && (pid <? SNEKS_MIN_SYSID) then mret (- EINVAL)
  else
    id ← (if pid <? 0 then ask RaAllocAny else mret (pid - SNEKS_MIN_SYSID));
    r ← gets ra_systask;
    match ra_alloc NUM_SYSTASK_IDS id r with
    | None => mret (if pid <? 0 then - ENOMEM else - EEXIST)
    | Some r =>
        _ ← modify (set_ra_systask (fun _ => r));
        ok ← task_common_ctor (TSys id) kip utcb;
        if negb ok then
          _ ← modify (set_ra_systask (ra_free id)); mret (- ENOMEM)
        else
          let take_slot (i : nat) (tid : option Z) : M uapi unit :=
            match tid with
            | None => mret tt
            | Some tid =>
                tc ← st_get id;
                free ← of_option StFault (utcb_free tc);
                _ ← assert_ (bitmap_test_bit free (Z.of_nat i));
                st_upd id (fun x =>
                  set_threads (threads x ++ [tid])
                    (set_utcb_free (Some (bitmap_clear_bit free (Z.of_nat i))) x))
            end in
          done ← gets systask_done;
          _ ← (if pid =? SNEKS_MIN_SYSID then
                 _ ← assert_ (negb done.1);
                 _ ← modify (set_systask_done (true, done.2));
                 mapM_ (fun p => take_slot p.1 p.2) (imap pair boot)
               else if pid =? pidof L4_Pager then
                 _ ← assert_ (negb done.2);
                 _ ← modify (set_systask_done (done.1, true));
                 tc ← st_get id;
                 free ← of_option StFault (utcb_free tc);
                 st_upd id (fun x =>
                   set_threads (threads x ++ [L4_Pager])
                     (set_utcb_free (Some (bitmap_clear_bit free 0)) x))
               else mret tt);
          mret (id + SNEKS_MIN_SYSID)
    end.

Definition destroy_systask (pid s : Z) : M uapi unit :=
  g ← get_systask pid;
  _ ← assert_ (bool_decide (g = Some s));
  _ ← task_common_dtor (TSys s);
  _ ← ask (SysmemRmTask pid);
  modify (set_ra_systask (ra_free s)).

(** *** exit, wait, fork *)

Definition uapi_exit (st : Z) : M uapi unit :=
  pid ← sender_pid;
  _ ← (if IS_SYSTASK pid then
         s ← get_systask pid;
         match s with Some s => destroy_systask pid s | None => halt StAbort end
       else
         p ← get_process pid;
         match p with
         | None => halt StAssert
         | Some p => _ ← upd p (set_exit 0 (s16 st) CLD_EXITED); zombify p
         end);
  muidl_raise_no_reply.

Definition has_children (pid : Z) : M uapi bool :=
  gets (fun w => existsb (fun c => ppid (proc_of w c) =? pid)
                   (htable_vals (int_hash pid) (pid_to_child_hash w))).

(** The return value, and si_pid, si_uid, si_signo, si_status, si_code. *)
Definition uapi_wait (idtype id options : Z) : M uapi (Z * list Z) :=
  caller ← sender_pid;
  if IS_SYSTASK caller then mret (- EINVAL, [])
  else
    self ← get_process caller;
    (* what was found: an error, a zombie, a live child, or nothing yet *)
    let give (x : Z + option Z * option Z) : M uapi (Z + option Z * option Z) := mret x in
    found ← (if idtype =? P_PID then
               d ← get_process id;
               match d with
               | None => give (inl (- ECHILD))
               | Some d =>
                   dp ← proc d;
                   if negb (ppid dp =? caller) then give (inl (- ECHILD))
                   else if 0 <? Z.of_nat (length (threads (task dp)))
                   then give (inr (None, Some d)) else give (inr (Some d, None))
               end
             else if idtype =? P_ALL then
               self ← of_option StFault self;
               sp ← proc self;
               match head (dead_list sp) with
               | Some d => dp ← proc d;
                           _ ← assert_ (ppid dp =? caller);
                           give (inr (Some d, None))
               | None => c ← has_children caller;
                         give (if (c : bool) then inr (None, None) else inl (- ECHILD))
               end
             else give (inl (- EINVAL)));
    match found with
    | inl e => mret (e, [])
    | inr (Some d, _) =>
        dp ← proc d;
        self ← of_option StFault self;
        _ ← set_confirm (Some (HDestroyProcess d self));
        mret (0, [d; 0; signo dp; status dp; code dp])
    | inr (None, Some l) =>
        if negb (Z.land options WNOHANG =? 0) then mret (0, [0; 0; 0; 0; 0])
        else
          sender ← gets cur_sender;
          _ ← upd l (set_wait_tid sender);
          _ ← muidl_raise_no_reply;
          mret (0, [])
    | inr (None, None) =>
        if Z.land options WNOHANG =? 0 then
          self ← of_option StFault self;
          _ ← upd self (fun x => set_flags (Z.lor (flags x) PF_WAIT_ANY) x);
          sender ← gets cur_sender;
          ok ← ask (HtableAdd (int_hash (pidof sender)) sender);
          if ok =? 0 then halt StAbort
          else
            _ ← modify (set_waitany (fun t => t ++ [(int_hash (pidof sender), sender)]));
            _ ← muidl_raise_no_reply;
            mret (0, [])
        else mret (0, [0; 0; 0; 0; 0])
    end.

Definition process_ctor (p : process) : process :=
  Process (task p) (flags p) (ppid p) (real_uid p) (eff_uid p) (saved_uid p)
    L4_nilthread (signo p) (status p) (code p) 0 0 (2 ^ 64 - 1) 0 0
    (saved_mask_set p) L4_nilthread (sighelper_utcb p) []
    (replicate N_LIMITS (0, 0)).

(** One turn of [alloc_process]: the candidate PID.  The counter moves by an
    atomic fetch-and-add; past the last PID a compare-and-swap against the value
    fetched is to restart it. *)
Definition next_pid : M uapi Z :=
  maybe ← gets next_user_pid;
  _ ← modify (set_next_user_pid (maybe + 1));
  if SNEKS_MAX_PID <? maybe then
    cur ← gets next_user_pid;
    if cur =? maybe then _ ← modify (set_next_user_pid 2); mret 1
    else _ ← assert_ (cur <=? SNEKS_MAX_PID); mret cur
  else mret maybe.

Fixpoint alloc_process_loop (iters : nat) : M uapi (option Z) :=
  match iters with
  | O => mret None
  | S n =>
      maybe ← next_pid;
      r ← gets ra_process;
      match ra_alloc (2 ^ 15) maybe r with
      | Some r =>
          _ ← modify (set_ra_process (fun _ => r));
          _ ← upd maybe process_ctor;
          mret (Some maybe)
      | None => alloc_process_loop n
      end
  end.
Definition alloc_process : M uapi (option Z) :=
  alloc_process_loop (Z.to_nat SNEKS_MAX_PID).

(** Returns the new PID or an error, and the child's first thread. *)
Definition uapi_fork (sp ip : Z) : M uapi (Z * option Z) :=
  pid ← sender_pid;
  if IS_SYSTASK pid then mret (- EINVAL, None)
  else
    src ← get_process pid;
    src ← of_option StAssert src;
    dst ← alloc_process;
    match dst with
    | None => mret (- EAGAIN, None)
    | Some newpid =>
        _ ← assert_ (negb (IS_SYSTASK newpid));
        s ← proc src;
        _ ← upd newpid (set_task (fun t =>
              set_threads [] (set_areas (kip_area (task s)) (utcb_area (task s)) t)));
        b ← alloc_utcb_bitmap (utcb_area (task s));
        _ ← upd newpid (set_task (set_utcb_free b));
        match b with
        | None => mret (- ENOMEM, None)
        | Some _ =>
            _ ← upd newpid (fun d =>
                  set_limits (limits s)
                    (set_sigs (ign_set s) (dfl_set s) (mask_set s) 0 (saved_mask_set d)
                      (set_sigpage (sigpage_addr s)
                        (set_uids (real_uid s) (eff_uid s) (saved_uid s)
                          (set_ppid pid d)))));
            ok ← ask (HtableAdd (int_hash pid) newpid);
            if ok =? 0 then mret (- ENOMEM, None)
            else
              _ ← modify (set_children (fun t => t ++ [(int_hash pid, newpid)]));
              n ← ask (VmFork pid newpid);
              if negb (n =? 0) then mret (if 0 <? n then - EIO else n, None)
              else
                _ ← assert_ (negb (L4_IsNilThread sysmsg_tid));
                _ ← ask (SysmsgBroadcast (Z.shiftl 1 MSGB_PROCESS_LIFECYCLE) 0
                           [pid; Z.lor MPL_FORK (Z.shiftl newpid 8)]);
                '(tid, utcb) ← allocate_thread newpid;
                if L4_IsNilThread tid then halt StAbort
                else
                  d ← proc newpid;
                  n ← make_space tid (kip_area (task d)) (utcb_area (task d));
                  if negb (n =? 0) then halt StAbort
                  else
                    res ← ask (ThreadControl tid tid my_global vm_tid utcb);
                    if negb (res =? 1) then halt StAbort
                    else
                      n ← ask (VmBreathOfLife tid sp ip);
                      res ← ask VmBreathStatus;
                      if negb (n =? 0) || negb (res =? 0) then halt StAbort
                      else mret (newpid, Some tid)
        end
    end.

(** *** Credentials and limits *)

Definition NO_ID : Z := 2 ^ 32 - 1.     (* (uid_t)-1 *)

(** Real, effective and saved UID; the group IDs are not kept. *)
Definition uapi_getresugid : M uapi (list Z) :=
  pid ← sender_pid;
  p ← get_process pid;
  match p with
  | None => mret (replicate 6 NO_ID)
  | Some p => pr ← proc p;
              mret [real_uid pr; eff_uid pr; saved_uid pr; NO_ID; NO_ID; NO_ID]
  end.

(** What [uapi_setresugid] decides from the caller's credentials: an error, or
    the three IDs to assign ([NO_ID] leaves one alone). *)
Definition resugid_request (mode r e s : Z) (p : process) : stop + (Z + Z * Z * Z) :=
  if (mode <? 1) || (3 <? mode) then inr (inl (- EINVAL))
  else if mode =? 1 then
    if eff_uid p =? 0 then inr (inr (r, r, r))
    else if (r =? eff_uid p) || (r =? saved_uid p) then
      if s =? NO_ID then inr (inr (NO_ID, r, s)) else inl StAssert
    else inr (inl (- EPERM))
  else if mode =? 2 then inr (inl (- ENOSYS))
  else if (mode =? 3) && negb (eff_uid p =? 0) then
    if forallb (fun c => (c =? NO_ID) || (c =? real_uid p) || (c =? eff_uid p)
                         || (c =? saved_uid p)) [r; e; s]
    then inr (inr (r, e, s)) else inr (inl (- EPERM))
  else inr (inr (r, e, s)).

Definition assign_uids (r e s : Z) (p : process) : process :=
  set_uids (if r =? NO_ID then real_uid p else r)
           (if e =? NO_ID then eff_uid p else e)
           (if s =? NO_ID then saved_uid p else s) p.

Definition uapi_setresugid (mode r e s : Z) : M uapi Z :=
  pid ← sender_pid;
  p ← get_process pid;
  match p with
  | None => mret (- ESRCH)
  | Some p =>
      pr ← proc p;
      match resugid_request mode r e s pr with
      | inl stop => halt stop
      | inr (inl err) => mret err
      | inr (inr (r, e, s)) => _ ← upd p (assign_uids r e s); mret 0
      end
  end.

(** Returns the error code and the old limit as far as it was stored. *)
Definition uapi_prlimit (pid resource : Z) (new : Z * Z) : M uapi (Z * option (Z * Z)) :=
  let write := negb (Z.testbit resource 31) in
  let resource := Z.land (u32 resource) (bnot32 0x80000000) in
  if negb (pid =? 0) then mret (- EPERM, None)
  else
    spid ← sender_pid;
    p ← get_process spid;
    match p with
    | None => mret (- ESRCH, None)
    | Some p =>
        pr ← proc p;
        match limits pr !! Z.to_nat resource with
        | None => mret (- EINVAL, None)
        | Some old =>
            if write && (new.2 <? new.1) then mret (- EINVAL, Some old)
            else
              _ ← when_ write
                    (upd p (fun x => set_limits (<[Z.to_nat resource := new]> (limits x)) x));
              mret (0, Some old)
        end
    end.
End ops.
