(* ===== verification/UapiSigProps.v ===== *)
(** Signals: the mutual recursion of [sig_send] and [zombify] is bounded, signal
    sets stay consistent, and unmasked signals are delivered in order. *)
From S2P Require Import Prelude L4 HashUtil Rollback Containers UapiState UapiThreads ProgImage UapiProc UapiOps.
From S2P Require Import UapiThreadProps.

(** ** Programs that never use up their recursion bound *)

Definition within_fuel {S A} (m : M S A) : Prop := forall s, m s <> Stop StFuel.

Section within.
Context {S : Type}.
Lemma within_bind {A B} (m : M S A) (k : A -> M S B) :
  within_fuel m -> (forall a, within_fuel (k a)) -> within_fuel (m ≫= k).
Proof.
  intros Hm Hk s. unfold mbind, M_bind. specialize (Hm s). destruct (m s); [apply Hk|].
  congruence.
Qed.
Lemma within_ret {A} (a : A) : within_fuel (mret a : M S A).
Proof. done. Qed.
Lemma within_halt {A} r : r <> StFuel -> within_fuel (halt r : M S A).
Proof. intros Hr s. unfold halt. congruence. Qed.
Lemma within_assert b : within_fuel (assert_ b : M S unit).
Proof. intros s. by destruct b. Qed.
Lemma within_of_option {A} r (o : option A) : r <> StFuel -> within_fuel (of_option r o : M S A).
Proof. intros Hr s. destruct o; cbn; congruence. Qed.
Lemma within_gets {A} (f : S -> A) : within_fuel (gets f).
Proof. done. Qed.
Lemma within_get : within_fuel (get : M S S).
Proof. done. Qed.
Lemma within_modify (f : S -> S) : within_fuel (modify f).
Proof. done. Qed.
Lemma within_when b (m : M S unit) : within_fuel m -> within_fuel (when_ b m).
Proof. by destruct b. Qed.
Lemma within_if {A} (b : bool) (m1 m2 : M S A) :
  within_fuel m1 -> within_fuel m2 -> within_fuel (if b then m1 else m2).
Proof. by destruct b. Qed.
Lemma within_mapM {A} (f : A -> M S unit) l :
  (forall a, within_fuel (f a)) -> within_fuel (mapM_ f l).
Proof. intros Hf. induction l; cbn; [done|]. by apply within_bind. Qed.
Lemma within_shl x n : within_fuel (shl_ull x n : M S Z).
Proof. unfold shl_ull. by destruct (_ && _). Qed.
End within.

Create HintDb within discriminated.
#[export] Hint Resolve within_bind within_ret within_assert within_gets
  within_get within_modify within_when within_if within_mapM within_shl : within.
#[export] Hint Extern 1 (within_fuel (halt _)) => apply within_halt; discriminate : within.
#[export] Hint Extern 1 (within_fuel (of_option _ _)) =>
  apply within_of_option; discriminate : within.
#[export] Hint Extern 2 (within_fuel (match ?x with _ => _ end)) => destruct x : within.
#[export] Hint Extern 3 (within_fuel (let 'pair _ _ := ?x in _)) => destruct x : within.

Ltac within := auto 60 with within.

Section sig_props.
Context `{L4Abi, UapiEnv}.

Lemma within_ask c : within_fuel (ask c).
Proof. done. Qed.
Lemma within_proc p : within_fuel (proc p).
Proof. done. Qed.
Lemma within_upd p f : within_fuel (upd p f).
Proof. done. Qed.
Lemma within_task_get t : within_fuel (task_get t).
Proof. done. Qed.
Lemma within_task_upd t f : within_fuel (task_upd t f).
Proof. by destruct t. Qed.
Lemma within_raise : within_fuel muidl_raise_no_reply.
Proof. done. Qed.
Hint Resolve within_ask within_proc within_upd within_task_get within_task_upd
  within_raise : within.

Lemma within_sync_confirm : within_fuel (sync_confirm (S := uapi) (H := uapi_handler)).
Proof.
  unfold sync_confirm, put_ctx. apply within_bind; [within|]. intros [c|]; [|within].
  destruct (rb_c c) as [[dead self]|]; [|within]. apply within_bind; [within|].
  intros _. cbn. unfold call_destroy_process, destroy_process_core. within.
Qed.
Hint Resolve within_sync_confirm : within.

Lemma within_get_process p : within_fuel (get_process p).
Proof. unfold get_process. within. Qed.
Lemma within_get_task p : within_fuel (get_task p).
Proof. unfold get_task, get_systask, st_get. pose proof within_get_process. within. Qed.
Lemma within_free_threadno t : within_fuel (free_threadno t).
Proof. unfold free_threadno, tno_map, tno_count, tno_store. within. Qed.
Lemma within_delete_thread t : within_fuel (delete_thread t).
Proof. unfold delete_thread. within. Qed.
Hint Resolve within_get_process within_get_task within_free_threadno
  within_delete_thread : within.

Lemma within_allocate_thread p : within_fuel (allocate_thread p).
Proof. unfold allocate_thread, tno_map, tno_count, tno_store. within. Qed.
Lemma within_free_thread t a b : within_fuel (free_thread t a b).
Proof. unfold free_thread. within. Qed.
Lemma within_destroy_process p : within_fuel (destroy_process p).
Proof. unfold destroy_process, destroy_process_core. within. Qed.
Lemma within_process_dtor p : within_fuel (process_dtor p).
Proof. unfold process_dtor, task_common_dtor. within. Qed.
Hint Resolve within_allocate_thread within_free_thread within_destroy_process
  within_process_dtor : within.

Lemma within_sig_remove_helper p : within_fuel (sig_remove_helper p).
Proof. unfold sig_remove_helper. within. Qed.
Lemma within_sig_deliver p s b : within_fuel (sig_deliver p s b).
Proof. unfold sig_deliver, add_pending. within. Qed.
Hint Resolve within_sig_remove_helper within_sig_deliver : within.

(** *** The mutual recursion of [sig_send] and [zombify] *)

Lemma sig_send_body_chld z1 z2 p self w :
  sig_send_body z1 p SIGCHLD self w = sig_send_body z2 p SIGCHLD self w.
Proof. reflexivity. Qed.

Lemma sig_send_body_ext z1 z2 p sig self w :
  (forall q s, z1 q s = z2 q s) ->
  sig_send_body z1 p sig self w = sig_send_body z2 p sig self w.
Proof.
  intros Hz. unfold sig_send_body, sig_default. apply bind_ext; intros _ s1.
  apply bind_ext; intros pr s2. destruct (negb _); [done|]. destruct (negb _); [|done].
  destruct (negb _); [|done]. apply bind_ext; intros _ s3.
  destruct (_ || _); [|done]. rewrite !bind_bind. apply bind_ext; intros _ s4.
  unfold mbind, M_bind. by rewrite Hz.
Qed.

Lemma zombify_body_ext f g p w :
  (forall q s, f q SIGCHLD false s = g q SIGCHLD false s) ->
  zombify_body f p w = zombify_body g p w.
Proof.
  intros Hf. unfold zombify_body. repeat (apply bind_ext; intros ? ?).
  unfold mbind at 1, M_bind at 1. rewrite Hf. done.
Qed.

Lemma within_sig_send_chld n p self : within_fuel (sig_send_n (S n) p SIGCHLD self).
Proof.
  cbn [sig_send_n]. unfold sig_send_body, add_pending.
  change (sig_default _ p SIGCHLD) with
    (pr ← proc p; b ← shl_ull 1 SIGCHLD;
     _ ← assert_ (negb (Z.land (bnot64 (pending_set pr)) b =? 0));
     (mret false : M uapi bool)).
  within.
Qed.
Hint Resolve within_sig_send_chld : within.

Lemma within_zombify p : within_fuel (zombify p).
Proof. unfold zombify, zombify_body. within. Qed.
Hint Resolve within_zombify : within.

Lemma zombify_n n p w : zombify_body (sig_send_n (S n)) p w = zombify p w.
Proof. apply zombify_body_ext. intros q s. apply sig_send_body_chld. Qed.

(** C36: [sig_send] and [zombify] call each other, but only to a fixed depth,
    since the SIGCHLD a dying process sends is never fatal to its parent: the
    bound of 2 used in the model is never exhausted, and any larger bound gives
    the same outcome in every state. *)
Theorem sig_send_zombify_bounded p sig self :
  within_fuel (sig_send p sig self) /\ within_fuel (zombify p)
  /\ forall n w, sig_send_n (S (S n)) p sig self w = sig_send p sig self w
               /\ zombify_body (sig_send_n (S n)) p w = zombify p w.
Proof.
  split_and!; [|apply within_zombify|].
  - unfold sig_send. cbn [sig_send_n].
    change (zombify_body _) with zombify. unfold sig_send_body, sig_default, add_pending.
    within.
  - intros n w. split; [|apply zombify_n].
    apply sig_send_body_ext. intros q s. apply zombify_n.
Qed.

(** *** Unmasking delivers pending signals in ascending order *)

(** The signals of a set, lowest first. *)
Definition signals_of (set : Z) : list Z :=
  filter (fun sig => Z.testbit set (sig - 1) = true) (seqZ 1 64).

Lemma signals_from_none set lo n :
  (forall i, lo - 1 <= i < lo - 1 + n -> Z.testbit set i = false) ->
  filter (fun sig => Z.testbit set (sig - 1) = true) (seqZ lo n) = [].
Proof.
  intros Hn. apply elem_of_nil_inv. intros sig [Ht Hs%elem_of_seqZ]%list_elem_of_filter.
  rewrite Hn in Ht by lia. done.
Qed.

Lemma signals_of_cons set :
  0 < set < 2 ^ 64 ->
  signals_of set = ffsll set :: signals_of (Z.land set (bnot64 (sig_bit (ffsll set)))).
Proof.
  intros Hs. pose proof (ffsll_pos set Hs) as Hf.
  destruct (ffs_spec 64 set) as [[E _]|(_ & Ht & Hl)]; [unfold ffsll in Hf; lia|].
  fold (ffsll set) in Ht, Hl. set (s := ffsll set) in *. unfold signals_of.
  assert (forall i, 0 <= i < 64 -> Z.testbit (Z.land set (bnot64 (sig_bit s))) i
                    = Z.testbit set i && negb (i =? s - 1)) as Hbit.
  { intros i Hi. unfold bnot64. rewrite Z.land_spec, unot_testbit by lia.
    rewrite (proj2 (Z.ltb_lt i 64)) by lia. unfold sig_bit.
    rewrite Z.shiftl_1_l, Z.pow2_bits_eqb, Z.eqb_sym by lia. done. }
  replace (seqZ 1 64) with (seqZ 1 (s - 1) ++ s :: seqZ (s + 1) (64 - s)); cycle 1.
  { replace 64 with ((s - 1) + (1 + (64 - s))) at 2 by lia.
    rewrite !seqZ_app by lia. f_equal. replace (1 + (s - 1)) with s by lia. done. }
  rewrite !filter_app, !filter_cons. rewrite decide_True by done.
  rewrite decide_False; cycle 1.
  { rewrite Hbit by lia. rewrite Z.eqb_refl, andb_false_r. done. }
  assert (forall l : list Z, (forall x, x ∈ l -> 1 <= x <= 64 /\ x <> s) ->
    filter (fun sig => Z.testbit (Z.land set (bnot64 (sig_bit s))) (sig - 1) = true) l
    = filter (fun sig => Z.testbit set (sig - 1) = true) l) as Hsame.
  { intros l Hlx. apply filter_ext_elem. intros x Hx. destruct (Hlx x Hx). rewrite Hbit by lia.
    rewrite (proj2 (Z.eqb_neq (x - 1) (s - 1))) by lia. by rewrite andb_true_r. }
  rewrite !Hsame; cycle 1.
  { intros x Hx%elem_of_seqZ. lia. }
  { intros x Hx%elem_of_seqZ. lia. }
  rewrite signals_from_none; [done|].
  intros i Hi. apply Hl. lia.
Qed.

Lemma signals_of_zero : signals_of 0 = [].
Proof. reflexivity. Qed.

Lemma length_signals_of set : (length (signals_of set) <= 64)%nat.
Proof. unfold signals_of. etransitivity; [apply length_filter|]. done. Qed.

Lemma land_sub_range a b : 0 <= a < 2 ^ 64 -> 0 <= Z.land a b < 2 ^ 64.
Proof.
  intros Ha. assert (0 <= Z.land a b) by (apply Z.land_nonneg; lia).
  split; [done|]. apply bits_bound; [lia|done|]. intros i Hi.
  rewrite Z.land_spec, (testbit_high 64 a) by lia. done.
Qed.

Lemma trigger_run n p trig w :
  0 <= trig < 2 ^ 64 -> (length (signals_of trig) <= n)%nat ->
  trigger n p trig w = mapM_ (fun sig => sig_send p sig true) (signals_of trig) w.
Proof.
  revert trig w. induction n as [|n IH]; intros trig w Ht Hl; cbn [trigger].
  - destruct (Z.eqb_spec trig 0) as [->|]; [done|].
    rewrite signals_of_cons in Hl by lia. rewrite length_cons in Hl. lia.
  - destruct (Z.eqb_spec trig 0) as [->|]; [done|].
    rewrite signals_of_cons in Hl |- * by lia. cbn [mapM_]. apply bind_ext.
    intros _ s. apply IH; [by apply land_sub_range|]. rewrite length_cons in Hl. lia.
Qed.

(** unmasking through [root_uapi_sigset] sends every newly unmasked pending
    signal that is not ignored exactly once, lowest first, and nothing else. *)
Theorem trigger_in_order p trig w :
  0 <= trig < 2 ^ 64 ->
  trigger 64 p trig w = mapM_ (fun sig => sig_send p sig true) (signals_of trig) w
  /\ (forall sig, sig ∈ signals_of trig <-> 1 <= sig <= 64 /\ Z.testbit trig (sig - 1) = true)
  /\ StronglySorted Z.lt (signals_of trig).
Proof.
  intros Ht. split; [apply trigger_run; [done | apply length_signals_of]|]. split.
  - intros sig. unfold signals_of. rewrite list_elem_of_filter, elem_of_seqZ.
    split; intros [? ?]; split; (done || lia).
  - unfold signals_of. apply StronglySorted_filter, StronglySorted_seqZ.
Qed.
End sig_props.

(** ** Signal sets *)

Definition sigset_ok (x : Z) : Prop := 0 <= x < 2 ^ 64.

(** What every process maintains of its signal sets: they are 64-bit words, and
    no signal is both ignored and left to its default action. *)
Record sigs_ok (p : process) : Prop := {
  ok_ign : sigset_ok (ign_set p);
  ok_dfl : sigset_ok (dfl_set p);
  ok_mask : sigset_ok (mask_set p);
  ok_pending : sigset_ok (pending_set p);
  ok_saved : sigset_ok (saved_mask_set p);
  ok_disjoint : Z.land (ign_set p) (dfl_set p) = 0
}.

Lemma sigset_ok_land_l a b : sigset_ok a -> sigset_ok (Z.land a b).
Proof. apply land_sub_range. Qed.
Lemma sigset_ok_lor a b : sigset_ok a -> sigset_ok b -> sigset_ok (Z.lor a b).
Proof.
  intros Ha Hb. split; [apply Z.lor_nonneg; unfold sigset_ok in *; lia|].
  apply bits_bound; [lia|apply Z.lor_nonneg; unfold sigset_ok in *; lia|]. intros i Hi.
  by rewrite Z.lor_spec, !(testbit_high 64) by (done || lia).
Qed.
#[export] Hint Resolve sigset_ok_land_l sigset_ok_lor : core.

(** Equality of 64-bit sets bit by bit. *)
Lemma sigset_ext a b :
  sigset_ok a -> sigset_ok b ->
  (forall i, 0 <= i < 64 -> Z.testbit a i = Z.testbit b i) -> a = b.
Proof.
  intros Ha Hb Hi. apply Z.bits_inj'. intros i H0. destruct (Z.lt_ge_cases i 64).
  - apply Hi. lia.
  - by rewrite !(testbit_high 64) by (done || lia).
Qed.

Lemma bnot64_testbit x i : 0 <= i < 64 -> Z.testbit (bnot64 x) i = negb (Z.testbit x i).
Proof.
  intros Hi. unfold bnot64. rewrite unot_testbit, (proj2 (Z.ltb_lt i 64)) by lia. done.
Qed.

Lemma disjoint_testbit a b i : Z.land a b = 0 -> Z.testbit a i && Z.testbit b i = false.
Proof. intros E. by rewrite <- Z.land_spec, E, Z.bits_0. Qed.

Lemma sigset_ok_0 : sigset_ok 0.
Proof. unfold sigset_ok. lia. Qed.

(** Changing one of two disjoint sets and clearing what changed from the other. *)
Lemma disposition_disjoint a b and_bits or_bits :
  sigset_ok a -> sigset_ok b -> sigset_ok or_bits -> Z.land a b = 0 ->
  let v := Z.lor (Z.land a and_bits) or_bits in
  Z.land v (Z.land b (bnot64 (Z.lxor a v))) = 0.
Proof.
  intros Ha Hb Ho E v. assert (sigset_ok v) by (unfold v; auto).
  apply sigset_ext; [auto|apply sigset_ok_0|]. intros i Hi.
  rewrite Z.bits_0, !Z.land_spec, bnot64_testbit, Z.lxor_spec by lia.
  pose proof (disjoint_testbit a b i E) as D.
  destruct (Z.testbit a i), (Z.testbit b i), (Z.testbit v i); done.
Qed.

(** Changing the ignored or the default set through [root_uapi_sigset]
    returns the old set, applies [and_bits] then [or_bits] to it, clears every
    changed signal from the other set so that the two stay disjoint (the
    operation's assertion), and leaves mask and pending alone. *)
Theorem sigset_disposition_spec set p or_bits and_bits :
  sigs_ok p -> sigset_ok or_bits -> set = SetIgn \/ set = SetDfl ->
  let '(old, p') := sigset_apply set false or_bits and_bits p in
  old = sig_read set p
  /\ sig_read set p' = Z.lor (Z.land old and_bits) or_bits
  /\ sigs_ok p'
  /\ mask_set p' = mask_set p /\ pending_set p' = pending_set p /\ flags p' = flags p.
Proof.
  intros [Hi Hd Hm Hp Hs E] Ho Hset. unfold sigset_apply; cbn [negb].
  destruct Hset as [-> | ->]; cbn [sig_read].
  - pose proof (disposition_disjoint (ign_set p) (dfl_set p) and_bits or_bits Hi Hd Ho E) as D.
    cbv zeta in D. destruct (Z.eqb_spec (Z.lxor (ign_set p)
      (Z.lor (Z.land (ign_set p) and_bits) or_bits)) 0) as [Ex|]; cbn;
      split_and!; try done; split; cbn; auto.
    apply Z.lxor_eq in Ex. by rewrite <- Ex.
  - rewrite Z.land_comm in E.
    pose proof (disposition_disjoint (dfl_set p) (ign_set p) and_bits or_bits Hd Hi Ho E) as D.
    cbv zeta in D. destruct (Z.eqb_spec (Z.lxor (dfl_set p)
      (Z.lor (Z.land (dfl_set p) and_bits) or_bits)) 0) as [Ex|]; cbn;
      split_and!; try done; split; cbn; auto; rewrite Z.land_comm; try done.
    apply Z.lxor_eq in Ex. by rewrite <- Ex.
Qed.

Definition deliverable (p : process) : Z := Z.land (pending_set p) (bnot64 (mask_set p)).

(** The lowest member of a nonempty set, as a set. *)
Lemma sig_bit_lowest x :
  0 < x < 2 ^ 64 ->
  sigset_ok (sig_bit (ffsll x))
  /\ (forall i, 0 <= i < 64 -> Z.testbit (sig_bit (ffsll x)) i = (i =? ffsll x - 1))
  /\ Z.testbit x (ffsll x - 1) = true.
Proof.
  intros Hx. pose proof (ffsll_pos x Hx) as Hf.
  assert (forall i, 0 <= i -> Z.testbit (sig_bit (ffsll x)) i = (i =? ffsll x - 1)) as Hb.
  { intros i Hi. unfold sig_bit. by rewrite Z.shiftl_1_l, Z.pow2_bits_eqb, Z.eqb_sym by lia. }
  destruct (ffs_spec 64 x) as [[E _]|(_ & Ht & _)]; [unfold ffsll in Hf; lia|].
  split_and!; [|intros; apply Hb; lia|done].
  assert (0 <= sig_bit (ffsll x)) by (unfold sig_bit; apply Z.shiftl_nonneg; lia).
  split; [done|]. apply bits_bound; [lia|done|]. intros i Hi. rewrite Hb by lia.
  apply Z.eqb_neq. lia.
Qed.

(** Taking the deliverable signals ([set_name] 4 with [and_bits] 0, what the
    signal helper does) never loses or duplicates one.  Outside sigsuspend mode
    all unmasked pending signals are handed over and the masked ones stay
    pending.  In sigsuspend mode only the lowest is handed over, everything else
    stays pending, the mask saved by sigsuspend is put back and the mode ends;
    while nothing is deliverable the mode continues. *)
Theorem sigset_take_deliverable p or_bits :
  sigs_ok p ->
  let '(taken, p') := sigset_apply SetPending true or_bits 0 p in
  Z.lor taken (pending_set p') = pending_set p /\ Z.land taken (pending_set p') = 0
  /\ (if (Z.land (flags p) PF_SAVED_MASK =? 0) || (deliverable p =? 0) then
        taken = deliverable p /\ mask_set p' = mask_set p /\ flags p' = flags p
      else
        taken = sig_bit (ffsll (deliverable p)) /\ mask_set p' = saved_mask_set p
        /\ Z.land (flags p') PF_SAVED_MASK = 0).
Proof.
  intros [Hi Hd Hm Hp Hs E]. unfold sigset_apply; cbn [negb sig_read].
  fold (deliverable p). rewrite Z.lor_0_l.
  change (flags (sig_write SetPending _ p)) with (flags p).
  assert (sigset_ok (deliverable p)) as Hdel by (unfold deliverable; auto).
  assert (forall i, 0 <= i < 64 -> Z.testbit (deliverable p) i
            = Z.testbit (pending_set p) i && negb (Z.testbit (mask_set p) i)) as Hbit.
  { intros i ?. unfold deliverable. by rewrite Z.land_spec, bnot64_testbit. }
  destruct (Z.eqb_spec (Z.land (flags p) PF_SAVED_MASK) 0) as [Ef|Ef];
    [cbn [negb]; rewrite andb_false_r | destruct (Z.eqb_spec (deliverable p) 0) as [Ez|Ez]]; cbn.
  - split_and!; try done; (apply sigset_ext; [auto|auto using sigset_ok_0|]);
      intros i Hx; rewrite ?Z.lor_spec, ?Z.land_spec, ?Z.bits_0, Hbit, ?Z.land_spec by lia;
      by destruct (Z.testbit (pending_set p) i), (Z.testbit (mask_set p) i).
  - split_and!; try done; (apply sigset_ext; [auto|auto using sigset_ok_0|]);
      intros i Hx; rewrite ?Z.lor_spec, ?Z.land_spec, ?Z.bits_0, Hbit, ?Z.land_spec by lia;
      by destruct (Z.testbit (pending_set p) i), (Z.testbit (mask_set p) i).
  - destruct (sig_bit_lowest (deliverable p) ltac:(unfold sigset_ok in *; lia))
      as (Hok & Hb & Hin). change (Z.shiftl 1 _) with (sig_bit (ffsll (deliverable p))).
    set (bit := sig_bit _) in *. set (j := ffsll _ - 1) in *.
    split_and!; try done; try (by rewrite <- Z.land_assoc, Z.land_0_r);
      (apply sigset_ext; [auto 6|auto using sigset_ok_0|]);
      intros i Hx; rewrite ?Z.lor_spec, ?Z.land_spec, ?Z.lor_spec, ?Z.land_spec, ?bnot64_testbit,
        ?Z.bits_0, Hbit, Hb by lia; (destruct (Z.eqb_spec i j) as [->|]; [rewrite Hbit in Hin by lia|]);
      by destruct (Z.testbit (pending_set p) _), (Z.testbit (mask_set p) _).
Qed.

(** C37: what [sigsuspend] takes when a signal is deliverable under its mask: for
    the signals up to 31 exactly that one leaves the pending set; taking signal
    32 clears every pending signal above it as well; and from 33 on the shift
    is undefined. *)
Theorem sigsuspend_keep_spec trig pend :
  1 <= trig <= 64 -> sigset_ok pend ->
  match sigsuspend_keep trig with
  | Some keep =>
      trig <= 32
      /\ forall sig, 1 <= sig <= 64 ->
         Z.testbit (Z.land pend keep) (sig - 1)
         = Z.testbit pend (sig - 1) && negb ((sig =? trig) || (trig =? 32) && (32 <? sig))
  | None => 33 <= trig
  end.
Proof.
  intros Ht Hp. unfold sigsuspend_keep. destruct (Z.ltb_spec 32 trig); [lia|].
  split; [lia|]. intros sig Hs. rewrite Z.land_spec. f_equal. unfold u64.
  rewrite mod_pow2_testbit, (proj2 (Z.ltb_lt (sig - 1) 64)), Z.lnot_spec by lia. cbn [andb].
  f_equal. rewrite Z.shiftl_1_l. destruct (Z.eqb_spec trig 32) as [->|Hne]; cbn [andb].
  - change (s32 (2 ^ (32 - 1))) with (Z.lnot (Z.ones 31)). rewrite Z.lnot_spec by lia.
    destruct (Z.ltb_spec 32 sig), (Z.eqb_spec sig 32); cbn [orb]; try lia.
    + rewrite Z.ones_spec_high by lia. done.
    + rewrite Z.ones_spec_high by lia. done.
    + rewrite Z.ones_spec_low by lia. done.
  - rewrite orb_false_r. unfold s32. rewrite signed_id; cycle 1.
    { lia. }
    { split; [|apply Z.pow_lt_mono_r; lia]. assert (0 < 2 ^ (trig - 1)) by (apply Z.pow_pos_nonneg; lia). lia. }
    rewrite Z.pow2_bits_eqb by lia. destruct (Z.eqb_spec (trig - 1) (sig - 1)), (Z.eqb_spec sig trig); lia.
Qed.

(** ** Witnesses *)

Definition sig_demo : process :=
  set_flags PF_SAVED_MASK (set_sigs 0x100 (2 ^ 64 - 1 - 0x100) 0x6 0x17 0x2 (demo_process 1 0)).

Lemma sig_demo_ok : sigs_ok sig_demo.
Proof. by split; unfold sigset_ok; cbn. Qed.

Lemma trigger_in_order_witness :
  @trigger l4_x2_32 demo_env 64 2 0x15 demo1
  = mapM_ (fun sig => @sig_send l4_x2_32 demo_env 2 sig true) [1; 3; 5] demo1.
Proof. apply (@trigger_in_order l4_x2_32 demo_env 2 0x15 demo1). lia. Defined.

Lemma sigset_disposition_spec_witness :
  let '(old, p') := sigset_apply SetIgn false 0x10000 0xff sig_demo in
  old = 0x100 /\ sig_read SetIgn p' = 0x10000 /\ sigs_ok p'.
Proof.
  pose proof (sigset_disposition_spec SetIgn sig_demo 0x10000 0xff sig_demo_ok) as Hs.
  destruct (sigset_apply SetIgn false 0x10000 0xff sig_demo) as [old p'] eqn:E.
  destruct Hs as (H1 & H2 & H3 & _); [unfold sigset_ok; lia | by left|].
  split; [done|]. split; [by rewrite H2, H1 | done].
Defined.

Lemma sigset_take_deliverable_witness :
  let '(taken, p') := sigset_apply SetPending true 0 0 sig_demo in
  taken = 1 /\ Z.lor taken (pending_set p') = 0x17 /\ mask_set p' = 0x2.
Proof.
  pose proof (sigset_take_deliverable sig_demo 0 sig_demo_ok) as Hs.
  destruct (sigset_apply SetPending true 0 0 sig_demo) as [taken p'] eqn:E.
  destruct Hs as (H1 & _ & H3 & H4 & _). split_and!; [by rewrite H3 | by rewrite H1 | by rewrite H4].
Defined.

Lemma sigsuspend_keep_spec_witness :
  exists keep, sigsuspend_keep 32 = Some keep
    /\ Z.testbit (Z.land (2 ^ 40 + 2 ^ 31) keep) 40 = false.
Proof.
  pose proof (sigsuspend_keep_spec 32 (2 ^ 40 + 2 ^ 31) ltac:(lia)) as Hs.
  destruct (sigsuspend_keep 32) as [keep|] eqn:E; [|done].
  exists keep. split; [done|]. destruct Hs as [_ Hs]; [unfold sigset_ok; lia|].
  exact (Hs 41 ltac:(lia)).
Defined.
