(* ===== verification/UapiOpsProps.v ===== *)
(** Permissions, credentials, limits and process IDs: what the operations of
    Sneks::Proc promise their callers. *)
From S2P Require Import Prelude L4 HashUtil Rollback Containers UapiState UapiThreads ProgImage UapiProc UapiOps.
From S2P Require Import UapiThreadProps.

(** No confirm handler is pending, so that process lookup has no side effect. *)
Definition quiet (w : uapi) : Prop :=
  forall ctx, uapi_rb w = Some ctx -> rb_c ctx = None.

(** [w'] differs from [w] in the slot of process [p] only. *)
Definition only_proc (p : Z) (w w' : uapi) : Prop :=
  w' = set_ra_process (ra_store p (proc_of w' p)) w.

Section ops_props.
Context `{L4Abi, UapiEnv}.

Definition caller (w : uapi) : Z := pidof (cur_sender w).

Lemma sync_confirm_quiet w :
  quiet w -> sync_confirm (S := uapi) (H := uapi_handler) w = Ret tt w.
Proof. intros Hq. apply sync_confirm_none. exact Hq. Qed.

Lemma get_process_quiet w pid : quiet w -> get_process pid w = Ret (valid_process w pid) w.
Proof.
  intros Hq. unfold get_process.
  destruct ((pid <=? 0) || (SNEKS_MAX_PID <? pid)) eqn:E.
  { unfold valid_process. by rewrite E. }
  by rewrite (bind_ret _ _ _ _ _ (sync_confirm_quiet w Hq)).
Qed.

Lemma valid_process_self w pid p : valid_process w pid = Some p -> p = pid.
Proof. unfold valid_process. repeat case_match; congruence. Qed.

Lemma valid_process_user w pid p :
  valid_process w pid = Some p -> 1 <= pid <= SNEKS_MAX_PID /\ IS_SYSTASK pid = false.
Proof.
  unfold valid_process, IS_SYSTASK, SNEKS_MIN_SYSID, SNEKS_MAX_PID. intros Hv.
  destruct ((pid <=? 0) || _) eqn:E; [done|]. split; [|apply Z.leb_gt]; lia.
Qed.

Lemma proc_of_upd w p f q :
  proc_of (set_ra_process (ra_store p f) w) q = if decide (q = p) then f else proc_of w q.
Proof.
  unfold proc_of, ra_slot; cbn. case_decide as E; [subst; by rewrite lookup_insert_eq|].
  by rewrite lookup_insert_ne.
Qed.

Lemma quiet_upd w p f : quiet w -> quiet (set_ra_process (ra_store p f) w).
Proof. done. Qed.

(** *** kill *)

(** Whether a user process with credentials [s] may signal [p]. *)
Definition may_signal (s p : process) : Prop :=
  eff_uid s = 0 \/ real_uid s = real_uid p \/ real_uid s = saved_uid p
  \/ eff_uid s = real_uid p \/ eff_uid s = saved_uid p.

Lemma kill_denied_user pid s p :
  IS_SYSTASK pid = false -> kill_denied pid s p = true <-> ~ may_signal s p.
Proof.
  intros E. unfold kill_denied, may_signal. rewrite E. cbn [negb andb].
  rewrite !andb_true_iff, !negb_true_iff, !Z.eqb_neq. tauto.
Qed.

Lemma root_uapi_kill_run w pid sig s :
  quiet w -> valid_process w (caller w) = Some s -> caller w <> pidof vm_tid ->
  root_uapi_kill pid sig w =
    match valid_process w pid with
    | None => Ret (- ESRCH) w
    | Some _ =>
        if kill_denied (caller w) (proc_of w s) (proc_of w pid) then Ret (- EPERM) w
        else if (sig <? 0) || (64 <? sig) then Ret (- EINVAL) w
        else (_ ← when_ (negb (sig =? 0)) (sig_send pid sig (pid =? caller w)); mret 0) w
    end.
Proof.
  intros Hq Hs Hvm. unfold root_uapi_kill.
  rewrite (bind_ret _ _ _ _ _ (get_process_quiet w pid Hq)).
  destruct (valid_process w pid) as [p|] eqn:Ep; [|done].
  pose proof (valid_process_self _ _ _ Ep) as ->.
  unfold sender_pid. rewrite bind_gets. fold (caller w).
  rewrite (bind_ret _ _ _ _ _ (get_process_quiet w (caller w) Hq)), Hs.
  destruct (valid_process_user _ _ _ Hs) as [_ ->]. rewrite bind_of_some.
  unfold proc. rewrite !bind_gets. destruct (kill_denied _ _ _); [done|].
  destruct (_ || _); [done|]. rewrite (proj2 (Z.eqb_neq _ _) Hvm). by rewrite bind_mret.
Qed.

(** C38: a user process can affect another one through kill only when it is
    privileged or shares a real, effective or saved UID with it as POSIX has it;
    otherwise, as for an absent target, an invalid signal number and the null
    signal, the call returns its error (or 0) without any change of state. *)
Theorem kill_permission w pid sig s :
  quiet w -> valid_process w (caller w) = Some s -> caller w <> pidof vm_tid ->
  (valid_process w pid = None -> root_uapi_kill pid sig w = Ret (- ESRCH) w)
  /\ (forall p, valid_process w pid = Some p ->
      (~ may_signal (proc_of w s) (proc_of w p) -> root_uapi_kill pid sig w = Ret (- EPERM) w)
      /\ (may_signal (proc_of w s) (proc_of w p) ->
          (~ 0 <= sig <= 64 -> root_uapi_kill pid sig w = Ret (- EINVAL) w)
          /\ (sig = 0 -> root_uapi_kill pid sig w = Ret 0 w)
          /\ (1 <= sig <= 64 ->
              root_uapi_kill pid sig w = (_ ← sig_send p sig (p =? s); mret 0) w))).
Proof.
  intros Hq Hs Hvm. rewrite (root_uapi_kill_run w pid sig s Hq Hs Hvm).
  split; [by intros ->|]. intros p Hp. rewrite Hp.
  pose proof (valid_process_self _ _ _ Hp) as ->.
  pose proof (valid_process_self _ _ _ Hs) as ->.
  destruct (valid_process_user _ _ _ Hs) as [_ Hu].
  pose proof (kill_denied_user (caller w) (proc_of w (caller w)) (proc_of w pid) Hu) as Hd.
  split; [by intros ->%Hd|]. intros Hm.
  destruct (kill_denied _ _ _); [by apply Hd in Hm|]. split_and!.
  - intros Hn. replace (_ || _) with true by lia. done.
  - intros ->. done.
  - intros Hr. replace (_ || _) with false by lia.
    by rewrite (proj2 (Z.eqb_neq sig 0)) by lia.
Qed.

(** *** Credentials *)

Definition ids (p : process) : list Z := [real_uid p; eff_uid p; saved_uid p].

Lemma resugid_request_confined mode r e s p r' e' s' :
  eff_uid p <> 0 -> resugid_request mode r e s p = inr (inr (r', e', s')) ->
  forall x, x ∈ [r'; e'; s'] -> x = NO_ID \/ x ∈ ids p.
Proof.
  intros Hp. unfold resugid_request, ids. destruct (_ || _) eqn:Em; [done|].
  rewrite (proj2 (Z.eqb_neq _ _) Hp). cbn [negb]. rewrite andb_true_r.
  destruct (Z.eqb_spec mode 1); cbn match; [|destruct (Z.eqb_spec mode 2); [done|]].
  - destruct ((r =? _) || _) eqn:E; [|done]. destruct (s =? NO_ID) eqn:Es; [|done].
    intros [= <- <- <-] x Hx. apply Z.eqb_eq in Es.
    apply orb_true_iff in E as [?%Z.eqb_eq|?%Z.eqb_eq]; set_solver.
  - replace (mode =? 3) with true by lia.
    destruct (forallb _ _) eqn:E; [|done]. intros [= <- <- <-] x Hx.
    rewrite forallb_forall in E. apply list_elem_of_In in Hx. specialize (E x Hx).
    rewrite !orb_true_iff, !Z.eqb_eq in E. set_solver.
Qed.

Lemma assign_uids_ids r e s p x :
  x ∈ ids (assign_uids r e s p) ->
  x ∈ ids p \/ x ∈ [r; e; s] /\ x <> NO_ID.
Proof.
  unfold ids, assign_uids; cbn.
  destruct (Z.eqb_spec r NO_ID), (Z.eqb_spec e NO_ID), (Z.eqb_spec s NO_ID); set_solver.
Qed.

Lemma only_proc_upd w p x : only_proc p w (set_ra_process (ra_store p x) w).
Proof. unfold only_proc. rewrite proc_of_upd, decide_True by done. done. Qed.

(** [uapi_setresugid] changes no state but the three user IDs of the calling
    process, changes nothing at all when it reports an error, and leaves a
    caller without root's effective UID with no ID it did not have before. *)
Theorem setresugid_confined w mode r e s p n w' :
  quiet w -> valid_process w (caller w) = Some p ->
  uapi_setresugid mode r e s w = Ret n w' ->
  let pr := proc_of w p in let pr' := proc_of w' p in
  (n <> 0 -> w' = w)
  /\ (n = 0 -> only_proc p w w' /\ pr' = set_uids (real_uid pr') (eff_uid pr') (saved_uid pr') pr)
  /\ (eff_uid pr <> 0 -> forall x, x ∈ ids pr' -> x ∈ ids pr).
Proof.
  intros Hq Hp Hr pr pr'. unfold uapi_setresugid, sender_pid in Hr.
  rewrite bind_gets in Hr. fold (caller w) in Hr.
  rewrite (bind_ret _ _ _ _ _ (get_process_quiet w _ Hq)), Hp in Hr.
  unfold proc in Hr. rewrite bind_gets in Hr. fold pr in Hr.
  destruct (resugid_request mode r e s pr) as [|[err|[[r' e'] s']]] eqn:Eq; [done| |].
  - run_inv. split_and!; [done| |intros _ x Hx; exact Hx]. intros ->. exfalso.
    revert Eq. unfold resugid_request. clear.
    repeat (case_match; try discriminate); by intros [= ?].
  - unfold upd in Hr. rewrite bind_modify in Hr. run_inv.
    assert (pr' = assign_uids r' e' s' pr) as E.
    { unfold pr'. by rewrite proc_of_upd, decide_True. }
    split_and!; [done| |].
    + intros _. split; [apply only_proc_upd|]. rewrite E. by destruct pr.
    + intros He x Hx. rewrite E in Hx. apply assign_uids_ids in Hx as [Hx|[Hx Hn]]; [done|].
      by destruct (resugid_request_confined _ _ _ _ _ _ _ _ He Eq x Hx).
Qed.

(** *** Resource limits *)

Definition PRLIMIT_READ (resource : Z) : Z := resource - 2 ^ 31.  (* bit 31 of an int *)

Lemma resource_bits res :
  0 <= res < 2 ^ 31 ->
  Z.testbit res 31 = false /\ Z.land (u32 res) (bnot32 0x80000000) = res
  /\ Z.testbit (PRLIMIT_READ res) 31 = true
  /\ Z.land (u32 (PRLIMIT_READ res)) (bnot32 0x80000000) = res.
Proof.
  intros Hr. unfold PRLIMIT_READ. change (bnot32 0x80000000) with (Z.ones 31).
  rewrite !Z.land_ones by lia. split_and!.
  - apply (testbit_high 31); lia.
  - rewrite u32_id, Z.mod_small by lia. done.
  - rewrite <- (Z.mod_pow2_bits_low _ 32) by lia.
    replace ((res - 2 ^ 31) mod 2 ^ 32) with (res + 2 ^ 31)
      by (Z.to_euclidean_division_equations; lia).
    rewrite Z.testbit_true by lia. Z.to_euclidean_division_equations. lia.
  - unfold u32. Z.to_euclidean_division_equations. lia.
Qed.

Lemma prlimit_run w p r n :
  quiet w -> valid_process w (caller w) = Some p ->
  uapi_prlimit 0 r n w =
    let ix := Z.to_nat (Z.land (u32 r) (bnot32 0x80000000)) in
    match limits (proc_of w p) !! ix with
    | None => Ret (- EINVAL, None) w
    | Some o =>
        if negb (Z.testbit r 31) && (n.2 <? n.1) then Ret (- EINVAL, Some o) w
        else (_ ← when_ (negb (Z.testbit r 31))
                    (upd p (fun x => set_limits (<[ix := n]> (limits x)) x));
              mret (0, Some o)) w
    end.
Proof.
  intros Hq Hp. unfold uapi_prlimit, sender_pid. cbn [negb Z.eqb]. rewrite bind_gets.
  fold (caller w). rewrite (bind_ret _ _ _ _ _ (get_process_quiet w _ Hq)), Hp.
  unfold proc. rewrite bind_gets. cbv zeta. destruct (limits _ !! _); [|done].
  by destruct (_ && _).
Qed.

(** Updates that keep a process's UTCB area keep it alive. *)
Lemma valid_process_upd w p x q :
  utcb_area (task x) = utcb_area (task (proc_of w p)) ->
  valid_process (set_ra_process (ra_store p x) w) q = valid_process w q.
Proof.
  intros E. unfold valid_process. destruct (_ || _); [done|]. rewrite proc_of_upd.
  case_decide; [subst; by rewrite E | done].
Qed.

(** [uapi_prlimit] stores a limit whose current value does not exceed its
    maximum and returns the previous one; reading it back, with the sign bit of
    the resource set, returns what was stored and changes nothing; the other
    limits and the rest of the state stay.  A limit with the current value above
    the maximum, an unknown resource and another process's PID are refused
    without a change. *)
Theorem prlimit_roundtrip w p res new old :
  quiet w -> valid_process w (caller w) = Some p ->
  0 <= res < 2 ^ 31 ->
  (limits (proc_of w p) !! Z.to_nat res = None ->
     uapi_prlimit 0 res new w = Ret (- EINVAL, None) w)
  /\ (forall pid, pid <> 0 -> uapi_prlimit pid res new w = Ret (- EPERM, None) w)
  /\ (limits (proc_of w p) !! Z.to_nat res = Some old ->
     if new.2 <? new.1 then uapi_prlimit 0 res new w = Ret (- EINVAL, Some old) w
     else exists w', uapi_prlimit 0 res new w = Ret (0, Some old) w'
          /\ only_proc p w w'
          /\ limits (proc_of w' p) = <[Z.to_nat res := new]> (limits (proc_of w p))
          /\ forall any, uapi_prlimit 0 (PRLIMIT_READ res) any w' = Ret (0, Some new) w').
Proof.
  intros Hq Hp Hres. destruct (resource_bits res Hres) as (Eb & El & Eb' & El').
  split_and!.
  - intros Hn. rewrite (prlimit_run _ p) by done. cbv zeta. by rewrite El, Hn.
  - intros pid Hpid. unfold uapi_prlimit. by rewrite (proj2 (Z.eqb_neq _ _) Hpid).
  - intros Ho. rewrite (prlimit_run _ p) by done. cbv zeta. rewrite El, Ho, Eb. cbn [negb andb]. destruct (new.2 <? new.1); [done|].
    unfold when_, upd. rewrite bind_modify. eexists. split; [done|].
    split; [apply only_proc_upd|]. rewrite proc_of_upd, decide_True by done.
    split; [done|]. intros any. rewrite (prlimit_run _ p) by (done || by rewrite valid_process_upd).
    cbv zeta. rewrite El', proc_of_upd, decide_True, Eb' by done. cbn [limits set_limits]. rewrite list_lookup_insert_eq; [done|].
    by apply lookup_lt_is_Some; eexists.
Qed.

(** *** Process IDs *)

Definition pid_used (w : uapi) (pid : Z) : Prop := pid ∈ ra_used (ra_process w).

(** [w] after the PID [pid] was allocated and its structure initialised. *)
Definition pid_allocated (pid : Z) (w : uapi) : uapi :=
  set_ra_process (fun r => Ra ({[pid]} ∪ ra_used r)
                             (<[pid := process_ctor (proc_of w pid)]> (ra_mem r)))
    (set_next_user_pid (pid + 1) w).

Lemma alloc_loop_hit n w :
  next_user_pid w <= SNEKS_MAX_PID -> 0 <= next_user_pid w -> ~ pid_used w (next_user_pid w) ->
  alloc_process_loop (S n) w
  = Ret (Some (next_user_pid w)) (pid_allocated (next_user_pid w) w).
Proof.
  intros Hm H0w Hu. cbn [alloc_process_loop]. unfold next_pid. rewrite bind_bind, bind_gets.
  cbv beta. rewrite bind_bind, bind_modify. cbv beta.
  rewrite (proj2 (Z.ltb_ge SNEKS_MAX_PID _)), bind_mret, bind_gets by done.
  unfold ra_alloc. change (ra_process (set_next_user_pid _ w)) with (ra_process w).
  rewrite bool_decide_eq_true_2 by done. unfold SNEKS_MAX_PID in Hm.
  rewrite (proj2 (Z.leb_le _ _)), (proj2 (Z.ltb_lt _ _)) by (done || lia). cbn [andb].
  rewrite bind_modify. unfold upd. rewrite bind_modify. by destruct w as [[] ? ? ? ? ? ? ? ? ? ? ? ?].
Qed.

Lemma alloc_loop_skip n w :
  next_user_pid w <= SNEKS_MAX_PID -> pid_used w (next_user_pid w) ->
  alloc_process_loop (S n) w
  = alloc_process_loop n (set_next_user_pid (next_user_pid w + 1) w).
Proof.
  intros Hm Hu. cbn [alloc_process_loop]. unfold next_pid. rewrite bind_bind, bind_gets.
  cbv beta. rewrite bind_bind, bind_modify. cbv beta.
  rewrite (proj2 (Z.ltb_ge SNEKS_MAX_PID _)), bind_mret, bind_gets by done.
  unfold ra_alloc. change (ra_process (set_next_user_pid _ w)) with (ra_process w).
  rewrite (bool_decide_eq_false_2 (_ ∉ _)) by (intros Hn; by apply Hn).
  by rewrite !andb_false_r.
Qed.

Lemma alloc_loop_past n w :
  SNEKS_MAX_PID < next_user_pid w -> alloc_process_loop (S n) w = Stop StAssert.
Proof.
  intros Hm. cbn [alloc_process_loop]. unfold next_pid. rewrite bind_bind, bind_gets.
  cbv beta. rewrite bind_bind, bind_modify. cbv beta.
  rewrite (proj2 (Z.ltb_lt SNEKS_MAX_PID _)) by done. rewrite bind_bind, bind_gets.
  cbv beta. cbn [next_user_pid set_next_user_pid].
  rewrite (proj2 (Z.eqb_neq _ _)) by lia. rewrite bind_bind, bind_assert.
  by rewrite (proj2 (Z.leb_gt _ _)) by lia.
Qed.

Lemma alloc_loop_run k w n :
  (forall q, next_user_pid w <= q < next_user_pid w + Z.of_nat k -> pid_used w q) ->
  next_user_pid w + Z.of_nat k <= SNEKS_MAX_PID + 1 ->
  alloc_process_loop (k + n) w
  = alloc_process_loop n (set_next_user_pid (next_user_pid w + Z.of_nat k) w).
Proof.
  revert w. induction k as [|k IH]; intros w Hu Hm.
  - rewrite Z.add_0_r. by destruct w.
  - rewrite Nat.add_succ_l, alloc_loop_skip by (lia || apply Hu; lia).
    rewrite IH; cycle 1.
    { intros q Hq. cbn in Hq. apply (Hu q). lia. }
    { cbn. lia. }
    cbn. by replace (next_user_pid w + 1 + Z.of_nat k) with (next_user_pid w + Z.of_nat (S k)) by lia.
Qed.

(** [alloc_process] hands out the first unused PID at or above the counter,
    with a freshly initialised structure and no effect on other processes.  When
    there is none left below the limit it does not wrap around: the
    compare-and-swap meant to restart the counter compares with the value before
    the fetch-and-add, fails, and the assertion after it stops the server. *)
Theorem alloc_process_spec w :
  1 <= next_user_pid w ->
  (forall pid, next_user_pid w <= pid <= SNEKS_MAX_PID -> ~ pid_used w pid ->
     (forall q, next_user_pid w <= q < pid -> pid_used w q) ->
     alloc_process w = Ret (Some pid) (pid_allocated pid w))
  /\ (2 <= next_user_pid w -> (forall q, next_user_pid w <= q <= SNEKS_MAX_PID -> pid_used w q) ->
     alloc_process w = Stop StAssert).
Proof.
  intros H1. unfold alloc_process. split.
  - intros pid Hpid Hfree Hused.
    set (k := Z.to_nat (pid - next_user_pid w)).
    set (n := Z.to_nat (SNEKS_MAX_PID - (pid - next_user_pid w) - 1)).
    replace (Z.to_nat SNEKS_MAX_PID) with (k + S n)%nat by lia.
    rewrite alloc_loop_run; [|intros q Hq; apply Hused; lia | lia].
    replace (next_user_pid w + Z.of_nat k) with pid by lia.
    rewrite alloc_loop_hit; [|cbn; lia | cbn; lia | done]. by destruct w.
  - intros H2 Hused. destruct (Z.le_gt_cases (next_user_pid w) SNEKS_MAX_PID).
    + set (k := Z.to_nat (SNEKS_MAX_PID + 1 - next_user_pid w)).
      set (n := Z.to_nat (next_user_pid w - 2)).
      replace (Z.to_nat SNEKS_MAX_PID) with (k + S n)%nat by lia.
      rewrite alloc_loop_run; [|intros q Hq; apply Hused; lia | lia].
      apply alloc_loop_past. cbn. lia.
    + replace (Z.to_nat SNEKS_MAX_PID) with (S (Z.to_nat (SNEKS_MAX_PID - 1)))
        by (unfold SNEKS_MAX_PID; lia).
      by apply alloc_loop_past.
Qed.
End ops_props.

(** ** Witnesses: process 2, an unprivileged child of process 1, calls *)

Definition demo_tid (pid : Z) : Z := 600 * 2 ^ 14 + (2 * pid + 1).
Definition demo2 : uapi := set_message (demo_tid 2) 0 demo1.

Lemma demo2_quiet : quiet demo2.
Proof. done. Qed.

Lemma kill_permission_witness :
  @root_uapi_kill l4_x2_32 demo_env 1 15 demo2 = Ret (- EPERM) demo2
  /\ @root_uapi_kill l4_x2_32 demo_env 3 15 demo2 = Ret (- ESRCH) demo2
  /\ @root_uapi_kill l4_x2_32 demo_env 2 65 demo2 = Ret (- EINVAL) demo2.
Proof.
  split_and!.
  - destruct (@kill_permission l4_x2_32 demo_env demo2 1 15 2 demo2_quiet eq_refl ltac:(discriminate))
    as [_ Hk]. apply (Hk 1 eq_refl). vm_compute. intros Hx. repeat destruct Hx as [Hx|Hx]; discriminate Hx.
  - destruct (@kill_permission l4_x2_32 demo_env demo2 3 15 2 demo2_quiet eq_refl ltac:(discriminate))
      as [Hk _]. apply Hk. reflexivity.
  - destruct (@kill_permission l4_x2_32 demo_env demo2 2 65 2 demo2_quiet eq_refl ltac:(discriminate))
      as [_ Hk]. apply (Hk 2 eq_refl); [right; left; reflexivity | lia].
Defined.

Lemma setresugid_confined_witness :
  exists w', @uapi_setresugid l4_x2_32 demo_env 3 NO_ID 1000 NO_ID demo2 = Ret 0 w'
    /\ forall x, x ∈ ids (proc_of w' 2) -> x ∈ ids (proc_of demo2 2).
Proof.
  eexists. split; [reflexivity|].
  eapply (@setresugid_confined l4_x2_32 demo_env demo2 3 NO_ID 1000 NO_ID 2 0 _ demo2_quiet);
    [reflexivity | reflexivity | discriminate].
Defined.

Lemma prlimit_roundtrip_witness :
  exists w', @uapi_prlimit l4_x2_32 demo_env 0 3 (100, 200) demo2 = Ret (0, Some (0, 0)) w'
    /\ limits (proc_of w' 2) !! 3%nat = Some (100, 200).
Proof.
  destruct (@prlimit_roundtrip l4_x2_32 demo_env demo2 2 3 (100, 200) (0, 0) demo2_quiet eq_refl
              ltac:(lia)) as (_ & _ & Hp).
  destruct (Hp eq_refl) as (w' & E & _ & El & _). exists w'. split; [exact E|].
  rewrite El. reflexivity.
Defined.

Lemma alloc_process_spec_witness :
  alloc_process demo2 = Ret (Some 3) (pid_allocated 3 demo2)
  /\ alloc_process (set_next_user_pid 32768 demo2) = Stop StAssert.
Proof.
  split.
  - apply (alloc_process_spec demo2 ltac:(done)).
    + unfold SNEKS_MAX_PID. cbn. lia.
    + unfold pid_used. vm_compute. intros Hx. set_solver.
    + cbn. intros q Hq. assert (q = 1 \/ q = 2) as [-> | ->] by lia; set_solver.
  - apply (alloc_process_spec (set_next_user_pid 32768 demo2) ltac:(done)); [done|].
    unfold SNEKS_MAX_PID. cbn. intros. lia.
Defined.
