(* ===== verification/UapiLifeProps.v ===== *)
(** Process life cycle: exit leaves a zombie without resources, and wait reaps it
    exactly once, whether or not its replies get through. *)
From S2P Require Import Prelude L4 HashUtil Rollback Containers UapiState UapiThreads ProgImage UapiProc UapiOps.
From S2P Require Import UapiThreadProps UapiOpsProps.

(** [w] with other thread number maps and a longer trace. *)
Definition with_tnos (maps : list bitmap) (counts : list Z) (tr : list call) (w : uapi) : uapi :=
  Uapi (ra_process w) (ra_systask w) maps counts
    (next_user_pid w) (pid_to_child_hash w) (waitany_hash w) (uapi_rb w)
    (cur_sender w) (cur_tag w) (no_reply w) (systask_done w) tr.

(** Only thread number maps and the trace differ. *)
Definition same_but_tnos (w w' : uapi) : Prop :=
  w' = with_tnos (tno_free_maps w') (tno_free_counts w') (trace w') w.

Lemma same_but_tnos_trans a b c : same_but_tnos a b -> same_but_tnos b c -> same_but_tnos a c.
Proof. unfold same_but_tnos. intros E1 E2. rewrite E2, E1. done. Qed.

Section life.
Context `{L4Abi, UapiEnv}.

(** The microkernel deletes threads that exist. *)
Definition threads_delete : Prop :=
  forall tr tid, env tr (ThreadControl tid L4_nilthread L4_nilthread L4_nilthread (-1)) = 1.

Definition tno (tid : Z) : Z * Z :=
  (Z.shiftr (L4_ThreadNo tid) 16, Z.land (L4_ThreadNo tid) 0xffff).

(** The thread numbers of [tids] are distinct, of the number maps, and taken. *)
Definition threads_taken (w : uapi) (tids : list Z) : Prop :=
  NoDup (tno <$> tids)
  /\ forall tid, tid ∈ tids -> 0 <= (tno tid).1 < 4 /\ ~ tno_is_free w (tno tid).1 (tno tid).2.

Lemma delete_thread_run tid w {B} (k : unit -> M uapi B) :
  threads_delete ->
  (delete_thread tid ≫= k) w
  = k tt (add_trace (ThreadControl tid L4_nilthread L4_nilthread L4_nilthread (-1)) w).
Proof.
  intros Hd. unfold delete_thread, ask. rewrite bind_bind. unfold mbind at 1, M_bind at 1.
  by rewrite Hd.
Qed.

Lemma free_threadno_same tid w w' : free_threadno tid w = Ret tt w' -> same_but_tnos w w'.
Proof.
  unfold free_threadno, tno_map, tno_count, tno_store. intros Hr. run_inv.
  unfold of_option in *. by repeat case_match; simplify_eq.
Qed.

Lemma delete_threads_run tids w :
  threads_delete -> tno_ok w -> threads_taken w tids ->
  exists w', mapM_ (fun tid => _ ← delete_thread tid; free_threadno tid) tids w = Ret tt w'
    /\ same_but_tnos w w' /\ tno_ok w'
    /\ (forall m b, 0 <= m -> tno_is_free w' m b <-> tno_is_free w m b \/ (m, b) ∈ tno <$> tids).
Proof.
  intros Hd. revert w. induction tids as [|tid tids IH]; intros w Hok [Hn Ht].
  - exists w. split_and!; [done|by destruct w|done|]. intros m b _. set_solver.
  - cbn [mapM_ fmap list_fmap]. rewrite bind_bind, (delete_thread_run _ _ _ Hd).
    set (w0 := add_trace _ w). apply NoDup_cons in Hn as [Hni Hn].
    destruct (Ht tid ltac:(by constructor)) as [Hm Hnf].
    destruct (free_threadno_spec tid w0 Hok Hm Hnf) as (w1 & E1 & Hok1 & Hf1 & Ho1).
    rewrite (bind_ret _ _ _ _ _ E1).
    assert (forall m b, 0 <= m -> tno_is_free w1 m b <-> tno_is_free w m b \/ (m, b) = tno tid) as Hf.
    { intros m b Hm0. destruct (decide ((m, b) = tno tid)) as [E|E].
      - injection E as -> ->. tauto.
      - change (tno_is_free w m b) with (tno_is_free w0 m b).
        rewrite <- Ho1; [tauto| |done]. destruct (decide (m = (tno tid).1)) as [->|]; [|by left].
        right. intros ->. apply E. symmetry. apply surjective_pairing. }
    destruct (IH w1) as (w' & E' & Hs' & Hok' & Hf'); [done| |].
    { split; [done|]. intros t Hin. destruct (Ht t ltac:(by constructor)) as [Hmt Hft].
      split; [done|]. rewrite Hf by lia. intros [?|E]; [done|]. apply Hni.
      rewrite <- E. rewrite <- surjective_pairing. by apply list_elem_of_fmap_2. }
    exists w'. split_and!; [done| |done|].
    + eapply same_but_tnos_trans; [|done]. eapply same_but_tnos_trans; [|by eapply free_threadno_same].
      by destruct w.
    + intros m b Hm0. rewrite Hf', Hf by done. rewrite elem_of_cons. tauto.
Qed.

(** *** Becoming a zombie *)

Definition released (p : process) : process :=
  set_task (fun t => set_utcb_free None (set_threads [] t)) p.

Lemma process_dtor_run p w :
  threads_delete -> tno_ok w -> utcb_area (task (proc_of w p)) <> L4_Nilpage ->
  let tids := threads (task (proc_of w p)) in
  threads_taken w tids ->
  exists maps counts tr,
    let w1 := with_tnos maps counts tr w in
    process_dtor p w
    = Ret tt (set_ra_process (ra_store p (released (proc_of w p))) w1)
    /\ tno_ok w1
    /\ (forall m b, 0 <= m -> tno_is_free w1 m b <-> tno_is_free w m b \/ (m, b) ∈ tno <$> tids).
Proof.
  intros Hd Hok Hu tids Ht.
  destruct (delete_threads_run tids w Hd Hok Ht) as (w' & E & Hs & Hok' & Hf).
  exists (tno_free_maps w'), (tno_free_counts w'), (VmErase p :: trace w').
  split; [|split; [done|exact Hf]].
  unfold process_dtor, task_common_dtor, task_get. rewrite !bind_bind, bind_gets.
  cbv beta. rewrite bind_bind. change (threads _) with tids. rewrite (bind_ret _ _ _ _ _ E).
  rewrite Hs. set (w1 := with_tnos _ _ (trace w') w). cbn [task_upd]. unfold upd.
  rewrite bind_bind, bind_modify. cbv beta. rewrite bind_bind, bind_gets. cbv beta.
  change (proc_of w1 p) with (proc_of w p). unfold task_of. rewrite proc_of_upd, decide_True by done.
  change (utcb_area (task (set_task _ _))) with (utcb_area (task (proc_of w p))).
  rewrite bind_assert. unfold L4_IsNilFpage. rewrite (proj2 (Z.eqb_neq _ _)) by done. done.
Qed.

Definition sigbit (set sig : Z) : bool := negb (Z.land set (sig_bit sig) =? 0).

(** The parent neither masks SIGCHLD nor handles it. *)
Definition chld_unhandled (p : process) : Prop :=
  sigbit (mask_set p) SIGCHLD = false
  /\ (sigbit (dfl_set p) SIGCHLD = true /\ sigbit (ign_set p) SIGCHLD = false
      /\ Z.testbit (pending_set p) SIGCHLD = false
      \/ sigbit (dfl_set p) SIGCHLD = false /\ sigbit (ign_set p) SIGCHLD = true).

Lemma sig_send_chld_noop n q w :
  chld_unhandled (proc_of w q) -> sig_send_n (S n) q SIGCHLD false w = Ret tt w.
Proof.
  unfold chld_unhandled, sigbit. intros [Hm Hc]. cbn [sig_send_n]. unfold sig_send_body.
  rewrite bind_assert. change ((1 <=? SIGCHLD) && (SIGCHLD <=? 64)) with true. cbv match.
  unfold proc at 1. rewrite bind_gets. rewrite Hm.
  destruct (negb (Z.land (bnot64 _) _ =? 0)); [|done].
  destruct Hc as [(Hd & Hi & Hp)|[Hd Hi]]; rewrite Hd.
  - rewrite bind_assert. apply negb_false_iff in Hi. rewrite Hi.
    unfold sig_default. cbn [Z.eqb orb]. unfold proc. change (_ || _) with false. cbv match.
    rewrite bind_bind, bind_gets. cbv beta.
    change (shl_ull 1 SIGCHLD : M uapi Z) with (mret (2 ^ 17) : M uapi Z).
    rewrite bind_bind, bind_mret, bind_bind, bind_assert.
    replace (Z.land (bnot64 (pending_set (proc_of w q))) (2 ^ 17) =? 0) with false; [done|].
    symmetry. apply Z.eqb_neq. intros E.
    assert (Z.testbit (Z.land (bnot64 (pending_set (proc_of w q))) (2 ^ 17)) 17 = false) as Hx
      by (by rewrite E).
    rewrite Z.land_spec, Z.pow2_bits_true in Hx by lia. unfold bnot64 in Hx.
    rewrite unot_testbit in Hx by lia. unfold SIGCHLD in Hp. by rewrite Hp in Hx.
  - apply negb_true_iff in Hi. by rewrite Hi.
Qed.

(** The dying process [p] and its parent [q] in a state where nobody waits. *)
Record may_die (w : uapi) (p q : Z) : Prop := {
  md_quiet : quiet w;
  md_tnos : tno_ok w;
  md_child : valid_process w p = Some p;
  md_parent : valid_process w q = Some q;
  md_ppid : ppid (proc_of w p) = q;
  md_ne : p <> q;
  md_threads : threads_taken w (threads (task (proc_of w p)));
  md_helper : sighelper_tid (proc_of w p) = L4_nilthread;
  md_wait_tid : wait_tid (proc_of w p) = L4_nilthread;
  md_wait_any : Z.land (flags (proc_of w q)) PF_WAIT_ANY = 0;
  md_chld : chld_unhandled (proc_of w q)
}.

Definition enlist (p : Z) (pr : process) : process := set_dead_list (dead_list pr ++ [p]) pr.

(** [p] has become a zombie of [q]; all else is as in [w]. *)
Definition zombified (p q : Z) (w w' : uapi) : Prop :=
  exists w1, same_but_tnos w w1 /\ tno_ok w'
    /\ w' = set_ra_process (ra_store q (enlist p (proc_of w q)))
              (set_ra_process (ra_store p (released (proc_of w p))) w1)
    /\ (forall m b, 0 <= m -> tno_is_free w' m b <->
         tno_is_free w m b \/ (m, b) ∈ tno <$> threads (task (proc_of w p))).

Lemma valid_process_area w p q :
  valid_process w p = Some q -> utcb_area (task (proc_of w p)) <> L4_Nilpage.
Proof.
  unfold valid_process, L4_IsNilFpage. destruct (_ || _); [done|].
  destruct (Z.eqb_spec (utcb_area (task (proc_of w p))) L4_Nilpage); done.
Qed.

Lemma zombify_run w p q :
  threads_delete -> sysmsg_tid <> L4_nilthread -> may_die w p q ->
  exists w', zombify p w = Ret tt w' /\ zombified p q w w'.
Proof.
  intros Hd Hsys [Hq Hok Hp Hpar Hpp Hne Ht Hh Hwt Hwa Hch].
  destruct (process_dtor_run p w Hd Hok (valid_process_area _ _ _ Hp) Ht)
    as (maps & counts & tr & E & Hok1 & Hf).
  set (w1 := with_tnos maps counts tr w) in *.
  set (w2 := set_ra_process (ra_store p (released (proc_of w p))) w1) in *.
  assert (proc_of w2 q = proc_of w q) as Eq.
  { unfold w2. rewrite proc_of_upd, decide_False by done. done. }
  assert (proc_of w2 p = released (proc_of w p)) as Ep.
  { unfold w2. rewrite proc_of_upd, decide_True by done. done. }
  assert (valid_process w2 q = Some q) as Hpar2.
  { unfold w2. rewrite valid_process_upd by done. exact Hpar. }
  set (bc := SysmsgBroadcast (Z.shiftl 1 MSGB_PROCESS_LIFECYCLE) 0
       [p; Z.lor MPL_EXIT (Z.shiftl (signo (proc_of w p)) 8);
        status (proc_of w p); code (proc_of w p)]).
  eexists. split.
  - unfold zombify, zombify_body, proc. rewrite bind_gets, Hh. cbn [L4_IsNilThread negb when_].
    unfold when_. change (negb (L4_IsNilThread L4_nilthread)) with false. cbv match.
    rewrite bind_mret, (bind_ret _ _ _ _ _ E), Hpp.
    rewrite (bind_ret _ _ _ _ _ (get_process_quiet w2 q Hq)), Hpar2, bind_mret.
    rewrite (bind_ret _ _ w2 tt w2) by (apply sig_send_chld_noop; by rewrite Eq).
    rewrite !bind_gets, Eq, Ep. cbn [wait_tid released set_task flags]. rewrite Hwt, Hwa.
    change (negb (L4_IsNilThread L4_nilthread)) with false. cbn [negb Z.eqb].
    rewrite bind_mret, bind_assert. unfold L4_IsNilThread at 1.
    rewrite (proj2 (Z.eqb_neq _ _)) by done. cbn [negb].
    rewrite (bind_ret (ask bc) _ w2 (env (trace w2) bc) (add_trace bc w2)) by done.
    change (negb (L4_IsNilThread L4_nilthread)) with false. cbv match. reflexivity.
  - exists (with_tnos maps counts (bc :: tr) w). split_and!; [done|done| |exact Hf].
    change (proc_of (add_trace bc w2) q) with (proc_of w2 q). rewrite Eq. done.
Qed.

(** When a process exits and nobody is waiting for it, [uapi_exit] deletes
    its threads, returns exactly their thread numbers, records the low 16 bits
    of the exit status, puts the process at the end of its parent's list of
    zombies, changes nothing else, and sends no reply. *)
Theorem exit_leaves_zombie w p q st :
  threads_delete -> sysmsg_tid <> L4_nilthread -> caller w = p -> may_die w p q ->
  exists w', uapi_exit st w = Ret tt (set_no_reply true w')
    /\ zombified p q (set_ra_process (ra_store p
           (set_exit 0 (s16 st) CLD_EXITED (proc_of w p))) w) w'.
Proof.
  intros Hd Hsys Hc Hm. pose proof Hm as [Hq Hok Hp Hpar Hpp Hne Ht Hh Hwt Hwa Hch].
  set (w0 := set_ra_process _ w).
  assert (proc_of w0 q = proc_of w q) as Eq.
  { unfold w0. by rewrite proc_of_upd, decide_False. }
  assert (proc_of w0 p = set_exit 0 (s16 st) CLD_EXITED (proc_of w p)) as Ep.
  { unfold w0. by rewrite proc_of_upd, decide_True. }
  destruct (zombify_run w0 p q Hd Hsys) as (w' & E & Hz).
  { split; rewrite ?Ep, ?Eq; try done; unfold w0; by rewrite valid_process_upd. }
  exists w'. split; [|done]. unfold uapi_exit, sender_pid. rewrite bind_gets.
  fold (caller w). rewrite Hc. destruct (valid_process_user _ _ _ Hp) as [_ ->].
  rewrite bind_bind, (bind_ret _ _ _ _ _ (get_process_quiet w p Hq)), Hp.
  unfold upd. rewrite bind_bind, bind_modify. fold w0. by rewrite (bind_ret _ _ _ _ _ E).
Qed.

(** *** Reaping *)

(** No handler of either kind is pending. *)
Definition idle (w : uapi) : Prop :=
  forall ctx, uapi_rb w = Some ctx -> rb_c ctx = None /\ rb_r ctx = None.

Lemma idle_quiet w : idle w -> quiet w.
Proof. intros Hi ctx Hc. by destruct (Hi ctx Hc). Qed.

(** The first zombie of the calling process [q] is [d]. *)
Record has_zombie (w : uapi) (q d : Z) (rest : list Z) : Prop := {
  hz_caller : caller w = q;
  hz_parent : valid_process w q = Some q;
  hz_zombie : valid_process w d = Some d;
  hz_ppid : ppid (proc_of w d) = q;
  hz_ne : d <> q;
  hz_list : dead_list (proc_of w q) = d :: rest
}.

Definition wait_answer (w : uapi) (d : Z) : Z * list Z :=
  (0, [d; 0; signo (proc_of w d); status (proc_of w d); code (proc_of w d)]).

(** [w] with the destruction of [d] left to the confirmation of this call. *)
Definition reap_pending (d q : Z) (w : uapi) : uapi :=
  set_uapi_rb (RbCtx (cur_sender w) (cur_tag w) None (Some (HDestroyProcess d q))) w.

Lemma uapi_wait_zombie w q d rest id opts :
  idle w -> has_zombie w q d rest ->
  uapi_wait P_ALL id opts w = Ret (wait_answer w d) (reap_pending d q w).
Proof.
  intros Hi [Hc Hq Hd Hpp Hne Hl]. unfold uapi_wait, sender_pid. rewrite bind_gets.
  fold (caller w). rewrite Hc. destruct (valid_process_user _ _ _ Hq) as [_ ->].
  rewrite (bind_ret _ _ _ _ _ (get_process_quiet w q (idle_quiet w Hi))), Hq.
  change (P_ALL =? P_PID) with false. change (P_ALL =? P_ALL) with true. cbv match zeta.
  unfold proc. rewrite bind_bind, bind_of_some, bind_bind, bind_gets. cbv beta. rewrite Hl.
  cbn [head]. rewrite bind_bind, bind_gets. cbv beta.
  rewrite bind_bind, bind_assert, Hpp, Z.eqb_refl, bind_mret.
  rewrite bind_gets, bind_of_some.
  rewrite (bind_ret (set_confirm _) _ w tt (reap_pending d q w)); [done|].
  unfold set_confirm, get_ctx. rewrite bind_bind, bind_gets. cbv beta.
  unfold idle in Hi. change (host_ctx w) with (uapi_rb w).
  destruct (uapi_rb w) as [ctx|].
  - rewrite bind_mret, !bind_gets. destruct (Hi ctx eq_refl) as [_ ->]. done.
  - unfold put_ctx. rewrite bind_bind, bind_modify, bind_mret, !bind_gets. by destruct w.
Qed.

Lemma call_destroy_run w q d rest :
  quiet w -> has_zombie w q d rest ->
  exists w', call_destroy_process d q w = Ret tt w'
    /\ valid_process w' d = None /\ ~ pid_used w' d
    /\ dead_list (proc_of w' q) = filter (fun x => x <> d) rest
    /\ forall r, r <> d -> r <> q -> proc_of w' r = proc_of w r.
Proof.
  intros Hqu [Hc Hq Hd Hpp Hne Hl]. unfold call_destroy_process, proc.
  rewrite bind_gets, Hl, bool_decide_eq_true_2, bind_assert by constructor.
  unfold upd. rewrite bind_modify. set (w1 := set_ra_process _ w).
  unfold destroy_process_core, proc. rewrite bind_bind, bind_gets. cbv beta.
  rewrite bind_bind, bind_modify. cbv beta. unfold upd. rewrite bind_bind, bind_modify. cbv beta.
  rewrite bind_modify. set (w2 := set_ra_process (ra_free d) _). rewrite bind_get.
  assert (forall r, proc_of w2 r = if decide (r = d) then set_task (set_utcb_area L4_Nilpage) (proc_of w1 d)
                                   else proc_of w1 r) as Hpo.
  { intros r. unfold w2. change (proc_of (set_ra_process (ra_free d) ?x) r) with (proc_of x r).
    by rewrite proc_of_upd. }
  assert (valid_process w2 d = None) as Hv.
  { unfold valid_process. destruct (_ || _); [done|]. rewrite Hpo, decide_True by done. done. }
  exists w2. split; [unfold assert_; by rewrite Hv|]. split; [done|]. split_and!.
  - unfold pid_used, w2. cbn. set_solver.
  - rewrite Hpo, decide_False by done. unfold w1. rewrite proc_of_upd, decide_True by done.
    cbn [dead_list set_dead_list]. rewrite filter_cons_False by (intros Hx; by apply Hx). done.
  - intros r Hr1 Hr2. rewrite Hpo, decide_False by done. unfold w1.
    by rewrite proc_of_upd, decide_False.
Qed.

(** C35: waiting for any child reports the first zombie and leaves its removal
    to the confirmation of the reply.  If the reply is lost, rolling back makes
    the same call give the same answer again; once the reply is confirmed the
    zombie is gone from its parent's list and its PID is unused, and no other
    process is affected. *)
Theorem wait_reaps_once IS_ERR w q d rest id opts :
  idle w -> has_zombie w q d rest ->
  exists w1, uapi_wait P_ALL id opts w = Ret (wait_answer w d) w1
    /\ (forall st, IS_ERR st = true -> Z.odd st = false ->
         exists w2 w3, check_rollback IS_ERR st w1 = Ret false w2
           /\ uapi_wait P_ALL id opts w2 = Ret (wait_answer w d) w3)
    /\ exists w2, sync_confirm w1 = Ret tt w2
         /\ valid_process w2 d = None /\ ~ pid_used w2 d
         /\ dead_list (proc_of w2 q) = filter (fun x => x <> d) rest
         /\ forall r, r <> d -> r <> q -> proc_of w2 r = proc_of w r.
Proof.
  intros Hi Hz. exists (reap_pending d q w). split; [by eapply uapi_wait_zombie|]. split.
  - intros st He Ho. unfold check_rollback. rewrite He. cbn [negb]. rewrite bind_gets, Ho.
    set (w1 := reap_pending d q w).
    change (host_ctx w1) with (Some (RbCtx (cur_sender w) (cur_tag w) None
      (Some (HDestroyProcess d q)))). cbv match.
    rewrite bind_bind, bind_gets. cbv beta. rewrite bind_bind, bind_gets. cbv beta.
    change (muidl_get_tag w1) with (cur_tag w). change (muidl_get_sender w1) with (cur_sender w).
    cbn [rb_tag rb_sender rb_r]. rewrite !Z.eqb_refl. cbn [andb].
    eexists _, _. split; [reflexivity|].
    change (wait_answer w d) with (wait_answer (set_uapi_rb
      (RbCtx (cur_sender w) (cur_tag w) None None) w) d).
    eapply uapi_wait_zombie; [|by destruct Hz; split].
    by intros ctx [= <-].
  - destruct (call_destroy_run (set_uapi_rb (RbCtx (cur_sender w) (cur_tag w) None None) w)
      q d rest) as (w2 & E & Hw); [by intros ctx [= <-]|by destruct Hz; split|].
    exists w2. split; [exact E | exact Hw].
Qed.
End life.

(** ** Witnesses: process 2, with one thread, exits and is waited for by process 1 *)

Definition demo_burned : bitmap :=
  foldl bitmap_clear_bit (bitmap_alloc1 TNOS_PER_BITMAP) (seqZ 0 512).

Definition demo3 : uapi :=
  let w := set_message (demo_tid 2) 0
    (demo_world [(1, demo_process 0 0);
                 (2, set_task (fun t => set_threads [demo_tid 2] t) (demo_process 1 1000))]) in
  set_tnos (<[0%nat := bitmap_clear_bit demo_burned 600]> (tno_free_maps w))
           (<[0%nat := 2 ^ 16 - 512 - 1]> (tno_free_counts w)) w.

Lemma demo3_may_die : @may_die l4_x2_32 demo3 2 1.
Proof.
  assert (tno_map_ok demo_burned (2 ^ 16 - 512)) as Hb.
  { destruct uapi_init_tno_ok as [_ Hf]. by inversion Hf. }
  split; try done.
  - apply (tno_ok_store (set_message (demo_tid 2) 0 (demo_world _)) 0);
      [exact uapi_init_tno_ok|].
    apply tno_map_ok_clear; [done|unfold TNOS_PER_BITMAP; lia|].
    apply bool_decide_eq_true. unfold demo_burned. rewrite uapi_init_burned.
    intros Hi%elem_of_list_to_set%elem_of_seqZ. lia.
  - split; [apply NoDup_singleton|]. intros tid ->%list_elem_of_singleton.
    split; [by vm_compute|]. change (@tno l4_x2_32 (demo_tid 2)).1 with (Z.of_nat 0).
    change (@tno l4_x2_32 (demo_tid 2)).2 with 600. by apply not_free_cleared.
  - split; [done|]. left. done.
Qed.

Lemma exit_leaves_zombie_witness :
  exists w', @uapi_exit l4_x2_32 demo_env 0x10007 demo3 = Ret tt (set_no_reply true w')
    /\ dead_list (proc_of w' 1) = [2] /\ status (proc_of w' 2) = 7.
Proof.
  destruct (@exit_leaves_zombie l4_x2_32 demo_env demo3 2 1 0x10007) as (w' & E & Hz).
  - done.
  - discriminate.
  - reflexivity.
  - exact demo3_may_die.
  - exists w'. split; [exact E|]. destruct Hz as (w1 & _ & _ & -> & _).
    rewrite !proc_of_upd. split; reflexivity.
Defined.

Definition demo4 : uapi :=
  set_message (demo_tid 1) 0
    (demo_world [(1, enlist 2 (demo_process 0 0));
                 (2, set_exit 0 7 CLD_EXITED (demo_process 1 1000))]).

Lemma wait_reaps_once_witness :
  exists w1, @uapi_wait l4_x2_32 demo_env P_ALL 0 0 demo4 = Ret (0, [2; 0; 0; 7; 1]) w1
    /\ exists w2, sync_confirm (H := uapi_handler) w1
                  = Ret tt w2 /\ ~ pid_used w2 2.
Proof.
  destruct (@wait_reaps_once l4_x2_32 demo_env (fun _ => true) demo4 1 2 [] 0 0)
    as (w1 & E & _ & w2 & E2 & _ & Hu & _).
  - done.
  - by split.
  - exists w1. split; [exact E|]. exists w2. by split.
Defined.
