(* ===== verification/UapiExec.v ===== *)
(** Program start in root/uapi.c: spawn, exec and what they share. *)
From S2P Require Import Prelude L4 HashUtil Rollback Containers UapiState UapiThreads ProgImage UapiProc UapiOps.

(** What the files of the running system contain and where they are; the
    generator of AT_RANDOM; the KIP area's size as a power of two. *)
Class ExecEnv := {
  file_data : Z -> Z -> list Z;          (* server, handle *)
  file_path : Z -> Z -> list Z;          (* what Path::get_path writes, without a leading slash *)
  rand_bytes : list Z;
  kip_log2 : Z;
  uninit : Z                             (* bytes of memory nothing was written to *)
}.

Definition SLASH : Z := 47.
Definition MAP_PRIVATE_FIXED : Z := 0x12.          (* MAP_FILE is zero *)
Definition MAP_ANON_PRIVATE_FIXED : Z := 0x32.
Definition BIN_SH : list Z := [47; 98; 105; 110; 47; 115; 104].

Definition isspace (c : Z) : bool := (c =? 32) || ((9 <=? c) && (c <=? 13)).
Fixpoint skip_spaces (l : list Z) : list Z :=
  match l with [] => [] | c :: l' => if isspace c then skip_spaces l' else l end.

(** A C string in an array: the bytes before the first zero. *)
Fixpoint cstr (l : list Z) : list Z :=
  match l with [] => [] | c :: l => if c =? 0 then [] else c :: cstr l end.

(** fgets() into 200 bytes: up to 199 of them, through the first newline. *)
Fixpoint fgets (room : nat) (l : list Z) : list Z :=
  match room, l with
  | S room, c :: l => if c =? 10 then [c] else c :: fgets room l
  | _, _ => []
  end.

Fixpoint span_name (l : list Z) : nat :=
  match l with
  | [] => 0
  | c :: l => if (c =? 32) || (c =? 9) || (c =? 13) || (c =? 10) then 0 else S (span_name l)
  end.
(** strrchr(l, '/'), which does not find the first byte. *)
Fixpoint last_slash (l : list Z) (i : nat) (found : option nat) : option nat :=
  match l with
  | [] => found
  | c :: l => last_slash l (S i) (if (c =? SLASH) && negb (i =? 0)%nat then Some i else found)
  end.

(** The interpreter line, after the "#!": the strings put in front of the
    arguments, and the interpreter to open.  [parts] of the source holds pointers
    into one buffer, which is cut at the end of the name after they were taken. *)
Definition hashbang (line : list Z) : list (list Z) * list Z :=
  let i_name := skip_spaces (cstr line) in
  let namelen := span_name i_name in
  let name := take namelen i_name in
  let absolute := match i_name with c :: _ => c =? SLASH | [] => false end in
  let cmdname := match last_slash i_name 0 None with
                 | None => name
                 | Some k => if (S k <=? namelen)%nat then drop (S k) name else drop (S k) i_name
                 end in
  let rest := skip_spaces (drop (S namelen) i_name) in
  ((if absolute then [] else [BIN_SH; [45; 99]; name; cmdname])
     ++ (match rest with [] => [] | _ => [rest] end),
   if absolute then name else BIN_SH).

Section exec.
Context `{L4Abi, UapiEnv, ExecEnv}.

Definition of_outcome {A} (o : outcome A) : M uapi (Z + A) :=
  match o with Good a => mret (inr a) | Err e => mret (inl e) | Crash r => halt r end.

(** Errors of the servers: positive values are IPC failures. *)
Definition errno_of (n : Z) : Z := if n <? 0 then n else - EIO.

Definition fclose (f : Z * Z) : M uapi unit := _ ← ask (IoClose f.1 f.2); mret tt.

Definition read_elf_file (f : Z * Z) : M uapi (Z + program_image) :=
  let data := file_data f.1 f.2 in
  if negb (elf_header_ok data) then mret (inl (- ENOEXEC))
  else
    mem ← ask AllocMem;
    if mem =? 0 then mret (inl (- ENOMEM)) else of_outcome (read_elf data).

(** Returns the arguments and the file to go on with, and the image or an error;
    the first two are changed also when an error follows. *)
Definition binfmt_switch (args : list Z) (f : Z * Z)
  : M uapi (list Z * (Z * Z) * (Z + program_image)) :=
  match file_data f.1 f.2 with
  | a :: b :: content =>
      if negb ((a =? 35) && (b =? 33)) then
        img ← read_elf_file f; mret (args, f, img)
      else match fgets 199 content with
      | [] => mret (args, f, inl (- ENOEXEC))
      | line =>
          let '(parts, interp) := hashbang line in
          mem ← ask AllocMem;
          if mem =? 0 then mret (args, f, inl (- ENOMEM))
          else
            n ← ask (PathGetPath f.1 f.2);
            if negb (n =? 0) then mret (args, f, inl (errno_of n))
            else
              let args := concat (map (fun s => s ++ [RECSEP]) parts)
                          ++ [SLASH] ++ file_path f.1 f.2 ++ [RECSEP] ++ args in
              serv ← ask (Fopen interp);
              if serv =? 0 then mret (args, f, inl (- ENOENT))
              else
                fd ← ask FopenHandle;
                _ ← fclose f;
                img ← read_elf_file (serv, fd);
                mret (args, (serv, fd), img)
      end
  | _ => mret (args, f, inl (- ENOEXEC))
  end.

Fixpoint load_segs (f : Z * Z) (p : Z) (l : list loadseg) : M uapi Z :=
  match l with
  | [] => mret 0
  | seg :: l =>
      n ← (if anonymous seg then
             ask (VmMmap p (virt_addr seg) (memsz seg) (prot seg) MAP_ANON_PRIVATE_FIXED 0 0 0)
           else
             n ← ask (IoDupTo f.1 f.2 (pidof vm_tid));
             if negb (n =? 0) then mret n
             else
               vmh ← ask IoDupHandle;
               _ ← assert_ (0 <? vmh);
               n ← ask (VmMmap p (virt_addr seg) (filesz seg) (prot seg) MAP_PRIVATE_FIXED
                          f.1 vmh (fileoff seg));
               _ ← (if negb (n =? 0) then fclose (f.1, vmh) else mret tt);
               mret n);
      if negb (n =? 0) then mret (errno_of n) else load_segs f p l
  end.
Definition load_program (p : Z) (img : program_image) (f : Z * Z) : M uapi Z :=
  load_segs f p (segs img).

(** Returns the top of the stack and the image with its [hi] adjusted. *)
Definition configure (p : Z) (img : program_image) : M uapi (Z + Z * program_image) :=
  areas ← of_outcome (place_areas (2 ^ kip_log2) (lo img) (hi img));
  match areas with
  | inl e => mret (inl e)
  | inr (ua, kip) =>
      let utcb_area := L4_FpageLog2 ua UA_SHIFT in
      let kip_area := L4_FpageLog2 kip kip_log2 in
      _ ← upd p (set_task (fun t => set_threads [] (set_areas kip_area utcb_area t)));
      b ← alloc_utcb_bitmap utcb_area;
      _ ← upd p (set_task (set_utcb_free b));
      match b with
      | None => mret (inl (- ENOMEM))
      | Some _ =>
          n ← ask (VmConfigure p utcb_area kip_area);
          if negb (n =? 0) then mret (inl (errno_of n))
          else
            resvhi ← ask VmConfigureResv;
            _ ← assert_ (resvhi <=? 2 ^ 31 - 1);
            _ ← assert_ (Z.land (hi img) PAGE_MASK =? 0);
            let stktop := Z.min (lo img) (Z.min (L4_Address utcb_area) (L4_Address kip_area)) in
            _ ← assert_ (STKRESV <=? stktop);
            mret (inr (stktop, ProgramImage (Z.max (u32 (resvhi + 1)) (hi img)) (lo img)
                                 (start img) (segs img)))
      end
  end.

(** *** File descriptor lists *)

Definition LIM_PER_PAGE : nat := 341.               (* (PAGE_SIZE - 4) / 12 *)

Definition fd_words (l : list (Z * Z * Z)) : list Z :=
  concat (map (fun e => [Z.land e.2 (Z.lor 0xffff FF_CWD); e.1.1; e.1.2]) l).

(** The pages of the list, the next page's words written over the last's. *)
Fixpoint fdlist_pages (fuel : nat) (image : list Z) (l : list (Z * Z * Z)) : list (list Z) :=
  match l, fuel with
  | [], _ | _, O => []
  | _, S fuel =>
      let now := take LIM_PER_PAGE l in
      let words := Z.of_nat (length now) :: fd_words now in
      let image := words ++ drop (length words) image in
      image :: fdlist_pages fuel image (drop LIM_PER_PAGE l)
  end.

Fixpoint upload_pages (p sp : Z) (i : Z) (pages : list (list Z)) : M uapi Z :=
  match pages with
  | [] => mret 0
  | image :: pages =>
      n ← ask (VmUploadPage p (page_round (u32 (sp - PAGE_SIZE * (2 + i))))
                 (concat (map le_word image)));
      if negb (n =? 0) then mret n else upload_pages p sp (i + 1) pages
  end.

(** [l] holds server, handle and descriptor with its flags. *)
Definition upload_fdlist (p sp : Z) (l : list (Z * Z * Z)) : M uapi Z :=
  mem ← ask AllocMem;
  if mem =? 0 then mret (- ENOMEM)
  else
    n ← upload_pages p sp 0 (fdlist_pages (length l) (replicate 1024 0) l);
    mret (if 0 <? n then - EIO else n).

(** *** The startup stack and the first thread *)

Fixpoint allocs (n : nat) : M uapi bool :=
  match n with
  | O => mret true
  | S n => m ← ask AllocMem; if m =? 0 then mret false else allocs n
  end.

(** [execfn] is in the server's memory, at the address 2 of the model, the random
    bytes at 1. *)
Definition upload_stack (p sp : Z) (args envs execfn : list Z) : M uapi (Z + Z) :=
  pr ← proc p;
  let rlim := (nth 0 (drop 3 (limits pr)) (0, 0)).1 in
  let mem a := if a =? 1 then rand_bytes else execfn in
  match upload_startup_stack mem uninit rlim sp args envs
          (exec_auxargs (real_uid pr) (eff_uid pr) 1 2) with
  | Crash r => halt r
  | Err e => mret (inl e)
  | Good (image, addr, sp') =>
      ok ← allocs 5;
      if negb ok then mret (inl (- ENOMEM))
      else
        n ← ask (VmUploadPage p addr image);
        if negb (n =? 0) then mret (inl (errno_of n)) else mret (inr sp')
  end.

Definition launch_process (p : Z) (img : program_image) (argpos : Z) : M uapi Z :=
  '(tid, utcb) ← allocate_thread p;
  if L4_IsNilThread tid then mret (- ENOMEM)
  else
    pr ← proc p;
    n ← make_space tid (kip_area (task pr)) (utcb_area (task pr));
    if n <? 0 then mret n
    else
      res ← ask (ThreadControl tid tid my_global vm_tid utcb);
      if negb (res =? 1) then halt StAbort
      else
        n ← ask (VmBreathOfLife tid argpos (start img));
        st ← ask VmBreathStatus;
        if (n <? 0) || negb (st =? 0) then halt StAbort else mret 0.

Definition notify_exec (pid : Z) : M uapi Z :=
  _ ← assert_ (negb (L4_IsNilThread sysmsg_tid));
  n ← ask (SysmsgBroadcast (Z.shiftl 1 MSGB_PROCESS_LIFECYCLE) 0 [pid; MPL_EXEC]);
  mret (if n <=? 0 then n else - EIO).

(** What spawn and exec share: from the loaded file to the startup stack. *)
Definition build_process (p : Z) (img : program_image) (f : Z * Z) (args envs execfn : list Z)
    (fds : list (Z * Z * Z)) : M uapi (Z + Z * program_image) :=
  n ← load_program p img f;
  if negb (n =? 0) then mret (inl n)
  else
    r ← configure p img;
    match r with
    | inl e => mret (inl e)
    | inr (sp, img) =>
        r ← upload_stack p sp args envs execfn;
        match r with
        | inl e => mret (inl e)
        | inr sp =>
            n ← (match fds with [] => mret 0 | _ => upload_fdlist p sp fds end);
            mret (if negb (n =? 0) then inl n else inr (sp, img))
        end
    end.

Definition base_name (l : list Z) : list Z :=
  match last_slash l 0 None with Some k => drop (S k) l | None => l end.

(** *** spawn, exec *)

Definition spawn_fail (p n : Z) : M uapi Z :=
  _ ← upd p (set_task (set_utcb_area L4_Nilpage));
  _ ← modify (set_ra_process (ra_free p));
  mret (errno_of n).

(** The credentials and the parent of a spawned process; false for a parent that
    is not there. *)
Definition spawn_inherit (caller p : Z) : M uapi bool :=
  if IS_SYSTASK caller then
    _ ← upd p (fun x => set_ppid 0 (set_uids 0 0 0 x)); mret true
  else
    parent ← get_process caller;
    match parent with
    | None => mret false
    | Some q =>
        pa ← proc q;
        _ ← upd p (fun x => set_ppid caller (set_uids (real_uid pa) (eff_uid pa) (saved_uid x) x));
        mret true
    end.

Definition uapi_spawn (filename argbuf envbuf : list Z) (fds : list (Z * Z * Z)) : M uapi Z :=
  _ ← assert_ (negb (L4_IsNilThread vm_tid));
  serv ← ask (Fopen filename);
  if serv =? 0 then mret (- ENOENT)
  else
    fd ← ask FopenHandle;
    caller ← sender_pid;
    r ← binfmt_switch argbuf (serv, fd);
    match r with
    | (_, f, inl n) => _ ← fclose f; mret n
    | (args, f, inr img) =>
        np ← alloc_process;
        match np with
        | None => mret (- ENOMEM)
        | Some p =>
            _ ← assert_ ((0 <? p) && (p <=? SNEKS_MAX_PID));
            ok ← spawn_inherit caller p;
            if negb ok then spawn_fail p (- EINVAL)
            else
              n ← ask (VmFork 0 p);
              if negb (n =? 0) then spawn_fail p n
              else
                r ← build_process p img f args envbuf (base_name filename) fds;
                _ ← fclose f;
                match r with
                | inl n => spawn_fail p n
                | inr (sp, img) =>
                    n ← launch_process p img sp;
                    if n <? 0 then spawn_fail p n else mret p
                end
        end
    end.

Definition S_IFREG : Z := 0x8000.
Definition S_IFMT : Z := 0xf000.

(** An error, or nothing: the file is then the handle itself. *)
Definition accept_exec_file (serv ffd : Z) : M uapi Z :=
  n ← ask (IoTouch serv ffd);
  if negb (n =? 0) then mret (if n <? 0 then n else - EBADF)
  else
    let fail n := (_ ← ask (IoClose serv ffd); mret (errno_of n)) in
    mode ← ask (PathStatMode serv ffd);
    if mode <? 0 then fail mode
    else if negb (Z.land mode S_IFMT =? S_IFREG) || (Z.land mode 0x49 =? 0) then fail (- EACCES)
    else
      n ← ask (OpenHandle serv ffd);
      if negb (n =? 0) then fail n else mret 0.

(** The first argument, which the auxiliary vector's AT_EXECFN is taken from. *)
Definition first_arg (argbuf : list Z) : list Z := take (seg_len argbuf).1 argbuf.

Definition uapi_exec (serv ffd : Z) (argbuf envbuf : list Z) (fds : list (Z * Z * Z)) : M uapi Z :=
  _ ← assert_ (negb (L4_IsNilThread vm_tid));
  caller ← sender_pid;
  if IS_SYSTASK caller then mret (- EINVAL)
  else
    p ← get_process caller;
    p ← of_option StAbort p;
    n ← accept_exec_file serv ffd;
    if n <? 0 then mret n
    else
      r ← binfmt_switch argbuf (serv, ffd);
      match r with
      | (_, f, inl n) => _ ← fclose f; mret n
      | (args, f, inr img) =>
          _ ← process_dtor p;
          _ ← muidl_raise_no_reply;
          n ← ask (VmFork 0 caller);
          if negb (n =? 0) then _ ← fclose f; mret 0
          else
            r ← build_process p img f args envbuf (base_name (first_arg argbuf)) fds;
            _ ← fclose f;
            match r with
            | inl _ => mret 0
            | inr (sp, img) =>
                n ← notify_exec caller;
                n ← (if n =? 0 then launch_process p img sp else mret n);
                mret 0
            end
      end.

(** *** The rest of the server *)

(** The thread list of system tasks, for tests: at most 63 IDs, from the task
    [min_pid] on, of which the first [skip] are left out. *)
Fixpoint collect_tids (tids : list Z) (next_skip skip : Z) (out : list Z) : Z * list Z :=
  match tids with
  | [] => (next_skip, out)
  | t :: tids =>
      if (length out <? 63)%nat then
        if 0 <? skip then collect_tids tids (next_skip - 1) (skip - 1) out
        else collect_tids tids (next_skip - 1) (skip - 1) (out ++ [t])
      else (next_skip, out)
  end.
Fixpoint scan_systasks (w : uapi) (ids : list Z) (min_pid next_skip skip : Z) (out : list Z)
  : Z * list Z :=
  match ids with
  | [] => (next_skip, out)
  | id :: ids =>
      if (length out <? 63)%nat then
        if SNEKS_MIN_SYSID + id <? min_pid then scan_systasks w ids min_pid next_skip skip out
        else
          let tids := threads (st_of w id) in
          let '(next_skip, out) := collect_tids tids (Z.of_nat (length tids)) skip out in
          scan_systasks w ids min_pid next_skip 0 out
      else (next_skip, out)
  end.
Definition uapi_get_systask_threads (min_pid skip : Z) : M uapi (Z * list Z) :=
  gets (fun w => scan_systasks w
    (filter (fun i => i ∈ ra_used (ra_systask w)) (seqZ 0 NUM_SYSTASK_IDS)) min_pid 0 skip []).

(** [slot] is that of the service thread's own UTCB in the root task's area. *)
Definition reserve_utcb_for_uapi (slot : Z) : M uapi unit :=
  root ← get_systask (pidof my_global);
  root ← of_option StFault root;
  tc ← st_get root;
  free ← of_option StFault (utcb_free tc);
  _ ← assert_ (bitmap_test_bit free slot);
  st_upd root (set_utcb_free (Some (bitmap_clear_bit free slot))).

(** One turn of the service loop, around the generated dispatcher. *)
Definition uapi_loop_turn (MUIDL_IS_L4_ERROR : Z -> bool) (dispatch : M uapi Z) : M uapi unit :=
  st ← dispatch;
  _ ← check_rollback MUIDL_IS_L4_ERROR st;
  mret tt.
End exec.
