(* ===== verification/UapiExecProps.v ===== *)
(** What exec and spawn promise: when the old program is given up, and whose
    credentials the new one has. *)
From S2P Require Import Prelude L4 HashUtil Rollback Containers UapiState UapiThreads ProgImage UapiProc UapiOps UapiExec.
From S2P Require Import UapiThreadProps UapiOpsProps ProgImageProps.

(** *** Operations that only call out *)

(** [w'] is [w] after some calls whose effect is elsewhere. *)
Definition later (w w' : uapi) : Prop := exists cs, w' = foldr add_trace w cs.

Definition calls_only {A} (m : M uapi A) : Prop := forall w a w', m w = Ret a w' -> later w w'.

Lemma calls_only_bind {A B} (m : M uapi A) (k : A -> M uapi B) :
  calls_only m -> (forall a, calls_only (k a)) -> calls_only (m ≫= k).
Proof.
  intros Hm Hk w b w' (a & w1 & H1 & H2)%bind_ret_inv.
  destruct (Hm _ _ _ H1) as [cs ->]. destruct (Hk _ _ _ _ H2) as [ds ->].
  exists (ds ++ cs). by rewrite foldr_app.
Qed.

Lemma calls_only_same {A} (m : M uapi A) :
  (forall w a w', m w = Ret a w' -> w' = w) -> calls_only m.
Proof. intros H w a w' E. exists []. exact (H _ _ _ E). Qed.

Lemma calls_only_ret {A} (a : A) : calls_only (mret a).
Proof. apply calls_only_same. by intros ? ? ? [_ ->]%mret_inv. Qed.
Lemma calls_only_halt {A} r : calls_only (halt r : M uapi A).
Proof. by intros ? ? ?. Qed.
Lemma calls_only_assert b : calls_only (assert_ b : M uapi unit).
Proof. apply calls_only_same. by intros ? ? ? [_ ->]%assert_inv. Qed.
Lemma calls_only_gets {A} (f : uapi -> A) : calls_only (gets f).
Proof. apply calls_only_same. by intros ? ? ? [= _ <-]. Qed.
Lemma calls_only_if {A} (b : bool) (m1 m2 : M uapi A) :
  calls_only m1 -> calls_only m2 -> calls_only (if b then m1 else m2).
Proof. by destruct b. Qed.

Create HintDb calls discriminated.
#[export] Hint Resolve calls_only_bind calls_only_ret calls_only_halt calls_only_assert
  calls_only_gets calls_only_if : calls.

Section exec_props.
Context `{L4Abi, UapiEnv, ExecEnv}.

Lemma calls_only_ask c : calls_only (ask c).
Proof. intros w a w' [= _ <-]. by exists [c]. Qed.
Hint Resolve calls_only_ask : calls.

Lemma calls_only_outcome {A} (o : outcome A) : calls_only (of_outcome o).
Proof. destruct o; cbn [of_outcome]; eauto with calls. Qed.
Hint Resolve calls_only_outcome : calls.

Lemma calls_only_fclose f : calls_only (fclose f).
Proof. unfold fclose. eauto with calls. Qed.
Hint Resolve calls_only_fclose : calls.

Lemma calls_only_read_elf_file f : calls_only (read_elf_file f).
Proof. unfold read_elf_file. cbv zeta. eauto 10 with calls. Qed.
Hint Resolve calls_only_read_elf_file : calls.

Lemma calls_only_binfmt_switch args f : calls_only (binfmt_switch args f).
Proof.
  unfold binfmt_switch. destruct (file_data f.1 f.2) as [|a [|b content]]; [eauto with calls..|].
  apply calls_only_if; [eauto with calls|]. destruct (fgets 199 content); [eauto with calls|].
  destruct (hashbang _) as [parts interp]. eauto 20 with calls.
Qed.

Lemma calls_only_accept serv ffd : calls_only (accept_exec_file serv ffd).
Proof. unfold accept_exec_file. eauto 20 with calls. Qed.

(** *** Invariants of the operations that build a process *)

(** A property of the server's state that does not concern the thread number
    pool, the memory areas and threads of tasks and the calls made; in its states
    no confirm handler is pending. *)
Record stable (I : uapi -> Prop) : Prop := {
  stable_quiet w : I w -> quiet w;
  stable_trace c w : I w -> I (add_trace c w);
  stable_tnos a b w : I w -> I (set_tnos a b w);
  stable_systask f w : I w -> I (set_ra_systask f w);
  stable_task q g w : I w -> I (set_ra_process (ra_store q (set_task g (proc_of w q))) w)
}.

Section stable.
Context (I : uapi -> Prop) (HI : stable I).

Lemma stable_ask c : preserves I (ask c).
Proof. intros w a w' Hw [= _ <-]. by apply HI. Qed.
Hint Resolve stable_ask : preserves.

Lemma stable_task_upd t f : preserves I (task_upd t f).
Proof.
  destruct t; apply preserves_modify; intros w Hw; [by apply HI|].
  by apply stable_systask.
Qed.
Hint Resolve stable_task_upd : preserves.

Lemma stable_get_process pid : preserves I (get_process pid).
Proof.
  intros w a w' Hw E. rewrite get_process_quiet in E by (by apply (stable_quiet I HI)).
  by injection E as _ <-.
Qed.

Lemma stable_get_task pid : preserves I (get_task pid).
Proof.
  unfold get_task. apply preserves_if.
  - apply preserves_bind; [|eauto with preserves]. unfold get_systask. cbv zeta.
    apply preserves_if; [eauto with preserves|]. apply preserves_bind; [|eauto with preserves].
    intros w a w' Hw E. rewrite sync_confirm_quiet in E by (by apply (stable_quiet I HI)).
    by injection E as _ <-.
  - apply preserves_bind; [apply stable_get_process|eauto with preserves].
Qed.
Hint Resolve stable_get_process stable_get_task : preserves.

Lemma stable_tno_store i b n : preserves I (tno_store i b n).
Proof. apply preserves_modify. intros w Hw. by apply HI. Qed.
Hint Resolve stable_tno_store : preserves.

Lemma stable_tno_map i : preserves I (tno_map i).
Proof. unfold tno_map. eauto with preserves. Qed.
Lemma stable_tno_count i : preserves I (tno_count i).
Proof. unfold tno_count. eauto with preserves. Qed.
Lemma stable_task_get t : preserves I (task_get t).
Proof. unfold task_get. eauto with preserves. Qed.
Lemma stable_proc p : preserves I (proc p).
Proof. unfold proc. eauto with preserves. Qed.
Hint Resolve stable_tno_map stable_tno_count stable_task_get stable_proc : preserves.

Ltac pres := repeat first
  [ apply preserves_bind; [solve [eauto 3 with preserves]|intros ?]
  | apply preserves_if
  | case_match
  | solve [eauto 4 with preserves] ].

Lemma stable_allocate_thread p : preserves I (allocate_thread p).
Proof. unfold allocate_thread. cbv zeta. pres. Qed.
Hint Resolve stable_allocate_thread : preserves.

Lemma stable_make_space t k u : preserves I (make_space t k u).
Proof. unfold make_space. pres. Qed.
Hint Resolve stable_make_space : preserves.

Lemma stable_launch p img sp : preserves I (launch_process p img sp).
Proof. unfold launch_process. pres. Qed.

Lemma stable_calls {A} (m : M uapi A) : calls_only m -> preserves I m.
Proof.
  intros Hm w a w' Hw E. destruct (Hm _ _ _ E) as [cs ->]. clear E.
  induction cs as [|c cs IH]; [done|]. cbn. by apply HI.
Qed.

Lemma calls_only_load_segs f p l : calls_only (load_segs f p l).
Proof.
  induction l as [|seg l IH]; cbn [load_segs]; [eauto with calls|].
  apply calls_only_bind; [|eauto with calls].
  apply calls_only_if; [eauto with calls|].
  apply calls_only_bind; [eauto with calls|intros n]. apply calls_only_if; [eauto with calls|].
  eauto 20 with calls.
Qed.

Lemma calls_only_upload_pages p sp pages : forall i, calls_only (upload_pages p sp i pages).
Proof. induction pages; intros i; cbn [upload_pages]; eauto with calls. Qed.
Hint Resolve calls_only_upload_pages : calls.

Lemma calls_only_allocs n : calls_only (allocs n).
Proof. induction n; cbn [allocs]; eauto with calls. Qed.
Hint Resolve calls_only_allocs : calls.

Lemma stable_upload_stack p sp args envs fn : preserves I (upload_stack p sp args envs fn).
Proof.
  apply stable_calls. unfold upload_stack, proc. apply calls_only_bind; [eauto with calls|intros pr].
  cbv zeta. case_match; eauto with calls. case_match; case_match. eauto 10 with calls.
Qed.

Lemma stable_upload_fdlist p sp l : preserves I (upload_fdlist p sp l).
Proof. apply stable_calls. unfold upload_fdlist. eauto 10 with calls. Qed.
Hint Resolve stable_upload_stack stable_upload_fdlist : preserves.

Lemma stable_outcome {A} (o : outcome A) : preserves I (of_outcome o).
Proof. apply stable_calls. eauto with calls. Qed.
Lemma stable_upd_task p f : preserves I (upd p (set_task f)).
Proof. apply preserves_modify. intros w Hw. by apply HI. Qed.
Hint Resolve stable_outcome stable_upd_task : preserves.

Lemma stable_alloc_utcb a : preserves I (alloc_utcb_bitmap a).
Proof. unfold alloc_utcb_bitmap. eauto with preserves. Qed.
Hint Resolve stable_alloc_utcb : preserves.

Lemma stable_configure p img : preserves I (configure p img).
Proof. unfold configure. cbv zeta. pres. Qed.
Hint Resolve stable_configure : preserves.

Lemma stable_build p img f args envs fn fds : preserves I (build_process p img f args envs fn fds).
Proof.
  unfold build_process. apply preserves_bind; [apply stable_calls, calls_only_load_segs|intros n].
  pres.
Qed.

Lemma stable_fclose f : preserves I (fclose f).
Proof. apply stable_calls. eauto with calls. Qed.

Lemma stable_mapM {A} (f : A -> M uapi unit) l :
  (forall a, preserves I (f a)) -> preserves I (mapM_ f l).
Proof. intros Hf. induction l; cbn [mapM_]; [eauto with preserves|]. apply preserves_bind; auto. Qed.

Lemma stable_process_dtor p : preserves I (process_dtor p).
Proof.
  unfold process_dtor, task_common_dtor. apply preserves_bind; [|intros _; eauto with preserves].
  apply preserves_bind; [eauto with preserves|intros tc].
  apply preserves_bind; [|intros _; eauto with preserves].
  apply stable_mapM. intros tid. unfold delete_thread, free_threadno. cbv zeta.
  apply preserves_bind; [pres|intros _]. pres.
Qed.
End stable.

Lemma quiet_stable : stable quiet.
Proof. split; done. Qed.

(** *** exec *)

(** The old program of [p] is gone and its thread gets no reply. *)
Definition gone (p : Z) (w : uapi) : Prop := quiet w /\ no_reply w = true /\ VmErase p ∈ trace w.

Lemma gone_stable p : stable (gone p).
Proof. split; unfold gone; try tauto. intros c w (? & ? & ?). split_and!; [done..|]. cbn. by right. Qed.

Lemma process_dtor_gone w p u w1 :
  quiet w -> process_dtor p w = Ret u w1 -> gone p (set_no_reply true w1).
Proof.
  intros Hq E. pose proof (stable_process_dtor quiet quiet_stable p _ _ _ Hq E) as Hq1.
  split; [done|]. split; [done|]. unfold process_dtor in E.
  apply bind_ret_inv in E as (v & w2 & _ & E). apply bind_ret_inv in E as (n & w3 & E & [_ ->]%mret_inv).
  injection E as _ <-. cbn. left.
Qed.

(** Errors of the image routines are negative. *)
Lemma load_phdr_err ep img e : load_phdr ep img = Err e -> e = - ENOEXEC.
Proof.
  unfold load_phdr, check. cbv zeta.
  destruct (negb (p_type ep =? PT_LOAD)); [done|]. destruct (negb _); [by intros [= <-]|].
  destruct (0 <? p_filesz ep); [|done]. destruct (negb _); [by intros [= <-]|].
  by destruct (0 <=? _).
Qed.

Lemma load_phdrs_err eps : forall img e, load_phdrs eps img = Err e -> e = - ENOEXEC.
Proof.
  induction eps as [|ep eps IH]; intros img e; cbn [load_phdrs]; [done|].
  destruct (load_phdr ep img) as [img'|e'|] eqn:E; cbn; [apply IH| |done].
  intros [= <-]. exact (load_phdr_err _ _ _ E).
Qed.

Lemma elf_loop_err fuel file bs : forall h phnum pos img e,
  elf_loop fuel file bs h phnum pos img = Err e -> e = - ENOEXEC.
Proof.
  induction fuel as [|fuel IH]; intros h phnum pos img e; cbn [elf_loop]; (case_match; [done|]); [done|].
  case_match; [by intros [= <-]|]. destruct (load_phdrs _ _) as [img'|e'|] eqn:E; cbn; [apply IH| |done].
  intros [= <-]. exact (load_phdrs_err _ _ _ E).
Qed.

Lemma read_elf_err file e : read_elf file = Err e -> e = - ENOEXEC.
Proof. unfold read_elf. case_match; [by intros [= <-]|]. apply elf_loop_err. Qed.

Lemma read_elf_file_err f w e w' : read_elf_file f w = Ret (inl e) w' -> e < 0.
Proof.
  unfold read_elf_file. cbv zeta. case_match; [by intros [[= ->] _]%mret_inv|].
  intros (m & w1 & _ & E)%bind_ret_inv. case_match; [by apply mret_inv in E as [[= ->] _]|].
  destruct (read_elf _) as [i|e'|] eqn:He; cbn in E; try discriminate E.
  apply mret_inv in E as [[= ->] _]. by rewrite (read_elf_err _ _ He).
Qed.

Lemma errno_of_neg n : errno_of n < 0.
Proof. unfold errno_of, EIO. case_match; lia. Qed.

(** *** Runs of binfmt_switch *)

Lemma binfmt_error args f w args' f' e w' :
  binfmt_switch args f w = Ret (args', f', inl e) w' -> e < 0.
Proof.
  unfold binfmt_switch.
  assert (forall a g x v v',
    (mret (a, g, x) : M uapi (list Z * (Z * Z) * (Z + program_image))) v = Ret (args', f', inl e) v' ->
    x = inl e) as Hret by (intros a g x v v' [[= _ _ <-] _]%mret_inv; done).
  destruct (file_data f.1 f.2) as [|a [|b content]]; [by intros [= <-]%Hret..|].
  destruct (negb _).
  { intros (img & w1 & E1 & ->%Hret)%bind_ret_inv. exact (read_elf_file_err _ _ _ _ E1). }
  destruct (fgets 199 content) as [|c line]; [by intros [= <-]%Hret|].
  destruct (hashbang _) as [parts interp].
  intros (m & w1 & _ & E)%bind_ret_inv. destruct (m =? 0); [by apply Hret in E as [= <-]|].
  apply bind_ret_inv in E as (n & w2 & _ & E).
  destruct (negb _); [apply Hret in E as [= <-]; apply errno_of_neg|]. cbv zeta in E.
  apply bind_ret_inv in E as (serv & w3 & _ & E). destruct (serv =? 0); [by apply Hret in E as [= <-]|].
  apply bind_ret_inv in E as (fd & w4 & _ & E). apply bind_ret_inv in E as (u & w5 & _ & E).
  apply bind_ret_inv in E as (img & w6 & E6 & ->%Hret). exact (read_elf_file_err _ _ _ _ E6).
Qed.

(** What exec does once the old program is erased. *)
Lemma exec_tail p caller f img args envs fn fds n w w' :
  gone p w ->
  (n ← ask (VmFork 0 caller);
   if negb (n =? 0) then _ ← fclose f; mret 0
   else
     r ← build_process p img f args envs fn fds;
     _ ← fclose f;
     match r with
     | inl _ => mret 0
     | inr (sp, img) =>
         n ← notify_exec caller;
         n ← (if n =? 0 then launch_process p img sp else mret n);
         mret 0
     end) w = Ret n w' -> gone p w' /\ n = 0.
Proof.
  intros Hg (m & w1 & E1 & Hr)%bind_ret_inv. pose proof (gone_stable p) as HI.
  pose proof (stable_ask _ HI _ _ _ _ Hg E1) as Hg1. case_match.
  { apply bind_ret_inv in Hr as (u & w2 & E2 & [-> ->]%mret_inv).
    split; [|done]. exact (stable_fclose _ HI _ _ _ _ Hg1 E2). }
  apply bind_ret_inv in Hr as (r & w2 & E2 & Hr).
  pose proof (stable_build _ HI _ _ _ _ _ _ _ _ _ _ Hg1 E2) as Hg2.
  apply bind_ret_inv in Hr as (u & w3 & E3 & Hr).
  pose proof (stable_fclose _ HI _ _ _ _ Hg2 E3) as Hg3.
  destruct r as [e|[sp img']]; [apply mret_inv in Hr as [-> ->]; by split|].
  apply bind_ret_inv in Hr as (k & w4 & E4 & Hr).
  assert (gone p w4) as Hg4.
  { unfold notify_exec in E4. rewrite bind_assert in E4.
    destruct (negb (L4_IsNilThread sysmsg_tid)); [|discriminate E4].
    apply bind_ret_inv in E4 as (j & w5 & E5 & [_ ->]%mret_inv). exact (stable_ask _ HI _ _ _ _ Hg3 E5). }
  apply bind_ret_inv in Hr as (j & w5 & E5 & [-> ->]%mret_inv). split; [|done].
  case_match; [exact (stable_launch _ HI _ _ _ _ _ _ Hg4 E5)|apply mret_inv in E5 as [_ ->]; exact Hg4].
Qed.

(** C40: exec has one point of no return.  When it returns an error, the server is
    in the state it was called in, but for the calls it made: the caller goes on in
    its old program, with its threads, memory areas and signal state.  Otherwise
    the caller's address space has been erased and no reply is sent to it, whether
    or not the new program could be started. *)
Theorem exec_point_of_no_return (w : uapi) serv ffd args envs fds n w' :
  quiet w -> uapi_exec serv ffd args envs fds w = Ret n w' ->
  (n < 0 /\ later w w')
  \/ (n = 0 /\ valid_process w (caller w) = Some (caller w) /\ no_reply w' = true
      /\ VmErase (caller w) ∈ trace w').
Proof.
  intros Hq. unfold uapi_exec, sender_pid. rewrite bind_assert. destruct (negb _); [|done].
  rewrite bind_gets. fold (caller w). destruct (IS_SYSTASK (caller w)) eqn:Hsys.
  { intros [-> ->]%mret_inv. left. split; [done|]. by exists []. }
  rewrite (bind_ret _ _ _ _ _ (get_process_quiet w _ Hq)).
  destruct (valid_process w (caller w)) as [p|] eqn:Hv; [|done].
  pose proof (valid_process_self _ _ _ Hv) as ->. rewrite bind_of_some.
  intros (r & w1 & E1 & Hr)%bind_ret_inv. destruct (calls_only_accept _ _ _ _ _ E1) as [cs ->].
  destruct (Z.ltb_spec r 0) as [Hneg|Hpos].
  { apply mret_inv in Hr as [-> ->]. left. split; [done|]. by exists cs. }
  apply bind_ret_inv in Hr as ([[args' f] img] & w2 & E2 & Hr).
  destruct (calls_only_binfmt_switch _ _ _ _ _ E2) as [ds ->].
  destruct img as [e|img].
  - apply bind_ret_inv in Hr as (u & w3 & E3 & [-> ->]%mret_inv).
    destruct (calls_only_fclose _ _ _ _ E3) as [es ->].
    left. split; [exact (binfmt_error _ _ _ _ _ _ _ E2)|]. exists (es ++ ds ++ cs). by rewrite !foldr_app.
  - right. assert (quiet (foldr add_trace (foldr add_trace w cs) ds)) as Hq2.
    { apply (stable_calls quiet quiet_stable _ (calls_only_binfmt_switch _ _) _ _ _ (stable_calls quiet quiet_stable _ (calls_only_accept _ _) _ _ _ Hq E1) E2). }
    apply bind_ret_inv in Hr as (u & w3 & E3 & Hr). pose proof (process_dtor_gone _ _ _ _ Hq2 E3) as Hg.
    change (muidl_raise_no_reply ≫= ?k) with (modify (set_no_reply true) ≫= k) in Hr.
    rewrite bind_modify in Hr.
    assert (gone (caller w) w' /\ n = 0) as [[_ []] ->]; [|done].
    revert Hg Hr. apply exec_tail.
Qed.

(** *** spawn *)

Definition creds (p : process) := (ppid p, real_uid p, eff_uid p, saved_uid p, utcb_area (task p)).

(** What allocation of a process slot leaves alone. *)
Definition kept (w w' : uapi) : Prop :=
  uapi_rb w' = uapi_rb w /\ pid_to_child_hash w' = pid_to_child_hash w
  /\ forall q, creds (proc_of w' q) = creds (proc_of w q).

Lemma next_pid_kept w pid w1 : next_pid w = Ret pid w1 -> kept w w1 /\ ra_process w1 = ra_process w.
Proof.
  unfold next_pid. rewrite bind_gets, bind_modify. case_match; [rewrite bind_gets; case_match|].
  - rewrite bind_modify. by intros [_ ->]%mret_inv.
  - rewrite bind_assert. case_match; [|done]. by intros [_ ->]%mret_inv.
  - by intros [_ ->]%mret_inv.
Qed.

Lemma alloc_loop_kept n : forall w p w',
  alloc_process_loop n w = Ret (Some p) w' -> kept w w' /\ p ∉ ra_used (ra_process w).
Proof.
  induction n as [|n IH]; intros w p w'; cbn [alloc_process_loop]; [by intros [? _]%mret_inv|].
  intros (pid & w1 & [K1 R1]%next_pid_kept & E)%bind_ret_inv. rewrite bind_gets in E.
  destruct (ra_alloc _ _ _) as [r|] eqn:Er.
  - rewrite bind_modify in E. unfold upd in E. rewrite bind_modify in E. apply mret_inv in E as [[= ->] ->].
    unfold ra_alloc in Er. case_match eqn:Hfree; [|done]. injection Er as <-.
    apply andb_true_iff in Hfree as [_ Hfree%bool_decide_eq_true]. rewrite R1 in Hfree. split; [|done].
    destruct K1 as (A & B & C). split; [done|]. split; [done|]. intros q. rewrite <- C, proc_of_upd.
    case_decide; [subst|]; by destruct w1.
  - destruct (IH _ _ _ E) as [(A & B & C) Hp]. destruct K1 as (A1 & B1 & C1). rewrite R1 in Hp.
    split; [|done]. split; [congruence|]. split; [congruence|]. intros q. by rewrite C.
Qed.

Lemma valid_process_kept w w' pid : kept w w' -> valid_process w' pid = valid_process w pid.
Proof.
  intros (_ & _ & C). unfold valid_process. pose proof (C pid) as Cp. unfold creds in Cp.
  by injection Cp as _ _ _ _ ->.
Qed.

Lemma kept_calls w cs : kept w (foldr add_trace w cs).
Proof. induction cs as [|c cs IH]; [done|]. exact IH. Qed.

Lemma kept_trans a b c : kept a b -> kept b c -> kept a c.
Proof.
  intros (A & B & C) (A' & B' & C'). split; [congruence|]. split; [congruence|].
  intros q. by rewrite C'.
Qed.

(** The new process [p] as spawn sets it up, and the table of children. *)
Definition spawned (p parent r e s : Z) (h : htable) (w : uapi) : Prop :=
  quiet w /\ pid_to_child_hash w = h /\ ppid (proc_of w p) = parent
  /\ real_uid (proc_of w p) = r /\ eff_uid (proc_of w p) = e /\ saved_uid (proc_of w p) = s.

Lemma spawned_stable p parent r e s h : stable (spawned p parent r e s h).
Proof.
  split; unfold spawned; try (intros; tauto).
  intros q g w (Q & Hh & P). split; [done|]. split; [done|]. rewrite proc_of_upd. by case_decide; [subst|].
Qed.

Lemma spawn_fail_neg p n w r w' : spawn_fail p n w = Ret r w' -> r < 0.
Proof.
  unfold spawn_fail, upd. rewrite !bind_modify. intros [-> _]%mret_inv. apply errno_of_neg.
Qed.

(** What spawn does once the process is set up. *)
Lemma spawn_tail I p img f args envs fn fds w r w' :
  stable I -> I w -> 0 < r ->
  (n ← ask (VmFork 0 p);
   if negb (n =? 0) then spawn_fail p n
   else
     r ← build_process p img f args envs fn fds;
     _ ← fclose f;
     match r with
     | inl n => spawn_fail p n
     | inr (sp, img) =>
         n ← launch_process p img sp;
         if n <? 0 then spawn_fail p n else mret p
     end) w = Ret r w' -> I w' /\ r = p.
Proof.
  intros HI Hw Hr (n & w1 & E1 & E)%bind_ret_inv. pose proof (stable_ask _ HI _ _ _ _ Hw E1) as Hw1.
  destruct (negb (n =? 0)); [apply spawn_fail_neg in E; lia|].
  apply bind_ret_inv in E as (b & w2 & E2 & E).
  pose proof (stable_build _ HI _ _ _ _ _ _ _ _ _ _ Hw1 E2) as Hw2.
  apply bind_ret_inv in E as (u & w3 & E3 & E). pose proof (stable_fclose _ HI _ _ _ _ Hw2 E3) as Hw3.
  destruct b as [e|[sp img']]; [apply spawn_fail_neg in E; lia|].
  apply bind_ret_inv in E as (k & w4 & E4 & E). pose proof (stable_launch _ HI _ _ _ _ _ _ Hw3 E4) as Hw4.
  destruct (k <? 0); [apply spawn_fail_neg in E; lia|]. by apply mret_inv in E as [-> ->].
Qed.

(** A process spawned by a user process is its child and has its real and
    effective UID; the PID was free.  Its saved UID is whatever the slot's last
    owner had, and the child is not entered into the table of children, so that
    [has_children] does not see it. *)
Theorem spawn_credentials (w : uapi) filename args envs fds p w' :
  quiet w -> IS_SYSTASK (caller w) = false -> 0 < p ->
  uapi_spawn filename args envs fds w = Ret p w' ->
  p ∉ ra_used (ra_process w)
  /\ spawned p (caller w) (real_uid (proc_of w (caller w))) (eff_uid (proc_of w (caller w)))
       (saved_uid (proc_of w p)) (pid_to_child_hash w) w'.
Proof.
  intros Hq Hsys Hp. unfold uapi_spawn, sender_pid. rewrite bind_assert.
  destruct (negb (L4_IsNilThread vm_tid)); [|done].
  intros (serv & w1 & [= _ <-] & E)%bind_ret_inv. destruct (serv =? 0); [apply mret_inv in E as [-> _]; unfold ENOENT in Hp; lia|].
  apply bind_ret_inv in E as (fd & w2 & [= _ <-] & E). rewrite bind_gets in E. fold (caller w) in E.
  change (pidof (cur_sender _)) with (caller w) in E.
  apply bind_ret_inv in E as ([[args' f] img] & w3 & E3 & E).
  destruct (calls_only_binfmt_switch _ _ _ _ _ E3) as [cs Ew3].
  assert (kept w w3) as K3.
  { rewrite Ew3. eapply kept_trans; [|apply kept_calls]. exact (kept_calls w [_; _]). }
  assert (ra_process w3 = ra_process w) as R3.
  { rewrite Ew3. clear. by induction cs as [|c cs IH]. }
  destruct img as [e|img].
  { apply binfmt_error in E3. apply bind_ret_inv in E as (u & w4 & _ & [-> _]%mret_inv). lia. }
  apply bind_ret_inv in E as (np & w4 & E4 & E). destruct np as [p'|]; [|apply mret_inv in E as [-> _]; unfold ENOMEM in Hp; lia].
  destruct (alloc_loop_kept _ _ _ _ E4) as [K4 Hfree]. rewrite R3 in Hfree.
  pose proof (kept_trans _ _ _ K3 K4) as K. assert (quiet w4) as Hq4.
  { unfold quiet. destruct K as [-> _]. exact Hq. }
  rewrite bind_assert in E. destruct ((0 <? p') && _); [|done].
  unfold spawn_inherit in E. rewrite Hsys, bind_bind in E.
  rewrite (bind_ret _ _ _ _ _ (get_process_quiet w4 _ Hq4)), (valid_process_kept _ _ _ K) in E.
  destruct (valid_process w (caller w)) as [q|] eqn:Hv.
  2:{ rewrite bind_mret in E. apply spawn_fail_neg in E. lia. }
  pose proof (valid_process_self _ _ _ Hv) as ->. unfold proc, upd in E.
  rewrite bind_bind, bind_gets, bind_bind, bind_modify, bind_mret in E. cbn [negb] in E.
  apply (spawn_tail (spawned p' (caller w) (real_uid (proc_of w4 (caller w)))
    (eff_uid (proc_of w4 (caller w))) (saved_uid (proc_of w4 p')) (pid_to_child_hash w4)))
    in E as [(Eq & Eh & Ep & Er & Ee & Es) ->]; [|apply spawned_stable| |done].
  - destruct K as (_ & Kh & Kc). pose proof (Kc (caller w)) as C1. pose proof (Kc p') as C2.
    unfold creds in C1, C2. split; [done|]. split_and!; [done|congruence..].
  - unfold spawned. rewrite proc_of_upd, decide_True by done. by split_and!.
Qed.
End exec_props.

(** ** Witnesses *)

Definition demo_files : ExecEnv := {|
  file_data _ _ := demo_elf;
  file_path _ _ := [98; 105; 110; 47; 120];
  rand_bytes := replicate 16 7;
  kip_log2 := 12;
  uninit := 0xcc
|}.

(** The result of a run that is known to return. *)
Definition run_of {A} (m : M uapi A) (w : uapi) (d : A) : A * uapi :=
  match m w with Ret a w' => (a, w') | Stop _ => (d, w) end.
Lemma run_of_eq {A} (m : M uapi A) w d :
  (match m w with Ret _ _ => true | Stop _ => false end) = true ->
  m w = Ret (run_of m w d).1 (run_of m w d).2.
Proof. unfold run_of. by destruct (m w). Qed.

Definition demo_exec : M uapi Z :=
  @uapi_exec l4_x2_32 demo_env demo_files 7 4 [120; RECSEP; 121] [97] [(7, 9, 1)].
Definition demo_spawn : M uapi Z :=
  @uapi_spawn l4_x2_32 demo_env demo_files [47; 120] [120] [97] [(7, 9, 1)].

Lemma exec_point_of_no_return_witness :
  exists w', demo_exec demo2 = Ret 0 w'
  /\ ((0 < 0 /\ later demo2 w')
      \/ (0 = 0 /\ valid_process demo2 (@caller l4_x2_32 demo_env demo2) = Some (@caller l4_x2_32 demo_env demo2)
          /\ no_reply w' = true /\ VmErase (@caller l4_x2_32 demo_env demo2) ∈ trace w')).
Proof.
  assert ((run_of demo_exec demo2 0).1 = 0) as E1 by (vm_compute; reflexivity).
  assert (demo_exec demo2 = Ret (run_of demo_exec demo2 0).1 (run_of demo_exec demo2 0).2) as E
    by (apply run_of_eq; vm_compute; reflexivity).
  rewrite E1 in E.
  exists (run_of demo_exec demo2 0).2. split; [exact E|].
  exact (@exec_point_of_no_return l4_x2_32 demo_env demo_files demo2 7 4 [120; RECSEP; 121] [97]
           [(7, 9, 1)] 0 _ demo2_quiet E).
Defined.

Lemma spawn_credentials_witness :
  exists w', demo_spawn demo2 = Ret 3 w'
  /\ 3 ∉ ra_used (ra_process demo2)
  /\ (let me := @caller l4_x2_32 demo_env demo2 in
      spawned 3 me (real_uid (proc_of demo2 me)) (eff_uid (proc_of demo2 me))
        (saved_uid (proc_of demo2 3)) (pid_to_child_hash demo2) w').
Proof.
  assert ((run_of demo_spawn demo2 0).1 = 3) as E1 by (vm_compute; reflexivity).
  assert (demo_spawn demo2 = Ret (run_of demo_spawn demo2 0).1 (run_of demo_spawn demo2 0).2) as E
    by (apply run_of_eq; vm_compute; reflexivity).
  rewrite E1 in E.
  exists (run_of demo_spawn demo2 0).2. split; [exact E|].
  apply (@spawn_credentials l4_x2_32 demo_env demo_files demo2 [47; 120] [120] [97] [(7, 9, 1)] 3 _
           demo2_quiet); [vm_compute; reflexivity|reflexivity|exact E].
Defined.
