(* ===== verification/CString.v ===== *)
(** lib/string.c, lib/strscpy.c and include/sneks/simd.h on a 32-bit little-endian
    machine.

    Memory is a function from addresses to bytes, so that the word-at-a-time loops
    read the bytes past the end of a string the way the code does; whether such a
    read may fault is not modelled.  Loops over strings take a bound on their turns
    and return [None] when it is used up. *)
From S2P Require Import Prelude.

Definition mem := Z -> Z.
Definition store (m : mem) (p b : Z) : mem := fun a => if a =? p then b else m a.

(** ** Words: simd.h *)

(** The word of the bytes [b0] (lowest) to [b3]. *)
Definition word4 (b0 b1 b2 b3 : Z) : Z := b0 + 2 ^ 8 * b1 + 2 ^ 16 * b2 + 2 ^ 24 * b3.

Definition load_lel (m : mem) (p : Z) : Z := word4 (m p) (m (p + 1)) (m (p + 2)) (m (p + 3)).
Definition load_bel (m : mem) (p : Z) : Z := word4 (m (p + 3)) (m (p + 2)) (m (p + 1)) (m p).
Definition store_l (m : mem) (p w : Z) : mem :=
  store (store (store (store m p (u32 w mod 256)) (p + 1) (u32 w / 2 ^ 8 mod 256))
    (p + 2) (u32 w / 2 ^ 16 mod 256)) (p + 3) (u32 w / 2 ^ 24 mod 256).

Definition broadcast_l (x : Z) : Z := u32 ((2 ^ 32 - 1) / 255 * x).
Definition haszero (x : Z) : Z :=
  Z.land (Z.land (u32 (x - broadcast_l 1)) (bnot32 x)) (broadcast_l 0x80).
Definition zero_mask (x : Z) : Z :=
  Z.land (haszero x) (u32 (Z.shiftl (bnot32 (Z.land x (broadcast_l 1))) 7)).
Definition byte_mask (x c : Z) : Z := zero_mask (Z.lxor x (broadcast_l c)).

(** [ffsl(mask) / 8 - 1]: the index of the lowest byte flagged in [mask]. *)
Definition mask_index (mask : Z) : Z := ffsl mask / 8 - 1.

Definition aligned (p : Z) : bool := Z.land p 3 =? 0.

(** ** Scanning *)

(** The byte loops up to an aligned address take at most three turns; what they
    end on is either a result or the address to go on from. *)
Fixpoint scan_head (turns : nat) (stop_at : Z -> bool) (more : Z -> bool) (m : mem) (s : Z)
  : Z + Z :=
  match turns with
  | O => inr s
  | S turns =>
      if more s && negb (aligned s) then
        if stop_at (m s) then inl s else scan_head turns stop_at more m (s + 1)
      else inr s
  end.

Fixpoint strnlen_words (fuel : nat) (m : mem) (str s max : Z) : option Z :=
  if s - str <? max then
    match fuel with
    | O => None
    | S fuel =>
        let x := load_lel m s in
        if negb (haszero x =? 0) then Some (Z.min max (s - str + mask_index (zero_mask x)))
        else strnlen_words fuel m str (s + 4) max
    end
  else Some max.
Definition strnlen (fuel : nat) (m : mem) (str max : Z) : option Z :=
  match scan_head 3 (fun b => b =? 0) (fun s => s - str <? max) m str with
  | inl s => Some (s - str)
  | inr s => strnlen_words fuel m str s max
  end.

Definition SIZE_MAX : Z := 2 ^ 32 - 1.
Definition strlen (fuel : nat) (m : mem) (str : Z) : option Z := strnlen fuel m str SIZE_MAX.

Fixpoint memchr_words (fuel : nat) (m : mem) (ptr p c n : Z) : option (option Z) :=
  if p - ptr <? n then
    match fuel with
    | O => None
    | S fuel =>
        let found := byte_mask (load_lel m p) c in
        if negb (found =? 0) then
          let spot := p + mask_index found in
          Some (if spot - ptr <? n then Some spot else None)
        else memchr_words fuel m ptr (p + 4) c n
    end
  else Some None.
Definition memchr (fuel : nat) (m : mem) (ptr c n : Z) : option (option Z) :=
  match scan_head 3 (fun b => b =? c) (fun p => p - ptr <? n) m ptr with
  | inl p => Some (Some p)
  | inr p => memchr_words fuel m ptr p c n
  end.

(** The bytes are compared as [char], which is signed. *)
Definition char_is (b c : Z) : bool := s8 b =? c.

Fixpoint strchrnul_words (fuel : nat) (m : mem) (s c : Z) : option Z :=
  match fuel with
  | O => None
  | S fuel =>
      let x := load_lel m s in
      let hit := Z.lor (byte_mask x c) (zero_mask x) in
      if negb (hit =? 0) then Some (s + mask_index hit) else strchrnul_words fuel m (s + 4) c
  end.
Definition strchrnul (fuel : nat) (m : mem) (s c : Z) : option Z :=
  match scan_head 3 (fun b => char_is b c || (b =? 0)) (fun _ => true) m s with
  | inl s => Some s
  | inr s => strchrnul_words fuel m s c
  end.

Definition strchr (fuel : nat) (m : mem) (s c : Z) : option (option Z) :=
  r ← strchrnul fuel m s c; Some (if m r =? 0 then None else Some r).

Fixpoint strrchr_back (fuel : nat) (m : mem) (s t c : Z) : option (option Z) :=
  if negb (char_is (m t) c) && negb (t =? s) then
    match fuel with O => None | S fuel => strrchr_back fuel m s (t - 1) c end
  else Some (if negb (t =? s) then Some t else None).
Definition strrchr (fuel : nat) (m : mem) (s c : Z) : option (option Z) :=
  len ← strlen fuel m s; strrchr_back (Z.to_nat len) m s (s + len) c.

(** ** Sets of bytes: strscan() *)

(** The bit array [present] as one number: word [c / 32], bit [c % 32]. *)
Fixpoint scan_set (fuel : nat) (m : mem) (set present : Z) : option Z :=
  if m set =? 0 then Some present
  else match fuel with
       | O => None
       | S fuel => scan_set fuel m (set + 1) (Z.lor present (Z.shiftl 1 (m set)))
       end.
Fixpoint scan_run (fuel : nat) (m : mem) (s present : Z) (accept : bool) : option Z :=
  if m s =? 0 then Some s
  else if xorb accept (Z.testbit present (m s)) then Some s
  else match fuel with O => None | S fuel => scan_run fuel m (s + 1) present accept end.
Definition strscan (fuel : nat) (m : mem) (s set : Z) (accept : bool) : option Z :=
  present ← scan_set fuel m set 0; scan_run fuel m s present accept.

Definition strpbrk fuel m s needles : option (option Z) :=
  r ← strscan fuel m s needles false; Some (if m r =? 0 then None else Some r).
Definition strcspn fuel m s reject : option Z :=
  r ← strscan fuel m s reject false; Some (r - s).
Definition strspn fuel m s accept : option Z :=
  r ← strscan fuel m s accept true; Some (r - s).

(** ** strstr() *)

(** The first loop: the length of the needle and whether it is a prefix, unless
    the haystack is shorter. *)
Fixpoint strstr_prefix (fuel : nat) (m : mem) (hay needle n_len diff : Z)
  : option (option (Z * Z)) :=
  if m (needle + n_len) =? 0 then Some (Some (n_len, diff))
  else if m (hay + n_len) =? 0 then Some None
  else match fuel with
       | O => None
       | S fuel => strstr_prefix fuel m hay needle (n_len + 1)
                     (Z.lor diff (Z.lxor (m (needle + n_len)) (m (hay + n_len))))
       end.

(** The comparison at one place: found, not found, or the haystack has ended. *)
Fixpoint strstr_cmp (n : nat) (m : mem) (hay needle i : Z) : option bool :=
  match n with
  | O => Some true
  | S n => if negb (m (hay + i) =? m (needle + i)) then
             if m (hay + i) =? 0 then None else Some false
           else strstr_cmp n m hay needle (i + 1)
  end.

Fixpoint strstr_loop (fuel : nat) (m : mem) (hay needle n_len : Z) : option (option Z) :=
  match strstr_cmp (Z.to_nat n_len) m hay needle 0 with
  | None => Some None
  | Some true => Some (Some hay)
  | Some false =>
      match fuel with
      | O => None
      | S fuel =>
          r ← strchr (S fuel) m (hay + 1) (s8 (m needle));
          match r with
          | None => Some None
          | Some hay => strstr_loop fuel m hay needle n_len
          end
      end
  end.

Definition strstr (fuel : nat) (m : mem) (hay needle : Z) : option (option Z) :=
  if m needle =? 0 then Some (Some hay)
  else
    r ← strstr_prefix fuel m hay needle 0 0;
    match r with
    | None => Some None
    | Some (n_len, diff) => if diff =? 0 then Some (Some hay) else strstr_loop fuel m hay needle n_len
    end.

(** ** Comparison *)

Fixpoint memcmp_words (n : nat) (m : mem) (s1 s2 : Z) : Z :=
  match n with
  | O => 0
  | S n => let c := s32 (load_bel m s1 - load_bel m s2) in
           if negb (c =? 0) then c else memcmp_words n m (s1 + 4) (s2 + 4)
  end.
Fixpoint memcmp_bytes (n : nat) (m : mem) (s1 s2 : Z) : Z :=
  match n with
  | O => 0
  | S n => let c := m s1 - m s2 in
           if negb (c =? 0) then c else memcmp_bytes n m (s1 + 1) (s2 + 1)
  end.
Definition memcmp (m : mem) (s1 s2 n : Z) : Z :=
  let major := Z.land n (bnot32 3) in
  let c := memcmp_words (Z.to_nat (major / 4)) m s1 s2 in
  if negb (c =? 0) then c
  else memcmp_bytes (Z.to_nat (n - major)) m (s1 + major) (s2 + major).

Definition until_page (p : Z) : Z := 0x1000 - Z.land p 0xfff.

(** Position of the highest set bit, MSBL(). *)
Definition MSBL (x : Z) : Z := Z.log2 x.

(** The comparison of two words of which one has a zero byte. *)
Definition strncmp_last (la lb : Z) : Z :=
  let za := zero_mask la in
  let zb := zero_mask lb in
  let m := u32 (Z.shiftr (Z.shiftl 1 (MSBL (Z.lor za zb))) 7 * 0xff) in
  let m := Z.lor m (u32 (Z.shiftl m 8)) in
  let m := Z.lor m (u32 (Z.shiftl m 16)) in
  let c := s32 (Z.land la m - Z.land lb m) in
  if negb (c =? 0) then c else s32 (Z.land za m - Z.land zb m).

(** What a run of words or bytes ends on: a result or the position to go on from. *)
Fixpoint strncmp_words (fuel : nat) (words : Z) (m : mem) (a b pos : Z) : option (Z + Z) :=
  if words <=? 0 then Some (inr pos)
  else match fuel with
  | O => None
  | S fuel =>
      let la := load_bel m (a + pos) in
      let lb := load_bel m (b + pos) in
      if Z.lor (haszero la) (haszero lb) =? 0 then
        if negb (s32 (la - lb) =? 0) then Some (inl (s32 (la - lb)))
        else strncmp_words fuel (words - 1) m a b (pos + 4)
      else Some (inl (strncmp_last la lb))
  end.
Fixpoint strncmp_bytes (n : nat) (m : mem) (a b pos : Z) : Z + Z :=
  match n with
  | O => inr pos
  | S n =>
      let c := s8 (m (a + pos)) - s8 (m (b + pos)) in
      if negb (c =? 0) then inl c
      else if m (a + pos) =? 0 then inl 0 else strncmp_bytes n m a b (pos + 1)
  end.
Fixpoint strncmp_loop (fuel : nat) (m : mem) (a b pos max : Z) : option Z :=
  if pos <? max then
    match fuel with
    | O => None
    | S fuel =>
        let bytes := Z.min (s32 (max - pos)) (Z.min (until_page (a + pos)) (until_page (b + pos))) in
        (* the divisor is unsigned, so a negative count becomes a large one *)
        r ← strncmp_words fuel (u32 bytes / 4) m a b pos;
        match r with
        | inl r => Some r
        | inr pos =>
            match strncmp_bytes (Z.to_nat (u32 bytes mod 4)) m a b pos with
            | inl r => Some r
            | inr pos => strncmp_loop fuel m a b pos max
            end
        end
    end
  else Some 0.
Definition strncmp (fuel : nat) (m : mem) (a b max : Z) : option Z :=
  if a =? b then Some 0 else strncmp_loop fuel m a b 0 max.
Definition strcmp (fuel : nat) (m : mem) (a b : Z) : option Z := strncmp fuel m a b SIZE_MAX.

Definition ascii_tolower (c : Z) : Z := if (65 <=? c) && (c <=? 90) then c - 32 else c.
Fixpoint strcasecmp (fuel : nat) (m : mem) (a b : Z) : option Z :=
  if negb (m a =? 0) && negb (m b =? 0) then
    let c := ascii_tolower (s8 (m a)) - ascii_tolower (s8 (m b)) in
    if negb (c =? 0) then Some c
    else match fuel with O => None | S fuel => strcasecmp fuel m (a + 1) (b + 1) end
  else Some 0.

(** ** Copying and filling *)

(** The portable and the i386 version move the same bytes in the same order:
    words first, then the bytes that are left. *)
Fixpoint copy_words_up (n : nat) (m : mem) (dst src : Z) : mem :=
  match n with
  | O => m
  | S n => copy_words_up n (store_l m dst (load_lel m src)) (dst + 4) (src + 4)
  end.
Fixpoint copy_bytes_up (n : nat) (m : mem) (dst src : Z) : mem :=
  match n with
  | O => m
  | S n => copy_bytes_up n (store m dst (m src)) (dst + 1) (src + 1)
  end.
Definition memcpy_forward (m : mem) (dst src len : Z) : mem :=
  let words := len / 4 in
  copy_bytes_up (Z.to_nat (len mod 4)) (copy_words_up (Z.to_nat words) m dst src)
    (dst + 4 * words) (src + 4 * words).
Definition memcpy : mem -> Z -> Z -> Z -> mem := memcpy_forward.

Fixpoint memset_head (turns : nat) (m : mem) (p e c : Z) : mem * Z :=
  match turns with
  | O => (m, p)
  | S turns => if (p <? e) && negb (aligned p)
               then memset_head turns (store m p (c mod 256)) (p + 1) e c else (m, p)
  end.
Fixpoint memset_words (fuel : nat) (m : mem) (p e w : Z) : mem :=
  match fuel with
  | O => m
  | S fuel => if p <? e then memset_words fuel (store_l m p w) (p + 4) e w else m
  end.
Definition memset (m : mem) (p c len : Z) : mem :=
  let '(m, q) := memset_head 3 m p (p + len) c in
  memset_words (Z.to_nat len) m q (p + len) (broadcast_l c).

Fixpoint memcpy_backward_head (turns : nat) (m : mem) (start d s : Z) : mem * Z * Z :=
  match turns with
  | O => (m, d, s)
  | S turns => if (start <=? d) && negb (aligned d)
               then memcpy_backward_head turns (store m d (m s)) start (d - 1) (s - 1)
               else (m, d, s)
  end.
Fixpoint memcpy_backward_words (fuel : nat) (m : mem) (start d s : Z) : mem :=
  match fuel with
  | O => m
  | S fuel => if start <=? d
              then memcpy_backward_words fuel (store_l m d (load_lel m s)) start (d - 4) (s - 4)
              else m
  end.
Definition memcpy_backward (m : mem) (d s len : Z) : mem :=
  let '(m, d', s') := memcpy_backward_head 3 m d (d + len - 1) (s + len - 1) in
  memcpy_backward_words (Z.to_nat len) m d d' s'.
Definition memmove (m : mem) (dst src len : Z) : mem :=
  if (dst + 4 <=? src) || (src + len <? dst) then memcpy_forward m dst src len
  else memcpy_backward m dst src len.

(** The exchange of [n] bytes through a buffer: one chunk of [n mod 256] bytes
    first, then chunks of 256. *)
Definition swap_chunk (m : mem) (a b n : Z) : mem :=
  let tmp := m in
  let m := memcpy_forward m a b n in
  fun x => if (b <=? x) && (x <? b + n) then tmp (a + (x - b)) else m x.
Fixpoint memswap_chunks (n : nat) (m : mem) (a b : Z) : mem :=
  match n with O => m | S n => memswap_chunks n (swap_chunk m a b 256) (a + 256) (b + 256) end.
Definition memswap (m : mem) (left right n : Z) : mem :=
  if (left =? right) || (n =? 0) then m
  else
    let head := n mod 256 in
    let m := if 0 <? head then swap_chunk m left right head else m in
    memswap_chunks (Z.to_nat (n / 256)) m (left + head) (right + head).

(** ** strscpy(), strncpy() *)


Fixpoint strscpy_head (turns : nat) (m : mem) (dest src pos sz : Z) : mem * Z :=
  match turns with
  | O => (m, pos)
  | S turns =>
      if (pos <? sz) && negb (aligned (src + pos)) && negb (m (src + pos) =? 0)
      then strscpy_head turns (store m (dest + pos) (m (src + pos))) dest src (pos + 1) sz
      else (m, pos)
  end.
Fixpoint strscpy_words (fuel : nat) (m : mem) (dest src pos sz : Z) : option (mem * Z) :=
  if pos <? sz then
    match fuel with
    | O => None
    | S fuel =>
        let x := load_lel m (src + pos) in
        if haszero x =? 0 then
          strscpy_words fuel (store_l m (dest + pos) (load_lel m (src + pos))) dest src (pos + 4) sz
        else
          let tail := Z.min (s32 (sz - pos)) (mask_index (zero_mask x)) in
          Some (memcpy_forward m (dest + pos) (src + pos) (u32 (tail + 1)), pos + tail)
    end
  else Some (m, pos).
Definition strscpy (fuel : nat) (m : mem) (dest src sz : Z) : option (mem * Z) :=
  let '(m, pos) := strscpy_head 3 m dest src 0 sz in
  r ← strscpy_words fuel m dest src pos sz;
  let '(m, pos) := r in
  let m := if (sz <=? pos) && (0 <? sz) then store m (dest + sz - 1) 0 else m in
  Some (m, if pos <? sz then pos else - E2BIG).

Definition strncpy (fuel : nat) (m : mem) (dest src n : Z) : option mem :=
  r ← strscpy fuel m dest src n;
  let '(m, used) := r in
  Some (if (0 <=? used) && (used <? n) then memset m (dest + used) 0 (n - used) else m).

Definition strcpy (fuel : nat) (m : mem) (dest src : Z) : option mem :=
  len ← strlen fuel m src; Some (memmove m dest src (len + 1)).
