(* ===== verification/CStringProps.v ===== *)
(** The word-at-a-time string functions compute what their byte-at-a-time
    specifications say. *)
From S2P Require Import Prelude CString.

(** ** Words of bytes *)

Definition byte (b : Z) : Prop := 0 <= b < 256.

(** The byte that is found by a word-wide zero test. *)
Definition flag (b : bool) : Z := if b then 128 else 0.

Lemma word4_range b0 b1 b2 b3 :
  byte b0 -> byte b1 -> byte b2 -> byte b3 -> 0 <= word4 b0 b1 b2 b3 < 2 ^ 32.
Proof. unfold byte, word4. lia. Qed.

(** Bit [8 * i + j] of a word is bit [j] of byte [i]. *)
Lemma testbit_byte x i j : 0 <= i -> 0 <= j < 8 ->
  Z.testbit x (8 * i + j) = Z.testbit (x / 2 ^ (8 * i) mod 2 ^ 8) j.
Proof.
  intros Hi Hj. rewrite mod_pow2_testbit, (proj2 (Z.ltb_lt j 8)), Z.div_pow2_bits by lia.
  by rewrite Z.add_comm.
Qed.

Lemma word4_bytes b0 b1 b2 b3 i :
  byte b0 -> byte b1 -> byte b2 -> byte b3 -> 0 <= i < 4 ->
  word4 b0 b1 b2 b3 / 2 ^ (8 * i) mod 2 ^ 8
  = if i =? 0 then b0 else if i =? 1 then b1 else if i =? 2 then b2 else b3.
Proof.
  unfold byte, word4. intros H0 H1 H2 H3 Hi.
  assert (i = 0 \/ i = 1 \/ i = 2 \/ i = 3) as [->|[->|[->| ->]]] by lia; cbn -[Z.div Z.modulo Z.add Z.mul];
    Z.to_euclidean_division_equations; lia.
Qed.

(** Two words agree when the eight bits of each byte do. *)
Lemma word_ext x y :
  0 <= x < 2 ^ 32 -> 0 <= y < 2 ^ 32 ->
  (forall i j, 0 <= i < 4 -> 0 <= j < 8 -> Z.testbit x (8 * i + j) = Z.testbit y (8 * i + j)) ->
  x = y.
Proof.
  intros Hx Hy Hij. apply Z.bits_inj'. intros n Hn. destruct (Z.lt_ge_cases n 32).
  - replace n with (8 * (n / 8) + n mod 8) by (Z.to_euclidean_division_equations; lia).
    apply Hij; Z.to_euclidean_division_equations; lia.
  - by rewrite !(testbit_high 32) by lia.
Qed.

(** Borrow-propagating subtraction of one from every byte. *)
Lemma sub_ones b0 b1 b2 b3 :
  byte b0 -> byte b1 -> byte b2 -> byte b3 ->
  exists y0 y1 y2 y3,
    u32 (word4 b0 b1 b2 b3 - broadcast_l 1) = word4 y0 y1 y2 y3
    /\ byte y0 /\ byte y1 /\ byte y2 /\ byte y3
    /\ (forall b y, (b, y) ∈ [(b0, y0); (b1, y1); (b2, y2); (b3, y3)] ->
        y = b - 1 \/ y = b - 2 \/ (y = 255 /\ b <= 1) \/ (y = 254 /\ b = 0)).
Proof.
  unfold byte. intros H0 H1 H2 H3. change (broadcast_l 1) with 0x01010101.
  set (y0 := (b0 - 1) mod 256). set (c1 := bool_to_Z (b0 <? 1)).
  set (y1 := (b1 - 1 - c1) mod 256). set (c2 := bool_to_Z (b1 <? 1 + c1)).
  set (y2 := (b2 - 1 - c2) mod 256). set (c3 := bool_to_Z (b2 <? 1 + c2)).
  set (y3 := (b3 - 1 - c3) mod 256). exists y0, y1, y2, y3.
  assert (forall b c, 0 <= b < 256 -> 0 <= c <= 1 ->
    let y := (b - 1 - c) mod 256 in let d := bool_to_Z (b <? 1 + c) in
    0 <= d <= 1 /\ y = b - 1 - c + 256 * d) as Hstep.
  { intros b c Hb Hc y d. unfold d. destruct (Z.ltb_spec b (1 + c)); cbn [bool_to_Z];
      (split; [lia|]); unfold y; Z.to_euclidean_division_equations; lia. }
  destruct (Hstep b0 0 H0 ltac:(lia)) as [D1 E0]. rewrite Z.sub_0_r in E0. fold y0 in E0.
  change (bool_to_Z (b0 <? 1 + 0)) with c1 in D1, E0.
  destruct (Hstep b1 c1 H1 D1) as [D2 E1]. fold y1 c2 in D2, E1.
  destruct (Hstep b2 c2 H2 D2) as [D3 E2]. fold y2 c3 in D3, E2.
  destruct (Hstep b3 c3 H3 D3) as [D4 E3]. fold y3 in E3.
  assert (0 <= y0 < 256 /\ 0 <= y1 < 256 /\ 0 <= y2 < 256 /\ 0 <= y3 < 256) as (Y0 & Y1 & Y2 & Y3)
    by (unfold y0, y1, y2, y3; split_and!; apply Z.mod_pos_bound; lia).
  split; [|split; [exact Y0|split; [exact Y1|split; [exact Y2|split; [exact Y3|]]]]].
  - clearbody y0 y1 y2 y3 c1 c2 c3. unfold word4, u32.
    set (d := bool_to_Z (b3 <? 1 + c3)) in *. clearbody d.
    symmetry. apply (Z.mod_unique _ _ (- d)); lia.
  - intros b y Hin. clearbody y0 y1 y2 y3 c1 c2 c3.
    set (d := bool_to_Z (b3 <? 1 + c3)) in *. clearbody d.
    rewrite !elem_of_cons, elem_of_nil in Hin.
    destruct Hin as [[= -> ->]|[[= -> ->]|[[= -> ->]|[[= -> ->]|[]]]]]; lia.
Qed.

Lemma byte_bit7 b : byte b -> Z.testbit b 7 = (128 <=? b).
Proof.
  unfold byte. intros Hb. destruct (Z.leb_spec 128 b).
  - apply Z.testbit_true; [lia|]. Z.to_euclidean_division_equations. lia.
  - apply (testbit_high 7); lia.
Qed.

Lemma flag_bit b j : 0 <= j < 8 -> Z.testbit (flag b) j = b && (j =? 7).
Proof.
  intros Hj. destruct b; [|by rewrite Z.bits_0]. change (flag true) with (2 ^ 7).
  by rewrite Z.pow2_bits_eqb, Z.eqb_sym by lia.
Qed.

Lemma testbit_word4 b0 b1 b2 b3 i j :
  byte b0 -> byte b1 -> byte b2 -> byte b3 -> 0 <= i < 4 -> 0 <= j < 8 ->
  Z.testbit (word4 b0 b1 b2 b3) (8 * i + j)
  = Z.testbit (if i =? 0 then b0 else if i =? 1 then b1 else if i =? 2 then b2 else b3) j.
Proof. intros. by rewrite testbit_byte, word4_bytes by (done || lia). Qed.

Lemma byte_zero_test b y :
  byte b -> byte y ->
  y = b - 1 \/ y = b - 2 \/ (y = 255 /\ b <= 1) \/ (y = 254 /\ b = 0) ->
  Z.testbit y 7 && negb (Z.testbit b 7) && negb (Z.testbit b 0 && true) = (b =? 0).
Proof.
  intros Hb Hy Hr. rewrite !byte_bit7, Z.bit0_odd, andb_true_r by done. unfold byte in *.
  destruct (Z.eqb_spec b 0) as [->|]; [destruct (Z.leb_spec 128 y); [done|lia]|].
  destruct (Z.eqb_spec b 1) as [->|]; [by rewrite andb_false_r|].
  destruct (Z.leb_spec 128 y), (Z.leb_spec 128 b); try done; lia.
Qed.

(** [zero_mask] flags exactly the zero bytes: the test is free of the false
    positives of [haszero]. *)
Lemma zero_mask_word4 b0 b1 b2 b3 :
  byte b0 -> byte b1 -> byte b2 -> byte b3 ->
  zero_mask (word4 b0 b1 b2 b3)
  = word4 (flag (b0 =? 0)) (flag (b1 =? 0)) (flag (b2 =? 0)) (flag (b3 =? 0)).
Proof.
  intros H0 H1 H2 H3. destruct (sub_ones b0 b1 b2 b3 H0 H1 H2 H3)
    as (y0 & y1 & y2 & y3 & Ey & Y0 & Y1 & Y2 & Y3 & Hy).
  assert (forall b, byte (flag b)) as Hf by (intros []; unfold byte; cbn; lia).
  unfold zero_mask, haszero. rewrite Ey. set (X := word4 b0 b1 b2 b3). set (Y := word4 y0 y1 y2 y3).
  pose proof (word4_range _ _ _ _ Y0 Y1 Y2 Y3) as RY. fold Y in RY.
  change (broadcast_l 128) with (word4 128 128 128 128).
  change (broadcast_l 1) with (word4 1 1 1 1).
  assert (forall b, b = 1 \/ b = 128 -> byte b) as Hc by (unfold byte; lia).
  apply word_ext; [|apply word4_range; apply Hf|].
  { rewrite <- !Z.land_assoc. split; [apply Z.land_nonneg; lia|].
    apply bits_bound; [lia|apply Z.land_nonneg; lia|]. intros i Hi.
    by rewrite Z.land_spec, (testbit_high 32 Y) by lia. }
  intros i j Hi Hj. rewrite !Z.land_spec, (testbit_word4 _ _ _ _ i j (Hf _) (Hf _) (Hf _) (Hf _) Hi Hj).
  unfold bnot32, u32. rewrite mod_pow2_testbit, (proj2 (Z.ltb_lt (8 * i + j) 32)) by lia.
  rewrite Z.shiftl_spec, unot_testbit, (proj2 (Z.ltb_lt (8 * i + j) 32)) by lia. cbn [andb].
  unfold Y, X. rewrite !testbit_word4 by (done || apply Hc; lia).
  assert (Z.testbit (if i =? 0 then 128 else if i =? 1 then 128 else if i =? 2 then 128 else 128) j
          = (j =? 7)) as ->.
  { replace (if i =? 0 then _ else _) with (flag true) by (by repeat case_match).
    by rewrite flag_bit. }
  replace (Z.testbit (if i =? 0 then flag (b0 =? 0) else _) j)
    with (((if i =? 0 then b0 else if i =? 1 then b1 else if i =? 2 then b2 else b3) =? 0) && (j =? 7))
    by (repeat case_match; by rewrite flag_bit).
  destruct (Z.eqb_spec j 7) as [->|]; [|by rewrite !andb_false_r].
  rewrite !andb_true_r. replace (8 * i + 7 - 7) with (8 * i + 0) by lia.
  rewrite unot_testbit, (proj2 (Z.ltb_lt (8 * i + 0) 32)), Z.land_spec by lia. cbn [andb].
  rewrite !testbit_word4 by (done || apply Hc || lia; lia).
  replace (Z.testbit (if i =? 0 then 1 else _) 0) with true by (by repeat case_match).
  repeat case_match; (apply byte_zero_test; [done|done|apply Hy; set_solver]).
Qed.

Lemma haszero_zero b0 b1 b2 b3 :
  byte b0 -> byte b1 -> byte b2 -> byte b3 ->
  haszero (word4 b0 b1 b2 b3) = 0 <-> b0 <> 0 /\ b1 <> 0 /\ b2 <> 0 /\ b3 <> 0.
Proof.
  intros H0 H1 H2 H3. split.
  - intros E. pose proof (zero_mask_word4 b0 b1 b2 b3 H0 H1 H2 H3) as Ez.
    unfold zero_mask in Ez. rewrite E, Z.land_0_l in Ez. unfold word4, flag in Ez.
    split_and!; intros ->; repeat case_match; lia.
  - intros (N0 & N1 & N2 & N3). unfold haszero.
    replace (u32 (word4 b0 b1 b2 b3 - broadcast_l 1))
      with (word4 (b0 - 1) (b1 - 1) (b2 - 1) (b3 - 1)).
    2:{ unfold u32. rewrite Z.mod_small; change (broadcast_l 1) with 0x01010101;
        unfold word4, byte in *; lia. }
    change (broadcast_l 128) with (word4 128 128 128 128).
    assert (forall b, byte b -> b <> 0 -> byte (b - 1)
              /\ Z.testbit (b - 1) 7 && negb (Z.testbit b 7) = false) as Hb.
    { intros b Hb Hn. assert (byte (b - 1)) by (unfold byte in *; lia). split; [done|].
      rewrite !byte_bit7 by done. unfold byte in *.
      destruct (Z.leb_spec 128 (b - 1)), (Z.leb_spec 128 b); try done; lia. }
    apply word_ext; [|lia|].
    { split; [apply Z.land_nonneg; right; by vm_compute|].
      apply bits_bound; [lia|apply Z.land_nonneg; right; by vm_compute|]. intros i Hi.
      rewrite Z.land_spec, (testbit_high 32 (word4 128 128 128 128)), andb_false_r by (by vm_compute || lia).
      done. }
    intros i j Hi Hj. rewrite Z.bits_0, !Z.land_spec. unfold bnot32.
    rewrite unot_testbit, (proj2 (Z.ltb_lt (8 * i + j) 32)) by lia. cbn [andb].
    rewrite !testbit_word4 by (done || (apply Hb; done) || (unfold byte; lia)).
    destruct (Z.eqb_spec j 7) as [->|Hj7].
    + repeat case_match; (match goal with |- _ && negb (Z.testbit ?b _) && _ = _ =>
        destruct (Hb b) as [_ ->]; done end).
    + replace (Z.testbit (if i =? 0 then 128 else _) j) with false; [by rewrite andb_false_r|].
      replace (if i =? 0 then _ else _) with (flag true) by (by repeat case_match).
      by rewrite flag_bit, (proj2 (Z.eqb_neq j 7)) by lia.
Qed.

Lemma mask_index_word4 c0 c1 c2 c3 :
  mask_index (word4 (flag c0) (flag c1) (flag c2) (flag c3))
  = if c0 then 0 else if c1 then 1 else if c2 then 2 else if c3 then 3 else -1.
Proof. by destruct c0, c1, c2, c3. Qed.

Lemma lxor_byte a b : byte a -> byte b -> byte (Z.lxor a b).
Proof.
  unfold byte. intros Ha Hb. assert (0 <= Z.lxor a b) by (apply Z.lxor_nonneg; lia).
  split; [done|]. apply (bits_bound 8); [lia|done|]. intros i Hi.
  by rewrite Z.lxor_spec, !(testbit_high 8) by lia.
Qed.

Lemma byte_mask_word4 b0 b1 b2 b3 c :
  byte b0 -> byte b1 -> byte b2 -> byte b3 -> byte c ->
  byte_mask (word4 b0 b1 b2 b3) c
  = word4 (flag (b0 =? c)) (flag (b1 =? c)) (flag (b2 =? c)) (flag (b3 =? c)).
Proof.
  intros H0 H1 H2 H3 Hc. unfold byte_mask.
  assert (Z.lxor (word4 b0 b1 b2 b3) (broadcast_l c)
    = word4 (Z.lxor b0 c) (Z.lxor b1 c) (Z.lxor b2 c) (Z.lxor b3 c)) as ->.
  { assert (broadcast_l c = word4 c c c c) as ->.
    { unfold broadcast_l, word4. change ((2 ^ 32 - 1) / 255) with 0x01010101.
      rewrite u32_id; unfold byte in Hc; lia. }
    pose proof (word4_range _ _ _ _ H0 H1 H2 H3). pose proof (word4_range _ _ _ _ Hc Hc Hc Hc).
    apply word_ext; [|apply word4_range; by apply lxor_byte|].
    { assert (0 <= Z.lxor (word4 b0 b1 b2 b3) (word4 c c c c)) by (apply Z.lxor_nonneg; lia).
      split; [done|]. apply bits_bound; [lia|done|]. intros i Hi.
      by rewrite Z.lxor_spec, !(testbit_high 32) by lia. }
    intros i j Hi Hj. rewrite Z.lxor_spec, !testbit_word4 by (done || by apply lxor_byte).
    repeat case_match; by rewrite Z.lxor_spec. }
  rewrite zero_mask_word4 by (by apply lxor_byte).
  assert (forall b, (Z.lxor b c =? 0) = (b =? c)) as Hx.
  { intros b. destruct (Z.eqb_spec b c) as [->|Hn]; [by rewrite Z.lxor_nilpotent|].
    apply Z.eqb_neq. intros E%Z.lxor_eq. done. }
  by rewrite !Hx.
Qed.

(** ** Scanning memory *)

Definition bytes_ok (m : mem) : Prop := forall a, byte (m a).

(** [n] is the distance from [p] to the first byte satisfying [P]. *)
Definition first_at (P : Z -> bool) (m : mem) (p n : Z) : Prop :=
  0 <= n /\ (forall i, 0 <= i < n -> P (m (p + i)) = false) /\ P (m (p + n)) = true.

Lemma scan_head_spec turns P more m s :
  match scan_head turns P more m s with
  | inl p => exists k, p = s + k /\ first_at P m s k /\ more p = true
  | inr p => exists k, p = s + k /\ 0 <= k
             /\ (forall i, 0 <= i < k -> P (m (s + i)) = false /\ more (s + i) = true)
  end.
Proof.
  revert s. induction turns as [|turns IH]; intros s; cbn [scan_head].
  - exists 0. split_and!; lia.
  - destruct (more s) eqn:Em; cbn [andb]; [|exists 0; split_and!; lia].
    destruct (negb (aligned s)); [|exists 0; split_and!; lia].
    destruct (P (m s)) eqn:Ep.
    + exists 0. rewrite Z.add_0_r. split; [done|]. split; [|done]. split_and!; [done|lia|].
      by rewrite Z.add_0_r.
    + specialize (IH (s + 1)). destruct (scan_head turns P more m (s + 1)) as [p|p].
      * destruct IH as (k & -> & (Hk & Hn & Hp) & Hm). exists (k + 1).
        split; [lia|]. split; [|done]. split_and!; [lia| |by replace (s + (k + 1)) with (s + 1 + k) by lia].
        intros i Hi. destruct (Z.eq_dec i 0) as [->|]; [by rewrite Z.add_0_r|].
        replace (s + i) with (s + 1 + (i - 1)) by lia. apply Hn. lia.
      * destruct IH as (k & -> & Hk & Hn). exists (k + 1). split; [lia|]. split; [lia|].
        intros i Hi. destruct (Z.eq_dec i 0) as [->|]; [by rewrite Z.add_0_r|].
        replace (s + i) with (s + 1 + (i - 1)) by lia. apply Hn. lia.
Qed.

(** Which of the four bytes at [p] is the first to satisfy [P]. *)
Definition word_first (P : Z -> bool) (m : mem) (p : Z) : Z :=
  if P (m p) then 0 else if P (m (p + 1)) then 1 else if P (m (p + 2)) then 2
  else if P (m (p + 3)) then 3 else -1.

Lemma word_first_cases P m p :
  (0 <= word_first P m p < 4 /\ first_at P m p (word_first P m p))
  \/ (word_first P m p = -1 /\ forall i, 0 <= i < 4 -> P (m (p + i)) = false).
Proof.
  unfold word_first, first_at.
  assert (forall n, 0 <= n <= 4 -> (forall i, 0 <= i < n -> P (m (p + i)) = false) <->
    (n <= 0 \/ P (m p) = false) /\ (n <= 1 \/ P (m (p + 1)) = false)
    /\ (n <= 2 \/ P (m (p + 2)) = false) /\ (n <= 3 \/ P (m (p + 3)) = false)) as Hall.
  { intros n Hn. split.
    - intros Hi. split_and!; (destruct (Z.le_gt_cases n 0); [by left; lia|]).
      + right. rewrite <- (Z.add_0_r p). apply Hi. lia.
      + destruct (Z.le_gt_cases n 1); [by left|right; apply Hi; lia].
      + destruct (Z.le_gt_cases n 2); [by left|right; apply Hi; lia].
      + destruct (Z.le_gt_cases n 3); [by left|right; apply Hi; lia].
    - intros (A & B & C & D) i Hi.
      assert (i = 0 \/ i = 1 \/ i = 2 \/ i = 3) as [->|[->|[->| ->]]] by lia;
        rewrite ?Z.add_0_r; [destruct A|destruct B|destruct C|destruct D]; (done || lia). }
  destruct (P (m p)) eqn:E0; [left; rewrite Hall, Z.add_0_r by lia; split_and!; auto; lia|].
  destruct (P (m (p + 1))) eqn:E1; [left; rewrite Hall by lia; split_and!; auto; lia|].
  destruct (P (m (p + 2))) eqn:E2; [left; rewrite Hall by lia; split_and!; auto; lia|].
  destruct (P (m (p + 3))) eqn:E3; [left; rewrite Hall by lia; split_and!; auto; lia|].
  right. split; [done|]. rewrite Hall by lia. auto.
Qed.

Lemma zero_word m p :
  bytes_ok m ->
  mask_index (zero_mask (load_lel m p)) = word_first (fun b => b =? 0) m p
  /\ (haszero (load_lel m p) = 0 <-> word_first (fun b => b =? 0) m p = -1).
Proof.
  intros Hm. unfold load_lel. split.
  - by rewrite zero_mask_word4, mask_index_word4.
  - rewrite haszero_zero by done. unfold word_first. rewrite <- !Z.eqb_neq.
    repeat case_match; split; (done || lia || naive_solver).
Qed.

Lemma byte_word m p c :
  bytes_ok m -> byte c ->
  mask_index (byte_mask (load_lel m p) c) = word_first (fun b => b =? c) m p
  /\ (byte_mask (load_lel m p) c = 0 <-> word_first (fun b => b =? c) m p = -1).
Proof.
  intros Hm Hc. unfold load_lel. rewrite byte_mask_word4 by done. rewrite mask_index_word4.
  split; [done|]. unfold word_first, word4, flag. repeat case_match; lia.
Qed.

(** None of the first [k] bytes at [s] satisfies [P]. *)
Definition skip (P : Z -> bool) (m : mem) (s k : Z) : Prop :=
  forall i, 0 <= i < k -> P (m (s + i)) = false.

Lemma skip_app P m s k j : skip P m s k -> skip P m (s + k) j -> skip P m s (k + j).
Proof.
  intros Hk Hj i Hi. destruct (Z.lt_ge_cases i k); [apply Hk; lia|].
  replace (s + i) with (s + k + (i - k)) by lia. apply Hj. lia.
Qed.

Lemma first_at_app P m s k j :
  0 <= k -> skip P m s k -> first_at P m (s + k) j -> first_at P m s (k + j).
Proof.
  intros H0 Hk (Hj & Hn & Hp). split; [lia|]. split; [by apply skip_app|].
  by rewrite Z.add_assoc.
Qed.

Lemma first_at_unique P m s a b : first_at P m s a -> first_at P m s b -> a = b.
Proof.
  intros (Ha & Na & Pa) (Hb & Nb & Pb). destruct (Z.lt_trichotomy a b) as [L|[->|L]]; [|done|].
  - rewrite Nb in Pa by lia. done.
  - rewrite Na in Pb by lia. done.
Qed.

Definition is_zero (b : Z) : bool := b =? 0.
Definition is_byte (c b : Z) : bool := b =? c.

(** ** strnlen() *)

Lemma strnlen_words_spec m str max n fuel k :
  bytes_ok m -> 0 <= k -> 0 <= max -> skip is_zero m str k -> 0 <= n ->
  max <= n \/ m (str + n) = 0 -> n - k < 4 * Z.of_nat fuel ->
  exists r, strnlen_words fuel m str (str + k) max = Some r
  /\ 0 <= r <= max /\ skip is_zero m str r /\ (r = max \/ first_at is_zero m str r).
Proof.
  intros Hm. revert k. induction fuel as [|fuel IH]; intros k Hk Hmax Hs Hn Hend Hf; cbn [strnlen_words];
    replace (str + k - str) with k by lia.
  { assert (max <= k) as Hle.
    { destruct Hend as [|Hz]; [lia|]. specialize (Hs n ltac:(lia)). unfold is_zero in Hs. lia. }
    rewrite (proj2 (Z.ltb_ge k max)) by lia. exists max. split_and!; auto; try lia.
    intros i Hi. apply Hs. lia. }
  destruct (Z.ltb_spec k max).
  2:{ exists max. split_and!; auto; try lia. intros i Hi. apply Hs. lia. }
  destruct (zero_word m (str + k) Hm) as [Hi Hz].
  destruct (word_first_cases is_zero m (str + k)) as [[Hr Hf1]|[Hr Hnz]].
  - rewrite (proj2 (Z.eqb_neq (haszero _) 0)) by (intros E; apply Hz in E; unfold is_zero in Hr; lia).
    cbn [negb]. rewrite Hi. change (fun b : Z => b =? 0) with is_zero.
    set (w := word_first is_zero m (str + k)) in *.
    pose proof (first_at_app _ _ _ _ _ Hk Hs Hf1) as Hf2.
    exists (Z.min max (k + w)). split_and!; try lia; [done| |].
    + intros i Hi'. apply Hf2. lia.
    + destruct (Z.le_gt_cases max (k + w)); [left; lia|right]. by rewrite Z.min_r by lia.
  - rewrite (proj2 (Z.eqb_eq (haszero _) 0)) by (by apply Hz). cbn [negb].
    rewrite <- Z.add_assoc. apply IH; try lia. apply skip_app; done.
Qed.

(** strnlen(), one word at a time from the first aligned address, returns the
    place of the first zero byte when that comes before [max] and [max] otherwise,
    for every alignment of the string and whatever follows it. *)
Theorem strnlen_spec (m : mem) (str max n : Z) (fuel : nat) :
  bytes_ok m -> 0 <= max -> 0 <= n < 4 * Z.of_nat fuel -> max <= n \/ m (str + n) = 0 ->
  exists r, strnlen fuel m str max = Some r /\ 0 <= r <= max
  /\ (forall i, 0 <= i < r -> m (str + i) <> 0) /\ (r < max -> m (str + r) = 0).
Proof.
  intros Hm Hmax Hfn Hend. unfold strnlen. pose proof (scan_head_spec 3 is_zero (fun s => s - str <? max) m str) as H.
  change (fun b : Z => b =? 0) with is_zero.
  destruct (scan_head _ _ _ _ _) as [p|p]; destruct H as (k & -> & H).
  - destruct H as [(H0 & Hn & Hz) Hlt]. exists k. replace (str + k - str) with k in * by lia.
    split_and!; try lia; [done| |].
    + intros i Hi. specialize (Hn i Hi). unfold is_zero in Hn. lia.
    + intros _. unfold is_zero in Hz. lia.
  - destruct H as [Hk Hn].
    destruct (strnlen_words_spec m str max n fuel k) as (r & Hr & Hrm & Hs & Hf); auto; try lia.
    { intros i Hi. by apply Hn. }
    exists r. split_and!; [done|lia|lia| |].
    + intros i Hi. specialize (Hs i Hi). unfold is_zero in Hs. lia.
    + intros Hlt. destruct Hf as [->|(_ & _ & Hz)]; [lia|]. unfold is_zero in Hz. lia.
Qed.

(** ** memchr() *)

Lemma memchr_words_spec m ptr c n fuel k :
  bytes_ok m -> byte c -> 0 <= k -> skip (is_byte c) m ptr k -> n - k <= 4 * Z.of_nat fuel ->
  exists r, memchr_words fuel m ptr (ptr + k) c n = Some r
  /\ match r with
     | Some p => exists i, p = ptr + i /\ i < n /\ first_at (is_byte c) m ptr i
     | None => skip (is_byte c) m ptr n
     end.
Proof.
  intros Hm Hc. revert k. induction fuel as [|fuel IH]; intros k Hk Hs Hf; cbn [memchr_words];
    replace (ptr + k - ptr) with k by lia.
  { rewrite (proj2 (Z.ltb_ge k n)) by lia. exists None. split; [done|]. intros i Hi. apply Hs. lia. }
  destruct (Z.ltb_spec k n).
  2:{ exists None. split; [done|]. intros i Hi. apply Hs. lia. }
  destruct (byte_word m (ptr + k) c Hm Hc) as [Hi Hz].
  destruct (word_first_cases (is_byte c) m (ptr + k)) as [[Hr Hf1]|[Hr Hn]].
  - rewrite (proj2 (Z.eqb_neq (byte_mask _ _) 0)) by (intros E; apply Hz in E; unfold is_byte in Hr; lia).
    cbn [negb]. rewrite Hi. change (fun b : Z => b =? c) with (is_byte c).
    set (w := word_first (is_byte c) m (ptr + k)) in *.
    pose proof (first_at_app _ _ _ _ _ Hk Hs Hf1) as Hf2.
    replace (ptr + k + w - ptr) with (k + w) by lia. eexists. split; [done|].
    destruct (Z.ltb_spec (k + w) n); [exists (k + w); split_and!; [lia|done|done..]; apply Hf2|].
    intros i Hi'. apply Hf2. lia.
  - rewrite (proj2 (Z.eqb_eq (byte_mask _ _) 0)) by (by apply Hz). cbn [negb].
    rewrite <- Z.add_assoc. apply IH; try lia. apply skip_app; done.
Qed.

(** memchr() returns the first of the [n] bytes that equals [c], and a null
    pointer exactly when there is none; a hit in the part of the last word beyond
    the [n] bytes is not reported. *)
Theorem memchr_spec (m : mem) (ptr c n : Z) (fuel : nat) :
  bytes_ok m -> byte c -> n <= 4 * Z.of_nat fuel ->
  exists r, memchr fuel m ptr c n = Some r
  /\ match r with
     | Some p => exists k, p = ptr + k /\ 0 <= k < n /\ m p = c
                           /\ (forall i, 0 <= i < k -> m (ptr + i) <> c)
     | None => forall i, 0 <= i < n -> m (ptr + i) <> c
     end.
Proof.
  intros Hm Hc Hn. unfold memchr. change (fun b : Z => b =? c) with (is_byte c).
  pose proof (scan_head_spec 3 (is_byte c) (fun p => p - ptr <? n) m ptr) as H.
  destruct (scan_head _ _ _ _ _) as [p|p]; destruct H as (k & -> & H).
  - destruct H as [(H0 & Hs & Hz) Hlt]. eexists. split; [done|]. exists k.
    unfold is_byte in *. split_and!; try lia. intros i Hi. specialize (Hs i Hi). simpl in Hs. lia.
  - destruct H as [Hk Hs].
    destruct (memchr_words_spec m ptr c n fuel k) as (r & Hr & H); auto; try lia.
    { intros i Hi. by apply Hs. }
    exists r. split; [done|]. unfold is_byte, first_at, skip in H. destruct r as [p|].
    + destruct H as (i & -> & Hi & Hi0 & Hb & Hz). exists i. split_and!; try lia.
      intros j Hj. specialize (Hb j Hj). lia.
    + intros i Hi. specialize (H i Hi). lia.
Qed.

(** ** strchrnul(), strchr() *)

Definition hit (c b : Z) : bool := (b =? c) || (b =? 0).

Lemma char_is_ascii b c : byte b -> 0 <= c < 128 -> char_is b c = (b =? c).
Proof.
  unfold byte, char_is, s8, signed. intros Hb Hc. cbn zeta.
  case_match; apply eq_true_iff_eq; rewrite !Z.eqb_eq; Z.to_euclidean_division_equations; lia.
Qed.

Lemma lor_flags a0 a1 a2 a3 b0 b1 b2 b3 :
  Z.lor (word4 (flag a0) (flag a1) (flag a2) (flag a3)) (word4 (flag b0) (flag b1) (flag b2) (flag b3))
  = word4 (flag (a0 || b0)) (flag (a1 || b1)) (flag (a2 || b2)) (flag (a3 || b3)).
Proof. by destruct a0, a1, a2, a3, b0, b1, b2, b3. Qed.

Lemma hit_word m p c :
  bytes_ok m -> byte c ->
  let x := Z.lor (byte_mask (load_lel m p) c) (zero_mask (load_lel m p)) in
  mask_index x = word_first (hit c) m p /\ (x = 0 <-> word_first (hit c) m p = -1).
Proof.
  intros Hm Hc. cbn zeta. unfold load_lel. rewrite byte_mask_word4, zero_mask_word4, lor_flags by done.
  rewrite mask_index_word4. split; [done|]. unfold word_first, hit, word4, flag. repeat case_match; lia.
Qed.

Lemma strchrnul_words_spec m s c len fuel k :
  bytes_ok m -> 0 <= c < 128 -> first_at is_zero m s len -> 0 <= k <= len ->
  skip (hit c) m s k -> len - k < 4 * Z.of_nat fuel ->
  exists j, strchrnul_words fuel m (s + k) c = Some (s + j) /\ first_at (hit c) m s j.
Proof.
  intros Hm Hc Hlen. revert k. induction fuel as [|fuel IH]; intros k Hk Hs Hf; [lia|].
  cbn [strchrnul_words]. destruct (hit_word m (s + k) c Hm) as [Hi Hz]; [unfold byte; lia|].
  destruct (word_first_cases (hit c) m (s + k)) as [[Hr Hf1]|[Hr Hn]].
  - rewrite (proj2 (Z.eqb_neq (Z.lor _ _) 0)) by (intros E; apply Hz in E; lia).
    cbn [negb]. rewrite Hi. set (w := word_first (hit c) m (s + k)) in *.
    exists (k + w). split; [f_equal; lia|]. apply first_at_app; [lia|done..].
  - rewrite (proj2 (Z.eqb_eq (Z.lor _ _) 0)) by (by apply Hz). cbn [negb].
    rewrite <- Z.add_assoc. pose proof (skip_app _ _ _ _ _ Hs Hn) as Hs4.
    apply IH; try done; [|lia]. split; [lia|]. destruct (Z.le_gt_cases (k + 4) len); [done|].
    destruct Hlen as (_ & _ & Hz0). specialize (Hs4 len ltac:(lia)).
    unfold hit, is_zero in *. rewrite Hz0, orb_true_r in Hs4. done.
Qed.

Lemma first_at_ext P Q m s k :
  (forall i, 0 <= i <= k -> P (m (s + i)) = Q (m (s + i))) -> first_at P m s k -> first_at Q m s k.
Proof.
  intros He (H0 & Hn & Hp). split_and!; [done| |by rewrite <- He by lia].
  intros i Hi. rewrite <- He by lia. by apply Hn.
Qed.

Lemma strchrnul_first m s c len fuel :
  bytes_ok m -> 0 <= c < 128 -> first_at is_zero m s len -> len < 4 * Z.of_nat fuel ->
  exists j, strchrnul fuel m s c = Some (s + j) /\ first_at (hit c) m s j /\ j <= len.
Proof.
  intros Hm Hc Hlen Hf. unfold strchrnul. set (P := fun b => char_is b c || (b =? 0)).
  assert (forall a, P (m a) = hit c (m a)) as HP.
  { intros a. unfold P, hit. by rewrite char_is_ascii by (done || apply Hm). }
  assert (forall j, skip (hit c) m s j -> j <= len) as Hle.
  { intros j Hj. destruct (Z.le_gt_cases j len); [done|].
    destruct Hlen as (H0 & _ & Hz0). specialize (Hj len ltac:(lia)).
    unfold hit, is_zero in *. rewrite Hz0, orb_true_r in Hj. done. }
  pose proof (scan_head_spec 3 P (fun _ => true) m s) as H.
  destruct (scan_head _ _ _ _ _) as [p|p]; destruct H as (k & -> & H).
  - destruct H as [Hk _]. apply (first_at_ext P (hit c)) in Hk; [|by intros; apply HP].
    exists k. split_and!; [done|done|exact (Hle k (proj1 (proj2 Hk)))].
  - destruct H as [Hk Hs].
    assert (skip (hit c) m s k) as Hsk by (intros i Hi; rewrite <- HP; exact (proj1 (Hs i Hi))).
    pose proof (Hle k Hsk).
    destruct (strchrnul_words_spec m s c len fuel k) as (j & Hj & Hfj); auto; try lia.
    exists j. split_and!; [done|done|exact (Hle j (proj1 (proj2 Hfj)))].
Qed.

(** strchrnul() on a string and an ASCII character returns its first occurrence
    in the string, or the terminator when it does not occur; the terminator is an
    occurrence of zero. *)
Theorem strchrnul_spec (m : mem) (s c len : Z) (fuel : nat) :
  bytes_ok m -> 0 <= c < 128 -> first_at is_zero m s len -> len < 4 * Z.of_nat fuel ->
  exists j, strchrnul fuel m s c = Some (s + j) /\ 0 <= j <= len
  /\ (forall i, 0 <= i < j -> m (s + i) <> c) /\ (j < len -> m (s + j) = c).
Proof.
  intros Hm Hc Hlen Hf. destruct (strchrnul_first m s c len fuel) as (j & Hj & (H0 & Hn & Hp) & Hle); auto.
  exists j. split_and!; [done|lia|lia| |].
  - intros i Hi. specialize (Hn i Hi). unfold hit in Hn. lia.
  - intros Hlt. destruct Hlen as (_ & Hz & _). specialize (Hz j ltac:(lia)). unfold hit, is_zero in *. lia.
Qed.

(** ** strscan(): spans of a set of bytes *)

(** The bytes of the string at [set] of length [n]. *)
Definition in_string (m : mem) (set n b : Z) : Prop := exists i, 0 <= i < n /\ m (set + i) = b.

Lemma first_at_tail P m s n : first_at P m s n -> 0 < n -> first_at P m (s + 1) (n - 1).
Proof.
  intros (H0 & Hn & Hp) Hpos. split; [lia|]. split.
  - intros i Hi. replace (s + 1 + i) with (s + (1 + i)) by lia. apply Hn. lia.
  - by replace (s + 1 + (n - 1)) with (s + n) by lia.
Qed.

Lemma scan_set_spec m fuel : forall set n present,
  bytes_ok m -> first_at is_zero m set n -> n <= Z.of_nat fuel ->
  exists p, scan_set fuel m set present = Some p
  /\ forall b, 0 <= b -> Z.testbit p b = true <-> Z.testbit present b = true \/ in_string m set n b.
Proof.
  induction fuel as [|fuel IH]; intros set n present Hm Hn Hf; cbn [scan_set].
  - assert (n = 0) as -> by (destruct Hn; lia). destruct Hn as (_ & _ & Hz).
    rewrite Z.add_0_r in Hz. unfold is_zero in Hz. rewrite Hz. exists present. split; [done|].
    intros b Hb. split; [by left|]. intros [|(i & Hi & _)]; [done|lia].
  - destruct (Z.eqb_spec (m set) 0) as [Hz|Hz].
    + exists present. split; [done|]. intros b Hb.
      assert (n = 0) as ->.
      { apply (first_at_unique is_zero m set); [done|]. split_and!; [done|lia|].
        rewrite Z.add_0_r. unfold is_zero. lia. }
      split; [by left|]. intros [|(i & Hi & _)]; [done|lia].
    + assert (0 < n) as Hpos.
      { destruct Hn as (? & _ & Hp). destruct (Z.eq_dec n 0) as [->|]; [|lia].
        rewrite Z.add_0_r in Hp. unfold is_zero in Hp. lia. }
      destruct (IH (set + 1) (n - 1) (Z.lor present (Z.shiftl 1 (m set)))) as (p & Hp & Hb);
        [done|by apply first_at_tail|lia|].
      exists p. split; [done|]. intros b Hb0. rewrite Hb, Z.lor_spec, orb_true_iff by done.
      pose proof (Hm set) as Hbyte. unfold byte in Hbyte. rewrite Z.shiftl_1_l, Z.pow2_bits_eqb by lia.
      rewrite Z.eqb_eq. split.
      * intros [[?|<-]|(i & Hi & <-)]; [by left|right|right].
        -- exists 0. rewrite Z.add_0_r. split; [lia|done].
        -- exists (i + 1). split; [lia|]. f_equal. lia.
      * intros [?|(i & Hi & <-)]; [auto|]. destruct (Z.eq_dec i 0) as [->|].
        -- left. right. by rewrite Z.add_0_r.
        -- right. exists (i - 1). split; [lia|]. f_equal. lia.
Qed.

Lemma scan_run_spec m present accept fuel : forall s n,
  first_at is_zero m s n -> n <= Z.of_nat fuel ->
  exists k, scan_run fuel m s present accept = Some (s + k) /\ 0 <= k <= n
  /\ (forall i, 0 <= i < k -> Z.testbit present (m (s + i)) = accept)
  /\ (k < n -> Z.testbit present (m (s + k)) = negb accept).
Proof.
  induction fuel as [|fuel IH]; intros s n Hn Hf; cbn [scan_run].
  - assert (n = 0) as -> by (destruct Hn; lia). destruct Hn as (_ & _ & Hz).
    rewrite Z.add_0_r in Hz. unfold is_zero in Hz. rewrite Hz. exists 0. rewrite Z.add_0_r.
    split_and!; done || lia.
  - destruct (Z.eqb_spec (m s) 0) as [Hz|Hz].
    { exists 0. rewrite Z.add_0_r. destruct Hn as (? & Hs & ?). split_and!; try (done || lia).
      intros Hlt. specialize (Hs 0 ltac:(lia)). rewrite Z.add_0_r in Hs. unfold is_zero in Hs. lia. }
    assert (0 < n) as Hpos.
    { destruct Hn as (? & _ & Hp). destruct (Z.eq_dec n 0) as [->|]; [|lia].
      rewrite Z.add_0_r in Hp. unfold is_zero in Hp. lia. }
    destruct (xorb accept (Z.testbit present (m s))) eqn:Hx.
    + exists 0. rewrite Z.add_0_r. split_and!; try (done || lia).
      intros _. destruct accept, (Z.testbit present (m s)); done.
    + destruct (IH (s + 1) (n - 1)) as (k & Hk & Hkn & Ha & Hstop); [by apply first_at_tail|lia|].
      exists (k + 1). split; [rewrite Hk; f_equal; lia|]. split; [lia|]. split.
      * intros i Hi. destruct (Z.eq_dec i 0) as [->|].
        -- rewrite Z.add_0_r. destruct accept, (Z.testbit present (m s)); done.
        -- replace (s + i) with (s + 1 + (i - 1)) by lia. apply Ha. lia.
      * intros Hlt. replace (s + (k + 1)) with (s + 1 + k) by lia. apply Hstop. lia.
Qed.

Lemma strscan_spec m s n set sn accept fuel :
  bytes_ok m -> first_at is_zero m s n -> first_at is_zero m set sn ->
  n <= Z.of_nat fuel -> sn <= Z.of_nat fuel ->
  exists k, strscan fuel m s set accept = Some (s + k) /\ 0 <= k <= n
  /\ (forall i, 0 <= i < k -> if accept then in_string m set sn (m (s + i)) else ~ in_string m set sn (m (s + i)))
  /\ (k < n -> if accept then ~ in_string m set sn (m (s + k)) else in_string m set sn (m (s + k))).
Proof.
  intros Hm Hs Hset Hn Hsn. unfold strscan.
  destruct (scan_set_spec m fuel set sn 0 Hm Hset Hsn) as (p & -> & Hp). cbn [mbind option_bind].
  destruct (scan_run_spec m p accept fuel s n Hs Hn) as (k & -> & Hk & Ha & Hstop).
  assert (forall a, Z.testbit p (m a) = true <-> in_string m set sn (m a)) as Hin.
  { intros a. rewrite Hp, Z.bits_0 by apply Hm. naive_solver. }
  exists k. split_and!; try done || lia.
  - intros i Hi. specialize (Ha i Hi). destruct accept; [by apply Hin|].
    rewrite <- Hin. by rewrite Ha.
  - intros Hlt. specialize (Hstop Hlt). destruct accept; cbn [negb] in Hstop; rewrite <- Hin; by rewrite Hstop.
Qed.

(** strspn() returns the length of the longest prefix of a string that is made
    of bytes of [accept], and strcspn() of the longest that has none of [reject]. *)
Theorem strspn_strcspn_spec (m : mem) (s n set sn : Z) (fuel : nat) :
  bytes_ok m -> first_at is_zero m s n -> first_at is_zero m set sn ->
  n <= Z.of_nat fuel -> sn <= Z.of_nat fuel ->
  exists j k, strspn fuel m s set = Some j /\ strcspn fuel m s set = Some k
  /\ 0 <= j <= n /\ (forall i, 0 <= i < j -> in_string m set sn (m (s + i)))
  /\ (j < n -> ~ in_string m set sn (m (s + j)))
  /\ 0 <= k <= n /\ (forall i, 0 <= i < k -> ~ in_string m set sn (m (s + i)))
  /\ (k < n -> in_string m set sn (m (s + k))).
Proof.
  intros Hm Hs Hset Hn Hsn. unfold strspn, strcspn.
  destruct (strscan_spec m s n set sn true fuel) as (j & -> & ? & ? & ?); auto.
  destruct (strscan_spec m s n set sn false fuel) as (k & -> & ? & ? & ?); auto.
  exists j, k. cbn. split_and!; auto; try (f_equal; lia); lia.
Qed.

(** ** strstr() *)

(** The needle of length [nn] occurs at distance [k] from [hay]. *)
Definition occurs (m : mem) (hay needle nn k : Z) : Prop :=
  0 <= k /\ forall i, 0 <= i < nn -> m (hay + k + i) = m (needle + i).

Lemma string_nonzero m s n i : first_at is_zero m s n -> 0 <= i < n -> m (s + i) <> 0.
Proof. intros (_ & Hn & _) Hi. specialize (Hn i Hi). unfold is_zero in Hn. lia. Qed.

Lemma string_end m s n : first_at is_zero m s n -> m (s + n) = 0.
Proof. intros (_ & _ & Hz). unfold is_zero in Hz. lia. Qed.

Lemma string_drop m s n k : first_at is_zero m s n -> 0 <= k <= n -> first_at is_zero m (s + k) (n - k).
Proof.
  intros (H0 & Hn & Hp) Hk. split; [lia|]. split.
  - intros i Hi. rewrite <- Z.add_assoc. apply Hn. lia.
  - by replace (s + k + (n - k)) with (s + n) by lia.
Qed.

Lemma occurs_fits m hay hn needle nn k :
  first_at is_zero m hay hn -> first_at is_zero m needle nn -> k <= hn ->
  occurs m hay needle nn k -> k + nn <= hn.
Proof.
  intros Hh Hn Hk [H0 Ho]. destruct (Z.le_gt_cases (k + nn) hn); [done|].
  exfalso. apply (string_nonzero m needle nn (hn - k) Hn); [lia|].
  rewrite <- Ho by lia. replace (hay + k + (hn - k)) with (hay + hn) by lia. by apply string_end.
Qed.

Lemma occurs_shift m hay needle nn j k :
  0 <= j -> 0 <= k -> occurs m hay needle nn (j + k) <-> occurs m (hay + j) needle nn k.
Proof.
  intros Hj Hk. unfold occurs. rewrite Z.add_assoc. split; intros [_ Ho]; (split; [lia|done]).
Qed.

Lemma strstr_prefix_spec m hay hn needle nn fuel : forall i diff,
  first_at is_zero m hay hn -> first_at is_zero m needle nn ->
  0 <= i <= nn -> i <= hn -> nn - i <= Z.of_nat fuel ->
  exists r, strstr_prefix fuel m hay needle i diff = Some r
  /\ match r with
     | None => hn < nn
     | Some (l, d) => l = nn /\ (d = 0 <-> diff = 0 /\ forall j, i <= j < nn -> m (hay + j) = m (needle + j))
     end.
Proof.
  induction fuel as [|fuel IH]; intros i diff Hh Hn Hi Hih Hf; cbn [strstr_prefix].
  - assert (i = nn) as -> by lia. rewrite (string_end _ _ _ Hn). cbn. eexists. split; [done|].
    cbn. split; [done|]. split; [intros ->; split; [done|lia]|by intros [? _]].
  - destruct (Z.eq_dec i nn) as [->|].
    { rewrite (string_end _ _ _ Hn). cbn. eexists. split; [done|].
      cbn. split; [done|]. split; [intros ->; split; [done|lia]|by intros [? _]]. }
    rewrite (proj2 (Z.eqb_neq (m (needle + i)) 0)) by (apply (string_nonzero _ _ _ _ Hn); lia).
    destruct (Z.eqb_spec (m (hay + i)) 0) as [Hz|Hz].
    { exists None. split; [done|]. destruct (Z.le_gt_cases nn hn); [|lia].
      exfalso. apply (string_nonzero m hay hn i Hh); [lia|done]. }
    assert (i < hn) as Hlt.
    { destruct (Z.eq_dec i hn) as [->|]; [|lia]. by rewrite (string_end _ _ _ Hh) in Hz. }
    destruct (IH (i + 1) (Z.lor diff (Z.lxor (m (needle + i)) (m (hay + i))))) as (r & Hr & Hs); try done || lia.
    exists r. split; [done|]. destruct r as [[l d]|]; [|done]. destruct Hs as [-> Hd]. split; [done|].
    rewrite Hd, Z.lor_eq_0_iff, Z.lxor_eq_0_iff. split.
    + intros [[-> He] Hj]. split; [done|]. intros j Hj'. destruct (Z.eq_dec j i) as [->|]; [done|apply Hj; lia].
    + intros [-> Hj]. split_and!; [done|symmetry; apply Hj; lia|]. intros j Hj'. apply Hj. lia.
Qed.

Lemma strstr_cmp_spec m hay hn needle nn n : forall i,
  first_at is_zero m hay hn -> first_at is_zero m needle nn -> 0 <= i -> i + Z.of_nat n = nn ->
  (forall j, 0 <= j < i -> m (hay + j) = m (needle + j)) ->
  match strstr_cmp n m hay needle i with
  | Some true => occurs m hay needle nn 0
  | Some false => 0 < hn /\ ~ occurs m hay needle nn 0
  | None => hn < nn
  end.
Proof.
  induction n as [|n IH]; intros i Hh Hn Hi Hf Hp; cbn [strstr_cmp].
  - split; [lia|]. intros j Hj. rewrite Z.add_0_r. apply Hp. lia.
  - assert (i <= hn) as Hle.
    { destruct (Z.le_gt_cases i hn); [done|]. exfalso. apply (string_nonzero m needle nn hn Hn).
      - destruct Hh. lia.
      - rewrite <- Hp by (destruct Hh; lia). by apply string_end. }
    destruct (Z.eqb_spec (m (hay + i)) (m (needle + i))) as [He|He]; cbn [negb].
    + apply IH; try done || lia. intros j Hj. destruct (Z.eq_dec j i) as [->|]; [done|apply Hp; lia].
    + destruct (Z.eqb_spec (m (hay + i)) 0) as [Hz|Hz].
      * destruct (Z.eq_dec i hn) as [->|]; [lia|]. exfalso. apply (string_nonzero m hay hn i Hh); [lia|done].
      * split; [destruct (Z.eq_dec i hn) as [->|]; [by rewrite (string_end _ _ _ Hh) in Hz|lia]|].
        intros [_ Ho]. apply He. rewrite <- (Ho i) by lia. by rewrite Z.add_0_r.
Qed.

Lemma strstr_loop_spec m needle nn fuel : forall hay hn,
  bytes_ok m -> first_at is_zero m hay hn -> first_at is_zero m needle nn -> 0 < nn ->
  0 <= m needle < 128 -> hn <= Z.of_nat fuel ->
  exists r, strstr_loop fuel m hay needle nn = Some r
  /\ match r with
     | Some p => exists k, p = hay + k /\ k + nn <= hn /\ occurs m hay needle nn k
                           /\ forall j, 0 <= j < k -> ~ occurs m hay needle nn j
     | None => forall j, j <= hn -> ~ occurs m hay needle nn j
     end.
Proof.
  induction fuel as [|fuel IH]; intros hay hn Hm Hh Hn Hpos Hc Hf; cbn [strstr_loop];
    pose proof (strstr_cmp_spec m hay hn needle nn (Z.to_nat nn) 0 Hh Hn) as Hcmp;
    specialize (Hcmp ltac:(lia) ltac:(lia) ltac:(lia));
    (destruct (strstr_cmp _ _ _ _ _) as [[]|];
     [eexists; split; [done|]; exists 0; rewrite Z.add_0_r; split_and!; [done| |done|lia];
        apply (occurs_fits m hay hn needle nn 0) in Hcmp; (done || lia || (destruct Hh; lia))| |
      eexists; split; [done|]; intros j Hj Ho;
        pose proof (occurs_fits m hay hn needle nn j Hh Hn Hj Ho); destruct Ho; lia]).
  - lia.
  - destruct Hcmp as [Hhn Hno].
    replace (s8 (m needle)) with (m needle) by (unfold s8; by rewrite signed_id by lia).
    unfold strchr.
    destruct (strchrnul_first m (hay + 1) (m needle) (hn - 1) (S fuel)) as (q & -> & Hq & Hqn);
      [done|done|by apply first_at_tail|lia|].
    cbn [mbind option_bind].
    assert (forall j, 1 <= j < 1 + q -> ~ occurs m hay needle nn j) as Hskip.
    { intros j Hj [_ Ho]. destruct Hq as (_ & Hs & _). specialize (Hs (j - 1) ltac:(lia)).
      replace (hay + 1 + (j - 1)) with (hay + j + 0) in Hs by lia. rewrite Ho in Hs by lia.
      unfold hit in Hs. rewrite Z.add_0_r, Z.eqb_refl in Hs. done. }
    assert (forall j, j < 1 + q -> ~ occurs m hay needle nn j) as Hbefore.
    { intros j Hj Ho. destruct (Z.eq_dec j 0) as [->|]; [done|]. apply (Hskip j); [|done]. destruct Ho; lia. }
    destruct (Z.eqb_spec (m (hay + 1 + q)) 0) as [Hz|Hz].
    + exists None. split; [done|]. intros j Hj. assert (q = hn - 1) as ->.
      { destruct (Z.eq_dec q (hn - 1)); [done|]. exfalso.
        apply (string_nonzero m hay hn (1 + q) Hh); [destruct Hq; lia|]. rewrite <- Hz. f_equal. lia. }
      destruct (Z.eq_dec j hn) as [->|]; [|apply Hbefore; lia]. intros Ho.
      apply (occurs_fits m hay hn needle nn hn) in Ho; (done || lia).
    + destruct (IH (hay + 1 + q) (hn - (1 + q))) as (r & Hr & Hspec); auto; [|destruct Hq; lia|].
      { rewrite <- Z.add_assoc. apply string_drop; [done|]. destruct Hq. lia. }
      exists r. split; [done|]. rewrite <- !Z.add_assoc in Hspec. destruct Hq as [Hq0 _].
      destruct r as [p|].
      * destruct Hspec as (k & -> & Hk & Ho & Hfirst). exists (1 + q + k).
        destruct Ho as [Hk0 Ho']. split_and!; [lia|lia| |].
        -- apply occurs_shift; [lia..|]. by split.
        -- intros j Hj. destruct (Z.lt_ge_cases j (1 + q)); [apply Hbefore; lia|].
           replace j with (1 + q + (j - (1 + q))) by lia. rewrite occurs_shift by lia. apply Hfirst. lia.
      * intros j Hj. destruct (Z.lt_ge_cases j (1 + q)); [apply Hbefore; lia|].
        replace j with (1 + q + (j - (1 + q))) by lia. rewrite occurs_shift by lia. apply Hspec. lia.
Qed.

(** strstr() returns the first occurrence of the needle in the haystack, and a
    null pointer exactly when there is none, for a needle that starts with an
    ASCII character (or is empty: then the haystack itself). *)
Theorem strstr_spec (m : mem) (hay hn needle nn : Z) (fuel : nat) :
  bytes_ok m -> first_at is_zero m hay hn -> first_at is_zero m needle nn ->
  m needle < 128 -> hn <= Z.of_nat fuel -> nn <= Z.of_nat fuel ->
  exists r, strstr fuel m hay needle = Some r
  /\ match r with
     | Some p => exists k, p = hay + k /\ k + nn <= hn /\ occurs m hay needle nn k
                           /\ forall j, 0 <= j < k -> ~ occurs m hay needle nn j
     | None => forall j, j <= hn -> ~ occurs m hay needle nn j
     end.
Proof.
  intros Hm Hh Hn Hc Hf Hfn. unfold strstr. pose proof (proj1 Hh). pose proof (proj1 Hn).
  destruct (Z.eqb_spec (m needle) 0) as [Hz|Hz].
  - assert (nn = 0) as ->.
    { destruct (Z.eq_dec nn 0); [done|]. exfalso.
      apply (string_nonzero m needle nn 0 Hn); [lia|]. by rewrite Z.add_0_r. }
    eexists. split; [done|]. exists 0. split_and!; try lia. split; [lia|]. intros; lia.
  - assert (0 < nn) as Hpos.
    { destruct (Z.eq_dec nn 0) as [->|]; [|lia]. pose proof (string_end _ _ _ Hn) as He.
      by rewrite Z.add_0_r in He. }
    destruct (strstr_prefix_spec m hay hn needle nn fuel 0 0) as (r & -> & Hr); auto; try lia.
    cbn [mbind option_bind]. destruct r as [[l d]|].
    + destruct Hr as [-> Hd]. destruct (Z.eqb_spec d 0) as [Hd0|Hd0].
      * apply Hd in Hd0 as [_ He]. eexists. split; [done|]. exists 0.
        assert (occurs m hay needle nn 0) as Ho.
        { split; [lia|]. intros i Hi. rewrite Z.add_0_r. by apply He. }
        split_and!; [lia| |done|lia]. by apply (occurs_fits m hay hn needle nn 0).
      * apply strstr_loop_spec; auto. pose proof (Hm needle) as Hb. unfold byte in Hb. lia.
    + eexists. split; [done|]. intros j Hj Ho. apply (occurs_fits m hay hn needle nn j) in Ho as Hx; try done.
      destruct Ho. lia.
Qed.

(** ** strrchr() *)

Lemma strrchr_back_spec m s c fuel : forall t,
  s <= t -> t - s <= Z.of_nat fuel ->
  exists r, strrchr_back fuel m s t c = Some r
  /\ match r with
     | Some p => s < p <= t /\ char_is (m p) c = true /\ forall q, p < q <= t -> char_is (m q) c = false
     | None => forall q, s < q <= t -> char_is (m q) c = false
     end.
Proof.
  induction fuel as [|fuel IH]; intros t Ht Hf; cbn [strrchr_back].
  - assert (t = s) as -> by lia. rewrite Z.eqb_refl. cbn. rewrite andb_false_r.
    exists None. split; [done|]. cbn. intros; lia.
  - destruct (char_is (m t) c) eqn:Hc; cbn [negb andb].
    + destruct (Z.eqb_spec t s); cbn [negb]; eexists; (split; [done|]); cbn; [intros; lia|].
      split_and!; [lia|lia|done|intros; lia].
    + destruct (Z.eqb_spec t s); cbn [negb]; [eexists; split; [done|]; cbn; intros; lia|].
      destruct (IH (t - 1)) as (r & Hr & Hs); [lia|lia|]. exists r. split; [done|]. destruct r as [p|].
      * destruct Hs as (Hp & Hcp & Hq). split_and!; [lia|lia|done|]. intros q Hq'.
        destruct (Z.eq_dec q t) as [->|]; [done|apply Hq; lia].
      * intros q Hq. destruct (Z.eq_dec q t) as [->|]; [done|apply Hs; lia].
Qed.

Lemma strlen_string m s n fuel :
  bytes_ok m -> first_at is_zero m s n -> n < SIZE_MAX -> n < 4 * Z.of_nat fuel ->
  strlen fuel m s = Some n.
Proof.
  intros Hm Hn Hmax Hf. pose proof (proj1 Hn) as Hn0. unfold strlen, strnlen.
  pose proof (scan_head_spec 3 is_zero (fun p => p - s <? SIZE_MAX) m s) as H.
  change (fun b : Z => b =? 0) with is_zero.
  destruct (scan_head _ _ _ _ _) as [p|p]; destruct H as (k & -> & H).
  - destruct H as [Hk _]. rewrite (first_at_unique _ _ _ _ _ Hn Hk). f_equal. lia.
  - destruct H as [Hk Hsk].
    destruct (strnlen_words_spec m s SIZE_MAX n fuel k) as (r & Hr & Hrm & Hs & Hat); [done|done|unfold SIZE_MAX; lia
      |intros i Hi; by apply Hsk|done|right; by apply string_end|lia|].
    rewrite Hr. f_equal. destruct Hat as [->|Hat]; [|by apply (first_at_unique is_zero m s)].
    exfalso. destruct Hn as (_ & _ & Hz). specialize (Hs n ltac:(lia)). by rewrite Hz in Hs.
Qed.

(** strrchr() returns the last occurrence of a character in a string, but never
    one at the string's first byte: with the character only there, or with an
    empty string and the terminator, it returns a null pointer. *)
Theorem strrchr_spec (m : mem) (s n c : Z) (fuel : nat) :
  bytes_ok m -> first_at is_zero m s n -> n < SIZE_MAX -> n < 4 * Z.of_nat fuel ->
  exists r, strrchr fuel m s c = Some r
  /\ match r with
     | Some p => exists k, p = s + k /\ 0 < k <= n /\ s8 (m p) = c
                           /\ forall i, k < i <= n -> s8 (m (s + i)) <> c
     | None => forall i, 0 < i <= n -> s8 (m (s + i)) <> c
     end.
Proof.
  intros Hm Hn Hmax Hf. pose proof (proj1 Hn). unfold strrchr. rewrite (strlen_string m s n) by done.
  cbn [mbind option_bind].
  destruct (strrchr_back_spec m s c (Z.to_nat n) (s + n)) as (r & Hr & Hs); [lia|lia|].
  exists r. split; [done|]. unfold char_is in Hs. destruct r as [p|].
  - destruct Hs as (Hp & Hc & Hq). exists (p - s). split_and!; try lia.
    intros i Hi. specialize (Hq (s + i) ltac:(lia)). lia.
  - intros i Hi. specialize (Hs (s + i) ltac:(lia)). lia.
Qed.

(** ** strncmp() *)

(** The first [max] characters of two strings agree, up to the end of the first. *)
Definition same_prefix (m : mem) (a b max : Z) : Prop :=
  forall i, 0 <= i < max -> (forall j, 0 <= j < i -> m (a + j) <> 0) -> m (a + i) = m (b + i).

Definition full (b : bool) : Z := if b then 255 else 0.

Lemma land_full x b : byte x -> Z.land x (full b) = if b then x else 0.
Proof.
  unfold byte. intros Hx. destruct b; [|apply Z.land_0_r]. change (full true) with (Z.ones 8).
  rewrite Z.land_ones by lia. apply Z.mod_small. lia.
Qed.

Lemma full_byte b : byte (full b).
Proof. unfold byte, full. by destruct b. Qed.

Lemma land_word4 b0 b1 b2 b3 c0 c1 c2 c3 :
  byte b0 -> byte b1 -> byte b2 -> byte b3 ->
  Z.land (word4 b0 b1 b2 b3) (word4 (full c0) (full c1) (full c2) (full c3))
  = word4 (if c0 then b0 else 0) (if c1 then b1 else 0) (if c2 then b2 else 0) (if c3 then b3 else 0).
Proof.
  intros H0 H1 H2 H3. pose proof (word4_range b0 b1 b2 b3 H0 H1 H2 H3) as Hw.
  assert (forall (c : bool) b, byte b -> byte (if c then b else 0)) as Hc
    by (intros [] b; unfold byte; lia).
  apply word_ext; [|by apply word4_range; apply Hc|].
  - split; [apply Z.land_nonneg; lia|]. apply (bits_bound 32); [lia|apply Z.land_nonneg; lia|].
    intros i Hi. by rewrite Z.land_spec, (testbit_high 32) by lia.
  - intros i j Hi Hj. rewrite Z.land_spec, !testbit_word4 by (done || apply full_byte || by apply Hc).
    repeat (case_match; [rewrite <- Z.land_spec, land_full by done; done|]).
    rewrite <- Z.land_spec, land_full by done. done.
Qed.

Lemma word4_inj a0 a1 a2 a3 b0 b1 b2 b3 :
  byte a0 -> byte a1 -> byte a2 -> byte a3 -> byte b0 -> byte b1 -> byte b2 -> byte b3 ->
  word4 a0 a1 a2 a3 = word4 b0 b1 b2 b3 <-> a0 = b0 /\ a1 = b1 /\ a2 = b2 /\ a3 = b3.
Proof. unfold byte, word4. lia. Qed.

Lemma s32_sub_zero x y : 0 <= x < 2 ^ 32 -> 0 <= y < 2 ^ 32 -> s32 (x - y) = 0 <-> x = y.
Proof.
  intros Hx Hy. unfold s32, signed. cbn zeta. split; [|intros ->; by rewrite Z.sub_diag].
  case_match; Z.to_euclidean_division_equations; lia.
Qed.

(** The mask of the bytes up to and including the first one flagged. *)
Lemma last_mask d0 d1 d2 d3 :
  d0 || d1 || d2 || d3 = true ->
  (let x := word4 (flag d3) (flag d2) (flag d1) (flag d0) in
   let m := u32 (Z.shiftr (Z.shiftl 1 (MSBL x)) 7 * 0xff) in
   let m := Z.lor m (u32 (Z.shiftl m 8)) in
   Z.lor m (u32 (Z.shiftl m 16)))
  = word4 (full (negb (d0 || d1 || d2))) (full (negb (d0 || d1))) (full (negb d0)) (full true).
Proof. by destruct d0, d1, d2, d3. Qed.

Lemma flag_zero_eq x y : (x = 0 <-> y = 0) -> flag (x =? 0) = flag (y =? 0).
Proof. unfold flag. destruct (Z.eqb_spec x 0), (Z.eqb_spec y 0); lia. Qed.

Lemma strncmp_last_spec a0 a1 a2 a3 b0 b1 b2 b3 :
  byte a0 -> byte a1 -> byte a2 -> byte a3 -> byte b0 -> byte b1 -> byte b2 -> byte b3 ->
  (a0 = 0 \/ a1 = 0 \/ a2 = 0 \/ a3 = 0 \/ b0 = 0 \/ b1 = 0 \/ b2 = 0 \/ b3 = 0) ->
  strncmp_last (word4 a3 a2 a1 a0) (word4 b3 b2 b1 b0) = 0
  <-> a0 = b0 /\ (a0 <> 0 -> a1 = b1 /\ (a1 <> 0 -> a2 = b2 /\ (a2 <> 0 -> a3 = b3))).
Proof.
  intros A0 A1 A2 A3 B0 B1 B2 B3 Hz. unfold strncmp_last.
  rewrite !zero_mask_word4, lor_flags by done. cbn zeta.
  pose proof (last_mask ((a0 =? 0) || (b0 =? 0)) ((a1 =? 0) || (b1 =? 0)) ((a2 =? 0) || (b2 =? 0))
    ((a3 =? 0) || (b3 =? 0))) as Hm. cbn zeta in Hm. rewrite Hm by lia.
  assert (forall b, byte (flag b)) as Hfl by (intros []; unfold byte, flag; lia).
  rewrite !land_word4 by (done || apply Hfl).
  assert (forall (c : bool) b, byte b -> byte (if c then b else 0)) as Hc
    by (intros [] b; unfold byte; lia).
  set (e := s32 (word4 _ _ _ _ - _)).
  assert (e = 0 <-> a0 = b0 /\ (negb ((a0 =? 0) || (b0 =? 0)) = true -> a1 = b1
    /\ (negb ((a1 =? 0) || (b1 =? 0)) = true -> a2 = b2 /\ (negb ((a2 =? 0) || (b2 =? 0)) = true -> a3 = b3)))) as He.
  { unfold e. rewrite s32_sub_zero, word4_inj by (done || (apply word4_range; auto) || auto).
    destruct ((a0 =? 0) || (b0 =? 0)), ((a1 =? 0) || (b1 =? 0)), ((a2 =? 0) || (b2 =? 0));
      cbn [orb negb]; intuition done. }
  destruct (Z.eqb_spec e 0) as [E|E]; cbn [negb].
  - apply He in E as E'. rewrite s32_sub_zero, word4_inj by ((apply word4_range; auto) || auto).
    clearbody e. clear He E Hm Hfl Hc A0 A1 A2 A3 B0 B1 B2 B3.
    destruct ((a0 =? 0) || (b0 =? 0)) eqn:D0; [|destruct ((a1 =? 0) || (b1 =? 0)) eqn:D1;
      [|destruct ((a2 =? 0) || (b2 =? 0)) eqn:D2]]; cbn [orb negb] in *;
      (split; intros _;
       [split; [lia|intros ?; split; [lia|intros ?; split; [lia|intros ?; lia]]]
       |split_and!; (done || (apply flag_zero_eq; lia))]).
  - split; [done|]. intros H. exfalso. apply E, He.
    clear -H. destruct H as [? H]. split; [done|]. intros D0. destruct H as [? H]; [lia|].
    split; [done|]. intros D1. destruct H as [? H]; [lia|]. split; [done|]. intros D2. apply H. lia.
Qed.

(** What [strncmp] has established when it goes on to position [pos]. *)
Definition agree (m : mem) (a b pos : Z) : Prop :=
  forall i, 0 <= i < pos -> m (a + i) = m (b + i) /\ m (a + i) <> 0.

Lemma agree_step m a b pos :
  agree m a b pos -> m (a + pos) = m (b + pos) -> m (a + pos) <> 0 -> agree m a b (pos + 1).
Proof. intros H He Hz i Hi. destruct (Z.eq_dec i pos) as [->|]; [done|apply H; lia]. Qed.

Lemma not_same m a b pos max :
  agree m a b pos -> 0 <= pos < max -> m (a + pos) <> m (b + pos) -> ~ same_prefix m a b max.
Proof. intros H Hp Hd Hs. apply Hd, Hs; [done|]. intros j Hj. exact (proj2 (H j Hj)). Qed.

Lemma same_end m a b pos max :
  agree m a b pos -> 0 <= pos -> m (a + pos) = m (b + pos) -> m (a + pos) = 0 -> same_prefix m a b max.
Proof.
  intros H Hp He Hz i Hi Hj. destruct (Z.lt_trichotomy i pos) as [L|[->|L]]; [apply H; lia|done|].
  by destruct (Hj pos ltac:(lia)).
Qed.

Lemma same_max m a b pos max : agree m a b pos -> max <= pos -> same_prefix m a b max.
Proof. intros H Hp i Hi _. apply H. lia. Qed.

(** The verdict on a string position by position. *)
Lemma same_unfold m a b pos max :
  agree m a b pos -> 0 <= pos < max ->
  same_prefix m a b max
  <-> m (a + pos) = m (b + pos) /\ (m (a + pos) <> 0 -> agree m a b (pos + 1) -> same_prefix m a b max).
Proof.
  intros H Hp. split.
  - intros Hs. split; [|auto]. apply Hs; [done|]. intros j Hj. exact (proj2 (H j Hj)).
  - intros [He Hn]. destruct (Z.eq_dec (m (a + pos)) 0).
    + apply (same_end m a b pos); (done || lia).
    + apply Hn; [done|]. by apply agree_step.
Qed.

(** One position of the strings at a time. *)
Lemma same_first m a b pos max (Q : Prop) :
  agree m a b pos -> 0 <= pos < max ->
  (agree m a b (pos + 1) -> same_prefix m a b max <-> Q) ->
  same_prefix m a b max <-> m (a + pos) = m (b + pos) /\ (m (a + pos) <> 0 -> Q).
Proof.
  intros H Hp HQ. rewrite (same_unfold m a b pos) by done. split; intros [He Hn]; (split; [done|]); intros Hz.
  - apply HQ, Hn; [|done|]; by apply agree_step.
  - intros Ha. by apply HQ, Hn.
Qed.

Lemma same_word m a b pos max :
  agree m a b pos -> 0 <= pos -> pos + 4 <= max ->
  same_prefix m a b max <-> m (a + pos) = m (b + pos) /\ (m (a + pos) <> 0 ->
    m (a + (pos + 1)) = m (b + (pos + 1)) /\ (m (a + (pos + 1)) <> 0 ->
    m (a + (pos + 2)) = m (b + (pos + 2)) /\ (m (a + (pos + 2)) <> 0 ->
    m (a + (pos + 3)) = m (b + (pos + 3)) /\ (m (a + (pos + 3)) <> 0 -> same_prefix m a b max)))).
Proof.
  intros H0 Hp Hmax. replace (pos + 3) with (pos + 1 + 1 + 1) by lia. replace (pos + 2) with (pos + 1 + 1) by lia.
  do 4 (apply same_first; [done|lia|intros ?]). done.
Qed.

Lemma strncmp_words_spec m a b max n fuel : forall words pos,
  bytes_ok m -> agree m a b pos -> 0 <= pos -> 0 <= n -> 0 <= words -> pos + 4 * words <= max ->
  max <= n \/ m (a + n) = 0 -> n - pos < 4 * Z.of_nat fuel ->
  exists r, strncmp_words fuel words m a b pos = Some r
  /\ match r with
     | inl c => c = 0 <-> same_prefix m a b max
     | inr p => p = pos + 4 * words /\ agree m a b p
     end.
Proof.
  induction fuel as [|fuel IH]; intros words pos Hm Ha Hp Hn Hw Hmax Hend Hf; cbn [strncmp_words];
    (destruct (Z.leb_spec words 0);
     [exists (inr pos); split; [done|]; split; [lia|];
      by replace (pos + 4 * words) with pos by lia|]).
  { exfalso. destruct Hend; [lia|]. destruct (Ha n); [lia|done]. }
  unfold load_bel. rewrite <- !Z.add_assoc.
  pose proof (Hm (a + pos)) as A0. pose proof (Hm (a + (pos + 1))) as A1.
  pose proof (Hm (a + (pos + 2))) as A2. pose proof (Hm (a + (pos + 3))) as A3.
  pose proof (Hm (b + pos)) as B0. pose proof (Hm (b + (pos + 1))) as B1.
  pose proof (Hm (b + (pos + 2))) as B2. pose proof (Hm (b + (pos + 3))) as B3.
  destruct (Z.eqb_spec (Z.lor (haszero (word4 (m (a + (pos + 3))) (m (a + (pos + 2))) (m (a + (pos + 1))) (m (a + pos))))
    (haszero (word4 (m (b + (pos + 3))) (m (b + (pos + 2))) (m (b + (pos + 1))) (m (b + pos))))) 0) as [Hz|Hz];
    rewrite Z.lor_eq_0_iff, !haszero_zero in Hz by done.
  - destruct Hz as [(NA3 & NA2 & NA1 & NA0) _].
    destruct (Z.eqb_spec (s32 (word4 (m (a + (pos + 3))) (m (a + (pos + 2))) (m (a + (pos + 1))) (m (a + pos))
      - word4 (m (b + (pos + 3))) (m (b + (pos + 2))) (m (b + (pos + 1))) (m (b + pos)))) 0) as [Hc|Hc]; cbn [negb];
      rewrite s32_sub_zero, word4_inj in Hc by (done || by apply word4_range).
    + destruct Hc as (E3 & E2 & E1 & E0).
      destruct (IH (words - 1) (pos + 4)) as (r & Hr & Hs); try done || lia.
      { replace (pos + 4) with (pos + 1 + 1 + 1 + 1) by lia.
        repeat (apply agree_step); replace (pos + 1 + 1 + 1) with (pos + 3) by lia;
          replace (pos + 1 + 1) with (pos + 2) by lia; done. }
      exists r. split; [by replace (pos + 4) with (pos + 4) by lia|]. destruct r; [done|].
      destruct Hs as [-> ?]. split; [lia|done].
    + eexists. split; [done|]. cbv beta iota. rewrite s32_sub_zero, word4_inj by (done || by apply word4_range).
      rewrite (same_word m a b pos) by (done || lia). split; [done|].
      intros (E0 & [E1 [E2 [E3 _]%(fun f => f NA2)]%(fun f => f NA1)]%(fun f => f NA0)). done.
  - eexists. split; [done|]. cbv beta iota. rewrite strncmp_last_spec by (done || lia).
    rewrite (same_word m a b pos) by (done || lia). clear -Hz.
    split; intros [E0 H]; (split; [done|]; intros N0; destruct (H N0) as [E1 H1];
      split; [done|]; intros N1; destruct (H1 N1) as [E2 H2];
      split; [done|]; intros N2; first [exact (proj1 (H2 N2))|
        split; [exact (H2 N2)|]; intros N3; specialize (H2 N2); exfalso; lia]).
Qed.

(** The stretch compared before the page boundaries are looked at again. *)
Lemma stretch max pos ua ub :
  0 < max - pos < 2 ^ 32 -> 0 < ua -> 0 < ub ->
  0 < u32 (Z.min (s32 (max - pos)) (Z.min ua ub)) <= max - pos.
Proof.
  intros Hm Ha Hb. unfold s32, signed, u32. cbn zeta. case_match; Z.to_euclidean_division_equations; lia.
Qed.

Lemma strncmp_bytes_spec m a b max k : forall pos,
  bytes_ok m -> agree m a b pos -> 0 <= pos -> pos + Z.of_nat k <= max ->
  match strncmp_bytes k m a b pos with
  | inl c => c = 0 <-> same_prefix m a b max
  | inr p => p = pos + Z.of_nat k /\ agree m a b p
  end.
Proof.
  induction k as [|k IH]; intros pos Hm Ha Hp Hmax; cbn [strncmp_bytes].
  { by rewrite Z.add_0_r. }
  pose proof (Hm (a + pos)) as Hba. pose proof (Hm (b + pos)) as Hbb. unfold byte in *.
  assert (s8 (m (a + pos)) - s8 (m (b + pos)) = 0 <-> m (a + pos) = m (b + pos)) as He.
  { unfold s8, signed. cbn zeta. split; [|intros ->; lia].
    repeat case_match; Z.to_euclidean_division_equations; lia. }
  destruct (Z.eqb_spec (s8 (m (a + pos)) - s8 (m (b + pos))) 0) as [Hc|Hc]; cbn [negb].
  - apply He in Hc. destruct (Z.eqb_spec (m (a + pos)) 0) as [Hz|Hz].
    + split; [|done]. intros _. apply (same_end m a b pos); (done || lia).
    + specialize (IH (pos + 1) Hm). replace (pos + Z.of_nat (S k)) with (pos + 1 + Z.of_nat k) by lia.
      apply IH; [by apply agree_step|lia|lia].
  - rewrite He. rewrite (same_unfold m a b pos) by (done || lia). rewrite He in Hc. naive_solver.
Qed.

Lemma until_page_pos p : 0 < until_page p.
Proof.
  unfold until_page. change 0xfff with (Z.ones 12). rewrite Z.land_ones by lia.
  Z.to_euclidean_division_equations. lia.
Qed.

Lemma strncmp_loop_spec m a b max n fuel : forall pos,
  bytes_ok m -> agree m a b pos -> 0 <= pos -> 0 <= n -> max < 2 ^ 32 ->
  max <= n \/ m (a + n) = 0 -> n - pos + 2 <= Z.of_nat fuel ->
  exists r, strncmp_loop fuel m a b pos max = Some r /\ (r = 0 <-> same_prefix m a b max).
Proof.
  induction fuel as [|fuel IH]; intros pos Hm Ha Hp Hn Hmax Hend Hf; cbn [strncmp_loop];
    (destruct (Z.ltb_spec pos max);
     [|exists 0; split; [done|]; split; [intros _; by apply (same_max m a b pos)|done]]).
  { exfalso. destruct Hend; [lia|]. destruct (Ha n); [lia|done]. }
  pose proof (stretch max pos _ _ ltac:(lia) (until_page_pos (a + pos)) (until_page_pos (b + pos))) as Hs.
  set (bytes := u32 (Z.min _ _)) in *.
  destruct (strncmp_words_spec m a b max n fuel (bytes / 4) pos) as (r & -> & Hr); try done;
    try (Z.to_euclidean_division_equations; lia).
  cbn [mbind option_bind]. destruct r as [c|p]; [by exists c|]. destruct Hr as [-> Hag].
  pose proof (strncmp_bytes_spec m a b max (Z.to_nat (bytes mod 4)) (pos + 4 * (bytes / 4)) Hm Hag) as Hb.
  destruct (strncmp_bytes _ _ _ _ _) as [c|p].
  - exists c. split; [done|]. apply Hb; Z.to_euclidean_division_equations; lia.
  - destruct Hb as [-> Hag']; [Z.to_euclidean_division_equations; lia..|].
    apply IH; try done; Z.to_euclidean_division_equations; lia.
Qed.

(** strncmp() returns zero exactly when the first [max] characters of the two
    strings are equal up to and including a terminator, wherever the strings lie
    relative to page boundaries and to one another; [strcmp] is the case of the
    largest [max].  It ends once it has read a terminator of the first string. *)
Theorem strncmp_spec (m : mem) (a b max n : Z) (fuel : nat) :
  bytes_ok m -> 0 <= n -> max < 2 ^ 32 -> max <= n \/ m (a + n) = 0 -> n + 2 <= Z.of_nat fuel ->
  exists r, strncmp fuel m a b max = Some r
  /\ (r = 0 <-> forall i, 0 <= i < max -> (forall j, 0 <= j < i -> m (a + j) <> 0) -> m (a + i) = m (b + i)).
Proof.
  intros Hm Hn Hmax Hend Hf. unfold strncmp. destruct (Z.eqb_spec a b) as [->|Hab].
  { exists 0. split; [done|]. by split. }
  destruct (strncmp_loop_spec m a b max n fuel 0) as (r & Hr & Hs); try done || lia.
  - intros i Hi. lia.
  - by exists r.
Qed.

(** ** Concrete strings *)

(** A memory that holds the bytes [l] at [base], zeroes and [0x78] elsewhere. *)
Definition mem_at (base : Z) (l : list Z) : mem :=
  fun a => if (base <=? a) && (a <? base + Z.of_nat (length l)) then nth (Z.to_nat (a - base)) l 0 else 0x78.

(** "abcabcabd" at 0x1001, "abd" at 0x100b, "xab" at 0x100f. *)
Definition demo_text : list Z :=
  [97; 98; 99; 97; 98; 99; 97; 98; 100; 0; 97; 98; 100; 0; 120; 97; 98; 0].
Definition demo_mem : mem := mem_at 0x1001 demo_text.

Lemma demo_mem_ok : bytes_ok demo_mem.
Proof.
  intros a. unfold demo_mem, mem_at. destruct (_ && _); [|unfold byte; lia].
  assert (Forall byte demo_text) as HF by (repeat constructor; lia).
  destruct (nth_in_or_default (Z.to_nat (a - 0x1001)) demo_text 0) as [Hin| ->]; [|unfold byte; lia].
  rewrite Forall_forall in HF. apply HF. by apply list_elem_of_In.
Qed.

(** A string is terminated where its first zero is. *)
Fixpoint string_at (fuel : nat) (m : mem) (s : Z) : option Z :=
  match fuel with
  | O => None
  | S fuel => if m s =? 0 then Some 0 else n ← string_at fuel m (s + 1); Some (n + 1)
  end.
Lemma string_at_first fuel : forall m s n, string_at fuel m s = Some n -> first_at is_zero m s n.
Proof.
  induction fuel as [|fuel IH]; intros m s n; cbn [string_at]; [done|].
  destruct (Z.eqb_spec (m s) 0) as [Hz|Hz].
  - intros [= <-]. split_and!; [done|lia|]. rewrite Z.add_0_r. unfold is_zero. lia.
  - destruct (string_at fuel m (s + 1)) as [k|] eqn:E; cbn; [|done]. intros [= <-].
    apply IH in E as (Hk & Hn & Hp). split; [lia|]. split.
    + intros i Hi. destruct (Z.eq_dec i 0) as [->|]; [rewrite Z.add_0_r; unfold is_zero; lia|].
      replace (s + i) with (s + 1 + (i - 1)) by lia. apply Hn. lia.
    + by replace (s + (k + 1)) with (s + 1 + k) by lia.
Qed.

Lemma strnlen_spec_witness :
  bytes_ok demo_mem /\ strnlen 3 demo_mem 0x1001 100 = Some 9
  /\ exists r, strnlen 3 demo_mem 0x1001 100 = Some r /\ 0 <= r <= 100
     /\ (forall i, 0 <= i < r -> demo_mem (0x1001 + i) <> 0) /\ (r < 100 -> demo_mem (0x1001 + r) = 0).
Proof.
  split; [exact demo_mem_ok|]. split; [vm_compute; reflexivity|].
  apply (strnlen_spec demo_mem 0x1001 100 9 3 demo_mem_ok); [lia|lia|right; reflexivity].
Defined.

Lemma memchr_spec_witness :
  memchr 3 demo_mem 0x1001 99 9 = Some (Some 0x1003)
  /\ exists r, memchr 3 demo_mem 0x1001 99 9 = Some r
     /\ match r with
        | Some p => exists k, p = 0x1001 + k /\ 0 <= k < 9 /\ demo_mem p = 99
                              /\ (forall i, 0 <= i < k -> demo_mem (0x1001 + i) <> 99)
        | None => forall i, 0 <= i < 9 -> demo_mem (0x1001 + i) <> 99
        end.
Proof.
  split; [vm_compute; reflexivity|].
  apply (memchr_spec demo_mem 0x1001 99 9 3 demo_mem_ok); [unfold byte; lia|lia].
Defined.

Lemma strchrnul_spec_witness :
  strchrnul 3 demo_mem 0x1001 100 = Some 0x1009
  /\ exists j, strchrnul 3 demo_mem 0x1001 100 = Some (0x1001 + j) /\ 0 <= j <= 9
     /\ (forall i, 0 <= i < j -> demo_mem (0x1001 + i) <> 100) /\ (j < 9 -> demo_mem (0x1001 + j) = 100).
Proof.
  split; [vm_compute; reflexivity|].
  apply (strchrnul_spec demo_mem 0x1001 100 9 3 demo_mem_ok);
    [lia|apply (string_at_first 10); reflexivity|lia].
Defined.

Lemma strspn_strcspn_spec_witness :
  strspn 20 demo_mem 0x1001 0x100f = Some 2 /\ strcspn 20 demo_mem 0x1001 0x100b = Some 0
  /\ exists j k, strspn 20 demo_mem 0x1001 0x100f = Some j /\ strcspn 20 demo_mem 0x1001 0x100f = Some k
     /\ 0 <= j <= 9 /\ (forall i, 0 <= i < j -> in_string demo_mem 0x100f 3 (demo_mem (0x1001 + i)))
     /\ (j < 9 -> ~ in_string demo_mem 0x100f 3 (demo_mem (0x1001 + j)))
     /\ 0 <= k <= 9 /\ (forall i, 0 <= i < k -> ~ in_string demo_mem 0x100f 3 (demo_mem (0x1001 + i)))
     /\ (k < 9 -> in_string demo_mem 0x100f 3 (demo_mem (0x1001 + k))).
Proof.
  split; [vm_compute; reflexivity|]. split; [vm_compute; reflexivity|].
  apply (strspn_strcspn_spec demo_mem 0x1001 9 0x100f 3 20 demo_mem_ok);
    [apply (string_at_first 10); reflexivity..|lia|lia].
Defined.

Lemma strstr_spec_witness :
  strstr 20 demo_mem 0x1001 0x100b = Some (Some 0x1007)
  /\ exists r, strstr 20 demo_mem 0x1001 0x100b = Some r
     /\ match r with
        | Some p => exists k, p = 0x1001 + k /\ k + 3 <= 9 /\ occurs demo_mem 0x1001 0x100b 3 k
                              /\ forall j, 0 <= j < k -> ~ occurs demo_mem 0x1001 0x100b 3 j
        | None => forall j, j <= 9 -> ~ occurs demo_mem 0x1001 0x100b 3 j
        end.
Proof.
  split; [vm_compute; reflexivity|].
  apply (strstr_spec demo_mem 0x1001 9 0x100b 3 20 demo_mem_ok);
    [apply (string_at_first 10); reflexivity..|reflexivity|lia|lia].
Defined.

Lemma strrchr_spec_witness :
  strrchr 3 demo_mem 0x1001 97 = Some (Some 0x1007)
  /\ exists r, strrchr 3 demo_mem 0x1001 97 = Some r
     /\ match r with
        | Some p => exists k, p = 0x1001 + k /\ 0 < k <= 9 /\ s8 (demo_mem p) = 97
                              /\ forall i, k < i <= 9 -> s8 (demo_mem (0x1001 + i)) <> 97
        | None => forall i, 0 < i <= 9 -> s8 (demo_mem (0x1001 + i)) <> 97
        end.
Proof.
  split; [vm_compute; reflexivity|].
  apply (strrchr_spec demo_mem 0x1001 9 97 3 demo_mem_ok);
    [apply (string_at_first 10); reflexivity|reflexivity|lia].
Defined.

Lemma strncmp_spec_witness :
  strncmp 5 demo_mem 0x1001 0x100b 2 = Some 0
  /\ exists r, strncmp 11 demo_mem 0x1001 0x100b SIZE_MAX = Some r
     /\ (r = 0 <-> forall i, 0 <= i < SIZE_MAX -> (forall j, 0 <= j < i -> demo_mem (0x1001 + j) <> 0) ->
                   demo_mem (0x1001 + i) = demo_mem (0x100b + i)).
Proof.
  split; [vm_compute; reflexivity|].
  apply (strncmp_spec demo_mem 0x1001 0x100b SIZE_MAX 9 11 demo_mem_ok);
    [lia|reflexivity|right; reflexivity|lia].
Defined.
