(* ===== verification/UserFd.v ===== *)
(** File descriptors of a user program: user/crt/file.c, the descriptor parts of
    user/crt/exec.c, user/crt/pipe.c and user/crt/cwd.c.

    The intmap of descriptors is a finite map; calls to file servers and the
    outcome of memory allocation are answered by an environment function. *)
From S2P Require Import Prelude L4.

Definition MAX_FD : Z := 2 ^ 15 - 1.
Definition FD_CLOEXEC : Z := 1.
Definition O_CLOEXEC : Z := 0x80000.              (* 02000000 *)
Definition SNEKS_IO_FD_CLOEXEC : Z := 1.
Definition S_IFIFO : Z := 0x1000.

Record fd_bits := FdBits { server : Z; handle : Z; fd_flags : Z }.

Inductive ucall :=
| UMalloc                                 (* 1 when there was memory *)
| UMapAdd                                 (* likewise, of sintmap_add() *)
| UIoClose (serv h : Z)
| UIoRead (serv h count : Z)
| UIoReadLen                              (* the length it received *)
| UIoWrite (serv h count : Z)
| UIoWriteLen
| UFileSeek (serv h off whence : Z)
| UFileSeekOff
| UIoDup (serv h flags : Z)
| UIoDupHandle
| UHandleFlags (serv h or_bits and_bits : Z)    (* Sneks::IO::set_handle_flags *)
| UFileFlags (serv h or_bits and_bits : Z)
| UOldFlags
| UIoIsatty (serv h : Z)
| UIoIsattyRet
| UPipe (serv flags : Z)
| UPipeHandle (i : Z).

Record userfd := UserFd {
  fd_map : gmap Z fd_bits;
  fdext_map : gmap Z Z;                   (* what fstat() returns without asking *)
  first_free : Z;
  last_alloc : Z;
  cwd_fd : Z;
  errno : Z;
  ucalls : list ucall
}.

Definition set_fd_map m w :=
  UserFd m (fdext_map w) (first_free w) (last_alloc w) (cwd_fd w) (errno w) (ucalls w).
Definition set_fdext m w :=
  UserFd (fd_map w) m (first_free w) (last_alloc w) (cwd_fd w) (errno w) (ucalls w).
Definition set_first_free v w :=
  UserFd (fd_map w) (fdext_map w) v (last_alloc w) (cwd_fd w) (errno w) (ucalls w).
Definition set_last_alloc v w :=
  UserFd (fd_map w) (fdext_map w) (first_free w) v (cwd_fd w) (errno w) (ucalls w).
Definition set_cwd_fd v w :=
  UserFd (fd_map w) (fdext_map w) (first_free w) (last_alloc w) v (errno w) (ucalls w).
Definition set_errno v w :=
  UserFd (fd_map w) (fdext_map w) (first_free w) (last_alloc w) (cwd_fd w) v (ucalls w).
Definition add_ucall c w :=
  UserFd (fd_map w) (fdext_map w) (first_free w) (last_alloc w) (cwd_fd w) (errno w) (c :: ucalls w).

Class UserEnv := uenv : list ucall -> ucall -> Z.

(** sintmap_after(): the least index greater than [ix]. *)
Definition map_next {A} (m : gmap Z A) (ix : Z) : option Z :=
  foldr (fun k acc => if ix <? k then Some (match acc with None => k | Some a => Z.min a k end)
                      else acc) None (elements (dom m)).

(** The assertions of invariants(). *)
Definition invariants (w : userfd) : bool :=
  let empty := bool_decide (fd_map w = ∅) in
  (first_free w <=? last_alloc w + 1)
  && (empty || (0 <=? last_alloc w))
  && (negb empty || (first_free w =? 0))
  && (negb empty || (last_alloc w =? -1))
  && bool_decide (fd_map w !! first_free w = None)
  && ((last_alloc w <? 0) || bool_decide (is_Some (fd_map w !! last_alloc w)))
  && bool_decide (dom (fdext_map w) ⊆ dom (fd_map w)).

(** The next index above [i] that is free, looking no further than past MAX_FD. *)
Fixpoint next_gap (fuel : nat) {A} (m : gmap Z A) (i : Z) : Z :=
  if i <=? MAX_FD then
    match fuel with
    | O => i
    | S fuel => match m !! (i + 1) with None => i + 1 | Some _ => next_gap fuel m (i + 1) end
    end
  else i.

(** The previous used index below [i], down to zero. *)
Fixpoint prev_used (fuel : nat) {A} (m : gmap Z A) (i : Z) : Z :=
  if 0 <? i then
    match fuel with
    | O => i
    | S fuel => match m !! (i - 1) with Some _ => i - 1 | None => prev_used fuel m (i - 1) end
    end
  else i.

Definition __fdbits (w : userfd) (fd : Z) : option fd_bits :=
  if (fd <? 0) || (MAX_FD <? fd) then None else fd_map w !! fd.

Section userfd.
Context `{UserEnv}.

Definition uask (c : ucall) : M userfd Z := fun w => Ret (uenv (ucalls w) c) (add_ucall c w).
Definition fail_ (e : Z) : M userfd Z := _ ← modify (set_errno e); mret (-1).

(** NTOERR(n, val) *)
Definition __idl2errno (n val : Z) : M userfd Z :=
  if n =? 0 then mret val
  else if n <? 0 then fail_ (- n)
  else fail_ (nth (Z.to_nat (n / 2))
                [0; ETIMEDOUT; ESRCH; EINTR; EOVERFLOW; ETIMEDOUT; ETIMEDOUT; EINTR] EIO).

Definition next_free_fd (low : Z) : M userfd Z :=
  w ← get;
  _ ← assert_ (invariants w);
  _ ← assert_ (0 <=? low);
  if last_alloc w <? low then mret low
  else if low <=? first_free w then mret (first_free w)
  else
    match map_next (fd_map w) (low - 1) with
    | None => halt StAssert
    | Some ix =>
        if low <? ix then mret low
        else
          let ix := next_gap (Z.to_nat (MAX_FD + 1)) (fd_map w) ix in
          mret (match fd_map w !! ix with None => ix | Some _ => - EMFILE end)
    end.

Definition __create_fd (fd serv hdl flags : Z) : M userfd Z :=
  w ← get;
  _ ← assert_ (invariants w);
  if negb (Z.land flags (Z.lnot FD_CLOEXEC) =? 0) then mret (- EINVAL)
  else if (0 <=? fd) && bool_decide (is_Some (fd_map w !! fd)) then mret (- EEXIST)
  else
    fd ← (if fd <? 0 then next_free_fd 0 else mret fd);
    if fd <? 0 then mret fd
    else
      _ ← assert_ (bool_decide (fd_map w !! fd = None));
      m ← uask UMalloc;
      if m =? 0 then mret (- ENOMEM)
      else
        ok ← uask UMapAdd;
        if ok =? 0 then mret (- ENOMEM)
        else
          _ ← modify (fun w => set_fd_map (<[fd := FdBits serv hdl flags]> (fd_map w)) w);
          _ ← modify (fun w => set_last_alloc (Z.max (last_alloc w) fd) w);
          _ ← modify (fun w =>
                if fd =? first_free w
                then set_first_free (next_gap (Z.to_nat (MAX_FD + 1)) (fd_map w) (first_free w)) w
                else w);
          w ← get;
          _ ← assert_ (invariants w);
          mret fd.

(** [st] is what fstat() is to return. *)
Definition __create_fd_ext (reqfd serv hdl flags : Z) (st : option Z) : M userfd Z :=
  fd ← __create_fd reqfd serv hdl flags;
  match st with
  | None => mret fd
  | Some st =>
      m ← uask UMalloc;
      if m =? 0 then halt StAbort
      else
        ok ← uask UMapAdd;
        if ok =? 0 then halt StAbort
        else _ ← modify (fun w => set_fdext (<[fd := st]> (fdext_map w)) w); mret fd
  end.

(** *** Start-up *)

(** One entry of the list root made: descriptor and flags, server, handle. *)
Definition init_fd (e : Z * Z * Z) : M userfd unit :=
  n ← __create_fd (Z.land e.1.1 0xffff) e.1.2 e.2 0;
  if n <? 0 then halt StAbort
  else if negb (Z.land e.1.1 FF_CWD =? 0) then
    w ← get;
    _ ← assert_ (cwd_fd w =? -1);
    modify (set_cwd_fd n)
  else mret tt.

Fixpoint words3 (n : nat) (l : list Z) : list (Z * Z * Z) :=
  match n, l with
  | S n, a :: b :: c :: l => (a, b, c) :: words3 n l
  | _, _ => []
  end.

(** The pages of the list as words, the highest first; a short page ends it. *)
Fixpoint file_pages (pages : list (list Z)) : M userfd unit :=
  match pages with
  | [] => halt StFault
  | [] :: _ => halt StFault
  | (n :: words) :: pages =>
      _ ← assert_ (n <=? 341);
      _ ← mapM_ init_fd (words3 (Z.to_nat n) words);
      if n <? 341 then mret tt else file_pages pages
  end.
Definition __file_init (pages : list (list Z)) : M userfd unit :=
  _ ← modify (fun w => set_fdext ∅ (set_fd_map ∅ w));
  w ← get;
  _ ← assert_ (invariants w);
  _ ← file_pages pages;
  w ← get;
  assert_ (invariants w).

(** *** Calls *)

Definition close (fd : Z) : M userfd Z :=
  w ← get;
  match __fdbits w fd with
  | None => fail_ EBADF
  | Some b =>
      n ← uask (UIoClose (server b) (handle b));
      _ ← modify (fun w => set_fd_map (delete fd (fd_map w)) w);
      _ ← modify (fun w => set_first_free (Z.min (first_free w) fd) w);
      _ ← modify (fun w =>
            if fd =? last_alloc w then
              let w := set_last_alloc (prev_used (Z.to_nat (last_alloc w)) (fd_map w) (last_alloc w)) w in
              set_first_free (Z.min (first_free w) (last_alloc w + 1)) w
            else w);
      _ ← modify (fun w => set_fdext (delete fd (fdext_map w)) w);
      w ← get;
      _ ← assert_ (invariants w);
      __idl2errno n 0
  end.

(** The servers answer EAGAIN to have a call repeated; the turns are bounded. *)
Fixpoint again (fuel : nat) (c : ucall) : M userfd Z :=
  match fuel with
  | O => halt StFuel
  | S fuel => n ← uask c; if n =? - EAGAIN then again fuel c else mret n
  end.
Definition transfer (fuel : nat) (c len : ucall) : M userfd Z :=
  n ← again fuel c;
  l ← uask len;
  __idl2errno (if n =? - EWOULDBLOCK then - EAGAIN else n) l.

(** What is read goes to the caller's buffer and is not modelled. *)
Definition read (fuel : nat) (fd count : Z) : M userfd Z :=
  w ← get;
  match __fdbits w fd with
  | None => fail_ EBADF
  | Some b => if count =? 0 then mret 0
              else transfer fuel (UIoRead (server b) (handle b) count) UIoReadLen
  end.
Definition write (fuel : nat) (fd count : Z) : M userfd Z :=
  w ← get;
  match __fdbits w fd with
  | None => fail_ EBADF
  | Some b => if count =? 0 then mret 0
              else transfer fuel (UIoWrite (server b) (handle b) count) UIoWriteLen
  end.

Definition lseek (fd off whence : Z) : M userfd Z :=
  w ← get;
  match __fdbits w fd with
  | None => fail_ EBADF
  | Some b =>
      if (whence =? 0) || (whence =? 1) || (whence =? 2) then
        n ← uask (UFileSeek (server b) (handle b) off whence);
        o ← uask UFileSeekOff;
        __idl2errno n o
      else fail_ EINVAL
  end.

Definition dup3 (oldfd newfd flags : Z) : M userfd Z :=
  if (oldfd =? newfd) || negb (Z.land flags (Z.lnot O_CLOEXEC) =? 0) then fail_ EINVAL
  else
    let flags := if Z.land flags O_CLOEXEC =? 0 then 0 else SNEKS_IO_FD_CLOEXEC in
    w ← get;
    match __fdbits w oldfd with
    | None => mret (-1)
    | Some bits =>
        n ← uask (UIoDup (server bits) (handle bits) flags);
        if negb (n =? 0) then __idl2errno n 0
        else
          new_handle ← uask UIoDupHandle;
          _ ← (if (0 <=? newfd) && bool_decide (is_Some (__fdbits w newfd))
               then close newfd else mret 0);
          w ← get;
          n ← __create_fd_ext newfd (server bits) new_handle flags (fdext_map w !! oldfd);
          if n <? 0 then _ ← uask (UIoClose (server bits) new_handle); fail_ (- n) else mret n
    end.
Definition dup2 (oldfd newfd : Z) : M userfd Z :=
  if oldfd =? newfd then mret newfd else dup3 oldfd newfd 0.
Definition dup (oldfd : Z) : M userfd Z := dup2 oldfd (-1).

Definition store_flags (fd v : Z) : M userfd unit :=
  modify (fun w => set_fd_map (alter (fun b => FdBits (server b) (handle b) v) fd (fd_map w)) w).

(** F_DUPFD is 0, F_GETFD 1, F_SETFD 2, F_GETFL 3, F_SETFL 4. *)
Definition fcntl (fd cmd arg : Z) : M userfd Z :=
  w ← get;
  match __fdbits w fd with
  | None => fail_ EBADF
  | Some b =>
      let fn := if cmd <=? 2 then UHandleFlags else UFileFlags in
      if cmd =? 0 then
        if arg <? 0 then fail_ EINVAL
        else
          newfd ← next_free_fd arg;
          if newfd <? 0 then __idl2errno newfd 0 else dup2 fd newfd
      else if (cmd =? 3) || (cmd =? 1) then
        n ← uask (fn (server b) (handle b) 0 (2 ^ 32 - 1));
        old ← uask UOldFlags;
        _ ← when_ (n =? 0) (store_flags fd old);
        __idl2errno n old
      else if (cmd =? 4) || (cmd =? 2) then
        n ← uask (fn (server b) (handle b) arg 0);
        _ ← when_ (n =? 0) (store_flags fd arg);
        __idl2errno n 0
      else fail_ EINVAL
  end.

Definition isatty (fd : Z) : M userfd Z :=
  w ← get;
  match __fdbits w fd with
  | None => _ ← modify (set_errno EBADF); mret 0
  | Some b =>
      n ← uask (UIoIsatty (server b) (handle b));
      ret ← uask UIoIsattyRet;
      if n <? 0 then _ ← modify (set_errno (- n)); mret 0
      else if ret =? 0 then _ ← modify (set_errno ENOTTY); mret 0
      else mret 1
  end.

(** *** user/crt/exec.c, pipe.c, cwd.c *)

(** What fexecve() passes on, in the order of descriptors: server, handle and
    descriptor with its flags. *)
Definition collect_exec_fds (w : userfd) (fd : Z) (bits : fd_bits) : list (Z * Z * Z) :=
  if negb (Z.land (fd_flags bits) FD_CLOEXEC =? 0) then []
  else [(server bits, handle bits, Z.lor fd (if fd =? cwd_fd w then FF_CWD else 0))].
Definition exec_fds (w : userfd) : list (Z * Z * Z) :=
  concat (map (fun fd => match fd_map w !! fd with
                         | Some b => collect_exec_fds w fd b
                         | None => []
                         end) (seqZ 0 (last_alloc w + 1))).

(** pipe2(): -1, or the two descriptors. *)
Definition pipe2 (pipe_serv flags : Z) : M userfd (Z + Z * Z) :=
  n ← uask (UPipe pipe_serv flags);
  if negb (n =? 0) then e ← __idl2errno n 0; mret (inl e)
  else
    h0 ← uask (UPipeHandle 0);
    h1 ← uask (UPipeHandle 1);
    let fl := if Z.land flags O_CLOEXEC =? 0 then 0 else FD_CLOEXEC in
    let undo e := (_ ← uask (UIoClose pipe_serv h0); _ ← uask (UIoClose pipe_serv h1);
                   r ← fail_ (- e); mret (inl r : Z + Z * Z)) in
    fd0 ← __create_fd_ext (-1) pipe_serv h0 fl (Some S_IFIFO);
    if fd0 <? 0 then undo fd0
    else
      fd1 ← __create_fd_ext (-1) pipe_serv h1 fl (Some S_IFIFO);
      if fd1 <? 0 then _ ← close fd0; undo fd1 else mret (inr (fd0, fd1)).

(** [open_max] is sysconf(_SC_OPEN_MAX). *)
Definition fchdir (open_max dirfd : Z) : M userfd Z :=
  copy ← fcntl dirfd 0 (Z.min (open_max + 1) 4000);
  if copy <? 0 then mret (-1)
  else
    w ← get;
    _ ← (if 0 <=? cwd_fd w then close (cwd_fd w) else mret 0);
    _ ← modify (set_cwd_fd copy);
    mret 0.
End userfd.
