(* ===== verification/UserFdProps.v ===== *)
(** Descriptor numbers: which one is handed out, when the bookkeeping stays
    consistent, and how descriptors survive exec. *)
From S2P Require Import Prelude L4 HashUtil Rollback Containers UapiState UapiThreads ProgImage UapiProc UapiOps UapiExec.
From S2P Require Import ProgImageProps UserFd.

(** ** Searching a map of indices *)

Lemma map_next_spec {A} (m : gmap Z A) ix :
  match map_next m ix with
  | Some k => is_Some (m !! k) /\ ix < k /\ forall j, is_Some (m !! j) -> ix < j -> k <= j
  | None => forall j, is_Some (m !! j) -> j <= ix
  end.
Proof.
  unfold map_next.
  assert (forall l : list Z, match foldr (fun k acc => if ix <? k then
      Some (match acc with None => k | Some a => Z.min a k end) else acc) None l with
    | Some k => k ∈ l /\ ix < k /\ forall j, j ∈ l -> ix < j -> k <= j
    | None => forall j, j ∈ l -> j <= ix
    end) as Hl.
  { induction l as [|x l IH]; cbn [foldr]; [intros j Hj; inversion Hj|].
    destruct (Z.ltb_spec ix x).
    - destruct (foldr _ _ _) as [k|].
      + destruct IH as (Hk & Hx & Hm). split_and!; [|lia|].
        * destruct (Z.min_spec k x) as [[_ ->]|[_ ->]]; [by right|left].
        * intros j [->|Hj]%elem_of_cons Hlt; [lia|]. specialize (Hm j Hj Hlt). lia.
      + split_and!; [left|done|]. intros j [->|Hj]%elem_of_cons Hlt; [done|]. specialize (IH j Hj). lia.
    - destruct (foldr _ _ _) as [k|].
      + destruct IH as (Hk & Hx & Hm). split_and!; [by right|done|].
        intros j [->|Hj]%elem_of_cons Hlt; [lia|auto].
      + intros j [->|Hj]%elem_of_cons; auto. }
  specialize (Hl (elements (dom m))). destruct (foldr _ _ _).
  - destruct Hl as (Hk & Hx & Hm). apply elem_of_elements, elem_of_dom in Hk. split_and!; [done..|].
    intros j Hj. apply Hm. by apply elem_of_elements, elem_of_dom.
  - intros j Hj. apply Hl. by apply elem_of_elements, elem_of_dom.
Qed.

Lemma next_gap_spec {A} (m : gmap Z A) fuel : forall i,
  i <= MAX_FD -> MAX_FD + 1 - i <= Z.of_nat fuel -> (forall j, is_Some (m !! j) -> j <= MAX_FD) ->
  i < next_gap fuel m i <= MAX_FD + 1
  /\ m !! next_gap fuel m i = None
  /\ forall j, i < j < next_gap fuel m i -> is_Some (m !! j).
Proof.
  induction fuel as [|fuel IH]; intros i Hi Hf Hm; [lia|]. cbn [next_gap].
  rewrite (proj2 (Z.leb_le i MAX_FD)) by done. destruct (m !! (i + 1)) as [a|] eqn:E.
  - assert (i + 1 <= MAX_FD) as Hle by (apply Hm; by rewrite E).
    destruct (IH (i + 1)) as (Hr & Hn & Hj); [done|lia|done|]. split_and!; [lia|lia|done|].
    intros j Hj'. destruct (Z.eq_dec j (i + 1)) as [->|]; [by rewrite E|apply Hj; lia].
  - split_and!; [lia|lia|done|]. intros j Hj. lia.
Qed.

Lemma prev_used_spec {A} (m : gmap Z A) fuel : forall i,
  0 <= i -> i <= Z.of_nat fuel ->
  0 <= prev_used fuel m i <= i
  /\ (forall j, prev_used fuel m i < j < i -> m !! j = None)
  /\ (0 < i -> prev_used fuel m i < i)
  /\ (0 < i -> is_Some (m !! prev_used fuel m i) \/ (prev_used fuel m i = 0 /\ m !! 0 = None)).
Proof.
  induction fuel as [|fuel IH]; intros i Hi Hf; cbn [prev_used];
    (destruct (Z.ltb_spec 0 i); [|split_and!; lia]); [lia|].
  destruct (m !! (i - 1)) as [a|] eqn:E.
  - split_and!; [lia|lia|lia|lia|]. intros _. left. by rewrite E.
  - destruct (IH (i - 1)) as (Hr & Hj & Hlt & Hs); [lia|lia|]. split_and!; [lia|lia| |lia|].
    + intros j Hj'. destruct (Z.eq_dec j (i - 1)) as [->|]; [done|apply Hj; lia].
    + intros _. destruct (Z.eq_dec (i - 1) 0) as [E0|]; [|apply Hs; lia].
      right. rewrite E0 in E, Hr. split; [rewrite E0; lia|done].
Qed.

(** ** The descriptor table's invariant *)

(** invariants() of the source, and that [first_free] is the lowest free index. *)
Record fd_ok (w : userfd) : Prop := {
  ok_asserts : invariants w = true;
  ok_below i : 0 <= i < first_free w -> is_Some (fd_map w !! i);
  ok_range i : is_Some (fd_map w !! i) -> 0 <= i <= MAX_FD;
  ok_last i : is_Some (fd_map w !! i) -> i <= last_alloc w;
  ok_first : 0 <= first_free w
}.

Lemma invariants_spec w :
  invariants w = true <->
  first_free w <= last_alloc w + 1
  /\ (fd_map w = ∅ -> first_free w = 0 /\ last_alloc w = -1)
  /\ (fd_map w <> ∅ -> 0 <= last_alloc w)
  /\ fd_map w !! first_free w = None
  /\ (0 <= last_alloc w -> is_Some (fd_map w !! last_alloc w))
  /\ dom (fdext_map w) ⊆ dom (fd_map w).
Proof.
  unfold invariants. cbv zeta. rewrite !andb_true_iff, !orb_true_iff, negb_true_iff,
    !bool_decide_eq_true, bool_decide_eq_false, !Z.leb_le, !Z.eqb_eq, Z.ltb_lt.
  destruct (decide (fd_map w = ∅)) as [E|E], (Z.lt_ge_cases (last_alloc w) 0);
    intuition (done || lia).
Qed.

Lemma ok_first_free w : fd_ok w -> fd_map w !! first_free w = None.
Proof. intros Hok. by apply invariants_spec, Hok. Qed.

Lemma fd_ok_ucall w c : fd_ok w -> fd_ok (add_ucall c w).
Proof. by intros []. Qed.

Section props.
Context `{UserEnv}.

Lemma bind_uask {B} c (k : Z -> M userfd B) w :
  (uask c ≫= k) w = k (uenv (ucalls w) c) (add_ucall c w).
Proof. done. Qed.

Lemma next_free_least w low :
  fd_ok w -> 0 <= low ->
  exists r, next_free_fd low w = Ret r w /\ low <= r <= Z.max low (MAX_FD + 1)
  /\ fd_map w !! r = None /\ forall i, low <= i < r -> is_Some (fd_map w !! i).
Proof.
  intros Hok Hlow. pose proof (ok_first_free w Hok) as Hff. unfold next_free_fd.
  rewrite bind_get, bind_assert, (ok_asserts w Hok), bind_assert, (proj2 (Z.leb_le 0 low)) by done.
  destruct (Z.ltb_spec (last_alloc w) low) as [Hl|Hl].
  { exists low. split_and!; [done|lia|lia| |lia]. destruct (fd_map w !! low) eqn:E; [|done].
    pose proof (ok_last w Hok low). rewrite E in *. specialize (H0 ltac:(done)). lia. }
  assert (last_alloc w <= MAX_FD) as Hmax.
  { destruct (Z.lt_ge_cases (last_alloc w) 0); [unfold MAX_FD; lia|].
    apply (ok_range w Hok). apply invariants_spec; [apply Hok|done]. }
  assert (first_free w <= last_alloc w + 1) as Hfl by (apply invariants_spec, Hok).
  destruct (Z.leb_spec low (first_free w)).
  { exists (first_free w). split_and!; [done|lia|lia|done|]. intros i Hi. apply (ok_below w Hok). lia. }
  pose proof (map_next_spec (fd_map w) (low - 1)) as Hn. destruct (map_next _ _) as [ix|].
  - destruct Hn as (Hix & Hlt & Hmin). destruct (Z.ltb_spec low ix) as [Hgap|Hgap].
    + exists low. split_and!; [done|lia|lia| |lia]. destruct (fd_map w !! low) eqn:E; [|done].
      specialize (Hmin low ltac:(by rewrite E) ltac:(lia)). lia.
    + assert (ix = low) as -> by lia.
      destruct (next_gap_spec (fd_map w) (Z.to_nat (MAX_FD + 1)) low) as (Hr & Hnone & Hall);
        [lia|lia|intros j Hj; by apply (ok_range w Hok)|].
      cbv zeta. rewrite Hnone. eexists. split; [done|]. split_and!; [lia|lia|done|].
      intros i Hi. destruct (Z.eq_dec i low) as [->|]; [done|]. apply Hall. lia.
  - assert (is_Some (fd_map w !! last_alloc w)) as Hs by (apply invariants_spec; [apply Hok|lia]).
    specialize (Hn _ Hs). lia.
Qed.

(** The search for a descriptor number at [low] or above finds the lowest one
    that is free, from every consistent state.  It never reports that there is
    none: past MAX_FD it returns MAX_FD + 1, which no other call accepts. *)
Theorem next_free_fd_least (w : userfd) (low : Z) :
  fd_ok w -> 0 <= low ->
  exists r, next_free_fd low w = Ret r w
  /\ low <= r <= Z.max low (MAX_FD + 1) /\ fd_map w !! r = None
  /\ forall i, low <= i < r -> is_Some (fd_map w !! i).
Proof. apply next_free_least. Qed.

(** The state after a descriptor was added. *)
Definition with_fd (n : Z) (b : fd_bits) (w : userfd) : userfd :=
  let m := <[n := b]> (fd_map w) in
  UserFd m (fdext_map w)
    (if n =? first_free w then next_gap (Z.to_nat (MAX_FD + 1)) m (first_free w) else first_free w)
    (Z.max (last_alloc w) n) (cwd_fd w) (errno w) (ucalls w).

Lemma with_fd_ok n b w :
  fd_ok w -> 0 <= n <= MAX_FD -> fd_map w !! n = None -> fd_ok (with_fd n b w).
Proof.
  intros Hok Hn Hfree. pose proof (proj1 (invariants_spec w) (ok_asserts w Hok)) as (Hfl & Hemp & Hne & Hff & Hla & Hext).
  pose proof (ok_first w Hok) as Hf0.
  assert (forall i, is_Some (<[n := b]> (fd_map w) !! i) <-> i = n \/ is_Some (fd_map w !! i)) as Hin.
  { intros i. destruct (Z.eq_dec i n) as [->|]; [rewrite lookup_insert_eq; naive_solver|].
    rewrite lookup_insert_ne by done. naive_solver. }
  assert (forall i, is_Some (<[n := b]> (fd_map w) !! i) -> 0 <= i <= MAX_FD) as Hrange.
  { intros i [->|Hi]%Hin; [done|by apply (ok_range w Hok)]. }
  assert (first_free w <= n) as Hlow.
  { destruct (Z.le_gt_cases (first_free w) n); [done|]. destruct (ok_below w Hok n) as [? E]; [lia|].
    by rewrite Hfree in E. }
  assert (forall i, is_Some (<[n := b]> (fd_map w) !! i) -> i <= Z.max (last_alloc w) n) as Hlast.
  { intros i [->|Hi]%Hin; [lia|]. pose proof (ok_last w Hok i Hi). lia. }
  assert (is_Some (<[n := b]> (fd_map w) !! Z.max (last_alloc w) n)) as Hmax.
  { apply Hin. destruct (Z.max_spec (last_alloc w) n) as [[? ->]|[? ->]]; [by left|].
    right. apply Hla. lia. }
  assert (<[n := b]> (fd_map w) <> ∅) as Hnonempty by apply insert_non_empty.
  assert (forall ff, first_free w <= ff -> <[n := b]> (fd_map w) !! ff = None ->
    (forall i, 0 <= i < ff -> is_Some (<[n := b]> (fd_map w) !! i)) ->
    fd_ok (UserFd (<[n := b]> (fd_map w)) (fdext_map w) ff (Z.max (last_alloc w) n) (cwd_fd w)
      (errno w) (ucalls w))) as Hgo.
  { intros ff Hff1 Hff2 Hff3. split; cbn; auto; [|lia]. apply invariants_spec. cbn. split_and!; auto.
    - destruct (Z.le_gt_cases ff 0); [lia|]. specialize (Hlast (ff - 1) (Hff3 (ff - 1) ltac:(lia))). lia.
    - done.
    - lia.
    - rewrite dom_insert. set_solver. }
  unfold with_fd. destruct (Z.eqb_spec n (first_free w)) as [->|Hneq].
  - destruct (next_gap_spec (<[first_free w := b]> (fd_map w)) (Z.to_nat (MAX_FD + 1)) (first_free w))
      as (Hr & Hnone & Hall); [lia|lia|intros j Hj; by apply Hrange|].
    apply Hgo; [lia|done|]. intros i Hi. destruct (Z.lt_trichotomy i (first_free w)) as [L|[->|L]].
    + apply Hin. right. apply (ok_below w Hok). lia.
    + apply Hin. by left.
    + apply Hall. lia.
  - apply Hgo; [lia|by rewrite lookup_insert_ne|]. intros i Hi. apply Hin. right. by apply (ok_below w Hok).
Qed.

Definition with_ucalls (cs : list ucall) (w : userfd) : userfd := foldr add_ucall w cs.

(** Creating a descriptor, from a consistent state: with a negative number asked
    for it takes the lowest free one, as POSIX has it; the descriptor is entered and
    the state stays consistent.  When there is no memory, nothing has changed. *)
Theorem create_fd_spec (w : userfd) (fd serv hdl flags : Z) :
  let n := if fd <? 0 then first_free w else fd in
  fd_ok w -> n <= MAX_FD -> fd_map w !! n = None -> Z.land flags (Z.lnot FD_CLOEXEC) = 0 ->
  (forall i, 0 <= i < first_free w -> is_Some (fd_map w !! i))
  /\ exists cs, __create_fd fd serv hdl flags w = Ret (- ENOMEM) (with_ucalls cs w)
     \/ (__create_fd fd serv hdl flags w = Ret n (with_fd n (FdBits serv hdl flags) (with_ucalls cs w))
         /\ fd_ok (with_fd n (FdBits serv hdl flags) (with_ucalls cs w))).
Proof.
  intros n Hok Hn Hfree Hfl. split; [apply (ok_below w Hok)|]. unfold __create_fd.
  rewrite bind_get, bind_assert, (ok_asserts w Hok), Hfl. cbn [Z.eqb negb].
  assert (0 <= n) as Hn0 by (unfold n; destruct (Z.ltb_spec fd 0); [apply (ok_first w Hok)|lia]).
  replace ((0 <=? fd) && bool_decide (is_Some (fd_map w !! fd))) with false.
  2:{ symmetry. apply andb_false_iff. unfold n in Hfree. destruct (Z.ltb_spec fd 0); [left; lia|right].
      rewrite Hfree. by apply bool_decide_eq_false_2; intros []. }
  assert ((if fd <? 0 then next_free_fd 0 else mret fd) w = Ret n w) as En.
  { unfold n. destruct (Z.ltb_spec fd 0); [|done].
    destruct (next_free_least w 0 Hok ltac:(done)) as (r & -> & Hr & Hnone & Hall). f_equal.
    destruct (Z.lt_trichotomy r (first_free w)) as [L|[->|L]]; [|done|].
    - destruct (ok_below w Hok r) as [? E]; [lia|]. by rewrite Hnone in E.
    - destruct (Hall (first_free w)) as [? E]; [split; [apply (ok_first w Hok)|done]|].
      by rewrite ok_first_free in E. }
  cbv iota. rewrite (bind_ret _ _ _ _ _ En), (proj2 (Z.ltb_ge n 0)) by done. cbv iota.
  rewrite bind_assert, bool_decide_eq_true_2 by done.
  cbv iota.
  rewrite bind_uask. destruct (_ =? 0); [by exists [UMalloc]; left|].
  rewrite bind_uask. destruct (_ =? 0); [by exists [UMapAdd; UMalloc]; left|].
  exists [UMapAdd; UMalloc]. right. assert (fd_ok (with_ucalls [UMapAdd; UMalloc] w)) as Hok2
    by exact (fd_ok_ucall _ _ (fd_ok_ucall _ _ Hok)).
  pose proof (with_fd_ok n (FdBits serv hdl flags) _ Hok2 (conj Hn0 Hn) Hfree) as Hfin. split; [|done].
  rewrite !bind_modify, bind_get, bind_assert.
  assert (forall x, x = with_fd n (FdBits serv hdl flags) (with_ucalls [UMapAdd; UMalloc] w) ->
    (if invariants x then (mret n : M userfd Z) x else Stop StAssert)
    = Ret n (with_fd n (FdBits serv hdl flags) (with_ucalls [UMapAdd; UMalloc] w))) as Hx.
  { intros x ->. by rewrite (ok_asserts _ Hfin). }
  apply Hx. unfold with_fd. cbn. by destruct (n =? first_free w).
Qed.

(** The state after a descriptor was removed. *)
Definition without_fd (n : Z) (w : userfd) : userfd :=
  let m := delete n (fd_map w) in
  let la := if n =? last_alloc w then prev_used (Z.to_nat (last_alloc w)) m (last_alloc w)
            else last_alloc w in
  UserFd m (delete n (fdext_map w))
    (if n =? last_alloc w then Z.min (Z.min (first_free w) n) (la + 1) else Z.min (first_free w) n)
    la (cwd_fd w) (errno w) (ucalls w).

Lemma without_last n w :
  fd_ok w -> is_Some (fd_map w !! n) -> delete n (fd_map w) <> ∅ ->
  (forall i, is_Some (delete n (fd_map w) !! i) -> i <= last_alloc (without_fd n w))
  /\ is_Some (delete n (fd_map w) !! last_alloc (without_fd n w))
  /\ 0 <= last_alloc (without_fd n w).
Proof.
  intros Hok Hn Hne. cbn. pose proof (ok_range w Hok n Hn) as Hr. pose proof (ok_last w Hok n Hn) as Hl.
  assert (forall i, is_Some (delete n (fd_map w) !! i) <-> i <> n /\ is_Some (fd_map w !! i)) as Hin.
  { intros i. destruct (Z.eq_dec i n) as [->|]; [rewrite lookup_delete_eq; split; [by intros []|by intros []]|].
    rewrite lookup_delete_ne by done. naive_solver. }
  destruct (Z.eqb_spec n (last_alloc w)) as [->|Hneq].
  - destruct (prev_used_spec (delete (last_alloc w) (fd_map w)) (Z.to_nat (last_alloc w)) (last_alloc w))
      as (Hp & Hgap & Hlt & Hs); [lia|lia|]. set (p := prev_used _ _ _) in *.
    assert (forall i, is_Some (delete (last_alloc w) (fd_map w) !! i) -> i <= p) as Hle.
    { intros i Hi. pose proof (proj1 (Hin i) Hi) as [Hi1 Hi2]. pose proof (ok_last w Hok i Hi2).
      destruct (Z.le_gt_cases i p); [done|]. destruct Hi as [x Hx]. rewrite Hgap in Hx by lia. done. }
    destruct (map_choose _ Hne) as (k & x & Hk). assert (is_Some (delete (last_alloc w) (fd_map w) !! k)) as Hsk by eauto.
    pose proof (Hle k Hsk) as Hkp. apply Hin in Hsk as [Hk1 Hk2]. pose proof (ok_range w Hok k Hk2).
    pose proof (ok_last w Hok k Hk2). split; [done|]. split; [|lia].
    destruct (Hs ltac:(lia)) as [|[Hp0 Hnone]]; [done|]. assert (k = 0) as -> by lia. by rewrite Hnone in Hk.
  - split_and!; [|apply Hin; split; [lia|]|lia].
    + intros i [_ Hi]%Hin. by apply (ok_last w Hok).
    + apply invariants_spec; [apply Hok|lia].
Qed.

Lemma without_fd_ok n w :
  fd_ok w -> is_Some (fd_map w !! n) -> delete n (fd_map w) <> ∅ -> fd_ok (without_fd n w).
Proof.
  intros Hok Hn Hne. destruct (without_last n w Hok Hn Hne) as (Hle & Hla & Hla0).
  pose proof (proj1 (invariants_spec w) (ok_asserts w Hok)) as (Hfl & _ & _ & Hff & _ & Hext).
  pose proof (ok_range w Hok n Hn) as Hr. pose proof (ok_first w Hok) as Hf0.
  assert (fd_map (without_fd n w) = delete n (fd_map w)) as Em by done.
  assert (first_free w <> n) as Hfn by (intros <-; destruct Hn as [? Hx]; by rewrite Hff in Hx).
  assert (first_free (without_fd n w) = Z.min (first_free w) n) as Ef.
  { cbn -[Z.min]. destruct (Z.eqb_spec n (last_alloc w)) as [E|]; [|done]. rewrite Z.min_l; [done|].
    destruct (Z.le_gt_cases (Z.min (first_free w) n) (last_alloc (without_fd n w) + 1)) as [Hm|Hm].
    - revert Hm. cbn. by rewrite (proj2 (Z.eqb_eq n (last_alloc w)) E).
    - exfalso. destruct (ok_below w Hok (last_alloc (without_fd n w) + 1)) as [x Hx]; [lia|].
      assert (is_Some (delete n (fd_map w) !! (last_alloc (without_fd n w) + 1))) as Hs.
      { rewrite lookup_delete_ne by lia. eauto. }
      specialize (Hle _ Hs). lia. }
  assert (forall i, is_Some (delete n (fd_map w) !! i) -> is_Some (fd_map w !! i)) as Hsub.
  { intros i [x Hx]. apply lookup_delete_Some in Hx as [_ Hx]. eauto. }
  assert (forall i, 0 <= i < Z.min (first_free w) n -> is_Some (delete n (fd_map w) !! i)) as Hbelow.
  { intros i Hi. rewrite lookup_delete_ne by lia. apply (ok_below w Hok). lia. }
  split; rewrite ?Em, ?Ef; auto.
  - apply invariants_spec. rewrite Em, Ef. split_and!; auto; try done.
    + destruct (Z.le_gt_cases (Z.min (first_free w) n) 0); [lia|].
      specialize (Hle _ (Hbelow (Z.min (first_free w) n - 1) ltac:(lia))). lia.
    + destruct (Z.min_spec (first_free w) n) as [[? ->]|[? ->]]; [|apply lookup_delete_eq].
      by rewrite lookup_delete_ne by lia.
    + cbn. rewrite !dom_delete. set_solver.
  - intros i Hi. by apply (ok_range w Hok), Hsub.
  - lia.
Qed.

(** close() of an open descriptor releases it at its server, removes it and
    leaves the table consistent, if another descriptor is open.  Closing the last
    one stops the program: the mark of the highest descriptor stays at zero where
    the assertions want -1 for an empty table. *)
Theorem close_spec (w : userfd) (fd : Z) (b : fd_bits) :
  fd_ok w -> fd_map w !! fd = Some b ->
  (delete fd (fd_map w) <> ∅ ->
   exists r w', close fd w = Ret r w' /\ fd_ok w' /\ fd_map w' = delete fd (fd_map w)
   /\ ucalls w' = UIoClose (server b) (handle b) :: ucalls w)
  /\ (delete fd (fd_map w) = ∅ -> close fd w = Stop StAssert).
Proof.
  intros Hok Hb. assert (is_Some (fd_map w !! fd)) as Hs by eauto. pose proof (ok_range w Hok fd Hs) as Hr.
  unfold close, __fdbits. rewrite bind_get.
  replace ((fd <? 0) || (MAX_FD <? fd)) with false by (symmetry; apply orb_false_iff; lia).
  rewrite Hb, bind_uask. set (n := uenv _ _). set (w1 := add_ucall _ w).
  assert (fd_ok w1) as Hok1 by (by apply fd_ok_ucall).
  rewrite !bind_modify, bind_get, bind_assert.
  assert (forall x, x = without_fd fd w1 ->
    (if invariants x then __idl2errno n 0 x else Stop StAssert)
    = (if invariants (without_fd fd w1) then __idl2errno n 0 (without_fd fd w1) else Stop StAssert)) as Hx
    by (by intros x ->).
  rewrite Hx by (unfold without_fd; cbn; by destruct (fd =? last_alloc w)). split.
  - intros Hne. pose proof (without_fd_ok fd w1 Hok1 Hs Hne) as Hfin. rewrite (ok_asserts _ Hfin).
    unfold __idl2errno, fail_. destruct (n =? 0); [|destruct (n <? 0)]; eexists _, _; (split; [done|]);
      (split; [by destruct Hfin|done]).
  - intros He. destruct (invariants (without_fd fd w1)) eqn:Hi; [|done].
    apply invariants_spec in Hi as (_ & Hemp & _). destruct (Hemp He) as [_ Hl]. exfalso. revert Hl.
    cbn. destruct (Z.eqb_spec fd (last_alloc w)) as [->|Hneq].
    + destruct (prev_used_spec (delete (last_alloc w) (fd_map w)) (Z.to_nat (last_alloc w)) (last_alloc w))
        as (Hp & _); lia.
    + pose proof (ok_last w Hok fd Hs). lia.
Qed.
End props.

(** ** The descriptor list across exec *)

(** What becomes of an entry of the list root is given. *)
Definition startup_entry (e : Z * Z * Z) : Z * Z * Z :=
  (Z.land e.2 (Z.lor 0xffff FF_CWD), e.1.1, e.1.2).

Lemma fd_words_length l : length (fd_words l) = (3 * length l)%nat.
Proof. unfold fd_words. induction l as [|e l IH]; [done|]. cbn -[Nat.mul]. rewrite IH. lia. Qed.

Lemma words3_fd_words l rest : words3 (length l) (fd_words l ++ rest) = map startup_entry l.
Proof. induction l as [|[[s h] f] l IH]; [done|].
  change (fd_words ((s, h, f) :: l) ++ rest)
    with (Z.land f (Z.lor 0xffff FF_CWD) :: s :: h :: (fd_words l ++ rest)).
  cbn [words3 length map]. by rewrite IH.
Qed.

Lemma bind_mapM_app {S A} (f : A -> M S unit) l1 l2 s :
  mapM_ f (l1 ++ l2) s = (_ ← mapM_ f l1; mapM_ f l2) s.
Proof.
  revert s. induction l1 as [|a l1 IH]; intros s; [done|]. cbn [mapM_ app]. rewrite bind_bind.
  apply bind_ext. intros _ s'. apply IH.
Qed.

Section fdlist.
Context `{UserEnv}.

Lemma file_pages_roundtrip fuel : forall l image w,
  (length l <= fuel)%nat -> (length l mod LIM_PER_PAGE <> 0)%nat ->
  file_pages (fdlist_pages fuel image l) w = mapM_ init_fd (map startup_entry l) w.
Proof.
  induction fuel as [|fuel IH]; intros l image w Hf Hmod.
  { destruct l; cbn in Hf; [done|lia]. }
  destruct l as [|e l']; [done|]. remember (e :: l') as l eqn:El.
  assert (fdlist_pages (S fuel) image l
    = (let now := take LIM_PER_PAGE l in
       let words := Z.of_nat (length now) :: fd_words now in
       let image := words ++ drop (length words) image in
       image :: fdlist_pages fuel image (drop LIM_PER_PAGE l))) as -> by (by subst).
  cbv zeta. set (now := take LIM_PER_PAGE l). set (next := drop (length _) image).
  cbn [app file_pages]. rewrite bind_assert.
  assert (length now = Nat.min LIM_PER_PAGE (length l)) as Hnow by apply length_take.
  unfold LIM_PER_PAGE in *. rewrite (proj2 (Z.leb_le _ 341)) by lia.
  rewrite Nat2Z.id, words3_fd_words.
  destruct (Z.ltb_spec (Z.of_nat (length now)) 341) as [Hs|Hs].
  - assert (now = l) as -> by (apply take_ge; lia).
    unfold mbind, M_bind. by destruct (mapM_ _ _ w) as [[] ?|].
  - replace (map startup_entry l) with (map startup_entry now ++ map startup_entry (drop 341 l))
      by (rewrite <- map_app; unfold now; by rewrite take_drop).
    rewrite bind_mapM_app. apply bind_ext. intros _ s. apply IH; rewrite length_drop; [lia|].
    replace (length l) with (length l - 341 + 1 * 341)%nat in Hmod by lia.
    by rewrite Nat.Div0.mod_add in Hmod.
Qed.
End fdlist.

(** The descriptors a program passes to exec or spawn arrive: the pages that
    root uploads below the stack, read by the new program's startup code from the
    page it computes downward, give back every entry in order, unless their number
    is a multiple of 341, where the startup code would want one more page than
    there is. *)
Theorem fdlist_roundtrip `{UserEnv} (sp : Z) (l : list (Z * Z * Z)) (w : userfd) :
  (length l mod LIM_PER_PAGE <> 0)%nat ->
  let pages := fdlist_pages (length l) (replicate 1024 0) l in
  file_pages pages w = mapM_ init_fd (map startup_entry l) w
  /\ forall i, 0 <= i -> PAGE_SIZE * (2 + i) <= sp < 2 ^ 32 ->
     page_round (u32 (sp - PAGE_SIZE * (2 + i))) = page_round (u32 (sp - PAGE_SIZE * 2)) - PAGE_SIZE * i.
Proof.
  intros Hmod pages. split; [by apply file_pages_roundtrip|].
  intros i Hi Hsp. rewrite !u32_id, !page_round_eq by (unfold PAGE_SIZE in *; lia). unfold PAGE_SIZE, PAGE_MASK in *.
  Z.to_euclidean_division_equations. lia.
Qed.

(** ** Witnesses: descriptors 0, 1 and 3 are open *)

Definition demo_uenv : UserEnv := fun _ c => match c with UMalloc | UMapAdd => 1 | _ => 0 end.
Definition demo_map : gmap Z fd_bits :=
  list_to_map [(0, FdBits 7 10 0); (1, FdBits 7 11 0); (3, FdBits 8 12 FD_CLOEXEC)].
Definition demo_fds : userfd := UserFd demo_map ∅ 2 3 (-1) 0 [].
Definition one_fd : userfd := UserFd {[ 3 := FdBits 7 10 0 ]} ∅ 0 3 (-1) 0 [].

Lemma demo_map_dom i : is_Some (demo_map !! i) -> i = 0 \/ i = 1 \/ i = 3.
Proof.
  intros [b Hb]. apply elem_of_list_to_map_2 in Hb. cbn in Hb.
  repeat (apply elem_of_cons in Hb as [[= -> ->]|Hb]; [lia|]). inversion Hb.
Qed.

Lemma demo_fds_ok : fd_ok demo_fds.
Proof.
  split; cbn [fd_map last_alloc first_free demo_fds]; [vm_compute; reflexivity| | | |lia].
  - intros i Hi. assert (i = 0 \/ i = 1) as [-> | ->] by lia; by vm_compute; eexists.
  - intros i [->|[->| ->]]%demo_map_dom; unfold MAX_FD; lia.
  - intros i [->|[->| ->]]%demo_map_dom; lia.
Qed.

Lemma one_fd_ok : fd_ok one_fd.
Proof.
  split; cbn [fd_map last_alloc first_free one_fd]; [vm_compute; reflexivity|lia| | |lia];
    intros i [b [<- _]%lookup_singleton_Some]; unfold MAX_FD; lia.
Qed.

Lemma next_free_fd_least_witness :
  next_free_fd 3 demo_fds = Ret 4 demo_fds
  /\ exists r, next_free_fd 3 demo_fds = Ret r demo_fds
     /\ 3 <= r <= Z.max 3 (MAX_FD + 1) /\ fd_map demo_fds !! r = None
     /\ forall i, 3 <= i < r -> is_Some (fd_map demo_fds !! i).
Proof.
  split; [vm_compute; reflexivity|]. apply (next_free_fd_least demo_fds 3 demo_fds_ok). lia.
Defined.

Lemma create_fd_spec_witness :
  (exists w', @__create_fd demo_uenv (-1) 7 13 0 demo_fds = Ret 2 w' /\ first_free w' = 4)
  /\ exists cs, @__create_fd demo_uenv (-1) 7 13 0 demo_fds = Ret (- ENOMEM) (with_ucalls cs demo_fds)
     \/ (@__create_fd demo_uenv (-1) 7 13 0 demo_fds
           = Ret 2 (with_fd 2 (FdBits 7 13 0) (with_ucalls cs demo_fds))
         /\ fd_ok (with_fd 2 (FdBits 7 13 0) (with_ucalls cs demo_fds))).
Proof.
  split; [eexists; split; vm_compute; reflexivity|].
  apply (@create_fd_spec demo_uenv demo_fds (-1) 7 13 0 demo_fds_ok);
    [unfold MAX_FD; cbn; lia|vm_compute; reflexivity|reflexivity].
Defined.

Lemma close_spec_witness :
  (exists r w', @close demo_uenv 3 demo_fds = Ret r w' /\ fd_ok w'
     /\ fd_map w' = delete 3 (fd_map demo_fds)
     /\ ucalls w' = UIoClose 8 12 :: ucalls demo_fds)
  /\ @close demo_uenv 3 one_fd = Stop StAssert.
Proof.
  split.
  - apply (@close_spec demo_uenv demo_fds 3 (FdBits 8 12 FD_CLOEXEC) demo_fds_ok);
      [vm_compute; reflexivity|].
    intros E. assert (delete 3 (fd_map demo_fds) !! 0 = None) as H0 by (by rewrite E).
    vm_compute in H0. discriminate H0.
  - apply (@close_spec demo_uenv one_fd 3 (FdBits 7 10 0) one_fd_ok); vm_compute; reflexivity.
Defined.

Lemma fdlist_roundtrip_witness :
  let l := [(7, 9, 1); (7, 10, Z.lor 2 FF_CWD)] in
  file_pages (H := demo_uenv) (fdlist_pages 2 (replicate 1024 0) l) (UserFd ∅ ∅ 0 (-1) (-1) 0 [])
  = mapM_ (init_fd (H := demo_uenv)) (map startup_entry l) (UserFd ∅ ∅ 0 (-1) (-1) 0 [])
  /\ forall i, 0 <= i -> PAGE_SIZE * (2 + i) <= 0x40000 < 2 ^ 32 ->
     page_round (u32 (0x40000 - PAGE_SIZE * (2 + i))) = page_round (u32 (0x40000 - PAGE_SIZE * 2)) - PAGE_SIZE * i.
Proof.
  apply (@fdlist_roundtrip demo_uenv 0x40000 [(7, 9, 1); (7, 10, Z.lor 2 FF_CWD)]).
  discriminate.
Defined.
