(* ===== verification/SysIo.v ===== *)
(** The I/O server library, sys/io/io.c: clients, files, descriptors, descriptor
    inheritance, and the queue of process lifecycle events.

    A descriptor is an index into [fds]; a slot without a live descriptor is one
    whose [owner] pointer is null in the source.  Files and clients are referred to
    by address and by process ID.  The server that uses the library has a state of its
    own, of type [A]; its callbacks may also act on the library's, through calls such
    as io_notify(). *)
From S2P Require Import Prelude L4 HashUtil Rollback Containers.

Definition MAX_FD : Z := 65535.
Definition NUM_LC_EVENTS : Z := 128.
Definition CF_WRITE_BLOCKED : Z := 1.
Definition CF_NOTIFY : Z := 2.
Definition IOF_NONBLOCK : Z := 0x800.
Definition IOF_VALID_MASK : Z := IOF_NONBLOCK.
Definition SNEKS_IO_FD_CLOEXEC : Z := 1.
Definition IOD_CLOEXEC : Z := 2 ^ 16.
Definition IOD_VALID_MASK : Z := IOD_CLOEXEC.
Definition IOD_SHADOW : Z := 2 ^ 26.
Definition IOD_TRANSFER : Z := 2 ^ 27.
(** EPOLL EXCLUSIVE, WAKEUP, ONESHOT, ET, RDHUP, HUP, ERR, OUT, PRI and IN *)
Definition IOD_EPOLL_MASK : Z := 0xf000201f.
Definition IOD_PRIVATE_MASK : Z := Z.lor (Z.lor IOD_SHADOW IOD_TRANSFER) IOD_EPOLL_MASK.
Definition IO_CONFIRM_READ : Z := 1.
Definition IO_CONFIRM_WRITE : Z := 2.
Definition IO_CONFIRM_CLOSE : Z := 4.
Definition MPL_FORK : Z := 0.
Definition MPL_EXEC : Z := 1.
Definition MPL_EXIT : Z := 2.
Definition ENFILE : Z := 23.
Definition USHRT_MAX : Z := 65535.

Record io_file := IoFile { f_handles : list Z; f_flags : Z }.
Record client := Client {
  c_handles : list Z;
  c_blocker : Z;                        (* or notify_tid, when CF_NOTIFY is set *)
  c_flags : Z;
  fd_table : list Z
}.
Record fd := Fd {
  file : Z; owner : Z; flags : Z;
  orig_fd : Z; file_ix : nat; client_ix : nat
}.
Record lc_event := LcEvent { tag : Z; primary : Z; child : Z; exit_info : Z * Z * Z }.

(** Calls out of the library. *)
Inductive iocall :=
| IMallocFile                           (* address of a new file, or 0 *)
| IMallocClient                         (* 1 when there was memory *)
| IMallocTransfer
| IMallocConfirm
| IHtableAdd
| IRaAlloc                              (* an index, or -1 *)
| ISysmsgListen                         (* a handle or a negative error *)
| IAddFilter (pid : Z)
| IRmFilter (pid : Z)
| IPoke                                 (* wakes the main loop up, through the poke thread *)
| IReply (tid : Z) (mrs : list Z)       (* 1 when the IPC succeeded *)
| IErrorCode
| IServerMalloc (n : Z)                 (* of the server's own: an address, or 0 *)
| IKill (pid sig : Z).

(** What confirm and rollback contexts hold. *)
Inductive io_handler :=
| IoConfirm (pid fdno count offset : Z) (writing : bool)
| LateClose (fdno : Z)
| ServerRollback (l : list Z).

(** Lifecycle notifications to the server. *)
Inductive lifecycle_tag := CLIENT_FORK (child : Z) | CLIENT_EXIT | CLIENT_EXEC.

Record io (A : Type) := Io {
  fds : gmap Z fd;
  files : gmap Z io_file;
  clients : gmap Z client;
  transfers : list (Z * Z);             (* descriptor, target; oldest first *)
  listening : option Z;                 (* lifecycle_msg, once first_client is over *)
  lce_queue : list lc_event;
  lce_ctrl : Z;
  io_rb : option (rbctx io_handler);
  io_sender : Z;
  io_tag : Z;
  io_no_reply : bool;
  fast_confirm_flags : Z;
  impl : A;
  io_trace : list iocall
}.
Arguments Io {A}.
Arguments fds {A}.
Arguments files {A}.
Arguments clients {A}.
Arguments transfers {A}.
Arguments listening {A}.
Arguments lce_queue {A}.
Arguments lce_ctrl {A}.
Arguments io_rb {A}.
Arguments io_sender {A}.
Arguments io_tag {A}.
Arguments io_no_reply {A}.
Arguments fast_confirm_flags {A}.
Arguments impl {A}.
Arguments io_trace {A}.

(** The answers of the environment. *)
Class IoBase := {
  io_env : list iocall -> iocall -> Z;
  io_global : Z                         (* L4_MyGlobalId() *)
}.
(** The callbacks that sys/io/func.c holds. *)
Class IoEnv (A : Type) := {
  cb_read : Z -> Z -> Z -> M (io A) (Z * list Z);      (* file, count, offset *)
  cb_write : Z -> list Z -> Z -> M (io A) Z;
  cb_close : Z -> M (io A) Z;
  cb_confirm : option (Z -> Z -> Z -> bool -> M (io A) unit);
  cb_lifecycle : Z -> lifecycle_tag -> M (io A) unit
}.
(** The rollback handler of the server's own calls, given the files it is about. *)
Class IoServer (A : Type) := { cb_rollback : list Z -> M (io A) unit }.

Section updates.
Context {A : Type}.
Implicit Type w : io A.

Definition set_fds x w := Io x (files w) (clients w) (transfers w) (listening w)
  (lce_queue w) (lce_ctrl w) (io_rb w) (io_sender w) (io_tag w) (io_no_reply w)
  (fast_confirm_flags w) (impl w) (io_trace w).
Definition set_files x w := Io (fds w) x (clients w) (transfers w) (listening w)
  (lce_queue w) (lce_ctrl w) (io_rb w) (io_sender w) (io_tag w) (io_no_reply w)
  (fast_confirm_flags w) (impl w) (io_trace w).
Definition set_clients x w := Io (fds w) (files w) x (transfers w) (listening w)
  (lce_queue w) (lce_ctrl w) (io_rb w) (io_sender w) (io_tag w) (io_no_reply w)
  (fast_confirm_flags w) (impl w) (io_trace w).
Definition set_transfers x w := Io (fds w) (files w) (clients w) x (listening w)
  (lce_queue w) (lce_ctrl w) (io_rb w) (io_sender w) (io_tag w) (io_no_reply w)
  (fast_confirm_flags w) (impl w) (io_trace w).
Definition set_listening x w := Io (fds w) (files w) (clients w) (transfers w) x
  (lce_queue w) (lce_ctrl w) (io_rb w) (io_sender w) (io_tag w) (io_no_reply w)
  (fast_confirm_flags w) (impl w) (io_trace w).
Definition set_lce q c w := Io (fds w) (files w) (clients w) (transfers w) (listening w)
  q c (io_rb w) (io_sender w) (io_tag w) (io_no_reply w)
  (fast_confirm_flags w) (impl w) (io_trace w).
Definition set_io_rb x w := Io (fds w) (files w) (clients w) (transfers w) (listening w)
  (lce_queue w) (lce_ctrl w) (Some x) (io_sender w) (io_tag w) (io_no_reply w)
  (fast_confirm_flags w) (impl w) (io_trace w).
Definition set_io_no_reply x w := Io (fds w) (files w) (clients w) (transfers w) (listening w)
  (lce_queue w) (lce_ctrl w) (io_rb w) (io_sender w) (io_tag w) x
  (fast_confirm_flags w) (impl w) (io_trace w).
Definition set_impl (x : A) w := Io (fds w) (files w) (clients w) (transfers w) (listening w)
  (lce_queue w) (lce_ctrl w) (io_rb w) (io_sender w) (io_tag w) (io_no_reply w)
  (fast_confirm_flags w) x (io_trace w).
Definition add_iocall c w := Io (fds w) (files w) (clients w) (transfers w) (listening w)
  (lce_queue w) (lce_ctrl w) (io_rb w) (io_sender w) (io_tag w) (io_no_reply w)
  (fast_confirm_flags w) (impl w) (c :: io_trace w).
End updates.

Definition set_f_handles l (f : io_file) := IoFile l (f_flags f).
Definition set_f_flags v (f : io_file) := IoFile (f_handles f) v.
Definition set_c_handles l (c : client) := Client l (c_blocker c) (c_flags c) (fd_table c).
Definition set_fd_table l (c : client) := Client (c_handles c) (c_blocker c) (c_flags c) l.
Definition set_blocker t fl (c : client) := Client (c_handles c) t fl (fd_table c).
Definition set_fd_flags v (f : fd) := Fd (file f) (owner f) v (orig_fd f) (file_ix f) (client_ix f).
Definition set_file_ix i (f : fd) := Fd (file f) (owner f) (flags f) (orig_fd f) i (client_ix f).
Definition set_client_ix i (f : fd) := Fd (file f) (owner f) (flags f) (orig_fd f) (file_ix f) i.
Definition set_owner o i (f : fd) := Fd (file f) o (flags f) (orig_fd f) (file_ix f) i.

Definition new_client : client := Client [] L4_nilthread 0 [].

(** An entry of a translation table, 0 past its end. *)
Definition table_at (c : client) (i : Z) : Z :=
  if i <? 0 then 0 else nth (Z.to_nat i) (fd_table c) 0.

(** darray_remove_fast(): the last element takes the place of the removed one. *)
Definition remove_fast (ix : nat) (l : list Z) : list Z :=
  match last l with
  | None => l
  | Some x => take (length l - 1) (<[ix := x]> l)
  end.

Section io.
Context {A : Type} `{!L4Abi, !IoBase, !IoEnv A, !IoServer A}.
(** The add_blocker() that is linked: of this file, or of pollimpl.c. *)
Context (add_blocker : Z -> Z -> bool -> M (io A) Z).

Definition io_ask (c : iocall) : M (io A) Z :=
  fun w => Ret (io_env (io_trace w) c) (add_iocall c w).
Definition io_pid (tid : Z) : Z := pidof_NP io_global tid.
Definition sender_pid : M (io A) Z := gets (fun w => io_pid (io_sender w)).

Definition fd_at (i : Z) : M (io A) fd := w ← get; of_option StFault (fds w !! i).
Definition file_at (i : Z) : M (io A) io_file := w ← get; of_option StFault (files w !! i).
Definition client_at (i : Z) : M (io A) client := w ← get; of_option StFault (clients w !! i).
Definition fd_upd (i : Z) (f : fd -> fd) : M (io A) unit :=
  modify (fun w => set_fds (alter f i (fds w)) w).
Definition file_upd (i : Z) (f : io_file -> io_file) : M (io A) unit :=
  modify (fun w => set_files (alter f i (files w)) w).
Definition client_upd (i : Z) (f : client -> client) : M (io A) unit :=
  modify (fun w => set_clients (alter f i (clients w)) w).

(** *** Descriptors *)

(** The allocator of descriptors has 2^16 slots, and ra_id2ptr() does not look whether a number
    is that of one: the first test on [owner] is then made outside of its memory. *)
Definition get_fd_nosync (pid fdno : Z) : M (io A) (option Z) :=
  _ ← assert_ (0 <? fdno);
  if MAX_FD <? fdno then halt StFault
  else
    w ← get;
    match fds w !! fdno with
    | Some f =>
        if owner f =? pid then
          mret (if negb (Z.land (flags f) IOD_SHADOW =? 0) then None else Some fdno)
        else
          c ← of_option StAssert (clients w !! pid);
          if 0 <? table_at c fdno then
            g ← of_option StAssert (fds w !! table_at c fdno);
            _ ← assert_ (negb (Z.land (flags g) IOD_SHADOW =? 0));
            mret (Some (table_at c fdno))
          else mret None
    | None =>
        c ← of_option StAssert (clients w !! pid);
        if 0 <? table_at c fdno then
          g ← of_option StAssert (fds w !! table_at c fdno);
          _ ← assert_ (negb (Z.land (flags g) IOD_SHADOW =? 0));
          mret (Some (table_at c fdno))
        else mret None
    end.

(** Indexes with an entry in the client's table are passed over; each of them
    uses up one of its entries. *)
Fixpoint alloc_fd_loop (fuel : nat) (c : client) (skips : list Z) : M (io A) (option Z) :=
  n ← io_ask IRaAlloc;
  w ← get;
  if (n <=? 0) || (MAX_FD <? n) || bool_decide (is_Some (fds w !! n)) || bool_decide (n ∈ skips)
  then mret None
  else if 0 <? table_at c n then
    match fuel with O => halt StFuel | S fuel => alloc_fd_loop fuel c (n :: skips) end
  else mret (Some n).
Definition alloc_fd (c : client) : M (io A) (option Z) :=
  alloc_fd_loop (length (fd_table c)) c [].

(** A new descriptor goes to the end of its client's and of its file's array. *)
Definition link_fd (n : Z) (f : fd) : M (io A) unit :=
  _ ← modify (fun w => set_fds (<[n := f]> (fds w)) w);
  _ ← client_upd (owner f) (fun c => set_c_handles (c_handles c ++ [n]) c);
  file_upd (file f) (fun x => set_f_handles (f_handles x ++ [n]) x).

Definition file_dtor (f : Z) : M (io A) unit :=
  x ← file_at f;
  _ ← assert_ (bool_decide (f_handles x = []));
  modify (fun w => set_files (delete f (files w)) w).

(** Taking a descriptor out of an array of its client, or of its file. *)
Definition unlink_client (i : Z) : M (io A) unit :=
  f ← fd_at i;
  c ← client_at (owner f);
  _ ← assert_ (client_ix f <? length (c_handles c))%nat;
  let l := remove_fast (client_ix f) (c_handles c) in
  _ ← client_upd (owner f) (set_c_handles l);
  match l !! client_ix f with
  | Some j => fd_upd j (set_client_ix (client_ix f))
  | None => mret tt
  end.
Definition unlink_file (i : Z) : M (io A) unit :=
  f ← fd_at i;
  x ← file_at (file f);
  _ ← assert_ (file_ix f <? length (f_handles x))%nat;
  let l := remove_fast (file_ix f) (f_handles x) in
  _ ← file_upd (file f) (set_f_handles l);
  match l !! file_ix f with
  | Some j => fd_upd j (set_file_ix (file_ix f))
  | None => mret tt
  end.

Definition fd_dtor (i : Z) (destroy_file : bool) : M (io A) Z :=
  f ← fd_at i;
  c ← client_at (owner f);
  _ ← assert_ (bool_decide (c_handles c !! client_ix f = Some i));
  _ ← unlink_client i;
  x ← file_at (file f);
  _ ← assert_ (bool_decide (f_handles x !! file_ix f = Some i));
  _ ← unlink_file i;
  x ← file_at (file f);
  n ← (if bool_decide (f_handles x = []) && destroy_file then
         n ← cb_close (file f);
         _ ← file_dtor (file f);
         mret n
       else mret 0);
  _ ← when_ (negb (Z.land (flags f) IOD_TRANSFER =? 0))
        (modify (fun w => set_transfers (filter (fun t => t.1 <> i) (transfers w)) w));
  _ ← modify (fun w => set_fds (delete i (fds w)) w);
  mret n.

(** *** Clients *)

(** Each turn destroys a descriptor. *)
Fixpoint drop_handles (fuel : nat) (pid : Z) : M (io A) unit :=
  c ← client_at pid;
  match c_handles c with
  | [] => mret tt
  | i :: _ =>
      match fuel with
      | O => halt StFuel
      | S fuel => _ ← fd_dtor i true; drop_handles fuel pid
      end
  end.
(** The client is taken off the table first and freed last; it stays reachable
    from its descriptors meanwhile, which is all that [drop_handles] uses. *)
Definition client_dtor (pid : Z) : M (io A) unit :=
  c ← client_at pid;
  _ ← drop_handles (length (c_handles c)) pid;
  modify (fun w => set_clients (delete pid (clients w)) w).

Definition fork_handle (i : Z) (child : Z) : M (io A) Z :=
  c ← client_at child;
  n ← alloc_fd c;
  match n with
  | None => mret (- ENOMEM)
  | Some n =>
      f ← fd_at i;
      x ← file_at (file f);
      let fl := Z.lor (Z.land (flags f) (bnot32 IOD_TRANSFER)) IOD_SHADOW in
      _ ← link_fd n (Fd (file f) child fl i (length (f_handles x)) (length (c_handles c)));
      mret n
  end.

(** One descriptor of the parent: its copy goes into the child's table at [at]. *)
Definition fork_into (i : Z) (child : Z) (ix : Z) : M (io A) unit :=
  newfd ← fork_handle i child;
  if newfd <? 0 then halt StAbort
  else
    c ← client_at child;
    _ ← assert_ (ix <? Z.of_nat (length (fd_table c)));
    _ ← assert_ (table_at c ix =? 0);
    client_upd child (fun c => set_fd_table (<[Z.to_nat ix := newfd]> (fd_table c)) c).

Definition is_shadow (w : io A) (i : Z) : bool :=
  match fds w !! i with
  | Some f => negb (Z.land (flags f) IOD_SHADOW =? 0)
  | None => false
  end.

(** The highest descriptor number that means something to the parent. *)
Definition highest_fd (w : io A) (parent : client) : Z :=
  let own := foldl Z.max (-1) (filter (fun i => is_shadow w i = false) (c_handles parent)) in
  foldl Z.max own (filter (fun i => 0 < table_at parent i) (seqZ 0 (Z.of_nat (length (fd_table parent))))).

Definition fork_client (parent : Z) (child_pid : Z) : M (io A) Z :=
  w ← get;
  match clients w !! child_pid with
  | Some _ => mret (- EEXIST)
  | None =>
      p ← client_at parent;
      let max_fd := highest_fd w p in
      ok ← io_ask IMallocClient;
      if ok =? 0 then halt StFault
      else
        ok ← io_ask IHtableAdd;
        if ok =? 0 then mret (- ENOMEM)
        else
          _ ← modify (fun w => set_clients (<[child_pid :=
                Client [] L4_nilthread 0 (replicate (Z.to_nat (max_fd + 1)) 0)]> (clients w)) w);
          _ ← mapM_ (fun i =>
                w ← get;
                if is_shadow w i then mret tt
                else _ ← assert_ (i <=? max_fd); fork_into i child_pid i)
              (c_handles p);
          (* inherited ones: looked up by their number in the first ancestor *)
          _ ← mapM_ (fun ix =>
                if table_at p ix <=? 0 then mret tt
                else
                  w ← get;
                  match fds w !! ix with
                  | None => mret tt
                  | Some f =>
                      _ ← assert_ (Z.land (flags f) IOD_SHADOW =? 0);
                      fork_into ix child_pid ix
                  end)
              (seqZ 0 (Z.min (max_fd + 1) (Z.of_nat (length (fd_table p)))));
          c ← client_at child_pid;
          p ← client_at parent;
          _ ← assert_ (length (c_handles c) =? length (c_handles p))%nat;
          mret 0
  end.

(** *** Confirmation and rollback *)

Definition late_close_fd (i : Z) : M (io A) unit :=
  f ← fd_at i;
  _ ← (if negb (Z.land (flags f) IOD_SHADOW =? 0) then
         c ← client_at (owner f);
         _ ← assert_ (orig_fd f <? Z.of_nat (length (fd_table c)));
         _ ← assert_ (0 <? table_at c (orig_fd f));
         client_upd (owner f) (fun c => set_fd_table (<[Z.to_nat (orig_fd f) := 0]> (fd_table c)) c)
       else mret tt);
  _ ← fd_dtor i true;
  mret tt.

Definition io_confirm (pid fdno count offset : Z) (writing : bool) : M (io A) unit :=
  match cb_confirm with
  | None => halt StAbort
  | Some fn =>
      f ← get_fd_nosync pid fdno;
      i ← of_option StAssert f;
      f ← fd_at i;
      fn (file f) count offset writing
  end.

#[export] Instance io_host : RollbackHost (io A) io_handler := {
  host_ctx := io_rb;
  host_set_ctx := set_io_rb;
  muidl_get_sender := io_sender;
  muidl_get_tag := io_tag;
  run_handler h :=
    match h with
    | IoConfirm pid fdno count offset writing => io_confirm pid fdno count offset writing
    | LateClose i => late_close_fd i
    | ServerRollback l => cb_rollback l
    end
}.

#[export] Instance io_host_ok : RollbackHostOk (io A) io_handler.
Proof. by split. Qed.

Definition wr_confirm (pid : Z) (writing : bool) (fdno count offset : Z) : M (io A) unit :=
  match cb_confirm with
  | None => mret tt
  | Some _ =>
      ok ← io_ask IMallocConfirm;
      if ok =? 0 then halt StAbort
      else s ← sender_pid; set_confirm (Some (IoConfirm s fdno count offset writing))
  end.

Definition io_set_fast_confirm : M (io A) unit := _ ← io_ask IPoke; mret tt.
Definition fast_confirm (flag : Z) : M (io A) unit :=
  w ← get;
  when_ (negb (Z.land (fast_confirm_flags w) flag =? 0)) io_set_fast_confirm.

(** *** Lifecycle events *)

(** Closing what an exec closes: each turn either goes on to the next position or
    takes one descriptor away. *)
Fixpoint exec_loop (fuel : nat) (pid : Z) (i : nat) : M (io A) unit :=
  c ← client_at pid;
  match c_handles c !! i with
  | None => mret tt
  | Some j =>
      match fuel with
      | O => halt StFuel
      | S fuel =>
          f ← fd_at j;
          if Z.land (flags f) IOD_CLOEXEC =? 0 then exec_loop fuel pid (S i)
          else _ ← late_close_fd j; exec_loop fuel pid i
      end
  end.

Definition lc_apply (ev : lc_event) : M (io A) unit :=
  w ← get;
  let p := primary ev in
  match clients w !! p with
  | None => mret tt
  | Some c =>
      if tag ev =? MPL_FORK then
        _ ← fork_client p (child ev); cb_lifecycle p (CLIENT_FORK (child ev))
      else if tag ev =? MPL_EXEC then
        _ ← exec_loop (length (c_handles c)) p 0; cb_lifecycle p CLIENT_EXEC
      else if tag ev =? MPL_EXIT then
        (* the source takes the process ID from the client it has just freed *)
        _ ← client_dtor p; _ ← cb_lifecycle p CLIENT_EXIT;
        _ ← io_ask (IRmFilter p); mret tt
      else mret tt
  end.

Definition no_event : lc_event := LcEvent 0 0 0 (0, 0, 0).

(** The events from [first] on, and the control word that has them consumed. *)
Definition lc_pending (q : list lc_event) (ctrl : Z) : list lc_event :=
  let first := Z.shiftr ctrl 10 in
  let count := Z.land ctrl 0x3ff - first in
  let count := if count <? 0 then count + NUM_LC_EVENTS else count in
  map (fun i => nth (Z.to_nat ((first + i) mod NUM_LC_EVENTS)) q no_event) (seqZ 0 count).
Definition lc_consumed (ctrl : Z) : Z :=
  let first := Z.shiftr ctrl 10 in
  let count := Z.land ctrl 0x3ff - first in
  let count := if count <? 0 then count + NUM_LC_EVENTS else count in
  Z.lor (Z.shiftl ((first + count) mod NUM_LC_EVENTS) 10) (Z.land ctrl 0x3ff).

Definition lifecycle_sync : M (io A) unit :=
  w ← get;
  let ctrl := lce_ctrl w in
  if negb (Z.land ctrl (2 ^ 20) =? 0) then halt StAbort
  else if Z.shiftr ctrl 10 =? Z.land ctrl 0x3ff then mret tt
  else
    _ ← mapM_ lc_apply (lc_pending (lce_queue w) ctrl);
    modify (fun w => set_lce (lce_queue w) (lc_consumed ctrl) w).

(** The queue and its control word when an event comes in.  In overflow, the write
    position is left alone the first time and moved on the next. *)
Definition lc_push (ev : lc_event) (q : list lc_event) (ctrl : Z) : list lc_event * Z :=
  let wrpos := Z.land ctrl 0x3ff in
  let next := (wrpos + 1) mod NUM_LC_EVENTS in
  let moved := Z.lor (Z.land ctrl (Z.shiftl 0x3ff 10)) next in
  if negb (Z.land ctrl (2 ^ 20) =? 0) then (q, moved)
  else if Z.shiftr ctrl 10 =? next then (q, Z.lor ctrl (2 ^ 20))
  else (<[Z.to_nat wrpos := ev]> q, moved).

Definition lc_event_of (body : list Z) : lc_event :=
  let w i := nth i body 0 in
  let tag := Z.land (w 1%nat) 0xff in
  LcEvent tag (u16 (w 0%nat))
    (if tag =? MPL_FORK then u16 (Z.shiftr (w 1%nat) 8) else 0)
    (if tag =? MPL_EXIT then (s16 (Z.shiftr (w 1%nat) 8), w 3%nat, w 2%nat) else (0, 0, 0)).

Definition lifecycle_handler_fn (body : list Z) : M (io A) unit :=
  w ← get;
  let ctrl := lce_ctrl w in
  let ev := lc_event_of body in
  let full := (Z.land ctrl (2 ^ 20) =? 0)
              && (Z.shiftr ctrl 10 =? (Z.land ctrl 0x3ff + 1) mod NUM_LC_EVENTS) in
  _ ← (if tag ev =? MPL_FORK then _ ← io_ask (IAddFilter (child ev)); mret tt else mret tt);
  let '(q, ctrl) := lc_push ev (lce_queue w) ctrl in
  _ ← modify (set_lce q ctrl);
  if full || (tag ev =? MPL_EXIT) then _ ← io_ask IPoke; mret tt else mret tt.

(** *** Lookups that bring the client table up to date *)

Definition get_fd (pid fdno : Z) : M (io A) (option Z) :=
  _ ← lifecycle_sync; get_fd_nosync pid fdno.

Definition get_client (pid : Z) (create : bool) : M (io A) (option Z) :=
  _ ← lifecycle_sync;
  w ← get;
  match clients w !! pid with
  | Some _ => mret (Some pid)
  | None =>
      if negb create then mret None
      else
        m ← io_ask IMallocClient;
        if m =? 0 then halt StFault
        else
          ok ← io_ask IHtableAdd;
          _ ← when_ (negb (ok =? 0))
                (modify (fun w => set_clients (<[pid := new_client]> (clients w)) w));
          _ ← (if pid <=? SNEKS_MAX_PID then
                 w ← get;
                 _ ← (match listening w with
                      | Some _ => mret tt
                      | None =>
                          n ← io_ask ISysmsgListen;
                          if n <? 0 then halt StAbort else modify (set_listening (Some n))
                      end);
                 _ ← io_ask (IAddFilter pid); mret tt
               else mret tt);
          mret (if ok =? 0 then None else Some pid)
  end.

(** *** Files and handles for the server *)

Definition iof_new (fl : Z) : M (io A) (option Z) :=
  if negb (Z.land fl (bnot32 IOF_VALID_MASK) =? 0) then mret None
  else
    p ← io_ask IMallocFile;
    w ← get;
    if (p =? 0) || bool_decide (is_Some (files w !! p)) then mret None
    else _ ← modify (fun w => set_files (<[p := IoFile [] 0]> (files w)) w); mret (Some p).

(** Each turn destroys a handle. *)
Fixpoint drop_file_handles (fuel : nat) (f : Z) : M (io A) unit :=
  x ← file_at f;
  match f_handles x with
  | [] => mret tt
  | i :: _ =>
      match fuel with
      | O => halt StFuel
      | S fuel => _ ← fd_dtor i false; drop_file_handles fuel f
      end
  end.
Definition iof_undo_new (f : Z) : M (io A) unit :=
  if f =? 0 then mret tt
  else
    x ← file_at f;
    _ ← drop_file_handles (length (f_handles x)) f;
    file_dtor f.

Definition io_add_fd (pid iof fl : Z) : M (io A) Z :=
  if negb (Z.land fl (bnot32 IOD_VALID_MASK) =? 0) then mret (- EINVAL)
  else
    c ← get_client pid true;
    match c with
    | None => mret (- ENOMEM)
    | Some p =>
        c ← client_at p;
        x ← file_at iof;
        if Z.of_nat (length (c_handles c)) =? MAX_FD then mret (- EMFILE)
        else if Z.of_nat (length (f_handles x)) =? MAX_FD then mret (- ENFILE)
        else
          n ← alloc_fd c;
          match n with
          | None => mret (- ENFILE)
          | Some n =>
              _ ← link_fd n (Fd iof p fl 0 (length (f_handles x)) (length (c_handles c)));
              mret n
          end
    end.

(** With a [pid] of -1, the file of any descriptor there is. *)
Definition io_get_file (pid fdno : Z) : M (io A) (option Z) :=
  i ← (if pid =? -1 then gets (fun w => fst <$> head (map_to_list (fds w)))
       else get_fd pid fdno);
  match i with
  | None => mret None
  | Some i => f ← fd_at i; mret (Some (file f))
  end.

(** *** Sneks::IO *)

(** The common beginning: the descriptor of the caller. *)
Definition callers_fd (fdno : Z) : M (io A) (option Z) :=
  _ ← sync_confirm;
  pid ← sender_pid;
  get_fd pid fdno.

(** Returns the result and the old flags. *)
Definition io_impl_set_file_flags (fdno or_mask and_mask : Z) : M (io A) (Z * Z) :=
  i ← callers_fd fdno;
  match i with
  | None => mret (- EBADF, 0)
  | Some i =>
      f ← fd_at i;
      x ← file_at (file f);
      let permitted := IOF_NONBLOCK in
      let and_mask := Z.lor and_mask (bnot32 permitted) in
      let or_mask := Z.land or_mask permitted in
      let old := Z.land (f_flags x) IOF_VALID_MASK in
      _ ← file_upd (file f)
            (set_f_flags (Z.lor (Z.lor (Z.land old and_mask) or_mask) (Z.land old (bnot32 permitted))));
      mret (0, old)
  end.

Definition io_impl_set_handle_flags (fdno or_mask and_mask : Z) : M (io A) (Z * Z) :=
  i ← callers_fd fdno;
  match i with
  | None => mret (- EBADF, 0)
  | Some i =>
      f ← fd_at i;
      let permitted := SNEKS_IO_FD_CLOEXEC in
      let and_mask := Z.lor and_mask (bnot32 permitted) in
      let or_mask := Z.land or_mask permitted in
      let old := Z.shiftr (Z.land (flags f) IOD_CLOEXEC) 16 in
      let new_set := Z.lor (Z.lor (Z.land old and_mask) or_mask) (Z.land old (bnot32 permitted)) in
      _ ← fd_upd i (set_fd_flags (Z.lor (Z.land (flags f) (bnot32 IOD_VALID_MASK))
                                   (Z.land (Z.shiftl new_set 16) IOD_VALID_MASK)));
      mret (0, old)
  end.

(** A call that would block: the caller is noted and gets no reply. *)
Definition block (i sender : Z) (writing : bool) : M (io A) Z :=
  n ← add_blocker i sender writing;
  if n <? 0 then mret n else _ ← modify (set_io_no_reply true); mret 0.

Definition io_impl_write (fdno offset : Z) (buf : list Z) : M (io A) Z :=
  i ← callers_fd fdno;
  match i with
  | None => mret (- EBADF)
  | Some i =>
      f ← fd_at i;
      n ← cb_write (file f) (take (Z.to_nat USHRT_MAX) buf) offset;
      x ← file_at (file f);
      sender ← gets io_sender;
      if (n =? - EWOULDBLOCK) && (Z.land (f_flags x) IOF_NONBLOCK =? 0) then block i sender true
      else
        _ ← (if 0 <? n then
               _ ← wr_confirm (io_pid sender) true fdno n offset; fast_confirm IO_CONFIRM_WRITE
             else mret tt);
        mret n
  end.

(** Returns the result and the bytes read. *)
Definition io_impl_read (fdno length offset : Z) : M (io A) (Z * list Z) :=
  i ← callers_fd fdno;
  match i with
  | None => mret (- EBADF, [])
  | Some i =>
      f ← fd_at i;
      res ← cb_read (file f) (Z.max 0 length) offset;
      let '(n, buf) := (res : Z * list Z) in
      x ← file_at (file f);
      sender ← gets io_sender;
      if (n =? - EWOULDBLOCK) && (Z.land (f_flags x) IOF_NONBLOCK =? 0) then
        n ← block i sender false; mret (n, [])
      else
        _ ← (if 0 <? n then
               _ ← wr_confirm (io_pid sender) false fdno n offset; fast_confirm IO_CONFIRM_READ
             else mret tt);
        mret (Z.min n 0, take (Z.to_nat n) buf)
  end.

Definition io_impl_close (fdno : Z) : M (io A) Z :=
  _ ← sync_confirm;
  if fdno <=? 0 then mret (- EBADF)
  else
    pid ← sender_pid;
    i ← get_fd pid fdno;
    match i with
    | None => mret (- EBADF)
    | Some i => _ ← set_confirm (Some (LateClose i)); _ ← fast_confirm IO_CONFIRM_CLOSE; mret 0
    end.

(** Returns the result and the new descriptor; a negative [receiver] is none. *)
Definition internal_dup (oldfd receiver fl : Z) : M (io A) (Z * Z) :=
  if negb (Z.land fl (bnot32 SNEKS_IO_FD_CLOEXEC) =? 0) then mret (- EINVAL, 0)
  else
    pid ← sender_pid;
    i ← get_fd pid oldfd;
    match i with
    | None => mret (- EBADF, 0)
    | Some i =>
        f ← fd_at i;
        if (receiver =? 0x10000) && (pid <? SNEKS_MIN_SYSID) then mret (- EINVAL, 0)
        else
          m ← (if 0 <=? receiver then io_ask IMallocTransfer else mret 1);
          if m =? 0 then mret (- ENOMEM, 0)
          else
            let h := Z.land (flags f) (bnot32 (Z.lor IOD_PRIVATE_MASK IOD_CLOEXEC)) in
            let h := if Z.land fl SNEKS_IO_FD_CLOEXEC =? 0 then h else Z.lor h IOD_CLOEXEC in
            n ← io_add_fd pid (file f) h;
            if n <? 0 then mret (n, 0)
            else
              c ← get_client pid false;
              g ← fd_at n;
              _ ← assert_ (bool_decide (c = Some (owner g)));
              ok ← (if 0 <=? receiver then io_ask IHtableAdd else mret 1);
              if ok =? 0 then _ ← fd_dtor n false; mret (- ENOMEM, n)
              else
                _ ← when_ (0 <=? receiver)
                      (_ ← modify (fun w => set_transfers (transfers w ++ [(n, receiver)]) w);
                       fd_upd n (fun f => set_fd_flags (Z.lor (flags f) IOD_TRANSFER) f));
                _ ← set_rollback (Some (LateClose n));
                mret (0, n)
    end.
Definition io_impl_dup (oldfd fl : Z) : M (io A) (Z * Z) :=
  _ ← sync_confirm; internal_dup oldfd (-1) fl.
Definition io_impl_dup_to (oldfd receiver : Z) : M (io A) (Z * Z) :=
  _ ← sync_confirm; internal_dup oldfd receiver 0.

Definition transfer_match (target pid : Z) : bool :=
  (target =? pid) || ((target =? 0x10000) && (SNEKS_MIN_SYSID <=? pid)).

Definition io_impl_touch (newfd : Z) : M (io A) Z :=
  _ ← sync_confirm;
  pid ← sender_pid;
  c ← get_client pid true;
  match c with
  | None => mret (- ENOMEM)
  | Some p =>
      w ← get;
      match list_find (fun t => t.1 = newfd /\ transfer_match t.2 pid = true) (transfers w) with
      | None => mret (- EBADF)
      | Some (ix, _) =>
          _ ← modify (fun w => set_transfers (delete ix (transfers w)) w);
          match fds w !! newfd with
          | None => halt StAssert
          | Some f =>
              if Z.land (flags f) IOD_TRANSFER =? 0 then mret (- EBADF)
              else
                _ ← unlink_client newfd;
                c ← client_at p;
                _ ← fd_upd newfd (set_owner p (length (c_handles c)));
                _ ← client_upd p (fun c => set_c_handles (c_handles c ++ [newfd]) c);
                _ ← fd_upd newfd (fun f => set_fd_flags (Z.land (flags f) (bnot32 IOD_TRANSFER)) f);
                mret 0
          end
      end
  end.

Definition io_impl_isatty (fdno : Z) : M (io A) Z :=
  i ← callers_fd fdno;
  mret (match i with None => - EBADF | Some _ => 0 end).

(** *** The main loop *)

Inductive turn := GoOn | Quit (rc : Z).

(** One turn, around the dispatcher of the server; [local] tells whether the
    message came from a thread of this task, [label] its label.  Built-in self-tests
    are not among the messages. *)
Definition io_run_turn (MUIDL_IS_L4_ERROR : Z -> bool) (dispatch : M (io A) Z) (local : bool)
    (label : Z) : M (io A) turn :=
  st ← dispatch;
  rolled ← (if negb (st =? 0) then check_rollback MUIDL_IS_L4_ERROR st
            else mret false : M (io A) bool);
  if (rolled : bool) then mret GoOn
  else if local && (label =? 0xbaab) then _ ← sync_confirm; _ ← lifecycle_sync; mret GoOn
  else if local && (Z.land label 0xff00 =? 0xff00) then mret (Quit (Z.land label 0xff))
  else
    sender ← gets io_sender;
    _ ← io_ask (IReply sender [1; ENOSYS]);
    mret GoOn.

Definition io_quit : M (io A) Z :=
  ok ← io_ask IPoke;
  if negb (ok =? 0) then mret 0
  else ec ← io_ask IErrorCode; mret (if ec =? 2 then - EBUSY else - EIO).
End io.

(** add_blocker() without the Poll module. *)
Definition _nopoll_add_blocker {A} (i tid : Z) (writing : bool) : M (io A) Z :=
  f ← fd_at i;
  c ← client_at (owner f);
  _ ← assert_ (Z.land (c_flags c) CF_NOTIFY =? 0);
  _ ← client_upd (owner f) (fun c => set_blocker tid
        (if writing then Z.lor (c_flags c) CF_WRITE_BLOCKED
         else Z.land (c_flags c) (bnot32 CF_WRITE_BLOCKED)) c);
  mret 0.

(** io_run() before its loop. *)
Definition io_init {A} (a : A) : io A :=
  Io ∅ ∅ ∅ [] None (replicate (Z.to_nat NUM_LC_EVENTS) no_event) 0 None 0 0 false 0 a [].

(** ** Everything that acts on the state

    Requests of clients, calls by the server that uses the library (io_add_fd() and
    the rest), lifecycle messages, and the reports of how a reply went. *)
Inductive io_request :=
| ReqSetFileFlags (fdno or_mask and_mask : Z)
| ReqSetHandleFlags (fdno or_mask and_mask : Z)
| ReqWrite (fdno offset : Z) (buf : list Z)
| ReqRead (fdno length offset : Z)
| ReqClose (fdno : Z)
| ReqDup (oldfd fl : Z)
| ReqDupTo (oldfd receiver : Z)
| ReqTouch (newfd : Z)
| ReqIsatty (fdno : Z).

Inductive io_event (R : Type) :=
| Request (sender tag : Z) (r : io_request)
| OwnRequest (sender tag : Z) (r : R)   (* of the server's own interfaces *)
| FileNew (fl : Z)
| FileUndoNew (f : Z)
| AddFd (pid f fl : Z)
| GetFile (pid fdno : Z)
| Lifecycle (body : list Z)
| Poke                                  (* the local message that does what is overdue *)
| Replied (status : Z).

Arguments Request {R}.
Arguments OwnRequest {R}.
Arguments FileNew {R}.
Arguments FileUndoNew {R}.
Arguments AddFd {R}.
Arguments GetFile {R}.
Arguments Lifecycle {R}.
Arguments Poke {R}.
Arguments Replied {R}.

Section events.
Context {A : Type} `{!L4Abi, !IoBase, !IoEnv A, !IoServer A}.
Context (add_blocker : Z -> Z -> bool -> M (io A) Z).
Context {R : Type} (serve_own : R -> M (io A) Z).
Context (MUIDL_IS_L4_ERROR : Z -> bool).

Definition receive (sender tag : Z) (w : io A) : io A :=
  Io (fds w) (files w) (clients w) (transfers w) (listening w) (lce_queue w) (lce_ctrl w)
     (io_rb w) sender tag false (fast_confirm_flags w) (impl w) (io_trace w).

(** The status of the reply. *)
Definition serve (r : io_request) : M (io A) Z :=
  match r with
  | ReqSetFileFlags i a b => r ← io_impl_set_file_flags i a b; mret r.1
  | ReqSetHandleFlags i a b => r ← io_impl_set_handle_flags i a b; mret r.1
  | ReqWrite i off buf => io_impl_write add_blocker i off buf
  | ReqRead i len off => r ← io_impl_read add_blocker i len off; mret r.1
  | ReqClose i => io_impl_close i
  | ReqDup i fl => r ← io_impl_dup i fl; mret r.1
  | ReqDupTo i to => r ← io_impl_dup_to i to; mret r.1
  | ReqTouch i => io_impl_touch i
  | ReqIsatty i => io_impl_isatty i
  end.

Definition handle_event (e : io_event R) : M (io A) unit :=
  match e with
  | Request sender tag r => _ ← modify (receive sender tag); _ ← serve r; mret tt
  | OwnRequest sender tag l => _ ← modify (receive sender tag); _ ← serve_own l; mret tt
  | FileNew fl => _ ← iof_new fl; mret tt
  | FileUndoNew f => iof_undo_new f
  | AddFd pid f fl => _ ← io_add_fd pid f fl; mret tt
  | GetFile pid i => _ ← io_get_file pid i; mret tt
  | Lifecycle body => lifecycle_handler_fn body
  | Poke => _ ← sync_confirm; lifecycle_sync
  | Replied st => _ ← check_rollback MUIDL_IS_L4_ERROR st; mret tt
  end.

Definition io_step (w w' : io A) : Prop := exists e, handle_event e w = Ret tt w'.
End events.

(** ** The debugging assertions

    The parts of invariants() on how descriptors, clients and files refer to each
    other; those on flags, transfers and translation tables are left out. *)
Definition fd_links_ok {A} (w : io A) (i : Z) (f : fd) : bool :=
  match clients w !! owner f, files w !! file f with
  | Some c, Some x =>
      (0 <? length (c_handles c))%nat && (client_ix f <? length (c_handles c))%nat
      && bool_decide (c_handles c !! client_ix f = Some i)
      && (0 <? length (f_handles x))%nat && (file_ix f <? length (f_handles x))%nat
      && bool_decide (f_handles x !! file_ix f = Some i)
  | _, _ => false
  end.
(** Each handle of a client is seen once, and says that it is the client's. *)
Definition client_handles_ok {A} (w : io A) (p : Z) (c : client) : bool :=
  bool_decide (NoDup (c_handles c))
  && forallb (fun i => match fds w !! i with Some f => owner f =? p | None => false end) (c_handles c).
Definition handle_invariants {A} (w : io A) : bool :=
  bool_decide (map_Forall (fun i f => fd_links_ok w i f = true) (fds w))
  && bool_decide (map_Forall (fun p c => client_handles_ok w p c = true) (clients w)).
