(* ===== verification/SysIoProps.v ===== *)
(** Consistency of descriptors, clients and files in the I/O server library: the
    cross references that the debugging assertions of sys/io/io.c look at hold in
    every reachable state. *)
From S2P Require Import Prelude L4 HashUtil Rollback Containers SysIo.

(** ** Arrays of members and members' positions *)

(** [T] holds arrays of members; [own] says in which array, and where in it, each
    member is. *)
Definition linked (T : gmap Z (list Z)) (own : gmap Z (Z * nat)) : Prop :=
  forall i p ix, own !! i = Some (p, ix) <-> exists l, T !! p = Some l /\ l !! ix = Some i.

(** The member that has been moved to [ix], if any, learns of it. *)
Definition relink (ix : nat) (l : list Z) (own : gmap Z (Z * nat)) : gmap Z (Z * nat) :=
  match l !! ix with Some j => alter (fun e => (e.1, ix)) j own | None => own end.

Lemma remove_fast_lookup ix l k :
  (ix < length l)%nat ->
  remove_fast ix l !! k
  = if (k <? length l - 1)%nat then if decide (k = ix) then l !! (length l - 1)%nat else l !! k else None.
Proof.
  intros Hix. unfold remove_fast. rewrite last_lookup. replace (pred (length l)) with (length l - 1)%nat by lia.
  destruct (lookup_lt_is_Some_2 l (length l - 1)) as [x Hx]; [lia|]. rewrite Hx.
  destruct (Nat.ltb_spec k (length l - 1)) as [Hk|Hk].
  - rewrite lookup_take_lt by done. case_decide as E; [subst k; by rewrite list_lookup_insert_eq by lia|].
    by rewrite list_lookup_insert_ne by done.
  - rewrite lookup_take_ge by done. done.
Qed.

Lemma linked_inj T own p l a b i :
  linked T own -> T !! p = Some l -> l !! a = Some i -> l !! b = Some i -> a = b.
Proof.
  intros HL Hp Ha Hb. assert (own !! i = Some (p, a)) as E1 by (apply HL; eauto).
  assert (own !! i = Some (p, b)) as E2 by (apply HL; eauto). congruence.
Qed.

Lemma linked_push T own p l n :
  linked T own -> T !! p = Some l -> own !! n = None ->
  linked (<[p := l ++ [n]]> T) (<[n := (p, length l)]> own).
Proof.
  intros HL Hp Hn i q ix. assert (forall q l k, T !! q = Some l -> l !! k <> Some n) as Hfresh.
  { intros q' l' k Hq Hk. assert (own !! n = Some (q', k)) by (apply HL; eauto). congruence. }
  destruct (decide (i = n)) as [->|Hi].
  - rewrite lookup_insert_eq. split.
    + intros [= <- <-]. exists (l ++ [n]). rewrite lookup_insert_eq. split; [done|].
      by rewrite lookup_app_r, Nat.sub_diag by lia.
    + intros (l' & Hl' & Hk). destruct (decide (q = p)) as [->|].
      * rewrite lookup_insert_eq in Hl'. injection Hl' as <-.
        apply lookup_app_Some in Hk as [Hk|[Hge Hk]]; [by destruct (Hfresh _ _ _ Hp Hk)|].
        destruct (ix - length l)%nat eqn:E; [|done]. do 2 f_equal. lia.
      * rewrite lookup_insert_ne in Hl' by done. by destruct (Hfresh _ _ _ Hl' Hk).
  - rewrite lookup_insert_ne by done. rewrite (HL i q ix). destruct (decide (q = p)) as [->|].
    + rewrite lookup_insert_eq. split.
      * intros (l' & Hl' & Hk). assert (l' = l) as -> by congruence. exists (l ++ [n]). split; [done|].
        by apply lookup_app_l_Some.
      * intros (l' & [= <-] & Hk). exists l. split; [done|].
        apply lookup_app_Some in Hk as [Hk|[Hge Hk]]; [done|].
        destruct (ix - length l)%nat eqn:E; cbn in Hk; [congruence|done].
    + by rewrite lookup_insert_ne.
Qed.

Lemma linked_remove T own p l i ix :
  linked T own -> own !! i = Some (p, ix) -> T !! p = Some l ->
  linked (<[p := remove_fast ix l]> T) (delete i (relink ix (remove_fast ix l) own)).
Proof.
  intros HL Hi Hp. destruct (proj1 (HL i p ix) Hi) as (l0 & Hl0 & Hix). assert (l0 = l) as -> by congruence.
  pose proof (lookup_lt_Some _ _ _ Hix) as Hlen.
  assert (forall a b j, l !! a = Some j -> l !! b = Some j -> a = b) as Hinj
    by (intros a b j; by apply (linked_inj T own p)).
  assert (forall q lq k j, q <> p -> T !! q = Some lq -> lq !! k = Some j -> j <> i) as Hother.
  { intros q lq k j Hq Hlq Hk ->. assert (own !! i = Some (q, k)) by (apply HL; eauto). congruence. }
  unfold relink. rewrite (remove_fast_lookup ix l ix) by done. intros j q k.
  destruct (decide (j = i)) as [->|Hji].
  - rewrite lookup_delete_eq. split; [done|]. intros (l' & Hl' & Hk). exfalso.
    destruct (decide (q = p)) as [->|].
    + rewrite lookup_insert_eq in Hl'. injection Hl' as <-. rewrite remove_fast_lookup in Hk by done.
      destruct (Nat.ltb_spec k (length l - 1)) as [Hlt|]; [|done]. case_decide as E.
      * pose proof (Hinj _ _ _ Hk Hix). lia.
      * by pose proof (Hinj _ _ _ Hk Hix).
    + rewrite lookup_insert_ne in Hl' by done. by destruct (Hother _ _ _ _ ltac:(done) Hl' Hk).
  - rewrite lookup_delete_ne by done.
    assert ((match (if (ix <? length l - 1)%nat then if decide (ix = ix) then l !! (length l - 1)%nat else l !! ix else None)
             with Some j => alter (fun e : Z * nat => (e.1, ix)) j own | None => own end) !! j
            = if decide ((ix < length l - 1)%nat /\ l !! (length l - 1)%nat = Some j)
              then Some (p, ix) else own !! j) as ->.
    { rewrite decide_True by done. destruct (Nat.ltb_spec ix (length l - 1)) as [Hlt|Hge].
      - destruct (lookup_lt_is_Some_2 l (length l - 1)) as [m Hm]; [lia|]. rewrite Hm.
        destruct (decide (j = m)) as [->|Hjm].
        + rewrite decide_True by done. rewrite lookup_alter_eq.
          assert (own !! m = Some (p, (length l - 1)%nat)) as -> by (apply HL; eauto). done.
        + rewrite decide_False by (intros [_ ?]; congruence). by rewrite lookup_alter_ne by done.
      - rewrite decide_False by lia. done. }
    destruct (decide (q = p)) as [->|Hqp].
    2:{ rewrite lookup_insert_ne by done. case_decide as E; [|apply HL]. destruct E as [Hlt Hm].
        split; [intros [= <- <-]; done|]. intros (lq & Hlq & Hk).
        assert (own !! j = Some (q, k)) by (apply HL; eauto).
        assert (own !! j = Some (p, (length l - 1)%nat)) by (apply HL; eauto). congruence. }
    rewrite lookup_insert_eq. case_decide as E.
    + destruct E as [Hlt Hm]. split.
      * intros [= <-]. exists (remove_fast ix l). split; [done|]. rewrite remove_fast_lookup by done.
        rewrite (proj2 (Nat.ltb_lt _ _)) by done. by rewrite decide_True.
      * intros (l' & [= <-] & Hk). rewrite remove_fast_lookup in Hk by done.
        destruct (Nat.ltb_spec k (length l - 1)); [|done]. case_decide as Ek; [by subst|].
        pose proof (Hinj _ _ _ Hk Hm). lia.
    + rewrite (HL j p k). split.
      * intros (l' & Hl' & Hk). assert (l' = l) as -> by congruence. exists (remove_fast ix l). split; [done|].
        rewrite remove_fast_lookup by done. pose proof (lookup_lt_Some _ _ _ Hk).
        assert (k <> ix) by (intros ->; congruence).
        destruct (Nat.ltb_spec k (length l - 1)); [by rewrite decide_False|].
        assert (k = (length l - 1)%nat) as -> by lia. exfalso. apply E. split; [lia|done].
      * intros (l' & [= <-] & Hk). exists l. split; [done|]. rewrite remove_fast_lookup in Hk by done.
        destruct (Nat.ltb_spec k (length l - 1)); [|done]. case_decide as Ek; [|done]. subst k.
        exfalso. by apply E.
Qed.

Lemma linked_new T own p : linked T own -> T !! p = None -> linked (<[p := []]> T) own.
Proof.
  intros HL Hp i q ix. rewrite (HL i q ix). destruct (decide (q = p)) as [->|].
  - rewrite lookup_insert_eq. split; [intros (l & Hl & _); congruence|]. by intros (l & [= <-] & ?).
  - by rewrite lookup_insert_ne.
Qed.

Lemma linked_drop T own p : linked T own -> T !! p = Some [] -> linked (delete p T) own.
Proof.
  intros HL Hp i q ix. rewrite (HL i q ix). destruct (decide (q = p)) as [->|].
  - rewrite lookup_delete_eq. split; [|by intros (l & ? & _)].
    intros (l & Hl & Hk). rewrite Hp in Hl. by injection Hl as <-.
  - by rewrite lookup_delete_ne.
Qed.

(** ** The invariant *)

Section views.
Context {A : Type}.

Definition owners (w : io A) : gmap Z (Z * nat) := (fun f => (owner f, client_ix f)) <$> fds w.
Definition places (w : io A) : gmap Z (Z * nat) := (fun f => (file f, file_ix f)) <$> fds w.
Definition client_tab (w : io A) : gmap Z (list Z) := c_handles <$> clients w.
Definition file_tab (w : io A) : gmap Z (list Z) := f_handles <$> files w.

(** Every live descriptor is where it says in its client's and in its file's array,
    and every element of those arrays is a live descriptor that says so. *)
Definition links (w : io A) : Prop :=
  linked (client_tab w) (owners w) /\ linked (file_tab w) (places w).

Lemma owners_Some w i p ix :
  owners w !! i = Some (p, ix) <-> exists f, fds w !! i = Some f /\ owner f = p /\ client_ix f = ix.
Proof. unfold owners. rewrite lookup_fmap_Some. naive_solver. Qed.
Lemma places_Some w i p ix :
  places w !! i = Some (p, ix) <-> exists f, fds w !! i = Some f /\ file f = p /\ file_ix f = ix.
Proof. unfold places. rewrite lookup_fmap_Some. naive_solver. Qed.

Lemma links_client w i f :
  links w -> fds w !! i = Some f ->
  exists c, clients w !! owner f = Some c /\ c_handles c !! client_ix f = Some i.
Proof.
  intros [HL _] Hf. destruct (proj1 (HL i (owner f) (client_ix f))) as (l & Hl & Hk).
  { apply owners_Some. eauto. }
  apply lookup_fmap_Some in Hl as (c & <- & Hc). eauto.
Qed.
Lemma links_file w i f :
  links w -> fds w !! i = Some f ->
  exists x, files w !! file f = Some x /\ f_handles x !! file_ix f = Some i.
Proof.
  intros [_ HL] Hf. destruct (proj1 (HL i (file f) (file_ix f))) as (l & Hl & Hk).
  { apply places_Some. eauto. }
  apply lookup_fmap_Some in Hl as (x & <- & Hx). eauto.
Qed.

(** The parts of the state the invariant is about. *)
Definition same_links (w w' : io A) : Prop :=
  owners w' = owners w /\ places w' = places w
  /\ client_tab w' = client_tab w /\ file_tab w' = file_tab w.

Lemma links_same w w' : same_links w w' -> links w -> links w'.
Proof. unfold links. by intros (-> & -> & -> & ->). Qed.

(** Updates of other fields of a descriptor, a client or a file. *)
Lemma same_links_fd g i w :
  (forall f, owner (g f) = owner f /\ client_ix (g f) = client_ix f
             /\ file (g f) = file f /\ file_ix (g f) = file_ix f) ->
  same_links w (set_fds (alter g i (fds w)) w).
Proof.
  intros Hg. split_and!; try done; apply map_eq; intros j; unfold owners, places; rewrite !lookup_fmap; cbn;
    (destruct (decide (j = i)) as [->|]; [rewrite lookup_alter_eq|by rewrite lookup_alter_ne]);
    destruct (fds w !! i) as [f|]; [|done| |done]; destruct (Hg f) as (E1 & E2 & E3 & E4); cbn; congruence.
Qed.
Lemma same_links_client g i w :
  (forall c, c_handles (g c) = c_handles c) -> same_links w (set_clients (alter g i (clients w)) w).
Proof.
  intros Hg. split_and!; try done. apply map_eq; intros j; unfold client_tab; rewrite !lookup_fmap; cbn.
  destruct (decide (j = i)) as [->|]; [rewrite lookup_alter_eq|by rewrite lookup_alter_ne].
  destruct (clients w !! i) as [c|]; [|done]. cbn. by rewrite Hg.
Qed.
Lemma same_links_file g i w :
  (forall x, f_handles (g x) = f_handles x) -> same_links w (set_files (alter g i (files w)) w).
Proof.
  intros Hg. split_and!; try done. apply map_eq; intros j; unfold file_tab; rewrite !lookup_fmap; cbn.
  destruct (decide (j = i)) as [->|]; [rewrite lookup_alter_eq|by rewrite lookup_alter_ne].
  destruct (files w !! i) as [c|]; [|done]. cbn. by rewrite Hg.
Qed.

Lemma client_tab_upd p l w c :
  clients w !! p = Some c ->
  client_tab (set_clients (alter (set_c_handles l) p (clients w)) w) = <[p := l]> (client_tab w).
Proof.
  intros Hc. apply map_eq. intros q. unfold client_tab. cbn. destruct (decide (q = p)) as [->|].
  - by rewrite lookup_fmap, lookup_alter_eq, lookup_insert_eq, Hc.
  - by rewrite lookup_fmap, lookup_alter_ne, lookup_insert_ne, lookup_fmap by done.
Qed.
Lemma client_tab_push p n w c :
  clients w !! p = Some c ->
  client_tab (set_clients (alter (fun c => set_c_handles (c_handles c ++ [n]) c) p (clients w)) w)
  = <[p := c_handles c ++ [n]]> (client_tab w).
Proof.
  intros Hc. rewrite <- (client_tab_upd _ _ _ c Hc). unfold client_tab. cbn. f_equal.
  apply map_eq. intros q. destruct (decide (q = p)) as [->|].
  - by rewrite !lookup_alter_eq, Hc.
  - by rewrite !lookup_alter_ne.
Qed.
Lemma file_tab_upd p l w x :
  files w !! p = Some x ->
  file_tab (set_files (alter (set_f_handles l) p (files w)) w) = <[p := l]> (file_tab w).
Proof.
  intros Hc. apply map_eq. intros q. unfold file_tab. cbn. destruct (decide (q = p)) as [->|].
  - by rewrite lookup_fmap, lookup_alter_eq, lookup_insert_eq, Hc.
  - by rewrite lookup_fmap, lookup_alter_ne, lookup_insert_ne, lookup_fmap by done.
Qed.
Lemma file_tab_push p n w x :
  files w !! p = Some x ->
  file_tab (set_files (alter (fun x => set_f_handles (f_handles x ++ [n]) x) p (files w)) w)
  = <[p := f_handles x ++ [n]]> (file_tab w).
Proof.
  intros Hc. rewrite <- (file_tab_upd _ _ _ x Hc). unfold file_tab. cbn. f_equal.
  apply map_eq. intros q. destruct (decide (q = p)) as [->|].
  - by rewrite !lookup_alter_eq, Hc.
  - by rewrite !lookup_alter_ne.
Qed.

(** What a callback leaves alone: it may use the calls of sys/io/pollimpl.c and have
    replies sent, but neither adds nor removes clients, files or descriptors, nor
    touches the lifecycle queue. *)
Definition cb_frame (w w' : io A) : Prop :=
  same_links w w' /\ lce_queue w' = lce_queue w /\ lce_ctrl w' = lce_ctrl w.
Class IoEnvOk `{!IoEnv A} : Prop := {
  cb_read_ok f n o w r w' : cb_read f n o w = Ret r w' -> cb_frame w w';
  cb_write_ok f b o w r w' : cb_write f b o w = Ret r w' -> cb_frame w w';
  cb_close_ok f w r w' : cb_close f w = Ret r w' -> cb_frame w w';
  cb_confirm_ok fn f n o b w r w' : cb_confirm = Some fn -> fn f n o b w = Ret r w' -> cb_frame w w';
  cb_lifecycle_ok p t w r w' : cb_lifecycle p t w = Ret r w' -> cb_frame w w'
}.
(** A rollback handler may use the calls that io.h lets it use. *)
Class IoServerOk `{!IoServer A} : Prop := { cb_rollback_ok l : preserves links (cb_rollback l) }.
End views.
Arguments IoEnvOk A {IoEnv0}.
Arguments IoServerOk A {IoServer0}.

Section props.
Context {A : Type} `{!L4Abi, !IoBase, !IoEnv A, !IoEnvOk A, !IoServer A, !IoServerOk A}.
Implicit Type w : io A.

(** *** Taking a descriptor out *)

(** What unlinking from the client's array does; the descriptor itself stays. *)
Lemma unlink_client_run w i f c :
  fds w !! i = Some f -> clients w !! owner f = Some c -> (client_ix f < length (c_handles c))%nat ->
  let l := remove_fast (client_ix f) (c_handles c) in
  exists w', unlink_client i w = Ret tt w'
  /\ owners w' = relink (client_ix f) l (owners w) /\ places w' = places w
  /\ client_tab w' = <[owner f := l]> (client_tab w) /\ file_tab w' = file_tab w
  /\ (exists f', fds w' !! i = Some f' /\ file f' = file f /\ file_ix f' = file_ix f
       /\ flags f' = flags f)
  /\ files w' = files w /\ transfers w' = transfers w
  /\ dom (fds w') = dom (fds w) /\ dom (clients w') = dom (clients w).
Proof.
  intros Hf Hc Hlen l. unfold unlink_client, fd_at, client_at, client_upd, fd_upd.
  mstep. rewrite Hf. mstep. rewrite Hc. mstep. rewrite (proj2 (Nat.ltb_lt _ _) Hlen). mstep.
  fold l. destruct (l !! client_ix f) as [j|] eqn:Hj.
  - eexists. split; [done|]. cbn. split_and!; try done.
    + apply map_eq. intros q. unfold owners, relink. cbn. rewrite Hj, !lookup_fmap.
      destruct (decide (q = j)) as [->|].
      * rewrite !lookup_alter_eq, lookup_fmap. by destruct (fds w !! j).
      * by rewrite !lookup_alter_ne, lookup_fmap by done.
    + apply map_eq. intros q. unfold places. cbn. rewrite !lookup_fmap. destruct (decide (q = j)) as [->|].
      * rewrite lookup_alter_eq. by destruct (fds w !! j).
      * by rewrite lookup_alter_ne.
    + by apply (client_tab_upd _ _ _ c).
    + destruct (decide (i = j)) as [<-|].
      * rewrite lookup_alter_eq, Hf. eexists. split; [done|]. done.
      * rewrite lookup_alter_ne, Hf by done. eauto.
    + by rewrite dom_alter_L.
    + by rewrite dom_alter_L.
  - eexists. split; [done|]. cbn. split_and!; try done.
    + unfold relink. by rewrite Hj.
    + by apply (client_tab_upd _ _ _ c).
    + eauto.
    + by rewrite dom_alter_L.
Qed.

Lemma unlink_file_run w i f x :
  fds w !! i = Some f -> files w !! file f = Some x -> (file_ix f < length (f_handles x))%nat ->
  let l := remove_fast (file_ix f) (f_handles x) in
  exists w', unlink_file i w = Ret tt w'
  /\ owners w' = owners w /\ places w' = relink (file_ix f) l (places w)
  /\ client_tab w' = client_tab w /\ file_tab w' = <[file f := l]> (file_tab w)
  /\ files w' !! file f = Some (set_f_handles l x) /\ transfers w' = transfers w
  /\ dom (fds w') = dom (fds w) /\ dom (clients w') = dom (clients w).
Proof.
  intros Hf Hx Hlen l. unfold unlink_file, fd_at, file_at, file_upd, fd_upd.
  mstep. rewrite Hf. mstep. rewrite Hx. mstep. rewrite (proj2 (Nat.ltb_lt _ _) Hlen). mstep.
  fold l. destruct (l !! file_ix f) as [j|] eqn:Hj.
  - eexists. split; [done|]. cbn. split_and!; try done.
    + apply map_eq. intros q. unfold owners. cbn. rewrite !lookup_fmap. destruct (decide (q = j)) as [->|].
      * rewrite lookup_alter_eq. by destruct (fds w !! j).
      * by rewrite lookup_alter_ne.
    + apply map_eq. intros q. unfold places, relink. cbn. rewrite Hj, !lookup_fmap.
      destruct (decide (q = j)) as [->|].
      * rewrite !lookup_alter_eq, lookup_fmap. by destruct (fds w !! j).
      * by rewrite !lookup_alter_ne, lookup_fmap by done.
    + by apply (file_tab_upd _ _ _ x).
    + by rewrite lookup_alter_eq, Hx.
    + by rewrite dom_alter_L.
  - eexists. split; [done|]. cbn. split_and!; try done.
    + unfold relink. by rewrite Hj.
    + by apply (file_tab_upd _ _ _ x).
    + by rewrite lookup_alter_eq, Hx.
Qed.

Lemma owners_delete i w : owners (set_fds (delete i (fds w)) w) = delete i (owners w).
Proof. unfold owners. cbn. by rewrite fmap_delete. Qed.
Lemma places_delete i w : places (set_fds (delete i (fds w)) w) = delete i (places w).
Proof. unfold places. cbn. by rewrite fmap_delete. Qed.

Lemma same_links_dom w w' : same_links w w' -> dom (fds w') = dom (fds w) /\ dom (clients w') = dom (clients w).
Proof.
  intros (HO & _ & HC & _). unfold owners, client_tab in *. split.
  - apply (f_equal dom) in HO. by rewrite !dom_fmap_L in HO.
  - apply (f_equal dom) in HC. by rewrite !dom_fmap_L in HC.
Qed.

(** The end of fd_dtor(): the file goes when it was the last handle. *)
Definition fd_dtor_tail (i : Z) (f : fd) (b : bool) : M (io A) Z :=
  x ← file_at (file f);
  n ← (if bool_decide (f_handles x = []) && b then
         n ← cb_close (file f);
         _ ← file_dtor (file f);
         mret n
       else mret 0);
  _ ← when_ (negb (Z.land (flags f) IOD_TRANSFER =? 0))
        (modify (fun w => set_transfers (filter (fun t => t.1 <> i) (transfers w)) w));
  _ ← modify (fun w => set_fds (delete i (fds w)) w);
  mret n.

(** It returns, unless the close callback stops the server. *)
Lemma fd_dtor_end i f x b w :
  files w !! file f = Some x ->
  linked (client_tab w) (delete i (owners w)) -> linked (file_tab w) (delete i (places w)) ->
  (exists n w', fd_dtor_tail i f b w = Ret n w'
    /\ links w' /\ dom (fds w') = dom (fds w) ∖ {[i]} /\ client_tab w' = client_tab w)
  \/ (exists r, cb_close (file f) w = Stop r /\ fd_dtor_tail i f b w = Stop r).
Proof.
  intros Hx HC HF. unfold fd_dtor_tail, file_at. mstep. rewrite Hx. mstep.
  destruct (bool_decide (f_handles x = []) && b) eqn:Hb.
  - apply andb_true_iff in Hb as [Hb%bool_decide_eq_true _].
    destruct (cb_close (file f) w) as [n w1|r] eqn:Ecb.
    2:{ right. exists r. split; [done|]. unfold mbind at 1, M_bind at 1. unfold mbind at 1, M_bind at 1.
        by rewrite Ecb. }
    left. destruct (cb_close_ok _ _ _ _ Ecb) as [HS _]. destruct (same_links_dom _ _ HS) as [D _].
    destruct HS as (EO & EP & EC & EF).
    assert (exists x1, files w1 !! file f = Some x1 /\ f_handles x1 = []) as (x1 & Hx1 & Hh1).
    { assert (file_tab w !! file f = Some []) as Hl by (unfold file_tab; by rewrite lookup_fmap, Hx; cbn; rewrite Hb).
      rewrite <- EF in Hl. unfold file_tab in Hl. by apply lookup_fmap_Some in Hl as (x1 & ? & ?); eauto. }
    mstep. rewrite (bind_ret _ _ _ _ _ Ecb). unfold file_dtor, file_at.
    mstep. rewrite Hx1. mstep. rewrite bool_decide_eq_true_2 by done. mstep.
    destruct (negb _); cbn [when_]; mstep; exists n; eexists; (split; [done|]);
      (split; [|split; [cbn; by rewrite dom_delete_L, D|exact EC]]); split.
    all: try (rewrite owners_delete; unfold client_tab, owners in *; cbn; rewrite EC, EO; exact HC).
    all: rewrite places_delete; unfold file_tab, places in *; cbn; rewrite fmap_delete, EF, EP;
      apply linked_drop; [exact HF|]; by rewrite lookup_fmap, Hx; cbn; rewrite Hb.
  - left. mstep. destruct (negb _); cbn [when_]; mstep; exists 0; eexists; (split; [done|]);
      (split; [|split; [cbn; by rewrite dom_delete_L|done]]); split.
    all: try (rewrite owners_delete; exact HC); rewrite places_delete; exact HF.
Qed.

Lemma file_at_run w f x : files w !! f = Some x -> file_at f w = Ret x w.
Proof. intros Hx. unfold file_at. mstep. by rewrite Hx. Qed.

Lemma fd_dtor_outcome w i f b :
  links w -> fds w !! i = Some f ->
  (exists n w', fd_dtor i b w = Ret n w' /\ links w'
    /\ dom (fds w') = dom (fds w) ∖ {[i]}
    /\ client_tab w' = alter (remove_fast (client_ix f)) (owner f) (client_tab w))
  \/ (exists r w1, cb_close (file f) w1 = Stop r /\ fd_dtor i b w = Stop r).
Proof.
  intros HL Hf. destruct (links_client w i f HL Hf) as (c & Hc & Hci).
  destruct (links_file w i f HL Hf) as (x & Hx & Hxi).
  destruct (unlink_client_run w i f c Hf Hc (lookup_lt_Some _ _ _ Hci))
    as (w1 & E1 & O1 & P1 & C1 & F1 & (f1 & Hf1 & Ef1 & Ei1 & _) & Efl1 & _ & D1 & DC1).
  assert (files w1 !! file f1 = Some x) as Hx1 by (by rewrite Efl1, Ef1).
  destruct (unlink_file_run w1 i f1 x Hf1 Hx1) as (w2 & E2 & O2 & P2 & C2 & F2 & Hx2 & _ & D2 & DC2).
  { rewrite Ei1. exact (lookup_lt_Some _ _ _ Hxi). }
  assert (fd_dtor i b w = fd_dtor_tail i f b w2) as ->.
  { unfold fd_dtor, fd_at, client_at. mstep. rewrite Hf. mstep. rewrite Hc. mstep.
    rewrite bool_decide_eq_true_2 by done. mstep. rewrite (bind_ret _ _ _ _ _ E1).
    assert (files w1 !! file f = Some x) as Hx1' by (by rewrite <- Ef1).
    rewrite (bind_ret _ _ _ _ _ (file_at_run w1 _ x Hx1')).
    rewrite bool_decide_eq_true_2 by done. mstep. by rewrite (bind_ret _ _ _ _ _ E2). }
  destruct HL as [HC HF].
  destruct (fd_dtor_end i f (set_f_handles (remove_fast (file_ix f1) (f_handles x)) x) b w2)
    as [(n & w' & E & HL' & D & DC)|(r & Er & E)].
  - by rewrite Ef1 in Hx2.
  - rewrite C2, C1, O2, O1. apply linked_remove; [done|apply owners_Some; eauto|].
    unfold client_tab. by rewrite lookup_fmap, Hc.
  - rewrite F2, F1, P2, P1, Ef1, Ei1. apply linked_remove; [done|apply places_Some; eauto|].
    unfold file_tab. by rewrite lookup_fmap, Hx.
  - left. exists n, w'. split; [exact E|]. split; [done|]. split; [by rewrite D, D2, D1|].
    rewrite DC, C2, C1. apply map_eq. intros q. destruct (decide (q = owner f)) as [->|].
    + rewrite lookup_insert_eq, lookup_alter_eq. unfold client_tab. by rewrite lookup_fmap, Hc.
    + by rewrite lookup_insert_ne, lookup_alter_ne.
  - right. eauto.
Qed.

(** With a server whose close callback never stops it. *)
Lemma fd_dtor_run w i f b :
  (forall x w, exists n w', cb_close x w = Ret n w') -> links w -> fds w !! i = Some f ->
  exists n w', fd_dtor i b w = Ret n w' /\ links w'
  /\ dom (fds w') = dom (fds w) ∖ {[i]}
  /\ client_tab w' = alter (remove_fast (client_ix f)) (owner f) (client_tab w).
Proof.
  intros Hcl HL Hf. destruct (fd_dtor_outcome w i f b HL Hf) as [|(r & w1 & Er & _)]; [done|].
  destruct (Hcl (file f) w1) as (n & w2 & E). congruence.
Qed.

Lemma fd_dtor_links i b : preserves (links (A := A)) (fd_dtor i b).
Proof.
  intros w n w' HL E. destruct (fds w !! i) as [f|] eqn:Hf.
  - destruct (fd_dtor_outcome w i f b HL Hf) as [(n0 & w0 & E0 & HL0 & _)|(r & w1 & _ & E0)]; congruence.
  - unfold fd_dtor, fd_at in E. mstep_in E. rewrite Hf in E. discriminate E.
Qed.

(** *** Leaves *)

Lemma fd_at_inv i f w w' : fd_at (A := A) i w = Ret f w' -> w' = w /\ fds w !! i = Some f.
Proof. unfold fd_at. mstep. destruct (fds w !! i); [by intros [= <- <-]|done]. Qed.
Lemma file_at_inv i f w w' : file_at (A := A) i w = Ret f w' -> w' = w /\ files w !! i = Some f.
Proof. unfold file_at. mstep. destruct (files w !! i); [by intros [= <- <-]|done]. Qed.
Lemma client_at_inv i f w w' : client_at (A := A) i w = Ret f w' -> w' = w /\ clients w !! i = Some f.
Proof. unfold client_at. mstep. destruct (clients w !! i); [by intros [= <- <-]|done]. Qed.

Lemma preserves_same (m : M (io A) unit) :
  (forall w w', m w = Ret tt w' -> same_links w w') -> preserves links m.
Proof. intros Hs w [] w' HL E. exact (links_same _ _ (Hs _ _ E) HL). Qed.
Lemma links_modify f : (forall w, same_links w (f w)) -> preserves (links (A := A)) (modify (S := io A) f).
Proof. intros Hs. apply preserves_modify. intros w. apply links_same, Hs. Qed.
Lemma links_ask c : preserves (links (A := A)) (io_ask (A := A) c).
Proof. intros w n w' HL [= _ <-]. exact HL. Qed.
Lemma links_fd_at i : preserves (links (A := A)) (fd_at (A := A) i).
Proof. unfold fd_at. eauto with preserves. Qed.
Lemma links_file_at i : preserves (links (A := A)) (file_at (A := A) i).
Proof. unfold file_at. eauto with preserves. Qed.
Lemma links_client_at i : preserves (links (A := A)) (client_at (A := A) i).
Proof. unfold client_at. eauto with preserves. Qed.
Lemma links_client_upd g p : (forall c, c_handles (g c) = c_handles c) ->
  preserves (links (A := A)) (client_upd (A := A) p g).
Proof. intros Hg. apply links_modify. intros w. by apply same_links_client. Qed.
Lemma links_file_upd g p : (forall c, f_handles (g c) = f_handles c) ->
  preserves (links (A := A)) (file_upd (A := A) p g).
Proof. intros Hg. apply links_modify. intros w. by apply same_links_file. Qed.
Lemma links_fd_flags g i : preserves (links (A := A)) (fd_upd (A := A) i (fun f => set_fd_flags (g f) f)).
Proof. apply links_modify. intros w. by apply same_links_fd. Qed.
Lemma links_transfers (g : io A -> list (Z * Z)) :
  preserves (links (A := A)) (modify (fun w => set_transfers (g w) w)).
Proof. by apply links_modify. Qed.
Lemma frame_links {B} (m : M (io A) B) :
  (forall w r w', m w = Ret r w' -> cb_frame w w') -> preserves links m.
Proof. intros Hm w r w' HL E. destruct (Hm _ _ _ E) as [HS _]. exact (links_same _ _ HS HL). Qed.
Lemma links_read f n o : preserves (links (A := A)) (cb_read (A := A) f n o).
Proof. apply frame_links. apply cb_read_ok. Qed.
Lemma links_write f b o : preserves (links (A := A)) (cb_write (A := A) f b o).
Proof. apply frame_links. apply cb_write_ok. Qed.
Lemma links_lifecycle p t : preserves (links (A := A)) (cb_lifecycle (A := A) p t).
Proof. apply frame_links. apply cb_lifecycle_ok. Qed.
Lemma links_confirm fn f n o b : cb_confirm (A := A) = Some fn -> preserves (links (A := A)) (fn f n o b).
Proof. intros E. apply frame_links. intros w r w'. exact (cb_confirm_ok _ _ _ _ _ _ _ _ E). Qed.
Lemma links_lce q c : preserves (links (A := A)) (modify (set_lce (A := A) q c)).
Proof. by apply links_modify. Qed.
Lemma links_lce_ctrl c : preserves (links (A := A)) (modify (fun w : io A => set_lce (lce_queue w) c w)).
Proof. by apply links_modify. Qed.
Lemma links_no_reply b : preserves (links (A := A)) (modify (set_io_no_reply (A := A) b)).
Proof. by apply links_modify. Qed.
Lemma links_listening b : preserves (links (A := A)) (modify (set_listening (A := A) b)).
Proof. by apply links_modify. Qed.
Lemma links_rb c : preserves (links (A := A)) (modify (set_io_rb (A := A) c)).
Proof. by apply links_modify. Qed.
Lemma links_mapM {B} (g : B -> M (io A) unit) l :
  (forall x, preserves (links (A := A)) (g x)) -> preserves links (mapM_ g l).
Proof. intros Hg. induction l; cbn; eauto with preserves. Qed.
Hint Resolve fd_dtor_links links_ask links_fd_at links_file_at links_client_at links_client_upd
  links_file_upd links_fd_flags links_read links_write links_lifecycle links_confirm links_transfers links_lce links_lce_ctrl
  links_no_reply links_listening links_rb links_mapM : preserves.

Ltac pres := repeat first
  [ solve [trivial with preserves]
  | apply preserves_bind; [solve [eauto 3 with preserves]|intros ?]
  | apply links_mapM; intros ?
  | apply preserves_if
  | case_match
  | solve [eauto 4 with preserves]
  | apply preserves_bind; [|intros ?] ].

(** *** Putting a descriptor in *)

Lemma alloc_fd_loop_spec n c l w r w' :
  alloc_fd_loop n c l w = Ret r w' ->
  same_links w w' /\ fds w' = fds w /\ clients w' = clients w /\ files w' = files w
  /\ (forall i, r = Some i -> fds w !! i = None /\ 0 < i <= MAX_FD).
Proof.
  revert l w. induction n as [|n IH]; intros l w E; cbn [alloc_fd_loop] in E;
    apply bind_ret_inv in E as (i & w1 & [= <- <-] & E); mstep_in E; cbn [fds add_iocall] in E;
    (destruct ((_ <=? 0) || _ || _ || _) eqn:Hb; [by injection E as <- <-|]);
    apply orb_false_iff in Hb as [[[Hb1 Hb2]%orb_false_iff Hb3]%orb_false_iff _];
    apply bool_decide_eq_false in Hb3; apply eq_None_not_Some in Hb3.
  - destruct (0 <? table_at c _); [done|]. injection E as <- <-.
    split_and!; try done. intros i [= <-]. split; [done|lia].
  - destruct (0 <? table_at c _).
    + apply IH in E as (H1 & H2 & H3 & H4 & H5). split_and!; done.
    + injection E as <- <-. split_and!; try done. intros i [= <-]. split; [done|lia].
Qed.
Lemma alloc_fd_links c : preserves (links (A := A)) (alloc_fd c).
Proof. intros w r w' HL E. apply alloc_fd_loop_spec in E as [Hs _]. exact (links_same _ _ Hs HL). Qed.

Lemma link_fd_run w n f c x :
  links w -> fds w !! n = None -> clients w !! owner f = Some c -> files w !! file f = Some x ->
  client_ix f = length (c_handles c) -> file_ix f = length (f_handles x) ->
  exists w', link_fd n f w = Ret tt w' /\ links w'
  /\ fds w' = <[n := f]> (fds w)
  /\ client_tab w' = <[owner f := c_handles c ++ [n]]> (client_tab w)
  /\ file_tab w' = <[file f := f_handles x ++ [n]]> (file_tab w).
Proof.
  intros [HC HF] Hn Hc Hx Hic Hix. unfold link_fd, client_upd, file_upd. mstep. eexists. split; [done|].
  pose proof (client_tab_push (owner f) n w c Hc) as EC.
  pose proof (file_tab_push (file f) n w x Hx) as EF.
  unfold client_tab, file_tab in *. cbn in EC, EF |- *. split; [|done].
  unfold links, client_tab, file_tab, owners, places. cbn. rewrite EC, EF, !fmap_insert, Hic, Hix. split.
  - apply linked_push; [done|by rewrite lookup_fmap, Hc|]. unfold owners. by rewrite lookup_fmap, Hn.
  - apply linked_push; [done|by rewrite lookup_fmap, Hx|]. unfold places. by rewrite lookup_fmap, Hn.
Qed.


Hint Resolve alloc_fd_links : preserves.

(** A program that only depends on the state up to the trace. *)
Lemma links_link_fd w n f c x w' :
  links w -> fds w !! n = None -> clients w !! owner f = Some c -> files w !! file f = Some x ->
  client_ix f = length (c_handles c) -> file_ix f = length (f_handles x) ->
  link_fd n f w = Ret tt w' -> links w'.
Proof.
  intros HL Hn Hc Hx Hic Hix E. destruct (link_fd_run w n f c x HL Hn Hc Hx Hic Hix) as (w0 & E0 & HL0 & _).
  congruence.
Qed.

Lemma fork_handle_links i p : preserves (links (A := A)) (fork_handle i p).
Proof.
  intros w v w' HL E. unfold fork_handle in E.
  apply bind_ret_inv in E as (c & w0 & [-> Hc]%client_at_inv & E).
  apply bind_ret_inv in E as (r & w1 & E1 & E). pose proof (alloc_fd_links _ _ _ _ HL E1) as HL1.
  apply alloc_fd_loop_spec in E1 as (_ & Efd & Ecl & Efl & Hr). destruct r as [n|]; [|by injection E as _ <-].
  destruct (Hr n eq_refl) as [Hn _].
  apply bind_ret_inv in E as (f & w2 & [-> Hf]%fd_at_inv & E).
  apply bind_ret_inv in E as (x & w2 & [-> Hx]%file_at_inv & E).
  apply bind_ret_inv in E as ([] & w2 & E2 & [= _ <-]).
  refine (links_link_fd w1 n _ c x w2 HL1 _ _ _ _ _ E2); cbn; try done; congruence.
Qed.
Hint Resolve fork_handle_links : preserves.

Lemma fork_into_links i p ix : preserves (links (A := A)) (fork_into i p ix).
Proof. unfold fork_into. pres. Qed.
Hint Resolve fork_into_links : preserves.

Lemma new_client_links p c :
  c_handles c = [] ->
  forall w, links w -> clients w !! p = None -> links (set_clients (<[p := c]> (clients w)) w).
Proof.
  intros Hh w [HC HF] Hp. split; [|done]. unfold client_tab, owners in *. cbn.
  rewrite fmap_insert, Hh. apply linked_new; [done|]. by rewrite lookup_fmap, Hp.
Qed.

Lemma fork_client_links p q : preserves (links (A := A)) (fork_client p q).
Proof.
  intros w v w' HL E. unfold fork_client in E. mstep_in E.
  destruct (clients w !! q) eqn:Hq; [by injection E as _ <-|].
  apply bind_ret_inv in E as (c & w0 & [-> Hc]%client_at_inv & E).
  apply bind_ret_inv in E as (m & w1 & [= <- <-] & E).
  destruct (_ =? 0); [done|].
  apply bind_ret_inv in E as (m & w1 & [= <- <-] & E).
  destruct (_ =? 0); [by injection E as _ <-|]. rewrite bind_modify in E. revert E.
  match goal with |- ?m ?w1 = _ -> _ => assert (preserves links m) as Hm; [|assert (links w1) as H1] end.
  { pres. }
  { by apply new_client_links. }
  intros E. exact (Hm _ _ _ H1 E).
Qed.

Lemma late_close_fd_links i : preserves (links (A := A)) (late_close_fd i).
Proof. unfold late_close_fd. pres. Qed.
Hint Resolve fork_client_links late_close_fd_links : preserves.

Lemma get_fd_nosync_links p i : preserves (links (A := A)) (get_fd_nosync (A := A) p i).
Proof. unfold get_fd_nosync. pres. Qed.
Hint Resolve get_fd_nosync_links : preserves.
Lemma io_confirm_links p i n o b : preserves (links (A := A)) (io_confirm p i n o b).
Proof. unfold io_confirm. pres. Qed.
Hint Resolve io_confirm_links : preserves.

Lemma run_handler_links h : preserves (links (A := A)) (run_handler (S := io A) h).
Proof. destruct h; cbn; eauto using cb_rollback_ok with preserves. Qed.
Lemma host_set_links c : preserves (links (A := A)) (modify (host_set_ctx (S := io A) c)).
Proof. apply links_rb. Qed.
Hint Resolve run_handler_links host_set_links preserves_sync_confirm preserves_set_rollback
  preserves_set_confirm preserves_check_rollback : preserves.
Lemma sync_confirm_links : preserves (links (A := A)) (sync_confirm (S := io A)).
Proof. apply preserves_sync_confirm; eauto with preserves. Qed.
Lemma wr_confirm_links p b i n o : preserves (links (A := A)) (wr_confirm p b i n o).
Proof. unfold wr_confirm, sender_pid. pres. Qed.
Lemma fast_confirm_links fl : preserves (links (A := A)) (fast_confirm (A := A) fl).
Proof. unfold fast_confirm, io_set_fast_confirm. pres. Qed.
Hint Resolve sync_confirm_links wr_confirm_links fast_confirm_links : preserves.

(** *** Clients going away *)

Lemma remove_fast_length ix l : (ix < length l)%nat -> length (remove_fast ix l) = (length l - 1)%nat.
Proof.
  intros Hix. unfold remove_fast. rewrite last_lookup.
  destruct (lookup_lt_is_Some_2 l (pred (length l))) as [x ->]; [lia|].
  rewrite length_take, length_insert. lia.
Qed.

(** What an array of descriptors holds is a descriptor of that client. *)
Lemma links_handle w p c k i :
  links w -> clients w !! p = Some c -> c_handles c !! k = Some i ->
  exists f, fds w !! i = Some f /\ owner f = p /\ client_ix f = k.
Proof.
  intros [HC _] Hc Hk. apply owners_Some, HC. exists (c_handles c). split; [|done].
  unfold client_tab. by rewrite lookup_fmap, Hc.
Qed.
Lemma links_file_handle w p c k i :
  links w -> files w !! p = Some c -> f_handles c !! k = Some i ->
  exists f, fds w !! i = Some f /\ file f = p /\ file_ix f = k.
Proof.
  intros [_ HC] Hc Hk. apply places_Some, HC. exists (f_handles c). split; [|done].
  unfold file_tab. by rewrite lookup_fmap, Hc.
Qed.

Lemma client_tab_Some w p l :
  client_tab w !! p = Some l <-> exists c, clients w !! p = Some c /\ c_handles c = l.
Proof. unfold client_tab. rewrite lookup_fmap_Some. naive_solver. Qed.
Lemma file_tab_Some w p l :
  file_tab w !! p = Some l <-> exists c, files w !! p = Some c /\ f_handles c = l.
Proof. unfold file_tab. rewrite lookup_fmap_Some. naive_solver. Qed.

(** A close callback that stops the server with [r]. *)
Definition close_stops (r : stop) : Prop := exists x w, cb_close (A := A) x w = Stop r.

Lemma drop_handles_outcome n w p l :
  links w -> client_tab w !! p = Some l -> (length l <= n)%nat ->
  (exists w', drop_handles n p w = Ret tt w' /\ links w'
   /\ client_tab w' = <[p := []]> (client_tab w)
   /\ dom (fds w') = dom (fds w) ∖ list_to_set l)
  \/ (exists r, close_stops r /\ drop_handles n p w = Stop r).
Proof.
  revert w l. induction n as [|n IH]; intros w l HL Hl Hn; pose proof Hl as Hl';
    apply client_tab_Some in Hl' as (c & Hc & Hcl); cbn [drop_handles];
    unfold client_at; mstep; rewrite Hc; cbn [of_option]; mstep; rewrite Hcl.
  - destruct l; [|cbn in Hn; lia]. left. exists w. split_and!; try done; [by rewrite insert_id|set_solver].
  - destruct l as [|i l]; [left; exists w; split_and!; try done; [by rewrite insert_id|set_solver]|].
    destruct (links_handle w p c 0 i HL Hc) as (f & Hf & Ho & Hx); [by rewrite Hcl|].
    destruct (fd_dtor_outcome w i f true HL Hf) as [(v & w1 & E1 & HL1 & D1 & C1)|(r & w1 & Er & E1)].
    2:{ right. exists r. split; [by do 2 eexists|]. unfold mbind at 1, M_bind at 1. by rewrite E1. }
    rewrite (bind_ret _ _ _ _ _ E1). rewrite Ho, Hx in C1.
    assert (client_tab w1 !! p = Some (remove_fast 0 (i :: l))) as Hp1
      by (rewrite C1, lookup_alter_eq, Hl; done).
    assert (list_to_set (i :: l) = {[i]} ∪ list_to_set (remove_fast 0 (i :: l)) :> gset Z) as Hset.
    { unfold remove_fast. destruct (last_is_Some (i :: l)) as [_ [y Hy]]; [done|]. rewrite Hy.
      cbn [length]. replace (S (length l) - 1)%nat with (length l) by lia.
      change (<[0%nat:=y]> (i :: l)) with (y :: l).
      destruct l as [|z l]; [injection Hy as ->; set_solver|].
      assert (last (z :: l) = Some y) as Hy' by exact Hy.
      apply last_Some in Hy' as [l' Hl']. rewrite Hl'.
      assert (take (length (l' ++ [y])) (y :: l' ++ [y]) = y :: l') as ->
        by (rewrite length_app, Nat.add_comm; cbn; f_equal; apply take_app_length).
      rewrite !list_to_set_cons, list_to_set_app_L. set_solver. }
    destruct (IH w1 _ HL1 Hp1) as [(w2 & E2 & HL2 & C2 & D2)|(r & Hr & E2)].
    { rewrite remove_fast_length; cbn in *; lia. }
    2:{ right. eauto. }
    left. exists w2. split; [exact E2|]. split; [done|]. split.
    + rewrite C2, C1. apply map_eq. intros q. destruct (decide (q = p)) as [->|].
      * by rewrite !lookup_insert_eq. * by rewrite !lookup_insert_ne, lookup_alter_ne.
    + rewrite D2, D1, Hset. set_solver.
Qed.

Lemma client_dtor_outcome w p c :
  links w -> clients w !! p = Some c ->
  (exists w', client_dtor p w = Ret tt w' /\ links w'
   /\ client_tab w' = delete p (client_tab w)
   /\ dom (fds w') = dom (fds w) ∖ list_to_set (c_handles c))
  \/ (exists r, close_stops r /\ client_dtor p w = Stop r).
Proof.
  intros HL Hc. unfold client_dtor, client_at. mstep. rewrite Hc. cbn [of_option]. mstep.
  destruct (drop_handles_outcome (length (c_handles c)) w p (c_handles c) HL)
    as [(w1 & E1 & HL1 & C1 & D1)|(r & Hr & E1)].
  { apply client_tab_Some. eauto. } { done. }
  2:{ right. exists r. split; [done|]. unfold mbind, M_bind. by rewrite E1. }
  left. rewrite (bind_ret _ _ _ _ _ E1). mstep. eexists. split; [done|]. cbn.
  unfold links, client_tab in *. cbn. rewrite fmap_delete. destruct HL1 as [HC HF].
  split_and!; [|exact HF| |exact D1].
  - apply linked_drop; [exact HC|]. by rewrite C1, lookup_insert_eq.
  - rewrite C1. by rewrite delete_insert_eq.
Qed.

Lemma client_dtor_links p : preserves (links (A := A)) (client_dtor p).
Proof.
  intros w [] w' HL E. destruct (clients w !! p) as [c|] eqn:Hc.
  - destruct (client_dtor_outcome w p c HL Hc) as [(w1 & E1 & HL1 & _)|(r & _ & E1)]; congruence.
  - unfold client_dtor, client_at in E. mstep_in E. by rewrite Hc in E.
Qed.
Hint Resolve client_dtor_links : preserves.

Lemma exec_loop_links n p i : preserves (links (A := A)) (exec_loop n p i).
Proof. revert i. induction n as [|n IH]; intros i; cbn [exec_loop]; pres. Qed.
Hint Resolve exec_loop_links : preserves.

Lemma lc_apply_links ev : preserves (links (A := A)) (lc_apply ev).
Proof. unfold lc_apply. pres. Qed.
Hint Resolve lc_apply_links : preserves.
Lemma lifecycle_sync_links : preserves (links (A := A)) (lifecycle_sync (A := A)).
Proof. unfold lifecycle_sync. pres. Qed.
Lemma lifecycle_handler_links b : preserves (links (A := A)) (lifecycle_handler_fn (A := A) b).
Proof. unfold lifecycle_handler_fn. pres. Qed.
Hint Resolve lifecycle_sync_links lifecycle_handler_links : preserves.

Lemma get_fd_links p i : preserves (links (A := A)) (get_fd (A := A) p i).
Proof. unfold get_fd. pres. Qed.
Hint Resolve get_fd_links : preserves.

(** What get_client() leaves behind: the client is there. *)
Lemma get_client_run p b w r w' :
  links w -> get_client p b w = Ret r w' ->
  links w' /\ forall q, r = Some q -> q = p /\ is_Some (clients w' !! p).
Proof.
  intros HL E. unfold get_client in E. apply bind_ret_inv in E as ([] & w1 & E1 & E).
  pose proof (lifecycle_sync_links _ _ _ HL E1) as HL1. mstep_in E.
  destruct (clients w1 !! p) as [c|] eqn:Hp.
  { injection E as <- <-. split; [done|]. intros q [= <-]. by rewrite Hp. }
  destruct b; cbn [negb] in E; [|by injection E as <- <-].
  apply bind_ret_inv in E as (m & w2 & [= <- <-] & E). destruct (_ =? 0); [done|].
  apply bind_ret_inv in E as (m & w2 & [= <- <-] & E).
  set (wa := add_iocall _ _) in E. assert (links wa) as HLa by exact HL1.
  assert (clients wa !! p = None) as Hpa by exact Hp.
  set (ok := io_env _ IHtableAdd) in *. clearbody ok.
  apply bind_ret_inv in E as ([] & w3 & E3 & E).
  apply bind_ret_inv in E as ([] & w4 & E4 & [= <- <-]).
  assert (links w3 /\ (ok =? 0 = false -> is_Some (clients w3 !! p))) as [HL3 H3].
  { destruct (ok =? 0) eqn:Ho; cbn [negb when_] in E3; injection E3 as <-; [done|].
    split; [exact (new_client_links p new_client eq_refl wa HLa Hpa)|]. intros _. cbn. by rewrite lookup_insert_eq. }
  assert (links w4 /\ clients w4 = clients w3) as [HL4 H4].
  { destruct (p <=? _); [|by injection E4 as <-]. mstep_in E4.
    apply bind_ret_inv in E4 as ([] & w5 & E5 & E4). injection E4 as <-. cbn.
    destruct (listening w3); [by injection E5 as <-|].
    apply bind_ret_inv in E5 as (n & w6 & [= <- <-] & E5). destruct (_ <? 0); [done|].
    by injection E5 as <-. }
  split; [done|]. intros q. destruct (ok =? 0); [done|]. intros [= <-]. rewrite H4. auto.
Qed.
Lemma get_client_links p b : preserves (links (A := A)) (get_client (A := A) p b).
Proof. intros w r w' HL E. by destruct (get_client_run p b w r w' HL E). Qed.
Hint Resolve get_client_links : preserves.

Lemma iof_new_links fl : preserves (links (A := A)) (iof_new (A := A) fl).
Proof.
  intros w r w' HL E. unfold iof_new in E. destruct (negb _); [by injection E as _ <-|].
  apply bind_ret_inv in E as (m & w2 & [= <- <-] & E). mstep_in E. cbn [files add_iocall] in E.
  destruct (_ || _) eqn:Hb; [by injection E as _ <-|]. injection E as _ <-.
  apply orb_false_iff in Hb as [_ Hb%bool_decide_eq_false%eq_None_not_Some].
  destruct HL as [HC HF]. split; [exact HC|]. unfold file_tab, places in *. cbn. rewrite fmap_insert.
  apply linked_new; [exact HF|]. by rewrite lookup_fmap, Hb.
Qed.
Lemma file_dtor_links f : preserves (links (A := A)) (file_dtor (A := A) f).
Proof.
  intros w [] w' HL E. unfold file_dtor in E.
  apply bind_ret_inv in E as (x & w1 & [-> Hx]%file_at_inv & E).
  apply bind_ret_inv in E as ([] & w1 & [Hh%bool_decide_eq_true ->]%assert_inv & [= <-]).
  destruct HL as [HC HF]. split; [exact HC|]. unfold file_tab, places in *. cbn. rewrite fmap_delete.
  apply linked_drop; [exact HF|]. by rewrite lookup_fmap, Hx; cbn; rewrite Hh.
Qed.
Lemma drop_file_handles_links n f : preserves (links (A := A)) (drop_file_handles n f).
Proof. induction n as [|n IH]; cbn [drop_file_handles]; pres. Qed.
Hint Resolve iof_new_links file_dtor_links drop_file_handles_links : preserves.
Lemma iof_undo_new_links f : preserves (links (A := A)) (iof_undo_new f).
Proof. unfold iof_undo_new. pres. Qed.
Hint Resolve iof_undo_new_links : preserves.

Lemma io_add_fd_links p x fl : preserves (links (A := A)) (io_add_fd p x fl).
Proof.
  intros w v w' HL E. unfold io_add_fd in E. destruct (negb _); [by injection E as _ <-|].
  apply bind_ret_inv in E as (r & w1 & E1 & E).
  destruct (get_client_run _ _ _ _ _ HL E1) as [HL1 _]. destruct r as [q|]; [|by injection E as _ <-].
  apply bind_ret_inv in E as (c & w2 & [-> Hc]%client_at_inv & E).
  apply bind_ret_inv in E as (y & w2 & [-> Hy]%file_at_inv & E).
  destruct (_ =? MAX_FD); [by injection E as _ <-|]. destruct (_ =? MAX_FD); [by injection E as _ <-|].
  apply bind_ret_inv in E as (r & w2 & E2 & E). pose proof (alloc_fd_links _ _ _ _ HL1 E2) as HL2.
  apply alloc_fd_loop_spec in E2 as (_ & Efd & Ecl & Efl & Hr). destruct r as [n|]; [|by injection E as _ <-].
  destruct (Hr n eq_refl) as [Hn _].
  apply bind_ret_inv in E as ([] & w3 & E3 & [= _ <-]).
  refine (links_link_fd w2 n _ c y w3 HL2 _ _ _ _ _ E3); cbn; try done; congruence.
Qed.
Hint Resolve io_add_fd_links : preserves.

Lemma io_get_file_links p i : preserves (links (A := A)) (io_get_file (A := A) p i).
Proof. unfold io_get_file. pres. Qed.
Lemma callers_fd_links i : preserves (links (A := A)) (callers_fd (A := A) i).
Proof. unfold callers_fd, sender_pid. pres. Qed.
Hint Resolve io_get_file_links callers_fd_links : preserves.

Lemma set_file_flags_links i a b : preserves (links (A := A)) (io_impl_set_file_flags (A := A) i a b).
Proof. unfold io_impl_set_file_flags. pres. Qed.
Lemma set_handle_flags_links i a b : preserves (links (A := A)) (io_impl_set_handle_flags (A := A) i a b).
Proof. unfold io_impl_set_handle_flags. pres. Qed.
Lemma isatty_links i : preserves (links (A := A)) (io_impl_isatty (A := A) i).
Proof. unfold io_impl_isatty. pres. Qed.

Lemma set_confirm_links h : preserves (links (A := A)) (set_confirm (S := io A) h).
Proof. apply preserves_set_confirm. apply host_set_links. Qed.
Lemma set_rollback_links h : preserves (links (A := A)) (set_rollback (S := io A) h).
Proof. apply preserves_set_rollback. apply host_set_links. Qed.
Hint Resolve set_confirm_links set_rollback_links : preserves.

Lemma close_links i : preserves (links (A := A)) (io_impl_close (A := A) i).
Proof. unfold io_impl_close, sender_pid. pres. Qed.
Lemma internal_dup_links i r fl : preserves (links (A := A)) (internal_dup i r fl).
Proof. unfold internal_dup, sender_pid. pres. Qed.
Hint Resolve internal_dup_links : preserves.
Lemma dup_links i fl : preserves (links (A := A)) (io_impl_dup i fl).
Proof. unfold io_impl_dup. pres. Qed.
Lemma dup_to_links i r : preserves (links (A := A)) (io_impl_dup_to i r).
Proof. unfold io_impl_dup_to. pres. Qed.

(** *** Handing a descriptor over *)

Lemma touch_links i : preserves (links (A := A)) (io_impl_touch (A := A) i).
Proof.
  intros w v w' HL E. unfold io_impl_touch, sender_pid in E.
  apply bind_ret_inv in E as ([] & w1 & E1 & E). pose proof (sync_confirm_links _ _ _ HL E1) as HL1.
  mstep_in E. apply bind_ret_inv in E as (r & w2 & E2 & E).
  destruct (get_client_run _ _ _ _ _ HL1 E2) as [HL2 Hr]. destruct r as [p|]; [|by injection E as _ <-].
  destruct (Hr p eq_refl) as [<- _]. clear Hr. mstep_in E.
  destruct (list_find _ _) as [[k t]|]; [|by injection E as _ <-]. mstep_in E.
  set (w3 := set_transfers _ _) in E. assert (links w3) as HL3 by exact HL2.
  change (fds w2) with (fds w3) in E. destruct (fds w3 !! i) as [f|] eqn:Hf; [|done].
  destruct (_ =? 0); [by injection E as _ <-|].
  apply bind_ret_inv in E as ([] & w4 & E4 & E).
  destruct (links_client w3 i f HL3 Hf) as (c & Hc & Hci).
  destruct (unlink_client_run w3 i f c Hf Hc (lookup_lt_Some _ _ _ Hci))
    as (w4' & E4' & O4 & P4 & C4 & F4 & (f4 & Hf4 & _) & _).
  assert (w4' = w4) as -> by congruence. clear E4'.
  apply bind_ret_inv in E as (c' & w5 & [-> Hc']%client_at_inv & E).
  unfold fd_upd, client_upd in E. mstep_in E. injection E as _ <-.
  destruct HL3 as [HC HF].
  assert (linked (client_tab w4) (delete i (owners w4))) as HC4.
  { rewrite C4, O4. apply linked_remove; [done|apply owners_Some; eauto|].
    unfold client_tab. by rewrite lookup_fmap, Hc. }
  pose proof (client_tab_push p i w4 c' Hc') as EC.
  assert (forall B (g : fd -> B), g <$> alter (fun f0 => set_fd_flags (Z.land (flags f0) (bnot32 IOD_TRANSFER)) f0)
      i (alter (set_owner p (length (c_handles c'))) i (fds w4))
      = <[i := g (set_fd_flags (Z.land (flags f4) (bnot32 IOD_TRANSFER))
                    (set_owner p (length (c_handles c')) f4))]> (delete i (g <$> fds w4))) as EF.
  { intros B g. rewrite insert_delete_eq. apply map_eq. intros j. rewrite lookup_fmap.
    destruct (decide (j = i)) as [->|]; [by rewrite !lookup_alter_eq, Hf4, lookup_insert_eq|].
    by rewrite !lookup_alter_ne, lookup_insert_ne, lookup_fmap by done. }
  unfold links, client_tab, owners, places, file_tab in *. cbn in EC |- *. rewrite EC, !EF. cbn. split.
  - apply linked_push; [done|by rewrite lookup_fmap, Hc'|by rewrite lookup_delete_eq].
  - assert (<[i:=(file f4, file_ix f4)]> (delete i ((fun f => (file f, file_ix f)) <$> fds w4))
            = (fun f => (file f, file_ix f)) <$> fds w4) as ->.
    { rewrite insert_delete_eq. apply insert_id. by rewrite lookup_fmap, Hf4. }
    by rewrite P4, F4.
Qed.
Hint Resolve set_file_flags_links set_handle_flags_links isatty_links close_links dup_links
  dup_to_links touch_links : preserves.

(** *** Every event *)

Section events.
Context (add_blocker : Z -> Z -> bool -> M (io A) Z).
Context (Hblk : forall i t b, preserves (links (A := A)) (add_blocker i t b)).
Context {R : Type} (serve_own : R -> M (io A) Z).
Context (Hown : forall l, preserves (links (A := A)) (serve_own l)).
Context (IS_ERR : Z -> bool).

Lemma block_links i t b : preserves (links (A := A)) (block add_blocker i t b).
Proof. unfold block. pres. Qed.
Hint Resolve block_links : preserves.
Lemma write_links i o b : preserves (links (A := A)) (io_impl_write add_blocker i o b).
Proof. unfold io_impl_write. pres. Qed.
Lemma read_links i o b : preserves (links (A := A)) (io_impl_read add_blocker i o b).
Proof. unfold io_impl_read. pres. Qed.
Hint Resolve write_links read_links : preserves.

Lemma serve_links r : preserves (links (A := A)) (serve add_blocker r).
Proof. destruct r; cbn [serve]; pres. Qed.
Hint Resolve serve_links : preserves.

Lemma check_rollback_links st : preserves (links (A := A)) (check_rollback (S := io A) IS_ERR st).
Proof. apply preserves_check_rollback; [apply host_set_links|apply run_handler_links]. Qed.
Hint Resolve check_rollback_links : preserves.

Lemma handle_event_links e : preserves (links (A := A)) (handle_event add_blocker serve_own IS_ERR e).
Proof.
  destruct e as [s t r|s t l| | | | | | |]; cbn [handle_event].
  - apply preserves_bind; [by apply links_modify|intros _]. apply preserves_bind; [apply serve_links|intros _; apply preserves_ret].
  - apply preserves_bind; [by apply links_modify|intros _]. apply preserves_bind; [apply Hown|intros _; apply preserves_ret].
  - pres.
  - pres.
  - pres.
  - pres.
  - pres.
  - pres.
  - pres.
Qed.

Lemma links_init (a : A) : links (io_init a).
Proof. split; intros i p ix; cbn; (split; [done|]); by intros (l & Hl & _). Qed.

Lemma io_steps_links w w' : links w -> rtc (io_step add_blocker serve_own IS_ERR) w w' -> links w'.
Proof.
  intros HL. induction 1 as [w|w1 w2 w3 [e He] _ IH]; [done|].
  apply IH. exact (handle_event_links e w1 tt w2 HL He).
Qed.
End events.
End props.

Lemma links_invariants {A} (w : io A) : links w -> handle_invariants w = true.
Proof.
  intros HL. unfold handle_invariants. rewrite !bool_decide_eq_true_2; [done| |].
  - intros p c Hc. unfold client_handles_ok. rewrite bool_decide_eq_true_2.
    + apply forallb_forall. intros i [k Hk]%list_elem_of_In%list_elem_of_lookup.
      destruct (links_handle w p c k i HL Hc Hk) as (f & -> & <- & _). apply Z.eqb_refl.
    + apply NoDup_alt. intros a b i Ha Hb.
      destruct (links_handle w p c a i HL Hc Ha) as (f & Hf & _ & <-).
      destruct (links_handle w p c b i HL Hc Hb) as (f' & Hf' & _ & <-). congruence.
  - intros i f Hf. unfold fd_links_ok.
    destruct (links_client w i f HL Hf) as (c & -> & Hc). destruct (links_file w i f HL Hf) as (x & -> & Hx).
    pose proof (lookup_lt_Some _ _ _ Hc). pose proof (lookup_lt_Some _ _ _ Hx).
    rewrite !andb_true_iff, !Nat.ltb_lt, !bool_decide_eq_true. split_and!; try done; lia.
Qed.

Lemma nopoll_links {A} i t b : preserves (links (A := A)) (_nopoll_add_blocker (A := A) i t b).
Proof.
  unfold _nopoll_add_blocker. apply preserves_bind; [apply links_fd_at|intros f].
  apply preserves_bind; [apply links_client_at|intros c].
  apply preserves_bind; [apply preserves_assert|intros _].
  apply preserves_bind; [by apply links_client_upd|intros _; apply preserves_ret].
Qed.

(** C19: in every state the library can get into, whatever clients request in
    whatever order, however the environment answers and whatever the server's
    callbacks and own requests do within their bounds, every live descriptor is found
    at its recorded position in the array of its client and in that of its file, and
    those arrays hold nothing but such descriptors, so that the debugging assertions
    on them pass.  None of the assertions in the destruction of a descriptor can fail, and it
    takes away that descriptor and no other. *)
Theorem io_reachable_links {A} `{!L4Abi, !IoBase, !IoEnv A, !IoEnvOk A, !IoServer A, !IoServerOk A} {R}
    add_blocker (serve_own : R -> M (io A) Z) IS_ERR (a : A) w :
  (forall i t b, preserves (links (A := A)) (add_blocker i t b)) ->
  (forall l, preserves (links (A := A)) (serve_own l)) ->
  rtc (io_step add_blocker serve_own IS_ERR) (io_init a) w ->
  links w /\ handle_invariants w = true
  /\ (forall i f b, fds w !! i = Some f ->
       (exists n w', fd_dtor i b w = Ret n w' /\ links w' /\ dom (fds w') = dom (fds w) ∖ {[i]})
       \/ (exists r w1, cb_close (file f) w1 = Stop r /\ fd_dtor i b w = Stop r)).
Proof.
  intros Hblk Hown Hs. pose proof (io_steps_links add_blocker Hblk serve_own Hown IS_ERR _ _ (links_init a) Hs) as HL.
  split; [done|]. split; [by apply links_invariants|].
  intros i f b Hf. destruct (fd_dtor_outcome w i f b HL Hf) as [(n & w' & E & HL' & D & _)|]; [left|right]; eauto.
Qed.

(** *** An environment to try things in *)

Definition is_call (c d : iocall) : bool :=
  match c, d with
  | IMallocFile, IMallocFile | IRaAlloc, IRaAlloc => true
  | _, _ => false
  end.
Definition count_calls (c : iocall) (t : list iocall) : Z :=
  Z.of_nat (length (List.filter (is_call c) t)).

(** Memory never runs out; reads return zeroes; closing a file counts. *)
#[export] Instance demo_base : IoBase := {|
  io_env t c := match c with
    | IMallocFile => 1000 + count_calls c t
    | IRaAlloc => 1 + count_calls c t
    | _ => 1
    end;
  io_global := 0
|}.
#[export] Instance demo_io : IoEnv Z := {|
  cb_read _ n _ := mret (n, replicate (Z.to_nat n) 0);
  cb_write _ buf _ := mret (Z.of_nat (length buf));
  cb_close _ := _ ← modify (fun w => set_impl (impl w + 1) w); mret 0;
  cb_confirm := Some (fun _ _ _ _ => mret tt);
  cb_lifecycle _ _ := mret tt
|}.
#[export] Instance demo_server : IoServer Z := {| cb_rollback _ := mret tt |}.
#[export] Instance demo_server_ok : IoServerOk Z.
Proof. split. cbn. eauto with preserves. Qed.
#[export] Instance demo_io_ok : IoEnvOk Z.
Proof.
  split; cbn.
  - by intros f n o w r w' [= _ <-].
  - by intros f b o w r w' [= _ <-].
  - by intros f w r w' [= _ <-].
  - by intros fn f n o b w r w' [= <-] [= _ <-].
  - by intros p t w r w' [= _ <-].
Qed.

Section demo.
Context {A : Type} `{!L4Abi, !IoBase, !IoEnv A, !IoServer A}.

Definition run_events (es : list (io_event unit)) : M (io A) unit :=
  mapM_ (handle_event _nopoll_add_blocker (fun _ => mret 0) (fun st => negb (st =? 0))) es.

Lemma run_events_steps es w w' :
  run_events es w = Ret tt w' ->
  rtc (io_step _nopoll_add_blocker (fun _ : unit => mret 0) (fun st => negb (st =? 0))) w w'.
Proof.
  revert w. induction es as [|e es IH]; intros w E.
  - by injection E as <-.
  - apply bind_ret_inv in E as ([] & w1 & E1 & E). eapply rtc_l; [exists e; exact E1|]. by apply IH.
Qed.
Definition final {B} (m : M (io A) B) (w : io A) : io A :=
  match m w with Ret _ w' => w' | Stop _ => w end.
Lemma final_eq (m : M (io A) unit) w :
  (match m w with Ret _ _ => true | Stop _ => false end) = true -> m w = Ret tt (final m w).
Proof. unfold final. by destruct (m w) as [[] ?|]. Qed.
End demo.

(** Process 5 gets two descriptors of a file, copies one to process 6, which takes
    it over; process 5 forks into 7 and exits. *)
Definition demo_sender (pid : Z) : Z := @compose_tid l4_x2_32 pid 0 600.
Definition demo_events : list (io_event unit) :=
  [FileNew 0; AddFd 5 1000 0; AddFd 5 1000 IOD_CLOEXEC;
   Request (demo_sender 5) 1 (ReqDupTo 1 6); Replied 0;
   Request (demo_sender 6) 1 (ReqTouch 3); Replied 0;
   Lifecycle [5; Z.lor MPL_FORK (Z.shiftl 7 8); 0; 0];
   Request (demo_sender 5) 2 (ReqRead 1 8 0); Replied 0;
   Request (demo_sender 7) 2 (ReqClose 1); Replied 0; Poke;
   Lifecycle [5; MPL_EXIT; 0; 0]; Poke].
Definition demo_final : io Z := final (@run_events Z l4_x2_32 demo_base demo_io demo_server demo_events) (io_init 0).

Lemma io_reachable_links_witness :
  (exists f, fds demo_final !! 3 = Some f /\ owner f = 6)
  /\ links demo_final.
Proof.
  split; [eexists; split; vm_compute; reflexivity|].
  assert ((match @run_events Z l4_x2_32 demo_base demo_io demo_server demo_events (io_init 0) with
           | Ret _ _ => true | Stop _ => false end) = true) as B by (vm_compute; reflexivity).
  pose proof (@final_eq Z (@run_events Z l4_x2_32 demo_base demo_io demo_server demo_events) (io_init 0) B) as E.
  exact (proj1 (@io_reachable_links Z l4_x2_32 demo_base demo_io demo_io_ok demo_server demo_server_ok unit _nopoll_add_blocker
    (fun _ : unit => mret 0) (fun st => negb (st =? 0)) 0 demo_final nopoll_links
    (fun _ => preserves_ret links 0) (run_events_steps _ _ _ E))).
Defined.
