(* ===== verification/SysIoEventProps.v ===== *)
(** The queue of lifecycle events of the I/O server library refines a bounded
    first-in first-out queue; what its overflow does; the outcomes of descriptor
    lookup; clients that exit. *)
From S2P Require Import Prelude L4 HashUtil Rollback Containers SysIo SysIoProps.

(** ** The control word *)

Definition lc_ctrl (first wrpos : Z) : Z := first * 1024 + wrpos.

(** How the code takes the control word apart and puts it together, for each of the
    positions there are. *)
Definition ctrl_ok (first wrpos : Z) : bool :=
  let c := lc_ctrl first wrpos in
  let next := (wrpos + 1) mod NUM_LC_EVENTS in
  (Z.shiftr c 10 =? first) && (Z.land c 0x3ff =? wrpos) && (Z.land c (2 ^ 20) =? 0)
  && (Z.lor (Z.land c (Z.shiftl 0x3ff 10)) next =? lc_ctrl first next)
  && (Z.lor (Z.shiftl wrpos 10) wrpos =? lc_ctrl wrpos wrpos)
  && negb (Z.land (Z.lor c (2 ^ 20)) (2 ^ 20) =? 0)
  && (Z.lor (Z.land (Z.lor c (2 ^ 20)) (Z.shiftl 0x3ff 10)) ((Z.land (Z.lor c (2 ^ 20)) 0x3ff + 1) mod NUM_LC_EVENTS)
      =? lc_ctrl first next).

Lemma ctrl_ok_all : forallb (fun f => forallb (ctrl_ok f) (seqZ 0 128)) (seqZ 0 128) = true.
Proof. vm_compute. reflexivity. Qed.

Lemma ctrl_fields f r : 0 <= f < 128 -> 0 <= r < 128 ->
  let c := lc_ctrl f r in
  let next := (r + 1) mod NUM_LC_EVENTS in
  Z.shiftr c 10 = f /\ Z.land c 0x3ff = r /\ Z.land c (2 ^ 20) = 0
  /\ Z.lor (Z.land c (Z.shiftl 0x3ff 10)) next = lc_ctrl f next
  /\ Z.lor (Z.shiftl r 10) r = lc_ctrl r r
  /\ (Z.land (Z.lor c (2 ^ 20)) (2 ^ 20) =? 0) = false
  /\ Z.lor (Z.land (Z.lor c (2 ^ 20)) (Z.shiftl 0x3ff 10)) ((Z.land (Z.lor c (2 ^ 20)) 0x3ff + 1) mod NUM_LC_EVENTS)
     = lc_ctrl f next.
Proof.
  intros Hf Hr. pose proof ctrl_ok_all as HA. rewrite forallb_forall in HA.
  assert (ctrl_ok f r = true) as H.
  { assert (forallb (ctrl_ok f) (seqZ 0 128) = true) as Hff
      by (apply HA; apply list_elem_of_In, elem_of_seqZ; lia).
    rewrite forallb_forall in Hff. apply Hff. apply list_elem_of_In, elem_of_seqZ. lia. }
  unfold ctrl_ok in H. cbv zeta in *. rewrite !andb_true_iff, !negb_true_iff, !Z.eqb_eq in H. tauto.
Qed.

(** How many events there are between the two positions. *)
Definition lc_count (f r : Z) : Z := (r - f) mod NUM_LC_EVENTS.

Lemma lc_count_eq f r : 0 <= f < 128 -> 0 <= r < 128 ->
  lc_count f r = if r - f <? 0 then r - f + NUM_LC_EVENTS else r - f.
Proof.
  intros. unfold lc_count, NUM_LC_EVENTS. destruct (Z.ltb_spec (r - f) 0).
  - rewrite <- (Z_mod_plus_full (r - f) 1 128). apply Z.mod_small. lia.
  - apply Z.mod_small. lia.
Qed.

Lemma lc_pending_eq q f r : 0 <= f < 128 -> 0 <= r < 128 ->
  lc_pending q (lc_ctrl f r)
  = map (fun i => nth (Z.to_nat ((f + i) mod NUM_LC_EVENTS)) q no_event) (seqZ 0 (lc_count f r)).
Proof.
  intros Hf Hr. destruct (ctrl_fields f r Hf Hr) as (E1 & E2 & _).
  unfold lc_pending. cbv zeta. rewrite E1, E2, (lc_count_eq f r Hf Hr). reflexivity.
Qed.

(** ** The queue and the events it holds *)

(** The queue of the model stands for the list [l] of events. *)
Definition lc_rep (q : list lc_event) (ctrl : Z) (l : list lc_event) : Prop :=
  length q = 128%nat /\ exists f r, 0 <= f < 128 /\ 0 <= r < 128 /\ ctrl = lc_ctrl f r
  /\ lc_pending q ctrl = l.

Lemma seqZ_snoc n : 0 <= n -> seqZ 0 (n + 1) = seqZ 0 n ++ [n].
Proof. intros. rewrite (seqZ_app 0 n 1) by lia. reflexivity. Qed.

Lemma lc_count_range f r : 0 <= lc_count f r < 128.
Proof. apply Z.mod_pos_bound. reflexivity. Qed.

Lemma lc_pending_length q f r : 0 <= f < 128 -> 0 <= r < 128 ->
  Z.of_nat (length (lc_pending q (lc_ctrl f r))) = lc_count f r.
Proof.
  intros Hf Hr. rewrite lc_pending_eq by done. rewrite length_map, length_seqZ.
  pose proof (lc_count_range f r). lia.
Qed.

Lemma lc_push_rep q ctrl l ev : lc_rep q ctrl l -> (length l < 127)%nat ->
  exists q' ctrl', lc_push ev q ctrl = (q', ctrl') /\ lc_rep q' ctrl' (l ++ [ev]).
Proof.
  intros (Hq & f & r & Hf & Hr & -> & <-) Hl.
  destruct (ctrl_fields f r Hf Hr) as (E1 & E2 & E3 & E4 & _).
  pose proof (lc_pending_length q f r Hf Hr) as Hlen. pose proof (lc_count_eq f r Hf Hr) as Hc.
  set (next := (r + 1) mod NUM_LC_EVENTS) in *.
  assert (0 <= next < 128) as Hnext by (apply Z.mod_pos_bound; reflexivity).
  assert (next = if r =? 127 then 0 else r + 1) as En.
  { unfold next, NUM_LC_EVENTS. destruct (Z.eqb_spec r 127) as [->|]; [reflexivity|apply Z.mod_small; lia]. }
  assert (f <> next /\ lc_count f next = lc_count f r + 1) as [Hne Hcn].
  { rewrite (lc_count_eq f next Hf Hnext), Hc. rewrite Hc in Hlen. unfold NUM_LC_EVENTS in *.
    destruct (Z.eqb_spec r 127); destruct (Z.ltb_spec (r - f) 0); destruct (Z.ltb_spec (next - f) 0); lia. }
  unfold lc_push. cbv zeta. rewrite E1, E2. fold next. rewrite E3, E4. cbn [Z.eqb negb].
  rewrite (proj2 (Z.eqb_neq f next) Hne). eexists _, _. split; [reflexivity|].
  split; [by rewrite length_insert|]. exists f, next. split_and!; try done; try lia.
  rewrite !lc_pending_eq by done. rewrite Hcn, seqZ_snoc by (pose proof (lc_count_range f r); lia).
  rewrite map_app. cbn [map]. f_equal.
  - apply map_ext_in. intros i [Hi1 Hi2]%list_elem_of_In%elem_of_seqZ.
    rewrite !nth_lookup. rewrite list_lookup_insert_ne; [done|].
    pose proof (Z.mod_pos_bound (f + i) NUM_LC_EVENTS ltac:(reflexivity)).
    intros Heq. assert (r = (f + i) mod NUM_LC_EVENTS) as Hri by lia.
    unfold NUM_LC_EVENTS in *. rewrite Hc in Hi2.
    assert (f + i < 256) by (destruct (Z.ltb_spec (r - f) 0); lia).
    destruct (Z.ltb_spec (f + i) 128).
    + rewrite Z.mod_small in Hri by lia. destruct (Z.ltb_spec (r - f) 0); lia.
    + rewrite <- (Z_mod_plus_full (f + i) (-1) 128), Z.mod_small in Hri by lia.
      destruct (Z.ltb_spec (r - f) 0); lia.
  - f_equal. assert ((f + lc_count f r) mod NUM_LC_EVENTS = r) as ->.
    { rewrite Hc. unfold NUM_LC_EVENTS. destruct (Z.ltb_spec (r - f) 0).
      - rewrite <- (Z_mod_plus_full _ (-1) 128), Z.mod_small; lia.
      - rewrite Z.mod_small; lia. }
    rewrite nth_lookup, list_lookup_insert_eq by lia. done.
Qed.

Lemma lc_push_full q ctrl l ev : lc_rep q ctrl l -> length l = 127%nat ->
  lc_push ev q ctrl = (q, Z.lor ctrl (2 ^ 20))
  /\ exists f r, 0 <= f < 128 /\ 0 <= r < 128 /\ ctrl = lc_ctrl f r /\ f = (r + 1) mod NUM_LC_EVENTS.
Proof.
  intros (Hq & f & r & Hf & Hr & -> & <-) Hl.
  destruct (ctrl_fields f r Hf Hr) as (E1 & E2 & E3 & _).
  pose proof (lc_pending_length q f r Hf Hr) as Hlen. pose proof (lc_count_eq f r Hf Hr) as Hc.
  assert (f = (r + 1) mod NUM_LC_EVENTS) as En.
  { rewrite Hc in Hlen. unfold NUM_LC_EVENTS in *. destruct (Z.ltb_spec (r - f) 0).
    - rewrite Z.mod_small; lia.
    - assert (r = 127) as -> by lia. change ((127 + 1) mod 128) with 0. lia. }
  split; [|eauto 10]. unfold lc_push. cbv zeta. rewrite E1, E2, E3. cbn [Z.eqb negb].
  by rewrite (proj2 (Z.eqb_eq f _) En).
Qed.

Lemma lc_push_overflowed q f r ev : length q = 128%nat -> 0 <= f < 128 -> 0 <= r < 128 ->
  f = (r + 1) mod NUM_LC_EVENTS ->
  lc_push ev q (Z.lor (lc_ctrl f r) (2 ^ 20)) = (q, lc_ctrl f f).
Proof.
  intros Hq Hf Hr En. destruct (ctrl_fields f r Hf Hr) as (_ & _ & _ & _ & _ & E6 & E7).
  unfold lc_push. cbv zeta. rewrite E6, E7. cbn [negb]. by rewrite <- En.
Qed.

Lemma lc_rep_empty q f : length q = 128%nat -> 0 <= f < 128 -> lc_rep q (lc_ctrl f f) [].
Proof.
  intros Hq Hf. split; [done|]. exists f, f. split_and!; try done; try lia.
  rewrite lc_pending_eq by done. unfold lc_count. by rewrite Z.sub_diag.
Qed.

Lemma lc_consumed_rep q ctrl l : lc_rep q ctrl l -> lc_rep q (lc_consumed ctrl) [].
Proof.
  intros (Hq & f & r & Hf & Hr & -> & _).
  destruct (ctrl_fields f r Hf Hr) as (E1 & E2 & _). pose proof (lc_count_eq f r Hf Hr) as Hc.
  assert (lc_consumed (lc_ctrl f r) = lc_ctrl r r) as ->; [|by apply lc_rep_empty].
  unfold lc_consumed. cbv zeta. rewrite E1, E2, <- Hc.
  assert ((f + lc_count f r) mod NUM_LC_EVENTS = r) as ->.
  { rewrite Hc. unfold NUM_LC_EVENTS. destruct (Z.ltb_spec (r - f) 0).
    - rewrite <- (Z_mod_plus_full _ (-1) 128), Z.mod_small; lia.
    - rewrite Z.mod_small; lia. }
  destruct (ctrl_fields r r Hr Hr) as (_ & _ & _ & _ & E5 & _). exact E5.
Qed.

(** ** What applying an event leaves alone *)

Section stable.
Context {A : Type} `{!L4Abi, !IoBase, !IoEnv A, !IoServer A}.
Context (I : io A -> Prop).
(** An invariant that does not look at what the operations below write to. *)
Context (Hfds : forall x w, I w -> I (set_fds x w)) (Hfiles : forall x w, I w -> I (set_files x w))
        (Hclients : forall x w, I w -> I (set_clients x w)) (Htr : forall x w, I w -> I (set_transfers x w))
        (Hcall : forall c w, I w -> I (add_iocall c w))
        (Hclose : forall f, preserves I (cb_close f)) (Hlife : forall p t, preserves I (cb_lifecycle p t)).

Lemma keeps_ask c : preserves I (io_ask (A := A) c).
Proof. intros w n w' HI [= _ <-]. auto. Qed.
Lemma keeps_fd_at i : preserves I (fd_at (A := A) i).
Proof. unfold fd_at. eauto with preserves. Qed.
Lemma keeps_file_at i : preserves I (file_at (A := A) i).
Proof. unfold file_at. eauto with preserves. Qed.
Lemma keeps_client_at i : preserves I (client_at (A := A) i).
Proof. unfold client_at. eauto with preserves. Qed.
Lemma keeps_fd_upd i g : preserves I (fd_upd (A := A) i g).
Proof. apply preserves_modify. auto. Qed.
Lemma keeps_file_upd i g : preserves I (file_upd (A := A) i g).
Proof. apply preserves_modify. auto. Qed.
Lemma keeps_client_upd i g : preserves I (client_upd (A := A) i g).
Proof. apply preserves_modify. auto. Qed.
Lemma keeps_fds (g : io A -> gmap Z fd) : preserves I (modify (fun w => set_fds (g w) w)).
Proof. apply preserves_modify. auto. Qed.
Lemma keeps_files (g : io A -> gmap Z io_file) : preserves I (modify (fun w => set_files (g w) w)).
Proof. apply preserves_modify. auto. Qed.
Lemma keeps_clients (g : io A -> gmap Z client) : preserves I (modify (fun w => set_clients (g w) w)).
Proof. apply preserves_modify. auto. Qed.
Lemma keeps_transfers (g : io A -> list (Z * Z)) : preserves I (modify (fun w => set_transfers (g w) w)).
Proof. apply preserves_modify. auto. Qed.
Lemma keeps_mapM {B} (g : B -> M (io A) unit) l : (forall x, preserves I (g x)) -> preserves I (mapM_ g l).
Proof. intros Hg. induction l; cbn; eauto with preserves. Qed.
Hint Resolve keeps_ask keeps_fd_at keeps_file_at keeps_client_at keeps_fd_upd keeps_file_upd
  keeps_client_upd keeps_fds keeps_files keeps_clients keeps_transfers Hclose Hlife
  keeps_mapM : preserves.

Ltac pres := repeat first
  [ solve [trivial with preserves]
  | apply preserves_bind; [solve [eauto 3 with preserves]|intros ?]
  | apply keeps_mapM; intros ?
  | apply preserves_if
  | case_match
  | solve [eauto 4 with preserves]
  | apply preserves_bind; [|intros ?] ].

Lemma keeps_unlink_client i : preserves I (unlink_client (A := A) i).
Proof. unfold unlink_client. pres. Qed.
Lemma keeps_unlink_file i : preserves I (unlink_file (A := A) i).
Proof. unfold unlink_file. pres. Qed.
Lemma keeps_file_dtor i : preserves I (file_dtor (A := A) i).
Proof. unfold file_dtor. pres. Qed.
Hint Resolve keeps_unlink_client keeps_unlink_file keeps_file_dtor : preserves.
Lemma keeps_fd_dtor i b : preserves I (fd_dtor i b).
Proof. unfold fd_dtor. pres. Qed.
Hint Resolve keeps_fd_dtor : preserves.
Lemma keeps_drop_handles n p : preserves I (drop_handles n p).
Proof. induction n as [|n IH]; cbn [drop_handles]; pres. Qed.
Hint Resolve keeps_drop_handles : preserves.
Lemma keeps_client_dtor p : preserves I (client_dtor p).
Proof. unfold client_dtor. pres. Qed.
Lemma keeps_late_close i : preserves I (late_close_fd i).
Proof. unfold late_close_fd. pres. Qed.
Hint Resolve keeps_client_dtor keeps_late_close : preserves.
Lemma keeps_alloc_fd_loop n c l : preserves I (alloc_fd_loop (A := A) n c l).
Proof. revert l. induction n as [|n IH]; intros l; cbn [alloc_fd_loop]; pres. Qed.
Hint Resolve keeps_alloc_fd_loop : preserves.
Lemma keeps_link_fd n f : preserves I (link_fd (A := A) n f).
Proof. unfold link_fd. pres. Qed.
Hint Resolve keeps_link_fd : preserves.
Lemma keeps_fork_handle i p : preserves I (fork_handle (A := A) i p).
Proof. unfold fork_handle, alloc_fd. pres. Qed.
Hint Resolve keeps_fork_handle : preserves.
Lemma keeps_fork_into i p ix : preserves I (fork_into (A := A) i p ix).
Proof. unfold fork_into. pres. Qed.
Hint Resolve keeps_fork_into : preserves.
Lemma keeps_fork_client p q : preserves I (fork_client (A := A) p q).
Proof. unfold fork_client. pres. Qed.
Lemma keeps_exec_loop n p i : preserves I (exec_loop n p i).
Proof. revert i. induction n as [|n IH]; intros i; cbn [exec_loop]; pres. Qed.
Hint Resolve keeps_fork_client keeps_exec_loop : preserves.
Lemma keeps_lc_apply ev : preserves I (lc_apply ev).
Proof. unfold lc_apply. pres. Qed.
Lemma keeps_lc_applies l : preserves I (mapM_ lc_apply l).
Proof. apply keeps_mapM. apply keeps_lc_apply. Qed.
End stable.

(** ** The queue as a bounded FIFO *)

(** The specification: events are held in order, at most 127 of them; one more
    makes the queue overflow, which cannot be drained; and one more after that
    leaves it empty. *)
Inductive fifo := Holding (l : list lc_event) | Overflowed.

Definition fifo_push (ev : lc_event) (s : fifo) : fifo :=
  match s with
  | Holding l => if (length l <? 127)%nat then Holding (l ++ [ev]) else Overflowed
  | Overflowed => Holding []
  end.

Section refinement.
Context {A : Type} `{!L4Abi, !IoBase, !IoEnv A, !IoEnvOk A, !IoServer A, !IoServerOk A}.
Implicit Type w : io A.

Definition lc_refines (w : io A) (s : fifo) : Prop :=
  match s with
  | Holding l => lc_rep (lce_queue w) (lce_ctrl w) l /\ (length l <= 127)%nat
  | Overflowed =>
      length (lce_queue w) = 128%nat
      /\ exists f r, 0 <= f < 128 /\ 0 <= r < 128 /\ f = (r + 1) mod NUM_LC_EVENTS
                     /\ lce_ctrl w = Z.lor (lc_ctrl f r) (2 ^ 20)
  end.

Lemma set_lce_id w : w = set_lce (lce_queue w) (lce_ctrl w) w.
Proof. by destruct w. Qed.

Lemma lifecycle_handler_run body w :
  exists w', lifecycle_handler_fn body w = Ret tt w'
  /\ (lce_queue w', lce_ctrl w') = lc_push (lc_event_of body) (lce_queue w) (lce_ctrl w)
  /\ fds w' = fds w /\ files w' = files w /\ clients w' = clients w /\ impl w' = impl w.
Proof.
  unfold lifecycle_handler_fn. mstep.
  destruct (tag (lc_event_of body) =? MPL_FORK);
    [unfold io_ask at 1; rewrite bind_bind; unfold mbind at 1, M_bind at 1; mstep|mstep];
    (destruct (lc_push _ _ _) as [q c]; mstep;
     destruct (_ || _); eexists; (split; [reflexivity|]); done).
Qed.

Lemma fifo_push_refines ev w w' s :
  lc_refines w s -> (lce_queue w', lce_ctrl w') = lc_push ev (lce_queue w) (lce_ctrl w) ->
  lc_refines w' (fifo_push ev s).
Proof.
  destruct s as [l|]; cbn [fifo_push lc_refines].
  - intros [HR Hl]. destruct (Nat.ltb_spec (length l) 127).
    + destruct (lc_push_rep _ _ l ev HR) as (q' & c' & -> & HR'); [done|]. intros [= Eq Ec].
      cbn. rewrite Eq, Ec. split; [done|]. rewrite length_app. cbn. lia.
    + destruct (lc_push_full _ _ l ev HR) as (-> & f & r & Hf & Hr & Ec & En); [lia|].
      intros [= Eq Ec']. cbn. rewrite Eq, Ec'. split; [by destruct HR|]. rewrite Ec. eauto 10.
  - intros (Hq & f & r & Hf & Hr & En & ->). rewrite lc_push_overflowed by done. intros [= Eq Ec].
    cbn. rewrite Eq, Ec. split; [by apply lc_rep_empty|lia].
Qed.

(** C20: the queue of lifecycle events, kept by the code in a ring of 128 slots and
    a control word of two positions and a flag, is a first-in first-out queue of at
    most 127 events.  It begins empty; the handler of lifecycle messages always
    returns and does to it what [fifo_push] says; draining it applies exactly the
    events it holds, oldest first, and leaves it empty; and while it is in overflow
    draining it stops the server. *)
Theorem lifecycle_queue_refines_fifo :
  (forall a : A, lc_refines (io_init a) (Holding []))
  /\ (forall body w s, lc_refines w s ->
       exists w', lifecycle_handler_fn body w = Ret tt w'
                  /\ lc_refines w' (fifo_push (lc_event_of body) s))
  /\ (forall w w' l, lc_refines w (Holding l) ->
       lifecycle_sync w = Ret tt w' <->
       exists w1, mapM_ lc_apply l w = Ret tt w1
                  /\ w' = set_lce (lce_queue w) (lce_ctrl w') w1 /\ lc_refines w' (Holding [])
                  /\ (lce_ctrl w' = if decide (l = []) then lce_ctrl w else lc_consumed (lce_ctrl w)))
  /\ (forall w, lc_refines w Overflowed -> lifecycle_sync w = Stop StAbort).
Proof.
  split_and!.
  - intros a. cbn. split; [|lia]. by apply (lc_rep_empty _ 0).
  - intros body w s HR. destruct (lifecycle_handler_run body w) as (w' & E & Hp & _).
    exists w'. split; [done|]. by apply (fifo_push_refines _ w).
  - intros w w' l [HR Hl]. pose proof HR as (Hq & f & r & Hf & Hr & Ec & Hp).
    destruct (ctrl_fields f r Hf Hr) as (E1 & E2 & E3 & _).
    pose proof (lc_pending_length (lce_queue w) f r Hf Hr) as Hlen. rewrite <- Ec, Hp in Hlen.
    assert (forall w1, mapM_ lc_apply l w = Ret tt w1 -> lce_queue w1 = lce_queue w /\ lce_ctrl w1 = lce_ctrl w) as Hst.
    { intros w1 E. apply (keeps_lc_applies (fun v => lce_queue v = lce_queue w /\ lce_ctrl v = lce_ctrl w)
        ltac:(done) ltac:(done) ltac:(done) ltac:(done) ltac:(done)) with l w tt; try done.
      - intros x v n v' [Hv1 Hv2] Ef. destruct (cb_close_ok _ _ _ _ Ef) as (_ & -> & ->). done.
      - intros p t v n v' [Hv1 Hv2] Ef. destruct (cb_lifecycle_ok _ _ _ _ _ Ef) as (_ & -> & ->). done. }
    unfold lifecycle_sync. mstep. rewrite Ec, E1, E2, E3. cbn [Z.eqb negb].
    destruct (Z.eqb_spec f r) as [->|Hne].
    + assert (l = []) as ->.
      { unfold lc_count in Hlen. rewrite Z.sub_diag in Hlen. change (0 mod NUM_LC_EVENTS) with 0 in Hlen.
        destruct l; [done|cbn in Hlen; lia]. }
      rewrite decide_True by done. cbn [mapM_]. rewrite <- Ec. split.
      * intros E. injection E as <-. exists w. split; [done|]. split; [apply set_lce_id|]. split; [split; [done|cbn; lia]|done].
      * intros (w1 & E & Ew' & _ & Ew). injection E as <-. rewrite Ew in Ew'.
        rewrite Ew'. by rewrite <- set_lce_id.
    + assert (l <> []) as Hne'.
      { intros ->. cbn in Hlen. rewrite (lc_count_eq f r) in Hlen by done. unfold NUM_LC_EVENTS in *.
        destruct (Z.ltb_spec (r - f) 0); lia. }
      rewrite decide_False by done. rewrite <- Ec, Hp. split.
      * intros ([] & w1 & E & Ew')%bind_ret_inv. injection Ew' as <-. exists w1.
        destruct (Hst w1 E) as [Hq1 _]. cbn. rewrite Hq1. split; [done|]. split; [done|]. split; [|done]. split; [|cbn; lia].
        by apply (lc_consumed_rep _ _ l).
      * intros (w1 & E & Ew & _ & Ew'). rewrite (bind_ret _ _ _ _ _ E). unfold modify.
        destruct (Hst w1 E) as [-> _]. rewrite Ew' in Ew. by rewrite Ew.
  - intros w (Hq & f & r & Hf & Hr & En & Ec).
    destruct (ctrl_fields f r Hf Hr) as (_ & _ & _ & _ & _ & E6 & _).
    unfold lifecycle_sync. mstep. rewrite Ec, E6. cbn [negb]. reflexivity.
Qed.
End refinement.

(** ** Clients that exit, and descriptors that are none *)

Section outcomes.
Context {A : Type} `{!L4Abi, !IoBase, !IoEnv A, !IoEnvOk A, !IoServer A, !IoServerOk A}.
Implicit Type w : io A.

(** What is left, in [w'], of a client [p] that had the descriptors [l] in [w]. *)
Definition client_gone (p : Z) (l : list Z) (w w' : io A) : Prop :=
  client_tab w' = delete p (client_tab w)
  /\ dom (fds w') = dom (fds w) ∖ list_to_set l
  /\ (forall i f, fds w' !! i = Some f -> owner f <> p).

(** C25: the exit of a client is always carried through, if the server's callbacks
    return.  The event takes the client
    off the table and destroys all its descriptors and no other, whether they are
    plain, inherited or in transfer, and leaves the arrays of every other client as
    they were. *)
Theorem client_exit_closes w p c ev :
  (forall x w, exists n w', cb_close x w = Ret n w') ->
  (forall q t w, exists w', cb_lifecycle q t w = Ret tt w') ->
  links w -> clients w !! p = Some c -> tag ev = MPL_EXIT -> primary ev = p ->
  exists w', lc_apply ev w = Ret tt w' /\ links w' /\ client_gone p (c_handles c) w w'.
Proof.
  intros Hcl Hlc HL Hc Ht Hp.
  destruct (client_dtor_outcome w p c HL Hc) as [(w1 & E & HL1 & C1 & D1)|(r & (x & v & Er) & _)].
  2:{ destruct (Hcl x v) as (n & v' & E). congruence. }
  unfold lc_apply. mstep. rewrite Hp, Hc, Ht. cbn [Z.eqb MPL_EXIT MPL_FORK MPL_EXEC Pos.eqb].
  rewrite (bind_ret _ _ _ _ _ E). destruct (Hlc p CLIENT_EXIT w1) as (w2 & E2).
  rewrite (bind_ret _ _ _ _ _ E2). destruct (cb_lifecycle_ok _ _ _ _ _ E2) as (HS & _).
  pose proof (links_same _ _ HS HL1) as HL2. destruct (same_links_dom _ _ HS) as [D2 _].
  destruct HS as (_ & _ & C2 & _). eexists. split; [reflexivity|]. split; [exact HL2|].
  split; [by rewrite <- C1, <- C2|]. split; [cbn; by rewrite D2|].
  intros i f Hf Ho. cbn in Hf. destruct (links_client w2 i f HL2 Hf) as (c1 & Hc1 & _).
  assert (client_tab w2 !! p = Some (c_handles c1)) as Hl
    by (apply client_tab_Some; exists c1; by rewrite <- Ho).
  by rewrite C2, C1, lookup_delete_eq in Hl.
Qed.

(** Nothing is waiting to be confirmed, and no lifecycle event to be applied. *)
Definition io_quiet (w : io A) : Prop :=
  (forall ctx, io_rb w = Some ctx -> rb_c ctx = None) /\ lc_refines w (Holding []).

Lemma lifecycle_sync_quiet w : lc_refines w (Holding []) -> lifecycle_sync w = Ret tt w.
Proof.
  intros [(Hq & f & r & Hf & Hr & Ec & Hp) _]. destruct (ctrl_fields f r Hf Hr) as (E1 & E2 & E3 & _).
  pose proof (lc_pending_length (lce_queue w) f r Hf Hr) as Hlen. rewrite <- Ec, Hp in Hlen.
  rewrite (lc_count_eq f r) in Hlen by done.
  unfold lifecycle_sync. mstep. rewrite Ec, E1, E2, E3. cbn [Z.eqb negb].
  rewrite (proj2 (Z.eqb_eq f r)); [done|]. unfold NUM_LC_EVENTS in *. cbn in Hlen.
  destruct (Z.ltb_spec (r - f) 0); lia.
Qed.

Lemma io_sync_quiet w : io_quiet w -> sync_confirm (S := io A) (H := io_handler) w = Ret tt w.
Proof. intros [Hc _]. apply sync_confirm_none. exact Hc. Qed.

Lemma callers_fd_quiet w i : io_quiet w ->
  callers_fd i w = get_fd_nosync (io_pid (io_sender w)) i w.
Proof.
  intros Hq. pose proof Hq as [_ Hl]. unfold callers_fd, get_fd, sender_pid.
  rewrite (bind_ret _ _ _ _ _ (io_sync_quiet w Hq)). mstep.
  by rewrite (bind_ret _ _ _ _ _ (lifecycle_sync_quiet w Hl)).
Qed.

Lemma get_fd_nosync_bad w i p : links w ->
  (i <= 0 -> get_fd_nosync p i w = Stop StAssert)
  /\ (MAX_FD < i -> get_fd_nosync p i w = Stop StFault)
  /\ (0 < i <= MAX_FD -> clients w !! p = None -> get_fd_nosync p i w = Stop StAssert)
  /\ (0 < i <= MAX_FD -> forall c, clients w !! p = Some c -> table_at c i <= 0 ->
       (forall f, fds w !! i = Some f -> owner f <> p) -> get_fd_nosync p i w = Ret None w).
Proof.
  intros HL. unfold get_fd_nosync. split_and!.
  - intros Hi. rewrite (proj2 (Z.ltb_ge 0 i)) by done. reflexivity.
  - intros Hi. rewrite (proj2 (Z.ltb_lt 0 i)) by (unfold MAX_FD in *; lia). mstep. by rewrite (proj2 (Z.ltb_lt MAX_FD i)).
  - intros [Hi Hm] Hp. rewrite (proj2 (Z.ltb_lt 0 i)), (proj2 (Z.ltb_ge MAX_FD i)) by done. mstep.
    destruct (fds w !! i) as [f|] eqn:Hf; [|by rewrite Hp].
    destruct (Z.eqb_spec (owner f) p) as [Ho|]; [|by rewrite Hp].
    destruct (links_client w i f HL Hf) as (c & Hc & _). congruence.
  - intros [Hi Hm] c Hc Ht Hf. rewrite (proj2 (Z.ltb_lt 0 i)), (proj2 (Z.ltb_ge MAX_FD i)) by done. mstep.
    destruct (fds w !! i) as [f|].
    + rewrite (proj2 (Z.eqb_neq (owner f) p)) by auto. rewrite Hc. cbn [of_option]. mstep.
      by rewrite (proj2 (Z.ltb_ge 0 _)).
    + rewrite Hc. cbn [of_option]. mstep. by rewrite (proj2 (Z.ltb_ge 0 _)).
Qed.

(** The descriptor a request is about, when it comes to be looked at. *)
Definition request_fd (r : io_request) : option Z :=
  match r with
  | ReqSetFileFlags i _ _ | ReqSetHandleFlags i _ _ | ReqWrite i _ _ | ReqRead i _ _ | ReqClose i
  | ReqDupTo i _ | ReqIsatty i => Some i
  | ReqDup i fl => if Z.land fl (bnot32 SNEKS_IO_FD_CLOEXEC) =? 0 then Some i else None
  | ReqTouch _ => None
  end.
Definition is_close (r : io_request) : bool := match r with ReqClose _ => true | _ => false end.

Lemma serve_lookup add_blocker w r i :
  io_quiet w -> request_fd r = Some i -> is_close r && (i <=? 0) = false ->
  let p := io_pid (io_sender w) in
  (forall s, get_fd_nosync p i w = Stop s -> serve add_blocker r w = Stop s)
  /\ (get_fd_nosync p i w = Ret None w -> serve add_blocker r w = Ret (- EBADF) w).
Proof.
  intros Hq Hr Hc p. pose proof (callers_fd_quiet w i Hq) as Ec. fold p in Ec. pose proof Hq as [_ Hl].
  pose proof (io_sync_quiet w Hq) as Es. pose proof (lifecycle_sync_quiet w Hl) as El.
  assert (get_fd p i w = get_fd_nosync p i w) as Eg by (unfold get_fd; by rewrite (bind_ret _ _ _ _ _ El)).
  split; [intros s E|intros E]; rewrite E in Ec, Eg; destruct r; cbn [request_fd] in Hr; try discriminate Hr;
    try (destruct (Z.land _ _ =? 0) eqn:Hfl in Hr; [|discriminate Hr]); injection Hr as ->; cbn [serve];
    unfold io_impl_set_file_flags, io_impl_set_handle_flags, io_impl_write, io_impl_read, io_impl_isatty,
      io_impl_close, io_impl_dup, io_impl_dup_to, internal_dup, sender_pid, gets, mbind, M_bind, mret, M_ret;
    rewrite ?Ec; try reflexivity; rewrite Es.
  1, 4: cbn [is_close andb] in Hc; rewrite Hc; fold p; rewrite Eg; reflexivity.
  1, 3: rewrite Hfl; cbn [negb]; fold p; rewrite Eg; reflexivity.
  all: rewrite Z.land_0_l; cbn [negb Z.eqb]; fold p; rewrite Eg; reflexivity.
Qed.

(** C26: a request about a descriptor that is none.  In a state with nothing overdue,
    a number that is not positive stops the server by a failed assertion, except for
    close; a number past the allocator's 2^16 slots has the server read outside of its
    memory; any other number stops it by an assertion when the process is not a client
    yet; only a client's number of a slot that is neither its own nor in its translation
    table is answered EBADF. *)
Theorem bad_descriptor_outcome add_blocker w r i :
  io_quiet w -> links w -> request_fd r = Some i ->
  let p := io_pid (io_sender w) in
  (i <= 0 -> serve add_blocker r w = if is_close r then Ret (- EBADF) w else Stop StAssert)
  /\ (MAX_FD < i -> serve add_blocker r w = Stop StFault)
  /\ (0 < i <= MAX_FD -> clients w !! p = None -> serve add_blocker r w = Stop StAssert)
  /\ (0 < i <= MAX_FD -> forall c, clients w !! p = Some c -> table_at c i <= 0 ->
       (forall f, fds w !! i = Some f -> owner f <> p) -> serve add_blocker r w = Ret (- EBADF) w).
Proof.
  intros Hq HL Hr p. destruct (get_fd_nosync_bad w i p HL) as (G1 & G2 & G3 & G4).
  assert (0 < i -> is_close r && (i <=? 0) = false) as Hpos.
  { intros Hi. rewrite (proj2 (Z.leb_gt i 0)) by done. by rewrite andb_false_r. }
  split_and!.
  - intros Hi. destruct (is_close r) eqn:Hc.
    + destruct r; try discriminate Hc. injection Hr as ->. cbn [serve]. unfold io_impl_close.
      rewrite (bind_ret _ _ _ _ _ (io_sync_quiet w Hq)).
      by rewrite (proj2 (Z.leb_le i 0)).
    + destruct (serve_lookup add_blocker w r i Hq Hr) as [S _]; [by rewrite Hc|]. apply S. auto.
  - intros Hi. destruct (serve_lookup add_blocker w r i Hq Hr) as [S _]; [apply Hpos; unfold MAX_FD in Hi; lia|]. apply S. auto.
  - intros Hi Hp. destruct (serve_lookup add_blocker w r i Hq Hr) as [S _]; [apply Hpos; lia|]. apply S. auto.
  - intros Hi c Hc Ht Hf. apply (serve_lookup add_blocker w r i Hq Hr); [apply Hpos; lia|]. by apply (G4 Hi c).
Qed.
End outcomes.

(** ** Witnesses *)

Definition demo_some : io Z :=
  final (@run_events Z l4_x2_32 demo_base demo_io demo_server [FileNew 0; AddFd 5 1000 0]) (io_init 0).
Definition demo_state : io Z := receive (demo_sender 6) 1 demo_some.

Lemma demo_some_runs :
  @run_events Z l4_x2_32 demo_base demo_io demo_server [FileNew 0; AddFd 5 1000 0] (io_init 0) = Ret tt demo_some.
Proof.
  refine (@final_eq Z (@run_events Z l4_x2_32 demo_base demo_io demo_server [FileNew 0; AddFd 5 1000 0]) (io_init 0) _).
  vm_compute. reflexivity.
Qed.
Lemma links_receive {A} s t (w : io A) : links w -> links (receive s t w).
Proof. done. Qed.
Lemma demo_links : links demo_state.
Proof.
  apply links_receive. exact (@io_steps_links Z l4_x2_32 demo_base demo_io demo_io_ok demo_server demo_server_ok _ nopoll_links _ (fun _ : unit => mret 0) (fun _ => preserves_ret links 0) _ _ _ (links_init 0)
    (run_events_steps _ _ _ demo_some_runs)).
Qed.
Lemma demo_quiet : io_quiet demo_state.
Proof.
  split; [intros ctx E; vm_compute in E; discriminate E|]. split; [|cbn; lia]. split; [vm_compute; reflexivity|].
  exists 0, 0. split; [lia|]. split; [lia|]. split; vm_compute; reflexivity.
Qed.

Lemma lifecycle_queue_refines_fifo_witness :
  exists w', @lifecycle_handler_fn Z demo_base [5; MPL_EXEC; 0; 0] (io_init 0) = Ret tt w'
  /\ lc_refines w' (Holding [LcEvent MPL_EXEC 5 0 (0, 0, 0)]).
Proof.
  destruct (@lifecycle_queue_refines_fifo Z demo_base demo_io demo_io_ok) as (H0 & H1 & _).
  destruct (H1 [5; MPL_EXEC; 0; 0] (io_init 0) (Holding []) (H0 0)) as (w' & E & HR).
  exists w'. split; [exact E|exact HR].
Defined.

Lemma client_exit_closes_witness :
  exists w', @lc_apply Z demo_base demo_io (LcEvent MPL_EXIT 5 0 (0, 0, 0)) demo_state = Ret tt w'
  /\ dom (fds w') = dom (fds demo_state) ∖ {[1]} /\ impl w' = 1.
Proof.
  destruct (clients demo_state !! 5) as [c|] eqn:Hc; [|vm_compute in Hc; discriminate Hc].
  destruct (client_exit_closes (A := Z) demo_state 5 c (LcEvent MPL_EXIT 5 0 (0, 0, 0))
    ltac:(intros; by do 2 eexists) ltac:(intros; by eexists) demo_links Hc eq_refl eq_refl) as (w' & E & _ & _ & D & _).
  exists w'. split; [exact E|]. split.
  - rewrite D. vm_compute in Hc. injection Hc as <-. cbn [c_handles list_to_set]. by rewrite (right_id_L ∅ (∪)).
  - vm_compute in E. injection E as <-. reflexivity.
Defined.

Lemma bad_descriptor_outcome_witness :
  @serve Z l4_x2_32 demo_base demo_io demo_server _nopoll_add_blocker (ReqRead 70000 8 0) demo_state = Stop StFault
  /\ @serve Z l4_x2_32 demo_base demo_io demo_server _nopoll_add_blocker (ReqRead 1 8 0) demo_state = Stop StAssert.
Proof.
  split.
  - destruct (@bad_descriptor_outcome Z l4_x2_32 demo_base demo_io demo_server _nopoll_add_blocker demo_state (ReqRead 70000 8 0) 70000
      demo_quiet demo_links eq_refl) as (_ & H & _). by apply H.
  - destruct (@bad_descriptor_outcome Z l4_x2_32 demo_base demo_io demo_server _nopoll_add_blocker demo_state (ReqRead 1 8 0) 1
      demo_quiet demo_links eq_refl) as (_ & _ & H & _).
    apply H; [done|]. vm_compute. reflexivity.
Defined.
