(* ===== verification/Poll.v ===== *)
(** Sneks::Poll, sys/io/pollimpl.c: waking up threads that wait for I/O, and
    notifications to those that poll.

    A client's [c_blocker] is the thread of it that sleeps in a read or a write, or
    the thread that wants notifications when CF_NOTIFY is set. *)
From S2P Require Import Prelude L4 HashUtil Rollback Containers SysIo.

Definition EPOLLIN : Z := 1.
Definition EPOLLOUT : Z := 4.
Definition EPOLLERR : Z := 8.
Definition EPOLLHUP : Z := 0x10.
Definition SIGIO : Z := 29.

Section poll.
Context {A : Type} `{!L4Abi, !IoBase}.

Definition add_blocker (i tid : Z) (writing : bool) : M (io A) Z :=
  f ← fd_at i;
  c ← client_at (owner f);
  if Z.land (c_flags c) CF_NOTIFY =? 0 then _nopoll_add_blocker i tid writing
  else halt StAbort.

Definition my_pid : Z := io_pid io_global.

(** The message is replied to whoever [c_blocker] is, CF_NOTIFY or not. *)
Definition send_poll_event (i events : Z) : M (io A) unit :=
  let events := Z.land events IOD_EPOLL_MASK in
  f ← fd_at i;
  c ← client_at (owner f);
  if (Z.land (flags f) events =? 0) || L4_IsNilThread (c_blocker c) then mret tt
  else
    ok ← io_ask (IReply (c_blocker c) [my_pid; events; i]);
    if negb (ok =? 0) then mret tt
    else
      ec ← io_ask IErrorCode;
      if negb (ec =? 2) then mret tt
      else _ ← io_ask (IKill (owner f) SIGIO); mret tt.

Definition wakes (mask : Z) (writing : bool) : bool :=
  if writing then negb (Z.land mask EPOLLOUT =? 0)
  else negb (Z.land mask (Z.lor EPOLLIN EPOLLHUP) =? 0).

(** The blocker of the client [p]. *)
Definition maybe_unblock (p mask : Z) (writing : bool) : M (io A) unit :=
  c ← client_at p;
  if wakes mask writing then
    ok ← io_ask (IReply (c_blocker c) [1; EAGAIN]);
    if negb (ok =? 0) then client_upd p (fun c => set_blocker L4_nilthread (c_flags c) c)
    else mret tt
  else mret tt.

Definition notify_handle (epoll_mask i : Z) : M (io A) unit :=
  _ ← send_poll_event i epoll_mask;
  f ← fd_at i;
  c ← client_at (owner f);
  if (Z.land (c_flags c) CF_NOTIFY =? 0) && negb (L4_IsNilThread (c_blocker c)) then
    maybe_unblock (owner f) epoll_mask (negb (Z.land (c_flags c) CF_WRITE_BLOCKED =? 0))
  else mret tt.

Definition io_notify (file epoll_mask : Z) : M (io A) unit :=
  x ← file_at file;
  mapM_ (notify_handle epoll_mask) (f_handles x).

(** The file status query that the server registered, if any. *)
Context `{!IoEnv A, !IoServer A}.
Context (get_status : option (Z -> M (io A) Z)).

(** Returns the result and the mask of events that have occurred. *)
Definition io_impl_set_notify (fdno events notify_tid : Z) : M (io A) (Z * Z) :=
  i ← callers_fd fdno;
  match i with
  | None => mret (- EBADF, 0)
  | Some i =>
      _ ← fd_upd i (fun f => set_fd_flags (Z.lor (Z.land (flags f) (bnot32 IOD_EPOLL_MASK))
                                             (Z.land events IOD_EPOLL_MASK)) f);
      f ← fd_at i;
      let status :=
        match get_status with
        | None => mret (0, 0)
        | Some fn => st ← fn (file f); mret (0, Z.land (Z.lor events EPOLLHUP) st)
        end in
      if L4_IsNilThread notify_tid then status
      else if L4_IsLocalId notify_tid then mret (- EINVAL, 0)
      else
        let p := owner f in
        c ← client_at p;
        _ ← (if Z.land (c_flags c) CF_NOTIFY =? 0 then
               _ ← client_upd p (fun c => set_blocker (c_blocker c) (Z.lor (c_flags c) CF_NOTIFY) c);
               if negb (L4_IsNilThread (c_blocker c)) then
                 _ ← add_blocker i (c_blocker c) (negb (Z.land (c_flags c) CF_WRITE_BLOCKED =? 0));
                 mret tt
               else mret tt
             else mret tt);
        _ ← client_upd p (fun c => set_blocker notify_tid (c_flags c) c);
        status
  end.

(** One handle of a status query; [notif] is what the caller wants to hear of. *)
Definition status_of_handle (fn : Z -> M (io A) Z) (pid h : Z) (notif : option Z) : M (io A) Z :=
  i ← get_fd pid h;
  match i with
  | None => mret 0
  | Some i =>
      f ← fd_at i;
      st ← fn (file f);
      _ ← match notif with
          | Some ev => fd_upd i (fun f => set_fd_flags (Z.lor (Z.land (flags f) (bnot32 IOD_EPOLL_MASK))
                                                        (Z.land ev IOD_EPOLL_MASK)) f)
          | None => mret tt
          end;
      mret st
  end.
Fixpoint status_of_handles (fn : Z -> M (io A) Z) (pid : Z) (handles notif : list Z) : M (io A) (list Z) :=
  match handles with
  | [] => mret []
  | h :: handles =>
      st ← status_of_handle fn pid h (head notif);
      sts ← status_of_handles fn pid handles (tail notif);
      mret (st :: sts)
  end.
Definition io_impl_get_status (handles notif : list Z) : M (io A) (list Z) :=
  _ ← sync_confirm;
  match get_status with
  | None => halt StAbort
  | Some fn => pid ← sender_pid; status_of_handles fn pid handles notif
  end.
End poll.
