(* ===== verification/PollProps.v ===== *)
(** Whom a notification wakes up. *)
From S2P Require Import Prelude L4 HashUtil Rollback Containers SysIo SysIoProps SysIoEventProps Poll.

(** ** Frames *)

Section frame.
Context {A : Type}.
Implicit Type w : io A.

Lemma frame_refl w : cb_frame w w.
Proof. done. Qed.
Lemma frame_trans w1 w2 w3 : cb_frame w1 w2 -> cb_frame w2 w3 -> cb_frame w1 w3.
Proof.
  intros ((A1 & A2 & A3 & A4) & A5 & A6) ((B1 & B2 & B3 & B4) & B5 & B6).
  unfold cb_frame, same_links. split_and!; congruence.
Qed.

(** From [w0] on, nothing has happened that a callback may not do. *)
Lemma frame_step w0 w1 w2 : cb_frame w1 w2 -> cb_frame w0 w1 -> cb_frame w0 w2.
Proof. intros H1 H2. exact (frame_trans _ _ _ H2 H1). Qed.
Lemma frame_ask `{!IoBase} w0 c : preserves (cb_frame w0) (io_ask (A := A) c).
Proof. intros w r w' HF [= _ <-]. refine (frame_step _ w _ _ HF). done. Qed.
Lemma frame_fd_at w0 i : preserves (cb_frame w0) (fd_at (A := A) i).
Proof. unfold fd_at. eauto with preserves. Qed.
Lemma frame_file_at w0 i : preserves (cb_frame w0) (file_at (A := A) i).
Proof. unfold file_at. eauto with preserves. Qed.
Lemma frame_client_at w0 i : preserves (cb_frame w0) (client_at (A := A) i).
Proof. unfold client_at. eauto with preserves. Qed.
Lemma frame_client_upd w0 p g : (forall c, c_handles (g c) = c_handles c) ->
  preserves (cb_frame w0) (client_upd (A := A) p g).
Proof.
  intros Hg. apply preserves_modify. intros w. apply frame_step.
  split; [by apply same_links_client|done].
Qed.
Lemma frame_impl w0 g : preserves (cb_frame w0) (modify (fun w : io A => set_impl (g w) w)).
Proof. apply preserves_modify. intros w. by apply frame_step. Qed.
Lemma frame_mapM w0 {B} (g : B -> M (io A) unit) l :
  (forall x, preserves (cb_frame w0) (g x)) -> preserves (cb_frame w0) (mapM_ g l).
Proof. intros Hg. induction l; cbn; eauto with preserves. Qed.
End frame.
#[export] Hint Resolve frame_ask frame_fd_at frame_file_at frame_client_at frame_client_upd frame_impl
  frame_mapM : preserves.

Ltac frames := repeat first
  [ solve [trivial with preserves]
  | apply preserves_bind; [solve [eauto 3 with preserves]|intros ?]
  | apply preserves_if
  | case_match
  | solve [eauto 4 with preserves]
  | apply preserves_bind; [|intros ?] ].

Section notify.
Context {A : Type} `{!L4Abi, !IoBase}.
Implicit Type w : io A.

Lemma send_poll_event_frame w0 i e : preserves (cb_frame w0) (send_poll_event (A := A) i e).
Proof. unfold send_poll_event. frames. Qed.
Hint Resolve send_poll_event_frame : preserves.
Lemma notify_handle_frame w0 m i : preserves (cb_frame w0) (notify_handle (A := A) m i).
Proof. unfold notify_handle, maybe_unblock. frames. Qed.
Hint Resolve notify_handle_frame : preserves.
Lemma io_notify_frame w0 x m : preserves (cb_frame w0) (io_notify (A := A) x m).
Proof. unfold io_notify. frames. Qed.

Lemma poll_add_blocker_links i t b : preserves links (add_blocker (A := A) i t b).
Proof.
  unfold add_blocker. apply preserves_bind; [apply links_fd_at|intros f].
  apply preserves_bind; [apply links_client_at|intros c].
  apply preserves_if; [apply nopoll_links|apply preserves_halt].
Qed.

(** *** Waking up *)

(** The client [c] has a thread that sleeps and that events of [mask] wake up. *)
Definition sleeper (mask : Z) (c : client) : bool :=
  (Z.land (c_flags c) CF_NOTIFY =? 0) && negb (L4_IsNilThread (c_blocker c))
  && wakes mask (negb (Z.land (c_flags c) CF_WRITE_BLOCKED =? 0)).

Definition wake_call (tid : Z) : iocall := IReply tid [1; EAGAIN].
Definition grown (w w' : io A) : Prop := exists l, io_trace w' = l ++ io_trace w.

Lemma grown_refl w : grown w w.
Proof. by exists []. Qed.
Lemma grown_trans w1 w2 w3 : grown w1 w2 -> grown w2 w3 -> grown w1 w3.
Proof. intros [l1 E1] [l2 E2]. exists (l2 ++ l1). by rewrite E2, E1, app_assoc. Qed.
Lemma grown_elem w w' c : grown w w' -> c ∈ io_trace w -> c ∈ io_trace w'.
Proof. intros [l ->] Hc. apply elem_of_app. by right. Qed.

Lemma send_poll_event_run i e w f c :
  fds w !! i = Some f -> clients w !! owner f = Some c ->
  exists w', send_poll_event i e w = Ret tt w' /\ fds w' = fds w /\ clients w' = clients w /\ grown w w'.
Proof.
  intros Hf Hc. unfold send_poll_event, fd_at, client_at. mstep. rewrite Hf. cbn [of_option]. mstep.
  rewrite Hc. cbn [of_option]. mstep.
  destruct (_ || _); [eexists; split_and!; try done; apply grown_refl|].
  unfold io_ask. unfold mbind, M_bind.
  destruct (negb _); [eexists; split_and!; try done; by eexists [_]|].
  destruct (negb _); [eexists; split_and!; try done; by eexists [_; _]|].
  eexists; split_and!; try done. by eexists [_; _; _].
Qed.

Lemma notify_handle_run m i w f c :
  fds w !! i = Some f -> clients w !! owner f = Some c ->
  exists w', notify_handle m i w = Ret tt w' /\ grown w w'
  /\ (if sleeper m c then
        wake_call (c_blocker c) ∈ io_trace w'
        /\ (clients w' = alter (fun c => set_blocker L4_nilthread (c_flags c) c) (owner f) (clients w)
            \/ clients w' = clients w /\ exists t, io_env t (wake_call (c_blocker c)) = 0)
      else clients w' = clients w).
Proof.
  intros Hf Hc. destruct (send_poll_event_run i m w f c Hf Hc) as (w1 & E1 & F1 & C1 & G1).
  unfold notify_handle. rewrite (bind_ret _ _ _ _ _ E1). unfold fd_at, client_at. mstep.
  rewrite F1, Hf. cbn [of_option]. mstep. rewrite C1, Hc. cbn [of_option]. mstep.
  unfold sleeper. destruct (_ && negb _); cbn [andb].
  2:{ exists w1. by split_and!. }
  unfold maybe_unblock, client_at. mstep. rewrite C1, Hc. cbn [of_option]. mstep.
  destruct (wakes _ _).
  2:{ exists w1. by split_and!. }
  unfold io_ask. unfold mbind at 1, M_bind at 1. fold (wake_call (c_blocker c)).
  destruct (Z.eqb_spec (io_env (io_trace w1) (wake_call (c_blocker c))) 0) as [E0|_]; cbn [negb].
  - eexists. split; [done|]. split; [apply (grown_trans _ w1); [done|by exists [wake_call (c_blocker c)]]|].
    split; [left|]. right. cbn. eauto.
  - eexists. split; [done|]. split; [apply (grown_trans _ w1); [done|by exists [wake_call (c_blocker c)]]|].
    split; [left|]. left. cbn. by rewrite C1.
Qed.

(** The state while a notification goes through the handles of a file: the sleeper of
    the client [p] is the thread [t], or it has been sent for. *)
Definition waking (m p t : Z) (done : bool) (w : io A) : Prop :=
  exists c, clients w !! p = Some c /\
  (if sleeper m c then c_blocker c = t /\
     (done = true -> wake_call t ∈ io_trace w /\ exists tr, io_env tr (wake_call t) = 0)
   else wake_call t ∈ io_trace w /\ c_blocker c = L4_nilthread).

Lemma frame_fd w w' i f : cb_frame w w' -> fds w !! i = Some f ->
  exists f', fds w' !! i = Some f' /\ owner f' = owner f.
Proof.
  intros ((HO & _) & _) Hf.
  destruct (proj1 (owners_Some w' i (owner f) (client_ix f))) as (f' & Hf' & Ho & _).
  { rewrite HO. apply owners_Some. eauto. }
  eauto.
Qed.
Lemma frame_client w w' p c : cb_frame w w' -> clients w !! p = Some c -> is_Some (clients w' !! p).
Proof.
  intros ((_ & _ & HC & _) & _) Hc.
  assert (client_tab w' !! p = Some (c_handles c)) as Hl by (rewrite HC; apply client_tab_Some; eauto).
  apply client_tab_Some in Hl as (c' & Hc' & _). eauto.
Qed.

Lemma not_sleeper m c : c_blocker c = L4_nilthread -> sleeper m c = false.
Proof. intros E. unfold sleeper, L4_IsNilThread. by rewrite E, Z.eqb_refl, andb_false_r. Qed.

Lemma notify_handle_waking m p t b i w f :
  links w -> fds w !! i = Some f -> t <> L4_nilthread -> waking m p t b w ->
  exists w', notify_handle m i w = Ret tt w' /\ cb_frame w w'
             /\ waking m p t (b || (owner f =? p)) w'.
Proof.
  intros HL Hf Ht (c & Hc & Hw). destruct (links_client w i f HL Hf) as (d & Hd & _).
  destruct (notify_handle_run m i w f d Hf Hd) as (w' & E & G & Hs). exists w'. split; [done|].
  split; [exact (notify_handle_frame w m i w tt w' (frame_refl w) E)|].
  destruct (Z.eqb_spec (owner f) p) as [Ho|Ho].
  - subst p. assert (d = c) as -> by congruence. rewrite orb_true_r. destruct (sleeper m c) eqn:Esl.
    + destruct Hw as [Hb _]. rewrite Hb in Hs. destruct Hs as [Hin [Hcl|[Hcl Hx]]].
      * exists (set_blocker L4_nilthread (c_flags c) c). rewrite Hcl, lookup_alter_eq, Hc. split; [done|].
        by rewrite not_sleeper.
      * exists c. rewrite Hcl, Esl. by split_and!.
    + exists c. rewrite Hs, Esl. split; [done|]. destruct Hw. split; [by apply (grown_elem w)|done].
  - rewrite orb_false_r.
    assert (clients w' !! p = Some c) as Hc'.
    { destruct (sleeper m d); [|by rewrite Hs].
      destruct Hs as [_ [->|[-> _]]]; [by rewrite lookup_alter_ne|done]. }
    exists c. split; [done|]. destruct (sleeper m c).
    + destruct Hw as [Hb Hd']. split; [done|]. intros Hb'. destruct (Hd' Hb') as [Hin Hx].
      split; [by apply (grown_elem w)|done].
    + destruct Hw. split; [by apply (grown_elem w)|done].
Qed.

Lemma notify_handles_waking m p t l : forall b w,
  links w -> (forall i, i ∈ l -> is_Some (fds w !! i)) -> t <> L4_nilthread -> waking m p t b w ->
  exists w', mapM_ (notify_handle m) l w = Ret tt w' /\ cb_frame w w'
  /\ waking m p t (b || existsb (fun i => match fds w !! i with Some f => owner f =? p | None => false end) l) w'.
Proof.
  induction l as [|i l IH]; intros b w HL Hl Ht Hw.
  { exists w. split; [done|]. split; [apply frame_refl|]. by rewrite orb_false_r. }
  destruct (Hl i) as [f Hf]; [by left|].
  destruct (notify_handle_waking m p t b i w f HL Hf Ht Hw) as (w1 & E1 & F1 & W1).
  destruct (IH (b || (owner f =? p)) w1) as (w2 & E2 & F2 & W2); [| |done|done|].
  - exact (links_same _ _ (proj1 F1) HL).
  - intros j Hj. destruct (Hl j) as [g Hg]; [by right|].
    destruct (frame_fd _ _ _ _ F1 Hg) as (g' & -> & _). eauto.
  - exists w2. cbn [mapM_ existsb]. rewrite (bind_ret _ _ _ _ _ E1). split; [done|].
    split; [exact (frame_trans _ _ _ F1 F2)|]. rewrite Hf, orb_assoc.
    assert (forall k, (forall j, j ∈ k -> is_Some (fds w !! j)) ->
      existsb (fun i => match fds w !! i with Some f => owner f =? p | None => false end) k
      = existsb (fun i => match fds w1 !! i with Some f => owner f =? p | None => false end) k) as Hex.
    { intros k. induction k as [|j k IHk]; intros Hk; [done|]. cbn [existsb]. f_equal.
      - destruct (Hk j) as [g Hg]; [by left|]. destruct (frame_fd _ _ _ _ F1 Hg) as (g' & -> & ->). by rewrite Hg.
      - apply IHk. intros j' Hj'. apply Hk. by right. }
    rewrite (Hex l); [done|]. intros j Hj. apply Hl. by right.
Qed.

Lemma notify_wakes file mask p t w i f c :
  links w -> fds w !! i = Some f -> SysIo.file f = file -> owner f = p ->
  clients w !! p = Some c -> sleeper mask c = true -> c_blocker c = t ->
  exists w', io_notify file mask w = Ret tt w' /\ cb_frame w w' /\ wake_call t ∈ io_trace w'
  /\ ((forall tr, io_env tr (wake_call t) <> 0) ->
      exists c', clients w' !! p = Some c' /\ c_blocker c' = L4_nilthread).
Proof.
  intros HL Hf Hfile Ho Hc Hs Hb. destruct (links_file w i f HL Hf) as (x & Hx & Hxi). rewrite Hfile in Hx.
  assert (t <> L4_nilthread) as Ht.
  { intros ->. apply (not_sleeper mask c) in Hb. congruence. }
  destruct (notify_handles_waking mask p t (f_handles x) false w HL) as (w' & E & F & W); [|done| |].
  - intros j [k Hk]%list_elem_of_lookup. destruct (links_file_handle w file x k j HL Hx Hk) as (g & Hg & _). eauto.
  - exists c. rewrite Hs. done.
  - assert (existsb (fun i => match fds w !! i with Some f => owner f =? p | None => false end) (f_handles x) = true) as Hex.
    { apply existsb_exists. exists i. split; [apply list_elem_of_In, list_elem_of_lookup; eauto|].
      rewrite Hf. by apply Z.eqb_eq. }
    rewrite Hex in W. cbn [orb] in W. exists w'. unfold io_notify, file_at. mstep. rewrite Hx. cbn [of_option]. mstep.
    split; [done|]. split; [done|]. destruct W as (c' & Hc' & W).
    destruct (sleeper mask c'); [|destruct W as [W1 W2]; eauto].
    destruct W as [_ W]. destruct (W eq_refl) as [W1 [tr W2]]. split; [done|].
    intros Henv. by destruct (Henv tr).
Qed.

(** C23: no lost wake-up.  When a thread sleeps in a read or a write of some handle of
    a client, and a notification comes for a file the client has a handle of, with an
    event that ends such a wait, then the notification goes through, whatever the
    other clients of the file are and however IPC to them fares, and the thread is
    sent EAGAIN, upon which it tries again; when that message is taken, the client
    has no sleeper any more. *)
Theorem io_notify_wakes file mask p t w i f c :
  links w -> fds w !! i = Some f -> SysIo.file f = file -> owner f = p ->
  clients w !! p = Some c -> sleeper mask c = true -> c_blocker c = t ->
  exists w', io_notify file mask w = Ret tt w' /\ cb_frame w w' /\ wake_call t ∈ io_trace w'
  /\ ((forall tr, io_env tr (wake_call t) <> 0) ->
      exists c', clients w' !! p = Some c' /\ c_blocker c' = L4_nilthread).
Proof.
  apply notify_wakes.
Qed.
End notify.

(** Thread 77 of process 5 sleeps in a read of descriptor 1, a handle of file 1000. *)
Definition demo_asleep : io Z :=
  set_clients (alter (fun c => set_blocker 77 (c_flags c) c) 5 (clients demo_state)) demo_state.

Lemma io_notify_wakes_witness :
  exists w', @io_notify Z l4_x2_32 demo_base 1000 EPOLLIN demo_asleep = Ret tt w' /\ wake_call 77 ∈ io_trace w'
  /\ exists c', clients w' !! 5 = Some c' /\ c_blocker c' = L4_nilthread.
Proof.
  assert (links demo_asleep) as HL.
  { apply (links_same demo_state); [by apply same_links_client|exact demo_links]. }
  destruct (fds demo_asleep !! 1) as [f|] eqn:Hf; [|vm_compute in Hf; discriminate Hf].
  destruct (clients demo_asleep !! 5) as [c|] eqn:Hc; [|vm_compute in Hc; discriminate Hc].
  vm_compute in Hf. vm_compute in Hc.
  destruct (@io_notify_wakes Z l4_x2_32 demo_base 1000 EPOLLIN 5 77 demo_asleep 1 f c HL)
    as (w' & E & _ & Hin & Hw); try (injection Hf as <-; reflexivity);
    try (injection Hc as <-; reflexivity).
  exists w'. split; [exact E|]. split; [exact Hin|]. apply Hw. intros tr E0. discriminate E0.
Defined.
