(* ===== verification/Chrdev.v ===== *)
(** Character device servers: sys/chrdev over sys/io, the pipe buffer of
    sys/pipe/pipeserv.c and the devices of sys/null/nullserv.c. *)
From S2P Require Import Prelude L4 HashUtil Rollback Containers SysIo Poll.

Definition O_RDONLY : Z := 0.
Definition O_WRONLY : Z := 1.
Definition O_RDWR : Z := 2.
Definition O_NONBLOCK : Z := 0x800.
Definition O_CLOEXEC : Z := 0x80000.
Definition ENODEV : Z := 19.
Definition ENOSPC : Z := 28.

(** lib/sysmacros.c *)
Definition _sneks_major (dev : Z) : Z := Z.land (Z.shiftr dev 15) 0x7fff.
Definition _sneks_minor (dev : Z) : Z := Z.land dev 0x7fff.
Definition _sneks_makedev (major minor : Z) : Z :=
  Z.lor (Z.shiftl (Z.land major 0x7fff) 15) (Z.land minor 0x7fff).

(** ** sys/chrdev *)

(** The constructors among the callbacks of sys/chrdev/func.c. *)
Class ChrdevEnv (A : Type) := {
  cd_pipe : Z -> Z -> Z -> M (io A) Z;                 (* read side, write side, flags *)
  cd_dev_open : Z -> Z -> Z -> Z -> Z -> M (io A) Z    (* file, type, major, minor, flags *)
}.

Section chrdev.
Context {A : Type} `{!L4Abi, !IoBase, !IoEnv A}.

Definition chrdev_rollback (files : list Z) : M (io A) unit :=
  mapM_ (fun f =>
    if f =? 0 then mret tt else _ ← cb_close f; iof_undo_new f) files.

#[export] Instance chrdev_server : IoServer A := { cb_rollback := chrdev_rollback }.

Context `{!ChrdevEnv A}.

Definition add_rollback (a b : Z) : M (io A) unit := set_rollback (Some (ServerRollback [a; b])).

(** A file pointer, null for none. *)
Definition file_ptr (f : option Z) : Z := default 0 f.

(** Returns the result and the two descriptors. *)
Definition chrdev_pipe (flags : Z) : M (io A) (Z * Z * Z) :=
  _ ← sync_confirm;
  let h_flags := if Z.land flags O_CLOEXEC =? 0 then 0 else IOD_CLOEXEC in
  let f_flags := if Z.land flags O_NONBLOCK =? 0 then 0 else IOF_NONBLOCK in
  readf ← iof_new f_flags;
  writef ← iof_new f_flags;
  let fail n := _ ← iof_undo_new (file_ptr readf); _ ← iof_undo_new (file_ptr writef); mret (n, 0, 0) in
  match readf, writef with
  | Some r, Some w =>
      n ← cd_pipe r w flags;
      if n <? 0 then fail n
      else
        caller ← sender_pid;
        rd ← io_add_fd caller r h_flags;
        wr ← io_add_fd caller w h_flags;
        if (rd <? 0) || (wr <? 0) then fail (Z.min rd wr)
        else _ ← add_rollback r w; mret (0, rd, wr)
  | _, _ => fail (- ENOMEM)
  end.

(** The device type by the top bits of the object number: a string literal indexed *)
Definition dev_type (object : Z) : Z :=
  nth (Z.to_nat (Z.land (Z.shiftr object 30) 3)) [46; 46; 99; 46] 0.

(** [actual] is the sender of a propagated message.  Returns the result and the
    descriptor. *)
Definition chrdev_open (actual : option Z) (object flags : Z) : M (io A) (Z * Z) :=
  _ ← sync_confirm;
  sender ← gets io_sender;
  let known := Z.lor (Z.lor O_RDONLY O_WRONLY) (Z.lor O_RDWR (Z.lor O_CLOEXEC O_NONBLOCK)) in
  if negb (Z.land flags (bnot32 known) =? 0) then mret (- EINVAL, 0)
  else if io_pid (default sender actual) <? SNEKS_MIN_SYSID then mret (- EINVAL, 0)
  else
    file ← iof_new (if Z.land flags O_NONBLOCK =? 0 then 0 else IOF_NONBLOCK);
    match file with
    | None => mret (- ENOMEM, 0)
    | Some f =>
        n ← cd_dev_open f (dev_type object) (_sneks_major object) (_sneks_minor object) flags;
        n ← (if n =? 0 then
               io_add_fd (io_pid sender) f (if Z.land flags O_CLOEXEC =? 0 then 0 else IOD_CLOEXEC)
             else mret n);
        if n <? 0 then _ ← iof_undo_new f; mret (n, 0)
        else _ ← add_rollback f 0; mret (0, n)
    end.

(** The requests such a server has besides Sneks::IO. *)
Inductive chrdev_request :=
| ReqPipe (flags : Z)
| ReqOpen (actual : option Z) (object flags : Z)
| ReqSeek
| ReqIoctl
| ReqSetNotify (fdno events notify_tid : Z)
| ReqGetStatus (handles notif : list Z).

Definition chrdev_serve (get_status : option (Z -> M (io A) Z)) (r : chrdev_request) : M (io A) Z :=
  match r with
  | ReqPipe fl => r ← chrdev_pipe fl; mret r.1.1
  | ReqOpen actual object fl => r ← chrdev_open actual object fl; mret r.1
  | ReqSeek => mret (- ESPIPE)
  | ReqIoctl => mret (- ENOSYS)
  | ReqSetNotify i ev tid => r ← io_impl_set_notify get_status i ev tid; mret r.1
  | ReqGetStatus hs notif => _ ← io_impl_get_status get_status hs notif; mret 0
  end.
End chrdev.

(** The constructors a server has not set. *)
Definition enosys {A} : M (io A) Z := mret (- ENOSYS).
Definition no_device {A} (a b c d e : Z) : M (io A) Z := mret (- ENODEV).
Definition no_lifecycle {A} (a : Z) (b : lifecycle_tag) : M (io A) unit := mret tt.

(** ** sys/null *)

Inductive null_dev := DEV_NULL | DEV_ZERO | DEV_FULL.

Section null.
(** The server's state: what each file is. *)
Notation A := (gmap Z null_dev).

Definition null_dev_of (f : Z) : M (io A) null_dev := w ← get; of_option StFault (impl w !! f).

Definition null_get_status (f : Z) : M (io A) Z :=
  d ← null_dev_of f;
  mret (match d with
        | DEV_NULL => EPOLLOUT
        | DEV_ZERO | DEV_FULL => Z.lor EPOLLIN EPOLLOUT
        end).

Definition null_read (f count offset : Z) : M (io A) (Z * list Z) :=
  d ← null_dev_of f;
  mret (match d with
        | DEV_NULL => (0, [])
        | DEV_FULL | DEV_ZERO => (count, replicate (Z.to_nat count) 0)
        end).

Definition null_write (f : Z) (buf : list Z) (offset : Z) : M (io A) Z :=
  d ← null_dev_of f;
  mret (match d with
        | DEV_FULL => - ENOSPC
        | DEV_NULL | DEV_ZERO => Z.of_nat (length buf)
        end).

Definition null_close (f : Z) : M (io A) Z := mret 0.

Definition null_open (f type major minor flags : Z) : M (io A) Z :=
  let d := if minor =? 3 then Some DEV_NULL else if minor =? 5 then Some DEV_ZERO
           else if minor =? 7 then Some DEV_FULL else None in
  match d with
  | Some d =>
      if (type =? 99) && (major =? 1) then
        _ ← modify (fun w => set_impl (<[f := d]> (impl w)) w); mret 0
      else mret (- ENODEV)
  | None => mret (- ENODEV)
  end.

#[export] Instance null_env : IoEnv A := {|
  cb_read := null_read;
  cb_write := null_write;
  cb_close := null_close;
  cb_confirm := None;
  cb_lifecycle := no_lifecycle
|}.
#[export] Instance null_chrdev : ChrdevEnv A := {|
  cd_pipe _ _ _ := enosys;
  cd_dev_open := null_open
|}.
End null.

(** ** sys/pipe *)

Definition PIPESZ : Z := 4096.
Definition WRITER : Z := 1.

(** CCAN's membuf: bytes in use and space after them.  Space is written to before the
    bytes in it are added; preparing it may move what is in use, and never extends
    the buffer of a pipe. *)
Class Membuf := {
  mb : Type;
  membuf_init : Z -> mb;
  membuf_elems : mb -> list Z;
  membuf_num_space : mb -> Z;
  membuf_prepare_space : Z -> mb -> mb;
  membuf_put : list Z -> mb -> mb;      (* memcpy() to membuf_space() *)
  membuf_added : Z -> mb -> mb;
  membuf_consume : Z -> mb -> mb
}.

Record pipehead `{Membuf} := PipeHead { buf : mb; readf : Z; writef : Z }.
(** What the server keeps in a file: the address of the head, and flags. *)
Record chrfile := ChrFile { f_head : Z; chr_flags : Z }.
Record pipes `{Membuf} := Pipes { heads : gmap Z pipehead; chrfiles : gmap Z chrfile }.

Arguments PipeHead {_}.
Arguments Pipes {_}.

Section pipe.
Context `{Membuf, !L4Abi, !IoBase}.

Definition set_heads (x : gmap Z pipehead) (w : io pipes) : io pipes :=
  set_impl (Pipes x (chrfiles (impl w))) w.
Definition set_chrfiles (x : gmap Z chrfile) (w : io pipes) : io pipes :=
  set_impl (Pipes (heads (impl w)) x) w.

Definition chr_at (f : Z) : M (io pipes) chrfile := w ← get; of_option StFault (chrfiles (impl w) !! f).
Definition head_at (h : Z) : M (io pipes) pipehead := w ← get; of_option StFault (heads (impl w) !! h).
Definition head_upd (h : Z) (g : pipehead -> pipehead) : M (io pipes) unit :=
  modify (fun w => set_heads (alter g h (heads (impl w))) w).
Definition buf_upd (h : Z) (g : mb -> mb) : M (io pipes) unit :=
  head_upd h (fun hd => PipeHead (g (buf hd)) (readf hd) (writef hd)).

Definition IS_FULL (hd : pipehead) : bool := membuf_num_space (buf hd) =? 0.
Definition IS_EMPTY (hd : pipehead) : bool := bool_decide (membuf_elems (buf hd) = []).
Definition is_writer (c : chrfile) : bool := negb (Z.land (chr_flags c) WRITER =? 0).

Definition pipe_pipe (readf writef flags : Z) : M (io pipes) Z :=
  hd ← io_ask (IServerMalloc 0);
  firstbuf ← io_ask (IServerMalloc 1);
  w ← get;
  if (hd =? 0) || (firstbuf =? 0) || bool_decide (is_Some (heads (impl w) !! hd)) then mret (- ENOMEM)
  else
    _ ← modify (fun w => set_heads (<[hd := PipeHead (membuf_init PIPESZ) readf writef]> (heads (impl w))) w);
    _ ← modify (fun w => set_chrfiles (<[readf := ChrFile hd 0]> (chrfiles (impl w))) w);
    _ ← modify (fun w => set_chrfiles (<[writef := ChrFile hd WRITER]> (chrfiles (impl w))) w);
    mret 0.

Definition pipe_close (f : Z) : M (io pipes) Z :=
  c ← chr_at f;
  hd ← head_at (f_head c);
  _ ← (if is_writer c then
         _ ← assert_ (writef hd =? f);
         head_upd (f_head c) (fun hd => PipeHead (buf hd) (readf hd) 0)
       else
         _ ← assert_ (readf hd =? f);
         head_upd (f_head c) (fun hd => PipeHead (buf hd) 0 (writef hd)));
  hd ← head_at (f_head c);
  _ ← (if (writef hd =? 0) && (readf hd =? 0) then
         modify (fun w => set_heads (delete (f_head c) (heads (impl w))) w)
       else if writef hd =? 0 then io_notify (readf hd) EPOLLHUP
       else mret tt);
  mret 0.

Definition pipe_get_status (f : Z) : M (io pipes) Z :=
  c ← chr_at f;
  hd ← head_at (f_head c);
  if is_writer c then
    if readf hd =? 0 then mret EPOLLERR
    else
      _ ← buf_upd (f_head c) (membuf_prepare_space 1);
      hd ← head_at (f_head c);
      mret (if IS_FULL hd then 0 else EPOLLOUT)
  else if negb (IS_EMPTY hd) then mret EPOLLIN
  else if writef hd =? 0 then mret EPOLLHUP
  else mret 0.

Definition pipe_write (f : Z) (bytes : list Z) (offset : Z) : M (io pipes) Z :=
  if 0 <=? offset then mret (- ESPIPE)
  else
    c ← chr_at f;
    hd ← head_at (f_head c);
    if readf hd =? 0 then mret (- EPIPE)
    else if bool_decide (bytes = []) then mret 0
    else
      _ ← buf_upd (f_head c) (membuf_prepare_space (Z.of_nat (length bytes)));
      hd ← head_at (f_head c);
      let was_empty := IS_EMPTY hd in
      if IS_FULL hd then mret (- EWOULDBLOCK)
      else
        let written := Z.min (Z.of_nat (length bytes)) (membuf_num_space (buf hd)) in
        _ ← buf_upd (f_head c) (membuf_put (take (Z.to_nat written) bytes));
        _ ← (if was_empty then io_notify (readf hd) EPOLLIN else mret tt);
        mret written.

Definition pipe_read (f count offset : Z) : M (io pipes) (Z * list Z) :=
  if 0 <=? offset then mret (- ESPIPE, [])
  else
    c ← chr_at f;
    hd ← head_at (f_head c);
    if IS_EMPTY hd then
      if negb (writef hd =? 0) then mret (- EWOULDBLOCK, []) else mret (0, [])
    else
      _ ← buf_upd (f_head c) (membuf_prepare_space 1);
      hd ← head_at (f_head c);
      let was_full := IS_FULL hd in
      let got := Z.min count (Z.of_nat (length (membuf_elems (buf hd)))) in
      let bytes := take (Z.to_nat got) (membuf_elems (buf hd)) in
      _ ← (if negb (writef hd =? 0) && (0 <? got) && was_full then io_notify (writef hd) EPOLLOUT
           else mret tt);
      mret (got, bytes).

Definition pipe_confirm (f count offset : Z) (writing : bool) : M (io pipes) unit :=
  _ ← assert_ (offset <? 0);
  c ← chr_at f;
  if negb (eqb writing (is_writer c)) then halt StAbort
  else if is_writer c then buf_upd (f_head c) (membuf_added count)
  else buf_upd (f_head c) (membuf_consume count).

Definition pipe_ioctl (f request : Z) : M (io pipes) Z := mret (- EINVAL).

#[export] Instance pipe_env : IoEnv pipes := {|
  cb_read := pipe_read;
  cb_write := pipe_write;
  cb_close := pipe_close;
  cb_confirm := Some pipe_confirm;
  cb_lifecycle := no_lifecycle
|}.
#[export] Instance pipe_chrdev : ChrdevEnv pipes := {|
  cd_pipe := pipe_pipe;
  cd_dev_open := no_device
|}.

(** main() *)
Definition pipe_init : io pipes :=
  let w := io_init (Pipes ∅ ∅) in
  Io (fds w) (files w) (clients w) (transfers w) (listening w) (lce_queue w) (lce_ctrl w) (io_rb w)
     (io_sender w) (io_tag w) (io_no_reply w) IO_CONFIRM_CLOSE (impl w) (io_trace w).
End pipe.
