(* ===== verification/ChrdevProps.v ===== *)
(** The pipe server: bytes come out in the order they went in, whatever replies are
    lost; readers are woken up; and what happens at the wrong end of a pipe.  The
    callbacks of the character device servers keep to what the I/O server library
    asks of them. *)
From S2P Require Import Prelude L4 HashUtil Rollback Containers SysIo SysIoProps Poll PollProps Chrdev.

(** ** Interfaces *)

(** What is relied on of CCAN's membuf. *)
Class MembufOk `{Membuf} : Prop := {
  init_elems n : membuf_elems (membuf_init n) = [];
  prepare_elems n b : membuf_elems (membuf_prepare_space n b) = membuf_elems b;
  space_nonneg b : 0 <= membuf_num_space b;
  put_elems l b : membuf_elems (membuf_put l b) = membuf_elems b;
  added_put l b : Z.of_nat (length l) <= membuf_num_space b ->
    membuf_elems (membuf_added (Z.of_nat (length l)) (membuf_put l b)) = membuf_elems b ++ l;
  consume_elems n b : 0 <= n <= Z.of_nat (length (membuf_elems b)) ->
    membuf_elems (membuf_consume n b) = drop (Z.to_nat n) (membuf_elems b)
}.

Class ChrdevEnvOk (A : Type) `{!ChrdevEnv A} : Prop := {
  cd_pipe_ok r w fl w0 : preserves (cb_frame w0) (cd_pipe r w fl);
  cd_dev_open_ok f t a b fl w0 : preserves (cb_frame w0) (cd_dev_open f t a b fl)
}.

Section chrdev_links.
Context {A : Type} `{!L4Abi, !IoBase, !IoEnv A, !IoEnvOk A}.

(** The calls of the library that a server uses. *)
Ltac library_call := first
  [ simple apply sync_confirm_links | simple apply io_add_fd_links | simple apply get_fd_links
  | simple apply callers_fd_links | simple apply iof_undo_new_links | simple apply iof_new_links
  | simple apply poll_add_blocker_links | simple apply set_rollback_links ].
Ltac pres := repeat first
  [ solve [trivial with preserves]
  | solve [library_call]
  | apply preserves_bind; [solve [library_call | eauto 3 with preserves]|intros ?]
  | apply preserves_if
  | case_match
  | solve [eauto 4 with preserves]
  | apply preserves_bind; [|intros ?] ].

Lemma close_links_frame f : preserves links (cb_close (A := A) f).
Proof. apply frame_links. intros w r w'. apply cb_close_ok. Qed.
Hint Resolve close_links_frame : preserves.

#[export] Instance chrdev_server_ok : IoServerOk A.
Proof.
  split. intros l. cbn. unfold chrdev_rollback. apply links_mapM. intros f. pres.
Qed.

Context `{!ChrdevEnv A, !ChrdevEnvOk A}.
Context (get_status : option (Z -> M (io A) Z)).
Context (Hst : forall fn f w0, get_status = Some fn -> preserves (cb_frame w0) (fn f)).

Lemma links_of_frames {B} (m : M (io A) B) : (forall w0, preserves (cb_frame w0) m) -> preserves links m.
Proof.
  intros Hm. apply frame_links. intros w r w' E. exact (Hm w w r w' (frame_refl w) E).
Qed.
Lemma links_cd_pipe r w fl : preserves links (cd_pipe r w fl).
Proof. apply links_of_frames. intros w0. apply cd_pipe_ok. Qed.
Lemma links_cd_dev_open f t a b fl : preserves links (cd_dev_open f t a b fl).
Proof. apply links_of_frames. intros w0. apply cd_dev_open_ok. Qed.
Lemma links_add_rollback a b : preserves links (add_rollback a b).
Proof. apply set_rollback_links. Qed.
Lemma sender_pid_links : preserves (links (A := A)) sender_pid.
Proof. unfold sender_pid. eauto with preserves. Qed.
Hint Resolve links_cd_pipe links_cd_dev_open links_add_rollback sender_pid_links links_fd_at
  links_client_at links_fd_flags : preserves.

Lemma chrdev_pipe_links fl : preserves links (chrdev_pipe (A := A) fl).
Proof. unfold chrdev_pipe. cbv zeta. pres. Qed.
Lemma chrdev_open_links a o fl : preserves links (chrdev_open (A := A) a o fl).
Proof. unfold chrdev_open. cbv zeta. pres. Qed.

Lemma get_status_links fn f : get_status = Some fn -> preserves links (fn f).
Proof. intros E. apply links_of_frames. intros w0. by apply Hst. Qed.
Lemma set_blocker_links p (g : client -> Z) (h : client -> Z) :
  preserves (links (A := A)) (client_upd p (fun c => set_blocker (g c) (h c) c)).
Proof. by apply links_client_upd. Qed.
Hint Resolve get_status_links set_blocker_links : preserves.

Lemma set_notify_links i ev t : preserves links (io_impl_set_notify get_status i ev t).
Proof.
  unfold io_impl_set_notify. cbv zeta. apply preserves_bind; [apply callers_fd_links|intros [j|]]; [|pres].
  apply preserves_bind; [apply links_fd_flags|intros _]. apply preserves_bind; [apply links_fd_at|intros f].
  assert (forall o, o = get_status -> preserves links (match o with
    | None => mret (0, 0)
    | Some fn => st ← fn (file f); mret (0, Z.land (Z.lor ev EPOLLHUP) st) end)) as Hs.
  { intros [fn|] E; [|pres]. apply preserves_bind; [by apply get_status_links|intros st; pres]. }
  specialize (Hs _ eq_refl).
  pres.
Qed.
Lemma status_of_handles_links fn p hs notif :
  get_status = Some fn -> preserves links (status_of_handles fn p hs notif).
Proof.
  intros E. revert notif. induction hs as [|h hs IH]; intros notif; cbn [status_of_handles]; [pres|].
  apply preserves_bind; [|intros ?; pres].
  unfold status_of_handle. pres.
Qed.
Lemma get_statuses_links hs notif : preserves links (io_impl_get_status get_status hs notif).
Proof.
  unfold io_impl_get_status. apply preserves_bind; [library_call|intros _].
  assert (forall o, o = get_status -> preserves links (match o with
    | None => halt StAbort
    | Some fn => pid ← sender_pid; status_of_handles fn pid hs notif end)) as Hs.
  { intros [fn|] E; [|pres]. apply preserves_bind; [pres|intros p]. by apply status_of_handles_links. }
  exact (Hs _ eq_refl).
Qed.
Hint Resolve chrdev_pipe_links chrdev_open_links set_notify_links get_statuses_links : preserves.
Lemma chrdev_serve_links r : preserves links (chrdev_serve get_status r).
Proof. destruct r; cbn [chrdev_serve]; pres. Qed.
End chrdev_links.

(** ** The null devices and the pipes keep to their bounds *)

Lemma frame_no_lifecycle {A} p t (w w' : io A) r : no_lifecycle p t w = Ret r w' -> cb_frame w w'.
Proof. by intros [= _ <-]. Qed.

#[export] Instance null_env_ok : IoEnvOk (gmap Z null_dev).
Proof.
  assert (forall f w r w', null_dev_of f w = Ret r w' -> w' = w) as Hd.
  { intros f w r w'. unfold null_dev_of. mstep. destruct (impl w !! f); [by intros [= _ <-]|done]. }
  split.
  - intros f n o w r w' (d & w1 & E & [= _ <-])%bind_ret_inv. by apply Hd in E as ->.
  - intros f b o w r w' (d & w1 & E & [= _ <-])%bind_ret_inv. by apply Hd in E as ->.
  - by intros f w r w' [= _ <-].
  - done.
  - intros p t w r w'. apply frame_no_lifecycle.
Qed.
#[export] Instance null_chrdev_ok : ChrdevEnvOk (gmap Z null_dev).
Proof.
  split; intros; cbn; [apply preserves_ret|]. unfold null_open.
  case_match; [|apply preserves_ret]. apply preserves_if; [|apply preserves_ret].
  apply preserves_bind; [apply frame_impl|intros _; apply preserves_ret].
Qed.

Section pipe_frames.
Context `{Membuf, !L4Abi, !IoBase}.

Lemma frame_chr_at w0 f : preserves (cb_frame w0) (chr_at f).
Proof. unfold chr_at. eauto with preserves. Qed.
Lemma frame_head_at w0 h : preserves (cb_frame w0) (head_at h).
Proof. unfold head_at. eauto with preserves. Qed.
Lemma frame_head_upd w0 h g : preserves (cb_frame w0) (head_upd h g).
Proof. apply (frame_impl w0 (fun w => Pipes (alter g h (heads (impl w))) (chrfiles (impl w)))). Qed.
Lemma frame_buf_upd w0 h g : preserves (cb_frame w0) (buf_upd h g).
Proof. apply frame_head_upd. Qed.
Lemma frame_set_heads w0 (g : io pipes -> gmap Z pipehead) :
  preserves (cb_frame w0) (modify (fun w => set_heads (g w) w)).
Proof. apply (frame_impl w0 (fun w => Pipes (g w) (chrfiles (impl w)))). Qed.
Lemma frame_set_chrfiles w0 (g : io pipes -> gmap Z chrfile) :
  preserves (cb_frame w0) (modify (fun w => set_chrfiles (g w) w)).
Proof. apply (frame_impl w0 (fun w => Pipes (heads (impl w)) (g w))). Qed.
Hint Resolve frame_chr_at frame_head_at frame_head_upd frame_buf_upd frame_set_heads frame_set_chrfiles
  io_notify_frame : preserves.

Lemma frame_of {B} (m : M (io pipes) B) :
  (forall w0, preserves (cb_frame w0) m) -> forall w r w', m w = Ret r w' -> cb_frame w w'.
Proof. intros Hm w r w' E. exact (Hm w w r w' (frame_refl w) E). Qed.

Lemma pipe_get_status_frame w0 f : preserves (cb_frame w0) (pipe_get_status f).
Proof. unfold pipe_get_status. frames. Qed.

#[export] Instance pipe_env_ok : IoEnvOk pipes.
Proof.
  split.
  - intros f n o. apply frame_of. intros w0. cbn. unfold pipe_read. cbv zeta. frames.
  - intros f b o. apply frame_of. intros w0. cbn. unfold pipe_write. cbv zeta. frames.
  - intros f. apply frame_of. intros w0. cbn. unfold pipe_close. frames.
  - intros fn f n o b w r w' [= <-]. apply (frame_of (pipe_confirm f n o b)). intros w0.
    unfold pipe_confirm. frames.
  - intros p t w r w'. apply frame_no_lifecycle.
Qed.
#[export] Instance pipe_chrdev_ok : ChrdevEnvOk pipes.
Proof.
  split; intros; cbn; [|apply preserves_ret]. unfold pipe_pipe. frames.
Qed.

(** What the pipe server does, through any of its interfaces. *)
Definition pipe_server_step (IS_ERR : Z -> bool) : io pipes -> io pipes -> Prop :=
  io_step add_blocker (chrdev_serve (Some pipe_get_status)) IS_ERR.

Lemma pipe_reachable_links IS_ERR w :
  rtc (pipe_server_step IS_ERR) pipe_init w -> links w.
Proof.
  apply (io_steps_links (A := pipes)).
  - apply poll_add_blocker_links.
  - apply chrdev_serve_links. intros fn f w0 [= <-]. apply pipe_get_status_frame.
  - exact (links_init (Pipes ∅ ∅)).
Qed.

(** The pipe server as a whole, composed of sys/io, sys/chrdev and the pipe's
    callbacks, keeps descriptors, clients and files consistent: in every state it
    gets into, through the requests of any of its interfaces in any order, lifecycle
    events, and replies that arrive or not, the debugging assertions on them pass. *)
Theorem pipe_server_consistent IS_ERR w :
  rtc (pipe_server_step IS_ERR) pipe_init w -> links w /\ handle_invariants w = true.
Proof.
  intros Hs. pose proof (pipe_reachable_links IS_ERR w Hs) as HL. split; [done|]. by apply links_invariants.
Qed.
End pipe_frames.

(** ** Pipes as streams *)

(** What a client does at an end of a pipe: the call, and whether its reply arrived.
    When it did, the library has the server confirm the call before anything else. *)
Inductive pipe_op := PipeWrite (bytes : list Z) (arrived : bool) | PipeRead (count : Z) (arrived : bool).

Section streams.
Context `{HM : Membuf, !MembufOk, !L4Abi, !IoBase}.
Implicit Type w : io pipes.

(** Returns the bytes accepted by a write that was confirmed, and those delivered by a
    read that was. *)
Definition pipe_step (rf wf : Z) (op : pipe_op) : M (io pipes) (list Z * list Z) :=
  match op with
  | PipeWrite bytes arrived =>
      n ← pipe_write wf bytes (-1);
      if (0 <? n) && arrived then
        _ ← pipe_confirm wf n (-1) true; mret (take (Z.to_nat n) bytes, [])
      else mret ([], [])
  | PipeRead count arrived =>
      r ← pipe_read rf count (-1);
      if (0 <? r.1) && arrived then
        _ ← pipe_confirm rf r.1 (-1) false; mret ([], take (Z.to_nat r.1) r.2)
      else mret ([], [])
  end.
Fixpoint pipe_steps (rf wf : Z) (ops : list pipe_op) : M (io pipes) (list Z * list Z) :=
  match ops with
  | [] => mret ([], [])
  | op :: ops =>
      a ← pipe_step rf wf op;
      b ← pipe_steps rf wf ops;
      mret (a.1 ++ b.1, a.2 ++ b.2)
  end.

(** The pipe at [h] has both ends open and holds [bytes]. *)
Definition pipe_open (h rf wf : Z) (bytes : list Z) (w : io pipes) : Prop :=
  links w /\ rf <> 0 /\ wf <> 0 /\ is_Some (files w !! rf) /\ is_Some (files w !! wf)
  /\ chrfiles (impl w) !! rf = Some (ChrFile h 0) /\ chrfiles (impl w) !! wf = Some (ChrFile h WRITER)
  /\ exists b, heads (impl w) !! h = Some (PipeHead b rf wf) /\ membuf_elems b = bytes.

Lemma notify_handle_impl a m i : preserves (fun w => impl w = a) (notify_handle (A := pipes) m i).
Proof.
  assert (forall c, preserves (fun w : io pipes => impl w = a) (io_ask c)) as Ha by (by intros c w r w' Hw [= _ <-]).
  assert (forall p g, preserves (fun w : io pipes => impl w = a) (client_upd p g)) as Hu
    by (intros p g; by apply preserves_modify).
  unfold notify_handle, send_poll_event, maybe_unblock, fd_at, client_at. frames.
Qed.

Lemma file_frame w w' x : cb_frame w w' -> is_Some (files w !! x) -> is_Some (files w' !! x).
Proof.
  intros ((_ & _ & _ & HF) & _) [f Hf].
  assert (file_tab w' !! x = Some (f_handles f)) as Hl by (rewrite HF; apply file_tab_Some; eauto).
  apply file_tab_Some in Hl as (f' & Hf' & _). eauto.
Qed.

(** Every notification for a file that exists goes through. *)
Lemma io_notify_returns w x m :
  links w -> is_Some (files w !! x) ->
  exists w', io_notify x m w = Ret tt w' /\ cb_frame w w' /\ impl w' = impl w.
Proof.
  intros HL [f Hf]. unfold io_notify, file_at. mstep. rewrite Hf. cbn [of_option]. mstep.
  assert (forall l w1, cb_frame w w1 -> impl w1 = impl w -> (forall i, i ∈ l -> is_Some (fds w !! i)) ->
    exists w', mapM_ (notify_handle m) l w1 = Ret tt w' /\ cb_frame w w' /\ impl w' = impl w) as HH.
  { intros l. induction l as [|i l IH]; intros w1 HF Hi Hl; [by exists w1|].
    destruct (Hl i) as [g Hg]; [by left|]. destruct (frame_fd _ _ _ _ HF Hg) as (g1 & Hg1 & _).
    destruct (links_client w1 i g1 (links_same _ _ (proj1 HF) HL) Hg1) as (c & Hc & _).
    destruct (notify_handle_run m i w1 g1 c Hg1 Hc) as (w2 & E2 & _).
    destruct (IH w2) as (w3 & E3 & F3).
    - exact (notify_handle_frame w m i w1 tt w2 HF E2).
    - exact (notify_handle_impl (impl w) m i w1 tt w2 Hi E2).
    - intros j Hj. apply Hl. by right.
    - exists w3. cbn [mapM_]. by rewrite (bind_ret _ _ _ _ _ E2). }
  apply HH; [apply frame_refl|done|]. intros i [k Hk]%list_elem_of_lookup.
  destruct (links_file_handle w x f k i HL Hf Hk) as (g & Hg & _). eauto.
Qed.

(** A change to the buffer alone. *)
Lemma pipe_open_buf h rf wf bytes w g :
  pipe_open h rf wf bytes w ->
  exists b w', heads (impl w) !! h = Some (PipeHead b rf wf) /\ membuf_elems b = bytes
  /\ buf_upd h g w = Ret tt w' /\ heads (impl w') !! h = Some (PipeHead (g b) rf wf)
  /\ io_trace w' = io_trace w /\ clients w' = clients w /\ fds w' = fds w /\ files w' = files w
  /\ pipe_open h rf wf (membuf_elems (g b)) w'.
Proof.
  intros (HL & Hr & Hw & Hfr & Hfw & Hcr & Hcw & b & Hh & Hb). exists b. eexists. split; [done|]. split; [done|].
  split; [reflexivity|]. cbn. rewrite lookup_alter_eq, Hh. cbn. split_and!; try done.
  unfold pipe_open. split_and!; try done. eexists. cbn. by rewrite lookup_alter_eq, Hh.
Qed.
Lemma pipe_open_frame h rf wf bytes w w' :
  pipe_open h rf wf bytes w -> cb_frame w w' -> impl w' = impl w -> pipe_open h rf wf bytes w'.
Proof.
  intros (HL & Hr & Hw & Hfr & Hfw & HC) HF Hi. unfold pipe_open. rewrite Hi.
  split; [exact (links_same _ _ (proj1 HF) HL)|]. split_and!; try done; try (by apply (file_frame w)); apply HC.
Qed.

Lemma chr_at_run w f c : chrfiles (impl w) !! f = Some c -> chr_at f w = Ret c w.
Proof. intros E. unfold chr_at. mstep. by rewrite E. Qed.
Lemma head_at_run w h hd : heads (impl w) !! h = Some hd -> head_at h w = Ret hd w.
Proof. intros E. unfold head_at. mstep. by rewrite E. Qed.

(** A write: what it takes lies in the space of the buffer until it is confirmed. *)
Lemma pipe_write_run h rf wf l bytes f w :
  pipe_open h rf wf l w -> f = rf \/ f = wf ->
  exists n w', pipe_write f bytes (-1) w = Ret n w' /\ pipe_open h rf wf l w'
  /\ ((n = 0 /\ bytes = [])
      \/ (n = - EWOULDBLOCK /\ exists b, heads (impl w) !! h = Some (PipeHead b rf wf)
            /\ membuf_num_space (membuf_prepare_space (Z.of_nat (length bytes)) b) = 0) \/
      (0 < n <= Z.of_nat (length bytes) /\ exists b, heads (impl w') !! h = Some (PipeHead b rf wf)
         /\ membuf_elems (membuf_added n b) = l ++ take (Z.to_nat n) bytes)).
Proof.
  intros HO Hfe. pose proof HO as (HL & Hr & Hw & Hfr & Hfw & Hcr & Hcw & b & Hh & Hb).
  assert (exists c, chrfiles (impl w) !! f = Some c /\ f_head c = h) as (c & Hc & Hch)
    by (destruct Hfe as [->| ->]; eauto).
  unfold pipe_write. cbn [Z.leb Z.compare]. rewrite (bind_ret _ _ _ _ _ (chr_at_run w f _ Hc)). rewrite Hch.
  rewrite (bind_ret _ _ _ _ _ (head_at_run w h _ Hh)). cbn [readf].
  rewrite (proj2 (Z.eqb_neq rf 0) Hr). case_bool_decide as Hnil; [exists 0, w; eauto|].
  destruct (pipe_open_buf h rf wf l w (membuf_prepare_space (Z.of_nat (length bytes))) HO)
    as (b0 & w1 & Hh0 & _ & E1 & Hh1 & _ & _ & _ & _ & HO1).
  assert (b0 = b) as -> by congruence. rewrite prepare_elems, Hb in HO1.
  set (b1 := membuf_prepare_space _ b) in *. rewrite (bind_ret _ _ _ _ _ E1).
  rewrite (bind_ret _ _ _ _ _ (head_at_run w1 h _ Hh1)). cbv zeta. unfold IS_FULL, IS_EMPTY. cbn [buf readf].
  destruct (Z.eqb_spec (membuf_num_space b1) 0) as [Hfull|Hspace]; [exists (- EWOULDBLOCK), w1; eauto 10|].
  pose proof (space_nonneg b1) as Hnn. set (n := Z.min _ _).
  assert (0 < n <= Z.of_nat (length bytes) /\ n <= membuf_num_space b1) as [Hn Hns].
  { assert (0 < Z.of_nat (length bytes)) by (destruct bytes; [done|cbn; lia]). lia. }
  destruct (pipe_open_buf h rf wf l w1 (membuf_put (take (Z.to_nat n) bytes)) HO1)
    as (b0 & w2 & Hh0' & Hb1 & E2 & Hh2 & _ & _ & _ & _ & HO2).
  assert (b0 = b1) as -> by congruence. rewrite put_elems, Hb1 in HO2. rewrite (bind_ret _ _ _ _ _ E2).
  assert (membuf_elems (membuf_added n (membuf_put (take (Z.to_nat n) bytes) b1)) = l ++ take (Z.to_nat n) bytes) as Hadd.
  { assert (Z.of_nat (length (take (Z.to_nat n) bytes)) = n) as Hlen by (rewrite length_take; lia).
    rewrite <- Hlen at 1. rewrite added_put by (rewrite Hlen; lia). by rewrite Hb1. }
  clearbody n. destruct (bool_decide _).
  - destruct (io_notify_returns w2 rf EPOLLIN) as (w3 & E3 & F3 & I3); [apply HO2|apply HO2|].
    rewrite (bind_ret _ _ _ _ _ E3). exists n, w3. split; [done|].
    split; [by apply (pipe_open_frame h rf wf l w2)|]. right. right. split; [done|]. rewrite I3. eauto.
  - mstep. exists n, w2. split; [done|]. split; [done|]. right. right. eauto.
Qed.

(** A read: it looks at what it takes, which is consumed when it is confirmed. *)
Lemma pipe_read_run h rf wf l count f w :
  pipe_open h rf wf l w -> f = rf \/ f = wf ->
  exists w', pipe_read f count (-1) w
    = Ret (if bool_decide (l = []) then (- EWOULDBLOCK, [])
           else let got := Z.min count (Z.of_nat (length l)) in (got, take (Z.to_nat got) l)) w'
  /\ pipe_open h rf wf l w'.
Proof.
  intros HO Hfe. pose proof HO as (HL & Hr & Hw & Hfr & Hfw & Hcr & Hcw & b & Hh & Hb).
  assert (exists c, chrfiles (impl w) !! f = Some c /\ f_head c = h) as (c & Hc & Hch)
    by (destruct Hfe as [->| ->]; eauto).
  unfold pipe_read. cbn [Z.leb Z.compare]. rewrite (bind_ret _ _ _ _ _ (chr_at_run w f _ Hc)). rewrite Hch.
  rewrite (bind_ret _ _ _ _ _ (head_at_run w h _ Hh)). unfold IS_EMPTY. cbn [buf writef]. rewrite Hb.
  case_bool_decide as Hnil.
  { rewrite (proj2 (Z.eqb_neq wf 0) Hw). cbn [negb]. exists w. by split. }
  destruct (pipe_open_buf h rf wf l w (membuf_prepare_space 1) HO)
    as (b0 & w1 & Hh0 & _ & E1 & Hh1 & _ & _ & _ & _ & HO1).
  assert (b0 = b) as -> by congruence. rewrite prepare_elems, Hb in HO1.
  rewrite (bind_ret _ _ _ _ _ E1). rewrite (bind_ret _ _ _ _ _ (head_at_run w1 h _ Hh1)).
  cbv zeta. cbn [buf writef]. rewrite prepare_elems, Hb.
  match goal with |- context [if ?x then io_notify _ _ else _] => destruct x end.
  - destruct (io_notify_returns w1 wf EPOLLOUT) as (w2 & E2 & F2 & I2); [apply HO1|apply HO1|].
    rewrite (bind_ret _ _ _ _ _ E2). exists w2. split; [done|]. by apply (pipe_open_frame h rf wf l w1).
  - mstep. exists w1. by split.
Qed.

Lemma pipe_step_run h rf wf l op w :
  pipe_open h rf wf l w ->
  exists acc del l' w', pipe_step rf wf op w = Ret (acc, del) w'
  /\ pipe_open h rf wf l' w' /\ del ++ l' = l ++ acc.
Proof.
  intros HO. destruct op as [bytes arrived|count arrived]; cbn [pipe_step].
  - destruct (pipe_write_run h rf wf l bytes wf w HO (or_intror eq_refl)) as (n & w1 & E & HO1 & Hn).
    rewrite (bind_ret _ _ _ _ _ E). destruct ((0 <? n) && arrived) eqn:Hb.
    + apply andb_true_iff in Hb as [Hpos%Z.ltb_lt ->].
      destruct Hn as [[-> _]|[[-> _]|(Hn & b & Hh & Hadd)]]; [lia|unfold EWOULDBLOCK in Hpos; lia|].
      unfold pipe_confirm. mstep. pose proof HO1 as (_ & _ & _ & _ & _ & _ & Hcw & _).
      change (-1 <? 0) with true. unfold assert_.
      rewrite (bind_ret _ _ _ _ _ (chr_at_run w1 wf _ Hcw)).
      change (negb (eqb true (is_writer (ChrFile h WRITER)))) with false.
      change (is_writer (ChrFile h WRITER)) with true. cbv match. cbn [f_head].
      destruct (pipe_open_buf h rf wf l w1 (membuf_added n) HO1) as (b0 & w2 & Hh0 & _ & E2 & _ & _ & _ & _ & _ & HO2).
      assert (b0 = b) as -> by congruence. rewrite Hadd in HO2. rewrite (bind_ret _ _ _ _ _ E2).
      do 4 eexists. split; [reflexivity|]. split; [exact HO2|]. done.
    + exists [], [], l, w1. split; [done|]. split; [done|]. by rewrite app_nil_r.
  - destruct (pipe_read_run h rf wf l count rf w HO (or_introl eq_refl)) as (w1 & E & HO1). rewrite (bind_ret _ _ _ _ _ E).
    case_bool_decide as Hnil; cbn [fst snd].
    { change (0 <? - EWOULDBLOCK) with false. cbn [andb]. exists [], [], l, w1.
      split; [done|]. split; [done|]. by rewrite app_nil_r. }
    cbv zeta. cbn [fst snd]. set (got := Z.min count _) in *.
    destruct ((0 <? got) && arrived) eqn:Hb.
    + apply andb_true_iff in Hb as [Hpos%Z.ltb_lt ->].
      unfold pipe_confirm. pose proof HO1 as (_ & _ & _ & _ & _ & Hcr & _).
      mstep. change (-1 <? 0) with true. unfold assert_.
      rewrite (bind_ret _ _ _ _ _ (chr_at_run w1 rf _ Hcr)).
      change (negb (eqb false (is_writer (ChrFile h 0)))) with false.
      change (is_writer (ChrFile h 0)) with false. cbv match. cbn [f_head].
      destruct (pipe_open_buf h rf wf l w1 (membuf_consume got) HO1) as (b0 & w2 & Hh0 & Hb0 & E2 & _ & _ & _ & _ & _ & HO2).
      rewrite (bind_ret _ _ _ _ _ E2). rewrite consume_elems, Hb0 in HO2 by (rewrite Hb0; lia).
      do 4 eexists. split; [reflexivity|]. split; [exact HO2|].
      rewrite take_take, Nat.min_id, take_drop, app_nil_r. done.
    + exists [], [], l, w1. split; [done|]. split; [done|]. by rewrite app_nil_r.
Qed.

(** C21: a pipe is a stream.  While both ends of a pipe are open, any sequence of
    writes and reads of any length, each with its reply arriving or not, returns
    without stopping the server, and the bytes that reads have delivered, followed by
    those still in the pipe, are those that were in it followed by what writes have
    had accepted: none is lost, repeated or reordered.  A call whose reply is lost
    leaves the stream as it was. *)
Theorem pipe_is_a_stream h rf wf l ops w :
  pipe_open h rf wf l w ->
  exists acc del l' w', pipe_steps rf wf ops w = Ret (acc, del) w'
  /\ pipe_open h rf wf l' w' /\ del ++ l' = l ++ acc.
Proof.
  revert l w. induction ops as [|op ops IH]; intros l w HO.
  - exists [], [], l, w. split; [done|]. split; [done|]. by rewrite app_nil_r.
  - destruct (pipe_step_run h rf wf l op w HO) as (a1 & d1 & l1 & w1 & E1 & HO1 & Hd1).
    destruct (IH l1 w1 HO1) as (a2 & d2 & l2 & w2 & E2 & HO2 & Hd2).
    exists (a1 ++ a2), (d1 ++ d2), l2, w2. cbn [pipe_steps].
    rewrite (bind_ret _ _ _ _ _ E1), (bind_ret _ _ _ _ _ E2). split; [done|]. split; [done|].
    by rewrite <- app_assoc, Hd2, app_assoc, Hd1, app_assoc.
Qed.

(** There is room in the pipe for some of [n] bytes. *)
Definition has_room (h : Z) (n : nat) (w : io pipes) : Prop :=
  forall hd, heads (impl w) !! h = Some hd -> 0 < membuf_num_space (membuf_prepare_space (Z.of_nat n) (buf hd)).

(** a reader that sleeps is woken up by the next write.  When a thread of a client
    sleeps in a read of the read end of an empty pipe, a write of anything to the
    write end that finds room sends it EAGAIN, so that it reads again; this read is
    served after the write has been confirmed. *)
Theorem pipe_write_wakes_reader h rf wf bytes w i f c :
  pipe_open h rf wf [] w -> fds w !! i = Some f -> file f = rf -> clients w !! owner f = Some c ->
  c_blocker c <> L4_nilthread -> Z.land (c_flags c) (Z.lor CF_NOTIFY CF_WRITE_BLOCKED) = 0 -> bytes <> [] ->
  has_room h (length bytes) w ->
  exists n w', pipe_write wf bytes (-1) w = Ret n w' /\ 0 < n /\ wake_call (c_blocker c) ∈ io_trace w'.
Proof.
  intros HO Hf Hfile Hc Hb Hfl Hne Hroom. pose proof HO as (HL & Hr & Hw & Hfr & Hfw & Hcr & Hcw & b & Hh & Hel).
  unfold pipe_write. cbn [Z.leb Z.compare]. rewrite (bind_ret _ _ _ _ _ (chr_at_run w wf _ Hcw)). cbn [f_head].
  rewrite (bind_ret _ _ _ _ _ (head_at_run w h _ Hh)). cbn [readf].
  rewrite (proj2 (Z.eqb_neq rf 0) Hr), bool_decide_eq_false_2 by done.
  destruct (pipe_open_buf h rf wf [] w (membuf_prepare_space (Z.of_nat (length bytes))) HO)
    as (b0 & w1 & Hh0 & _ & E1 & Hh1 & T1 & C1 & D1 & _ & HO1).
  assert (b0 = b) as -> by congruence. rewrite prepare_elems, Hel in HO1. specialize (Hroom _ Hh). cbn [buf] in Hroom.
  set (b1 := membuf_prepare_space _ b) in *. rewrite (bind_ret _ _ _ _ _ E1).
  rewrite (bind_ret _ _ _ _ _ (head_at_run w1 h _ Hh1)). cbv zeta. unfold IS_FULL, IS_EMPTY. cbn [buf readf].
  rewrite (proj2 (Z.eqb_neq _ 0)) by lia. set (n := Z.min _ _).
  destruct (pipe_open_buf h rf wf [] w1 (membuf_put (take (Z.to_nat n) bytes)) HO1)
    as (b0 & w2 & Hh0' & Hb1 & E2 & Hh2 & T2 & C2 & D2 & _ & HO2).
  assert (b0 = b1) as -> by congruence. rewrite put_elems, Hb1 in HO2. rewrite (bind_ret _ _ _ _ _ E2).
  rewrite bool_decide_eq_true_2 by done.
  assert (0 < n) by (destruct bytes; [done|cbn [length] in *; lia]).
  destruct (notify_wakes rf EPOLLIN (owner f) (c_blocker c) w2 i f c) as (w3 & E3 & F3 & Hin & _);
    try done; try congruence; [apply HO2| |].
  - unfold sleeper, wakes, L4_IsNilThread. rewrite (proj2 (Z.eqb_neq _ _) Hb).
    assert (Z.land (c_flags c) CF_NOTIFY = 0 /\ Z.land (c_flags c) CF_WRITE_BLOCKED = 0) as [-> ->].
    { rewrite Z.land_lor_distr_r in Hfl. by apply Z.lor_eq_0_iff in Hfl. }
    done.
  - rewrite (bind_ret _ _ _ _ _ E3). exists n, w3. by split_and!.
Qed.

(** C24: the wrong end of a pipe.  Nothing keeps a process from writing to the read end
    of a pipe that has room, nor from reading from the write end of one that holds
    something; the call succeeds, and confirming it stops the server. *)
Theorem pipe_wrong_end_stops h rf wf l bytes count w :
  pipe_open h rf wf l w ->
  (bytes <> [] -> has_room h (length bytes) w ->
   exists n w', pipe_write rf bytes (-1) w = Ret n w' /\ 0 < n
   /\ pipe_confirm rf n (-1) true w' = Stop StAbort)
  /\ (l <> [] -> 0 < count ->
   exists n bs w', pipe_read wf count (-1) w = Ret (n, bs) w' /\ 0 < n
   /\ pipe_confirm wf n (-1) false w' = Stop StAbort).
Proof.
  intros HO. split.
  - intros Hne Hroom. destruct (pipe_write_run h rf wf l bytes rf w HO) as (n & w1 & E & HO1 & Hn); [by left|].
    exists n, w1. split; [done|]. destruct Hn as [[_ ->]|[[_ (b & Hb & Hz)]|(Hn & _)]]; [done| |].
    { specialize (Hroom _ Hb). cbn [buf] in Hroom. lia. }
    split; [lia|]. unfold pipe_confirm. mstep. pose proof HO1 as (_ & _ & _ & _ & _ & Hcr & _).
    change (-1 <? 0) with true. cbv match. rewrite (bind_ret _ _ _ _ _ (chr_at_run w1 rf _ Hcr)). done.
  - intros Hne Hpos. destruct (pipe_read_run h rf wf l count wf w HO) as (w1 & E & HO1); [by right|].
    rewrite bool_decide_eq_false_2 in E by done. cbv zeta in E. do 3 eexists. split; [exact E|].
    assert (0 < Z.of_nat (length l)) by (destruct l; [done|cbn; lia]).
    split; [lia|]. unfold pipe_confirm. mstep. pose proof HO1 as (_ & _ & _ & _ & _ & _ & Hcw & _).
    change (-1 <? 0) with true. cbv match. rewrite (bind_ret _ _ _ _ _ (chr_at_run w1 wf _ Hcw)). done.
Qed.

End streams.

(** ** Witnesses *)

(** A buffer of a fixed capacity, as a list of the bytes in use. *)
Record listbuf := ListBuf { lb_cap : Z; lb_used : list Z; lb_spare : list Z }.
#[export] Instance list_membuf : Membuf := {|
  mb := listbuf;
  membuf_init n := ListBuf n [] [];
  membuf_elems := lb_used;
  membuf_num_space b := Z.max 0 (lb_cap b - Z.of_nat (length (lb_used b)));
  membuf_prepare_space _ b := b;
  membuf_put l b := ListBuf (lb_cap b) (lb_used b) l;
  membuf_added n b := ListBuf (lb_cap b) (lb_used b ++ take (Z.to_nat n) (lb_spare b)) [];
  membuf_consume n b := ListBuf (lb_cap b) (drop (Z.to_nat n) (lb_used b)) []
|}.
#[export] Instance list_membuf_ok : MembufOk.
Proof.
  split; try done.
  - intros b. cbn. lia.
  - intros l b _. cbn. by rewrite Nat2Z.id, firstn_all.
Qed.

#[local] Existing Instance l4_x2_32.

(** Process 5 asks for a pipe. *)
Definition pipe_event : io_event chrdev_request := OwnRequest (demo_sender 5) 1 (ReqPipe 0).
Definition is_error (st : Z) : bool := negb (st =? 0).
Definition pipe_run : M (io pipes) unit :=
  handle_event add_blocker (chrdev_serve (Some pipe_get_status)) is_error pipe_event.
Definition pipe_demo : io pipes := final pipe_run pipe_init.

Lemma pipe_demo_runs : pipe_run pipe_init = Ret tt pipe_demo.
Proof. refine (final_eq pipe_run pipe_init _). vm_compute. reflexivity. Qed.
Lemma pipe_demo_links : links pipe_demo.
Proof.
  apply (pipe_reachable_links is_error), rtc_once. exists pipe_event. exact pipe_demo_runs.
Qed.
Lemma pipe_server_consistent_witness : links pipe_demo /\ handle_invariants pipe_demo = true.
Proof.
  apply (pipe_server_consistent is_error), rtc_once. exists pipe_event. exact pipe_demo_runs.
Defined.
Lemma pipe_demo_open : pipe_open 1 1000 1001 [] pipe_demo.
Proof.
  split; [exact pipe_demo_links|]. split; [done|]. split; [done|].
  split; [eexists; vm_compute; reflexivity|]. split; [eexists; vm_compute; reflexivity|].
  split; [vm_compute; reflexivity|]. split; [vm_compute; reflexivity|].
  eexists. split; vm_compute; reflexivity.
Qed.

Lemma pipe_is_a_stream_witness :
  exists acc del l w, pipe_steps 1000 1001
    [PipeWrite [1; 2; 3] true; PipeRead 2 false; PipeRead 2 true; PipeWrite [4] true; PipeRead 9 true]
    pipe_demo = Ret (acc, del) w
  /\ pipe_open 1 1000 1001 l w /\ del ++ l = [] ++ acc.
Proof. exact (pipe_is_a_stream 1 1000 1001 [] _ pipe_demo pipe_demo_open). Defined.

(** A thread of process 5 sleeps reading the pipe. *)
Definition asleep (p tid : Z) (w : io pipes) : io pipes :=
  set_clients (alter (fun c => set_blocker tid (c_flags c) c) p (clients w)) w.
Lemma asleep_open p tid w : pipe_open 1 1000 1001 [] w -> pipe_open 1 1000 1001 [] (asleep p tid w).
Proof.
  intros (HL & HO). split; [|exact HO]. apply (links_same w); [by apply same_links_client|exact HL].
Qed.
Lemma asleep_room h n p tid w : has_room h n w -> has_room h n (asleep p tid w).
Proof. intros Hr hd E. exact (Hr hd E). Qed.
Lemma pipe_demo_room n : has_room 1 n pipe_demo.
Proof. intros hd E. vm_compute in E. injection E as <-. reflexivity. Qed.

Lemma pipe_write_wakes_reader_witness :
  exists n w', pipe_write 1001 [1; 2; 3] (-1) (asleep 5 77 pipe_demo) = Ret n w' /\ 0 < n
               /\ wake_call 77 ∈ io_trace w'.
Proof.
  apply (pipe_write_wakes_reader 1 1000 1001 [1; 2; 3] (asleep 5 77 pipe_demo) 1 (Fd 1000 5 0 0 0 0)
           (Client [1; 2] 77 0 []) (asleep_open 5 77 _ pipe_demo_open));
    [vm_compute; reflexivity|reflexivity|vm_compute; reflexivity|discriminate|reflexivity|discriminate|].
  exact (asleep_room 1 3 5 77 _ (pipe_demo_room 3)).
Defined.

Lemma pipe_wrong_end_stops_witness :
  exists n w', pipe_write 1000 [1; 2; 3] (-1) (asleep 5 77 pipe_demo) = Ret n w' /\ 0 < n
               /\ pipe_confirm 1000 n (-1) true w' = Stop StAbort.
Proof.
  apply (proj1 (pipe_wrong_end_stops 1 1000 1001 [] [1; 2; 3] 1 (asleep 5 77 pipe_demo)
           (asleep_open 5 77 _ pipe_demo_open))); [discriminate|exact (asleep_room 1 3 5 77 _ (pipe_demo_room 3))].
Defined.
