(* ===== verification/Vm.v ===== *)
(** The virtual memory server, sys/vm/vm.c: physical pages, virtual pages and the lists
    they are on.

    Structures are referred to by address, an address is given out once, and freeing a
    structure removes it from its map.  The lists of the microkernel's nbsl.h appear as
    lists from the top down, its epochs as nothing: vm.c has a single thread.  The
    physical memory vm works on is [frames]; what user programs write to it is not
    vm's to know.  Red-black trees keep their shape, since searches in vm.c depend on
    it; how lib/rbtree.c rebalances them is the class [RbOps]. *)
From S2P Require Import Prelude L4 Pages HashUtil Containers.

Definition VALID_ADDR_SIZE (addr size : Z) : bool := addr <=? u32 (2 ^ 32 - 1 - size).

Definition PROT_READ : Z := 1.
Definition PROT_WRITE : Z := 2.
Definition PROT_EXEC : Z := 4.
Definition MAP_SHARED : Z := 1.
Definition MAP_PRIVATE : Z := 2.
Definition MAP_FIXED : Z := 0x10.
Definition MAP_ANONYMOUS : Z := 0x20.
Definition SIGSEGV : Z := 11.

Definition VPF_SHARED : Z := 0x8.
Definition VPF_ANON : Z := 0x10.
Definition VPF_COW : Z := 0x20.


(** ** Structures *)

Record pp := Pp { link : option Z; owner : option Z }.
Record pl := Pl { page_num : Z; pl_status : Z; fsid_ino : Z; pl_offset : Z }.
Record vp := Vp { vaddr : Z; status : Z; age : Z }.
Record lazy_mmap := Mm {
  addr : Z; length : Z; flags : Z;
  fd_serv : Z; ino : Z; offset : Z; tailsz : Z
}.

Definition VP_RIGHTS (v : vp) : Z := Z.land (vaddr v) 7.
Definition VP_IS_SHARED (v : vp) : bool := has (vaddr v) VPF_SHARED.
Definition VP_IS_ANON (v : vp) : bool := has (vaddr v) VPF_ANON.
Definition VP_IS_COW (v : vp) : bool := has (vaddr v) VPF_COW.
Definition PL_FSID (p : pl) : Z := Z.shiftr (fsid_ino p) 48.
Definition PL_INO (p : pl) : Z := Z.land (fsid_ino p) (bnot64 0xffff000000000000).
Definition PL_IS_PRIVATE (p : pl) : bool := fsid_ino p =? 0.
Definition IS_ANON_MMAP (m : lazy_mmap) : bool :=
  has (flags m) MAP_ANONYMOUS && has (flags m) MAP_SHARED.

Definition OVERLAP_EXCL (a b c d : Z) : bool :=
  negb ((u32 (a + b) <=? c) || (u32 (c + d) <=? a)).

Definition set_page (v : Z) (x : vp) : vp := Vp (vaddr x) v (age x).
Definition set_vaddr (v : Z) (x : vp) : vp := Vp v (status x) (age x).
Definition set_place (a l : Z) (m : lazy_mmap) : lazy_mmap :=
  Mm a l (flags m) (fd_serv m) (ino m) (offset m) (tailsz m).
Definition set_tailsz (t : Z) (m : lazy_mmap) : lazy_mmap :=
  Mm (addr m) (length m) (flags m) (fd_serv m) (ino m) (offset m) t.
Definition no_mmap : lazy_mmap := Mm 0 0 0 0 0 0 0.

(** A tree of lazy_mmaps. *)
Inductive rbtree := RB_ROOT | RbNode (l : rbtree) (m : Z) (r : rbtree).
Fixpoint inorder (t : rbtree) : list Z :=
  match t with RB_ROOT => [] | RbNode l m r => inorder l ++ m :: inorder r end.

(** lib/rbtree.c rebalances a tree after [m] was linked to it as a leaf, and takes a
    node out of it; neither changes the order of what is left. *)
Class RbOps := {
  rb_insert_color : Z -> rbtree -> rbtree;
  rb_erase : Z -> rbtree -> rbtree;
  inorder_insert_color m t : inorder (rb_insert_color m t) = inorder t;
  inorder_erase m t :
    NoDup (inorder t) -> inorder (rb_erase m t) = filter (fun x => x <> m) (inorder t)
}.

Record vm_space := VmSpace {
  kip_area : Z; utcb_area : Z; sysinfo_area : Z;
  pages : htable;
  maps : rbtree;
  last_mmap : option Z;                 (* none for no_last_mmap *)
  as_free : list Z;
  brk : Z;
  mmap_bot : Z
}.
Definition vm_space0 : vm_space := VmSpace 0 0 0 [] RB_ROOT None [] 0 0.

Definition set_areas k u s x :=
  VmSpace k u s (pages x) (maps x) (last_mmap x) (as_free x) (brk x) (mmap_bot x).
Definition set_pages p x := VmSpace (kip_area x) (utcb_area x) (sysinfo_area x)
  p (maps x) (last_mmap x) (as_free x) (brk x) (mmap_bot x).
Definition set_maps m l x := VmSpace (kip_area x) (utcb_area x) (sysinfo_area x)
  (pages x) m l (as_free x) (brk x) (mmap_bot x).
Definition set_as_free f x := VmSpace (kip_area x) (utcb_area x) (sysinfo_area x)
  (pages x) (maps x) (last_mmap x) f (brk x) (mmap_bot x).
Definition set_brk b x := VmSpace (kip_area x) (utcb_area x) (sysinfo_area x)
  (pages x) (maps x) (last_mmap x) (as_free x) b (mmap_bot x).
Definition set_mmap_bot b x := VmSpace (kip_area x) (utcb_area x) (sysinfo_area x)
  (pages x) (maps x) (last_mmap x) (as_free x) (brk x) b.

(** The hash tables: pages of a space, [share_table], and [anon_mmap_table]. *)
Inductive vm_table := TabPages | TabShares | TabAnonMmaps.

(** Calls out of vm. *)
Inductive vmcall :=
| VMalloc                                    (* 1 when there was memory *)
| VHtableAdd (t : vm_table)                  (* likewise *)
| VRaAllocAny                                (* an ID, or -1 *)
| VUnmapFpages (l : list (Z * Z))            (* pages and rights *)
| VIoTouch (serv fd : Z)
| VIoRead (serv fd count offset : Z)
| VProcKill (pid sig : Z)
| VReply (tid : Z) (mrs : list Z)            (* 1 when the IPC succeeded *)
| VErrorCode.

Record vm := Vm {
  pps : gmap Z pp;                           (* pp_ra, by page number *)
  pls : gmap Z pl;
  vps : gmap Z vp;
  mms : gmap Z lazy_mmap;
  next_ptr : Z;                              (* the next address malloc gives out *)
  lists : gmap Z (list Z);                   (* of pl, see below *)
  frames : gmap Z (list Z);
  spaces : ra vm_space;                      (* vm_space_ra *)
  share_table : htable;
  anon_mmap_table : htable;
  next_anon_ino : Z;
  vm_sender : Z;                             (* the message being served *)
  vm_label : Z;
  vm_no_reply : bool;
  vm_trace : list vmcall                     (* latest first *)
}.

(** The lists of struct pl: page_free_list, page_active_list, and pc_buckets[i]. *)
Definition page_free_list : Z := -1.
Definition page_active_list : Z := -2.
Definition lst (w : vm) (l : Z) : list Z := default [] (lists w !! l).
(** Memory that was never written reads as zero here. *)
Definition frame (w : vm) (n : Z) : list Z := default (replicate 4096 0) (frames w !! n).
Definition space_of (w : vm) (pid : Z) : vm_space := ra_slot vm_space0 (spaces w) pid.
Definition mm_of (w : vm) (m : Z) : lazy_mmap := default no_mmap (mms w !! m).

Definition set_pps x w := Vm x (pls w) (vps w) (mms w) (next_ptr w) (lists w) (frames w) (spaces w)
  (share_table w) (anon_mmap_table w) (next_anon_ino w) (vm_sender w) (vm_label w) (vm_no_reply w) (vm_trace w).
Definition set_pls x w := Vm (pps w) x (vps w) (mms w) (next_ptr w) (lists w) (frames w) (spaces w)
  (share_table w) (anon_mmap_table w) (next_anon_ino w) (vm_sender w) (vm_label w) (vm_no_reply w) (vm_trace w).
Definition set_vps x w := Vm (pps w) (pls w) x (mms w) (next_ptr w) (lists w) (frames w) (spaces w)
  (share_table w) (anon_mmap_table w) (next_anon_ino w) (vm_sender w) (vm_label w) (vm_no_reply w) (vm_trace w).
Definition set_mms x w := Vm (pps w) (pls w) (vps w) x (next_ptr w) (lists w) (frames w) (spaces w)
  (share_table w) (anon_mmap_table w) (next_anon_ino w) (vm_sender w) (vm_label w) (vm_no_reply w) (vm_trace w).
Definition set_next_ptr x w := Vm (pps w) (pls w) (vps w) (mms w) x (lists w) (frames w) (spaces w)
  (share_table w) (anon_mmap_table w) (next_anon_ino w) (vm_sender w) (vm_label w) (vm_no_reply w) (vm_trace w).
Definition set_lists x w := Vm (pps w) (pls w) (vps w) (mms w) (next_ptr w) x (frames w) (spaces w)
  (share_table w) (anon_mmap_table w) (next_anon_ino w) (vm_sender w) (vm_label w) (vm_no_reply w) (vm_trace w).
Definition set_frames x w := Vm (pps w) (pls w) (vps w) (mms w) (next_ptr w) (lists w) x (spaces w)
  (share_table w) (anon_mmap_table w) (next_anon_ino w) (vm_sender w) (vm_label w) (vm_no_reply w) (vm_trace w).
Definition set_spaces x w := Vm (pps w) (pls w) (vps w) (mms w) (next_ptr w) (lists w) (frames w) x
  (share_table w) (anon_mmap_table w) (next_anon_ino w) (vm_sender w) (vm_label w) (vm_no_reply w) (vm_trace w).
Definition set_share_table x w := Vm (pps w) (pls w) (vps w) (mms w) (next_ptr w) (lists w) (frames w) (spaces w)
  x (anon_mmap_table w) (next_anon_ino w) (vm_sender w) (vm_label w) (vm_no_reply w) (vm_trace w).
Definition set_anon_mmap_table x w := Vm (pps w) (pls w) (vps w) (mms w) (next_ptr w) (lists w) (frames w) (spaces w)
  (share_table w) x (next_anon_ino w) (vm_sender w) (vm_label w) (vm_no_reply w) (vm_trace w).
Definition set_next_anon_ino x w := Vm (pps w) (pls w) (vps w) (mms w) (next_ptr w) (lists w) (frames w) (spaces w)
  (share_table w) (anon_mmap_table w) x (vm_sender w) (vm_label w) (vm_no_reply w) (vm_trace w).
Definition set_vm_message sender label w := Vm (pps w) (pls w) (vps w) (mms w) (next_ptr w) (lists w) (frames w)
  (spaces w) (share_table w) (anon_mmap_table w) (next_anon_ino w) sender label false (vm_trace w).
Definition set_vm_no_reply b w := Vm (pps w) (pls w) (vps w) (mms w) (next_ptr w) (lists w) (frames w)
  (spaces w) (share_table w) (anon_mmap_table w) (next_anon_ino w) (vm_sender w) (vm_label w) b (vm_trace w).
Definition add_vmcall c w := Vm (pps w) (pls w) (vps w) (mms w) (next_ptr w) (lists w) (frames w)
  (spaces w) (share_table w) (anon_mmap_table w) (next_anon_ino w) (vm_sender w) (vm_label w) (vm_no_reply w)
  (c :: vm_trace w).

(** What is settled when vm starts, and the answers of its environment. *)
Class VmEnv := {
  vm_env : list vmcall -> vmcall -> Z;
  vm_data : list vmcall -> list Z;           (* bytes from the read just made *)
  vm_global : Z;                             (* L4_MyGlobalId() *)
  uapi_tid : Z;
  the_sip : Z;
  pp_first : Z;
  n_pc_buckets_log2 : Z;
  user_addr_max : Z
}.

Section vm.
Context `{!L4Abi, !VmEnv, !RbOps}.

Definition vm_ask (c : vmcall) : M vm Z :=
  fun w => Ret (vm_env (vm_trace w) c) (add_vmcall c w).
Definition anon_fsid : Z := pidof_NP vm_global vm_global.
Definition sender_pid : M vm Z := gets (fun w => pidof_NP vm_global (vm_sender w)).
Definition muidl_raise_no_reply : M vm unit := modify (set_vm_no_reply true).

Definition malloc : M vm (option Z) :=
  ok ← vm_ask VMalloc;
  p ← gets next_ptr;
  if ok =? 0 then mret None
  else _ ← modify (set_next_ptr (p + 1)); mret (Some p).

Definition pl_at (x : Z) : M vm pl := w ← get; of_option StFault (pls w !! x).
Definition vp_at (v : Z) : M vm vp := w ← get; of_option StFault (vps w !! v).
Definition mm_at (m : Z) : M vm lazy_mmap := w ← get; of_option StFault (mms w !! m).
Definition vp_upd (v : Z) (f : vp -> vp) : M vm unit := modify (fun w => set_vps (alter f v (vps w)) w).
Definition mm_upd (m : Z) (f : lazy_mmap -> lazy_mmap) : M vm unit :=
  modify (fun w => set_mms (alter f m (mms w)) w).
Definition space_upd (sp : Z) (f : vm_space -> vm_space) : M vm unit :=
  modify (fun w => set_spaces (ra_store sp (f (space_of w sp)) (spaces w)) w).
(** ra_id2ptr(vm_space_ra, pid) *)
Definition space_at (pid : Z) : M vm vm_space :=
  if (0 <=? pid) && (pid <=? SNEKS_MAX_PID) then gets (fun w => space_of w pid) else halt StFault.

(** ra_id2ptr(pp_ra, ...) on the numbers that stand for physical memory *)
Definition get_pp (n : Z) : M vm pp :=
  _ ← assert_ (pp_first <=? n);
  w ← get; of_option StFault (pps w !! n).
Definition pl2pp (x : Z) : M vm pp := p ← pl_at x; get_pp (page_num p).
Definition set_link (n : Z) (x : option Z) : M vm unit :=
  modify (fun w => set_pps (alter (fun p => Pp x (owner p)) n (pps w)) w).
Definition set_owner (n : Z) (v : option Z) : M vm unit :=
  modify (fun w => set_pps (alter (fun p => Pp (link p) v) n (pps w)) w).

Definition set_frame (n : Z) (bytes : list Z) : M vm unit :=
  modify (fun w => set_frames (<[n := bytes]> (frames w)) w).
(** memcpy() of [k] bytes from one page to another, and memset() of the rest *)
Definition copy_page (to from k : Z) : M vm unit :=
  w ← get;
  set_frame to (take (Z.to_nat k) (frame w from) ++ drop (Z.to_nat k) (frame w to)).
Definition clear_tail (n k : Z) : M vm unit :=
  w ← get;
  set_frame n (take (Z.to_nat k) (frame w n) ++ replicate (Z.to_nat (PAGE_SIZE - k)) 0).

(** *** Hash tables *)

Definition hash_vp_by_vaddr (v : vp) : Z := int_hash (page_of (vaddr v)).
Definition hash_vp_by_phys (v : vp) : M vm Z :=
  _ ← assert_ (negb (status v =? 0)); mret (int_hash (status v)).
Definition hash_lazy_mmap_by_ino (m : lazy_mmap) : Z :=
  Z.lxor (int_hash (Z.land (ino m) 0xffffffff)) (int_hash (Z.shiftr (ino m) 32)).

(** htable_add() may fail to allocate. *)
Definition htable_add (tab : vm_table) (h v : Z) (t : htable) : M vm (bool * htable) :=
  ok ← vm_ask (VHtableAdd tab);
  mret (if ok =? 0 then (false, t) else (true, t ++ [(h, v)])).

(** The entry of [t] for the page [a], if any. *)
Definition is_vp_at (w : vm) (a : Z) (e : Z * Z) : bool :=
  (e.1 =? int_hash a) && match vps w !! e.2 with Some v => page_of (vaddr v) =? a | None => false end.
Definition find_vp (w : vm) (t : htable) (a : Z) : option Z := snd <$> find (is_vp_at w a) t.

Definition has_shares (hash n count : Z) : M vm bool :=
  _ ← assert_ (0 <? count);
  w ← get;
  vs ← mapM vp_at (htable_vals hash (share_table w));
  mret (count <=? Z.of_nat (List.length (filter (fun v => status v = n) vs))).

(** *** Page lists *)

Definition push_list (l x : Z) : M vm unit :=
  modify (fun w => set_lists (<[l := x :: lst w l]> (lists w)) w).

Definition push_page (l oldlink : Z) : M vm unit :=
  nl ← malloc;
  nl ← of_option StFault nl;
  o ← pl_at oldlink;
  _ ← modify (fun w => set_pls (<[nl := Pl (page_num o) 1 (fsid_ino o) (pl_offset o)]> (pls w)) w);
  _ ← pl2pp oldlink;
  _ ← set_link (page_num o) (Some nl);
  push_list l nl.

Definition get_free_pl : M vm Z :=
  w ← get;
  match lst w page_free_list with
  | [] => halt StAbort
  | x :: l => _ ← modify (set_lists (<[page_free_list := l]> (lists w))); mret x
  end.

Definition free_pl (x : Z) : M vm unit := modify (fun w => set_pls (delete x (pls w)) w).

Definition hash_cached_page (a b c : Z) : Z :=
  bob96bitmix (bob96bitmix 0xdeadbeef 0xcafebabe a) (bob96bitmix 0xfeedface 0x12345678 b) c.
Definition bucket_of (hash : Z) : Z := Z.land hash (Z.shiftl 1 n_pc_buckets_log2 - 1).
Definition hash_lazy_mmap (m : lazy_mmap) (bump : Z) : Z :=
  hash_cached_page (u32 (offset m + bump))
    (Z.lor (u32 (Z.shiftl (pidof_NP vm_global (fd_serv m)) 16)) (Z.land (Z.shiftr (ino m) 32) 0xffff))
    (Z.land (ino m) 0xffffffff).

Definition is_cached (w : vm) (m : lazy_mmap) (bump x : Z) : bool :=
  match pls w !! x with
  | Some p => (0 <? pl_status p) && (PL_INO p =? ino m) && (pl_offset p =? u32 (offset m + bump))
              && (PL_FSID p =? pidof_NP vm_global (fd_serv m))
  | None => false
  end.
(** Returns the first node that was looked at, and the page's link. *)
Definition find_cached_page (m : lazy_mmap) (bump : Z) : M vm (option Z * option Z) :=
  w ← get;
  let l := lst w (bucket_of (hash_lazy_mmap m bump)) in
  mret (head l, find (is_cached w m bump) l).

(** The elements of [l] before [stop]. *)
Fixpoint before (stop : option Z) (l : list Z) : list Z :=
  match l with
  | [] => []
  | x :: l => if bool_decide (Some x = stop) then [] else x :: before stop l
  end.

Definition push_cached_page (lookup_top : option Z) (oldlink : Z) : M vm (Z * Z) :=
  o ← pl_at oldlink;
  let l := bucket_of (hash_cached_page (pl_offset o) (Z.shiftr (fsid_ino o) 32)
                        (Z.land (fsid_ino o) 0xffffffff)) in
  nl ← malloc;
  match nl with
  | None => mret (- ENOMEM, 0)
  | Some nl =>
      w ← get;
      let fresh := if bool_decide (lookup_top = head (lst w l)) then [] else before lookup_top (lst w l) in
      let is_it (x : Z) := match pls w !! x with
                           | Some p => (fsid_ino p =? fsid_ino o) && (pl_offset p =? pl_offset o)
                           | None => false
                           end in
      match find is_it fresh with
      | Some cand => mret (- EEXIST, cand)
      | None =>
          _ ← modify (fun w => set_pls (<[nl := Pl (page_num o) 1 (fsid_ino o) (pl_offset o)]> (pls w)) w);
          _ ← push_list l nl;
          _ ← pl2pp oldlink;
          _ ← set_link (page_num o) (Some nl);
          mret (0, nl)
      end
  end.

(** Takes the links of [dead] off the active list. *)
Definition remove_active_pls (dead : list Z) : M vm unit :=
  w ← get;
  let l := lst w page_active_list in
  _ ← modify (set_lists (<[page_active_list := filter (fun x => x ∉ dead) l]> (lists w)));
  mapM_ free_pl (filter (fun x => x ∈ dead) l).

(** Returns the buffer with [link0] added. *)
Definition free_page (link0 : Z) (dead : list Z) : M vm (list Z) :=
  p ← pl_at link0;
  _ ← pl2pp link0;
  _ ← modify (fun w => set_pls (<[link0 := Pl (page_num p) 0 (fsid_ino p) (pl_offset p)]> (pls w)) w);
  _ ← push_page page_free_list link0;
  q ← get_pp (page_num p);
  _ ← assert_ (bool_decide (link q <> Some link0));
  mret (dead ++ [link0]).

(** *** Owners and shares *)

Definition in_memory (status : Z) : bool := negb (has status 0x80000000).

Definition add_share (st : Z) (share : Z) : M vm bool :=
  _ ← assert_ (in_memory st);
  phys ← get_pp st;
  match owner phys with
  | None => _ ← set_owner st (Some share); mret true
  | Some _ =>
      v ← vp_at share;
      h ← hash_vp_by_phys v;
      w ← get;
      '(ok, t) ← htable_add TabShares h share (share_table w);
      _ ← modify (set_share_table t);
      mret ok
  end.

(** htable_del() of an entry of the share table; whether it was there. *)
Definition del_share (h v : Z) : M vm bool :=
  w ← get;
  _ ← modify (set_share_table (htable_del h v (share_table w)));
  mret (bool_decide ((h, v) ∈ share_table w)).

Definition rm_share (vp : Z) : M vm bool :=
  v ← vp_at vp;
  _ ← assert_ (in_memory (status v));
  hash ← hash_vp_by_phys v;
  phys ← get_pp (status v);
  if bool_decide (owner phys = Some vp) then
    _ ← set_owner (status v) None;
    s ← has_shares hash (status v) 1; mret (negb s)
  else
    ok ← del_share hash vp;
    _ ← assert_ ok;
    if bool_decide (owner phys <> None) then mret false
    else s ← has_shares hash (status v) 1; mret (negb s).

Definition remove_vp (vp : Z) (dead : list Z) : M vm (list Z) :=
  v ← vp_at vp;
  _ ← assert_ (in_memory (status v));
  phys ← get_pp (status v);
  link0 ← of_option StFault (link phys);
  l ← pl_at link0;
  dead ← (if PL_IS_PRIVATE l && negb (VP_IS_COW v) then
            _ ← assert_ (bool_decide (owner phys = Some vp));
            s ← has_shares (int_hash (page_num l)) (page_num l) 1;
            _ ← assert_ (negb s);
            _ ← set_link (status v) None;
            _ ← set_owner (status v) None;
            free_page link0 dead
          else
            last ← rm_share vp;
            if (last : bool) && VP_IS_ANON v then free_page link0 dead else mret dead);
  phys ← get_pp (status v);
  _ ← assert_ (bool_decide (owner phys <> Some vp));
  _ ← modify (fun w => set_vps (delete vp (vps w)) w);
  mret dead.

(** Pages to be unmapped are passed on 64 at a time. *)
Definition push_fpage (fps : list (Z * Z)) (n rights : Z) : M vm (list (Z * Z)) :=
  let fps := fps ++ [(n, rights)] in
  if (List.length fps =? 64)%nat then _ ← vm_ask (VUnmapFpages fps); mret [] else mret fps.
Definition flush_fpages (fps : list (Z * Z)) : M vm unit :=
  if bool_decide (fps = []) then mret tt else _ ← vm_ask (VUnmapFpages fps); mret tt.

(** A virtual page goes, and access to its memory with it. *)
Definition drop_vp (vp : Z) (st : list (Z * Z) * list Z) : M vm (list (Z * Z) * list Z) :=
  v ← vp_at vp;
  _ ← assert_ (in_memory (status v));
  fps ← push_fpage st.1 (status v) L4_FullyAccessible;
  dead ← remove_vp vp st.2;
  mret (fps, dead).

Fixpoint foldM {A B} (f : A -> B -> M vm B) (l : list A) (b : B) : M vm B :=
  match l with [] => mret b | x :: l => b ← f x b; foldM f l b end.

(** The page addresses of [addr, addr + size) *)
Definition page_range (addr size : Z) : list Z :=
  let last := u32 (addr + size) in
  if last <=? addr then []
  else map (fun i => addr + i * PAGE_SIZE) (seqZ 0 ((last - addr + PAGE_SIZE - 1) / PAGE_SIZE)).

(** htable_pop(&sp->pages, ...) *)
Definition pop_page (sp a : Z) : M vm (option Z) :=
  w ← get;
  match find_vp w (pages (space_of w sp)) a with
  | None => mret None
  | Some v =>
      _ ← space_upd sp (fun s => set_pages (htable_del (int_hash a) v (pages s)) s);
      mret (Some v)
  end.

Definition remove_vp_range (sp addr size : Z) : M vm unit :=
  '(fps, dead) ← foldM (fun pos st =>
      v ← pop_page sp pos;
      match v with None => mret st | Some v => drop_vp v st end)
    (page_range addr size) ([], []);
  _ ← flush_fpages fps;
  remove_active_pls dead.
End vm.
