(* ===== verification/VmMaps.v ===== *)
(** Lazy mappings of sys/vm/vm.c: the tree of an address space, cutting mappings up,
    and placing new ones. *)
From S2P Require Import Prelude L4 Pages HashUtil Containers Vm.

(** rb_next() from [x] on: the nodes from [x] on in order. *)
Fixpoint from_node (x : Z) (l : list Z) : list Z :=
  match l with [] => [] | y :: l' => if x =? y then l else from_node x l' end.

Definition last_of (m : lazy_mmap) : Z := u32 (addr m + length m - 1).
Definition end_of (m : lazy_mmap) : Z := u32 (addr m + length m).

Section tree.
Context (f : Z -> lazy_mmap).

(** The mapping in the way, or the tree with [mm] linked to it. *)
Fixpoint insert_lazy_mmap_helper (t : rbtree) (mm : Z) : Z + rbtree :=
  match t with
  | RB_ROOT => inr (RbNode RB_ROOT mm RB_ROOT)
  | RbNode l oth r =>
      if last_of (f mm) <? addr (f oth) then
        match insert_lazy_mmap_helper l mm with inl d => inl d | inr l => inr (RbNode l oth r) end
      else if last_of (f oth) <? addr (f mm) then
        match insert_lazy_mmap_helper r mm with inl d => inl d | inr r => inr (RbNode l oth r) end
      else inl oth
  end.

(** The mapping of the address [a]. *)
Fixpoint lookup_mmap (t : rbtree) (a : Z) : option Z :=
  match t with
  | RB_ROOT => None
  | RbNode l cand r =>
      if a <? addr (f cand) then lookup_mmap l a
      else if end_of (f cand) <=? a then lookup_mmap r a
      else Some cand
  end.

(** The last node on the way down to [a]; [cand] is the one before. *)
Fixpoint descend (t : rbtree) (a : Z) (cand : option Z) : option Z :=
  match t with
  | RB_ROOT => cand
  | RbNode l m r =>
      if a <? addr (f m) then descend l a (Some m)
      else if end_of (f m) <=? a then descend r a (Some m)
      else Some m
  end.

Fixpoint skip_right (l : list Z) (last : Z) : option Z :=
  match l with
  | [] => None
  | x :: l => if last <=? addr (f x) then skip_right l last else Some x
  end.
Fixpoint skip_left (l : list Z) (a : Z) : option Z :=
  match l with
  | [] => None
  | x :: l => if end_of (f x) <=? a then skip_left l a else Some x
  end.

Definition first_of (t : rbtree) (a sz : Z) : option Z :=
  match lookup_mmap t a with
  | Some m => Some m
  | None =>
      match descend t a None with
      | None => None
      | Some c =>
          match skip_right (from_node c (inorder t)) (u32 (a + sz)) with
          | None => None
          | Some c => skip_left (from_node c (rev (inorder t))) a
          end
      end
  end.
End tree.

Section maps.
Context `{!L4Abi, !VmEnv, !RbOps}.

(** Returns the mapping in the way, if there is one. *)
Definition insert_lazy_mmap (sp mm : Z) : M vm (option Z) :=
  w ← get;
  match insert_lazy_mmap_helper (mm_of w) (maps (space_of w sp)) mm with
  | inl dupe => mret (Some dupe)
  | inr t =>
      _ ← space_upd sp (fun s => set_maps (rb_insert_color mm t) (last_mmap s) s);
      mret None
  end.

Definition find_lazy_mmap (sp a : Z) : M vm (option Z) :=
  w ← get;
  let s := space_of w sp in
  let l := match last_mmap s with Some m => mm_of w m | None => no_mmap end in
  if (addr l <=? a) && (a - addr l <? length l) then mret (last_mmap s)
  else
    match lookup_mmap (mm_of w) (maps s) a with
    | Some m => _ ← space_upd sp (fun s => set_maps (maps s) (Some m) s); mret (Some m)
    | None => mret None
    end.

Definition first_lazy_mmap (sp a sz : Z) : M vm (option Z) :=
  _ ← assert_ (VALID_ADDR_SIZE a sz);
  gets (fun w => first_of (mm_of w) (maps (space_of w sp)) a sz).

Definition prot_to_l4_rights (prot : Z) : Z :=
  Z.lor (Z.shiftl (Z.land prot PROT_READ) 2)
    (Z.lor (Z.land prot PROT_WRITE) (Z.shiftr (Z.land prot PROT_EXEC) 2)).

(** TODO of the source: no search for free address space yet *)
Definition get_as_free (sp length : Z) : M vm Z := mret 0.

(** One page of the mapping [mm], [page] pages after [first]. *)
Definition cut_page (mm hash first : Z) (page : Z) (dead : list Z) : M vm (list Z) :=
  m ← mm_at mm;
  '(_, link) ← find_cached_page m (u32 (offset m + page));
  match link with
  | None => mret dead
  | Some x =>
      w ← get;
      let covers (oth : Z) :=
        negb (oth =? mm) && (ino (mm_of w oth) =? ino m)
        && OVERLAP_EXCL (u32 (first + page * PAGE_SIZE)) PAGE_SIZE
             (addr (mm_of w oth)) (length (mm_of w oth)) in
      if existsb covers (htable_vals hash (anon_mmap_table w)) then mret dead
      else
        p ← pl_at x;
        s ← has_shares (int_hash (page_num p)) (page_num p) 1;
        _ ← assert_ (negb s);
        q ← pl2pp x;
        _ ← assert_ (bool_decide (owner q = None));
        free_page x dead
  end.

Definition cut_anon_mmap (mm hash first last : Z) : M vm unit :=
  m ← mm_at mm;
  _ ← assert_ (IS_ANON_MMAP m);
  _ ← assert_ (hash =? hash_lazy_mmap_by_ino m);
  let last := if last =? first then last_of m else Z.min (last_of m) last in
  let first := Z.max (addr m) first in
  dead ← foldM (cut_page mm hash first) (seqZ 0 (Z.shiftr (u32 (last - first + 1)) PAGE_BITS)) [];
  remove_active_pls dead.

Definition free_mm (m : Z) : M vm unit := modify (fun w => set_mms (delete m (mms w)) w).

(** Takes [cur] out of [addr, addr + size). *)
Definition unmap_one (sp a size cur : Z) : M vm unit :=
  c ← mm_at cur;
  let hash := hash_lazy_mmap_by_ino c in
  let stop := u32 (a + size) in
  if (a <=? addr c) && (end_of c <=? stop) then
    (* within the range *)
    _ ← when_ (IS_ANON_MMAP c)
          (_ ← cut_anon_mmap cur hash 0 0;
           modify (fun w => set_anon_mmap_table (htable_del hash cur (anon_mmap_table w)) w));
    _ ← space_upd sp (fun s => set_maps (rb_erase cur (maps s))
           (if bool_decide (last_mmap s = Some cur) then None else last_mmap s) s);
    free_mm cur
  else if (addr c <? a) && (stop <? end_of c) then
    (* the other way around: a fragment for the tail *)
    tail ← malloc;
    match tail with
    | None => halt StAbort
    | Some tail =>
        _ ← modify (fun w => set_mms (<[tail := set_place stop (u32 (length c - u32 (stop - addr c))) c]> (mms w)) w);
        _ ← mm_upd cur (fun m => set_tailsz PAGE_SIZE (set_place (addr m) (u32 (a - addr m)) m));
        old ← insert_lazy_mmap sp tail;
        _ ← assert_ (bool_decide (old = None));
        when_ (IS_ANON_MMAP c)
          (_ ← cut_anon_mmap cur hash a (u32 (stop - 1));
           w ← get;
           '(ok, t) ← htable_add TabAnonMmaps hash tail (anon_mmap_table w);
           _ ← modify (set_anon_mmap_table t);
           if (ok : bool) then mret tt else halt StAbort)
    end
  else if addr c <? a then
    (* overlap on the left *)
    _ ← assert_ (a <? end_of c);
    _ ← mm_upd cur (fun m => set_tailsz PAGE_SIZE (set_place (addr m) (u32 (a - addr m)) m));
    when_ (IS_ANON_MMAP c) (cut_anon_mmap cur hash (addr c) (u32 (addr c + u32 (a - addr c) - 1)))
  else
    (* overlap on the right *)
    _ ← assert_ (stop <? end_of c);
    _ ← assert_ (addr c <? stop);
    _ ← when_ (IS_ANON_MMAP c) (cut_anon_mmap cur hash (addr c) (u32 (a - 1)));
    mm_upd cur (fun m => set_place stop (u32 (length m - u32 (stop - addr m))) m).

(** The nodes from the first one on: what a turn adds or takes away is behind the next. *)
Fixpoint unmap_from (sp a size : Z) (l : list Z) : M vm unit :=
  match l with
  | [] => mret tt
  | cur :: l =>
      c ← mm_at cur;
      _ ← assert_ ((a <=? addr c) || (a <? end_of c));
      if u32 (a + size) <=? addr c then mret tt
      else _ ← unmap_one sp a size cur; unmap_from sp a size l
  end.

Definition munmap_space (sp a size : Z) : M vm unit :=
  _ ← assert_ (Z.land (Z.lor a size) PAGE_MASK =? 0);
  _ ← assert_ (VALID_ADDR_SIZE a size);
  _ ← remove_vp_range sp a size;
  cur ← first_lazy_mmap sp a size;
  w ← get;
  _ ← unmap_from sp a size
        (match cur with Some c => from_node c (inorder (maps (space_of w sp))) | None => [] end);
  cur ← first_lazy_mmap sp a size;
  assert_ (bool_decide (cur = None)).

Definition RANGE_IN_FPAGE (fp start length : Z) : bool :=
  OVERLAP_EXCL (L4_Address fp) (u32 (Z.shiftl 1 (L4_SizeLog2 fp))) start length.

(** The pages and areas no mapping may cover: UTCBs, KIP, sysinfo and the end of brk. *)
Definition no_go (s : vm_space) (a length : Z) : bool :=
  existsb (fun fp => RANGE_IN_FPAGE fp a length)
    [utcb_area s; kip_area s; sysinfo_area s; L4_FpageLog2 (u32 (brk s - PAGE_SIZE)) PAGE_BITS].

Definition reserve_mmap (mm sp a len : Z) (fixed : bool) : M vm Z :=
  _ ← assert_ (Z.land len PAGE_MASK =? 0);
  _ ← assert_ (Z.land a PAGE_MASK =? 0);
  s ← gets (fun w => space_of w sp);
  let bad := no_go s a len in
  if bad && fixed then mret (- EEXIST)
  else
    let a := if bad then 0 else a in
    m ← mm_at mm;
    ok ← (if IS_ANON_MMAP m then
            w ← get;
            '(ok, t) ← htable_add TabAnonMmaps (hash_lazy_mmap_by_ino m) mm (anon_mmap_table w);
            _ ← modify (set_anon_mmap_table t); mret ok
          else mret true);
    if negb ok then mret (- ENOMEM)
    else
      _ ← mm_upd mm (set_place a len);
      old ← (if fixed then
               old ← insert_lazy_mmap sp mm;
               match old with
               | None => mret None
               | Some _ => _ ← munmap_space sp a len; insert_lazy_mmap sp mm
               end
             else
               old ← (if a =? 0 then mret (Some 0) else insert_lazy_mmap sp mm);
               match old with
               | None => mret None
               | Some _ =>
                   place ← get_as_free sp len;
                   _ ← (if negb (place =? 0) then mm_upd mm (set_place place len)
                        else
                          bot ← gets (fun w => mmap_bot (space_of w sp));
                          _ ← mm_upd mm (set_place (u32 (bot - len + 1)) len);
                          space_upd sp (fun s => set_mmap_bot (u32 (bot - len)) s));
                   insert_lazy_mmap sp mm
               end);
      _ ← assert_ (bool_decide (old = None));
      mret 0.
End maps.
