(* ===== verification/VmOps.v ===== *)
(** The requests of Sneks::VM and the page fault handler, sys/vm/vm.c, with the start of
    vm and its main loop. *)
From S2P Require Import Prelude L4 Pages HashUtil Containers Vm VmMaps.


Section ops.
Context `{!L4Abi, !VmEnv, !RbOps}.


(** *** Mappings *)

(** The parameters of a mapping; what a file server says of the handle is found out by
    the caller. *)
Definition new_mmap (length prot fl serv fd off : Z) : lazy_mmap :=
  Mm 0 0 (Z.lor (Z.shiftl (prot_to_l4_rights prot) 16) (Z.land fl (bnot32 MAP_FIXED)))
    serv (u64 fd) (Z.shiftr off PAGE_BITS) (length mod PAGE_SIZE).

(** Returns the result and the address. *)
Definition vm_mmap (target_pid a length prot fl serv fd off : Z) : M vm (Z * Z) :=
  let bad := (- EINVAL, a) in
  if length =? 0 then mret bad
  else if has (Z.lor a off) PAGE_MASK then mret bad
  else if has fl MAP_PRIVATE && has fl MAP_SHARED then mret bad
  else if negb (has fl MAP_PRIVATE) && negb (has fl MAP_SHARED) then mret bad
  else
    caller ← sender_pid;
    let pid := if target_pid =? 0 then caller else target_pid in
    if (SNEKS_MAX_PID <? pid) || (pid =? 0) then mret bad
    else
      s ← space_at pid;
      if kip_area s =? 0 then mret bad
      else
        mm ← malloc;
        match mm with
        | None => mret (- ENOMEM, a)
        | Some mm =>
            (* what the mapping is of, or an error *)
            src ← (if has fl MAP_ANONYMOUS && has fl MAP_SHARED then
                     n ← gets next_anon_ino;
                     _ ← modify (set_next_anon_ino (u32 (n + 1)));
                     mret (0, (vm_global, s32 n, 0))
                   else if negb (has fl MAP_ANONYMOUS) && negb (serv =? L4_nilthread) then
                     n ← vm_ask (VIoTouch serv fd);
                     mret (if 0 <? n then - EIO else n, (serv, fd, off))
                   else mret (0, (serv, fd, off)));
            let '(n, (serv, fd, off)) := src in
            if negb (n =? 0) then mret (n, a)
            else
              _ ← modify (fun w => set_mms (<[mm := new_mmap length prot fl serv fd off]> (mms w)) w);
              n ← reserve_mmap mm pid a (PAGE_CEIL length) (has fl MAP_FIXED);
              if n <? 0 then _ ← free_mm mm; mret (n, a)
              else m ← mm_at mm; mret (n, addr m)
        end.

Definition anon_map (rights : Z) : lazy_mmap :=
  Mm 0 0 (Z.lor (Z.shiftl rights 16) (Z.lor MAP_ANONYMOUS MAP_PRIVATE)) 0 0 0 0.

(** rb_next() of a node *)
Definition rb_next (t : rbtree) (x : Z) : option Z := head (tail (from_node x (inorder t))).

Definition brk_fresh (sp old a : Z) : M vm Z :=
  mm ← malloc;
  match mm with
  | None => mret (- ENOMEM)
  | Some mm =>
      _ ← modify (fun w => set_mms (<[mm := anon_map L4_FullyAccessible]> (mms w)) w);
      n ← reserve_mmap mm sp old (u32 (a - old)) true;
      if n <? 0 then _ ← free_mm mm; mret n else mret 0
  end.

(** Space for the break to grow into.  A mapping at the break is extended if it ends
    there, and otherwise left as it is. *)
Definition brk_extend (sp old a : Z) : M vm Z :=
  mm ← find_lazy_mmap sp old;
  w ← get;
  match mm with
  | None => brk_fresh sp old a
  | Some mm =>
      let m := mm_of w mm in
      if (end_of m =? old) && has (flags m) MAP_ANONYMOUS && has (flags m) MAP_PRIVATE then
        match rb_next (maps (space_of w sp)) mm with
        | Some next =>
            if addr (mm_of w next) <? a then brk_fresh sp old a
            else _ ← mm_upd mm (fun m => set_place (addr m) (u32 (a - addr m)) m); mret 0
        | None => _ ← mm_upd mm (fun m => set_place (addr m) (u32 (a - addr m)) m); mret 0
        end
      else mret 0
  end.

Definition brk_shrink (sp old a : Z) : M vm unit :=
  mm ← find_lazy_mmap sp (u32 (old - 1));
  w ← get;
  let len := u32 (old - a) in
  match mm with
  | Some mm =>
      let m := mm_of w mm in
      if (addr m <? a) && (end_of m =? old) && has (flags m) MAP_ANONYMOUS then
        _ ← mm_upd mm (fun m => set_place (addr m) (u32 (a - addr m)) m);
        remove_vp_range sp a len
      else munmap_space sp a len
  | None => munmap_space sp a len
  end.

Definition vm_brk (a : Z) : M vm Z :=
  pid ← sender_pid;
  if SNEKS_MAX_PID <=? pid then mret (- EINVAL)
  else
    s ← space_at pid;
    _ ← assert_ (negb (L4_IsNilFpage (utcb_area s)));
    let a := if a <? 0x10000 then 0x10000 else a in
    let a := if user_addr_max <? a then user_addr_max else a in
    let a := PAGE_CEIL a in
    n ← (if brk s =? 0 then mret 0
         else if brk s <? a then brk_extend pid (brk s) a
         else _ ← brk_shrink pid (brk s) a; mret 0);
    if n <? 0 then mret n
    else _ ← space_upd pid (set_brk a); mret 0.

Definition vm_munmap (a size : Z) : M vm Z :=
  pid ← sender_pid;
  if (pid =? 0) || (SNEKS_MAX_PID <? pid) then mret (- EINVAL)
  else
    let a := page_of a in
    let size := PAGE_CEIL size in
    if negb (VALID_ADDR_SIZE a size) then mret (- EINVAL)
    else
      s ← space_at pid;
      if kip_area s =? 0 then mret (- EINVAL)
      else _ ← munmap_space pid a size; mret 0.

(** *** Address spaces *)

(** A mapping of a space that is being erased. *)
Definition erase_map (sp mm : Z) : M vm unit :=
  m ← mm_at mm;
  _ ← (if fd_serv m =? vm_global then
         _ ← assert_ (IS_ANON_MMAP m);
         let hash := hash_lazy_mmap_by_ino m in
         _ ← cut_anon_mmap mm hash 0 0;
         modify (fun w => set_anon_mmap_table (htable_del hash mm (anon_mmap_table w)) w)
       else if negb (L4_IsNilThread (fd_serv m)) then assert_ (negb (IS_ANON_MMAP m))
       else mret tt);
  _ ← space_upd sp (fun s => set_maps (rb_erase mm (maps s)) (last_mmap s) s);
  free_mm mm.

Definition vm_erase (target_pid : Z) : M vm Z :=
  pid ← sender_pid;
  if pid <? SNEKS_MIN_SYSID then mret (- EPERM)
  else
    s ← space_at target_pid;
    if L4_IsNilFpage (utcb_area s) || L4_IsNilFpage (kip_area s) then
      _ ← assert_ (bool_decide (pages s = []));
      _ ← assert_ (bool_decide (inorder (maps s) = []));
      mret (- EINVAL)
    else
      _ ← space_upd target_pid (set_as_free []);
      '(fps, dead) ← foldM (fun e st => drop_vp e.2 st) (pages s) ([], []);
      _ ← flush_fpages fps;
      _ ← space_upd target_pid (set_pages []);
      _ ← remove_active_pls dead;
      _ ← mapM_ (erase_map target_pid) (inorder (maps s));
      _ ← space_upd target_pid (fun s => set_areas L4_Nilpage L4_Nilpage L4_Nilpage (set_maps (maps s) None s));
      _ ← modify (fun w => set_spaces (ra_free target_pid (spaces w)) w);
      mret 0.

(** One mapping of the parent; false when memory ran out. *)
Fixpoint fork_maps (l : list Z) (dest : Z) : M vm Z :=
  match l with
  | [] => mret 0
  | orig :: l =>
      copy ← malloc;
      match copy with
      | None => mret (- ENOMEM)
      | Some copy =>
          m ← mm_at orig;
          _ ← modify (fun w => set_mms (<[copy := m]> (mms w)) w);
          ok ← (if IS_ANON_MMAP m then
                  _ ← assert_ (fd_serv m =? vm_global);
                  w ← get;
                  '(ok, t) ← htable_add TabAnonMmaps (hash_lazy_mmap_by_ino m) copy (anon_mmap_table w);
                  _ ← modify (set_anon_mmap_table t); mret ok
                else mret true);
          if negb ok then mret (- ENOMEM)
          else
            dupe ← insert_lazy_mmap dest copy;
            _ ← assert_ (bool_decide (dupe = None));
            fork_maps l dest
      end
  end.

(** What becomes of a page at fork. *)
Inductive fork_kind := ForkSkip | ForkShare | ForkCow.
Definition fork_kind_of (v : vp) : fork_kind :=
  if negb (VP_IS_ANON v) && (VP_IS_SHARED v || (negb (has (VP_RIGHTS v) L4_Writable) && negb (VP_IS_COW v)))
  then ForkSkip
  else if VP_IS_SHARED v then ForkShare else ForkCow.

Definition cow_copy (v : vp) : vp :=
  Vp (Z.lor (clear_bits (vaddr v) L4_Writable) (if has (VP_RIGHTS v) L4_Writable then VPF_COW else 0))
    (status v) 1.
Definition make_cow (v : vp) : vp := set_vaddr (clear_bits (Z.lor (vaddr v) VPF_COW) L4_Writable) v.
Definition unmake_cow (v : vp) : vp := set_vaddr (Z.lor (clear_bits (vaddr v) VPF_COW) L4_Writable) v.

(** A page of the parent is copied on write, as [copy].  The outcome tells whether
    there was memory, and whether write access has to be taken away. *)
Definition fork_cow (dest cur copy : Z) : M vm (bool * bool) :=
  v ← vp_at cur;
  let unmap := negb (VP_IS_COW v) && has (VP_RIGHTS v) L4_Writable in
  _ ← modify (fun w => set_vps (<[copy := cow_copy v]> (vps w)) w);
  w ← get;
  '(ok, t) ← htable_add TabPages (hash_vp_by_vaddr v) copy (pages (space_of w dest));
  _ ← space_upd dest (set_pages t);
  if negb (ok : bool) then mret (false, false)
  else
    _ ← when_ unmap (vp_upd cur make_cow);
    ok ← add_share (status v) copy;
    if negb (ok : bool) then _ ← when_ unmap (vp_upd cur unmake_cow); mret (false, false)
    else mret (true, unmap).

(** The pages of the parent from here on.  [copy] is memory left over from a page that
    was skipped, [fps] what is to be unmapped, [n] the pages so far. *)
Fixpoint fork_pages_from (l : htable) (dest : Z) (copy : option Z) (fps : list (Z * Z)) (n : Z)
  : M vm (Z * list (Z * Z)) :=
  match l with
  | [] => mret (n, fps)
  | (_, cur) :: l =>
      v ← vp_at cur;
      _ ← assert_ (xorb (VP_IS_COW v) (has (VP_RIGHTS v) L4_Writable));
      copy ← (match copy with Some c => mret (Some c) | None => malloc end);
      match copy with
      | None => mret (- ENOMEM, fps)
      | Some c =>
          match fork_kind_of v with
          | ForkSkip => fork_pages_from l dest (Some c) fps n
          | ForkShare => halt StAbort
          | ForkCow =>
              '(ok, unmap) ← fork_cow dest cur c;
              if negb (ok : bool) then mret (- ENOMEM, fps)
              else
                fps ← (if (unmap : bool) then push_fpage fps (status v) L4_Writable else mret fps);
                fork_pages_from l dest None fps (n + 1)
          end
      end
  end.
Definition fork_pages (src dest : Z) : M vm Z :=
  s ← gets (fun w => space_of w src);
  '(n, fps) ← fork_pages_from (pages s) dest None [] 0;
  _ ← flush_fpages fps;
  mret n.

(** ra_alloc(vm_space_ra, id) *)
Definition alloc_space (id : Z) : M vm (option Z) :=
  id ← (if 0 <? id then mret id else vm_ask VRaAllocAny);
  w ← get;
  match ra_alloc (SNEKS_MAX_PID + 1) id (spaces w) with
  | None => mret None
  | Some r => _ ← modify (set_spaces r); mret (Some id)
  end.

Definition vm_fork (srcpid destpid : Z) : M vm Z :=
  if (SNEKS_MAX_PID <? srcpid) || (SNEKS_MAX_PID <? destpid) then mret (- EINVAL)
  else
    pid ← sender_pid;
    if pid <? SNEKS_MIN_SYSID then mret (- EINVAL)
    else
      src ← (if srcpid =? 0 then mret (Some None)
             else
               s ← space_at srcpid;
               mret (if kip_area s =? 0 then None else Some (Some s)));
      match src with
      | None => mret (- EINVAL)
      | Some src =>
          dest ← alloc_space destpid;
          match dest with
          | None => mret (- EEXIST)
          | Some dest =>
              _ ← space_upd dest (fun s => set_pages [] (set_maps RB_ROOT None (set_as_free [] s)));
              match src with
              | None =>
                  _ ← space_upd dest (fun s => set_areas (2 ^ 32 - 1) L4_Nilpage (sysinfo_area s)
                                                 (set_brk 0 (set_mmap_bot user_addr_max s)));
                  mret dest
              | Some s =>
                  _ ← space_upd dest (fun d => set_areas (kip_area s) (utcb_area s) (sysinfo_area s)
                                                 (set_brk (brk s) (set_mmap_bot (mmap_bot s) d)));
                  n ← fork_maps (inorder (maps s)) dest;
                  n ← (if n =? 0 then fork_pages srcpid dest else mret n);
                  mret (if n <? 0 then n else dest)
              end
          end
      end.

(** Returns the result and the last reserved address. *)
Definition vm_configure (pid utcb kip : Z) : M vm (Z * Z) :=
  if SNEKS_MAX_PID <? pid then mret (- EINVAL, 0)
  else
    s ← space_at pid;
    if kip_area s =? 0 then mret (- EINVAL, 0)
    else if negb (kip_area s =? 2 ^ 32 - 1) || negb (L4_IsNilFpage (utcb_area s)) then mret (- EINVAL, 0)
    else
      let si := L4_FpageLog2 (u32 (L4_Address kip + L4_Size kip)) PAGE_BITS in
      if fpage_overlap kip utcb || fpage_overlap si utcb then mret (- EINVAL, 0)
      else
        _ ← space_upd pid (set_areas kip utcb si);
        let resv_low := Z.min (L4_Address kip) (Z.min (L4_Address utcb) (L4_Address si)) in
        if resv_low <=? 0x10000 then mret (- EINVAL, 0)
        else
          lowmem ← malloc;
          match lowmem with
          | None => mret (- ENOMEM, 0)
          | Some mm =>
              _ ← modify (fun w => set_mms (<[mm := anon_map L4_FullyAccessible]> (mms w)) w);
              n ← reserve_mmap mm pid 0x10000 (resv_low - 0x10000) true;
              if n <? 0 then _ ← free_mm mm; mret (n, 0)
              else mret (0, u32 (Z.max (u32 (L4_Address si + L4_Size si))
                                       (u32 (L4_Address utcb + L4_Size utcb)) - 1))
          end.

(** *** Pages *)

(** [data] fits in a page, as the IDL has it. *)
Definition vm_upload_page (target_pid a : Z) (data : list Z) (prot fl : Z) : M vm Z :=
  s ← space_at target_pid;
  if L4_IsNilFpage (utcb_area s) then mret (- EINVAL)
  else if has a PAGE_MASK then mret (- EINVAL)
  else if negb (has fl MAP_ANONYMOUS) then mret (- EINVAL)
  else if negb (has fl MAP_FIXED) then mret (- EINVAL)
  else if prot =? 0 then mret (- EINVAL)
  else if has fl MAP_SHARED then mret (- ENOSYS)
  else if negb (has fl MAP_PRIVATE) then mret (- EINVAL)
  else
    v ← malloc;
    match v with
    | None => mret (- ENOMEM)
    | Some v =>
        let rights := prot_to_l4_rights prot in
        let va := Z.lor a (Z.lor rights VPF_ANON) in
        mm ← malloc;
        match mm with
        | None => mret (- ENOMEM)
        | Some mm =>
            _ ← modify (fun w => set_mms (<[mm := Mm 0 0 (Z.lor (Z.shiftl rights 16) (Z.land fl (bnot32 MAP_FIXED))) 0 0 0 0]>
                                            (mms w)) w);
            n ← reserve_mmap mm target_pid a PAGE_SIZE true;
            if n <? 0 then _ ← free_mm mm; mret n
            else
              old ← pop_page target_pid a;
              _ ← (match old with
                   | None => mret tt
                   | Some old => dead ← remove_vp old []; remove_active_pls dead
                   end);
              link ← get_free_pl;
              l ← pl_at link;
              let n := page_num l in
              _ ← set_frame n (take (Z.to_nat PAGE_SIZE) data);
              _ ← clear_tail n (Z.of_nat (List.length data));
              _ ← push_page page_active_list link;
              _ ← free_pl link;
              _ ← modify (fun w => set_vps (<[v := Vp va n 1]> (vps w)) w);
              _ ← get_pp n;
              _ ← set_owner n (Some v);
              w ← get;
              '(ok, t) ← htable_add TabPages (int_hash a) v (pages (space_of w target_pid));
              _ ← space_upd target_pid (set_pages t);
              if (ok : bool) then mret 0 else halt StAbort
        end
    end.

Definition vm_breath_of_life (target sp ip : Z) : M vm Z :=
  ok ← vm_ask (VReply target [2; ip; sp]);
  if ok =? 0 then vm_ask VErrorCode else mret 0.

Definition vm_iopf : M vm unit := muidl_raise_no_reply.

(** Is the page of the share that was taken out, or of the owner [primary], the sole
    user's, and not in the page cache? *)
Definition pf_cow (virt : Z) : M vm (Z * Z) :=
  v ← vp_at virt;
  _ ← assert_ (VP_IS_COW v);
  _ ← assert_ (negb (has (VP_RIGHTS v) L4_Writable));
  phys ← get_pp (status v);
  let primary := owner phys in
  let hash := int_hash (status v) in
  _ ← (if bool_decide (primary = Some virt) then mret tt
       else ok ← del_share hash virt; if (ok : bool) then mret tt else halt StAbort);
  alone ← (if (bool_decide (primary = None) || bool_decide (primary = Some virt)) && VP_IS_ANON v
           then s ← has_shares hash (status v) 1; mret (negb s) else mret false);
  _ ← (if (alone : bool) then
         _ ← when_ (bool_decide (primary = None)) (set_owner (status v) (Some virt));
         _ ← vp_upd virt (fun v => set_vaddr (Z.lor (clear_bits (vaddr v) VPF_COW) L4_Writable) v);
         v ← vp_at virt;
         assert_ (negb (VP_IS_SHARED v))
       else
         _ ← when_ (bool_decide (primary = Some virt)) (set_owner (status v) None);
         newpl ← get_free_pl;
         l ← pl_at newpl;
         _ ← copy_page (page_num l) (status v) PAGE_SIZE;
         _ ← vp_upd virt (fun v => set_page (page_num l) (set_vaddr
               (Z.lor (clear_bits (vaddr v) (Z.lor VPF_COW VPF_SHARED)) (Z.lor L4_Writable VPF_ANON)) v));
         _ ← pl2pp newpl;
         _ ← set_owner (page_num l) (Some virt);
         _ ← push_page page_active_list newpl;
         free_pl newpl);
  v ← vp_at virt;
  mret (status v, VP_RIGHTS v).

(** Returns the result, a negative error or 0, and the bytes. *)
Definition read_at (m : lazy_mmap) (len off : Z) : M vm (Z * list Z) :=
  _ ← assert_ (off <=? 2 ^ 31 - 1);
  n ← vm_ask (VIoRead (fd_serv m) (ino m) len off);
  if negb (n =? 0) then mret (if 0 <? n then - EIO else n, [])
  else w ← get; mret (0, take (Z.to_nat len) (vm_data (vm_trace w))).

Definition set_key (x fsid_ino off : Z) : M vm unit :=
  modify (fun w => set_pls (alter (fun p => Pl (page_num p) (pl_status p) fsid_ino off) x (pls w)) w).

Definition fsid_ino_of (m : lazy_mmap) : Z :=
  Z.lor (u64 (Z.shiftl (pidof_NP vm_global (fd_serv m)) 48)) (Z.land (ino m) (bnot64 (Z.shiftl 0xffff 48))).

(** Fills the free page [link] for the page cache; a negative error, or 0. *)
Definition fill_page (m : lazy_mmap) (link off bump : Z) : M vm Z :=
  l ← pl_at link;
  '(n, bytes) ← (if has (flags m) MAP_ANONYMOUS then mret (0, [])
                 else read_at m PAGE_SIZE off);
  if n <? 0 then
    _ ← push_page page_free_list link; _ ← free_pl link; mret n
  else
    w ← get;
    _ ← set_frame (page_num l) (bytes ++ drop (List.length bytes) (frame w (page_num l)));
    _ ← clear_tail (page_num l) (Z.of_nat (List.length bytes));
    _ ← set_key link (fsid_ino_of m) (u32 (offset m + bump));
    l ← pl_at link;
    _ ← assert_ (PL_FSID l =? pidof_NP vm_global (fd_serv m));
    _ ← assert_ (PL_INO l =? ino m);
    mret 0.

(** Returns the result, and the cached page. *)
Definition fetch_cached_page (m : lazy_mmap) (bump v : Z) : M vm (Z * Z) :=
  '(top, cached) ← find_cached_page m bump;
  match cached with
  | Some c => mret (0, c)
  | None =>
      link ← get_free_pl;
      n ← fill_page m link (u32 (u32 (offset m + bump) * PAGE_SIZE)) bump;
      if n <? 0 then mret (n, 0)
      else
        l ← pl_at link;
        _ ← pl2pp link;
        _ ← set_owner (page_num l) (Some v);
        '(n, cached) ← push_cached_page top link;
        n ← (if n =? 0 then
               q ← pl2pp cached;
               _ ← assert_ (bool_decide (owner q = Some v)); mret 1
             else
               _ ← assert_ (n =? - EEXIST);
               _ ← push_page page_free_list link; mret 0);
        _ ← free_pl link;
        mret (n, cached)
  end.

(** Is the address in the last page of a mapping that ends before its page does? *)
Definition is_tail (m : lazy_mmap) (faddr : Z) : bool :=
  (page_of faddr =? u32 (end_of m - PAGE_SIZE)) && (tailsz m <? PAGE_SIZE).

(** The page that [faddr] is in, from the page cache or read into it. *)
Definition cached_for (m : lazy_mmap) (faddr : Z) : M vm (Z * Z) :=
  let bump := Z.shiftr (u32 (page_of faddr - addr m)) PAGE_BITS in
  '(top, cached) ← find_cached_page m bump;
  match cached with
  | Some c => mret (0, c)
  | None =>
      link ← get_free_pl;
      n ← fill_page m link (u32 (offset m * PAGE_SIZE + (page_of faddr - addr m))) bump;
      if n <? 0 then mret (n, 0)
      else
        '(n, cached) ← push_cached_page top link;
        _ ← (if n =? 0 then mret tt
             else _ ← assert_ (n =? - EEXIST); push_page page_free_list link);
        _ ← free_pl link;
        mret (0, cached)
  end.

(** Returns the result, and the page to map. *)
Definition pf_mmap_shared (v : Z) (m : lazy_mmap) (faddr : Z) : M vm (Z * Z) :=
  '(n, cached) ← cached_for m faddr;
  if n <? 0 then mret (n, 0)
  else
    c ← pl_at cached;
    if is_tail m faddr then
      link ← get_free_pl;
      l ← pl_at link;
      _ ← copy_page (page_num l) (page_num c) (tailsz m);
      _ ← clear_tail (page_num l) (tailsz m);
      _ ← vp_upd v (fun v => set_page (page_num l) (set_vaddr (Z.lor (vaddr v) VPF_ANON) v));
      _ ← get_pp (page_num l);
      _ ← set_owner (page_num l) (Some v);
      _ ← push_page page_active_list link;
      _ ← free_pl link;
      p ← vp_at v;
      _ ← assert_ (negb (VP_IS_SHARED p));
      _ ← assert_ (negb (VP_IS_COW p));
      mret (0, page_num l)
    else
      _ ← vp_upd v (set_page (page_num c));
      (* a failure is not noticed: the result is a truth value *)
      _ ← add_share (page_num c) v;
      _ ← vp_upd v (fun v => set_vaddr (Z.lor (vaddr v) VPF_SHARED) v);
      mret (0, page_num c).

Definition pf_mmap_private (v : Z) (m : lazy_mmap) (faddr fault_rwx : Z) : M vm (Z * Z) :=
  _ ← assert_ (has fault_rwx L4_Writable);
  '(n, cached) ← fetch_cached_page m (Z.shiftr (u32 (page_of faddr - addr m)) PAGE_BITS) v;
  if n <? 0 then mret (n, 0)
  else
    c ← pl_at cached;
    link ← get_free_pl;
    l ← pl_at link;
    _ ← (if is_tail m faddr then
           _ ← copy_page (page_num l) (page_num c) (tailsz m); clear_tail (page_num l) (tailsz m)
         else copy_page (page_num l) (page_num c) PAGE_SIZE);
    _ ← pl2pp link;
    _ ← set_owner (page_num l) (Some v);
    _ ← push_page page_active_list link;
    _ ← free_pl link;
    _ ← vp_upd v (fun v => set_vaddr (Z.lor (vaddr v) VPF_ANON) v);
    p ← vp_at v;
    _ ← assert_ (negb (VP_IS_SHARED p));
    _ ← assert_ (negb (VP_IS_COW p));
    _ ← when_ (n =? 1)
          (q ← pl2pp cached;
           _ ← set_owner (page_num c) None;
           assert_ (bool_decide (owner q = Some v)));
    mret (0, page_num l).

(** Memory for the new virtual page [v], by the kind of mapping and of fault. *)
Definition pf_fill (v : Z) (m : lazy_mmap) (faddr fault_rwx : Z) : M vm Z :=
  if has (flags m) MAP_SHARED
     || (negb (has fault_rwx L4_Writable) && negb (has (flags m) MAP_ANONYMOUS)) then
    '(n, page) ← pf_mmap_shared v m faddr;
    if negb (n =? 0) then halt StAbort
    else
      p ← vp_at v;
      _ ← when_ (negb (has fault_rwx L4_Writable) && has (vaddr p) L4_Writable)
            (vp_upd v make_cow);
      mret page
  else if has (flags m) MAP_ANONYMOUS then
    link ← get_free_pl;
    l ← pl_at link;
    _ ← clear_tail (page_num l) 0;
    _ ← pl2pp link;
    _ ← set_owner (page_num l) (Some v);
    _ ← push_page page_active_list link;
    _ ← free_pl link;
    _ ← vp_upd v (fun v => set_vaddr (Z.lor (vaddr v) VPF_ANON) v);
    mret (page_num l)
  else
    '(n, page) ← pf_mmap_private v m faddr fault_rwx;
    if negb (n =? 0) then halt StAbort else mret page.

(** A page that was not there, given its mapping; returns the page and its rights. *)
Definition pf_new (sp faddr fault_rwx rights : Z) (m : lazy_mmap) : M vm (Z * Z) :=
  v ← malloc;
  match v with
  | None => halt StAbort
  | Some v =>
      _ ← modify (fun w => set_vps (<[v := Vp (Z.lor (page_of faddr) rights) 0 1]> (vps w)) w);
      n ← pf_fill v m faddr fault_rwx;
      _ ← vp_upd v (set_page n);
      p ← vp_at v;
      w ← get;
      '(ok, t) ← htable_add TabPages (hash_vp_by_vaddr p) v (pages (space_of w sp));
      _ ← space_upd sp (set_pages t);
      if (ok : bool) then mret (n, VP_RIGHTS p) else halt StAbort
  end.

(** The page and rights that are mapped at the page of [faddr]; nothing when the
    fault is not replied to. *)
Definition vm_pf (faddr : Z) : M vm (option (Z * Z)) :=
  pid ← sender_pid;
  let segv : M vm (option (Z * Z)) :=
    _ ← vm_ask (VProcKill pid SIGSEGV); _ ← muidl_raise_no_reply; mret None in
  if SNEKS_MAX_PID <? pid then _ ← muidl_raise_no_reply; mret None
  else
    s ← space_at pid;
    if L4_IsNilFpage (utcb_area s) then _ ← muidl_raise_no_reply; mret None
    else
      w ← get;
      let fault_rwx := Z.land (vm_label w) 7 in
      match find_vp w (pages s) (page_of faddr) with
      | Some old =>
          v ← vp_at old;
          if VP_IS_COW v && has fault_rwx L4_Writable then r ← pf_cow old; mret (Some r)
          else if negb (Z.land (VP_RIGHTS v) fault_rwx =? fault_rwx) then segv
          else mret (Some (status v, VP_RIGHTS v))
      | None =>
          if ADDR_IN_FPAGE (sysinfo_area s) faddr then mret (Some (Z.shiftr the_sip PAGE_BITS, L4_Readable))
          else
            mm ← find_lazy_mmap pid faddr;
            match mm with
            | None => segv
            | Some mm =>
                m ← mm_at mm;
                _ ← assert_ ((addr m <=? faddr) && (faddr <? end_of m));
                let rights := Z.land (Z.shiftr (flags m) 16) 7 in
                if negb (Z.land fault_rwx rights =? fault_rwx) then segv
                else r ← pf_new pid faddr fault_rwx rights m; mret (Some r)
            end
      end.

(** *** Start and main loop *)

Definition add_phys_page (n : Z) (w : vm) : vm :=
  let x := next_ptr w in
  set_lists (<[page_free_list := x :: lst w page_free_list]> (lists w))
    (set_pls (<[x := Pl n 1 0 0]> (pls w))
       (set_pps (<[n := Pp (Some x) None]> (pps w)) (set_next_ptr (x + 1) w))).
(** [phys] are areas of memory by page number and length in pages, as they come from
    sysmem and do not overlap. *)
Definition init_phys (phys : list (Z * Z)) (w : vm) : vm :=
  foldl (fun w a => foldl (fun w o => add_phys_page (a.1 + o) w) w (seqZ 0 a.2)) w phys.
Definition vm0 : vm :=
  Vm ∅ ∅ ∅ ∅ 1 ∅ ∅ (Ra ∅ ∅) [] [] 1 0 0 false [].

(** A request of the interface, or a fault.  Addresses, lengths and thread IDs come as
    words of the message. *)
Inductive vm_request :=
| VmMmap (target a length prot fl serv fd off : Z)
| VmMunmap (a size : Z)
| VmFork (src dest : Z)
| VmConfigure (pid utcb kip : Z)
| VmUploadPage (target a : Z) (data : list Z) (prot fl : Z)
| VmBreathOfLife (target sp ip : Z)
| VmBrk (a : Z)
| VmErase (target : Z)
| VmFault (faddr : Z)
| VmIoFault.

Definition vm_serve (r : vm_request) : M vm unit :=
  match r with
  | VmMmap t a l p f s d o => _ ← vm_mmap t (u32 a) (u32 l) p f (u32 s) d o; mret tt
  | VmMunmap a l => _ ← vm_munmap (u32 a) (u32 l); mret tt
  | VmFork s d => _ ← vm_fork s d; mret tt
  | VmConfigure p u k => _ ← vm_configure p (u32 u) (u32 k); mret tt
  | VmUploadPage t a d p f => _ ← vm_upload_page t (u32 a) d p f; mret tt
  | VmBreathOfLife t s i => _ ← vm_breath_of_life (u32 t) (u32 s) (u32 i); mret tt
  | VmBrk a => _ ← vm_brk (u32 a); mret tt
  | VmErase t => _ ← vm_erase t; mret tt
  | VmFault a => _ ← vm_pf (u32 a); mret tt
  | VmIoFault => vm_iopf
  end.

(** A turn of the main loop. *)
Definition vm_turn (sender label : Z) (r : vm_request) : M vm unit :=
  _ ← modify (set_vm_message sender label); vm_serve r.
Definition vm_step (w w' : vm) : Prop := exists sender label r, vm_turn sender label r w = Ret tt w'.
End ops.
