(* ===== verification/VmProps.v ===== *)
(** Accounting of physical memory in vm: what the debugging invariants of sys/vm/vm.c
    check holds in every reachable state. *)
From S2P Require Import Prelude L4 Pages HashUtil Containers Vm VmMaps VmOps.

(** ** The invariant *)

(** [v] is one of the virtual pages [V], and stands for the page [n]. *)
Definition uses (w : vm) (V : gset Z) (v n : Z) : Prop :=
  v ∈ V /\ exists p, vps w !! v = Some p /\ status p = n.
Definition referenced (w : vm) (v n : Z) : Prop :=
  (exists q, pps w !! n = Some q /\ owner q = Some v) \/ (int_hash n, v) ∈ share_table w.

(** [V] are the virtual pages in use, [D] links taken out of service that may still be
    on the active list, and [E] pages that may be active without being used. *)
Record pages_ok `{!VmEnv} (V : gset Z) (D : list Z) (E : gset Z) (w : vm) : Prop := PagesOk {
  (* links on lists belong to their pages, unless they are out of service *)
  ok_listed l x : x ∈ lst w l -> exists p, pls w !! x = Some p
    /\ (pl_status p = 0 -> l <> page_free_list /\ (l = page_active_list -> x ∈ D))
    /\ (pl_status p <> 0 -> exists q, pps w !! page_num p = Some q /\ link q = Some x);
  ok_nodup l : NoDup (lst w l);
  ok_one_list l l' x : x ∈ lst w l -> x ∈ lst w l' -> l = l';
  (* every page is on a list *)
  ok_page n q : pps w !! n = Some q -> pp_first <= n /\ exists x p l,
    link q = Some x /\ pls w !! x = Some p /\ page_num p = n /\ pl_status p <> 0 /\ x ∈ lst w l;
  (* owners and shares *)
  ok_owner n q v : pps w !! n = Some q -> owner q = Some v -> uses w V v n;
  ok_share h v : (h, v) ∈ share_table w -> exists p, vps w !! v = Some p /\ v ∈ V
    /\ h = int_hash (status p) /\ forall q, pps w !! status p = Some q -> owner q <> Some v;
  ok_share_nodup : NoDup (share_table w);
  ok_used v : v ∈ V -> exists p q, vps w !! v = Some p /\ pps w !! status p = Some q
    /\ referenced w v (status p);
  (* kinds of page *)
  ok_free x p v : x ∈ lst w page_free_list -> pls w !! x = Some p -> ~ uses w V v (page_num p);
  ok_anon v p q x : v ∈ V -> vps w !! v = Some p -> pps w !! status p = Some q -> link q = Some x ->
    (VP_IS_ANON p = true <-> x ∈ lst w page_active_list);
  ok_shared v p : v ∈ V -> vps w !! v = Some p -> VP_IS_SHARED p = negb (VP_IS_ANON p);
  ok_private v v' p : v ∈ V -> vps w !! v = Some p -> VP_IS_ANON p = true -> VP_IS_COW p = false ->
    uses w V v' (status p) -> v' = v;
  ok_cow v p : v ∈ V -> vps w !! v = Some p -> VP_IS_COW p = true -> has (vaddr p) L4_Writable = false;
  ok_active x p : x ∈ lst w page_active_list -> pls w !! x = Some p -> pl_status p <> 0 ->
    page_num p ∉ E -> exists v, uses w V v (page_num p);
  (* addresses *)
  ok_next_pl x p : pls w !! x = Some p -> x < next_ptr w;
  ok_next_vp v p : vps w !! v = Some p -> v < next_ptr w;
  ok_dead x p : x ∈ D -> pls w !! x = Some p -> pl_status p = 0;
  ok_next_dead x : x ∈ D -> x < next_ptr w
}.

(** ** Basic facts *)

Lemma htable_del_elem h v t e : NoDup t -> e ∈ htable_del h v t <-> e ∈ t /\ e <> (h, v).
Proof.
  intros Hn. unfold htable_del, htable in *. destruct (list_find _ t) as [[i x]|] eqn:Ef.
  - apply list_find_Some in Ef as (Hi & -> & _).
    rewrite !list_elem_of_lookup. split.
    + intros [j Hj]. destruct (decide (j < i)%nat) as [Hl|Hl].
      * rewrite list_lookup_delete_lt in Hj by done. split; [by exists j|]. intros ->.
        pose proof (NoDup_lookup _ _ _ _ Hn Hj Hi). lia.
      * rewrite list_lookup_delete_ge in Hj by lia. split; [by exists (S j)|]. intros ->.
        pose proof (NoDup_lookup _ _ _ _ Hn Hj Hi). lia.
    + intros [[j Hj] Hne]. assert (j <> i) by (intros ->; congruence).
      destruct (decide (j < i)%nat) as [Hl|Hl].
      * exists j. by rewrite list_lookup_delete_lt.
      * exists (pred j). rewrite list_lookup_delete_ge by lia. by replace (S (pred j)) with j by lia.
  - apply list_find_None in Ef. rewrite Forall_forall in Ef. split; [|tauto].
    intros He. split; [done|]. intros ->. by apply (Ef _ He).
Qed.
Lemma htable_del_nodup h v t : NoDup t -> NoDup (htable_del h v t).
Proof.
  intros Hn. unfold htable_del, htable in *. destruct (list_find _ t) as [[i x]|]; [|done].
  eapply sublist_NoDup; [exact Hn|apply sublist_delete].
Qed.

Section pages.
Context `{LA : !L4Abi, VE : !VmEnv, RB : !RbOps}.

Lemma lst_insert ls w l x l' :
  lists w = <[l := x]> ls -> lst w l' = if decide (l = l') then x else default [] (ls !! l').
Proof. intros E. unfold lst. rewrite E. destruct (decide (l = l')) as [->|]; by simplify_map_eq. Qed.

Lemma uses_fun w V v n m : uses w V v n -> uses w V v m -> n = m.
Proof. intros (_ & p & E & <-) (_ & p' & E' & <-). congruence. Qed.

(** Changes that pages do not depend on *)
Lemma pages_ok_same V D E w w' :
  pages_ok V D E w -> pps w' = pps w -> pls w' = pls w -> lists w' = lists w ->
  share_table w' = share_table w -> next_ptr w <= next_ptr w' ->
  (forall v, v ∈ V -> vps w' !! v = vps w !! v) ->
  (forall v p, vps w' !! v = Some p -> v < next_ptr w') ->
  pages_ok V D E w'.
Proof.
  intros Hok Hpps Hpls Hlists Hst Hnext Hv Hvn.
  assert (forall l, lst w' l = lst w l) as Hl by (intros; unfold lst; by rewrite Hlists).
  assert (forall v n, uses w' V v n <-> uses w V v n) as Hu.
  { intros v n. unfold uses. split; intros (Hin & p & Hp & Hs); split; try done; exists p;
      (split; [|done]); [rewrite <- Hv by done | rewrite Hv by done]; done. }
  destruct Hok as [A1 A2 A3 A4 A5 A6 A7 A8 A9 B1 B2 B3 B4 B5 B6 B7 B8 B9].
  split; try setoid_rewrite Hl; try setoid_rewrite Hpls; try setoid_rewrite Hpps;
    try setoid_rewrite Hst; try setoid_rewrite Hu; try done.
  - intros h v Hin. destruct (A6 h v Hin) as (p & Hp & HV & Hrest). exists p. by rewrite Hv.
  - intros v HV. destruct (A8 v HV) as (p & q & Hp & Hq & Hr). exists p, q. rewrite Hv by done.
    split; [done|]. split; [done|]. unfold referenced in *. by rewrite Hpps, Hst.
  - intros v p q x HV. rewrite Hv by done. by apply B1.
  - intros v p HV. rewrite Hv by done. by apply B2.
  - intros v v' p HV. rewrite Hv by done. by apply B3.
  - intros v p HV. rewrite Hv by done. by apply B4.
  - intros x p Hx. specialize (B6 x p Hx). lia.
  - intros x Hx. specialize (B9 x Hx). lia.
Qed.

(** The link of a page, and the page of a link *)
Lemma ok_link V D E w n q x : pages_ok V D E w -> pps w !! n = Some q -> link q = Some x ->
  exists p l, pls w !! x = Some p /\ page_num p = n /\ pl_status p <> 0 /\ x ∈ lst w l.
Proof.
  intros Hok Hq Hx. destruct (ok_page _ _ _ _ Hok n q Hq) as (_ & x' & p & l & Hx' & H').
  rewrite Hx in Hx'. injection Hx' as <-. by exists p, l.
Qed.
Lemma ok_page_of V D E w l x p : pages_ok V D E w -> x ∈ lst w l -> pls w !! x = Some p ->
  pl_status p <> 0 -> exists q, pps w !! page_num p = Some q /\ link q = Some x.
Proof.
  intros Hok Hx Hp Hs. destruct (ok_listed _ _ _ _ Hok l x Hx) as (p' & Hp' & _ & H').
  rewrite Hp in Hp'. injection Hp' as <-. auto.
Qed.
Lemma ok_free_live V D E w x p : pages_ok V D E w -> x ∈ lst w page_free_list ->
  pls w !! x = Some p -> pl_status p <> 0.
Proof.
  intros Hok Hx Hp Hs. destruct (ok_listed _ _ _ _ Hok _ x Hx) as (p' & Hp' & H' & _).
  rewrite Hp in Hp'. injection Hp' as <-. by destruct (H' Hs).
Qed.
Lemma ok_users V D E w v n : pages_ok V D E w -> uses w V v n -> referenced w v n.
Proof.
  intros Hok (HV & p & Hp & <-). destruct (ok_used _ _ _ _ Hok v HV) as (p' & q & Hp' & _ & Hr).
  rewrite Hp in Hp'. by injection Hp' as <-.
Qed.

(** A page that is used again, or not active, need not be excepted. *)
Lemma pages_ok_settle V D E n w : pages_ok V D ({[n]} ∪ E) w ->
  ((exists v, uses w V v n) \/ forall q x, pps w !! n = Some q -> link q = Some x -> x ∉ lst w page_active_list) ->
  pages_ok V D E w.
Proof.
  intros Hok Hn. destruct Hok as [A1 A2 A3 A4 A5 A6 A7 A8 A9 B1 B2 B3 B4 B5 B6 B7 B8 B9].
  split; try done. intros x p Hx Hp Hs HE. destruct (decide (page_num p = n)) as [<-|Hne].
  - destruct Hn as [Hn|Hn]; [done|]. exfalso.
    destruct (A1 _ _ Hx) as (p' & Hp' & _ & Hq). rewrite Hp in Hp'. injection Hp' as <-.
    destruct (Hq Hs) as (q & Hq1 & Hq2). by apply (Hn q x Hq1 Hq2).
  - apply (B5 x p); try done. set_solver.
Qed.

(** A virtual page lets go of its page. *)
Lemma pages_ok_detach V D E w w' v p q :
  pages_ok V D E w -> v ∈ V -> vps w !! v = Some p -> pps w !! status p = Some q ->
  pps w' = (if decide (owner q = Some v) then <[status p := Pp (link q) None]> (pps w) else pps w) ->
  pls w' = pls w -> vps w' = vps w -> lists w' = lists w -> next_ptr w' = next_ptr w ->
  share_table w' = (if decide (owner q = Some v) then share_table w
                    else htable_del (int_hash (status p)) v (share_table w)) ->
  pages_ok (V ∖ {[v]}) D ({[status p]} ∪ E) w'.
Proof.
  intros Hok HV Hp Hq Hpps Hpls Hvps Hlists Hnext Hst.
  assert (forall l, lst w' l = lst w l) as Hl by (intros; unfold lst; by rewrite Hlists).
  assert (forall u n, uses w' (V ∖ {[v]}) u n <-> uses w V u n /\ u <> v) as Hu.
  { intros u n. unfold uses. rewrite Hvps. set_solver. }
  assert (forall n q', pps w' !! n = Some q' -> exists q0, pps w !! n = Some q0 /\ link q' = link q0
            /\ forall u, owner q' = Some u <-> owner q0 = Some u /\ u <> v) as Hback.
  { intros n q' Hq'. rewrite Hpps in Hq'. destruct (decide (owner q = Some v)) as [Ho|Ho].
    - destruct (decide (n = status p)) as [->|].
      + rewrite lookup_insert_eq in Hq'. injection Hq' as <-. exists q. cbn.
        split; [done|]. split; [done|]. intros u. split; [done|]. intros [? ?]. congruence.
      + rewrite lookup_insert_ne in Hq' by done. exists q'. split; [done|]. split; [done|].
        intros u. split; [|tauto]. intros Hou. split; [done|]. intros ->.
        destruct (ok_owner _ _ _ _ Hok _ _ _ Hq' Hou) as (_ & p' & Hp' & Hs'). congruence.
    - exists q'. split; [done|]. split; [done|]. intros u. split; [|tauto]. intros Hou.
      split; [done|]. intros ->.
      destruct (ok_owner _ _ _ _ Hok _ _ _ Hq' Hou) as (_ & p' & Hp' & Hs').
      rewrite Hp in Hp'. injection Hp' as <-. rewrite Hs' in Hq. congruence. }
  assert (forall n q0, pps w !! n = Some q0 -> exists q', pps w' !! n = Some q' /\ link q' = link q0
            /\ forall u, owner q' = Some u <-> owner q0 = Some u /\ u <> v) as Hforw.
  { intros n q0 Hq0. assert (exists q', pps w' !! n = Some q') as [q' Hq'].
    { rewrite Hpps. destruct (decide (owner q = Some v)); [|by exists q0].
      destruct (decide (n = status p)) as [->|]; simplify_map_eq; eauto. }
    exists q'. split; [done|]. destruct (Hback n q' Hq') as (q1 & Hq1 & ? & ?).
    rewrite Hq0 in Hq1. by injection Hq1 as <-. }
  assert (forall h u, (h, u) ∈ share_table w' <-> (h, u) ∈ share_table w /\ u <> v) as Hsh.
  { intros h u. rewrite Hst. destruct (decide (owner q = Some v)) as [Ho|Ho].
    - split; [|tauto]. intros Hin. split; [done|]. intros ->.
      destruct (ok_share _ _ _ _ Hok _ _ Hin) as (p' & Hp' & _ & _ & Hno).
      rewrite Hp in Hp'. injection Hp' as <-. by apply (Hno q).
    - rewrite htable_del_elem by apply (ok_share_nodup _ _ _ _ Hok). split; intros [Hin Hne].
      + split; [done|]. intros ->. apply Hne.
        destruct (ok_share _ _ _ _ Hok _ _ Hin) as (p' & Hp' & _ & -> & _).
        rewrite Hp in Hp'. by injection Hp' as <-.
      + split; [done|]. congruence. }
  destruct Hok as [A1 A2 A3 A4 A5 A6 A7 A8 A9 B1 B2 B3 B4 B5 B6 B7 B8 B9].
  split; try setoid_rewrite Hl; try setoid_rewrite Hpls; try setoid_rewrite Hvps;
    try setoid_rewrite Hu; try rewrite Hnext; try done.
  - intros l x Hx. destruct (A1 l x Hx) as (p' & Hp' & Hd & Hlive). exists p'. split; [done|].
    split; [done|]. intros Hs. destruct (Hlive Hs) as (q0 & Hq0 & Hx0).
    destruct (Hforw _ _ Hq0) as (q' & ? & El & _). exists q'. by rewrite El.
  - intros n q' Hq'. destruct (Hback n q' Hq') as (q0 & Hq0 & -> & _). by apply A4.
  - intros n q' u Hq' Ho. destruct (Hback n q' Hq') as (q0 & Hq0 & _ & Hiff).
    destruct (proj1 (Hiff u) Ho) as [Ho' Hne]. split; [|done]. by apply (A5 n q0 u).
  - intros h u Hin%Hsh. destruct Hin as [Hin Hne]. destruct (A6 h u Hin) as (p' & Hp' & HV' & Hh & Hno).
    exists p'. split; [done|]. split; [set_solver|]. split; [done|]. intros q' Hq' Ho.
    destruct (Hback _ q' Hq') as (q0 & Hq0 & _ & Hiff). destruct (proj1 (Hiff _) Ho) as [Ho' _].
    by apply (Hno q0).
  - rewrite Hst. destruct (decide _); [done|]. by apply htable_del_nodup.
  - intros u [HuV Hne]%elem_of_difference. rewrite elem_of_singleton in Hne.
    destruct (A8 u HuV) as (p' & q0 & Hp' & Hq0 & Hr). destruct (Hforw _ _ Hq0) as (q' & Hq' & _ & Hiff).
    exists p', q'. split; [done|]. split; [done|]. destruct Hr as [(q1 & Hq1 & Ho)|Hin].
    + left. exists q'. split; [done|]. apply Hiff. rewrite Hq0 in Hq1. by injection Hq1 as <-.
    + right. by apply Hsh.
  - intros x p' u Hx Hp' [Huse _]. by apply (A9 x p' u).
  - intros u p' q' x HuV Hp' Hq' Hx'. destruct (Hback _ _ Hq') as (q0 & Hq0 & El & _).
    apply (B1 u p' q0 x); try done; [set_solver|congruence].
  - intros u p' HuV. apply B2. set_solver.
  - intros u u' p' HuV Hp' Ha Hc [Huse _]. apply (B3 u u' p'); try done. set_solver.
  - intros u p' HuV. apply B4. set_solver.
  - intros x p' Hx Hp' Hs HE.
    destruct (B5 x p' Hx Hp' Hs) as [u Huse]; [set_solver|]. exists u. split; [done|].
    intros ->. destruct Huse as (_ & p0 & Hp0 & Hs0). rewrite Hp in Hp0. injection Hp0 as <-.
    apply HE. rewrite <- Hs0. set_solver.
Qed.

(** The page [n], which nobody uses, moves from its link [x] to a new one on another
    list; [x] stays behind out of service, or goes.  A new virtual page may own it. *)
Record page_moves (V : gset Z) (D' : list Z) (n x nl l1 : Z) (o : option Z) (w w' : vm) : Prop := PageMoves {
  mv_pps : pps w' = <[n := Pp (Some nl) o]> (pps w);
  mv_new : next_ptr w <= nl < next_ptr w';
  mv_link : exists p, pls w' !! nl = Some p /\ page_num p = n /\ pl_status p <> 0;
  mv_old p : pls w' !! x = Some p -> pl_status p = 0;
  mv_pls y : y <> nl -> y <> x -> pls w' !! y = pls w !! y;
  mv_in l y : y ∈ lst w' l -> (y = nl /\ l = l1)
    \/ (y ∈ lst w l /\ (y = x -> is_Some (pls w' !! x) /\ l <> page_free_list /\ (l = page_active_list -> x ∈ D')));
  mv_keep l y : y <> x -> y ∈ lst w l -> y ∈ lst w' l;
  mv_top : nl ∈ lst w' l1;
  mv_nodup l : NoDup (lst w' l);
  mv_share : share_table w' = share_table w;
  mv_vps v : v ∈ V -> vps w' !! v = vps w !! v;
  mv_next v p : vps w' !! v = Some p -> v < next_ptr w';
  mv_active : l1 = page_active_list <-> o <> None;
  mv_owner v : o = Some v -> v ∉ V /\ exists p, vps w' !! v = Some p /\ status p = n
    /\ VP_IS_ANON p = true /\ VP_IS_SHARED p = false /\ (VP_IS_COW p = true -> has (vaddr p) L4_Writable = false)
}.

Definition with_owner (o : option Z) (V : gset Z) : gset Z :=
  match o with Some v => {[v]} ∪ V | None => V end.

Lemma pages_ok_move V D D' E w w' n q x nl l1 o :
  pages_ok V D ({[n]} ∪ E) w -> pps w !! n = Some q -> link q = Some x -> (forall u, ~ uses w V u n) ->
  (forall y, y ∈ D' <-> y ∈ D \/ (y ∈ D' /\ y = x)) ->
  page_moves V D' n x nl l1 o w w' -> pages_ok (with_owner o V) D' E w'.
Proof.
  intros Hok Hq Hx Hnu HD Hmv.
  destruct (ok_link _ _ _ _ _ _ _ Hok Hq Hx) as (p & l0 & Hp & Hn & Hlive & Hl0).
  destruct Hmv as [Mpps Mnew (pn & Mlink & Mn & Mlive) Mold Mpls Min Mkeep Mtop Mnd Mst Mvps Mnext Mact Mown].
  assert (forall m, m <> n -> pps w' !! m = pps w !! m) as Hpne by (intros; rewrite Mpps; by simplify_map_eq).
  assert (pps w' !! n = Some (Pp (Some nl) o)) as Hpn by (rewrite Mpps; by simplify_map_eq).
  assert (nl <> x) as Hnlx. { intros ->. pose proof (ok_next_pl _ _ _ _ Hok _ _ Hp). lia. }
  assert (forall y l, y ∈ lst w l -> y <> nl) as Hold.
  { intros y l Hy ->. destruct (ok_listed _ _ _ _ Hok _ _ Hy) as (py & Hpy & _).
    pose proof (ok_next_pl _ _ _ _ Hok _ _ Hpy). lia. }
  assert (forall u m, u ∈ V -> uses w' (with_owner o V) u m <-> uses w V u m) as Hu.
  { intros u m Hu. unfold uses. rewrite (Mvps u Hu). unfold with_owner. destruct o; set_solver. }
  assert (forall u m, uses w' (with_owner o V) u m -> m <> n -> uses w V u m) as Hback.
  { intros u m Huse Hm. destruct (decide (u ∈ V)) as [HuV|HuV]; [by apply Hu|].
    destruct o as [v|]; cbn in Huse; [|by destruct Huse].
    destruct Huse as (Hin & pu & Hpu & Hs). assert (u = v) as -> by set_solver.
    destruct (Mown v eq_refl) as (_ & pv & Hpv & Hsv & _). congruence. }
  assert (forall u, uses w' (with_owner o V) u n -> o = Some u) as Hbackn.
  { intros u Huse. destruct (decide (u ∈ V)) as [HuV|HuV].
    - exfalso. apply (Hnu u). by apply Hu.
    - destruct Huse as [Hin _]. destruct o as [v|]; [|done]. f_equal. set_solver. }
  assert (forall v, v ∈ V -> vps w' !! v = vps w !! v) as Hvps by done.
  assert (forall v p, v ∈ V -> vps w !! v = Some p -> status p <> n) as Hsn.
  { intros v pv Hv Hpv Hs. apply (Hnu v). split; [done|]. by exists pv. }
  assert (forall v, v ∈ with_owner o V -> v ∈ V \/ o = Some v) as HV.
  { intros v. unfold with_owner. destruct o; set_solver. }
  assert (forall y, y ∈ lst w page_active_list -> y ∈ lst w' page_active_list \/ y = x) as Hact1.
  { intros y Hy. destruct (decide (y = x)); [by right|]. left. by apply Mkeep. }
  assert (forall y, y ∈ lst w' page_active_list -> y <> nl -> y ∈ lst w page_active_list) as Hact2.
  { intros y Hy Hne. destruct (Min _ _ Hy) as [[? _]|[? _]]; done. }
  pose proof Hok as [A1 A2 A3 A4 A5 A6 A7 A8 A9 B1 B2 B3 B4 B5 B6 B7 B8 B9].
  assert (forall l y, y ∈ lst w l -> y <> x -> exists py, pls w !! y = Some py /\ (pl_status py <> 0 -> page_num py <> n)) as Hother.
  { intros l y Hy Hyx. destruct (A1 _ _ Hy) as (py & Hpy & _ & Hlv). exists py. split; [done|].
    intros Hs En. destruct (Hlv Hs) as (q' & Hq' & Hx'). rewrite En in Hq'. congruence. }
  split.
  - intros l y Hy. destruct (Min _ _ Hy) as [[-> ->]|[Hy0 Hyx]].
    + exists pn. split; [done|]. split; [done|]. intros _. rewrite Mn. eexists. split; [done|]. done.
    + destruct (decide (y = x)) as [->|Hne].
      * destruct (Hyx eq_refl) as ([p' Hp'] & Hlf & Hla). exists p'. split; [done|].
        rewrite (Mold _ Hp'). done.
      * destruct (A1 _ _ Hy0) as (py & Hpy & Hdead & Hlv). exists py.
        rewrite Mpls by eauto. split; [done|]. split.
        -- intros Hs. destruct (Hdead Hs) as [? Ha]. split; [done|]. intros Hl. apply HD. left. auto.
        -- intros Hs. destruct (Hlv Hs) as (q' & Hq' & Hx'). exists q'. split; [|done].
           rewrite Hpne; [done|]. destruct (Hother _ _ Hy0 Hne) as (py' & Hpy' & Hnn). rewrite Hpy in Hpy'.
           injection Hpy' as <-. auto.
  - done.
  - intros l l' y Hy Hy'. destruct (Min _ _ Hy) as [[-> ->]|[Hy0 _]], (Min _ _ Hy') as [[E1 ->]|[Hy0' _]].
    + done.
    + by destruct (Hold _ _ Hy0').
    + by destruct (Hold _ _ Hy0).
    + by apply (A3 _ _ y).
  - intros m qm Hqm. destruct (decide (m = n)) as [->|Hm].
    + rewrite Hpn in Hqm. injection Hqm as <-. split; [by eapply A4|]. exists nl, pn, l1. done.
    + rewrite Hpne in Hqm by done. destruct (A4 _ _ Hqm) as (Hf & y & py & l & Hy & Hpy & Hny & Hs & Hin).
      split; [done|]. exists y, py, l. assert (y <> x) as Hyx by (intros ->; congruence).
      rewrite Mpls by eauto. auto 10.
  - intros m qm u Hqm Ho. destruct (decide (m = n)) as [->|Hm].
    + rewrite Hpn in Hqm. injection Hqm as <-. cbn in Ho. destruct (Mown u Ho) as (_ & pu & Hpu & Hsu & _).
      split; [|by exists pu]. rewrite Ho. cbn. set_solver.
    + rewrite Hpne in Hqm by done. assert (uses w V u m) as Huse by by apply (A5 m qm u).
      apply Hu; [apply Huse|done].
  - intros h u Hin. rewrite Mst in Hin. destruct (A6 h u Hin) as (pu & Hpu & HuV & Hh & Hno).
    exists pu. rewrite Hvps by done. split; [done|]. split.
    { unfold with_owner. destruct o; set_solver. }
    split; [done|]. intros q'. rewrite Hpne by by eapply Hsn. apply Hno.
  - by rewrite Mst.
  - intros v HvV. destruct (HV v HvV) as [Hv| ->].
    + destruct (A8 v Hv) as (pv & qv & Hpv & Hqv & Hr). exists pv, qv. rewrite Hvps by done.
      assert (status pv <> n) as Hne by by eapply Hsn. rewrite Hpne by done.
      split; [done|]. split; [done|]. unfold referenced in *. by rewrite Hpne, Mst.
    + destruct (Mown v eq_refl) as (_ & pv & Hpv & Hs & _). exists pv, (Pp (Some nl) (Some v)).
      rewrite Hs. split; [done|]. split; [done|]. left. by eexists.
  - intros y py u Hy Hpy Huse. destruct (Min _ _ Hy) as [[-> El]|[Hy0 Hyx]].
    + rewrite Mlink in Hpy. injection Hpy as <-. rewrite Mn in Huse. apply Hbackn in Huse.
      assert (o <> None) as Hs by by rewrite Huse. apply Mact in Hs. rewrite Hs in El. done.
    + destruct (decide (y = x)) as [->|Hne]; [by destruct (Hyx eq_refl) as (_ & ? & _)|].
      rewrite Mpls in Hpy by eauto. destruct (decide (page_num py = n)) as [Em|Hm].
      * destruct (Hother _ _ Hy0 Hne) as (py' & Hpy' & Hnn). rewrite Hpy in Hpy'. injection Hpy' as <-.
        by apply Hnn; [eapply ok_free_live|].
      * by apply (A9 y py u), Hback.
  - intros v pv qv y HvV Hpv Hqv Hy. destruct (HV v HvV) as [Hv| ->].
    + rewrite Hvps in Hpv by done. assert (status pv <> n) as Hne by by eapply Hsn.
      rewrite Hpne in Hqv by done. rewrite (B1 v pv qv y Hv Hpv Hqv Hy). split.
      * intros Ha. destruct (Hact1 _ Ha) as [| ->]; [done|].
        destruct (ok_link _ _ _ _ _ _ _ Hok Hqv Hy) as (p' & _ & Hp' & En & _). congruence.
      * intros Ha. apply Hact2; [done|]. intros ->.
        destruct (ok_link _ _ _ _ _ _ _ Hok Hqv Hy) as (p' & l & _ & _ & _ & Hin). by apply (Hold _ _ Hin).
    + destruct (Mown v eq_refl) as (_ & pv' & Hpv' & Hs & Ha & _).
      rewrite Hpv in Hpv'. injection Hpv' as <-. rewrite Hs, Hpn in Hqv. injection Hqv as <-.
      cbn in Hy. injection Hy as <-. rewrite Ha. split; [|done]. intros _.
      by rewrite <- (proj2 Mact).
  - intros v pv HvV Hpv. destruct (HV v HvV) as [Hv| ->].
    + rewrite Hvps in Hpv by done. by apply (B2 v).
    + destruct (Mown v eq_refl) as (_ & pv' & Hpv' & _ & Ha & Hs & _). rewrite Hpv in Hpv'. injection Hpv' as <-. by rewrite Ha, Hs.
  - intros v v' pv HvV Hpv Ha Hc Huse. destruct (HV v HvV) as [Hv| ->].
    + rewrite Hvps in Hpv by done. apply (B3 v v' pv); try done. apply Hback; [done|]. by eapply Hsn.
    + destruct (Mown v eq_refl) as (_ & pv' & Hpv' & Hs & _). rewrite Hpv in Hpv'. injection Hpv' as <-.
      rewrite Hs in Huse. apply Hbackn in Huse. by injection Huse as ->.
  - intros v pv HvV Hpv Hc. destruct (HV v HvV) as [Hv| ->].
    + rewrite Hvps in Hpv by done. by apply (B4 v).
    + destruct (Mown v eq_refl) as (_ & pv' & Hpv' & _ & _ & Hw).
      rewrite Hpv in Hpv'. injection Hpv' as <-. by apply Hw.
  - intros y py Hy Hpy Hs HE. destruct (Min _ _ Hy) as [[-> El]|[Hy0 Hyx]].
    + symmetry in El. apply Mact in El. destruct o as [v|]; [|done]. rewrite Mlink in Hpy.
      injection Hpy as <-. exists v. destruct (Mown v eq_refl) as (_ & pv' & Hpv' & Hs' & _).
      split; [cbn; set_solver|]. exists pv'. by rewrite Mn.
    + destruct (decide (y = x)) as [->|Hne]; [by rewrite (Mold _ Hpy) in Hs|].
      rewrite Mpls in Hpy by eauto. destruct (Hother _ _ Hy0 Hne) as (py' & Hpy' & Hnn).
      rewrite Hpy in Hpy'. injection Hpy' as <-. specialize (Hnn Hs).
      destruct (B5 y py Hy0 Hpy Hs) as [u Huse]; [set_solver|]. exists u. by apply Hu; [apply Huse|].
  - intros y py Hpy. destruct (decide (y = nl)) as [->|]; [|destruct (decide (y = x)) as [->|]].
    + pose proof (ok_next_pl _ _ _ _ Hok _ _ Hp). lia.
    + pose proof (ok_next_pl _ _ _ _ Hok _ _ Hp). lia.
    + rewrite Mpls in Hpy by done. specialize (B6 _ _ Hpy). lia.
  - done.
  - intros y py Hy Hpy. apply HD in Hy as [Hy|[_ ->]]; [|by apply Mold].
    destruct (decide (y = x)) as [->|]; [by apply Mold|].
    destruct (decide (y = nl)) as [->|]; [specialize (B9 _ Hy); lia|].
    rewrite Mpls in Hpy by done. by apply (B8 y).
  - intros y Hy. apply HD in Hy as [Hy|[_ ->]].
    + specialize (B9 _ Hy). lia.
    + pose proof (ok_next_pl _ _ _ _ Hok _ _ Hp). lia.
Qed.

(** The flags of a virtual page change. *)
Lemma pages_ok_flags V D E w w' v p p' :
  pages_ok V D E w -> vps w !! v = Some p -> vps w' = <[v := p']> (vps w) ->
  pps w' = pps w -> pls w' = pls w -> lists w' = lists w -> share_table w' = share_table w ->
  next_ptr w' = next_ptr w -> status p' = status p -> VP_IS_ANON p' = VP_IS_ANON p ->
  VP_IS_SHARED p' = negb (VP_IS_ANON p') ->
  (VP_IS_COW p' = true -> has (vaddr p') L4_Writable = false) ->
  (VP_IS_ANON p' = true -> VP_IS_COW p' = false -> forall u, uses w V u (status p) -> u = v) ->
  pages_ok V D E w'.
Proof.
  intros Hok Hp Hvps Hpps Hpls Hlists Hst Hnext Hs Ha Hsh Hc Hx.
  assert (forall l, lst w' l = lst w l) as Hl by (intros; unfold lst; by rewrite Hlists).
  assert (forall u pu', vps w' !! u = Some pu' -> exists pu, vps w !! u = Some pu /\ status pu' = status pu
            /\ VP_IS_ANON pu' = VP_IS_ANON pu /\ (u <> v -> pu' = pu) /\ (u = v -> pu' = p')) as Hback.
  { intros u pu'. rewrite Hvps. destruct (decide (u = v)) as [->|Hne].
    - rewrite lookup_insert_eq. intros [= <-]. by exists p.
    - rewrite lookup_insert_ne by done. intros Hpu. by exists pu'. }
  assert (forall u pu, vps w !! u = Some pu -> exists pu', vps w' !! u = Some pu' /\ status pu' = status pu) as Hforw.
  { intros u pu. rewrite Hvps. destruct (decide (u = v)) as [->|Hne].
    - rewrite lookup_insert_eq. intros Hpu. rewrite Hp in Hpu. injection Hpu as <-. by exists p'.
    - rewrite lookup_insert_ne by done. intros Hpu. by exists pu. }
  assert (forall u n, uses w' V u n <-> uses w V u n) as Hu.
  { intros u n. unfold uses. split; intros (Hin & pu & Hpu & Es); (split; [done|]).
    - destruct (Hback _ _ Hpu) as (p0 & ? & E0 & _). exists p0. by rewrite <- E0.
    - destruct (Hforw _ _ Hpu) as (p0 & ? & E0). exists p0. by rewrite E0. }
  destruct Hok as [A1 A2 A3 A4 A5 A6 A7 A8 A9 B1 B2 B3 B4 B5 B6 B7 B8 B9].
  split; try setoid_rewrite Hl; try setoid_rewrite Hpls; try setoid_rewrite Hpps;
    try setoid_rewrite Hst; try setoid_rewrite Hu; try rewrite Hnext; try done.
  - intros h u Hin. destruct (A6 h u Hin) as (pu & Hpu & HuV & Hh & Hno).
    destruct (Hforw _ _ Hpu) as (pu' & Hpu' & Es). exists pu'. by rewrite Es.
  - intros u HuV. destruct (A8 u HuV) as (pu & q & Hpu & Hq & Hr).
    destruct (Hforw _ _ Hpu) as (pu' & Hpu' & Es). exists pu', q. rewrite Es.
    split; [done|]. split; [done|]. unfold referenced in *. by rewrite Hpps, Hst.
  - intros u pu' q x HuV Hpu'. destruct (Hback _ _ Hpu') as (pu & Hpu & -> & -> & _). by apply (B1 u pu).
  - intros u pu' HuV Hpu'. destruct (Hback _ _ Hpu') as (pu & Hpu & _ & _ & H2 & H3).
    destruct (decide (u = v)) as [->|Hne]; [by rewrite H3|]. rewrite H2 by done. by apply (B2 u).
  - intros u u' pu' HuV Hpu'. destruct (Hback _ _ Hpu') as (pu & Hpu & Es & _ & H2 & H3).
    destruct (decide (u = v)) as [->|Hne].
    + rewrite H3 by done. rewrite Hs. intros. by apply Hx.
    + rewrite H2 by done. by apply (B3 u u' pu).
  - intros u pu' HuV Hpu'. destruct (Hback _ _ Hpu') as (pu & Hpu & _ & _ & H2 & H3).
    destruct (decide (u = v)) as [->|Hne]; [by rewrite H3|]. rewrite H2 by done. by apply (B4 u).
  - intros u pu' Hpu'. destruct (Hback _ _ Hpu') as (pu & Hpu & _). by apply (B7 u pu).
Qed.

(** A new virtual page refers to a page that is in use or in the page cache. *)
Lemma pages_ok_attach V D E w w' v p q x :
  pages_ok V D E w -> v ∉ V -> vps w' !! v = Some p -> pps w !! status p = Some q -> link q = Some x ->
  x ∉ lst w page_free_list -> (VP_IS_ANON p = true <-> x ∈ lst w page_active_list) ->
  VP_IS_SHARED p = negb (VP_IS_ANON p) ->
  (VP_IS_COW p = true -> has (vaddr p) L4_Writable = false) ->
  (VP_IS_ANON p = true -> VP_IS_COW p = true /\ forall u pu, uses w V u (status p) -> vps w !! u = Some pu ->
     VP_IS_COW pu = true) ->
  pls w' = pls w -> lists w' = lists w -> next_ptr w' = next_ptr w ->
  (forall u, u ∈ V -> vps w' !! u = vps w !! u) -> (forall u pu, vps w' !! u = Some pu -> u < next_ptr w') ->
  pps w' = (if decide (owner q = None) then <[status p := Pp (link q) (Some v)]> (pps w) else pps w) ->
  share_table w' = (if decide (owner q = None) then share_table w
                    else share_table w ++ [(int_hash (status p), v)]) ->
  pages_ok ({[v]} ∪ V) D E w'.
Proof.
  intros Hok HvV Hp Hq Hx Hnf Hact Hsh Hc Hex Hpls Hlists Hnext Hvps Hvn Hpps Hst.
  assert (forall l, lst w' l = lst w l) as Hl by (intros; unfold lst; by rewrite Hlists).
  assert (forall u n, uses w' ({[v]} ∪ V) u n <-> uses w V u n \/ (u = v /\ n = status p)) as Hu.
  { intros u n. unfold uses. split.
    - intros (Hin & pu & Hpu & Es). destruct (decide (u ∈ V)) as [HuV|HuV].
      + left. split; [done|]. exists pu. by rewrite <- Hvps.
      + right. assert (u = v) as -> by set_solver. split; [done|]. congruence.
    - intros [(Hin & pu & Hpu & Es)|[-> ->]]; (split; [set_solver|]); [exists pu; by rewrite Hvps|by exists p]. }
  assert (forall n q', pps w' !! n = Some q' -> exists q0, pps w !! n = Some q0 /\ link q' = link q0
            /\ forall u, owner q' = Some u <-> owner q0 = Some u \/ (u = v /\ n = status p /\ owner q = None)) as Hback.
  { intros n q'. rewrite Hpps. destruct (decide (owner q = None)) as [Ho|Ho].
    - destruct (decide (n = status p)) as [->|Hn].
      + rewrite lookup_insert_eq. intros [= <-]. exists q. cbn. rewrite Ho.
        split; [done|]. split; [done|]. intros u. split; [intros [= ->]; auto|]. by intros [?|[-> _]].
      + rewrite lookup_insert_ne by done. intros Hq'. exists q'. split; [done|]. split; [done|]. tauto.
    - intros Hq'. exists q'. split; [done|]. split; [done|]. tauto. }
  assert (forall n q0, pps w !! n = Some q0 -> exists q', pps w' !! n = Some q' /\ link q' = link q0
            /\ forall u, owner q' = Some u <-> owner q0 = Some u \/ (u = v /\ n = status p /\ owner q = None)) as Hforw.
  { intros n q0 Hq0. assert (exists q', pps w' !! n = Some q') as [q' Hq'].
    { rewrite Hpps. destruct (decide (owner q = None)); [|by exists q0].
      destruct (decide (n = status p)) as [->|]; simplify_map_eq; eauto. }
    exists q'. split; [done|]. destruct (Hback n q' Hq') as (q1 & Hq1 & ? & ?).
    rewrite Hq0 in Hq1. by injection Hq1 as <-. }
  assert (forall h u, (h, u) ∈ share_table w' <-> (h, u) ∈ share_table w
            \/ (u = v /\ h = int_hash (status p) /\ owner q <> None)) as Hsi.
  { intros h u. rewrite Hst. destruct (decide (owner q = None)) as [Ho|Ho].
    - split; [auto|]. by intros [?|(_ & _ & ?)].
    - unfold htable in *. rewrite elem_of_app, list_elem_of_singleton. split.
      + intros [?|[= -> ->]]; auto.
      + intros [?|(-> & -> & _)]; auto. }
  pose proof Hok as [A1 A2 A3 A4 A5 A6 A7 A8 A9 B1 B2 B3 B4 B5 B6 B7 B8 B9].
  assert (forall u, u ∈ {[v]} ∪ V -> u = v \/ (u ∈ V /\ u <> v)) as HV.
  { intros u [->%elem_of_singleton|Hu']%elem_of_union; [by left|right; split; [done|by intros ->]]. }
  split; try setoid_rewrite Hl; try setoid_rewrite Hpls; try setoid_rewrite Hu; try rewrite Hnext; try done.
  - intros l y Hy. destruct (A1 l y Hy) as (py & Hpy & Hd & Hlive). exists py. split; [done|].
    split; [done|]. intros Hs. destruct (Hlive Hs) as (q0 & Hq0 & Hx0).
    destruct (Hforw _ _ Hq0) as (q' & ? & El & _). exists q'. by rewrite El.
  - intros n q' Hq'. destruct (Hback n q' Hq') as (q0 & Hq0 & -> & _). by apply A4.
  - intros n q' u Hq' Ho. destruct (Hback n q' Hq') as (q0 & Hq0 & _ & Hiff).
    destruct (proj1 (Hiff u) Ho) as [Ho'|(? & ? & _)]; [left; by apply (A5 n q0 u)|by right].
  - intros h u Hin. destruct (proj1 (Hsi h u) Hin) as [Hin'|(-> & -> & Ho)].
    + destruct (A6 h u Hin') as (pu & Hpu & HuV & Hh & Hno). exists pu. rewrite Hvps by done.
      split; [done|]. split; [set_solver|]. split; [done|]. intros q' Hq' Ho.
      destruct (Hback _ q' Hq') as (q0 & Hq0 & _ & Hiff).
      destruct (proj1 (Hiff u) Ho) as [Ho'|(-> & _)]; [by apply (Hno q0)|done].
    + exists p. split; [done|]. split; [set_solver|]. split; [done|]. intros q' Hq' Ho'.
      destruct (Hback _ q' Hq') as (q0 & Hq0 & _ & Hiff).
      destruct (proj1 (Hiff v) Ho') as [Hv|(_ & _ & ?)]; [|done].
      destruct (A5 _ q0 v Hq0 Hv) as [? _]. done.
  - rewrite Hst. destruct (decide _); [done|]. apply NoDup_app. split; [done|]. split.
    + intros [h u] Hin Hin2. apply list_elem_of_singleton in Hin2 as [= -> ->].
      destruct (A6 _ _ Hin) as (? & _ & ? & _). done.
    + apply NoDup_singleton.
  - intros u HuV. destruct (HV u HuV) as [->|[Hin Hne]].
    + destruct (Hforw _ _ Hq) as (q' & Hq' & _ & Hiff). exists p, q'. split; [done|]. split; [done|].
      destruct (decide (owner q = None)) as [Ho|Ho].
      * left. exists q'. split; [done|]. apply Hiff. auto.
      * right. apply Hsi. auto.
    + destruct (A8 u Hin) as (pu & q0 & Hpu & Hq0 & Hr). destruct (Hforw _ _ Hq0) as (q' & Hq' & _ & Hiff).
      exists pu, q'. rewrite Hvps by done. split; [done|]. split; [done|]. destruct Hr as [(q1 & Hq1 & Ho)|Hsin].
      * left. exists q'. split; [done|]. apply Hiff. left. congruence.
      * right. apply Hsi. auto.
  - intros y py u Hy Hpy [Huse|[-> Es]]; [by apply (A9 y py u)|].
    destruct (ok_page_of _ _ _ _ _ _ _ Hok Hy Hpy) as (q0 & Hq0 & Hx0); [by eapply ok_free_live|].
    rewrite Es in Hq0. congruence.
  - intros u pu q' y HuV Hpu Hq' Hy. destruct (Hback _ _ Hq') as (q0 & Hq0 & El & _).
    rewrite El in Hy. destruct (HV u HuV) as [->|[Hin Hne]].
    + rewrite Hp in Hpu. injection Hpu as <-. rewrite Hq in Hq0. injection Hq0 as <-.
      rewrite Hx in Hy. by injection Hy as <-.
    + rewrite Hvps in Hpu by done. by apply (B1 u pu q0 y).
  - intros u pu HuV Hpu. destruct (HV u HuV) as [->|[Hin Hne]].
    + rewrite Hp in Hpu. by injection Hpu as <-.
    + rewrite Hvps in Hpu by done. by apply (B2 u).
  - intros u u' pu HuV Hpu Hau Hcu Huse. destruct (HV u HuV) as [->|[Hin Hne]].
    + rewrite Hp in Hpu. injection Hpu as <-. destruct (Hex Hau) as [? _]. congruence.
    + rewrite Hvps in Hpu by done. destruct Huse as [Huse|[-> Es]]; [by apply (B3 u u' pu)|]. exfalso.
      assert (VP_IS_ANON p = true) as Hap.
      { apply Hact. rewrite <- Es in Hq. by rewrite <- (B1 u pu q x). }
      destruct (Hex Hap) as [_ Hall]. rewrite (Hall u pu) in Hcu; [done|split; [done|by exists pu]|done].
  - intros u pu HuV Hpu. destruct (HV u HuV) as [->|[Hin Hne]].
    + rewrite Hp in Hpu. by injection Hpu as <-.
    + rewrite Hvps in Hpu by done. by apply (B4 u).
  - intros y py Hy Hpy Hs HE. destruct (B5 y py Hy Hpy Hs HE) as [u Huse]. exists u. by left.
  - by rewrite <- Hnext.
Qed.

(** Links out of service are taken off the active list. *)
Lemma free_pls_run l w : mapM_ free_pl l w = Ret tt (set_pls (foldr delete (pls w) l) w).
Proof.
  revert w. induction l as [|x l IH]; intros w; [by destruct w|].
  change (mapM_ free_pl (x :: l) w) with (mapM_ free_pl l (set_pls (delete x (pls w)) w)).
  rewrite IH. cbn. f_equal. unfold set_pls. cbn. f_equal. clear.
  induction l as [|y l IH]; [done|]. cbn. rewrite IH.
  destruct (decide (x = y)) as [->|]; [done|by apply delete_delete].
Qed.
Lemma foldr_delete_lookup {A} (l : list Z) (m : gmap Z A) x :
  foldr delete m l !! x = if decide (x ∈ l) then None else m !! x.
Proof.
  induction l as [|y l IH]; cbn; [by destruct (decide _) as [?%elem_of_nil|]|].
  destruct (decide (x = y)) as [->|Hne].
  - rewrite lookup_delete_eq, decide_True; [done|set_solver].
  - rewrite lookup_delete_ne, IH by done. apply decide_ext. set_solver.
Qed.

Lemma pages_ok_flush V D E w w' : pages_ok V D E w -> remove_active_pls D w = Ret tt w' ->
  pages_ok V [] E w' /\ exists x y, w' = set_pls x (set_lists y w).
Proof.
  intros Hok. unfold remove_active_pls. rewrite bind_get, bind_modify, free_pls_run. intros [= <-].
  split; [|by eexists _, _]. set (act := lst w page_active_list).
  set (w' := set_pls _ _).
  assert (forall l, lst w' l = if decide (l = page_active_list) then filter (fun x => x ∉ D) act else lst w l) as Hl.
  { intros l. rewrite (lst_insert (lists w) w' page_active_list (filter (fun x => x ∉ D) act)) by done.
    apply decide_ext. done. }
  assert (forall l x, x ∈ lst w' l <-> x ∈ lst w l /\ (l = page_active_list -> x ∉ D)) as Hin.
  { intros l x. rewrite Hl. destruct (decide _) as [->|]; [|tauto]. rewrite list_elem_of_filter. unfold act. tauto. }
  assert (forall x, pls w' !! x = if decide (x ∈ act /\ x ∈ D) then None else pls w !! x) as Hp.
  { intros x. unfold w'. cbn. rewrite foldr_delete_lookup. apply decide_ext. rewrite list_elem_of_filter. tauto. }
  assert (forall x p, pls w' !! x = Some p -> pls w !! x = Some p) as Hback.
  { intros x p. rewrite Hp. by destruct (decide _). }
  assert (forall l x, x ∈ lst w' l -> pls w' !! x = pls w !! x) as Hkept.
  { intros l x [Hx Ha]%Hin. rewrite Hp. destruct (decide _) as [[Hxa HD]|]; [|done].
    destruct Ha; [|done]. by apply (ok_one_list _ _ _ _ Hok l page_active_list x). }
  assert (forall x p, pls w !! x = Some p -> pl_status p <> 0 -> pls w' !! x = Some p) as Hlive.
  { intros x p Hx Hs. rewrite Hp. destruct (decide _) as [[_ HD]|]; [|done].
    by destruct Hs; apply (ok_dead _ _ _ _ Hok x). }
  assert (forall u n, uses w' V u n <-> uses w V u n) as Hu by done.
  pose proof Hok as [A1 A2 A3 A4 A5 A6 A7 A8 A9 B1 B2 B3 B4 B5 B6 B7 B8 B9].
  split; try done.
  - intros l x Hx. destruct (proj1 (Hin l x) Hx) as [Hx0 Ha]. destruct (A1 l x Hx0) as (p & Hp0 & Hd & Hlv).
    exists p. rewrite (Hkept _ _ Hx). split; [done|]. split; [|done]. intros Hs. destruct (Hd Hs) as [? H2].
    split; [done|]. intros El. by destruct (Ha El); apply H2.
  - intros l. rewrite Hl. destruct (decide _); [apply NoDup_filter|]; apply A2.
  - intros l l' x Hx Hx'. apply Hin in Hx as [Hx _]. apply Hin in Hx' as [Hx' _]. by apply (A3 _ _ x).
  - intros n q Hq. destruct (A4 n q Hq) as (? & x & p & l & Hx & Hpx & Hn & Hs & Hxl).
    split; [done|]. exists x, p, l. split; [done|]. split; [by apply Hlive|]. split; [done|]. split; [done|].
    apply Hin. split; [done|]. intros _ HD. by destruct Hs; apply (B8 x).
  - intros x p v Hx Hpx. apply Hin in Hx as [Hx _]. exact (A9 x p v Hx (Hback _ _ Hpx)).
  - intros v p q x HV Hpv Hq Hx. rewrite (B1 v p q x HV Hpv Hq Hx). rewrite Hin. split; [|tauto].
    intros Ha. split; [done|]. intros _ HD.
    destruct (ok_link _ _ _ _ _ _ _ Hok Hq Hx) as (px & _ & Hpx & _ & Hs & _). by destruct Hs; apply (B8 x).
  - intros x p Hx Hpx. apply Hin in Hx as [Hx _]. exact (B5 x p Hx (Hback _ _ Hpx)).
  - intros x p Hpx. exact (B6 x p (Hback _ _ Hpx)).
  - intros x p Hx. by apply elem_of_nil in Hx.
  - intros x Hx. by apply elem_of_nil in Hx.
Qed.
End pages.
