(* ===== verification/VmPageProps.v ===== *)
(** What the page operations of vm do: they keep physical memory accounted for. *)
From S2P Require Import Prelude L4 Pages HashUtil Containers Vm VmMaps VmOps VmProps.

(** The parts of the state that page operations leave alone *)
Definition rest (w : vm) :=
  (mms w, spaces w, anon_mmap_table w, next_anon_ino w, vm_sender w, vm_label w).

Lemma alter_is_insert {A} (f : A -> A) (m : gmap Z A) i a : m !! i = Some a -> alter f i m = <[i := f a]> m.
Proof.
  intros E. apply map_eq. intros j. destruct (decide (j = i)) as [->|].
  - by rewrite lookup_alter_eq, E, lookup_insert_eq.
  - by rewrite lookup_alter_ne, lookup_insert_ne.
Qed.

Section ops.
Context `{LA : !L4Abi, VE : !VmEnv, RB : !RbOps}.

Lemma pl_at_inv x w p w' : pl_at x w = Ret p w' <-> w' = w /\ pls w !! x = Some p.
Proof. unfold pl_at. rewrite bind_get. unfold of_option. destruct (pls w !! x); split; first [by intros [= -> ->] | by intros [-> [= ->]]]. Qed.
Lemma vp_at_inv x w p w' : vp_at x w = Ret p w' <-> w' = w /\ vps w !! x = Some p.
Proof. unfold vp_at. rewrite bind_get. unfold of_option. destruct (vps w !! x); split; first [by intros [= -> ->] | by intros [-> [= ->]]]. Qed.
Lemma mm_at_inv x w p w' : mm_at x w = Ret p w' <-> w' = w /\ mms w !! x = Some p.
Proof. unfold mm_at. rewrite bind_get. unfold of_option. destruct (mms w !! x); split; first [by intros [= -> ->] | by intros [-> [= ->]]]. Qed.
Lemma get_pp_inv n w q w' : get_pp n w = Ret q w' <-> w' = w /\ pp_first <= n /\ pps w !! n = Some q.
Proof.
  unfold get_pp. rewrite bind_assert. destruct (Z.leb_spec pp_first n); [|split; [done|lia]].
  rewrite bind_get. unfold of_option. destruct (pps w !! n); split; first [by intros [= -> ->] | by intros (-> & _ & [= ->])].
Qed.
Lemma pl2pp_inv x w q w' : pl2pp x w = Ret q w' -> w' = w /\ exists p, pls w !! x = Some p /\ pps w !! page_num p = Some q.
Proof.
  unfold pl2pp. intros (p & w1 & H1 & H2)%bind_ret_inv. apply pl_at_inv in H1 as [-> Hp].
  apply get_pp_inv in H2 as (-> & _ & Hq). eauto.
Qed.
Lemma malloc_inv o w w' : malloc w = Ret o w' ->
  (o = None /\ w' = add_vmcall VMalloc w)
  \/ (o = Some (next_ptr w) /\ w' = set_next_ptr (next_ptr w + 1) (add_vmcall VMalloc w)).
Proof.
  unfold malloc, vm_ask. intros (ok & w1 & [= <- <-] & H)%bind_ret_inv. rewrite bind_gets in H. cbn in H.
  destruct (_ =? 0).
  - injection H as <- <-. by left.
  - rewrite bind_modify in H. injection H as <- <-. by right.
Qed.
Lemma get_free_pl_inv x w w' : get_free_pl w = Ret x w' ->
  exists l, lst w page_free_list = x :: l /\ w' = set_lists (<[page_free_list := l]> (lists w)) w.
Proof.
  unfold get_free_pl. rewrite bind_get. destruct (lst w page_free_list) as [|y l]; [done|].
  rewrite bind_modify. intros [= -> <-]. by exists l.
Qed.
Lemma htable_add_inv tab h v t w b t' w' : htable_add tab h v t w = Ret (b, t') w' ->
  w' = add_vmcall (VHtableAdd tab) w /\ ((b = false /\ t' = t) \/ (b = true /\ t' = t ++ [(h, v)])).
Proof.
  unfold htable_add, vm_ask. intros (ok & w1 & [= <- <-] & H)%bind_ret_inv.
  destruct (_ =? 0); injection H as <- <- <-; auto.
Qed.

Lemma mapM_vp_at l w vs w' : mapM vp_at l w = Ret vs w' -> w' = w /\ Forall2 (fun v p => vps w !! v = Some p) l vs.
Proof.
  revert vs w'. induction l as [|v l IH]; intros vs w'; [by intros [= <- <-]|].
  intros (p & w1 & H1 & (ps & w2 & H2 & H3)%bind_ret_inv)%bind_ret_inv.
  apply vp_at_inv in H1 as [-> Hp]. destruct (IH _ _ H2) as [-> Hps].
  injection H3 as <- <-. split; [done|]. by constructor.
Qed.
Lemma has_shares_inv h n w b w' : has_shares h n 1 w = Ret b w' -> w' = w /\
  (b = true <-> exists v p, (h, v) ∈ share_table w /\ vps w !! v = Some p /\ status p = n).
Proof.
  unfold has_shares. intros (u & w1 & [_ ->]%assert_inv & H)%bind_ret_inv. rewrite bind_get in H.
  apply bind_ret_inv in H as (vs & w2 & Hm & H). apply mapM_vp_at in Hm as [-> Hvs]. injection H as <- <-.
  split; [done|]. assert (forall v, v ∈ htable_vals h (share_table w) <-> (h, v) ∈ share_table w) as Hin.
  { intros v. unfold htable_vals, htable in *. rewrite list_elem_of_fmap. split.
    - intros ([h' v'] & -> & [E Hin]%list_elem_of_filter). cbn in E. by subst.
    - intros Hin. exists (h, v). split; [done|]. by apply list_elem_of_filter. }
  rewrite Z.leb_le. split.
  - intros Hlen. destruct (filter (fun v => status v = n) vs) as [|p ps] eqn:Ef; [cbn in Hlen; lia|].
    assert (p ∈ filter (fun v => status v = n) vs) as [Hs Hp]%list_elem_of_filter by (rewrite Ef; set_solver).
    apply list_elem_of_lookup in Hp as [i Hi].
    destruct (Forall2_lookup_r _ _ _ _ _ Hvs Hi) as (v & Hv & Hpv). exists v, p.
    split; [|done]. apply Hin. by eapply list_elem_of_lookup_2.
  - intros (v & p & Hv%Hin & Hpv & Hs). apply list_elem_of_lookup in Hv as [i Hi].
    destruct (Forall2_lookup_l _ _ _ _ _ Hvs Hi) as (p' & Hp' & Hpv'). rewrite Hpv in Hpv'. injection Hpv' as <-.
    assert (p ∈ filter (fun v => status v = n) vs) as Hf.
    { apply list_elem_of_filter. split; [done|]. by eapply list_elem_of_lookup_2. }
    destruct (filter _ vs); [by apply elem_of_nil in Hf|]. cbn. lia.
Qed.

(** A page goes onto a list under a new link. *)
Lemma push_page_inv l x w w' : push_page l x w = Ret tt w' -> exists o q,
  pls w !! x = Some o /\ pps w !! page_num o = Some q
  /\ w' = set_lists (<[l := next_ptr w :: lst w l]> (lists w))
            (set_pps (<[page_num o := Pp (Some (next_ptr w)) (owner q)]> (pps w))
               (set_pls (<[next_ptr w := Pl (page_num o) 1 (fsid_ino o) (pl_offset o)]> (pls w))
                  (set_next_ptr (next_ptr w + 1) (add_vmcall VMalloc w)))).
Proof.
  unfold push_page. intros (nl & w1 & H1 & H)%bind_ret_inv. apply malloc_inv in H1 as [[-> _]|[-> ->]]; [done|].
  cbn [of_option] in H. rewrite bind_of_some in H. apply bind_ret_inv in H as (o & w1 & H1 & H).
  apply pl_at_inv in H1 as [-> Ho]. cbn in Ho. rewrite bind_modify in H.
  apply bind_ret_inv in H as (q & w1 & H1 & H). apply pl2pp_inv in H1 as (-> & o' & Ho' & Hq). cbn in Ho', Hq.
  unfold set_link, push_list in H. rewrite bind_modify in H. injection H as <-. cbn.
  exists o, q. destruct (decide (x = next_ptr w)) as [->|Hne].
  - rewrite lookup_insert_eq in Ho'. injection Ho' as <-. cbn in Hq. split; [done|]. split; [done|].
    unfold lst. cbn. do 2 f_equal. by apply (alter_is_insert (fun p => Pp (Some (next_ptr w)) (owner p))).
  - rewrite lookup_insert_ne in Ho' by done. rewrite Ho in Ho'. injection Ho' as <-. split; [done|]. split; [done|].
    unfold lst. cbn. do 2 f_equal. by apply (alter_is_insert (fun p => Pp (Some (next_ptr w)) (owner p))).
Qed.

(** Equal but for [pps] at one page *)
Record same_but (n : Z) (w0 w : vm) : Prop := SameBut {
  sb_pps m : m <> n -> pps w !! m = pps w0 !! m;
  sb_pls : pls w = pls w0; sb_vps : vps w = vps w0; sb_lists : lists w = lists w0;
  sb_share : share_table w = share_table w0; sb_next : next_ptr w = next_ptr w0
}.

Lemma free_page_inv x D w D' w' : free_page x D w = Ret D' w' -> exists p q,
  pls w !! x = Some p /\ pps w !! page_num p = Some q /\ D' = D ++ [x] /\
  w' = set_lists (<[page_free_list := next_ptr w :: lst w page_free_list]> (lists w))
         (set_pps (<[page_num p := Pp (Some (next_ptr w)) (owner q)]> (pps w))
            (set_pls (<[next_ptr w := Pl (page_num p) 1 (fsid_ino p) (pl_offset p)]>
                        (<[x := Pl (page_num p) 0 (fsid_ino p) (pl_offset p)]> (pls w)))
               (set_next_ptr (next_ptr w + 1) (add_vmcall VMalloc w)))).
Proof.
  unfold free_page. intros (p & w1 & H1 & H)%bind_ret_inv. apply pl_at_inv in H1 as [-> Hp].
  apply bind_ret_inv in H as (q0 & w1 & H1 & H). apply pl2pp_inv in H1 as (-> & p0 & Hp0 & Hq0).
  rewrite Hp in Hp0. injection Hp0 as <-. rewrite bind_modify in H.
  apply bind_ret_inv in H as ([] & w1 & H1 & H). apply push_page_inv in H1 as (o & q & Ho & Hq & ->).
  cbn in Ho, Hq. rewrite lookup_insert_eq in Ho. injection Ho as <-. cbn in Hq.
  apply bind_ret_inv in H as (q' & w1 & H1 & H). apply get_pp_inv in H1 as (-> & _ & _).
  apply bind_ret_inv in H as ([] & w1 & [_ ->]%assert_inv & H). injection H as <- <-.
  exists p, q. split; [exact Hp|]. split; [exact Hq|]. by split.
Qed.

Lemma free_page_ok V D E w0 w w' D' x n q :
  pages_ok V D ({[n]} ∪ E) w0 -> pps w0 !! n = Some q -> link q = Some x -> x ∉ lst w0 page_free_list ->
  (forall u, ~ uses w0 V u n) -> same_but n w0 w -> (forall q, pps w !! n = Some q -> owner q = None) ->
  free_page x D w = Ret D' w' ->
  pages_ok V D' E w' /\ vps w' = vps w /\ frames w' = frames w /\ rest w' = rest w.
Proof.
  intros Hok Hq Hx Hxf Hnu Hsb Ho Hrun. apply free_page_inv in Hrun as (p & q1 & Hp & Hq1 & -> & ->).
  split; [|done]. destruct Hsb as [Spps Spls Svps Slists Sst Snext].
  destruct (ok_link _ _ _ _ _ _ _ Hok Hq Hx) as (p' & l & Hp' & Hn & Hs & Hl).
  rewrite Spls, Hp' in Hp. injection Hp as <-. rewrite Hn in *. specialize (Ho _ Hq1).
  pose proof (ok_next_pl _ _ _ _ Hok _ _ Hp') as Hxn.
  assert (forall l y, y ∈ lst w0 l -> y <> next_ptr w0) as Hold.
  { intros l' y Hy ->. destruct (ok_listed _ _ _ _ Hok _ _ Hy) as (py & Hpy & _).
    pose proof (ok_next_pl _ _ _ _ Hok _ _ Hpy). lia. }
  set (w' := set_lists _ _).
  assert (forall l, lst w' l = if decide (page_free_list = l) then next_ptr w0 :: lst w0 l else lst w0 l) as Hlst.
  { intros l'. rewrite (lst_insert (lists w) w' page_free_list (next_ptr w :: lst w page_free_list)) by done.
    unfold lst. rewrite Slists, Snext. destruct (decide _) as [<-|]; done. }
  apply (pages_ok_move V D (D ++ [x]) E w0 w' n q x (next_ptr w0) page_free_list None); try done.
  { intros y. rewrite elem_of_app, list_elem_of_singleton. tauto. }
  split; try done.
  - unfold w'. cbn. rewrite Ho, Snext. apply map_eq. intros m.
    destruct (decide (m = n)) as [->|]; [by rewrite !lookup_insert_eq|].
    rewrite !lookup_insert_ne by done. by apply Spps.
  - unfold w'. cbn. lia.
  - eexists. unfold w'. cbn. rewrite Snext, lookup_insert_eq. done.
  - intros p0. unfold w'. cbn. rewrite Snext, lookup_insert_ne, lookup_insert_eq by lia. by intros [= <-].
  - intros y H1 H2. unfold w'. cbn. by rewrite Snext, Spls, !lookup_insert_ne.
  - intros l' y. rewrite Hlst. unfold w'. cbn. rewrite Snext, lookup_insert_ne, lookup_insert_eq by lia.
    destruct (decide (page_free_list = l')) as [<-|Hne].
    + intros [->|Hy]%elem_of_cons; [by left|]. right. split; [done|]. by intros ->.
    + intros Hy. right. split; [done|]. intros ->. split; [by eexists|]. split; [done|]. intros _. set_solver.
  - intros l' y Hne Hy. rewrite Hlst. destruct (decide _); set_solver.
  - rewrite Hlst, decide_True by done. set_solver.
  - intros l'. rewrite Hlst. pose proof (ok_nodup _ _ _ _ Hok l'). destruct (decide _); [|done].
    constructor; [|done]. intros Hin. by apply (Hold _ _ Hin).
  - intros v _. unfold w'. cbn. by rewrite Svps.
  - intros v pv. unfold w'. cbn. rewrite Svps, Snext. intros Hv.
    pose proof (ok_next_vp _ _ _ _ Hok _ _ Hv). lia.
Qed.

(** Whether anybody uses a page is seen from its owner and the share table. *)
Lemma users_shown V D E w n q b : pages_ok V D E w -> pps w !! n = Some q ->
  (b = true <-> exists v p, (int_hash n, v) ∈ share_table w /\ vps w !! v = Some p /\ status p = n) ->
  (owner q = None -> b = false -> forall u, ~ uses w V u n)
  /\ (b = true -> exists u, uses w V u n) /\ (owner q <> None -> exists u, uses w V u n).
Proof.
  intros Hok Hq Hb. split; [|split].
  - intros Ho Hf u Hu. destruct (ok_users _ _ _ _ _ _ Hok Hu) as [(q' & Hq' & Ho')|Hin]; [congruence|].
    assert (b = true); [|congruence]. apply Hb. destruct Hu as (_ & p & Hp & Hs). by exists u, p.
  - intros Ht. apply Hb in Ht as (u & p & Hin & Hp & Hs).
    destruct (ok_share _ _ _ _ Hok _ _ Hin) as (p' & _ & Hu & _). exists u. split; [done|]. by exists p.
  - intros Ho. destruct (owner q) as [u|] eqn:Eo; [|done]. exists u. by apply (ok_owner _ _ _ _ Hok n q).
Qed.

(** The share of [v] goes; the result tells whether it was the last. *)
Lemma rm_share_ok V D E w b w' v p q :
  pages_ok V D E w -> v ∈ V -> vps w !! v = Some p -> pps w !! status p = Some q ->
  rm_share v w = Ret b w' ->
  pages_ok (V ∖ {[v]}) D ({[status p]} ∪ E) w' /\ same_but (status p) (set_share_table (share_table w') w) w'
  /\ (exists q', pps w' !! status p = Some q' /\ link q' = link q /\ (b = true -> owner q' = None))
  /\ (if b then forall u, ~ uses w' (V ∖ {[v]}) u (status p) else exists u, uses w' (V ∖ {[v]}) u (status p))
  /\ frames w' = frames w /\ rest w' = rest w.
Proof.
  intros Hok HV Hp Hq. unfold rm_share. intros (p0 & w1 & H1 & H)%bind_ret_inv.
  apply vp_at_inv in H1 as [-> Hp0]. rewrite Hp in Hp0. injection Hp0 as <-.
  apply bind_ret_inv in H as ([] & w1 & [_ ->]%assert_inv & H).
  unfold hash_vp_by_phys in H. rewrite bind_bind in H. apply bind_ret_inv in H as ([] & w1 & [_ ->]%assert_inv & H).
  rewrite bind_mret in H. apply bind_ret_inv in H as (q0 & w1 & H1 & H).
  apply get_pp_inv in H1 as (-> & _ & Hq0). rewrite Hq in Hq0. injection Hq0 as <-.
  case_bool_decide as Ho.
  - unfold set_owner in H. rewrite bind_modify in H. apply bind_ret_inv in H as (s & w1 & H1 & H).
    apply has_shares_inv in H1 as [-> Hs]. injection H as <- <-.
    rewrite (alter_is_insert (fun p => Pp (link p) None) _ _ q) in * by done. set (w1 := set_pps _ _) in *.
    assert (pages_ok (V ∖ {[v]}) D ({[status p]} ∪ E) w1) as Hok1.
    { apply (pages_ok_detach V D E w w1 v p q); try done; unfold w1; cbn; by rewrite decide_True. }
    assert (pps w1 !! status p = Some (Pp (link q) None)) as Hq1 by (unfold w1; cbn; by rewrite lookup_insert_eq).
    destruct (users_shown _ _ _ _ _ _ _ Hok1 Hq1 Hs) as (Hno & Hyes & _).
    split; [done|]. split; [split; try done; unfold w1; cbn; intros; by rewrite lookup_insert_ne|].
    split; [by eexists|]. split; [|done]. destruct s; [exact (Hyes eq_refl)|exact (Hno eq_refl eq_refl)].
  - unfold del_share in H. rewrite bind_bind, bind_get, bind_bind, bind_modify, bind_mret in H.
    apply bind_ret_inv in H as ([] & w1 & [_ ->]%assert_inv & H). set (w1 := set_share_table _ _) in *.
    assert (pages_ok (V ∖ {[v]}) D ({[status p]} ∪ E) w1) as Hok1.
    { apply (pages_ok_detach V D E w w1 v p q); try done; unfold w1; cbn; by rewrite decide_False. }
    assert (same_but (status p) (set_share_table (share_table w1) w) w1) as Hsb by done.
    case_bool_decide as Hn.
    + injection H as <- <-. split; [done|]. split; [done|]. split; [by exists q|]. split; [|done].
      destruct (owner q) as [u|] eqn:Eu; [|done]. exists u. by apply (ok_owner _ _ _ _ Hok1 (status p) q).
    + apply bind_ret_inv in H as (s & w2 & H1 & H). apply has_shares_inv in H1 as [-> Hs]. injection H as <- <-.
      destruct (users_shown _ _ _ _ _ _ _ Hok1 Hq Hs) as (Hno & Hyes & _).
      assert (owner q = None) as Hon by (destruct (owner q); [by destruct Hn|done]).
      split; [done|]. split; [done|]. split; [by exists q|]. split; [|done].
      destruct s; [exact (Hyes eq_refl)|exact (Hno Hon eq_refl)].
Qed.

(** The entry of a virtual page that is not in use goes. *)
Lemma drop_entry_ok V D E w v : pages_ok V D E w -> v ∉ V -> pages_ok V D E (set_vps (delete v (vps w)) w).
Proof.
  intros Hok HV. apply (pages_ok_same V D E w); try done.
  - intros u Hu. cbn. rewrite lookup_delete_ne; [done|]. by intros ->.
  - intros u p Hu. cbn in Hu. apply lookup_delete_Some in Hu as [_ Hu]. by apply (ok_next_vp _ _ _ _ Hok u p).
Qed.

Lemma remove_vp_ok V D E w D' w' v : pages_ok V D E w -> v ∈ V -> remove_vp v D w = Ret D' w' ->
  pages_ok (V ∖ {[v]}) D' E w' /\ vps w' = delete v (vps w) /\ frames w' = frames w /\ rest w' = rest w.
Proof.
  intros Hok HV. unfold remove_vp. intros (p & w1 & H1 & H)%bind_ret_inv.
  apply vp_at_inv in H1 as [-> Hp].
  apply bind_ret_inv in H as ([] & w1 & [_ ->]%assert_inv & H).
  apply bind_ret_inv in H as (q & w1 & H1 & H). apply get_pp_inv in H1 as (-> & _ & Hq).
  apply bind_ret_inv in H as (x & w1 & H1 & H). destruct (link q) as [x'|] eqn:Hx; [|done]. injection H1 as <- <-.
  apply bind_ret_inv in H as (l & w1 & H1 & H). apply pl_at_inv in H1 as [-> Hl].
  destruct (ok_link _ _ _ _ _ _ _ Hok Hq Hx) as (l' & li & Hl' & Hn & Hlive & Hli).
  rewrite Hl in Hl'. injection Hl' as <-.
  assert (x' ∉ lst w page_free_list) as Hxf.
  { intros Hf. apply (ok_free _ _ _ _ Hok _ l v Hf Hl). split; [done|]. exists p. by rewrite Hn. }
  assert (forall D' w2, pages_ok (V ∖ {[v]}) D' E w2 -> forall D3 w3,
    (phys ← get_pp (status p); _ ← assert_ (bool_decide (owner phys <> Some v));
     _ ← modify (fun w => set_vps (delete v (vps w)) w); mret D') w2 = Ret D3 w3 ->
    pages_ok (V ∖ {[v]}) D3 E w3 /\ vps w3 = delete v (vps w2) /\ frames w3 = frames w2 /\ rest w3 = rest w2) as Hend.
  { intros D1 w2 Hok2 D3 w3 (q2 & w4 & H1 & H2)%bind_ret_inv. apply get_pp_inv in H1 as (-> & _ & _).
    apply bind_ret_inv in H2 as ([] & w4 & [_ ->]%assert_inv & H2). rewrite bind_modify in H2.
    injection H2 as <- <-. split; [|done]. apply drop_entry_ok; [done|set_solver]. }
  destruct (PL_IS_PRIVATE l && negb (VP_IS_COW p)).
  - rewrite bind_bind in H. apply bind_ret_inv in H as ([] & w1 & [Ho%bool_decide_eq_true ->]%assert_inv & H).
    rewrite bind_bind in H. apply bind_ret_inv in H as (s & w1 & H1 & H). apply has_shares_inv in H1 as [-> Hs].
    rewrite bind_bind in H. apply bind_ret_inv in H as ([] & w1 & [Hns%negb_true_iff ->]%assert_inv & H).
    unfold set_link, set_owner in H. rewrite bind_bind, bind_modify, bind_bind, bind_modify in H. rewrite Hn in *.
    apply bind_ret_inv in H as (D1 & w2 & H1 & H).
    set (w0 := set_pps (<[status p := Pp (link q) None]> (pps w)) w).
    assert (pages_ok (V ∖ {[v]}) D ({[status p]} ∪ E) w0) as Hok0.
    { apply (pages_ok_detach V D E w w0 v p q); try done; unfold w0; cbn; by rewrite decide_True. }
    assert (pps w0 !! status p = Some (Pp (link q) None)) as Hq0 by (unfold w0; cbn; by rewrite lookup_insert_eq).
    rewrite Hns in Hs. destruct (users_shown _ _ _ _ _ _ _ Hok0 Hq0 Hs) as (Hno & _ & _).
    specialize (Hno eq_refl eq_refl).
    match type of H1 with free_page _ _ ?w1 = _ => set (wx := w1) in * end.
    assert (same_but (status p) w0 wx) as Hsb.
    { split; try done. intros m Hm. unfold wx, w0. cbn. by rewrite !lookup_alter_ne, lookup_insert_ne. }
    assert (forall q, pps wx !! status p = Some q -> owner q = None) as Hox.
    { intros q'. unfold wx. cbn. rewrite !lookup_alter_eq, Hq. by intros [= <-]. }
    destruct (free_page_ok _ _ _ _ _ _ _ _ _ _ Hok0 Hq0 Hx Hxf Hno Hsb Hox H1) as (Hok2 & Hv2 & Hf2 & Hr2).
    destruct (Hend _ _ Hok2 _ _ H) as (? & Hv3 & Hf3 & Hr3). split; [done|].
    rewrite Hv3, Hf3, Hr3, Hv2, Hf2, Hr2. done.
  - rewrite bind_bind in H. apply bind_ret_inv in H as (b & w1 & H1 & H).
    destruct (rm_share_ok _ _ _ _ _ _ _ _ _ Hok HV Hp Hq H1) as (Hok1 & Hsb & (q1 & Hq1 & Hl1 & Ho1) & Hu & Hf1 & Hr1).
    assert (vps w1 = vps w) as Hv1 by by rewrite (sb_vps _ _ _ Hsb).
    destruct (b && VP_IS_ANON p) eqn:Eb.
    + apply andb_true_iff in Eb as [-> _]. apply bind_ret_inv in H as (D1 & w2 & H2 & H).
      assert (x' ∉ lst w1 page_free_list) as Hxf1 by (unfold lst; by rewrite (sb_lists _ _ _ Hsb)).
      rewrite Hx in Hl1.
      destruct (free_page_ok (V ∖ {[v]}) D E w1 w1 w2 D1 x' (status p) q1) as (Hok2 & Hv2 & Hf2 & Hr2); try done.
      { intros q2 Hq2. rewrite Hq1 in Hq2. injection Hq2 as <-. by apply Ho1. }
      destruct (Hend _ _ Hok2 _ _ H) as (? & Hv3 & Hf3 & Hr3). split; [done|].
      by rewrite Hv3, Hf3, Hr3, Hv2, Hf2, Hr2, Hv1, Hf1, Hr1.
    + rewrite bind_mret in H.
      assert (pages_ok (V ∖ {[v]}) D E w1) as Hok2.
      { apply (pages_ok_settle _ _ _ (status p)); [done|]. destruct b; [|by left]. right.
        intros q2 x2 Hq2 Hx2 Ha. rewrite Hq1 in Hq2. injection Hq2 as <-. rewrite Hl1, Hx in Hx2. injection Hx2 as <-.
        unfold lst in Ha. rewrite (sb_lists _ _ _ Hsb) in Ha.
        apply (ok_anon _ _ _ _ Hok v p q x' HV Hp Hq Hx) in Ha. by rewrite Ha in Eb. }
      destruct (Hend _ _ Hok2 _ _ H) as (? & Hv3 & Hf3 & Hr3). split; [done|].
      by rewrite Hv3, Hf3, Hr3, Hv1, Hf1, Hr1.
Qed.

(** *** Dropping many *)

Lemma push_fpage_inv fps n r w fps' w' : push_fpage fps n r w = Ret fps' w' ->
  w' = w \/ exists c, w' = add_vmcall c w.
Proof.
  unfold push_fpage, vm_ask. destruct (_ =? _)%nat.
  - intros (z & w1 & [= <- <-] & H)%bind_ret_inv. injection H as <- <-. eauto.
  - intros [= <- <-]. by left.
Qed.
Lemma flush_fpages_inv fps w w' : flush_fpages fps w = Ret tt w' -> w' = w \/ exists c, w' = add_vmcall c w.
Proof.
  unfold flush_fpages, vm_ask. case_bool_decide as Hf; [intros [= <-]; by left|].
  intros (z & w1 & [= <- <-] & H)%bind_ret_inv. injection H as <-. eauto.
Qed.
Lemma pages_ok_call V D E w w' : pages_ok V D E w -> (w' = w \/ exists c, w' = add_vmcall c w) ->
  pages_ok V D E w' /\ vps w' = vps w /\ frames w' = frames w /\ rest w' = rest w.
Proof.
  intros Hok [->|[c ->]]; [done|]. split; [|done]. apply (pages_ok_same V D E w); try done.
  intros v p. apply (ok_next_vp _ _ _ _ Hok).
Qed.

Lemma drop_vp_ok V E v st w st' w' : pages_ok V st.2 E w -> v ∈ V -> drop_vp v st w = Ret st' w' ->
  pages_ok (V ∖ {[v]}) st'.2 E w' /\ vps w' = delete v (vps w) /\ frames w' = frames w /\ rest w' = rest w.
Proof.
  intros Hok HV. unfold drop_vp. intros (p & w1 & H1 & H)%bind_ret_inv. apply vp_at_inv in H1 as [-> Hp].
  apply bind_ret_inv in H as ([] & w1 & [_ ->]%assert_inv & H).
  apply bind_ret_inv in H as (fps & w1 & H1 & H). apply push_fpage_inv in H1.
  destruct (pages_ok_call _ _ _ _ _ Hok H1) as (Hok1 & Hv1 & Hf1 & Hr1).
  apply bind_ret_inv in H as (D & w2 & H2 & H). injection H as <- <-. cbn.
  destruct (remove_vp_ok _ _ _ _ _ _ _ Hok1 HV H2) as (Hok2 & Hv2 & Hf2 & Hr2).
  split; [done|]. by rewrite Hv2, Hf2, Hr2, Hv1, Hf1, Hr1.
Qed.

Lemma drop_vps_ok l V E st w st' w' : pages_ok V st.2 E w -> NoDup l -> (forall v, v ∈ l -> v ∈ V) ->
  foldM drop_vp l st w = Ret st' w' ->
  pages_ok (V ∖ list_to_set l) st'.2 E w' /\ vps w' = foldr delete (vps w) l
  /\ frames w' = frames w /\ rest w' = rest w.
Proof.
  revert V st w. induction l as [|v l IH]; intros V st w Hok Hnd Hin.
  { intros [= <- <-]. cbn. rewrite difference_empty_L. done. }
  cbn [foldM]. intros (st1 & w1 & H1 & H)%bind_ret_inv. inversion Hnd as [|? ? Hvl Hnd']; subst.
  destruct (drop_vp_ok _ _ _ _ _ _ _ Hok (Hin v ltac:(set_solver)) H1) as (Hok1 & Hv1 & Hf1 & Hr1).
  destruct (IH _ _ _ Hok1 Hnd') as (Hok2 & Hv2 & Hf2 & Hr2); [set_solver|done|].
  rewrite Hf2, Hr2, Hv2, Hv1, Hf1, Hr1. split; [|split; [|done]].
  - assert (V ∖ list_to_set (v :: l) = V ∖ {[v]} ∖ list_to_set l) as -> by set_solver. done.
  - cbn. clear. induction l as [|u l IH]; [done|]. cbn. by rewrite IH, delete_delete.
Qed.

(** *** Taking a page from the free list *)

Lemma pages_ok_more V D E n w : pages_ok V D E w -> pages_ok V D ({[n]} ∪ E) w.
Proof.
  intros [A1 A2 A3 A4 A5 A6 A7 A8 A9 B1 B2 B3 B4 B5 B6 B7 B8 B9]. split; try done.
  intros x p Hx Hp Hs HE. apply (B5 x p); try done. set_solver.
Qed.

(** The top of the free list moves to the list [l1] under the link [nl]. *)
Record taken (V : gset Z) (x : Z) (p : pl) (l : list Z) (nl l1 : Z) (p' : pl) (o : option Z) (w w' : vm) : Prop := Taken {
  tk_free : lst w page_free_list = x :: l;
  tk_link : pls w !! x = Some p;
  tk_pps : pps w' = <[page_num p := Pp (Some nl) o]> (pps w);
  tk_new : next_ptr w <= nl < next_ptr w';
  tk_gone : pls w' !! x = None;
  tk_nl : pls w' !! nl = Some p' /\ page_num p' = page_num p /\ pl_status p' <> 0;
  tk_pls y : y <> x -> y <> nl -> pls w' !! y = pls w !! y;
  tk_lists : l1 <> page_free_list /\ forall l', lst w' l' =
    if decide (l' = page_free_list) then l else if decide (l' = l1) then nl :: lst w l1 else lst w l';
  tk_share : share_table w' = share_table w;
  tk_vps v : v ∈ V -> vps w' !! v = vps w !! v;
  tk_next v p : vps w' !! v = Some p -> v < next_ptr w';
  tk_active : l1 = page_active_list <-> o <> None;
  tk_owner v : o = Some v -> v ∉ V /\ exists pv, vps w' !! v = Some pv /\ status pv = page_num p
    /\ VP_IS_ANON pv = true /\ VP_IS_SHARED pv = false /\ (VP_IS_COW pv = true -> has (vaddr pv) L4_Writable = false)
}.

Lemma taken_ok V D E x p l nl l1 p' o w w' : pages_ok V D E w -> taken V x p l nl l1 p' o w w' ->
  pages_ok (with_owner o V) D E w'.
Proof.
  intros Hok [Tf Tl Tpps Tnew Tgone (Tnl1 & Tnl2 & Tnl3) Tpls (Tlf & Tlists) Tsh Tvps Tnext Tact Town].
  assert (x ∈ lst w page_free_list) as Hx by (rewrite Tf; set_solver).
  pose proof (ok_free_live _ _ _ _ _ _ Hok Hx Tl) as Hs.
  destruct (ok_page_of _ _ _ _ _ _ _ Hok Hx Tl Hs) as (q & Hq & Hqx).
  pose proof (ok_nodup _ _ _ _ Hok page_free_list) as Hnd. rewrite Tf in Hnd. inversion Hnd as [|? ? Hxl Hndl]; subst.
  pose proof (ok_next_pl _ _ _ _ Hok _ _ Tl) as Hxn.
  assert (forall l y, y ∈ lst w l -> y <> nl) as Hold.
  { intros l' y Hy ->. destruct (ok_listed _ _ _ _ Hok _ _ Hy) as (py & Hpy & _).
    pose proof (ok_next_pl _ _ _ _ Hok _ _ Hpy). lia. }
  assert (forall l', l' <> page_free_list -> x ∉ lst w l') as Hxo.
  { intros l' Hl' Hin. apply Hl'. by apply (ok_one_list _ _ _ _ Hok _ _ x). }
  apply (pages_ok_move V D D E w w' (page_num p) q x nl l1 o); try done.
  { by apply pages_ok_more. }
  { intros u. by apply (ok_free _ _ _ _ Hok x p u). }
  { tauto. }
  split; try done.
  - by exists p'.
  - by rewrite Tgone.
  - intros y H1 H2. by apply Tpls.
  - intros l' y. rewrite Tlists. destruct (decide (l' = page_free_list)) as [->|Hne].
    + intros Hy. right. rewrite Tf. split; [set_solver|]. by intros ->.
    + destruct (decide (l' = l1)) as [->|Hne1].
      * intros [->|Hy]%elem_of_cons; [by left|]. right. split; [done|]. intros ->. by destruct (Hxo l1).
      * intros Hy. right. split; [done|]. intros ->. by destruct (Hxo l').
  - intros l' y Hne Hy. rewrite Tlists. destruct (decide (l' = page_free_list)) as [->|].
    + rewrite Tf in Hy. set_solver.
    + destruct (decide (l' = l1)) as [->|]; [set_solver|done].
  - rewrite Tlists. destruct (decide _); [done|]. rewrite decide_True by done. set_solver.
  - intros l'. rewrite Tlists. destruct (decide (l' = page_free_list)); [done|].
    destruct (decide (l' = l1)) as [->|]; [|apply (ok_nodup _ _ _ _ Hok)].
    constructor; [|apply (ok_nodup _ _ _ _ Hok)]. intros Hin. by apply (Hold l1 nl).
Qed.

(** *** The page cache *)

Lemma bob96bitmix_nonneg a b c : 0 <= bob96bitmix a b c.
Proof.
  unfold bob96bitmix. cbv zeta. match goal with |- 0 <= Z.lxor (u32 ?z) (Z.shiftr ?b 15) => set (z' := z); set (b' := b) end.
  assert (forall x, 0 <= u32 x) as Hu by (intros x; apply u32_range).
  apply Z.lxor_nonneg. split; intros _; [|apply Hu]. apply Z.shiftr_nonneg. unfold b'.
  apply Z.lxor_nonneg. by split; intros _; apply Hu.
Qed.
Lemma bucket_of_range h : 0 <= h -> 0 <= bucket_of h.
Proof. intros Hh. unfold bucket_of. apply Z.land_nonneg. by left. Qed.
Lemma hash_lazy_mmap_bucket m bump : bucket_of (hash_lazy_mmap m bump) <> page_free_list
  /\ bucket_of (hash_lazy_mmap m bump) <> page_active_list.
Proof.
  pose proof (bucket_of_range (hash_lazy_mmap m bump) (bob96bitmix_nonneg _ _ _)).
  unfold page_free_list, page_active_list. lia.
Qed.

(** The key that a page gets leads back to the bucket its mapping is looked up in. *)
Lemma key_bucket m bump p : fsid_ino p = fsid_ino_of m -> pl_offset p = u32 (offset m + bump) ->
  hash_cached_page (pl_offset p) (Z.shiftr (fsid_ino p) 32) (Z.land (fsid_ino p) 0xffffffff)
  = hash_lazy_mmap m bump.
Proof.
  intros -> ->. unfold hash_lazy_mmap, fsid_ino_of.
  apply (f_equal2 (hash_cached_page (u32 (offset m + bump)))); apply Z.bits_inj'; intros i Hi.
  - rewrite Z.shiftr_spec, !Z.lor_spec, !Z.land_spec by lia. unfold u64, u32.
    rewrite !mod_pow2_testbit, Z.shiftr_spec by lia. unfold bnot64.
    rewrite unot_testbit, !Z.shiftl_spec by lia. change 0xffff with (Z.ones 16).
    rewrite !Z.testbit_ones by lia. replace (i + 32 - 48) with (i - 16) by lia.
    destruct (Z.ltb_spec i 32), (Z.ltb_spec (i + 32) 64), (Z.ltb_spec i 16), (Z.leb_spec 0 i),
      (Z.leb_spec 0 (i + 32 - 48)), (Z.ltb_spec (i + 32 - 48) 16), (Z.leb_spec 0 (i - 16)), (Z.ltb_spec (i - 16) 16);
      try lia; by rewrite ?andb_false_r, ?andb_true_r, ?orb_false_r.
  - rewrite !Z.land_spec, Z.lor_spec, Z.land_spec. change 0xffffffff with (Z.ones 32).
    rewrite Z.testbit_ones by lia. destruct (Z.ltb_spec i 32); [|by rewrite !andb_false_r].
    unfold u64. rewrite mod_pow2_testbit, Z.shiftl_spec by lia. unfold bnot64. rewrite unot_testbit by lia.
    rewrite (Z.testbit_neg_r _ (i - 48)), Z.shiftl_spec, (Z.testbit_neg_r _ (i - 48)) by lia.
    destruct (Z.ltb_spec i 64); [|lia]. by rewrite andb_false_r, andb_true_r.
Qed.

#[local] Opaque bob96bitmix hash_cached_page hash_lazy_mmap bucket_of fsid_ino_of int_hash.

(** Nothing changes but what [frames] holds and the calls made. *)
Definition quiet (w w' : vm) : Prop :=
  pps w' = pps w /\ pls w' = pls w /\ vps w' = vps w /\ lists w' = lists w
  /\ share_table w' = share_table w /\ next_ptr w' = next_ptr w /\ rest w' = rest w.

Lemma read_at_inv m n off w r w' : read_at m n off w = Ret r w' -> quiet w w' /\ frames w' = frames w.
Proof.
  unfold read_at. intros ([] & w1 & [_ ->]%assert_inv & (z & w2 & [= <- <-] & H)%bind_ret_inv)%bind_ret_inv.
  destruct (negb _); [by injection H as <- <-|]. rewrite bind_get in H. by injection H as <- <-.
Qed.
Lemma find_cached_page_inv m bump w r w' : find_cached_page m bump w = Ret r w' -> w' = w
  /\ r.1 = head (lst w (bucket_of (hash_lazy_mmap m bump)))
  /\ forall c, r.2 = Some c -> c ∈ lst w (bucket_of (hash_lazy_mmap m bump)) /\ is_cached w m bump c = true.
Proof.
  unfold find_cached_page. rewrite bind_get. intros [= <- <-]. split; [done|]. split; [done|].
  intros c Hc. apply find_some in Hc as [Hin Hc]. split; [|done]. by apply elem_of_list_In || by apply list_elem_of_In.
Qed.
Lemma is_cached_inv w m bump c : is_cached w m bump c = true -> exists p, pls w !! c = Some p /\ 0 < pl_status p
  /\ PL_INO p = ino m /\ pl_offset p = u32 (offset m + bump) /\ PL_FSID p = pidof_NP vm_global (fd_serv m).
Proof.
  unfold is_cached. destruct (pls w !! c) as [p|]; [|done]. rewrite !andb_true_iff. intros (((?%Z.ltb_lt & ?%Z.eqb_eq) & ?%Z.eqb_eq) & ?%Z.eqb_eq).
  by exists p.
Qed.

Lemma fill_page_inv m x off bump w n w' : fill_page m x off bump w = Ret n w' ->
  n < 0 \/ (n = 0 /\ exists p p', pls w !! x = Some p /\ pls w' = <[x := p']> (pls w) /\ page_num p' = page_num p
    /\ pl_status p' = pl_status p /\ fsid_ino p' = fsid_ino_of m /\ pl_offset p' = u32 (offset m + bump)
    /\ PL_INO p' = ino m /\ PL_FSID p' = pidof_NP vm_global (fd_serv m)
    /\ quiet (set_pls (pls w') w) w' /\ (forall k, k <> page_num p -> frame w' k = frame w k)).
Proof.
  unfold fill_page. intros (p & w1 & H1 & H)%bind_ret_inv. apply pl_at_inv in H1 as [-> Hp].
  apply bind_ret_inv in H as ([n0 bytes] & w1 & H1 & H).
  assert (quiet w w1 /\ frames w1 = frames w) as [Hq Hf1].
  { destruct (has _ _); [by injection H1 as <- <- <-|by apply read_at_inv in H1]. }
  destruct (Z.ltb_spec n0 0) as [Hn|Hn].
  - left. apply bind_ret_inv in H as ([] & w2 & _ & H). apply bind_ret_inv in H as ([] & w3 & _ & H).
    by injection H as <- <-.
  - right. rewrite bind_get in H. unfold set_frame, clear_tail, set_key in H. rewrite bind_modify, bind_bind, bind_get in H.
    unfold set_frame in H. rewrite !bind_modify in H.
    destruct Hq as (Q1 & Q2 & Q3 & Q4 & Q5 & Q6 & Q7).
    apply bind_ret_inv in H as (p' & w2 & H2 & H). apply pl_at_inv in H2 as [-> Hp']. cbn in Hp'.
    rewrite Q2, lookup_alter_eq, Hp in Hp'. injection Hp' as <-.
    apply bind_ret_inv in H as ([] & w2 & [Hfs%Z.eqb_eq ->]%assert_inv & H).
    apply bind_ret_inv in H as ([] & w2 & [Hin%Z.eqb_eq ->]%assert_inv & H). injection H as <- <-.
    split; [done|]. eexists p, _. split; [done|]. split.
    { cbn. rewrite Q2. by apply (alter_is_insert (fun p => Pl (page_num p) (pl_status p) (fsid_ino_of m) (u32 (offset m + bump)))). }
    do 6 (split; [done|]). split; [by split_and!|].
    intros k Hk. unfold frame. cbn. by rewrite !lookup_insert_ne, Hf1.
Qed.

Lemma push_cached_page_inv top x w r w' p : pls w !! x = Some p ->
  top = head (lst w (bucket_of (hash_cached_page (pl_offset p) (Z.shiftr (fsid_ino p) 32) (Z.land (fsid_ino p) 0xffffffff)))) ->
  push_cached_page top x w = Ret r w' -> r.1 = - ENOMEM \/ exists q,
    pps w !! page_num p = Some q /\ r = (0, next_ptr w) /\
    let l := bucket_of (hash_cached_page (pl_offset p) (Z.shiftr (fsid_ino p) 32) (Z.land (fsid_ino p) 0xffffffff)) in
    w' = set_lists (<[l := next_ptr w :: lst w l]> (lists w))
           (set_pps (<[page_num p := Pp (Some (next_ptr w)) (owner q)]> (pps w))
              (set_pls (<[next_ptr w := Pl (page_num p) 1 (fsid_ino p) (pl_offset p)]> (pls w))
                 (set_next_ptr (next_ptr w + 1) (add_vmcall VMalloc w)))).
Proof.
  intros Hp Htop. unfold push_cached_page. intros (p0 & w1 & H1 & H)%bind_ret_inv.
  apply pl_at_inv in H1 as [-> Hp0]. rewrite Hp in Hp0. injection Hp0 as <-.
  apply bind_ret_inv in H as (nl & w1 & H1 & H). apply malloc_inv in H1 as [[-> ->]|[-> ->]].
  { left. by injection H as <- <-. }
  right. rewrite bind_get in H. cbv zeta in H.
  set (l := bucket_of _) in *. replace (lst (set_next_ptr _ _) l) with (lst w l) in H by done.
  rewrite bool_decide_true in H by done. cbn [find] in H. rewrite bind_modify in H.
  unfold push_list in H. rewrite bind_modify in H.
  apply bind_ret_inv in H as (q & w1 & H1 & H). apply pl2pp_inv in H1 as (-> & p1 & Hp1 & Hq).
  unfold set_link in H. rewrite bind_modify in H. injection H as <- <-. cbn in *.
  assert (page_num p1 = page_num p) as E.
  { destruct (decide (x = next_ptr w)) as [->|]; [rewrite lookup_insert_eq in Hp1; by injection Hp1 as <-|].
    rewrite lookup_insert_ne in Hp1 by done. congruence. }
  rewrite E in Hq. exists q. split; [done|]. split; [done|].
  rewrite (alter_is_insert (fun p => Pp (Some (next_ptr w)) (owner p)) _ _ q) by done. done.
Qed.

(** What is looked up in the page cache is found there, or put there. *)
Definition cached_in (w : vm) (c : Z) : Prop := exists p l, pls w !! c = Some p /\ pl_status p <> 0
  /\ c ∈ lst w l /\ l <> page_free_list /\ l <> page_active_list.

Lemma find_cached_in V D E w m bump top c w' : pages_ok V D E w ->
  find_cached_page m bump w = Ret (top, Some c) w' -> w' = w /\ cached_in w c.
Proof.
  intros Hok Hf. apply find_cached_page_inv in Hf as (-> & _ & Hc). destruct (Hc c eq_refl) as [Hin His].
  apply is_cached_inv in His as (p & Hp & Hs & _). split; [done|].
  destruct (hash_lazy_mmap_bucket m bump). eexists p, _. split; [done|]. split; [lia|]. by split_and!.
Qed.

(** The page at the top of the free list is filled and goes to the cache. *)
Lemma fill_and_cache V D E w w1 x m off bump n w2 r w3 : pages_ok V D E w -> get_free_pl w = Ret x w1 ->
  fill_page m x off bump w1 = Ret n w2 -> 0 <= n ->
  forall w2', pls w2' = pls w2 -> vps w2' = vps w2 -> lists w2' = lists w2 -> share_table w2' = share_table w2 ->
  next_ptr w2' = next_ptr w2 -> rest w2' = rest w2 ->
  push_cached_page (head (lst w (bucket_of (hash_lazy_mmap m bump)))) x w2' = Ret r w3 ->
  r.1 = - ENOMEM \/ exists p q, r = (0, next_ptr w) /\ pls w !! x = Some p /\ pps w2' !! page_num p = Some q
    /\ pps w3 = <[page_num p := Pp (Some (next_ptr w)) (owner q)]> (pps w2')
    /\ pages_ok V D E (set_pps (<[page_num p := Pp (Some (next_ptr w)) None]> (pps w)) (set_pls (delete x (pls w3)) w3))
    /\ cached_in (set_pls (delete x (pls w3)) w3) (next_ptr w)
    /\ (exists c, pls w3 !! next_ptr w = Some c /\ page_num c = page_num p) /\ next_ptr w <> x
    /\ vps w3 = vps w /\ rest w3 = rest w /\ next_ptr w3 = next_ptr w + 1
    /\ lst w3 page_free_list = tail (lst w page_free_list).
Proof.
  intros Hok Hg Hfill Hn w2' Hpls Hvps Hlists Hst Hnext Hrest Hpush.
  apply get_free_pl_inv in Hg as (l & Hl & ->).
  apply fill_page_inv in Hfill as [?|(_ & p & p' & Hp & Hp2 & Enum & Est & Ekey & Eoff & _ & _ & Q & _)]; [lia|].
  destruct Q as (Q1 & Q2 & Q3 & Q4 & Q5 & Q6 & Q7). cbn in Hp, Hp2, Q1, Q3, Q4, Q5, Q6.
  assert (pls w2' !! x = Some p') as Hpx by by rewrite Hpls, Hp2, lookup_insert_eq.
  destruct (hash_lazy_mmap_bucket m bump) as [Hb1 Hb2].
  assert (forall b, b <> page_free_list -> lst w2' b = lst w b) as Hlst.
  { intros b Hb. unfold lst. rewrite Hlists, Q4. by rewrite lookup_insert_ne. }
  assert (forall p', fsid_ino p' = fsid_ino_of m -> pl_offset p' = u32 (offset m + bump) ->
    head (lst w (bucket_of (hash_lazy_mmap m bump))) = head (lst w2' (bucket_of
      (hash_cached_page (pl_offset p') (Z.shiftr (fsid_ino p') 32) (Z.land (fsid_ino p') 0xffffffff))))) as Htop.
  { intros p0 E1 E2. rewrite (key_bucket m bump p0 E1 E2). by rewrite Hlst. }
  assert (x ∈ lst w page_free_list) as Hxf by (rewrite Hl; set_solver).
  pose proof (ok_next_pl _ _ _ _ Hok _ _ Hp) as Hxn.
  destruct (push_cached_page_inv _ _ _ _ _ _ Hpx (Htop p' Ekey Eoff) Hpush)
    as [?|(q & Hq & -> & Hw3)]; [by left|]. right. cbv zeta in Hw3. rewrite (key_bucket m bump p' Ekey Eoff) in Hw3.
  rewrite Hnext, Q6 in Hw3. rewrite Enum in *. set (b := bucket_of _) in *. rewrite Hnext, Q6.
  exists p, q. split; [done|]. split; [done|]. split; [done|].
  assert (pls w3 = <[next_ptr w := Pl (page_num p) 1 (fsid_ino p') (pl_offset p')]> (pls w2')) as Hpls3 by by rewrite Hw3.
  assert (vps w3 = vps w) as Hvps3 by by rewrite Hw3; cbn; rewrite Hvps, Q3.
  assert (next_ptr w3 = next_ptr w + 1) as Hn3 by by rewrite Hw3.
  assert (lists w3 = <[b := next_ptr w :: lst w b]> (lists w2')) as Hl3 by by rewrite Hw3; cbn; rewrite Hlst.
  split; [by rewrite Hw3|]. split; [|split; [|split; [|split; [lia|split; [done|split; [|split; [done|]]]]]]].
  - apply (taken_ok V D E x p l (next_ptr w) b (Pl (page_num p) 1 (fsid_ino p') (pl_offset p')) None w); [done|].
    split; try done; cbn.
    + lia.
    + by rewrite lookup_delete_eq.
    + rewrite lookup_delete_ne by lia. by rewrite Hpls3, lookup_insert_eq.
    + intros y Hy1 Hy2. rewrite lookup_delete_ne by done. rewrite Hpls3, lookup_insert_ne by done.
      by rewrite Hpls, Hp2, lookup_insert_ne.
    + split; [done|]. intros l'. unfold lst. cbn. rewrite Hl3.
      destruct (decide (l' = page_free_list)) as [->|Hne].
      * rewrite lookup_insert_ne by done. by rewrite Hlists, Q4, lookup_insert_eq.
      * destruct (decide (l' = b)) as [->|]; [by rewrite lookup_insert_eq|]. rewrite lookup_insert_ne by done.
        by rewrite Hlists, Q4, lookup_insert_ne.
    + by rewrite Hw3; cbn; rewrite Hst, Q5.
    + intros v _. by rewrite Hvps3.
    + intros v pv. rewrite Hvps3, Hn3. intros Hv. pose proof (ok_next_vp _ _ _ _ Hok _ _ Hv). lia.
  - eexists _, b. cbn. rewrite lookup_delete_ne by lia. rewrite Hpls3, lookup_insert_eq.
    split; [done|]. split; [done|]. split; [|done]. unfold lst. cbn. rewrite Hl3, lookup_insert_eq. cbn. set_solver.
  - rewrite Hpls3, lookup_insert_eq. by eexists.
  - transitivity (rest w2'); [by rewrite Hw3|]. by rewrite Hrest, Q7.
  - unfold lst at 1. rewrite Hl3, lookup_insert_ne by done. rewrite Hlists, Q4, lookup_insert_eq, Hl. done.
Qed.

Lemma free_pl_inv x w u w' : free_pl x w = Ret u w' -> w' = set_pls (delete x (pls w)) w.
Proof. by intros [= _ <-]. Qed.

(** [w'] comes from [w] by work on pages that leaves the virtual ones alone. *)
Definition vps_kept (w w' : vm) : Prop :=
  vps w' = vps w /\ rest w' = rest w /\ next_ptr w <= next_ptr w'.

Lemma cached_for_ok V D E w m faddr n c w' : pages_ok V D E w -> cached_for m faddr w = Ret (n, c) w' -> 0 <= n ->
  pages_ok V D E w' /\ cached_in w' c /\ vps_kept w w'.
Proof.
  intros Hok Hrun Hn. unfold cached_for in Hrun. cbv zeta in Hrun.
  set (bump := Z.shiftr (u32 (page_of faddr - addr m)) PAGE_BITS) in *.
  apply bind_ret_inv in Hrun as ([top [c'|]] & w1 & H1 & H).
  { injection H as <- <- <-. apply (find_cached_in V D E) in H1 as [-> Hc]; [|done].
    split; [done|]. split; [done|]. split; [done|]. split; [done|lia]. }
  apply find_cached_page_inv in H1 as (-> & Htop & _). cbn in Htop. subst top.
  apply bind_ret_inv in H as (x & w1 & Hg & H). apply bind_ret_inv in H as (k & w2 & Hf & H).
  destruct (Z.ltb_spec k 0) as [Hk|Hk]; [injection H as <- _ _; lia|].
  apply bind_ret_inv in H as (r & w3 & Hp & H).
  destruct (fill_and_cache _ _ _ _ _ _ _ _ _ _ _ _ _ Hok Hg Hf Hk w2 eq_refl eq_refl eq_refl eq_refl eq_refl eq_refl Hp)
    as [Hr|(p & q & -> & Hx & Hq & Hpps & Hok3 & Hc & _ & Hne & Hv & Hrest & Hnext & _)].
  { destruct r as [r c']. cbn in Hr. subst r. change ((- ENOMEM =? 0)) with false in H. cbn match in H.
    rewrite bind_bind in H. apply bind_ret_inv in H as ([] & w4 & [Ha _]%assert_inv & _). done. }
  cbn match in H. change (0 =? 0) with true in H. cbn match in H. rewrite bind_mret in H.
  apply bind_ret_inv in H as ([] & w4 & H4 & H). apply free_pl_inv in H4 as ->. injection H as <- <- <-.
  apply get_free_pl_inv in Hg as (l & Hl & ->).
  apply fill_page_inv in Hf as [?|(_ & p2 & p' & Hp2 & _ & _ & _ & _ & _ & _ & _ & Q & _)]; [lia|].
  destruct Q as (Q1 & Q2 & Q3 & Q4 & Q5 & Q6 & Q7). cbn in Q1.
  assert (owner q = None) as Ho.
  { rewrite Q1 in Hq. destruct (owner q) as [v|] eqn:Ev; [|done].
    exfalso. apply (ok_free _ _ _ _ Hok x p v); [rewrite Hl; set_solver|done|].
    by apply (ok_owner _ _ _ _ Hok _ q). }
  split; [|split; [done|by split; [|split; [|cbn; lia]]]].
  rewrite Ho, Q1 in Hpps. eapply pages_ok_same; [exact Hok3|..]; try done.
  intros v pv. apply (ok_next_vp _ _ _ _ Hok3).
Qed.

(** A virtual page that a freshly read page belongs to until it is told not to. *)
Definition disowned (w : vm) (c : Z) : vm :=
  match pls w !! c with
  | Some p => set_pps (alter (fun q => Pp (link q) None) (page_num p) (pps w)) w
  | None => w
  end.

Lemma fetch_cached_page_ok V D E w m bump v n c w' : pages_ok V D E w -> v ∉ V ->
  fetch_cached_page m bump v w = Ret (n, c) w' -> 0 <= n ->
  pages_ok V D E (if n =? 1 then disowned w' c else w') /\ cached_in w' c /\ vps_kept w w'.
Proof.
  intros Hok HvV Hrun Hn. unfold fetch_cached_page in Hrun.
  apply bind_ret_inv in Hrun as ([top [c'|]] & w1 & H1 & H).
  { injection H as <- <- <-. apply (find_cached_in V D E) in H1 as [-> Hc]; [|done].
    split; [done|]. split; [done|]. split; [done|]. split; [done|lia]. }
  apply find_cached_page_inv in H1 as (-> & Htop & _). cbn in Htop. subst top.
  apply bind_ret_inv in H as (x & w1 & Hg & H). apply bind_ret_inv in H as (k & w2 & Hf & H).
  destruct (Z.ltb_spec k 0) as [Hk|Hk]; [injection H as <- _ _; lia|].
  apply bind_ret_inv in H as (l & w3 & H1 & H). apply pl_at_inv in H1 as [-> Hl].
  apply bind_ret_inv in H as (q2 & w3 & H1 & H). apply pl2pp_inv in H1 as (-> & l' & Hl' & Hq2).
  rewrite Hl in Hl'. injection Hl' as <-. unfold set_owner in H. rewrite bind_modify in H.
  set (w2' := set_pps _ w2) in *.
  apply bind_ret_inv in H as (r & w3 & Hp & H).
  destruct (fill_and_cache _ _ _ _ _ _ _ _ _ _ _ _ _ Hok Hg Hf Hk w2' eq_refl eq_refl eq_refl eq_refl eq_refl eq_refl Hp)
    as [Hr|(p & q & -> & Hx & Hq & Hpps & Hok3 & Hc & (pc & Hpc & Hnum) & Hne & Hv & Hrest & Hnext & _)].
  { destruct r as [r c']. cbn in Hr. subst r. change (- ENOMEM =? 0) with false in H. cbn match in H.
    rewrite bind_bind in H. apply bind_ret_inv in H as ([] & w4 & [Ha _]%assert_inv & _). done. }
  cbn match in H. change (0 =? 0) with true in H. cbn match in H.
  rewrite bind_bind in H. apply bind_ret_inv in H as (q3 & w4 & H1 & H). apply pl2pp_inv in H1 as (-> & _).
  rewrite bind_bind in H. apply bind_ret_inv in H as ([] & w4 & [_ ->]%assert_inv & H).
  rewrite bind_mret in H. apply bind_ret_inv in H as ([] & w4 & H4 & H). apply free_pl_inv in H4 as ->.
  injection H as <- <- <-. change (1 =? 1) with true. cbn match.
  split; [|split; [done|by split; [|split; [|cbn; lia]]]].
  apply get_free_pl_inv in Hg as (lf & Hlf & ->).
  apply fill_page_inv in Hf as [?|(_ & p2 & p' & Hp2 & Hp2' & En & _ & _ & _ & _ & _ & Q & _)]; [lia|].
  destruct Q as (Q1 & Q2 & Q3 & Q4 & Q5 & Q6 & Q7). cbn in Q1, Hp2. rewrite Hx in Hp2. injection Hp2 as <-.
  rewrite Hp2', lookup_insert_eq in Hl. injection Hl as <-.
  unfold disowned. cbn. rewrite lookup_delete_ne by done. rewrite Hpc.
  eapply pages_ok_same; [exact Hok3|..]; try done.
  - cbn. rewrite Hpps, Hnum. unfold w2'. cbn. rewrite Q1, En. apply map_eq. intros i.
    destruct (decide (i = page_num p)) as [->|].
    + by rewrite lookup_alter_eq, !lookup_insert_eq.
    + by rewrite lookup_alter_ne, !lookup_insert_ne, lookup_alter_ne.
  - intros u pv. apply (ok_next_vp _ _ _ _ Hok3).
Qed.

(** *** Flags *)

Lemma clear_W x : has (clear_bits x L4_Writable) L4_Writable = false.
Proof. change L4_Writable with (2 ^ 1). rewrite has_clear by lia. apply andb_false_r. Qed.
Lemma clear_W_other x k : 2 <= k < 32 -> has (clear_bits x L4_Writable) (2 ^ k) = has x (2 ^ k).
Proof.
  intros Hk. rewrite has_clear by lia. change L4_Writable with (2 ^ 1).
  rewrite Z.pow2_bits_false by lia. apply andb_true_r.
Qed.
Lemma rights_W v : has (VP_RIGHTS v) L4_Writable = has (vaddr v) L4_Writable.
Proof. unfold VP_RIGHTS, has. by rewrite <- Z.land_assoc. Qed.

(** The flags of a page that was just made *)
Lemma new_flags x rights k : 3 <= k < 12 -> has (Z.lor (page_of x) (Z.land rights 7)) (2 ^ k) = false.
Proof.
  intros Hk. rewrite has_bit, Z.lor_spec, page_of_bit, Z.land_spec by lia. change 7 with (Z.ones 3).
  rewrite Z.testbit_ones by lia. replace (k <? 3) with false by lia. by rewrite !andb_false_r.
Qed.
End ops.

Section faults.
Context `{LA : !L4Abi, VE : !VmEnv, RB : !RbOps}.
#[local] Opaque bob96bitmix hash_cached_page hash_lazy_mmap bucket_of fsid_ino_of int_hash.

(** Some htable_add() on [share_table] has failed: there vm.c leaves a virtual page in its
    space without a share ([fork_cow]), or does not notice ([pf_mmap_shared]). *)
Fixpoint share_lost (tr : list vmcall) : bool :=
  match tr with
  | [] => false
  | c :: tr => match c with VHtableAdd TabShares => vm_env tr c =? 0 | _ => false end || share_lost tr
  end.
Definition no_share_lost (w : vm) : Prop := share_lost (vm_trace w) = false.

Lemma htable_add_shares h v t w b t' w' : htable_add TabShares h v t w = Ret (b, t') w' -> no_share_lost w' ->
  b = true /\ t' = t ++ [(h, v)] /\ w' = add_vmcall (VHtableAdd TabShares) w.
Proof.
  unfold htable_add, vm_ask. intros (ok & w1 & [= <- <-] & H)%bind_ret_inv Hno.
  destruct (Z.eqb_spec (vm_env (vm_trace w) (VHtableAdd TabShares)) 0) as [E|E]; injection H as <- <- <-; [|done].
  unfold no_share_lost in Hno. cbn in Hno. by rewrite E in Hno.
Qed.

Lemma alloc_ok V D E w w' x l p p' v pv : pages_ok V D E w -> lst w page_free_list = x :: l ->
  pls w !! x = Some p -> v ∉ V ->
  pps w' = <[page_num p := Pp (Some (next_ptr w)) (Some v)]> (pps w) ->
  pls w' = delete x (<[next_ptr w := p']> (pls w)) -> page_num p' = page_num p -> pl_status p' <> 0 ->
  lists w' = <[page_active_list := next_ptr w :: lst w page_active_list]> (<[page_free_list := l]> (lists w)) ->
  share_table w' = share_table w -> next_ptr w' = next_ptr w + 1 ->
  vps w' !! v = Some pv -> status pv = page_num p -> VP_IS_ANON pv = true -> VP_IS_SHARED pv = false ->
  (VP_IS_COW pv = true -> has (vaddr pv) L4_Writable = false) ->
  (forall u, u ∈ V -> vps w' !! u = vps w !! u) -> (forall u pu, vps w' !! u = Some pu -> u < next_ptr w') ->
  pages_ok ({[v]} ∪ V) D E w'.
Proof.
  intros Hok Hl Hp HvV Hpps Hpls Hn Hs Hlists Hst Hnext Hv Hstat Ha Hns Hc Hvps Hvn.
  pose proof (ok_next_pl _ _ _ _ Hok _ _ Hp) as Hxn.
  apply (taken_ok V D E x p l (next_ptr w) page_active_list p' (Some v) w); [done|].
  split; try done.
  - lia.
  - by rewrite Hpls, lookup_delete_eq.
  - rewrite Hpls, lookup_delete_ne, lookup_insert_eq by lia. done.
  - intros y H1 H2. by rewrite Hpls, lookup_delete_ne, lookup_insert_ne.
  - split; [done|]. intros l'. unfold lst. rewrite Hlists.
    destruct (decide (l' = page_free_list)) as [->|]; [by rewrite lookup_insert_ne, lookup_insert_eq|].
    destruct (decide (l' = page_active_list)) as [->|]; [by rewrite lookup_insert_eq|].
    by rewrite !lookup_insert_ne.
  - intros u [= <-]. split; [done|]. by exists pv.
Qed.

(** The new page's link takes its place on the active list. *)
Lemma push_active_run x w w' p q l : pls w !! x = Some p -> pps w !! page_num p = Some q ->
  lst w page_free_list = l -> x < next_ptr w ->
  (_ ← push_page page_active_list x; free_pl x) w = Ret tt w' ->
  pps w' = <[page_num p := Pp (Some (next_ptr w)) (owner q)]> (pps w)
  /\ (exists p', pls w' = delete x (<[next_ptr w := p']> (pls w)) /\ page_num p' = page_num p /\ pl_status p' <> 0)
  /\ lists w' = <[page_active_list := next_ptr w :: lst w page_active_list]> (lists w)
  /\ share_table w' = share_table w /\ next_ptr w' = next_ptr w + 1 /\ vps w' = vps w
  /\ frames w' = frames w /\ rest w' = rest w.
Proof.
  intros Hp Hq Hl Hx ([] & w1 & H1 & H2)%bind_ret_inv. apply push_page_inv in H1 as (o & q' & Ho & Hq' & ->).
  apply free_pl_inv in H2 as ->. rewrite Hp in Ho. injection Ho as <-. rewrite Hq in Hq'. injection Hq' as <-.
  cbn. split; [done|]. split; [by eexists|]. done.
Qed.

Lemma insert_alter {A} (f : A -> A) (m : gmap Z A) i a : <[i := a]> (alter f i m) = <[i := a]> m.
Proof.
  apply map_eq. intros j. destruct (decide (j = i)) as [->|]; [by rewrite !lookup_insert_eq|].
  by rewrite !lookup_insert_ne, lookup_alter_ne.
Qed.

(** A virtual page that is being made: nobody refers to it, and only its rights are set. *)
Definition plain (v : vp) : Prop := VP_IS_ANON v = false /\ VP_IS_SHARED v = false /\ VP_IS_COW v = false.
Lemma plain_anon pv n : plain pv -> let pv' := set_page n (set_vaddr (Z.lor (vaddr pv) VPF_ANON) pv) in
  VP_IS_ANON pv' = true /\ VP_IS_SHARED pv' = false /\ VP_IS_COW pv' = false /\ status pv' = n.
Proof.
  intros (_ & Hs & Hc). unfold VP_IS_ANON, VP_IS_SHARED, VP_IS_COW in *. cbn. by rewrite !has_lor, Hs, Hc, orb_true_r.
Qed.
Lemma plain_shared pv n : plain pv -> let pv' := set_vaddr (Z.lor (vaddr pv) VPF_SHARED) (set_page n pv) in
  VP_IS_ANON pv' = false /\ VP_IS_SHARED pv' = true /\ VP_IS_COW pv' = false /\ status pv' = n.
Proof.
  intros (Ha & _ & Hc). unfold VP_IS_ANON, VP_IS_SHARED, VP_IS_COW in *. cbn. by rewrite !has_lor, Ha, Hc, orb_true_r.
Qed.

(** What the ways to make a page have in common *)
Record made (V : gset Z) (v : Z) (pv : vp) (f : Z) (n : Z) (w w' : vm) : Prop := Made {
  md_ok : pages_ok ({[v]} ∪ V) [] ∅ w';
  md_vp : exists pv', vps w' !! v = Some pv' /\ vaddr pv' = Z.lor (vaddr pv) f /\ status pv' = n;
  md_vps u : u <> v -> vps w' !! u = vps w !! u;
  md_rest : rest w' = rest w
}.

Lemma cached_link V D E w c p : pages_ok V D E w -> cached_in w c -> pls w !! c = Some p ->
  exists q, pps w !! page_num p = Some q /\ link q = Some c /\ c ∉ lst w page_free_list /\ c ∉ lst w page_active_list.
Proof.
  intros Hok (p' & l & Hp' & Hs & Hin & H1 & H2) Hp. rewrite Hp in Hp'. injection Hp' as <-.
  destruct (ok_page_of _ _ _ _ _ _ _ Hok Hin Hp Hs) as (q & Hq & Hx). exists q. split; [done|]. split; [done|].
  split; intros Hc; [apply H1|apply H2]; by apply (ok_one_list _ _ _ _ Hok _ _ c).
Qed.

Lemma add_share_run V D E w n q v : pages_ok V D E w -> pps w !! n = Some q -> forall w' b,
  (exists pv, vps w !! v = Some pv /\ status pv = n) -> add_share n v w = Ret b w' -> no_share_lost w' -> b = true
  /\ pps w' = (if decide (owner q = None) then <[n := Pp (link q) (Some v)]> (pps w) else pps w)
  /\ share_table w' = (if decide (owner q = None) then share_table w else share_table w ++ [(int_hash n, v)])
  /\ pls w' = pls w /\ lists w' = lists w /\ next_ptr w' = next_ptr w /\ vps w' = vps w
  /\ frames w' = frames w /\ rest w' = rest w.
Proof.
  intros Hok Hq w' b (pv & Hpv & Hs). unfold add_share. intros ([] & w1 & [_ ->]%assert_inv & H)%bind_ret_inv Hno.
  apply bind_ret_inv in H as (q' & w1 & H1 & H). apply get_pp_inv in H1 as (-> & _ & Hq').
  rewrite Hq in Hq'. injection Hq' as <-. destruct (owner q) as [u|] eqn:Eo.
  - rewrite decide_False by done. apply bind_ret_inv in H as (pv' & w1 & H1 & H). apply vp_at_inv in H1 as [-> Hpv'].
    rewrite Hpv in Hpv'. injection Hpv' as <-. unfold hash_vp_by_phys in H. rewrite bind_bind in H.
    apply bind_ret_inv in H as ([] & w1 & [_ ->]%assert_inv & H). rewrite bind_mret, bind_get in H.
    apply bind_ret_inv in H as ([ok t] & w1 & H1 & H). rewrite bind_modify in H. injection H as <- <-.
    apply htable_add_shares in H1 as (-> & -> & ->); [|exact Hno]. cbn. rewrite Hs. done.
  - rewrite decide_True by done. unfold set_owner in H. rewrite bind_modify in H. injection H as <- <-. cbn.
    by rewrite (alter_is_insert (fun p => Pp (link p) (Some v)) _ _ q).
Qed.

Definition anon_page (n : Z) (pv : vp) : vp := set_page n (set_vaddr (Z.lor (vaddr pv) VPF_ANON) pv).
Definition shared_page (n : Z) (pv : vp) : vp := set_vaddr (Z.lor (vaddr pv) VPF_SHARED) (set_page n pv).

(** A page of anonymous memory is made of the page at the top of the free list. *)
Lemma alloc_made V v pv w w1 w2 x l px p' : pages_ok V [] ∅ w1 -> v ∉ V -> vps w1 = vps w -> vps w !! v = Some pv ->
  plain pv -> lst w1 page_free_list = x :: l -> pls w1 !! x = Some px ->
  pps w2 = <[page_num px := Pp (Some (next_ptr w1)) (Some v)]> (pps w1) ->
  pls w2 = delete x (<[next_ptr w1 := p']> (pls w1)) -> page_num p' = page_num px -> pl_status p' <> 0 ->
  lists w2 = <[page_active_list := next_ptr w1 :: lst w1 page_active_list]> (<[page_free_list := l]> (lists w1)) ->
  share_table w2 = share_table w1 -> next_ptr w2 = next_ptr w1 + 1 ->
  vps w2 = <[v := anon_page (page_num px) pv]> (vps w) -> rest w2 = rest w ->
  made V v pv VPF_ANON (page_num px) w w2.
Proof.
  intros Hok HvV Hv1 Hpv Hpl Hl Hpx P1 P2 P2a P2b P3 P4 P5 P6 Hr.
  destruct (plain_anon pv (page_num px) Hpl) as (Fa & Fn & Fc & Fs). fold (anon_page (page_num px) pv) in *.
  assert (vps w2 !! v = Some (anon_page (page_num px) pv)) as Hv2 by by rewrite P6, lookup_insert_eq.
  split; [|by eexists|intros u Hu; by rewrite P6, lookup_insert_ne|done].
  apply (alloc_ok V [] ∅ w1 w2 x l px p' v (anon_page (page_num px) pv)); try done.
  - by rewrite Fc.
  - intros u Hu. rewrite P6, lookup_insert_ne by by intros <-. by rewrite Hv1.
  - intros u pu Hpu. rewrite P6 in Hpu. rewrite P5.
    assert (exists pu0, vps w1 !! u = Some pu0) as [pu0 Hpu0].
    { rewrite Hv1. destruct (decide (u = v)) as [->|]; [by eexists|]. rewrite lookup_insert_ne in Hpu by done. by eexists. }
    pose proof (ok_next_vp _ _ _ _ Hok _ _ Hpu0). lia.
Qed.

(** A virtual page shares one that is in the page cache. *)
Lemma share_made V v pv w w1 w2 b c p : pages_ok V [] ∅ w1 -> v ∉ V -> vps w1 = vps w -> rest w1 = rest w ->
  vps w !! v = Some pv -> plain pv -> cached_in w1 c -> pls w1 !! c = Some p ->
  add_share (page_num p) v (set_vps (alter (set_page (page_num p)) v (vps w1)) w1) = Ret b w2 -> no_share_lost w2 ->
  made V v pv VPF_SHARED (page_num p) w
    (set_vps (alter (fun v => set_vaddr (Z.lor (vaddr v) VPF_SHARED) v) v (vps w2)) w2).
Proof.
  intros Hok HvV Hv1 Hr1 Hpv Hpl Hc Hp Hrun Hsl.
  destruct (cached_link _ _ _ _ _ _ Hok Hc Hp) as (q & Hq & Hx & Hnf & Hna).
  rewrite (alter_is_insert _ _ _ pv) in Hrun by by rewrite Hv1. set (w1' := set_vps _ w1) in *.
  assert (pages_ok V [] ∅ w1') as Hok1.
  { apply (pages_ok_same V [] ∅ w1); try done.
    - intros u Hu. cbn. rewrite lookup_insert_ne; [done|by intros <-].
    - intros u pu Hpu. cbn in Hpu. destruct (decide (u = v)) as [->|].
      + apply (ok_next_vp _ _ _ _ Hok v pv). by rewrite Hv1.
      + rewrite lookup_insert_ne in Hpu by done. by apply (ok_next_vp _ _ _ _ Hok u pu). }
  assert (vps w1' !! v = Some (set_page (page_num p) pv)) as Hv1' by (cbn; by rewrite lookup_insert_eq).
  destruct (add_share_run _ _ _ _ _ _ v Hok1 Hq _ _ ltac:(by eexists) Hrun Hsl) as (_ & P1 & P2 & P3 & P4 & P5 & P6 & _ & P8).
  destruct (plain_shared pv (page_num p) Hpl) as (Fa & Fsh & Fc & Fs). fold (shared_page (page_num p) pv) in *.
  rewrite (alter_is_insert _ _ _ (set_page (page_num p) pv)) by by rewrite P6.
  change (set_vaddr _ _) with (shared_page (page_num p) pv). rewrite P6. cbn [vps w1' set_vps].
  rewrite insert_insert_eq, Hv1.
  split; [|cbn; rewrite lookup_insert_eq; by eexists|intros u Hu; cbn; by rewrite lookup_insert_ne
    |transitivity (rest w2); [done|by rewrite P8]].
  eapply (pages_ok_attach V [] ∅ w1' _ v (shared_page (page_num p) pv) q c); try done.
  - cbn. by rewrite lookup_insert_eq.
  - rewrite Fa. split; [done|]. intros Ha. by destruct Hna.
  - by rewrite Fa, Fsh.
  - by rewrite Fc.
  - by rewrite Fa.
  - intros u Hu. cbn. rewrite !lookup_insert_ne by (by intros <-). by rewrite Hv1.
  - intros u pu Hpu. cbn in Hpu. cbn. rewrite P5. cbn.
    apply (ok_next_vp _ _ _ _ Hok u (if decide (u = v) then pv else pu)). rewrite Hv1.
    destruct (decide (u = v)) as [->|]; [done|]. by rewrite lookup_insert_ne in Hpu.
Qed.

(** Taking, filling and claiming a page, up to its place on the active list *)
Lemma claim_run x w w1 l px v w2 q : lst w page_free_list = x :: l -> pls w !! x = Some px -> x < next_ptr w ->
  pps w1 = alter (fun p => Pp (link p) (Some v)) (page_num px) (pps w) -> pps w !! page_num px = Some q ->
  pls w1 = pls w -> lists w1 = <[page_free_list := l]> (lists w) -> share_table w1 = share_table w ->
  next_ptr w1 = next_ptr w ->
  (_ ← push_page page_active_list x; free_pl x) w1 = Ret tt w2 ->
  pps w2 = <[page_num px := Pp (Some (next_ptr w)) (Some v)]> (pps w)
  /\ (exists p', pls w2 = delete x (<[next_ptr w := p']> (pls w)) /\ page_num p' = page_num px /\ pl_status p' <> 0)
  /\ lists w2 = <[page_active_list := next_ptr w :: lst w page_active_list]> (<[page_free_list := l]> (lists w))
  /\ share_table w2 = share_table w /\ next_ptr w2 = next_ptr w + 1
  /\ vps w2 = vps w1 /\ frames w2 = frames w1 /\ rest w2 = rest w1.
Proof.
  intros Hl Hpx Hxn E1 Hq E2 E3 E4 E5 Hrun.
  apply (push_active_run x _ _ px (Pp (link q) (Some v)) l) in Hrun as (P1 & P2 & P3 & P4 & P5 & P6 & P7 & P8).
  - rewrite P1, E1, E5. cbn. rewrite insert_alter. split; [done|]. rewrite E5, E2 in P2. split; [done|].
    rewrite P3, E3, E5, P4, P5, E5. split; [|done]. unfold lst. rewrite E3. by rewrite lookup_insert_ne.
  - by rewrite E2.
  - by rewrite E1, lookup_alter_eq, Hq.
  - unfold lst. by rewrite E3, lookup_insert_eq.
  - by rewrite E5.
Qed.

Lemma pf_mmap_shared_ok V w v pv m faddr n k w' : pages_ok V [] ∅ w -> v ∉ V -> vps w !! v = Some pv -> plain pv ->
  pf_mmap_shared v m faddr w = Ret (n, k) w' -> 0 <= n -> no_share_lost w' ->
  exists f, made V v pv f k w w' /\ (f = VPF_ANON \/ f = VPF_SHARED).
Proof.
  intros Hok HvV Hpv Hpl Hrun Hn Hsl. unfold pf_mmap_shared in Hrun.
  apply bind_ret_inv in Hrun as ([n1 c] & w1 & H1 & H).
  destruct (Z.ltb_spec n1 0) as [Hn1|Hn1]; [injection H as <- _ _; lia|].
  destruct (cached_for_ok _ _ _ _ _ _ _ _ _ Hok H1 Hn1) as (Hok1 & Hc & Hv1 & Hr1 & Hx1).
  apply bind_ret_inv in H as (p & w2 & H2 & H). apply pl_at_inv in H2 as [-> Hp].
  destruct (is_tail m faddr).
  - exists VPF_ANON. split; [|by left]. apply bind_ret_inv in H as (x & w2 & H2 & H).
    apply get_free_pl_inv in H2 as (l & Hl & ->). apply bind_ret_inv in H as (px & w2 & H2 & H).
    apply pl_at_inv in H2 as [-> Hpx]. cbn in Hpx. unfold copy_page, clear_tail, set_frame, vp_upd, set_owner in H.
    rewrite bind_bind, bind_get, bind_modify, bind_bind, bind_get, bind_modify, bind_modify in H.
    apply bind_ret_inv in H as (q & w2 & H2 & H). apply get_pp_inv in H2 as (-> & _ & Hq). cbn in Hq.
    rewrite bind_modify in H. rewrite <- bind_bind in H. apply bind_ret_inv in H as ([] & w2 & H2 & H).
    apply (claim_run x w1 _ l px v w2 q) in H2 as (P1 & (p' & P2 & P2a & P2b) & P3 & P4 & P5 & P6 & P7 & P8); try done.
    2: by apply (ok_next_pl _ _ _ _ Hok1 _ px).
    apply bind_ret_inv in H as (pv2 & w3 & H3 & H). apply vp_at_inv in H3 as [-> Hpv2].
    apply bind_ret_inv in H as ([] & w3 & [_ ->]%assert_inv & H).
    apply bind_ret_inv in H as ([] & w3 & [_ ->]%assert_inv & H). injection H as <- <- <-.
    apply (alloc_made V v pv w w1 w2 x l px p'); try done; [|by rewrite P8].
    rewrite P6. cbn. by rewrite Hv1, (alter_is_insert _ _ _ pv).
  - exists VPF_SHARED. split; [|by right]. unfold vp_upd in H. rewrite bind_modify in H.
    apply bind_ret_inv in H as (b & w2 & H2 & H). rewrite bind_modify in H. injection H as <- <- <-.
    by apply (share_made V v pv w w1 w2 b c p).
Qed.

Lemma pf_mmap_private_ok V w v pv m faddr rwx n k w' : pages_ok V [] ∅ w -> v ∉ V -> vps w !! v = Some pv -> plain pv ->
  pf_mmap_private v m faddr rwx w = Ret (n, k) w' -> 0 <= n ->
  made V v pv VPF_ANON k w (set_vps (alter (set_page k) v (vps w')) w').
Proof.
  intros Hok HvV Hpv Hpl Hrun Hn. unfold pf_mmap_private in Hrun.
  apply bind_ret_inv in Hrun as ([] & w1 & [_ ->]%assert_inv & H).
  apply bind_ret_inv in H as ([n1 c] & w1 & H1 & H).
  destruct (Z.ltb_spec n1 0) as [Hn1|Hn1]; [injection H as <- _ _; lia|].
  destruct (fetch_cached_page_ok _ _ _ _ _ _ _ _ _ _ Hok HvV H1 Hn1) as (Hok1 & Hc & Hv1 & Hr1 & Hx1).
  apply bind_ret_inv in H as (p & w2 & H2 & H). apply pl_at_inv in H2 as [-> Hp].
  apply bind_ret_inv in H as (x & w2 & H2 & H). apply get_free_pl_inv in H2 as (l & Hl & ->).
  apply bind_ret_inv in H as (px & w2 & H2 & H). apply pl_at_inv in H2 as [-> Hpx]. cbn in Hpx.
  apply bind_ret_inv in H as ([] & w2 & H2 & H).
  assert (quiet (set_lists (<[page_free_list := l]> (lists w1)) w1) w2) as Hquiet.
  { destruct (is_tail m faddr); unfold copy_page, clear_tail, set_frame in H2.
    - rewrite bind_bind, bind_get, bind_modify, bind_get in H2. by injection H2 as <-.
    - rewrite bind_get in H2. by injection H2 as <-. }
  destruct Hquiet as (Q1 & Q2 & Q3 & Q4 & Q5 & Q6 & Q7). cbn in Q1, Q2, Q3, Q4, Q5, Q6.
  apply bind_ret_inv in H as (q & w3 & H3 & H). apply pl2pp_inv in H3 as (-> & px' & Hpx' & Hq).
  rewrite Q2, Hpx in Hpx'. injection Hpx' as <-. rewrite Q1 in Hq.
  unfold set_owner in H. rewrite bind_modify, <- bind_bind in H. apply bind_ret_inv in H as ([] & w3 & H3 & H).
  assert (x < next_ptr w1) as Hxn.
  { destruct (n1 =? 1); [|by apply (ok_next_pl _ _ _ _ Hok1 _ px)].
    pose proof (ok_next_pl _ _ _ _ Hok1 x px) as Hn2. unfold disowned in Hn2. rewrite Hp in Hn2. by apply Hn2. }
  apply (claim_run x w1 _ l px v w3 q) in H3 as (P1 & (p' & P2 & P2a & P2b) & P3 & P4 & P5 & P6 & P7 & P8);
    try done; [|cbn; by rewrite Q1].
  unfold vp_upd in H. rewrite bind_modify in H.
  apply bind_ret_inv in H as (pv2 & w4 & H4 & H). apply vp_at_inv in H4 as [-> Hpv2].
  apply bind_ret_inv in H as ([] & w4 & [_ ->]%assert_inv & H).
  apply bind_ret_inv in H as ([] & w4 & [_ ->]%assert_inv & H).
  assert (vps w3 = vps w) as Hv3 by (rewrite P6; cbn; by rewrite Q3).
  assert (rest w3 = rest w) as Hr3 by (rewrite P8, <- Hr1; exact Q7).
  apply bind_ret_inv in H as ([] & w4 & H4 & H). injection H as <- <- <-.
  set (w3' := set_vps _ w3) in *.
  assert (exists w1', pages_ok V [] ∅ w1' /\ pls w1' = pls w1 /\ vps w1' = vps w1 /\ lists w1' = lists w1
    /\ share_table w1' = share_table w1 /\ next_ptr w1' = next_ptr w1
    /\ pps w4 = <[page_num px := Pp (Some (next_ptr w1)) (Some v)]> (pps w1') /\ quiet (set_pps (pps w4) w3') w4)
    as (w1' & Hok2 & E1 & E2 & E3 & E4 & E5 & E6 & Q).
  { destruct (n1 =? 1) eqn:En; cbn [when_] in H4.
    - apply bind_ret_inv in H4 as (qc & w5 & H5 & H4). apply pl2pp_inv in H5 as (-> & _).
      rewrite bind_modify in H4. apply assert_inv in H4 as [_ ->].
      exists (disowned w1 c). split; [done|]. unfold disowned. rewrite Hp. do 5 (split; [done|]). split; [|done].
      cbn. rewrite P1. apply map_eq. intros i. destruct (decide (i = page_num p)) as [->|].
      + assert (page_num p <> page_num px) as Hne.
        { assert (cached_in (disowned w1 c) c) as Hc' by (unfold disowned; rewrite Hp; exact Hc).
          assert (pls (disowned w1 c) !! c = Some p) as Hp' by (unfold disowned; by rewrite Hp).
          destruct (cached_link _ _ _ _ _ _ Hok1 Hc' Hp') as (qc' & Hqc & Hlc & Hnf & _). intros E.
          assert (x ∈ lst (disowned w1 c) page_free_list) as Hxf.
          { unfold disowned. rewrite Hp. unfold lst in *. cbn. rewrite Hl. set_solver. }
          assert (pls (disowned w1 c) !! x = Some px) as Hpx2 by (unfold disowned; by rewrite Hp).
          destruct (ok_page_of _ _ _ _ _ _ _ Hok1 Hxf Hpx2 (ok_free_live _ _ _ _ _ _ Hok1 Hxf Hpx2)) as (qx & Hqx & Hlx).
          rewrite <- E, Hqc in Hqx. injection Hqx as <-. congruence. }
        by rewrite lookup_alter_eq, !lookup_insert_ne, lookup_alter_eq.
      + rewrite lookup_alter_ne by done. destruct (decide (i = page_num px)) as [->|]; [by rewrite !lookup_insert_eq|].
        by rewrite !lookup_insert_ne, lookup_alter_ne.
    - injection H4 as <-. exists w1. done. }
  destruct Q as (R1 & R2 & R3 & R4 & R5 & R6 & R7). cbn in R2, R3, R4, R5, R6.
  apply (alloc_made V v pv w w1' _ x l px p'); try done; cbn.
  - by rewrite E2.
  - unfold lst. by rewrite E3.
  - by rewrite E1.
  - by rewrite E5, E6.
  - by rewrite R2, P2, E1, E5.
  - rewrite R4, P3, E5, E3. unfold lst. by rewrite E3.
  - by rewrite R5, P4, E4.
  - by rewrite R6, P5, E5.
  - rewrite R3, Hv3, (alter_is_insert (fun v => set_vaddr _ v) _ _ pv) by done.
    rewrite (alter_is_insert _ _ _ (set_vaddr (Z.lor (vaddr pv) VPF_ANON) pv)) by by rewrite lookup_insert_eq.
    by rewrite insert_insert_eq.
  - transitivity (rest w4); [done|]. rewrite R7. exact Hr3.
Qed.

(** *** Copy on write *)

Definition own_flags (v : vp) : vp := set_vaddr (Z.lor (clear_bits (vaddr v) VPF_COW) L4_Writable) v.
Definition copy_flags (n : Z) (v : vp) : vp :=
  set_page n (set_vaddr (Z.lor (clear_bits (vaddr v) (Z.lor VPF_COW VPF_SHARED)) (Z.lor L4_Writable VPF_ANON)) v).
Lemma has_clear_other x m k : 0 <= k < 32 -> Z.testbit m k = false -> has (clear_bits x m) (2 ^ k) = has x (2 ^ k).
Proof. intros Hk Hm. rewrite has_clear by done. by rewrite Hm, andb_true_r. Qed.
Lemma own_flags_facts v : VP_IS_ANON (own_flags v) = VP_IS_ANON v /\ VP_IS_COW (own_flags v) = false
  /\ VP_IS_SHARED (own_flags v) = VP_IS_SHARED v /\ has (vaddr (own_flags v)) L4_Writable = true.
Proof.
  unfold own_flags, VP_IS_ANON, VP_IS_COW, VP_IS_SHARED. cbn [vaddr set_vaddr]. rewrite !has_lor.
  change VPF_ANON with (2 ^ 4). change VPF_COW with (2 ^ 5). change VPF_SHARED with (2 ^ 3).
  change L4_Writable with (2 ^ 1). rewrite (has_clear_other _ (2 ^ 5) 4), (has_clear_other _ (2 ^ 5) 3) by (done || lia).
  rewrite has_clear by lia. cbn. by rewrite !orb_false_r, orb_true_r, andb_false_r.
Qed.
Lemma copy_flags_facts n v : VP_IS_ANON (copy_flags n v) = true /\ VP_IS_COW (copy_flags n v) = false
  /\ has (vaddr (copy_flags n v)) L4_Writable = true /\ VP_IS_SHARED (copy_flags n v) = false.
Proof.
  unfold copy_flags, VP_IS_ANON, VP_IS_COW, VP_IS_SHARED. cbn [vaddr set_vaddr set_page]. rewrite !has_lor.
  assert (has (clear_bits (vaddr v) (Z.lor VPF_COW VPF_SHARED)) VPF_SHARED = false) as ->.
  { change (has (clear_bits (vaddr v) 40) (2 ^ 3) = false). rewrite has_clear by lia. apply andb_false_r. }
  assert (has (clear_bits (vaddr v) (Z.lor VPF_COW VPF_SHARED)) VPF_COW = false) as ->; [|by rewrite !orb_true_r].
  change (has (clear_bits (vaddr v) 40) (2 ^ 5) = false). rewrite has_clear by lia. apply andb_false_r.
Qed.
Lemma own_flags_page v : page_of (vaddr (own_flags v)) = page_of (vaddr v).
Proof. unfold own_flags. cbn. by rewrite page_of_lor, page_of_clear. Qed.
Lemma copy_flags_page n v : page_of (vaddr (copy_flags n v)) = page_of (vaddr v).
Proof. unfold copy_flags. cbn. by rewrite page_of_lor, page_of_clear. Qed.
Lemma make_cow_page v : page_of (vaddr (make_cow v)) = page_of (vaddr v).
Proof. unfold make_cow. cbn. by rewrite page_of_clear, page_of_lor. Qed.
Lemma make_cow_facts v : VP_IS_ANON (make_cow v) = VP_IS_ANON v /\ VP_IS_COW (make_cow v) = true
  /\ VP_IS_SHARED (make_cow v) = VP_IS_SHARED v /\ has (vaddr (make_cow v)) L4_Writable = false
  /\ status (make_cow v) = status v.
Proof.
  unfold make_cow, VP_IS_ANON, VP_IS_COW, VP_IS_SHARED. cbn [vaddr set_vaddr status].
  rewrite clear_W. change VPF_ANON with (2 ^ 4). change VPF_COW with (2 ^ 5). change VPF_SHARED with (2 ^ 3).
  rewrite !clear_W_other, !has_lor by lia. cbn. by rewrite !orb_false_r, orb_true_r.
Qed.

(** The state after the page's share is taken out, or before its owner lets go *)
Lemma detached V E w v p q w' : pages_ok V [] E w -> v ∈ V -> vps w !! v = Some p -> pps w !! status p = Some q ->
  w' = (if decide (owner q = Some v) then set_pps (<[status p := Pp (link q) None]> (pps w)) w
        else set_share_table (htable_del (int_hash (status p)) v (share_table w)) w) ->
  pages_ok (V ∖ {[v]}) [] ({[status p]} ∪ E) w'.
Proof.
  intros Hok HV Hp Hq ->. apply (pages_ok_detach V [] E w _ v p q); try done; by destruct (decide _).
Qed.

(** The sole user of a page may write to it. *)
Lemma cow_alone_ok V w wd w' v p q : pages_ok (V ∖ {[v]}) [] ({[status p]} ∪ ∅) wd -> v ∈ V ->
  pages_ok V [] ∅ w -> vps w !! v = Some p -> VP_IS_COW p = true -> pps w !! status p = Some q ->
  pps wd !! status p = Some (Pp (link q) None) -> (forall u, ~ uses wd (V ∖ {[v]}) u (status p)) ->
  VP_IS_ANON p = true -> vps wd = vps w -> lists wd = lists w ->
  pps w' = <[status p := Pp (link q) (Some v)]> (pps wd) -> pls w' = pls wd -> lists w' = lists wd ->
  share_table w' = share_table wd -> next_ptr w' = next_ptr wd -> vps w' = <[v := own_flags p]> (vps wd) ->
  pages_ok V [] ∅ w'.
Proof.
  intros Hokd HV Hok Hp Hc Hq Hqd Hnu Ha Evps El E1 E2 E3 E4 E5 E6.
  set (wa := set_pps (<[status p := Pp (link q) (Some v)]> (pps wd)) wd).
  destruct (link q) as [x|] eqn:Hx; cycle 1.
  { destruct (ok_page _ _ _ _ Hok _ _ Hq) as (_ & x & _ & _ & Hx' & _). congruence. }
  destruct (ok_link _ _ _ _ _ _ _ Hok Hq Hx) as (px & l & Hpx & Hn & Hs & Hl).
  assert (pages_ok ({[v]} ∪ V ∖ {[v]}) [] ({[status p]} ∪ ∅) wa) as Hoka.
  { apply (pages_ok_attach _ _ _ wd wa v p (Pp (Some x) None) x); try done.
    - set_solver.
    - cbn. by rewrite Evps.
    - unfold lst. rewrite El. intros Hf. apply (ok_free _ _ _ _ Hok x px v Hf Hpx). split; [done|]. exists p. by rewrite Hn.
    - unfold lst. rewrite El. apply (ok_anon _ _ _ _ Hok v p q); done.
    - by apply (ok_shared _ _ _ _ Hok v).
    - intros _. by apply (ok_cow _ _ _ _ Hok v).
    - intros _. split; [done|]. intros u pu Hu. by destruct (Hnu u).
    - intros u pu Hu. by apply (ok_next_vp _ _ _ _ Hokd u pu). }
  assert ({[v]} ∪ V ∖ {[v]} = V) as EV.
  { apply set_eq. intros u. destruct (decide (u = v)) as [->|]; set_solver. }
  rewrite EV in Hoka.
  assert (pages_ok V [] ∅ wa) as Hoka'.
  { apply (pages_ok_settle _ _ _ (status p)); [done|]. left. exists v. split; [done|]. exists p. cbn. by rewrite Evps. }
  destruct (own_flags_facts p) as (Fa & Fc & Fsh & Fw).
  apply (pages_ok_flags V [] ∅ wa w' v p (own_flags p)); try done.
  - cbn. by rewrite Evps.
  - rewrite Fa, Fsh. by apply (ok_shared _ _ _ _ Hok v).
  - by rewrite Fc.
  - intros _ _ u (Hu & pu & Hpu & Hsu). destruct (decide (u = v)) as [|Hne]; [done|].
    exfalso. apply (Hnu u). split; [set_solver|]. by exists pu.
Qed.

(** Any other user gets a copy. *)
Lemma cow_copy_ok V wd w1 w' v p x l px : pages_ok (V ∖ {[v]}) [] ({[status p]} ∪ ∅) wd -> v ∈ V ->
  vps wd !! v = Some p -> lst wd page_free_list = x :: l -> pls wd !! x = Some px ->
  ((exists u, uses wd (V ∖ {[v]}) u (status p)) \/
   forall q x, pps wd !! status p = Some q -> link q = Some x -> x ∉ lst wd page_active_list) ->
  pls w1 = pls wd -> lists w1 = <[page_free_list := l]> (lists wd) -> share_table w1 = share_table wd ->
  next_ptr w1 = next_ptr wd -> vps w1 = <[v := copy_flags (page_num px) p]> (vps wd) ->
  pps w1 = alter (fun p => Pp (link p) (Some v)) (page_num px) (pps wd) ->
  (_ ← push_page page_active_list x; free_pl x) w1 = Ret tt w' ->
  pages_ok V [] ∅ w' /\ vps w' = vps w1 /\ frames w' = frames w1 /\ rest w' = rest w1.
Proof.
  intros Hokd HV Hp Hl Hpx Hset E1 E2 E3 E4 E5 E6 Hrun.
  apply (pages_ok_settle _ _ _ (status p)) in Hokd; [|done].
  assert (x ∈ lst wd page_free_list) as Hxf by (rewrite Hl; set_solver).
  destruct (ok_page_of _ _ _ _ _ _ _ Hokd Hxf Hpx (ok_free_live _ _ _ _ _ _ Hokd Hxf Hpx)) as (q & Hq & _).
  apply (claim_run x wd w1 l px v w' q) in Hrun as (P1 & (p' & P2 & P2a & P2b) & P3 & P4 & P5 & P6 & P7 & P8);
    try done; [|by apply (ok_next_pl _ _ _ _ Hokd x px)].
  assert ({[v]} ∪ V ∖ {[v]} = V) as EV.
  { apply set_eq. intros u. destruct (decide (u = v)) as [->|]; set_solver. }
  split; [|done]. rewrite <- EV. destruct (copy_flags_facts (page_num px) p) as (Fa & Fc & Fw & Fn).
  apply (alloc_ok _ _ _ wd w' x l px p' v (copy_flags (page_num px) p)); try done.
  - set_solver.
  - by rewrite P6, E5, lookup_insert_eq.
  - by rewrite Fc.
  - intros u Hu. rewrite P6, E5, lookup_insert_ne; [done|set_solver].
  - intros u pu Hpu. rewrite P6, E5 in Hpu. rewrite P5.
    assert (exists pu0, vps wd !! u = Some pu0) as [pu0 Hpu0].
    { destruct (decide (u = v)) as [->|]; [by eexists|]. rewrite lookup_insert_ne in Hpu by done. by eexists. }
    pose proof (ok_next_vp _ _ _ _ Hokd _ _ Hpu0). lia.
Qed.

(** What a write fault on a copied page comes to: the page is the faulting space's
    own from then on, with the contents it had. *)
Record cow_result (v : Z) (p : vp) (r : Z * Z) (w w' : vm) : Prop := CowResult {
  cw_rest : rest w' = rest w;
  cw_vps u : u <> v -> vps w' !! u = vps w !! u;
  cw_page : exists p', vps w' !! v = Some p' /\ r = (status p', VP_RIGHTS p')
    /\ ((p' = own_flags p /\ VP_IS_ANON p = true /\ frames w' = frames w)
        \/ exists n, p' = copy_flags n p /\ frames w' = <[n := take (Z.to_nat PAGE_SIZE) (frame w (status p))
               ++ drop (Z.to_nat PAGE_SIZE) (frame w n)]> (frames w)
             /\ exists x px, x ∈ lst w page_free_list /\ pls w !! x = Some px /\ page_num px = n)
}.

(** The state [w1] after the share is taken out; [wd] is the one where an owner has let
    go as well. *)
Record cow_detached (V : gset Z) (v : Z) (p : vp) (q : pp) (w wd w1 : vm) : Prop := CowDetached {
  cd_ok : pages_ok (V ∖ {[v]}) [] ({[status p]} ∪ ∅) wd;
  cd_wd : wd = set_pps (pps wd) w1;
  cd_pps : pps w1 = pps w;
  cd_vps : vps w1 = vps w;
  cd_lists : lists w1 = lists w;
  cd_pls : pls w1 = pls w;
  cd_next : next_ptr w1 = next_ptr w;
  cd_frames : frames w1 = frames w;
  cd_rest : rest w1 = rest w;
  cd_owner : pps wd = if bool_decide (owner q = Some v) then <[status p := Pp (link q) None]> (pps w) else pps w
}.
Lemma cow_detach V w v p q w1 : pages_ok V [] ∅ w -> v ∈ V -> vps w !! v = Some p -> pps w !! status p = Some q ->
  (if bool_decide (owner q = Some v) then mret tt
   else ok ← del_share (int_hash (status p)) v; if (ok : bool) then mret tt else halt StAbort) w = Ret tt w1 ->
  exists wd, cow_detached V v p q w wd w1.
Proof.
  intros Hok HV Hp Hq H1. eexists. split; [apply (detached V ∅ w v p q _ Hok HV Hp Hq eq_refl)| ..];
  (destruct (decide (owner q = Some v)) as [Ho|Ho];
    [rewrite (bool_decide_true _ Ho) in H1 |- * || rewrite (bool_decide_true _ Ho) in H1; by injection H1 as <-
    |rewrite (bool_decide_false _ Ho) in H1 |- * || rewrite (bool_decide_false _ Ho) in H1; unfold del_share in H1;
     rewrite bind_bind, bind_get, bind_bind, bind_modify, bind_mret in H1;
     destruct (bool_decide ((_, v) ∈ _)) in H1; [|done]; by injection H1 as <-]).
Qed.

(** Nobody else uses the page when it is found to be the fault's alone, and otherwise
    either somebody does or it is a page of the page cache. *)
Lemma cow_sole V v p q w wd w1 alone w2 : cow_detached V v p q w wd w1 -> pps w !! status p = Some q ->
  (if (bool_decide (owner q = None) || bool_decide (owner q = Some v)) && VP_IS_ANON p
   then s ← has_shares (int_hash (status p)) (status p) 1; mret (negb s) else mret false) w1 = Ret alone w2 ->
  w2 = w1 /\ (alone = true -> (owner q = None \/ owner q = Some v) /\ VP_IS_ANON p = true
      /\ forall u, ~ uses wd (V ∖ {[v]}) u (status p))
  /\ (alone = false -> (exists u, uses wd (V ∖ {[v]}) u (status p)) \/ VP_IS_ANON p = false).
Proof.
  intros [Hokd Ewd Q1 Q2 Q3 Q4 Q5 Q6 Q7 Q8] Hq H2.
  assert (exists qd, pps wd !! status p = Some qd /\ link qd = link q
    /\ owner qd = if bool_decide (owner q = Some v) then None else owner q) as (qd & Hqd & _ & Hod).
  { rewrite Q8. destruct (decide (owner q = Some v)) as [Ho|Ho].
    - rewrite (bool_decide_true _ Ho), lookup_insert_eq. by eexists.
    - rewrite (bool_decide_false _ Ho). by exists q. }
  destruct ((bool_decide (owner q = None) || bool_decide (owner q = Some v)) && VP_IS_ANON p) eqn:Ed.
  - apply andb_true_iff in Ed as [Ho Ha]. apply bind_ret_inv in H2 as (s & w3 & H3 & H2).
    apply has_shares_inv in H3 as [-> Hs]. injection H2 as <- <-. split; [done|].
    assert (share_table wd = share_table w1 /\ vps wd = vps w1) as [Es Ev] by by rewrite Ewd.
    rewrite <- Es, <- Ev in Hs. destruct (users_shown _ _ _ _ _ _ _ Hokd Hqd Hs) as (Hno & Hyes & _). split.
    + intros Hf. apply orb_true_iff in Ho as [Ho%bool_decide_eq_true|Ho%bool_decide_eq_true];
        (split; [auto|]; split; [done|]; apply Hno; [|by destruct s]).
      * rewrite Hod. case_bool_decide; [done|by rewrite Ho].
      * by rewrite Hod, bool_decide_true.
    + intros Hf. left. apply Hyes. by destruct s.
  - injection H2 as <- <-. split; [done|]. split; [done|]. intros _.
    destruct (VP_IS_ANON p) eqn:Ha; [left|by right]. rewrite andb_true_r in Ed.
    apply orb_false_iff in Ed as [Ho1%bool_decide_eq_false Ho2%bool_decide_eq_false].
    destruct (owner q) as [u|] eqn:Eo; [|done]. exists u.
    apply (ok_owner _ _ _ _ Hokd _ qd); [done|]. rewrite Hod, bool_decide_false; [done|]. congruence.
Qed.

Lemma cow_alone_run V v p q w wd w1 w2 : cow_detached V v p q w wd w1 -> pages_ok V [] ∅ w -> v ∈ V ->
  vps w !! v = Some p -> VP_IS_COW p = true -> pps w !! status p = Some q ->
  (owner q = None \/ owner q = Some v) -> VP_IS_ANON p = true -> (forall u, ~ uses wd (V ∖ {[v]}) u (status p)) ->
  (_ ← when_ (bool_decide (owner q = None)) (set_owner (status p) (Some v));
   _ ← vp_upd v (fun v => set_vaddr (Z.lor (clear_bits (vaddr v) VPF_COW) L4_Writable) v);
   v ← vp_at v; assert_ (negb (VP_IS_SHARED v))) w1 = Ret tt w2 ->
  pages_ok V [] ∅ w2 /\ vps w2 = <[v := own_flags p]> (vps w) /\ frames w2 = frames w /\ rest w2 = rest w.
Proof.
  intros [Hokd Ewd Q1 Q2 Q3 Q4 Q5 Q6 Q7 Q8] Hok HV Hp Hc Hq Ho Ha Hnu H.
  apply bind_ret_inv in H as ([] & w3 & H3 & H).
  assert (w3 = set_pps (<[status p := Pp (link q) (Some v)]> (pps w)) w1) as ->.
  { unfold when_ in H3. case_bool_decide as Hn.
    - unfold set_owner, modify in H3. injection H3 as <-. f_equal. rewrite Q1. by rewrite (alter_is_insert _ _ _ _ Hq).
    - destruct Ho as [?|Ho]; [done|]. injection H3 as <-. rewrite insert_id; [rewrite <- Q1; by destruct w1|].
      rewrite Hq. destruct q as [lq oq]. cbn in *. by rewrite Ho. }
  clear H3. unfold vp_upd in H. rewrite bind_modify in H. apply bind_ret_inv in H as (p3 & w4 & H4 & H).
  apply vp_at_inv in H4 as [-> Hp3]. apply assert_inv in H as [_ ->]. cbn. rewrite Q2.
  rewrite (alter_is_insert _ _ _ _ Hp). split; [|done].
  eapply (cow_alone_ok V w wd _ v p q); try done; try (by rewrite Ewd); try (by rewrite Ewd; cbn).
  - rewrite Q8. case_bool_decide as Hb; [by rewrite lookup_insert_eq|]. rewrite Hq. destruct q as [lq oq]. cbn in *.
    by destruct Ho as [->|?].
  - cbn. rewrite Q8. case_bool_decide; [by rewrite insert_insert_eq|done].
  - rewrite Ewd. cbn. by rewrite Q2.
Qed.

Lemma cow_copy_run V v p q w wd w1 w2 : cow_detached V v p q w wd w1 -> pages_ok V [] ∅ w -> v ∈ V ->
  vps w !! v = Some p -> pps w !! status p = Some q ->
  ((exists u, uses wd (V ∖ {[v]}) u (status p)) \/ VP_IS_ANON p = false) ->
  (_ ← when_ (bool_decide (owner q = Some v)) (set_owner (status p) None);
   newpl ← get_free_pl;
   l ← pl_at newpl;
   _ ← copy_page (page_num l) (status p) PAGE_SIZE;
   _ ← vp_upd v (fun v => set_page (page_num l) (set_vaddr
         (Z.lor (clear_bits (vaddr v) (Z.lor VPF_COW VPF_SHARED)) (Z.lor L4_Writable VPF_ANON)) v));
   _ ← pl2pp newpl;
   _ ← set_owner (page_num l) (Some v);
   _ ← push_page page_active_list newpl;
   free_pl newpl) w1 = Ret tt w2 ->
  pages_ok V [] ∅ w2 /\ rest w2 = rest w /\ exists x px, x ∈ lst w page_free_list /\ pls w !! x = Some px
    /\ vps w2 = <[v := copy_flags (page_num px) p]> (vps w)
    /\ frames w2 = <[page_num px := take (Z.to_nat PAGE_SIZE) (frame w (status p))
         ++ drop (Z.to_nat PAGE_SIZE) (frame w (page_num px))]> (frames w).
Proof.
  intros [Hokd Ewd Q1 Q2 Q3 Q4 Q5 Q6 Q7 Q8] Hok HV Hp Hq Hset H.
  apply bind_ret_inv in H as ([] & w3 & H3 & H).
  assert (w3 = wd) as ->.
  { rewrite Ewd, Q8. unfold when_ in H3. destruct (bool_decide (owner q = Some v)).
    - unfold set_owner, modify in H3. injection H3 as <-. f_equal. by rewrite Q1, (alter_is_insert _ _ _ _ Hq).
    - injection H3 as <-. rewrite <- Q1. by destruct w1. }
  clear H3. assert (lists wd = lists w /\ pls wd = pls w /\ vps wd = vps w /\ frames wd = frames w
    /\ rest wd = rest w /\ forall l, lst wd l = lst w l) as (L1 & L2 & L3 & L4 & L5 & L6).
  { rewrite Ewd. by repeat split; try done; unfold lst; cbn; rewrite Q3. }
  apply bind_ret_inv in H as (x & w4 & H4 & H). apply get_free_pl_inv in H4 as (l & Hl & ->).
  apply bind_ret_inv in H as (px & w4 & H4 & H). apply pl_at_inv in H4 as [-> Hpx]. cbn in Hpx.
  unfold copy_page, set_frame, vp_upd in H.
  rewrite bind_bind, bind_get, bind_modify, bind_modify in H.
  apply bind_ret_inv in H as (q4 & w4 & H4 & H). apply pl2pp_inv in H4 as [-> _].
  unfold set_owner in H. rewrite bind_modify in H.
  eapply (cow_copy_ok V wd _ w2 v p x l px) in H as (Hok2 & Ev & Ef & Er); try done.
  - split; [done|]. split; [rewrite Er, <- L5; done|]. exists x, px. rewrite <- L6, Hl, <- L2.
    split; [by constructor|]. split; [done|]. rewrite Ev, Ef. cbn.
    rewrite L3, (alter_is_insert _ _ _ _ Hp), L4. split; [done|]. unfold frame. cbn. by rewrite L4.
  - by rewrite L3.
  - destruct Hset as [?|Ha]; [by left|]. right. intros qd y Hqd Hy. rewrite L6. intros Hact.
    assert (link q = Some y) as Hyq.
    { rewrite Q8 in Hqd. destruct (bool_decide _).
      - rewrite lookup_insert_eq in Hqd. by injection Hqd as <-.
      - congruence. }
    apply (ok_anon _ _ _ _ Hok v p q y) in Hact; congruence.
  - cbn. by rewrite L3, (alter_is_insert _ _ _ _ Hp).
Qed.

Lemma pf_cow_ok V w v p r w' : pages_ok V [] ∅ w -> v ∈ V -> vps w !! v = Some p -> pf_cow v w = Ret r w' ->
  pages_ok V [] ∅ w' /\ cow_result v p r w w'.
Proof.
  intros Hok HV Hp Hrun. unfold pf_cow in Hrun.
  apply bind_ret_inv in Hrun as (p0 & w1 & H1 & H). apply vp_at_inv in H1 as [-> Hp0].
  rewrite Hp in Hp0. injection Hp0 as <-.
  apply bind_ret_inv in H as ([] & w1 & [Hcow ->]%assert_inv & H).
  apply bind_ret_inv in H as ([] & w1 & [_ ->]%assert_inv & H).
  apply bind_ret_inv in H as (q & w1 & H1 & H). apply get_pp_inv in H1 as (-> & _ & Hq). cbv zeta in H.
  apply bind_ret_inv in H as ([] & w1 & H1 & H).
  destruct (cow_detach _ _ _ _ _ _ Hok HV Hp Hq H1) as [wd Hcd]. clear H1.
  apply bind_ret_inv in H as (alone & w2 & H2 & H).
  destruct (cow_sole _ _ _ _ _ _ _ _ _ Hcd Hq H2) as (-> & Halone & Hnot). clear H2.
  apply bind_ret_inv in H as ([] & w3 & H3 & H).
  apply bind_ret_inv in H as (p3 & w4 & H4 & H). apply vp_at_inv in H4 as [-> Hp3]. injection H as <- <-.
  destruct alone.
  - destruct (Halone eq_refl) as (Ho & Ha & Hnu).
    destruct (cow_alone_run _ _ _ _ _ _ _ _ Hcd Hok HV Hp Hcow Hq Ho Ha Hnu H3) as (Hok3 & Ev & Ef & Er).
    split; [done|]. split; [done|intros u Hu; by rewrite Ev, lookup_insert_ne|].
    rewrite Ev, lookup_insert_eq in Hp3. injection Hp3 as <-. exists (own_flags p).
    rewrite Ev, lookup_insert_eq. split; [done|]. split; [done|]. left. done.
  - destruct (cow_copy_run _ _ _ _ _ _ _ _ Hcd Hok HV Hp Hq (Hnot eq_refl) H3)
      as (Hok3 & Er & x & px & Hx & Hpx & Ev & Ef).
    split; [done|]. split; [done|intros u Hu; by rewrite Ev, lookup_insert_ne|].
    rewrite Ev, lookup_insert_eq in Hp3. injection Hp3 as <-. exists (copy_flags (page_num px) p).
    rewrite Ev, lookup_insert_eq. split; [done|]. split; [done|]. right. exists (page_num px).
    split; [done|]. split; [done|]. by exists x, px.
Qed.
End faults.
