(* ===== verification/VmSpaceProps.v ===== *)
(** Address spaces in vm: which space has which virtual pages, and that every request
    keeps the books of memory and of spaces in agreement. *)
From S2P Require Import Prelude L4 Pages HashUtil Containers Vm VmMaps VmOps VmProps VmPageProps.

(** ** What an operation does, as a relation of the state before and after *)
Definition steps {S A} (R : S -> S -> Prop) (m : M S A) : Prop := forall w r w', m w = Ret r w' -> R w w'.

Section steps.
Context {S : Type} (R : S -> S -> Prop) `{PR : !PreOrder R}.
Lemma steps_bind {A B} (m : M S A) (k : A -> M S B) : steps R m -> (forall a, steps R (k a)) -> steps R (m ≫= k).
Proof. intros Hm Hk w r w' (a & w1 & H1 & H)%bind_ret_inv. etrans; [by eapply Hm|by eapply Hk]. Qed.
Lemma steps_ret {A} (a : A) : steps R (mret a).
Proof. intros w r w' [_ ->]%mret_inv. done. Qed.
Lemma steps_halt {A} r : steps R (halt r : M S A). Proof. by intros w r' w' H. Qed.
Lemma steps_gets {A} (f : S -> A) : steps R (gets f). Proof. by intros w r w' [= _ <-]. Qed.
Lemma steps_get : steps R get. Proof. by intros w r w' [= _ <-]. Qed.
Lemma steps_assert b : steps R (assert_ b). Proof. by intros w r w' [_ ->]%assert_inv. Qed.
Lemma steps_of_option {A} r (o : option A) : steps R (of_option r o).
Proof. intros w a w' H. destruct o; [by injection H as _ <-|done]. Qed.
Lemma steps_modify f : (forall w, R w (f w)) -> steps R (modify f).
Proof. intros Hf w r w' [= _ <-]. apply Hf. Qed.
Lemma steps_when b m : steps R m -> steps R (when_ b m). Proof. intros Hm. destruct b; [done|apply steps_ret]. Qed.
Lemma steps_mapM {A} (f : A -> M S unit) l : (forall x, steps R (f x)) -> steps R (mapM_ f l).
Proof.
  intros Hf. induction l as [|x l IH]; [apply steps_ret|]. intros w r w' (a & w1 & H1 & H)%bind_ret_inv.
  etrans; [by eapply Hf|by eapply IH].
Qed.
End steps.
Lemma steps_mono {S A} (R R' : S -> S -> Prop) (m : M S A) : (forall w w', R w w' -> R' w w') -> steps R m -> steps R' m.
Proof. intros HR Hm w r w' H. by eapply HR, Hm. Qed.

Section spaces.
Context `{LA : !L4Abi, VE : !VmEnv, RB : !RbOps}.
#[local] Opaque bob96bitmix hash_cached_page hash_lazy_mmap bucket_of fsid_ino_of int_hash.

Definition tab (w : vm) (pid : Z) : htable := pages (space_of w pid).
Definition page_addr (w : vm) (v : Z) : option Z := (fun p => page_of (vaddr p)) <$> vps w !! v.
(** The addresses that have pages in a space *)
Definition addrs (w : vm) (pid : Z) : list (option Z) := page_addr w <$> (tab w pid).*2.

(** ** The invariant: the virtual pages [V] are those of the spaces' tables *)
Record space_ok (V : gset Z) (w : vm) : Prop := SpaceOk {
  so_in pid h v : (h, v) ∈ tab w pid -> v ∈ V /\ exists a, page_addr w v = Some a /\ h = int_hash a;
  so_back v : v ∈ V -> exists pid h, (h, v) ∈ tab w pid;
  so_one pid pid' h h' v : (h, v) ∈ tab w pid -> (h', v) ∈ tab w pid' -> pid = pid';
  so_addr pid : NoDup (addrs w pid);
  so_free pid : pid ∉ ra_used (spaces w) ->
    kip_area (space_of w pid) = 0 /\ utcb_area (space_of w pid) = 0 /\ tab w pid = []
}.

(** Books in agreement, but for links [D] out of service that are to be taken off the
    active list *)
Definition vm_inv (D : list Z) (w : vm) : Prop := exists V, pages_ok V D ∅ w /\ space_ok V w.
Definition vm_ok : vm -> Prop := vm_inv [].

Definition same_space (w w' : vm) : Prop :=
  ra_used (spaces w') = ra_used (spaces w) /\ forall pid, tab w' pid = tab w pid
    /\ kip_area (space_of w' pid) = kip_area (space_of w pid)
    /\ utcb_area (space_of w' pid) = utcb_area (space_of w pid).

Lemma space_ok_same V w w' : space_ok V w -> (forall v, v ∈ V -> page_addr w' v = page_addr w v) ->
  same_space w w' -> space_ok V w'.
Proof.
  intros [A1 A2 A3 A4 A5] Ha [Hu Hs].
  assert (forall pid, tab w' pid = tab w pid) as Ht by (intros pid; apply Hs).
  split; try setoid_rewrite Ht; try done.
  - intros pid h v Hin. destruct (A1 _ _ _ Hin) as (HV & a & Ea & Eh). split; [done|]. exists a. by rewrite Ha.
  - intros pid. unfold addrs. rewrite Ht. rewrite (list_fmap_ext _ (page_addr w)); [apply A4|].
    intros i v Hv. apply Ha. apply list_elem_of_lookup_2, list_elem_of_fmap in Hv as ([h v'] & -> & Hin).
    by apply (A1 _ _ _ Hin).
  - intros pid Hpid. rewrite Hu in Hpid. destruct (Hs pid) as (_ & -> & ->). by apply A5.
Qed.

(** ** Operations that leave pages and spaces alone *)
Record still (w w' : vm) : Prop := Still {
  st_pps : pps w' = pps w; st_pls : pls w' = pls w; st_vps : vps w' = vps w;
  st_frames : frames w' = frames w; st_lists : lists w' = lists w; st_share : share_table w' = share_table w;
  st_next : next_ptr w <= next_ptr w';
  st_space : same_space w w'
}.
#[local] Notation calm := (steps still).

Lemma still_refl w : still w w.
Proof. by split; try done; lia. Qed.
Lemma still_trans w1 w2 w3 : still w1 w2 -> still w2 w3 -> still w1 w3.
Proof.
  intros [A1 A2 A3 A0 A4 A5 A6 [A7 A8]] [B1 B2 B3 B0 B4 B5 B6 [B7 B8]]. split; try congruence; [lia|].
  split; [congruence|]. intros pid. destruct (A8 pid) as (? & ? & ?), (B8 pid) as (? & ? & ?). by repeat split; congruence.
Qed.
#[export] Instance still_preorder : PreOrder still.
Proof. split; [exact still_refl|exact still_trans]. Qed.
Lemma pages_ok_still V D E w w' : pages_ok V D E w -> still w w' -> pages_ok V D E w'.
Proof.
  intros Hok [B1 B2 B3 _ B4 B5 B6 B7]. apply (pages_ok_same V D E w); try done; intros v; rewrite B3; [done|].
  intros p Hp. pose proof (ok_next_vp _ _ _ _ Hok v p Hp). lia.
Qed.
Lemma space_ok_still V w w' : space_ok V w -> still w w' -> space_ok V w'.
Proof. intros Hok [_ _ B3 _ _ _ _ B7]. apply (space_ok_same V w); [done| |done]. intros v _. unfold page_addr. by rewrite B3. Qed.
Lemma vm_inv_still D w w' : vm_inv D w -> still w w' -> vm_inv D w'.
Proof. intros (V & H1 & H2) Hs. exists V. split; [by apply (pages_ok_still V D ∅ w)|by apply (space_ok_still V w)]. Qed.
Lemma space_of_store w sp s pid :
  space_of (set_spaces (ra_store sp s (spaces w)) w) pid = if decide (pid = sp) then s else space_of w pid.
Proof.
  unfold space_of, ra_slot, ra_store. cbn. destruct (decide (pid = sp)) as [->|]; [by rewrite lookup_insert_eq|].
  by rewrite lookup_insert_ne.
Qed.

Lemma calm_ask c : calm (vm_ask c).
Proof. intros w r w' [= _ <-]. by split. Qed.
Lemma calm_space sp f : (forall s, pages (f s) = pages s /\ kip_area (f s) = kip_area s /\ utcb_area (f s) = utcb_area s) ->
  calm (space_upd sp f).
Proof.
  intros Hf. apply steps_modify. intros w. split; try done. split; [done|]. intros pid.
  unfold tab. rewrite space_of_store. destruct (decide (pid = sp)) as [->|]; [|done]. apply Hf.
Qed.
End spaces.
Notation calm := (steps still).

Create HintDb calm discriminated.
#[export] Hint Resolve calm_ask : calm.
(** Follows the code of an operation, by what its parts are known to do. *)
Ltac walk_step base := lazymatch goal with
  | |- forall _, _ => intro
  | |- steps _ (_ ≫= _) => apply steps_bind; [apply _| |]
  | |- steps _ (match ?x with _ => _ end) => destruct x
  | |- steps _ (mret _) => apply steps_ret; apply _
  | |- steps _ (halt _) => apply steps_halt
  | |- steps _ (gets _) => apply steps_gets; apply _
  | |- steps _ get => apply steps_get; apply _
  | |- steps _ (assert_ _) => apply steps_assert; apply _
  | |- steps _ (of_option _ _) => apply steps_of_option; apply _
  | |- steps _ (when_ _ _) => apply steps_when; [apply _|]
  | |- steps _ (mapM_ _ _) => apply steps_mapM; [apply _|]
  | |- steps _ _ => solve [base]
  end.
Ltac walk base := repeat walk_step base.
Ltac calm := walk ltac:(first
  [ solve [eauto with calm nocore]
  | apply calm_space; by intros []
  | apply steps_modify; intros; by split ]).

Section mapping.
Context `{LA : !L4Abi, VE : !VmEnv, RB : !RbOps}.

Lemma calm_malloc : calm malloc.
Proof.
  intros w o w' H. apply malloc_inv in H.
  destruct H as [[_ ->]|[_ ->]]; by split; try done; cbn; lia.
Qed.
Lemma calm_pl_at x : calm (pl_at x). Proof. unfold pl_at. calm. Qed.
Lemma calm_vp_at x : calm (vp_at x). Proof. unfold vp_at. calm. Qed.
Lemma calm_mm_at x : calm (mm_at x). Proof. unfold mm_at. calm. Qed.
Lemma calm_mm_upd x f : calm (mm_upd x f). Proof. unfold mm_upd. calm. Qed.
Lemma calm_space_at x : calm (space_at x). Proof. unfold space_at. calm. Qed.
Lemma calm_get_pp x : calm (get_pp x). Proof. unfold get_pp. calm. Qed.
Lemma calm_sender_pid : calm sender_pid. Proof. unfold sender_pid. calm. Qed.
Lemma calm_no_reply : calm muidl_raise_no_reply. Proof. unfold muidl_raise_no_reply. calm. Qed.
Lemma calm_htable_add tab h v t : calm (htable_add tab h v t). Proof. unfold htable_add. calm. Qed.
Lemma calm_free_mm m : calm (free_mm m). Proof. unfold free_mm. calm. Qed.
Lemma calm_anon_table f : calm (modify (fun w => set_anon_mmap_table (f w) w)). Proof. calm. Qed.
#[local] Hint Resolve calm_malloc calm_pl_at calm_vp_at calm_mm_at calm_mm_upd calm_space_at calm_get_pp
  calm_sender_pid calm_no_reply calm_htable_add calm_free_mm calm_anon_table : calm.
Lemma calm_insert sp m : calm (insert_lazy_mmap sp m). Proof. unfold insert_lazy_mmap. calm. Qed.
Lemma calm_find sp a : calm (find_lazy_mmap sp a). Proof. unfold find_lazy_mmap. calm. Qed.
Lemma calm_first sp a n : calm (first_lazy_mmap sp a n). Proof. unfold first_lazy_mmap. calm. Qed.
Lemma calm_flush fps : calm (flush_fpages fps). Proof. unfold flush_fpages. calm. Qed.
Lemma calm_push_fpage fps n r : calm (push_fpage fps n r). Proof. unfold push_fpage. calm. Qed.
End mapping.
#[export] Hint Resolve calm_malloc calm_pl_at calm_vp_at calm_mm_at calm_mm_upd calm_space_at calm_get_pp
  calm_sender_pid calm_no_reply calm_htable_add calm_free_mm calm_anon_table calm_insert calm_find calm_first
  calm_flush calm_push_fpage : calm.

Section moves.
Context `{LA : !L4Abi, VE : !VmEnv, RB : !RbOps}.
#[local] Opaque bob96bitmix hash_cached_page hash_lazy_mmap bucket_of fsid_ino_of int_hash.

Lemma foldM_inv {A B} (I : B -> vm -> Prop) (f : A -> B -> M vm B) l :
  (forall x b w b' w', x ∈ l -> I b w -> f x b w = Ret b' w' -> I b' w') ->
  forall b w b' w', I b w -> foldM f l b w = Ret b' w' -> I b' w'.
Proof.
  induction l as [|x l IH]; intros Hf b w b' w' Hb H.
  - by injection H as <- <-.
  - cbn in H. apply bind_ret_inv in H as (b1 & w1 & H1 & H). apply (IH ltac:(set_solver) b1 w1); [|done].
    apply (Hf x b w); [set_solver|done|done].
Qed.

Lemma addr_inj V w pid h u h' v : space_ok V w -> (h, u) ∈ tab w pid -> (h', v) ∈ tab w pid ->
  page_addr w u = page_addr w v -> (h, u) = (h', v).
Proof.
  intros Hok [i Hi]%list_elem_of_lookup [j Hj]%list_elem_of_lookup Ha.
  pose proof (so_addr _ _ Hok pid) as Hn. unfold addrs in Hn.
  assert (i = j) as ->; [|congruence]. apply (NoDup_lookup _ _ _ (page_addr w u) Hn).
  - by rewrite !list_lookup_fmap, Hi.
  - by rewrite !list_lookup_fmap, Hj, Ha.
Qed.
Lemma tab_nodup V w pid : space_ok V w -> NoDup (tab w pid).
Proof. intros Hok. apply (NoDup_fmap_1 snd), (NoDup_fmap_1 (page_addr w)), (so_addr _ _ Hok pid). Qed.
Lemma addrs_elem w pid a : a ∈ addrs w pid <-> exists h v, (h, v) ∈ tab w pid /\ page_addr w v = a.
Proof.
  unfold addrs. rewrite list_elem_of_fmap. split.
  - intros (v & -> & Hv). apply list_elem_of_fmap in Hv as ([h v'] & -> & Hin). by exists h, v'.
  - intros (h & v & Hin & <-). exists v. split; [done|]. apply list_elem_of_fmap. by exists (h, v).
Qed.

Lemma find_vp_none V w pid a : space_ok V w -> find_vp w (tab w pid) a = None -> Some a ∉ addrs w pid.
Proof.
  intros Hok H. unfold find_vp in H. destruct (find _ _) eqn:Ef; [done|]. intros (h & v & Hin & Ha)%addrs_elem.
  destruct (so_in _ _ Hok _ _ _ Hin) as (_ & a' & Ha' & ->). rewrite Ha in Ha'. injection Ha' as <-.
  apply list_elem_of_In in Hin. pose proof (find_none _ _ Ef _ Hin) as Hf.
  unfold is_vp_at in Hf. cbn in Hf. rewrite Z.eqb_refl in Hf. unfold page_addr in Ha.
  destruct (vps w !! v) as [p|]; [|done]. injection Ha as Ha. by rewrite Ha, Z.eqb_refl in Hf.
Qed.
Lemma find_vp_some w pid a v : find_vp w (tab w pid) a = Some v ->
  (int_hash a, v) ∈ tab w pid /\ page_addr w v = Some a.
Proof.
  unfold find_vp. destruct (find _ _) as [[h v']|] eqn:Ef; [|done]. intros [= ->].
  apply find_some in Ef as [Hin Hf]. apply list_elem_of_In in Hin. unfold is_vp_at in Hf. cbn in Hf.
  apply andb_true_iff in Hf as [->%Z.eqb_eq Hf]. split; [done|]. unfold page_addr.
  destruct (vps w !! v) as [p|]; [|done]. apply Z.eqb_eq in Hf. by rewrite <- Hf.
Qed.

(** ** What a space has at an address *)
Definition page_in (w : vm) (l : htable) (a : Z) : option vp := find_vp w l a ≫= (fun v => vps w !! v).
Definition page_at (w : vm) (pid a : Z) : option vp := page_in w (tab w pid) a.

Lemma page_in_cons w h v p l a : vps w !! v = Some p -> h = int_hash (page_of (vaddr p)) ->
  page_in w ((h, v) :: l) a = if decide (page_of (vaddr p) = a) then Some p else page_in w l a.
Proof.
  intros Hp ->. unfold page_in, find_vp. cbn [find]. unfold is_vp_at at 1. cbn [fst snd]. rewrite Hp.
  destruct (decide (page_of (vaddr p) = a)) as [<-|Hne].
  - rewrite !Z.eqb_refl. cbn. done.
  - apply Z.eqb_neq in Hne. by rewrite Hne, andb_false_r.
Qed.
Lemma page_in_same w w' l a : (forall h v, (h, v) ∈ l -> vps w' !! v = vps w !! v) -> page_in w' l a = page_in w l a.
Proof.
  intros Hv. unfold page_in, find_vp. induction l as [|[h v] l IH]; [done|]. cbn [find]. unfold is_vp_at at 1 3.
  cbn [fst snd]. rewrite (Hv h v) by set_solver. destruct (_ && _); [cbn; apply (Hv h); set_solver|].
  apply IH. intros h' v' Hin. apply (Hv h'). set_solver.
Qed.
Lemma page_at_iff V w pid a p : space_ok V w -> page_at w pid a = Some p <->
  exists v, (int_hash a, v) ∈ tab w pid /\ vps w !! v = Some p /\ page_of (vaddr p) = a.
Proof.
  intros Hok. unfold page_at, page_in. split.
  - intros (v & Hf & Hp)%bind_Some. apply find_vp_some in Hf as [Hin Ha]. exists v. unfold page_addr in Ha.
    rewrite Hp in Ha. injection Ha as Ha. done.
  - intros (v & Hin & Hp & Ha). assert (page_addr w v = Some a) as Hpa by (unfold page_addr; rewrite Hp; by rewrite <- Ha).
    destruct (find_vp w (tab w pid) a) as [u|] eqn:Ef.
    + apply find_vp_some in Ef as [Hin' Ha']. assert ((int_hash a, u) = (int_hash a, v)) as [= ->]; [|done].
      apply (addr_inj V w pid); [done..|congruence].
    + destruct (find_vp_none V w pid a Hok Ef). apply addrs_elem. by exists (int_hash a), v.
Qed.
Lemma page_at_none w pid a : Some a ∉ addrs w pid -> page_at w pid a = None.
Proof.
  intros Hn. unfold page_at, page_in. destruct (find_vp w (tab w pid) a) as [v|] eqn:Ef; [|done].
  apply find_vp_some in Ef as [Hin Ha]. destruct Hn. apply addrs_elem. by exists (int_hash a), v.
Qed.
Lemma page_at_addr w pid a p : page_at w pid a = Some p -> page_of (vaddr p) = a.
Proof.
  unfold page_at, page_in. intros (v & Hf & Hp)%bind_Some. apply find_vp_some in Hf as [_ Ha]. unfold page_addr in Ha.
  rewrite Hp in Ha. by injection Ha.
Qed.

(** A virtual page leaves its table. *)
Lemma space_ok_pop V w w' sp h v : space_ok V w -> (h, v) ∈ tab w sp -> vps w' = vps w ->
  ra_used (spaces w') = ra_used (spaces w) ->
  (forall pid, tab w' pid = if decide (pid = sp) then htable_del h v (tab w sp) else tab w pid) ->
  (forall pid, kip_area (space_of w' pid) = kip_area (space_of w pid)
     /\ utcb_area (space_of w' pid) = utcb_area (space_of w pid)) ->
  space_ok (V ∖ {[v]}) w' /\ page_addr w v ∉ addrs w' sp.
Proof.
  intros Hok Hin Hv Hu Ht Hs.
  assert (forall u, page_addr w' u = page_addr w u) as Ha by (intros u; unfold page_addr; by rewrite Hv).
  assert (forall pid e, e ∈ tab w' pid <-> e ∈ tab w pid /\ e <> (h, v)) as Hel.
  { intros pid [h' u]. rewrite Ht. destruct (decide (pid = sp)) as [->|Hne].
    - apply htable_del_elem, (tab_nodup _ _ _ Hok).
    - split; [|tauto]. intros Hin'. split; [done|]. intros [= -> ->]. apply Hne. by apply (so_one _ _ Hok _ _ h h v). }
  pose proof Hok as [A1 A2 A3 A4 A5]. split; [split|].
  - intros pid h' u [Hin' Hne]%Hel. destruct (A1 _ _ _ Hin') as (HV & a & Ea & Eh). rewrite Ha. split; [|by exists a].
    apply elem_of_difference. split; [done|]. intros ->%elem_of_singleton. apply Hne.
    rewrite (A3 _ _ _ _ _ Hin' Hin) in Hin'. by apply (addr_inj V w sp).
  - intros u [HV Hne]%elem_of_difference. destruct (A2 u HV) as (pid & h' & Hin'). exists pid, h'.
    apply Hel. split; [done|]. set_solver.
  - intros pid pid' h1 h2 u [H1 _]%Hel [H2 _]%Hel. by apply (A3 _ _ h1 h2 u).
  - intros pid. unfold addrs. rewrite (list_fmap_ext _ (page_addr w)) by (intros i u _; apply Ha). rewrite Ht.
    destruct (decide (pid = sp)) as [->|]; [|apply A4]. eapply sublist_NoDup; [apply (A4 sp)|].
    unfold addrs. do 2 apply fmap_sublist. unfold htable_del.
    destruct (list_find _ _) as [[i e]|]; [apply sublist_delete|done].
  - intros pid Hpid. rewrite Hu in Hpid. destruct (A5 pid Hpid) as (? & ? & Hn), (Hs pid) as (-> & ->).
    split; [done|]. split; [done|]. rewrite Ht. destruct (decide (pid = sp)) as [->|]; [|done].
    rewrite Hn in Hin. by apply elem_of_nil in Hin.
  - intros (h' & u & [Hin' Hne]%Hel & Hau)%addrs_elem. apply Hne. rewrite Ha in Hau. by apply (addr_inj V w sp).
Qed.

(** The pages at the addresses [A] of a space are gone, and nothing else. *)
Record removed (sp : Z) (A : list Z) (w w' : vm) : Prop := Removed {
  rv_tab pid h v : (h, v) ∈ tab w' pid
    <-> (h, v) ∈ tab w pid /\ ~ (pid = sp /\ exists a, a ∈ A /\ page_addr w v = Some a);
  rv_vps pid h v : (h, v) ∈ tab w' pid -> vps w' !! v = vps w !! v;
  rv_frames : frames w' = frames w;
  rv_none v : vps w !! v = None -> vps w' !! v = None;
  rv_used : ra_used (spaces w') = ra_used (spaces w)
}.
Lemma removed_refl sp w : removed sp [] w w.
Proof. split; try done. intros pid h v. split; [|tauto]. intros Hin. split; [done|]. intros (_ & a & Ha & _). by apply elem_of_nil in Ha. Qed.
Lemma removed_trans sp A B w1 w2 w3 : removed sp A w1 w2 -> removed sp B w2 w3 -> removed sp (A ++ B) w1 w3.
Proof.
  intros [A1 A2 A3 A4 A5] [B1 B2 B3 B4 B5]. split; [| |congruence|by intros v ?%A4%B4|congruence].
  - intros pid h v. rewrite B1, A1. setoid_rewrite elem_of_app. split.
    + intros [[Hin HA] HB]. split; [done|]. intros (-> & a & [Ha|Ha] & Hp); [apply HA; eauto|].
      apply HB. split; [done|]. exists a. split; [done|]. unfold page_addr. rewrite (A2 sp h v); [done|]. by apply A1.
    + intros [Hin Hn]. assert ((h, v) ∈ tab w2 pid) as Hin2.
      { apply A1. split; [done|]. intros (-> & a & Ha & Hp). apply Hn. eauto. }
      split; [split; [done|]|]; intros (-> & a & Ha & Hp); apply Hn; split; try done; exists a; (split; [auto|]); [done|].
      unfold page_addr in *. by rewrite <- (A2 sp h v).
  - intros pid h v Hin. rewrite (B2 pid h v Hin). apply (A2 pid h v). by apply B1 in Hin as [? _].
Qed.

Lemma removed_page_at V V' sp A w w' pid a : space_ok V w -> space_ok V' w' -> removed sp A w w' ->
  page_at w' pid a = if decide (pid = sp /\ a ∈ A) then None else page_at w pid a.
Proof.
  intros Hok Hok' [R1 R2 _ _ _]. destruct (decide (pid = sp /\ a ∈ A)) as [[-> Ha]|Hn].
  - apply page_at_none. intros (h & v & Hin & Hv)%addrs_elem. apply R1 in Hin as H1. destruct H1 as [_ Hna].
    apply Hna. split; [done|]. exists a. split; [done|]. unfold page_addr in *. by rewrite <- (R2 sp h v).
  - apply option_eq. intros p. rewrite (page_at_iff V' w' pid a p Hok'), (page_at_iff V w pid a p Hok). split.
    + intros (v & Hin & Hp & Ea). exists v. rewrite <- (R2 pid (int_hash a) v) by done. by apply R1 in Hin as [? _].
    + intros (v & Hin & Hp & Ea). assert ((int_hash a, v) ∈ tab w' pid) as Hin'.
      { apply R1. split; [done|]. intros (-> & b & Hb & Hpb). apply Hn. split; [done|]. unfold page_addr in Hpb.
        rewrite Hp in Hpb. injection Hpb as E. by rewrite <- Ea, E. }
      exists v. by rewrite (R2 pid (int_hash a) v).
Qed.

Lemma pop_page_ok V w sp a r w' : space_ok V w -> pop_page sp a w = Ret r w' ->
  removed sp [a] w w' /\
  match r with
  | None => w' = w
  | Some v => v ∈ V /\ space_ok (V ∖ {[v]}) w' /\ page_addr w v = Some a
              /\ exists s, w' = set_spaces (ra_store sp s (spaces w)) w
  end.
Proof.
  intros Hok. unfold pop_page. rewrite bind_get. fold (tab w sp).
  destruct (find_vp w (tab w sp) a) as [v|] eqn:Ef.
  - unfold space_upd. rewrite bind_modify. intros [= <- <-]. apply find_vp_some in Ef as [Hin Ha].
    destruct (so_in _ _ Hok _ _ _ Hin) as (HV & _).
    set (w' := set_spaces _ w).
    assert (forall pid, tab w' pid = if decide (pid = sp) then htable_del (int_hash a) v (tab w sp) else tab w pid) as Ht.
    { intros pid. unfold w', tab. rewrite space_of_store. by destruct (decide (pid = sp)) as [->|]. }
    destruct (space_ok_pop V w w' sp (int_hash a) v Hok Hin) as [H1 H2]; try done.
    { intros pid; unfold w', tab; rewrite space_of_store; by destruct (decide (pid = sp)) as [->|]. }
    split; [split; try done|split; [done|]; split; [exact H1|]; split; [done|]; by eexists].
    + intros pid h u. rewrite Ht. destruct (decide (pid = sp)) as [->|Hne]; [|split; [|tauto]; intros ?; split; [done|by intros [? _]]].
      rewrite htable_del_elem by apply (tab_nodup _ _ _ Hok). split; intros [Hin' Hn]; (split; [done|]).
      * intros (_ & a' & ->%list_elem_of_singleton & Ha'). apply Hn. apply (addr_inj V w sp); [done..|congruence].
      * intros [= -> ->]. apply Hn. split; [done|]. exists a. split; [by apply list_elem_of_singleton|done].
  - intros [= <- <-]. split; [|done]. split; try done. intros pid h v. split; [|tauto]. intros Hin. split; [done|].
    intros (-> & a' & ->%list_elem_of_singleton & Ha). apply (find_vp_none V w sp a Hok Ef).
    apply addrs_elem. by exists h, v.
Qed.

Lemma rest_spaces w w' : rest w' = rest w -> mms w' = mms w /\ spaces w' = spaces w.
Proof. unfold rest. intros H. by injection H as -> -> _ _ _ _. Qed.
Lemma same_tabs w w' : spaces w' = spaces w -> same_space w w' /\ (forall pid, space_of w' pid = space_of w pid).
Proof. intros E. unfold same_space, tab, space_of. by rewrite E. Qed.

(** A virtual page that is in no table any more is freed. *)
Lemma drop_popped V sp v w2 w1 : space_ok (V ∖ {[v]}) w2 -> vps w1 = delete v (vps w2) -> frames w1 = frames w2 ->
  rest w1 = rest w2 -> space_ok (V ∖ {[v]}) w1 /\ removed sp [] w2 w1.
Proof.
  intros Hs2 Hv1 Hf1 Hr1. destruct (rest_spaces _ _ Hr1) as [Hm1 Hsp1]. destruct (same_tabs _ _ Hsp1) as [Hss Hsame].
  assert (space_ok (V ∖ {[v]}) w1) as Hs1.
  { apply (space_ok_same _ w2); [done| |done]. intros u Hu. unfold page_addr. rewrite Hv1, lookup_delete_ne; [done|set_solver]. }
  split; [done|]. split; try done.
  - intros pid h u. unfold tab. rewrite Hsame. split; [|tauto]. intros ?. split; [done|].
    intros (_ & a' & Ha' & _). by apply elem_of_nil in Ha'.
  - intros pid h u Hin. rewrite Hv1, lookup_delete_ne; [done|]. intros ->.
    destruct (so_in _ _ Hs1 _ _ _ Hin) as [Hin' _]. set_solver.
  - intros u Hu. rewrite Hv1. destruct (decide (u = v)) as [->|]; [apply lookup_delete_eq|by rewrite lookup_delete_ne].
  - by rewrite Hsp1.
Qed.

Lemma remove_positions sp l : forall V st w st' w', pages_ok V st.2 ∅ w -> space_ok V w ->
  foldM (fun pos st => v ← pop_page sp pos; match v with None => mret st | Some v => drop_vp v st end) l st w = Ret st' w' ->
  removed sp l w w' /\ exists V', pages_ok V' st'.2 ∅ w' /\ space_ok V' w'.
Proof.
  induction l as [|a l IH]; intros V st w st' w' Hp Hs H.
  { injection H as <- <-. split; [apply removed_refl|]. by exists V. }
  cbn [foldM] in H. apply bind_ret_inv in H as (st1 & w1 & H1 & H).
  apply bind_ret_inv in H1 as (v & w2 & H2 & H1). destruct (pop_page_ok _ _ _ _ _ _ Hs H2) as [Hrv Hv].
  destruct v as [v|].
  - destruct Hv as (HV & Hs2 & _ & s & ->). set (w2 := set_spaces _ w) in *.
    assert (pages_ok V st.2 ∅ w2) as Hp2 by (apply (pages_ok_same V st.2 ∅ w); try done; apply (ok_next_vp _ _ _ _ Hp)).
    destruct (drop_vp_ok _ _ _ _ _ _ _ Hp2 HV H1) as (Hp1 & Hv1 & Hf1 & Hr1).
    destruct (drop_popped V sp v w2 w1 Hs2 Hv1 Hf1 Hr1) as [Hs1 Hrv1].
    destruct (IH _ _ _ _ _ Hp1 Hs1 H) as [Hrv' HV']. split; [|done].
    apply (removed_trans sp [a] l w w1 w'); [|done]. by apply (removed_trans sp [a] [] w w2 w1).
  - subst w2. injection H1 as <- <-. destruct (IH _ _ _ _ _ Hp Hs H) as [Hrv' HV']. split; [|done].
    by apply (removed_trans sp [a] l w w w').
Qed.

(** Operations after which the virtual pages are the same *)
Definition kept (w w' : vm) : Prop := vps w' = vps w /\ frames w' = frames w /\ same_space w w'.
Lemma kept_refl w : kept w w. Proof. by split_and!. Qed.
Lemma vm_kept_trans w1 w2 w3 : kept w1 w2 -> kept w2 w3 -> kept w1 w3.
Proof.
  intros (A1 & A2 & A3 & A4) (B1 & B2 & B3 & B4). split_and!; [congruence..|].
  split; [congruence|]. intros pid. destruct (A4 pid) as (? & ? & ?), (B4 pid) as (? & ? & ?). by repeat split; congruence.
Qed.
Lemma kept_still w w' : still w w' -> kept w w'. Proof. by intros []. Qed.
Lemma kept_rest w w' : vps w' = vps w -> frames w' = frames w -> rest w' = rest w -> kept w w'.
Proof. intros ? ? Hr. split_and!; [done..|]. apply same_tabs, (rest_spaces _ _ Hr). Qed.
Lemma space_ok_kept V w w' : space_ok V w -> kept w w' -> space_ok V w'.
Proof. intros Hok (Hv & _ & Hs). apply (space_ok_same V w); [done| |done]. intros v _. unfold page_addr. by rewrite Hv. Qed.
Lemma removed_kept sp A w w1 w2 : removed sp A w w1 -> kept w1 w2 -> removed sp A w w2.
Proof.
  intros [A1 A2 A3 A4 A5] (Hv & Hf & Hu & Hs). assert (forall pid, tab w2 pid = tab w1 pid) as Ht by (intros; apply Hs).
  split; [| |congruence|intros v; rewrite Hv; apply A4|congruence]; intros pid h v; rewrite Ht; [apply A1|rewrite Hv; apply A2].
Qed.

Lemma remove_vp_range_ok sp a size w w' : vm_ok w -> remove_vp_range sp a size w = Ret tt w' ->
  vm_ok w' /\ removed sp (page_range a size) w w'.
Proof.
  intros (V & Hp & Hs) H. unfold remove_vp_range in H. apply bind_ret_inv in H as ([fps D] & w1 & H1 & H).
  destruct (remove_positions _ _ V ([], []) w _ _ Hp Hs H1) as (Hrv & V' & Hp1 & Hs1). cbn in Hp1.
  apply bind_ret_inv in H as ([] & w2 & H2 & H). apply flush_fpages_inv in H2.
  destruct (pages_ok_call _ _ _ _ _ Hp1 H2) as (Hp2 & Hv2 & Hf2 & Hr2).
  destruct (pages_ok_flush _ _ _ _ _ Hp2 H) as (Hp3 & x & y & ->).
  assert (kept w1 (set_pls x (set_lists y w2))) as Hk by by apply kept_rest.
  split; [|by apply (removed_kept _ _ _ w1)]. exists V'. split; [done|]. by apply (space_ok_kept V' w1).
Qed.

(** ** Taking mappings out *)

(** A page of shared anonymous memory that no mapping covers any more is freed. *)
Lemma cut_page_ok mm hash first D page w D' w' : vm_inv D w -> cut_page mm hash first page D w = Ret D' w' ->
  vm_inv D' w' /\ kept w w'.
Proof.
  intros (V & Hp & Hs) H. unfold cut_page in H.
  apply bind_ret_inv in H as (m & w1 & H1 & H). apply mm_at_inv in H1 as [-> Hm].
  apply bind_ret_inv in H as ([top c] & w1 & H1 & H).
  assert (vm_inv D w /\ kept w w) as Hsame by (split; [by exists V|apply kept_refl]).
  destruct c as [c|]; [|apply find_cached_page_inv in H1 as [-> _]; by injection H as <- <-].
  destruct (find_cached_in _ _ _ _ _ _ _ _ _ Hp H1) as (-> & p & l & Hpc & Hlive & Hin & Hnf & Hna).
  rewrite bind_get in H. destruct (existsb _ _); [by injection H as <- <-|].
  apply bind_ret_inv in H as (p' & w1 & H2 & H). apply pl_at_inv in H2 as [-> Hp']. rewrite Hpc in Hp'. injection Hp' as <-.
  apply bind_ret_inv in H as (s & w1 & H2 & H). apply has_shares_inv in H2 as [-> Hsh].
  apply bind_ret_inv in H as ([] & w1 & [Hns%negb_true_iff ->]%assert_inv & H).
  apply bind_ret_inv in H as (q & w1 & H2 & H). apply pl2pp_inv in H2 as (-> & p' & Hp' & Hq).
  rewrite Hpc in Hp'. injection Hp' as <-.
  apply bind_ret_inv in H as ([] & w1 & [Ho%bool_decide_eq_true ->]%assert_inv & H).
  rewrite Hns in Hsh. destruct (users_shown _ _ _ _ _ _ _ Hp Hq Hsh) as (Hno & _ & _).
  destruct (ok_page_of _ _ _ _ _ _ _ Hp Hin Hpc Hlive) as (q' & Hq' & Hx). rewrite Hq in Hq'. injection Hq' as <-.
  destruct (free_page_ok V D ∅ w w w' D' c (page_num p) q) as (Hok & Hv & Hf & Hr); try done.
  - by apply pages_ok_more.
  - intros Hcf. apply Hnf. by apply (ok_one_list _ _ _ _ Hp _ _ c).
  - by apply Hno.
  - intros q' Hq'. congruence.
  - assert (kept w w') as Hk by by apply kept_rest. split; [|done]. exists V. split; [done|]. by apply (space_ok_kept V w).
Qed.
End moves.

Section mapping_ops.
Context `{LA : !L4Abi, VE : !VmEnv, RB : !RbOps}.
#[local] Opaque bob96bitmix hash_cached_page hash_lazy_mmap bucket_of fsid_ino_of int_hash.

(** Physical pages may be freed, while all virtual pages stay. *)
Definition tidied (w w' : vm) : Prop := vm_ok w -> vm_ok w' /\ kept w w'.
#[export] Instance tidied_preorder : PreOrder tidied.
Proof.
  split; [intros w Hw; split; [done|apply kept_refl]|]. intros w1 w2 w3 H1 H2 Hw.
  destruct (H1 Hw) as [Hw2 Hk]. destruct (H2 Hw2) as [? Hk']. split; [done|by apply (vm_kept_trans _ w2)].
Qed.
Lemma still_tidied w w' : still w w' -> tidied w w'.
Proof. intros Hs Hw. split; [by apply (vm_inv_still [] w)|by apply kept_still]. Qed.
(** No virtual page is made. *)
Definition shrinks (w w' : vm) : Prop := vm_ok w -> vm_ok w' /\ forall v, vps w !! v = None -> vps w' !! v = None.
#[export] Instance shrinks_preorder : PreOrder shrinks.
Proof.
  split; [by intros w Hw|]. intros w1 w2 w3 H1 H2 Hw. destruct (H1 Hw) as [Hw2 Hn]. destruct (H2 Hw2) as [? Hn'].
  split; [done|]. intros v Hv. by apply Hn', Hn.
Qed.
Lemma tidied_shrinks w w' : tidied w w' -> shrinks w w'.
Proof. intros Ht Hw. destruct (Ht Hw) as (? & Hv & _). split; [done|]. by rewrite Hv. Qed.
Lemma still_shrinks w w' : still w w' -> shrinks w w'. Proof. intros Ht. by apply tidied_shrinks, still_tidied. Qed.
Definition sound (w w' : vm) : Prop := vm_ok w -> vm_ok w'.
#[export] Instance sound_preorder : PreOrder sound.
Proof. split; [by intros w Hw|]. intros w1 w2 w3 H1 H2 Hw. by apply H2, H1. Qed.
Lemma shrinks_sound w w' : shrinks w w' -> sound w w'. Proof. intros Ht Hw. by apply Ht. Qed.
Lemma still_sound w w' : still w w' -> sound w w'. Proof. intros Ht. by apply shrinks_sound, still_shrinks. Qed.

Lemma remove_active_pls_ok D w w' : vm_inv D w -> remove_active_pls D w = Ret tt w' -> vm_ok w' /\ kept w w'.
Proof.
  intros (V & Hp & Hs) H. destruct (pages_ok_flush _ _ _ _ _ Hp H) as (Hp3 & x & y & ->).
  assert (kept w (set_pls x (set_lists y w))) as Hk by by apply kept_rest.
  split; [|done]. exists V. split; [done|]. by apply (space_ok_kept V w).
Qed.

Lemma cut_anon_mmap_tidy mm hash first last : steps tidied (cut_anon_mmap mm hash first last).
Proof.
  intros w [] w' H Hw. unfold cut_anon_mmap in H. apply bind_ret_inv in H as (m & w1 & H1 & H).
  apply mm_at_inv in H1 as [-> _]. apply bind_ret_inv in H as ([] & w1 & [_ ->]%assert_inv & H).
  apply bind_ret_inv in H as ([] & w1 & [_ ->]%assert_inv & H). cbv zeta in H.
  apply bind_ret_inv in H as (D & w1 & H1 & H).
  assert (vm_inv D w1 /\ kept w w1) as [Hok Hk].
  { refine (foldM_inv (fun D w1 => vm_inv D w1 /\ kept w w1) _ _ _ _ _ _ _ _ H1); [|split; [done|apply kept_refl]].
    intros page D2 w2 D3 w3 _ [Hok Hk] H2. destruct (cut_page_ok _ _ _ _ _ _ _ _ Hok H2) as [? ?].
    split; [done|by apply (vm_kept_trans _ w2)]. }
  destruct (remove_active_pls_ok _ _ _ Hok H) as [? ?]. split; [done|by apply (vm_kept_trans _ w1)].
Qed.

(** [walk] for operations that keep all virtual pages *)
Ltac tidy := walk ltac:(first
  [ apply cut_anon_mmap_tidy
  | apply (steps_mono still tidied); [exact still_tidied|solve [calm]] ]).

Lemma unmap_one_tidy sp a size cur : steps tidied (unmap_one sp a size cur).
Proof. unfold unmap_one. tidy. Qed.
Lemma unmap_from_tidy sp a size l : steps tidied (unmap_from sp a size l).
Proof.
  induction l as [|cur l IH]; [apply steps_ret; apply _|]. cbn [unmap_from].
  walk ltac:(first [exact IH | apply unmap_one_tidy
    | apply (steps_mono still tidied); [exact still_tidied|solve [calm]]]).
Qed.

(** Unmapping takes away the pages in the range. *)
Lemma munmap_space_ok sp a size w w' : vm_ok w -> munmap_space sp a size w = Ret tt w' ->
  vm_ok w' /\ removed sp (page_range a size) w w'.
Proof.
  intros Hw H. unfold munmap_space in H.
  apply bind_ret_inv in H as ([] & w1 & [_ ->]%assert_inv & H).
  apply bind_ret_inv in H as ([] & w1 & [_ ->]%assert_inv & H).
  apply bind_ret_inv in H as ([] & w1 & H1 & H). destruct (remove_vp_range_ok _ _ _ _ _ Hw H1) as [Hw1 Hrv].
  assert (tidied w1 w') as Ht.
  { match type of H with ?m _ = _ => cut (steps tidied m); [intros Ht; exact (Ht _ _ _ H)|] end. walk ltac:(first [apply unmap_from_tidy
    | apply (steps_mono still tidied); [exact still_tidied|solve [calm]]]). }
  destruct (Ht Hw1) as [Hw2 Hk]. split; [done|]. by apply (removed_kept _ _ _ w1).
Qed.
(** Pages go at some of the addresses [A] of [sp], and no others. *)
Definition clears (sp : Z) (A : list Z) (w w' : vm) : Prop :=
  vm_ok w -> vm_ok w' /\ exists B, (forall a, a ∈ B -> a ∈ A) /\ removed sp B w w'.
#[export] Instance clears_preorder sp A : PreOrder (clears sp A).
Proof.
  split.
  - intros w Hw. split; [done|]. exists []. split; [by intros a ?%elem_of_nil|apply removed_refl].
  - intros w1 w2 w3 H1 H2 Hw. destruct (H1 Hw) as (Hw2 & B & HB & Hr). destruct (H2 Hw2) as (Hw3 & B' & HB' & Hr').
    split; [done|]. exists (B ++ B'). split; [intros a [?|?]%elem_of_app; auto|by apply (removed_trans sp B B' w1 w2)].
Qed.
Lemma still_clears sp A w w' : still w w' -> clears sp A w w'.
Proof.
  intros Hs Hw. split; [by apply (vm_inv_still [] w)|]. exists []. split; [by intros a ?%elem_of_nil|].
  apply (removed_kept _ _ _ w); [apply removed_refl|by apply kept_still].
Qed.
Lemma munmap_space_clears sp a size : steps (clears sp (page_range a size)) (munmap_space sp a size).
Proof.
  intros w [] w' H Hw. destruct (munmap_space_ok sp a size w w' Hw H) as [? Hr]. split; [done|].
  exists (page_range a size). done.
Qed.
Lemma clears_shrinks sp A w w' : clears sp A w w' -> shrinks w w'.
Proof. intros Hc Hw. destruct (Hc Hw) as (? & B & _ & []). done. Qed.

Lemma munmap_space_shrinks sp a size : steps shrinks (munmap_space sp a size).
Proof. apply (steps_mono _ _ _ (clears_shrinks sp (page_range a size))), munmap_space_clears. Qed.
Lemma remove_vp_range_shrinks sp a size : steps shrinks (remove_vp_range sp a size).
Proof. intros w [] w' H Hw. destruct (remove_vp_range_ok sp a size w w' Hw H) as [? []]. done. Qed.

Lemma calm_get_as_free sp n : calm (get_as_free sp n). Proof. unfold get_as_free. calm. Qed.
#[local] Hint Resolve calm_get_as_free : calm.
(** [walk] for requests about mappings *)
Ltac shrinks base := walk ltac:(first
  [ base | apply munmap_space_shrinks | apply remove_vp_range_shrinks
  | apply (steps_mono still shrinks); [exact still_shrinks|solve [calm]] ]).
(** A mapping takes away only the pages at its fixed place. *)
Lemma reserve_mmap_clears mm sp a len fixed : steps (clears sp (page_range a len)) (reserve_mmap mm sp a len fixed).
Proof.
  unfold reserve_mmap. apply steps_bind; [apply _|apply steps_assert; apply _|]. intros _.
  apply steps_bind; [apply _|apply steps_assert; apply _|]. intros _.
  apply steps_bind; [apply _|apply steps_gets; apply _|]. intros s. cbv zeta.
  destruct (no_go s a len) eqn:Eb, fixed; cbn [andb];
    walk ltac:(first [apply munmap_space_clears | apply (steps_mono still); [apply still_clears|solve [calm]]]).
Qed.
Lemma reserve_mmap_shrinks mm sp a len fixed : steps shrinks (reserve_mmap mm sp a len fixed).
Proof. apply (steps_mono _ _ _ (clears_shrinks sp (page_range a len))), reserve_mmap_clears. Qed.
Lemma vm_mmap_shrinks t a n p f s d o : steps shrinks (vm_mmap t a n p f s d o).
Proof. unfold vm_mmap. shrinks ltac:(apply reserve_mmap_shrinks). Qed.
Lemma vm_munmap_shrinks a n : steps shrinks (vm_munmap a n).
Proof. unfold vm_munmap. shrinks fail. Qed.
Lemma brk_fresh_shrinks sp old a : steps shrinks (brk_fresh sp old a).
Proof. unfold brk_fresh. shrinks ltac:(apply reserve_mmap_shrinks). Qed.
Lemma vm_brk_shrinks a : steps shrinks (vm_brk a).
Proof. unfold vm_brk, brk_extend, brk_shrink. shrinks ltac:(apply brk_fresh_shrinks). Qed.
End mapping_ops.
