(* ===== verification/VmTraceProps.v ===== *)
(** The calls that vm has made so far: every operation adds to them and forgets none, so
    that a share that was lost on the way is one that the later state has lost. *)
From S2P Require Import Prelude L4 Pages HashUtil Containers Vm VmMaps VmOps VmProps VmPageProps VmSpaceProps.

Definition grown (w w' : vm) : Prop := suffix (vm_trace w) (vm_trace w').
#[export] Instance grown_preorder : PreOrder grown.
Proof. split; [intros w; unfold grown; done|]. intros w1 w2 w3. unfold grown. by etrans. Qed.

Section grown.
Context `{LA : !L4Abi, VE : !VmEnv, RB : !RbOps}.
#[local] Opaque bob96bitmix hash_cached_page hash_lazy_mmap bucket_of fsid_ino_of int_hash.

Lemma share_lost_app tr tr' : share_lost tr = true -> share_lost (tr' ++ tr) = true.
Proof. intros H. induction tr' as [|c tr' IH]; [done|]. cbn. by rewrite IH, orb_true_r. Qed.
Lemma grown_shares w w' : grown w w' -> no_share_lost w' -> no_share_lost w.
Proof.
  intros [tr E] H. unfold no_share_lost in *. rewrite E in H. destruct (share_lost (vm_trace w)) eqn:El; [|done].
  by rewrite share_lost_app in H.
Qed.

Lemma grown_ask c : steps grown (vm_ask c).
Proof. intros w r w' [= _ <-]. by exists [c]. Qed.
Lemma grown_mapM_vp_at l : steps grown (mapM vp_at l).
Proof. intros w r w' H. apply mapM_vp_at in H as [-> _]. by exists []. Qed.
Lemma grown_foldM {A B} (f : A -> B -> M vm B) l b : (forall x b, steps grown (f x b)) -> steps grown (foldM f l b).
Proof.
  intros Hf. revert b. induction l as [|x l IH]; intros b; [apply steps_ret; apply _|]. cbn.
  apply steps_bind; [apply _|apply Hf|intros; apply IH].
Qed.
End grown.

Create HintDb grown discriminated.
#[export] Hint Resolve grown_ask grown_mapM_vp_at : grown.
Ltac grown := walk ltac:(first
  [ solve [eauto with grown nocore] | apply steps_modify; intros; by exists [] | apply grown_foldM; grown ]).

Section kept.
Context `{LA : !L4Abi, VE : !VmEnv, RB : !RbOps}.
#[local] Opaque bob96bitmix hash_cached_page hash_lazy_mmap bucket_of fsid_ino_of int_hash.

Lemma grown_malloc : steps grown malloc. Proof. unfold malloc. grown. Qed.
Lemma grown_vp_at x : steps grown (vp_at x). Proof. unfold vp_at. grown. Qed.
Lemma grown_pl_at x : steps grown (pl_at x). Proof. unfold pl_at. grown. Qed.
Lemma grown_mm_at x : steps grown (mm_at x). Proof. unfold mm_at. grown. Qed.
Lemma grown_get_pp x : steps grown (get_pp x). Proof. unfold get_pp. grown. Qed.
Lemma grown_space_upd sp f : steps grown (space_upd sp f). Proof. unfold space_upd. grown. Qed.
Lemma grown_space_at sp : steps grown (space_at sp). Proof. unfold space_at. grown. Qed.
Lemma grown_mm_upd x f : steps grown (mm_upd x f). Proof. unfold mm_upd. grown. Qed.
Lemma grown_vp_upd v f : steps grown (vp_upd v f). Proof. unfold vp_upd. grown. Qed.
Lemma grown_set_link n x : steps grown (set_link n x). Proof. unfold set_link. grown. Qed.
Lemma grown_set_owner n x : steps grown (set_owner n x). Proof. unfold set_owner. grown. Qed.
Lemma grown_push_list l x : steps grown (push_list l x). Proof. unfold push_list. grown. Qed.
Lemma grown_free_pl x : steps grown (free_pl x). Proof. unfold free_pl. grown. Qed.
Lemma grown_free_mm x : steps grown (free_mm x). Proof. unfold free_mm. grown. Qed.
Lemma grown_set_frame n l : steps grown (set_frame n l). Proof. unfold set_frame. grown. Qed.
Lemma grown_no_reply : steps grown muidl_raise_no_reply. Proof. unfold muidl_raise_no_reply. grown. Qed.
Lemma grown_sender_pid : steps grown sender_pid. Proof. unfold sender_pid. grown. Qed.
#[local] Hint Resolve grown_malloc grown_vp_at grown_pl_at grown_mm_at grown_get_pp grown_space_upd grown_space_at
  grown_mm_upd grown_vp_upd grown_set_link grown_set_owner grown_push_list grown_free_pl grown_free_mm
  grown_set_frame grown_no_reply grown_sender_pid : grown.
Lemma grown_copy_page n c k : steps grown (copy_page n c k). Proof. unfold copy_page. grown. Qed.
Lemma grown_clear_tail n k : steps grown (clear_tail n k). Proof. unfold clear_tail. grown. Qed.
Lemma grown_pl2pp x : steps grown (pl2pp x). Proof. unfold pl2pp. grown. Qed.
Lemma grown_hash_phys v : steps grown (hash_vp_by_phys v). Proof. unfold hash_vp_by_phys. grown. Qed.
Lemma grown_htable_add tab h v t : steps grown (htable_add tab h v t). Proof. unfold htable_add. grown. Qed.
Lemma grown_has_shares h n c : steps grown (has_shares h n c). Proof. unfold has_shares. grown. Qed.
Lemma grown_get_free_pl : steps grown get_free_pl. Proof. unfold get_free_pl. grown. Qed.
Lemma grown_del_share h v : steps grown (del_share h v). Proof. unfold del_share. grown. Qed.
Lemma grown_push_fpage fps n r : steps grown (push_fpage fps n r). Proof. unfold push_fpage. grown. Qed.
Lemma grown_flush fps : steps grown (flush_fpages fps). Proof. unfold flush_fpages. grown. Qed.
Lemma grown_pop_page sp a : steps grown (pop_page sp a). Proof. unfold pop_page. grown. Qed.
Lemma grown_find_cached m b : steps grown (find_cached_page m b). Proof. unfold find_cached_page. grown. Qed.
Lemma grown_set_key x f o : steps grown (set_key x f o). Proof. unfold set_key. grown. Qed.
Lemma grown_insert sp m : steps grown (insert_lazy_mmap sp m). Proof. unfold insert_lazy_mmap. grown. Qed.
#[local] Hint Resolve grown_copy_page grown_clear_tail grown_pl2pp grown_hash_phys grown_htable_add grown_has_shares
  grown_get_free_pl grown_del_share grown_push_fpage grown_flush grown_pop_page grown_find_cached grown_set_key grown_insert : grown.
Lemma grown_remove_active D : steps grown (remove_active_pls D). Proof. unfold remove_active_pls. grown. Qed.
Lemma grown_push_page l x : steps grown (push_page l x). Proof. unfold push_page. grown. Qed.
Lemma grown_add_share n v : steps grown (add_share n v). Proof. unfold add_share. grown. Qed.
Lemma grown_rm_share v : steps grown (rm_share v). Proof. unfold rm_share. grown. Qed.
Lemma grown_find sp a : steps grown (find_lazy_mmap sp a). Proof. unfold find_lazy_mmap. grown. Qed.
Lemma grown_first sp a n : steps grown (first_lazy_mmap sp a n). Proof. unfold first_lazy_mmap. grown. Qed.
Lemma grown_push_cached t x : steps grown (push_cached_page t x). Proof. unfold push_cached_page. grown. Qed.
#[local] Hint Resolve grown_remove_active grown_push_page grown_add_share grown_rm_share grown_find grown_first grown_push_cached : grown.
Lemma grown_free_page x D : steps grown (free_page x D). Proof. unfold free_page. grown. Qed.
#[local] Hint Resolve grown_free_page : grown.
Lemma grown_remove_vp v D : steps grown (remove_vp v D). Proof. unfold remove_vp. grown. Qed.
#[local] Hint Resolve grown_remove_vp : grown.
Lemma grown_drop_vp v st : steps grown (drop_vp v st). Proof. unfold drop_vp. grown. Qed.
#[local] Hint Resolve grown_drop_vp : grown.
Lemma grown_remove_vp_range sp a n : steps grown (remove_vp_range sp a n). Proof. unfold remove_vp_range. grown. Qed.
Lemma grown_cut_page mm h f p D : steps grown (cut_page mm h f p D). Proof. unfold cut_page. grown. Qed.
#[local] Hint Resolve grown_remove_vp_range grown_cut_page : grown.
Lemma grown_cut_anon mm h f l : steps grown (cut_anon_mmap mm h f l). Proof. unfold cut_anon_mmap. grown. Qed.
#[local] Hint Resolve grown_cut_anon : grown.
Lemma grown_unmap_one sp a n cur : steps grown (unmap_one sp a n cur). Proof. unfold unmap_one. grown. Qed.
#[local] Hint Resolve grown_unmap_one : grown.
Lemma grown_unmap_from sp a n l : steps grown (unmap_from sp a n l). Proof. induction l; cbn [unmap_from]; grown. Qed.
#[local] Hint Resolve grown_unmap_from : grown.
Lemma grown_munmap sp a n : steps grown (munmap_space sp a n). Proof. unfold munmap_space. grown. Qed.
Lemma grown_get_as_free sp n : steps grown (get_as_free sp n). Proof. unfold get_as_free. grown. Qed.
#[local] Hint Resolve grown_munmap grown_get_as_free : grown.
Lemma grown_reserve mm sp a n f : steps grown (reserve_mmap mm sp a n f). Proof. unfold reserve_mmap. grown. Qed.
#[local] Hint Resolve grown_reserve : grown.

(** *** Requests *)

Lemma grown_mmap t a n p f s d o : steps grown (vm_mmap t a n p f s d o). Proof. unfold vm_mmap. grown. Qed.
Lemma grown_brk_fresh sp old a : steps grown (brk_fresh sp old a). Proof. unfold brk_fresh. grown. Qed.
#[local] Hint Resolve grown_brk_fresh : grown.
Lemma grown_brk a : steps grown (vm_brk a). Proof. unfold vm_brk, brk_extend, brk_shrink. grown. Qed.
Lemma grown_vm_munmap a n : steps grown (vm_munmap a n). Proof. unfold vm_munmap. grown. Qed.
Lemma grown_erase_map sp m : steps grown (erase_map sp m). Proof. unfold erase_map. grown. Qed.
#[local] Hint Resolve grown_erase_map : grown.
Lemma grown_erase t : steps grown (vm_erase t). Proof. unfold vm_erase. grown. Qed.
Lemma grown_configure p u k : steps grown (vm_configure p u k). Proof. unfold vm_configure. grown. Qed.
Lemma grown_fork_maps l d : steps grown (fork_maps l d). Proof. induction l; cbn [fork_maps]; grown. Qed.
Lemma grown_fork_cow d v c : steps grown (fork_cow d v c). Proof. unfold fork_cow. grown. Qed.
#[local] Hint Resolve grown_fork_maps grown_fork_cow : grown.
Lemma grown_fork_pages_from l : forall d c fps n, steps grown (fork_pages_from l d c fps n).
Proof. induction l as [|[h v] l IH]; intros; cbn [fork_pages_from]; grown. Qed.
#[local] Hint Resolve grown_fork_pages_from : grown.
Lemma grown_fork s d : steps grown (vm_fork s d). Proof. unfold vm_fork, fork_pages, alloc_space. grown. Qed.
Lemma grown_read_at m n off : steps grown (read_at m n off). Proof. unfold read_at. grown. Qed.
#[local] Hint Resolve grown_read_at : grown.
Lemma grown_fill_page m x off b : steps grown (fill_page m x off b). Proof. unfold fill_page. grown. Qed.
#[local] Hint Resolve grown_fill_page : grown.
Lemma grown_upload t a data p f : steps grown (vm_upload_page t a data p f). Proof. unfold vm_upload_page. grown. Qed.
Lemma grown_cached_for m a : steps grown (cached_for m a). Proof. unfold cached_for. grown. Qed.
Lemma grown_fetch_cached m b v : steps grown (fetch_cached_page m b v). Proof. unfold fetch_cached_page. grown. Qed.
#[local] Hint Resolve grown_cached_for grown_fetch_cached : grown.
Lemma grown_pf_shared v m a : steps grown (pf_mmap_shared v m a). Proof. unfold pf_mmap_shared. grown. Qed.
Lemma grown_pf_private v m a rwx : steps grown (pf_mmap_private v m a rwx). Proof. unfold pf_mmap_private. grown. Qed.
#[local] Hint Resolve grown_pf_shared grown_pf_private : grown.
Lemma grown_pf_fill v m a rwx : steps grown (pf_fill v m a rwx). Proof. unfold pf_fill. grown. Qed.
#[local] Hint Resolve grown_pf_fill : grown.
Lemma grown_pf_new sp a rwx rights m : steps grown (pf_new sp a rwx rights m). Proof. unfold pf_new. grown. Qed.
Lemma grown_pf_cow v : steps grown (pf_cow v). Proof. unfold pf_cow. grown. Qed.
#[local] Hint Resolve grown_pf_new grown_pf_cow : grown.
Lemma grown_vm_pf a : steps grown (vm_pf a). Proof. unfold vm_pf. grown. Qed.

Lemma grown_serve r : steps grown (vm_serve r).
Proof.
  destruct r; cbn [vm_serve]; repeat (apply steps_bind; [apply _| |intros _; apply steps_ret; apply _]).
  - apply grown_mmap.
  - apply grown_vm_munmap.
  - apply grown_fork.
  - apply grown_configure.
  - apply grown_upload.
  - unfold vm_breath_of_life. grown.
  - apply grown_brk.
  - apply grown_erase.
  - apply grown_vm_pf.
  - unfold vm_iopf. grown.
Qed.
Lemma grown_turn s l r : steps grown (vm_turn s l r).
Proof. unfold vm_turn. apply steps_bind; [apply _|apply steps_modify; intros; by exists []|intros _; apply grown_serve]. Qed.
Lemma grown_step w w' : vm_step w w' -> grown w w'.
Proof. intros (s & l & r & H). by apply (grown_turn s l r _ _ _ H). Qed.
End kept.
#[export] Hint Resolve grown_malloc grown_vp_at grown_pl_at grown_mm_at grown_get_pp grown_space_upd
  grown_space_at grown_mm_upd grown_vp_upd grown_set_link grown_set_owner grown_push_list grown_free_pl
  grown_free_mm grown_set_frame grown_no_reply grown_sender_pid grown_copy_page grown_clear_tail grown_pl2pp
  grown_hash_phys grown_htable_add grown_has_shares grown_get_free_pl grown_del_share grown_push_fpage
  grown_flush grown_pop_page grown_find_cached grown_set_key grown_insert grown_remove_active
  grown_push_page grown_add_share grown_rm_share grown_find grown_first grown_push_cached grown_free_page
  grown_remove_vp grown_drop_vp grown_remove_vp_range grown_cut_page grown_cut_anon grown_unmap_one
  grown_unmap_from grown_munmap grown_get_as_free grown_reserve grown_mmap grown_brk_fresh grown_brk
  grown_vm_munmap grown_erase_map grown_erase grown_configure grown_fork_maps grown_fork_cow
  grown_fork_pages_from grown_fork grown_read_at grown_fill_page grown_upload grown_cached_for
  grown_fetch_cached grown_pf_shared grown_pf_private grown_pf_fill grown_pf_new grown_pf_cow grown_vm_pf
  grown_serve grown_turn : grown.

(** No share was lost before [H] if none is in the end. *)
Ltac grown_back H := eapply grown_shares; [match type of H with ?m _ = _ =>
  let Hg := fresh in assert (steps grown m) as Hg by grown; exact (Hg _ _ _ H) end|].
