(* ===== verification/VmForkProps.v ===== *)
(** Life cycle of address spaces in vm: fork, configuration and erasure. *)
From S2P Require Import Prelude L4 Pages HashUtil Containers Vm VmMaps VmOps VmProps VmPageProps VmSpaceProps VmTraceProps.

Section life.
Context `{LA : !L4Abi, VE : !VmEnv, RB : !RbOps}.
#[local] Opaque bob96bitmix hash_cached_page hash_lazy_mmap bucket_of fsid_ino_of int_hash.

(** ** Books of address spaces *)

Lemma space_ok_books V w w' : space_ok V w -> (forall v, v ∈ V -> page_addr w' v = page_addr w v) ->
  (forall pid, tab w' pid = tab w pid) ->
  (forall pid, pid ∉ ra_used (spaces w') ->
     kip_area (space_of w' pid) = 0 /\ utcb_area (space_of w' pid) = 0 /\ tab w' pid = []) ->
  space_ok V w'.
Proof.
  intros [A1 A2 A3 A4 A5] Ha Ht Hf. split; try setoid_rewrite Ht; try done.
  - intros pid h v Hin. destruct (A1 _ _ _ Hin) as (HV & a & Ea & Eh). split; [done|]. exists a. by rewrite Ha.
  - intros pid. unfold addrs. rewrite Ht. rewrite (list_fmap_ext _ (page_addr w)); [apply A4|].
    intros i v Hv. apply Ha. apply list_elem_of_lookup_2, list_elem_of_fmap in Hv as ([h v'] & -> & Hin).
    by apply (A1 _ _ _ Hin).
  - intros pid Hpid. rewrite <- Ht. by apply Hf.
Qed.

(** What is done to a space in use, but for its pages *)
Lemma space_store V sp s w : pages_ok V [] ∅ w -> space_ok V w -> sp ∈ ra_used (spaces w) -> pages s = tab w sp ->
  let w' := set_spaces (ra_store sp s (spaces w)) w in
  pages_ok V [] ∅ w' /\ space_ok V w' /\ forall pid, tab w' pid = tab w pid.
Proof.
  intros Hp Hs Hu Hf w'. assert (forall pid, tab w' pid = tab w pid) as Ht.
  { intros pid. unfold w', tab. rewrite space_of_store. by destruct (decide (pid = sp)) as [->|]. }
  split; [by apply (pages_ok_same V [] ∅ w); try done; apply (ok_next_vp _ _ _ _ Hp)|]. split; [|done].
  apply (space_ok_books V w); [done|done|exact Ht|]. intros pid Hpid. rewrite Ht. unfold w'. rewrite space_of_store.
  destruct (decide (pid = sp)) as [->|]; [done|]. by apply (so_free _ _ Hs).
Qed.
Lemma space_upd_ok sp f w : vm_ok w -> sp ∈ ra_used (spaces w) -> pages (f (space_of w sp)) = tab w sp ->
  vm_ok (set_spaces (ra_store sp (f (space_of w sp)) (spaces w)) w).
Proof. intros (V & Hp & Hs) Hu Hf. exists V. by destruct (space_store V sp _ w Hp Hs Hu Hf) as (? & ? & _). Qed.
Lemma used_if V w pid : space_ok V w -> kip_area (space_of w pid) <> 0 \/ utcb_area (space_of w pid) <> 0 ->
  pid ∈ ra_used (spaces w).
Proof.
  intros Hs Hk. destruct (decide (pid ∈ ra_used (spaces w))); [done|].
  destruct (so_free _ _ Hs pid) as (? & ? & _); [done|]. by destruct Hk.
Qed.
Lemma used_of w pid : vm_ok w -> kip_area (space_of w pid) <> 0 \/ utcb_area (space_of w pid) <> 0 ->
  pid ∈ ra_used (spaces w).
Proof. intros (V & _ & Hs). by apply (used_if V). Qed.

Lemma space_at_inv pid w s w' : space_at pid w = Ret s w' -> w' = w /\ s = space_of w pid /\ 0 <= pid <= SNEKS_MAX_PID.
Proof.
  unfold space_at. destruct (_ && _) eqn:E; [|done]. intros [= <- <-]. split; [done|]. split; [done|].
  apply andb_true_iff in E as [?%Z.leb_le ?%Z.leb_le]. done.
Qed.

(** ** Configuration *)
Lemma vm_configure_sound pid utcb kip : steps sound (vm_configure pid utcb kip).
Proof.
  unfold vm_configure. destruct (_ <? _); [apply steps_ret; apply _|]. intros w r w' (s & w1 & H1 & H)%bind_ret_inv Hw.
  apply space_at_inv in H1 as (-> & -> & _). destruct (Z.eqb_spec (kip_area (space_of w pid)) 0) as [|Hk]; [by injection H as _ <-|].
  destruct (_ || _); [by injection H as _ <-|]. destruct (_ || _); [by injection H as _ <-|].
  unfold space_upd in H. rewrite bind_modify in H.
  match type of H with ?m ?w1 = _ => assert (vm_ok w1) as Hw1; [|assert (steps sound m) as Hm] end.
  - apply space_upd_ok; [done|apply (used_of w); [done|by left]|done].
  - walk ltac:(first [apply (steps_mono shrinks sound); [exact shrinks_sound|apply reserve_mmap_shrinks] | apply (steps_mono still sound); [exact still_sound|solve [calm]]]).
  - by apply (Hm _ _ _ H).
Qed.

(** ** Erasure *)
Lemma erase_map_tidy sp mm : steps tidied (erase_map sp mm).
Proof.
  unfold erase_map. walk ltac:(first [apply cut_anon_mmap_tidy
    | apply (steps_mono still tidied); [exact still_tidied|solve [calm]]]).
Qed.

Lemma space_ok_clear V w w' sp : space_ok V w ->
  (forall v, v ∈ V -> v ∉ (tab w sp).*2 -> page_addr w' v = page_addr w v) ->
  ra_used (spaces w') = ra_used (spaces w) -> tab w' sp = [] ->
  (forall pid, pid <> sp -> tab w' pid = tab w pid) ->
  (forall pid, kip_area (space_of w' pid) = kip_area (space_of w pid)
     /\ utcb_area (space_of w' pid) = utcb_area (space_of w pid)) ->
  space_ok (V ∖ list_to_set (tab w sp).*2) w'.
Proof.
  intros [A1 A2 A3 A4 A5] Ha Hu Hsp Ht Hs.
  assert (forall pid h v, (h, v) ∈ tab w' pid <-> (h, v) ∈ tab w pid /\ pid <> sp) as Hel.
  { intros pid h v. destruct (decide (pid = sp)) as [->|Hne]; [|rewrite Ht by done; tauto].
    rewrite Hsp. split; [by intros ?%elem_of_nil|by intros [_ ?]]. }
  assert (forall pid h v, (h, v) ∈ tab w pid -> pid <> sp -> v ∉ (tab w sp).*2) as Hout.
  { intros pid h v Hin Hne ([h' v'] & -> & Hin')%list_elem_of_fmap. apply Hne. by apply (A3 _ _ h h' v'). }
  split.
  - intros pid h v [Hin Hne]%Hel. destruct (A1 _ _ _ Hin) as (HV & a & Ea & Eh). pose proof (Hout _ _ _ Hin Hne).
    split; [|exists a; by rewrite Ha]. apply elem_of_difference. split; [done|]. by rewrite elem_of_list_to_set.
  - intros v [HV Hn]%elem_of_difference. rewrite elem_of_list_to_set in Hn. destruct (A2 v HV) as (pid & h & Hin).
    exists pid, h. apply Hel. split; [done|]. intros ->. apply Hn. apply list_elem_of_fmap. by exists (h, v).
  - intros pid pid' h h' v [H1 _]%Hel [H2 _]%Hel. by apply (A3 _ _ h h' v).
  - intros pid. unfold addrs. destruct (decide (pid = sp)) as [->|Hne]; [rewrite Hsp; apply NoDup_nil_2|].
    rewrite Ht by done. rewrite (list_fmap_ext _ (page_addr w)); [apply A4|].
    intros i v Hv. apply list_elem_of_lookup_2, list_elem_of_fmap in Hv as ([h v'] & -> & Hin).
    apply Ha; [by apply (A1 _ _ _ Hin)|by apply (Hout pid h)].
  - intros pid Hpid. rewrite Hu in Hpid. destruct (A5 pid Hpid) as (? & ? & Hn), (Hs pid) as (-> & ->).
    split; [done|]. split; [done|]. destruct (decide (pid = sp)) as [->|Hne]; [done|by rewrite Ht].
Qed.

Lemma foldM_snd {B} (f : Z -> B -> M vm B) (l : htable) b w :
  foldM (fun e st => f e.2 st) l b w = foldM f l.*2 b w.
Proof.
  revert b w. induction l as [|e l IH]; intros b w; [done|]. cbn. apply bind_ext. intros b' w'. apply IH.
Qed.

(** All pages of a space go, before its table is emptied. *)
Record pages_gone (V : gset Z) (D : list Z) (sp : Z) (w w' : vm) : Prop := PagesGone {
  pg_ok : pages_ok (V ∖ list_to_set (tab w sp).*2) D ∅ w';
  pg_vps v : v ∉ (tab w sp).*2 -> vps w' !! v = vps w !! v;
  pg_frames : frames w' = frames w;
  pg_spaces : spaces w' = spaces w
}.
Lemma drop_table_ok V sp w st w1 w2 : pages_ok V [] ∅ w -> space_ok V w ->
  foldM (fun e st => drop_vp e.2 st) (tab w sp) ([], []) w = Ret st w1 -> flush_fpages st.1 w1 = Ret tt w2 ->
  pages_gone V st.2 sp w w2.
Proof.
  intros Hp Hs H1 H2. rewrite foldM_snd in H1.
  assert (NoDup (tab w sp).*2) as Hnd by apply (NoDup_fmap_1 (page_addr w)), (so_addr _ _ Hs sp).
  destruct (drop_vps_ok _ V ∅ ([], []) w st w1 Hp Hnd) as (Hp1 & Hv1 & Hf1 & Hr1); [|done|].
  { intros v ([h v'] & -> & Hin)%list_elem_of_fmap. by apply (so_in _ _ Hs _ _ _ Hin). }
  apply flush_fpages_inv in H2. destruct (pages_ok_call _ _ _ _ _ Hp1 H2) as (Hp2 & Hv2 & Hf2 & Hr2).
  rewrite Hr1 in Hr2. destruct (rest_spaces _ _ Hr2) as [_ Hsp]. split; [done| |congruence|done].
  intros v Hv. by rewrite Hv2, Hv1, foldr_delete_lookup, decide_False.
Qed.

(** The table of a space whose pages are gone is emptied. *)
Lemma empty_table V D sp w w2 : space_ok V w -> pages_gone V D sp w w2 ->
  let w3 := set_spaces (ra_store sp (set_pages [] (space_of w2 sp)) (spaces w2)) w2 in
  vm_inv D w3 /\ tab w3 sp = [] /\ (forall pid, pid <> sp -> tab w3 pid = tab w pid)
  /\ forall pid h v, pid <> sp -> (h, v) ∈ tab w pid -> vps w3 !! v = vps w !! v.
Proof.
  intros Hs [G1 G2 G3 G4] w3. destruct (same_tabs _ _ G4) as [_ Hsame].
  assert (forall pid, space_of w3 pid = if decide (pid = sp) then set_pages [] (space_of w sp) else space_of w pid) as Hst.
  { intros pid. unfold w3. rewrite space_of_store, !Hsame. done. }
  assert (forall pid h v, pid <> sp -> (h, v) ∈ tab w pid -> vps w3 !! v = vps w !! v) as Hv.
  { intros pid h v Hne Hin. apply G2. intros ([h' v'] & -> & Hin')%list_elem_of_fmap. apply Hne.
    by apply (so_one _ _ Hs _ _ h h' v'). }
  assert (tab w3 sp = []) as Ht by (unfold tab; by rewrite Hst, decide_True).
  assert (forall pid, pid <> sp -> tab w3 pid = tab w pid) as Hto by (intros; unfold tab; by rewrite Hst, decide_False).
  split; [|done]. exists (V ∖ list_to_set (tab w sp).*2). split.
  - apply (pages_ok_same _ D ∅ w2); try done. apply (ok_next_vp _ _ _ _ G1).
  - apply (space_ok_clear V w _ sp Hs); [| |done|done|].
    + intros v HV Hv'. unfold page_addr. cbn. by rewrite G2.
    + cbn. by rewrite G4.
    + intros pid. rewrite Hst. by destruct (decide (pid = sp)) as [->|].
Qed.

(** The space is given back once its mappings are gone. *)
Lemma free_space_ok pid w : vm_ok w -> tab w pid = [] ->
  let s := set_areas L4_Nilpage L4_Nilpage L4_Nilpage (set_maps (maps (space_of w pid)) None (space_of w pid)) in
  let w' := set_spaces (ra_free pid (ra_store pid s (spaces w))) w in
  vm_ok w' /\ forall p, tab w' p = tab w p.
Proof.
  intros (V & Hp & Hs) Ht s w'.
  assert (forall p, space_of w' p = if decide (p = pid) then s else space_of w p) as Hst by (intros p; apply space_of_store).
  assert (forall p, tab w' p = tab w p) as Htab.
  { intros p. unfold tab. rewrite Hst. by destruct (decide (p = pid)) as [->|]. }
  split; [|done]. exists V. split.
  { apply (pages_ok_same V [] ∅ w); try done. apply (ok_next_vp _ _ _ _ Hp). }
  apply (space_ok_books V w); [done..|]. intros p Hpid. rewrite Htab, Hst.
  destruct (decide (p = pid)) as [->|Hne]; [done|].
  apply (so_free _ _ Hs). intros Hin. apply Hpid. change (p ∈ ra_used (spaces w) ∖ {[pid]}). set_solver.
Qed.

(** A space that was erased: no page is left of it, and nothing else has changed. *)
Record erased (pid : Z) (w w' : vm) : Prop := Erased {
  er_none a : page_at w' pid a = None;
  er_others p a : p <> pid -> page_at w' p a = page_at w p a;
  er_frames : frames w' = frames w
}.

Lemma vm_erase_ok pid w r w' : vm_ok w -> vm_erase pid w = Ret r w' -> vm_ok w' /\ (r = 0 -> erased pid w w').
Proof.
  intros Hw H. unfold vm_erase in H. apply bind_ret_inv in H as (spid & w1 & H1 & H). injection H1 as _ <-.
  destruct (_ <? _); [by injection H as <- <-|].
  apply bind_ret_inv in H as (s & w2 & H2 & H). apply space_at_inv in H2 as (-> & -> & _).
  destruct (_ || _) eqn:Ea.
  { apply bind_ret_inv in H as ([] & w2 & [_ ->]%assert_inv & H).
    apply bind_ret_inv in H as ([] & w2 & [_ ->]%assert_inv & H). by injection H as <- <-. }
  apply orb_false_iff in Ea as [Eu%Z.eqb_neq Ek%Z.eqb_neq].
  assert (pid ∈ ra_used (spaces w)) as Hused by (apply (used_of w); [done|by left]).
  apply bind_ret_inv in H as ([] & w2 & H2 & H). unfold space_upd in H2. injection H2 as <-. set (w2 := set_spaces _ w) in *.
  assert (vm_ok w2) as (V & Hp & Hs) by by apply space_upd_ok.
  assert (forall p, tab w2 p = tab w p) as Ht2.
  { intros p. unfold tab, w2. rewrite space_of_store. by destruct (decide (p = pid)) as [->|]. }
  apply bind_ret_inv in H as ([fps D] & w3 & H3 & H). apply bind_ret_inv in H as ([] & w4 & H4 & H).
  change (pages (space_of w pid)) with (tab w pid) in H3. rewrite <- Ht2 in H3.
  pose proof (drop_table_ok V pid w2 _ w3 w4 Hp Hs H3 H4) as Hg.
  destruct (empty_table V D pid w2 w4 Hs Hg) as (Hw5 & Ht5 & Hto & Hv5).
  apply bind_ret_inv in H as ([] & w5 & H5 & H). unfold space_upd in H5. injection H5 as <-. set (w5 := set_spaces _ w4) in *.
  apply bind_ret_inv in H as ([] & w6 & H6 & H). destruct (remove_active_pls_ok _ _ _ Hw5 H6) as [Hw6 Hk6].
  apply bind_ret_inv in H as ([] & w7 & H7 & H).
  assert (tidied w6 w7) as Ht by exact (steps_mapM tidied _ _ (fun x => erase_map_tidy pid x) _ _ _ H7).
  destruct (Ht Hw6) as [Hw7 Hk7]. pose proof (vm_kept_trans _ _ _ Hk6 Hk7) as (Ev & Ef & Eu7 & Hk).
  assert (forall p, tab w7 p = tab w5 p) as Ht7 by apply Hk.
  unfold space_upd in H. rewrite !bind_modify in H. injection H as <- <-. cbn [spaces set_spaces].
  destruct (free_space_ok pid w7 Hw7) as [Hok Ht9]; [by rewrite Ht7|]. split; [exact Hok|]. intros _.
  set (w9 := set_spaces _ (set_spaces _ w7)). assert (forall p, tab w9 p = tab w7 p) as Ht9' by exact Ht9.
  split.
  - intros a. unfold page_at. by rewrite Ht9', Ht7, Ht5.
  - intros p a Hne. unfold page_at. rewrite Ht9', Ht7, Hto, Ht2 by done. apply page_in_same. intros h v Hin.
    transitivity (vps w5 !! v); [unfold w9; cbn [vps set_spaces]; by rewrite Ev|]. apply (Hv5 p h v Hne). by rewrite Ht2.
  - transitivity (frames w7); [done|]. rewrite Ef. apply (pg_frames _ _ _ _ _ Hg).
Qed.
End life.

(** ** Fork *)
Section fork.
Context `{LA : !L4Abi, VE : !VmEnv, RB : !RbOps}.
#[local] Opaque bob96bitmix hash_cached_page hash_lazy_mmap bucket_of fsid_ino_of int_hash.

(** A new virtual page enters a table. *)
Lemma space_ok_add V w w' sp v a : space_ok V w -> v ∉ V -> sp ∈ ra_used (spaces w) ->
  page_addr w' v = Some a -> (forall u, u ∈ V -> page_addr w' u = page_addr w u) -> Some a ∉ addrs w sp ->
  ra_used (spaces w') = ra_used (spaces w) ->
  (forall pid, tab w' pid = if decide (pid = sp) then tab w sp ++ [(int_hash a, v)] else tab w pid) ->
  (forall pid, kip_area (space_of w' pid) = kip_area (space_of w pid)
     /\ utcb_area (space_of w' pid) = utcb_area (space_of w pid)) ->
  space_ok ({[v]} ∪ V) w'.
Proof.
  intros [A1 A2 A3 A4 A5] HvV Hsp Hv Hvs Ha Hu Ht Hs.
  assert (forall pid h u, (h, u) ∈ tab w' pid <-> (h, u) ∈ tab w pid \/ (pid = sp /\ h = int_hash a /\ u = v)) as Hel.
  { intros pid h u. rewrite Ht. destruct (decide (pid = sp)) as [->|Hne]; [|tauto].
    unfold htable in *. rewrite elem_of_app, list_elem_of_singleton. split; [intros [?|[= -> ->]]|intros [?|(_ & -> & ->)]]; auto. }
  split.
  - intros pid h u [Hin|(-> & -> & ->)]%Hel.
    + destruct (A1 _ _ _ Hin) as (HV & b & Hb & Eh). split; [set_solver|]. exists b. by rewrite Hvs.
    + split; [set_solver|]. by exists a.
  - intros u [->%elem_of_singleton|HV]%elem_of_union; [exists sp, (int_hash a); apply Hel; auto|].
    destruct (A2 u HV) as (pid & h & Hin). exists pid, h. apply Hel. by left.
  - intros pid pid' h h' u [H1|(-> & _ & ->)]%Hel [H2|(-> & _ & E)]%Hel; try subst u; try done.
    + by apply (A3 _ _ h h' u).
    + by destruct (A1 _ _ _ H1).
    + by destruct (A1 _ _ _ H2).
  - intros pid. unfold addrs.
    assert (page_addr w' <$> (tab w pid).*2 = addrs w pid) as E.
    { apply list_fmap_ext. intros i u Hu'.
      apply list_elem_of_lookup_2, list_elem_of_fmap in Hu' as ([h u'] & -> & Hin). apply Hvs. by apply (A1 _ _ _ Hin). }
    rewrite Ht. destruct (decide (pid = sp)) as [->|Hne]; [|rewrite E; apply A4].
    rewrite !fmap_app, E. cbn. rewrite Hv. apply NoDup_app. split; [apply A4|]. split; [|apply NoDup_singleton].
    intros b Hb ->%list_elem_of_singleton. done.
  - intros pid Hpid. rewrite Hu in Hpid. destruct (A5 pid Hpid) as (? & ? & Hn), (Hs pid) as (-> & ->).
    split; [done|]. split; [done|]. rewrite Ht. destruct (decide (pid = sp)) as [->|]; done.
Qed.

Lemma cow_copy_facts p : xorb (VP_IS_COW p) (has (VP_RIGHTS p) L4_Writable) = true ->
  VP_IS_ANON (cow_copy p) = VP_IS_ANON p /\ VP_IS_COW (cow_copy p) = true
  /\ has (vaddr (cow_copy p)) L4_Writable = false /\ VP_IS_SHARED (cow_copy p) = VP_IS_SHARED p
  /\ page_of (vaddr (cow_copy p)) = page_of (vaddr p) /\ status (cow_copy p) = status p.
Proof.
  rewrite rights_W. intros Hx. unfold cow_copy, VP_IS_ANON, VP_IS_COW, VP_IS_SHARED in *. cbn [vaddr status].
  rewrite !has_lor, clear_W, rights_W. change VPF_ANON with (2 ^ 4) in *. change VPF_SHARED with (2 ^ 3) in *.
  change VPF_COW with (2 ^ 5) in *. rewrite !clear_W_other by lia.
  assert (page_of (Z.lor (clear_bits (vaddr p) L4_Writable) (if has (vaddr p) L4_Writable then 2 ^ 5 else 0)) = page_of (vaddr p)) as ->.
  { rewrite page_of_lor by (by destruct (has (vaddr p) L4_Writable)). by apply page_of_clear. }
  destruct (has (vaddr p) (2 ^ 5)), (has (vaddr p) L4_Writable); try done; cbn;
    by rewrite ?orb_false_r, ?orb_true_r.
Qed.

Lemma fork_kind_cow V w v p : pages_ok V [] ∅ w -> v ∈ V -> vps w !! v = Some p ->
  fork_kind_of p = if VP_IS_ANON p then ForkCow else ForkSkip.
Proof.
  intros Hok HV Hp. unfold fork_kind_of. rewrite (ok_shared _ _ _ _ Hok v p HV Hp). by destruct (VP_IS_ANON p).
Qed.

(** What a page of the parent is after it was copied *)
Definition after_fork (p : vp) : vp :=
  if negb (VP_IS_COW p) && has (VP_RIGHTS p) L4_Writable then make_cow p else p.
Lemma after_fork_facts p : xorb (VP_IS_COW p) (has (VP_RIGHTS p) L4_Writable) = true ->
  VP_IS_ANON (after_fork p) = VP_IS_ANON p /\ VP_IS_COW (after_fork p) = true
  /\ VP_IS_SHARED (after_fork p) = VP_IS_SHARED p /\ has (vaddr (after_fork p)) L4_Writable = false
  /\ status (after_fork p) = status p /\ page_of (vaddr (after_fork p)) = page_of (vaddr p).
Proof.
  intros Hx. unfold after_fork. destruct (make_cow_facts p) as (F1 & F2 & F3 & F4 & F5). pose proof (make_cow_page p).
  rewrite rights_W in *. destruct (VP_IS_COW p) eqn:Ec, (has (vaddr p) L4_Writable) eqn:Ew; done.
Qed.

(** One page is copied on write. *)
Record forked_page (dest cur copy : Z) (p : vp) (w w' : vm) : Prop := ForkedPage {
  fp_vps : vps w' = <[cur := after_fork p]> (<[copy := cow_copy p]> (vps w));
  fp_tab pid : tab w' pid = if decide (pid = dest) then tab w dest ++ [(int_hash (page_of (vaddr p)), copy)] else tab w pid;
  fp_frames : frames w' = frames w;
  fp_used : ra_used (spaces w') = ra_used (spaces w);
  fp_next : next_ptr w' = next_ptr w;
  fp_areas pid : kip_area (space_of w' pid) = kip_area (space_of w pid)
    /\ utcb_area (space_of w' pid) = utcb_area (space_of w pid)
}.

(** There was no memory for the entry of the copy. *)
Lemma fork_cow_refused V w dest c p : pages_ok V [] ∅ w -> space_ok V w -> c ∉ V -> c < next_ptr w ->
  let w1 := add_vmcall (VHtableAdd TabPages) (set_vps (<[c := cow_copy p]> (vps w)) w) in
  vm_ok (set_spaces (ra_store dest (set_pages (tab w dest) (space_of w1 dest)) (spaces w1)) w1).
Proof.
  intros Hok Hs HcV Hc w1. exists V. split.
  - apply (pages_ok_same V [] ∅ w); try done; cbn.
    + intros u Hu. rewrite lookup_insert_ne; [done|]. by intros <-.
    + intros u pu Hpu. destruct (decide (u = c)) as [->|]; [done|]. rewrite lookup_insert_ne in Hpu by done.
      by apply (ok_next_vp _ _ _ _ Hok u pu).
  - apply (space_ok_same V w); [done| |split; [done|]].
    + intros u Hu. unfold page_addr. cbn. rewrite lookup_insert_ne; [done|]. by intros <-.
    + intros pid. unfold tab. rewrite space_of_store. by destruct (decide (pid = dest)) as [->|].
Qed.

Lemma fork_cow_ok V w dest cur c p r w' : pages_ok V [] ∅ w -> cur ∈ V -> vps w !! cur = Some p ->
  VP_IS_ANON p = true -> xorb (VP_IS_COW p) (has (VP_RIGHTS p) L4_Writable) = true ->
  c ∉ V -> c <> cur -> c < next_ptr w -> fork_cow dest cur c w = Ret r w' -> no_share_lost w' ->
  (r.1 = false /\ (space_ok V w -> vm_ok w'))
  \/ r = (true, negb (VP_IS_COW p) && has (VP_RIGHTS p) L4_Writable)
     /\ pages_ok ({[c]} ∪ V) [] ∅ w' /\ forked_page dest cur c p w w'.
Proof.
  intros Hok HV Hp Ha Hx HcV Hcc Hc H Hsl. unfold fork_cow in H.
  apply bind_ret_inv in H as (p0 & w1 & H1 & H). apply vp_at_inv in H1 as [-> Hp0]. rewrite Hp in Hp0. injection Hp0 as <-.
  cbv zeta in H. rewrite bind_modify, bind_get in H. apply bind_ret_inv in H as ([ok t] & w1 & H1 & H).
  apply htable_add_inv in H1 as [-> [[-> ->]|[-> ->]]]; unfold space_upd in H; rewrite bind_modify in H; cbn [negb] in H.
  { left. injection H as <- <-. split; [done|]. intros Hs. by apply (fork_cow_refused V w dest c p). }
  right. set (unmap := negb (VP_IS_COW p) && has (VP_RIGHTS p) L4_Writable) in *.
  apply bind_ret_inv in H as ([] & w2 & H2 & H).
  match type of H2 with _ ?wx = _ => set (w1 := wx) in * end.
  assert (pages_ok V [] ∅ w1) as Hok1.
  { apply (pages_ok_same V [] ∅ w); try done; cbn.
    - intros u Hu. rewrite lookup_insert_ne; [done|]. by intros <-.
    - intros u pu Hpu. destruct (decide (u = c)) as [->|]; [done|]. rewrite lookup_insert_ne in Hpu by done.
      by apply (ok_next_vp _ _ _ _ Hok u pu). }
  assert (vps w1 = <[c := cow_copy p]> (vps w)) as Hv1 by done.
  assert (w2 = set_vps (<[cur := after_fork p]> (vps w1)) w1) as E2.
  { unfold after_fork. fold unmap. destruct unmap; cbn [when_] in H2.
    - unfold vp_upd in H2. injection H2 as <-. f_equal. apply alter_is_insert. by rewrite Hv1, lookup_insert_ne.
    - injection H2 as <-. rewrite insert_id; [by destruct w1|]. by rewrite Hv1, lookup_insert_ne. }
  destruct (after_fork_facts p Hx) as (F1 & F2 & F3 & F4 & F5 & F6).
  assert (pages_ok V [] ∅ w2) as Hok2.
  { apply (pages_ok_flags V [] ∅ w1 w2 cur p (after_fork p)); try done; try (by rewrite E2).
    - by rewrite Hv1, lookup_insert_ne.
    - rewrite F3, F1. by apply (ok_shared _ _ _ _ Hok cur).
    - by rewrite F2. }
  assert (vps w2 = <[cur := after_fork p]> (<[c := cow_copy p]> (vps w))) as Hv2 by by rewrite E2, <- Hv1.
  destruct (ok_used _ _ _ _ Hok2 cur HV) as (p2 & q & Hp2 & Hq & _).
  rewrite Hv2, lookup_insert_eq in Hp2. injection Hp2 as <-. rewrite F5 in Hq.
  destruct (cow_copy_facts p Hx) as (G1 & G2 & G3 & G4 & G5 & G6).
  assert (vps w2 !! c = Some (cow_copy p)) as Hvc by by rewrite Hv2, lookup_insert_ne, lookup_insert_eq.
  apply bind_ret_inv in H as (b & w3 & H3 & H).
  destruct (add_share_run _ _ _ _ _ _ c Hok2 Hq _ _ ltac:(by exists (cow_copy p)) H3 ltac:(by grown_back H))
    as (-> & P1 & P2 & P3 & P4 & P5 & P6 & P7 & P8).
  injection H as <- <-. split; [done|].
  destruct (rest_spaces _ _ P8) as [_ Hsp]. destruct (same_tabs _ _ Hsp) as [_ Hsame].
  assert (forall pid, space_of w2 pid = if decide (pid = dest)
    then set_pages (tab w dest ++ [(int_hash (page_of (vaddr p)), c)]) (space_of w dest) else space_of w pid) as Hst.
  { intros pid. transitivity (space_of w1 pid); [by rewrite E2|]. unfold w1. rewrite space_of_store.
    by destruct (decide (pid = dest)). }
  split.
  - destruct (link q) as [x|] eqn:Hx'; cycle 1.
    { destruct (ok_page _ _ _ _ Hok2 _ _ Hq) as (_ & x & _ & _ & Hx2 & _). congruence. }
    assert (VP_IS_ANON (after_fork p) = true) as Haa by by rewrite F1.
    assert (vps w2 !! cur = Some (after_fork p)) as Hvcur by by rewrite Hv2, lookup_insert_eq.
    assert (x ∈ lst w2 page_active_list) as Hxa.
    { apply (ok_anon _ _ _ _ Hok2 cur (after_fork p) q x); [done|done|by rewrite F5|done|done]. }
    apply (pages_ok_attach V [] ∅ w2 w3 c (cow_copy p) q x); rewrite ?G6; try done.
    + by rewrite P6.
    + intros Hxf. by apply (ok_one_list _ _ _ _ Hok2 _ _ x Hxf) in Hxa.
    + by rewrite G1, Ha.
    + rewrite G4, G1. by apply (ok_shared _ _ _ _ Hok cur).
    + intros _. split; [done|]. intros u pu Hu Hpu. destruct (VP_IS_COW pu) eqn:Ecu; [done|].
      assert (status pu = status p) as Esu by (destruct Hu as (_ & pu' & Hpu' & Es); congruence).
      assert (VP_IS_ANON pu = true) as Hau.
      { apply (ok_anon _ _ _ _ Hok2 u pu q x); try done; [by destruct Hu|congruence]. }
      assert (cur = u) as <-.
      { apply (ok_private _ _ _ _ Hok2 u cur pu); try done; [by destruct Hu|]. split; [done|].
        exists (after_fork p). split; [done|]. congruence. }
      rewrite Hvcur in Hpu. congruence.
    + intros u _. by rewrite P6.
    + intros u pu. rewrite P6, P5. apply (ok_next_vp _ _ _ _ Hok2).
    + by rewrite Hx'.
  - split.
    + by rewrite P6.
    + intros pid. unfold tab. rewrite Hsame, Hst. by destruct (decide (pid = dest)).
    + by rewrite P7, E2.
    + by rewrite Hsp, E2.
    + by rewrite P5, E2.
    + intros pid. rewrite Hsame, Hst. by destruct (decide (pid = dest)) as [->|].
Qed.

Definition forks (p : vp) : vp := if VP_IS_ANON p then after_fork p else p.

(** The pages of [l], entries of the parent's, are copied. *)
Record forked (src dest : Z) (l : htable) (w w' : vm) : Prop := Forked {
  fk_dest a : page_at w' dest a = match page_in w l a with
                                  | Some p => if VP_IS_ANON p then Some (cow_copy p) else page_at w dest a
                                  | None => page_at w dest a
                                  end;
  fk_vps h v p : (h, v) ∈ l -> vps w !! v = Some p -> vps w' !! v = Some (forks p);
  fk_other pid h v : (h, v) ∈ tab w pid -> (h, v) ∉ l -> vps w' !! v = vps w !! v;
  fk_tab pid : pid <> dest -> tab w' pid = tab w pid;
  fk_frames : frames w' = frames w
}.

Lemma malloc_fresh V w o w' : pages_ok V [] ∅ w -> malloc w = Ret o w' ->
  still w w' /\ forall c, o = Some c -> c ∉ V /\ c < next_ptr w' /\ vps w !! c = None.
Proof.
  intros Hp H. split; [by apply (calm_malloc _ _ _ H)|]. intros c ->. apply malloc_inv in H as [[? _]|[[= ->] ->]]; [done|].
  assert (vps w !! next_ptr w = None) as Hn.
  { destruct (vps w !! next_ptr w) as [p|] eqn:E; [|done]. pose proof (ok_next_vp _ _ _ _ Hp _ _ E). lia. }
  split; [|split; [|done]].
  - intros HV. destruct (ok_used _ _ _ _ Hp _ HV) as (p & _ & Hv & _). congruence.
  - cbn. lia.
Qed.

Lemma space_ok_forked V w w' src dest h cur c p : space_ok V w -> (h, cur) ∈ tab w src -> vps w !! cur = Some p ->
  c ∉ V -> dest ∈ ra_used (spaces w) -> page_at w dest (page_of (vaddr p)) = None ->
  xorb (VP_IS_COW p) (has (VP_RIGHTS p) L4_Writable) = true ->
  forked_page dest cur c p w w' -> space_ok ({[c]} ∪ V) w'.
Proof.
  intros Hs Hin Hp HcV Hd Hno Hx [F1 F2 F3 F4 F5 F6]. destruct (so_in _ _ Hs _ _ _ Hin) as (HV & _).
  destruct (cow_copy_facts p Hx) as (_ & _ & _ & _ & G5 & _).
  destruct (after_fork_facts p Hx) as (_ & _ & _ & _ & _ & G6).
  apply (space_ok_add V w w' dest c (page_of (vaddr p))); try done.
  - unfold page_addr. rewrite F1, lookup_insert_ne, lookup_insert_eq by (intros ->; done). cbn. f_equal. exact G5.
  - intros u Hu. unfold page_addr. rewrite F1. destruct (decide (u = cur)) as [->|Hne].
    + rewrite lookup_insert_eq, Hp. cbn. f_equal. exact G6.
    + by rewrite !lookup_insert_ne by (intros <-; done).
  - intros (h' & v & Hin' & Hv)%addrs_elem. destruct (so_in _ _ Hs _ _ _ Hin') as (_ & a & Ha & ->).
    rewrite Hv in Ha. injection Ha as <-. unfold page_addr in Hv. destruct (vps w !! v) as [pv|] eqn:Ev; [|done].
    assert (page_at w dest (page_of (vaddr p)) = Some pv) as E; [|congruence].
    apply (page_at_iff V); [done|]. exists v. split; [done|]. split; [done|]. by injection Hv.
Qed.

Lemma page_at_add V V' w w' dest c p0 a : space_ok V w -> space_ok V' w' ->
  tab w' dest = tab w dest ++ [(int_hash (page_of (vaddr p0)), c)] -> vps w' !! c = Some p0 ->
  (forall h v, (h, v) ∈ tab w dest -> vps w' !! v = vps w !! v) ->
  page_at w' dest a = if decide (page_of (vaddr p0) = a) then Some p0 else page_at w dest a.
Proof.
  intros Hs Hs' Ht Hc Hv. apply option_eq. intros p. rewrite (page_at_iff V') by done.
  destruct (decide (page_of (vaddr p0) = a)) as [<-|Hne].
  - split.
    + intros (v & Hin & Hp & Ha). assert ((int_hash (page_of (vaddr p0)), v) = (int_hash (page_of (vaddr p0)), c)) as [= ->].
      { apply (addr_inj V' w' dest); [done|done|rewrite Ht; set_solver|]. unfold page_addr. by rewrite Hp, Hc; cbn; rewrite Ha. }
      congruence.
    + intros [= <-]. exists c. split; [rewrite Ht; set_solver|done].
  - rewrite (page_at_iff V) by done. rewrite Ht. split; intros (v & Hin & Hp & Ha); exists v.
    + unfold htable in *. apply elem_of_app in Hin as [Hin|Hin%list_elem_of_singleton].
      * by rewrite <- (Hv _ _ Hin).
      * injection Hin as _ ->. congruence.
    + rewrite (Hv _ _ Hin). unfold htable in *. rewrite elem_of_app. auto.
Qed.

(** Entries of the parent that are still to be copied *)
Definition todo (V : gset Z) (src dest : Z) (l : htable) (w : vm) : Prop :=
  (forall e, e ∈ l -> e ∈ tab w src) /\ NoDup l
  /\ forall h v p, (h, v) ∈ l -> vps w !! v = Some p -> page_at w dest (page_of (vaddr p)) = None.

Lemma todo_cons V src dest h cur p l w : space_ok V w -> todo V src dest ((h, cur) :: l) w -> vps w !! cur = Some p ->
  h = int_hash (page_of (vaddr p)) /\ cur ∈ V /\ (h, cur) ∈ tab w src
  /\ page_at w dest (page_of (vaddr p)) = None /\ (h, cur) ∉ l
  /\ (forall h' v pv, (h', v) ∈ l -> vps w !! v = Some pv -> v <> cur /\ page_of (vaddr pv) <> page_of (vaddr p)).
Proof.
  intros Hs (Hl & Hnd & Hno) Hcur. assert ((h, cur) ∈ tab w src) as Hin by (apply Hl; set_solver).
  destruct (so_in _ _ Hs _ _ _ Hin) as (HV & a & Ha & ->). unfold page_addr in Ha. rewrite Hcur in Ha. injection Ha as <-.
  inversion Hnd as [|? ? Hcl Hnd']; subst. split; [done|]. split; [done|]. split; [done|].
  split; [apply (Hno (int_hash (page_of (vaddr p))) cur); [set_solver|done]|]. split; [done|].
  assert (forall h' v pv, (h', v) ∈ l -> vps w !! v = Some pv -> page_of (vaddr pv) <> page_of (vaddr p)) as Hd.
  { intros h' v pv Hv Hpv E. apply Hcl. replace (int_hash (page_of (vaddr p)), cur) with (h', v); [done|].
    apply (addr_inj V w src); [done|apply Hl; set_solver|done|]. unfold page_addr. by rewrite Hpv, Hcur; cbn; rewrite E. }
  intros h' v pv Hv Hpv. split; [|by apply (Hd h' v)]. intros ->. apply (Hd h' cur pv Hv Hpv). congruence.
Qed.
Lemma page_in_none w l a : (forall h v p, (h, v) ∈ l -> vps w !! v = Some p -> page_of (vaddr p) <> a) -> page_in w l a = None.
Proof.
  intros Hn. unfold page_in, find_vp. destruct (find _ l) as [[h v]|] eqn:Ef; [|done].
  apply find_some in Ef as [Hv%list_elem_of_In Hf]. unfold is_vp_at in Hf. cbn in *.
  destruct (vps w !! v) as [p|] eqn:Ep; [|done]. apply andb_true_iff in Hf as [_ Hf%Z.eqb_eq]. by destruct (Hn h v p).
Qed.

Lemma forked_still src dest l w w1 w' : still w w1 -> forked src dest l w1 w' -> forked src dest l w w'.
Proof.
  intros [_ _ T3 T4 _ _ _ [_ T8]] [K1 K2 K3 K4 K5].
  assert (forall pid, tab w1 pid = tab w pid) as Ht1 by (intros; apply T8).
  assert (forall l a, page_in w1 l a = page_in w l a) as Hpi by (intros; apply page_in_same; intros; by rewrite T3).
  split; [| | | |congruence].
  - intros a. rewrite K1, Hpi. unfold page_at. by rewrite Hpi, Ht1.
  - intros h v p. rewrite <- T3. apply K2.
  - intros pid h v. rewrite <- T3, <- Ht1. apply K3.
  - intros pid Hpid. by rewrite K4.
Qed.

(** A page that is in the page cache is not copied. *)
Lemma forked_skip V src dest h cur p l w w' : space_ok V w -> todo V src dest ((h, cur) :: l) w ->
  vps w !! cur = Some p -> VP_IS_ANON p = false -> forked src dest l w w' -> forked src dest ((h, cur) :: l) w w'.
Proof.
  intros Hs Ht Hp Ha [K1 K2 K3 K4 K5]. destruct (todo_cons _ _ _ _ _ _ _ _ Hs Ht Hp) as (Eh & HV & Hin & Hno & Hcl & Hd).
  split; try done.
  - intros a. rewrite (page_in_cons w h cur p l a) by done. rewrite K1. destruct (decide (page_of (vaddr p) = a)) as [<-|]; [|done].
    rewrite Ha, page_in_none; [done|]. intros h' v pv Hv Hpv. by apply (Hd h' v).
  - intros h' v pv [[= -> ->]|Hv]%elem_of_cons Hpv; [|by apply (K2 h')]. rewrite (K3 src h cur) by done.
    rewrite Hpv in Hp. injection Hp as ->. unfold forks. by rewrite Ha, Hpv.
  - intros pid h' v Hv Hn. apply (K3 pid h'); [done|set_solver].
Qed.

(** A page that is copied, and then the others *)
Lemma forked_cons V src dest h cur c p l w w1 w' : space_ok V w -> todo V src dest ((h, cur) :: l) w ->
  vps w !! cur = Some p -> VP_IS_ANON p = true -> xorb (VP_IS_COW p) (has (VP_RIGHTS p) L4_Writable) = true ->
  c ∉ V -> src <> dest -> space_ok ({[c]} ∪ V) w1 -> forked_page dest cur c p w w1 ->
  todo ({[c]} ∪ V) src dest l w1 /\ (forked src dest l w1 w' -> forked src dest ((h, cur) :: l) w w').
Proof.
  intros Hs Ht Hp Ha Hx HcV Hsd Hs1 [F1 F2 F3 F4 F5 F6].
  destruct (todo_cons _ _ _ _ _ _ _ _ Hs Ht Hp) as (Eh & HV & Hin & Hno & Hcl & Hd). destruct Ht as (Hl & Hnd & Hno').
  destruct (cow_copy_facts p Hx) as (_ & _ & _ & _ & G5 & _).
  assert (forall u, u ∈ V -> u <> cur -> vps w1 !! u = vps w !! u) as Hv1.
  { intros u Hu Hne. rewrite F1, !lookup_insert_ne; [done|by intros ->|done]. }
  assert (forall h' v, (h', v) ∈ l -> v ∈ V /\ v <> cur) as Hlv.
  { intros h' v Hv. assert ((h', v) ∈ tab w src) as Hv' by (apply Hl; set_solver).
    destruct (so_in _ _ Hs _ _ _ Hv') as (HvV & a & Hpa & _). split; [done|]. unfold page_addr in Hpa.
    destruct (vps w !! v) as [pv|] eqn:Ev; [|done]. by apply (Hd h' v pv). }
  assert (forall h' v, (h', v) ∈ l -> vps w1 !! v = vps w !! v) as Hl1.
  { intros h' v Hv. destruct (Hlv h' v Hv). by apply Hv1. }
  assert (vps w1 !! c = Some (cow_copy p)) as Hc1.
  { rewrite F1, lookup_insert_ne, lookup_insert_eq; [done|by intros ->]. }
  assert (forall a, page_at w1 dest a = if decide (page_of (vaddr p) = a) then Some (cow_copy p) else page_at w dest a) as Hat.
  { intros a. rewrite <- G5. apply (page_at_add V ({[c]} ∪ V) w w1 dest c); try done.
    - by rewrite F2, decide_True, G5.
    - intros h' v Hv. apply Hv1; [by apply (so_in _ _ Hs _ _ _ Hv)|]. intros ->. by apply Hsd, (so_one _ _ Hs _ _ h h' cur). }
  split.
  { split; [|split].
    - intros e He. rewrite F2, decide_False by done. apply Hl. set_solver.
    - by inversion Hnd.
    - intros h' v pv Hv Hpv. rewrite (Hl1 _ _ Hv) in Hpv. rewrite Hat, decide_False by (intros E; by destruct (Hd h' v pv Hv Hpv)).
      apply (Hno' h' v); [set_solver|done]. }
  intros [K1 K2 K3 K4 K5]. split; [| | | |congruence].
  - intros a. rewrite (page_in_cons w h cur p l a) by done. rewrite K1, (page_in_same w w1 l) by done. rewrite Hat.
    destruct (decide (page_of (vaddr p) = a)) as [<-|]; [|done].
    rewrite Ha, page_in_none; [done|]. intros h' v pv Hv Hpv. by apply (Hd h' v).
  - intros h' v pv [[= -> ->]|Hv]%elem_of_cons Hpv.
    + rewrite (K3 src h cur); [|by rewrite F2, decide_False|done]. rewrite Hpv in Hp. injection Hp as ->.
      rewrite F1, lookup_insert_eq. unfold forks. by rewrite Ha.
    + apply (K2 h'); [done|]. by rewrite (Hl1 h').
  - intros pid h' v Hv Hn. destruct (so_in _ _ Hs _ _ _ Hv) as (HvV & _).
    assert (v <> cur) as Hne.
    { intros ->. assert (pid = src) as -> by by apply (so_one _ _ Hs _ _ h' h cur). apply Hn.
      replace h' with h; [set_solver|]. assert ((h, cur) = (h', cur)) as [= ->]; [|done]. by apply (addr_inj V w src). }
    rewrite (K3 pid h' v), Hv1; [done..| |set_solver]. rewrite F2. destruct (decide (pid = dest)) as [->|]; [|done].
    unfold htable in *. rewrite elem_of_app. by left.
  - intros pid Hpid. by rewrite K4, F2, decide_False.
Qed.

Lemma todo_still V src dest l w w1 : todo V src dest l w -> still w w1 -> todo V src dest l w1.
Proof.
  intros (L1 & L2 & L3) [_ _ T3 _ _ _ _ [_ T8]]. split; [|split; [done|]].
  - intros e He. destruct (T8 src) as [-> _]. by apply L1.
  - intros h' v pv Hv. rewrite T3. unfold page_at. destruct (T8 dest) as [-> _].
    rewrite (page_in_same w w1) by (intros; by rewrite T3). by apply (L3 h').
Qed.

Lemma fork_pages_from_ok src dest l : forall V w copy fps n r w', pages_ok V [] ∅ w -> space_ok V w -> src <> dest ->
  dest ∈ ra_used (spaces w) -> todo V src dest l w -> (forall c, copy = Some c -> c ∉ V /\ c < next_ptr w) ->
  fork_pages_from l dest copy fps n w = Ret r w' -> no_share_lost w' ->
  vm_ok w' /\ (r.1 = - ENOMEM \/ forked src dest l w w').
Proof.
  induction l as [|[h cur] l IH]; intros V w copy fps n r w' Hp Hs Hsd Hd Ht Hcp H Hsl.
  { injection H as <- <-. split; [by exists V|]. right. split; try done. intros ? ? ? Hin. by apply elem_of_nil in Hin. }
  cbn [fork_pages_from] in H. apply bind_ret_inv in H as (p & w1 & H1 & H). apply vp_at_inv in H1 as [-> Hcur].
  apply bind_ret_inv in H as ([] & w1 & [Hx ->]%assert_inv & H).
  apply bind_ret_inv in H as (o & w1 & H1 & H).
  assert (still w w1 /\ forall c, o = Some c -> c ∉ V /\ c < next_ptr w1) as [Hst Ho].
  { destruct copy as [c|]; [by injection H1 as <- <-|]. destruct (malloc_fresh _ _ _ _ Hp H1) as [Hst Hf].
    split; [done|]. intros c Hc. by destruct (Hf c Hc) as (? & ? & _). }
  cut (vm_ok w' /\ (r.1 = - ENOMEM \/ forked src dest ((h, cur) :: l) w1 w')).
  { intros [? [?|?]]; (split; [done|]); [by left|right; by apply (forked_still _ _ _ _ w1)]. }
  apply (pages_ok_still _ _ _ _ _ Hp) in Hst as Hp1. apply (space_ok_still _ _ _ Hs) in Hst as Hs1.
  assert (todo V src dest ((h, cur) :: l) w1 /\ vps w1 !! cur = Some p /\ dest ∈ ra_used (spaces w1)) as (Ht1 & Hcur1 & Hd1).
  { split; [by apply (todo_still _ _ _ _ w)|]. destruct Hst as [_ _ T3 _ _ _ _ [T7 _]]. by rewrite T3, T7. }
  destruct (todo_cons _ _ _ _ _ _ _ _ Hs1 Ht1 Hcur1) as (Eh & HV & Hin & Hno & Hcl & Hdi).
  destruct o as [c|]; [|injection H as <- <-; split; [by exists V|by left]]. destruct (Ho c eq_refl) as [HcV Hc].
  rewrite (fork_kind_cow V w1 cur p Hp1 HV Hcur1) in H.
  destruct (VP_IS_ANON p) eqn:Ea.
  - apply bind_ret_inv in H as ([ok unmap] & w2 & H2 & H).
    assert (no_share_lost w2) as Hsl2.
    { by grown_back H. }
    destruct (fork_cow_ok V w1 dest cur c p (ok, unmap) w2) as [[Eok Hok']|([= -> ->] & Hp2 & Hfp)]; try done; try (by intros ->).
    { cbn in Eok. subst ok. injection H as <- <-. split; [by apply Hok'|by left]. }
    assert (space_ok ({[c]} ∪ V) w2) as Hs2 by by apply (space_ok_forked V w1 w2 src dest h cur c p).
    destruct (forked_cons V src dest h cur c p l w1 w2 w' Hs1 Ht1 Hcur1 Ea Hx HcV Hsd Hs2 Hfp) as [Ht2 Hcons].
    cbn [negb] in H. apply bind_ret_inv in H as (fps' & w3 & H3 & H).
    assert (still w2 w3) as Hst3.
    { destruct (_ && _); [exact (calm_push_fpage _ _ _ _ _ _ H3)|by injection H3 as _ <-]. }
    destruct (IH ({[c]} ∪ V) w3 None fps' (n + 1) r w') as [Hok' Hf]; try done.
    + by apply (pages_ok_still _ _ _ w2).
    + by apply (space_ok_still _ w2).
    + destruct Hst3 as [_ _ _ _ _ _ _ [-> _]]. by rewrite (fp_used _ _ _ _ _ _ Hfp).
    + by apply (todo_still _ _ _ _ w2).
    + split; [done|]. destruct Hf as [Hf|Hf]; [by left|right]. apply Hcons. by apply (forked_still _ _ _ _ w3).
  - assert (todo V src dest l w1) as Ht2.
    { destruct Ht1 as (L1 & L2 & L3). split; [|split]; [set_solver|by inversion L2|]. intros h' v pv Hv. apply (L3 h'). set_solver. }
    destruct (IH V w1 (Some c) fps n r w') as [Hok' Hf]; try done; try (by intros c' [= <-]). split; [done|].
    destruct Hf as [Hf|Hf]; [by left|right]. by apply (forked_skip V _ _ _ _ p).
Qed.

(** ** The whole of fork *)

Lemma fork_maps_calm l dest : calm (fork_maps l dest).
Proof. induction l as [|m l IH]; cbn [fork_maps]; [calm|]. walk ltac:(first [exact IH|calm]). Qed.

Lemma fork_pages_ok V w src dest r w' : pages_ok V [] ∅ w -> space_ok V w -> src <> dest ->
  dest ∈ ra_used (spaces w) -> tab w dest = [] -> fork_pages src dest w = Ret r w' -> no_share_lost w' ->
  vm_ok w' /\ (r = - ENOMEM \/ forked src dest (tab w src) w w').
Proof.
  intros Hp Hs Hsd Hd Ht H Hsl. unfold fork_pages in H. rewrite bind_gets in H. fold (tab w src) in H.
  apply bind_ret_inv in H as ([n fps] & w1 & H1 & H).
  destruct (fork_pages_from_ok src dest (tab w src) V w None [] 0 (n, fps) w1) as [Hok Hf]; try done.
  2:{ by grown_back H. }
  { split; [done|]. split; [by apply (tab_nodup V)|]. intros h v p _ _. unfold page_at. by rewrite Ht. }
  apply bind_ret_inv in H as ([] & w2 & H2 & H). injection H as <- <-. pose proof (calm_flush _ _ _ _ H2) as Hst.
  split; [by apply (vm_inv_still [] w1)|]. destruct Hf as [Hf|[K1 K2 K3 K4 K5]]; [by left|right].
  destruct Hst as [_ _ T3 T4 _ _ _ [_ T8]]. split.
  - intros a. rewrite <- K1. unfold page_at. destruct (T8 dest) as [-> _]. apply page_in_same. intros. by rewrite T3.
  - intros h v p. rewrite T3. apply K2.
  - intros pid h v. rewrite T3. apply K3.
  - intros pid Hpid. destruct (T8 pid) as [-> _]. by apply K4.
  - by rewrite T4.
Qed.

Lemma after_fork_page p : page_of (vaddr (forks p)) = page_of (vaddr p).
Proof. unfold forks, after_fork. destruct (VP_IS_ANON p), (negb (VP_IS_COW p) && has (VP_RIGHTS p) L4_Writable); try done. apply make_cow_page. Qed.
Lemma page_in_map f w w' l a : (forall p, page_of (vaddr (f p)) = page_of (vaddr p)) ->
  (forall h v, (h, v) ∈ l -> vps w' !! v = f <$> vps w !! v) -> page_in w' l a = f <$> page_in w l a.
Proof.
  intros Hf Hv. unfold page_in, find_vp. induction l as [|[h v] l IH]; [done|]. cbn [find]. unfold is_vp_at at 1 3.
  cbn [fst snd]. rewrite (Hv h v) by set_solver. destruct (vps w !! v) as [p|] eqn:Ep; cbn.
  - rewrite Hf. destruct (_ && _); [cbn; rewrite (Hv h), Ep by set_solver; done|]. apply IH. intros h' v' Hin. apply (Hv h'). set_solver.
  - rewrite andb_false_r. apply IH. intros h' v' Hin. apply (Hv h'). set_solver.
Qed.

(** What fork does to the pages of every space *)
Record fork_result (src dest : Z) (w w' : vm) : Prop := ForkResult {
  fr_child a : page_at w' dest a = p ← page_at w src a; if VP_IS_ANON p then Some (cow_copy p) else None;
  fr_parent a : page_at w' src a = forks <$> page_at w src a;
  fr_others pid a : pid <> src -> pid <> dest -> page_at w' pid a = page_at w pid a;
  fr_frames : frames w' = frames w
}.
Lemma forked_result V src dest w w' : space_ok V w -> src <> dest -> tab w dest = [] ->
  forked src dest (tab w src) w w' -> fork_result src dest w w'.
Proof.
  intros Hs Hsd Hd [K1 K2 K3 K4 K5]. split; [| | |done].
  - intros a. rewrite K1. assert (page_at w dest a = None) as -> by (unfold page_at; by rewrite Hd).
    fold (page_at w src a). by destruct (page_at w src a).
  - intros a. unfold page_at. rewrite K4 by done. apply page_in_map; [apply after_fork_page|]. intros h v Hin.
    destruct (so_in _ _ Hs _ _ _ Hin) as (_ & b & Hb & _). unfold page_addr in Hb.
    destruct (vps w !! v) as [p|] eqn:Ep; [|done]. by apply (K2 h v p).
  - intros pid a H1 H2. unfold page_at. rewrite K4 by done. apply page_in_same. intros h v Hin.
    apply (K3 pid h v Hin). intros Hin'. by apply H1, (so_one _ _ Hs _ _ h h v).
Qed.

Lemma alloc_space_inv V id w o w' : pages_ok V [] ∅ w -> space_ok V w -> alloc_space id w = Ret o w' ->
  pages_ok V [] ∅ w' /\ space_ok V w' /\ vps w' = vps w /\ frames w' = frames w /\ (forall pid, space_of w' pid = space_of w pid)
  /\ forall d, o = Some d -> tab w d = [] /\ kip_area (space_of w d) = 0 /\ d ∈ ra_used (spaces w') /\ 0 <= d <= SNEKS_MAX_PID.
Proof.
  intros Hp Hs H. unfold alloc_space in H. apply bind_ret_inv in H as (d & w1 & H1 & H).
  assert (still w w1 /\ spaces w1 = spaces w) as [Hst Esp].
  { destruct (0 <? id); [by injection H1 as <- <-|]. split; [exact (calm_ask _ _ _ _ H1)|by injection H1 as _ <-]. }
  apply (pages_ok_still _ _ _ _ _ Hp) in Hst as Hp1. apply (space_ok_still _ _ _ Hs) in Hst as Hs1.
  destruct Hst as [_ _ T3 T4 _ _ _ _]. destruct (same_tabs _ _ Esp) as [_ Hsame].
  rewrite bind_get, Esp in H. unfold ra_alloc in H.
  destruct ((0 <=? d) && (d <? SNEKS_MAX_PID + 1) && bool_decide (d ∉ ra_used (spaces w))) eqn:Ed; cycle 1.
  { injection H as <- <-. by split_and!. }
  rewrite bind_modify in H. injection H as <- <-. rewrite !andb_true_iff in Ed.
  destruct Ed as [[Hd0%Z.leb_le Hd1%Z.ltb_lt] Hn%bool_decide_eq_true]. destruct (so_free _ _ Hs d Hn) as (Hk & _ & Ht).
  set (w2 := set_spaces _ w1).
  assert (forall pid, space_of w2 pid = space_of w1 pid) as Hst by (intros; unfold space_of, w2; cbn; by rewrite Esp).
  split_and!; try done.
  - apply (pages_ok_same V [] ∅ w1); try done. apply (ok_next_vp _ _ _ _ Hp1).
  - apply (space_ok_books V w1); [done|done|intros; unfold tab; by rewrite Hst|]. intros pid Hpid.
    unfold tab. rewrite Hst. apply (so_free _ _ Hs1). rewrite Esp. intros Hin. apply Hpid. unfold w2. cbn. set_solver.
  - intros d' [= <-]. split_and!; try done; [|lia]. unfold w2. cbn. set_solver.
Qed.

Lemma fork_maps_inv l dest w n w' : fork_maps l dest w = Ret n w' -> n = 0 \/ n = - ENOMEM.
Proof.
  revert w. induction l as [|m l IH]; intros w H; [injection H as <- _; by left|]. cbn [fork_maps] in H.
  apply bind_ret_inv in H as (o & w1 & _ & H). destruct o as [c|]; [|injection H as <- _; by right].
  apply bind_ret_inv in H as (m' & w2 & _ & H). rewrite bind_modify in H.
  apply bind_ret_inv in H as (ok & w3 & _ & H). destruct (negb ok); [injection H as <- _; by right|].
  apply bind_ret_inv in H as (d & w4 & _ & H). apply bind_ret_inv in H as ([] & w5 & _ & H). by apply IH in H.
Qed.

Lemma fork_result_before src dest w w1 w' : (forall pid a, page_at w1 pid a = page_at w pid a) -> frames w1 = frames w ->
  fork_result src dest w1 w' -> fork_result src dest w w'.
Proof.
  intros Ha Hf [R1 R2 R3 R4]. split; [| | |congruence].
  - intros a. by rewrite R1, Ha.
  - intros a. by rewrite R2, Ha.
  - intros pid a ? ?. by rewrite R3, Ha.
Qed.
Lemma page_at_same w w' : vps w' = vps w -> (forall pid, tab w' pid = tab w pid) -> forall pid a, page_at w' pid a = page_at w pid a.
Proof. intros Hv Ht pid a. unfold page_at. rewrite Ht. apply page_in_same. intros. by rewrite Hv. Qed.

(** The child's space is made and filled. *)
Lemma fork_fill V src dest w l n w1 r w' : pages_ok V [] ∅ w -> space_ok V w -> src <> dest ->
  dest ∈ ra_used (spaces w) -> tab w dest = [] -> fork_maps l dest w = Ret n w1 ->
  (if n =? 0 then fork_pages src dest else mret n) w1 = Ret r w' -> no_share_lost w' ->
  vm_ok w' /\ (0 <= r -> fork_result src dest w w').
Proof.
  intros Hp Hs Hsd Hd Ht H1 H Hsl. pose proof (fork_maps_calm _ _ _ _ _ H1) as Hst.
  pose proof (pages_ok_still _ _ _ _ _ Hp Hst) as Hp1. pose proof (space_ok_still _ _ _ Hs Hst) as Hs1.
  destruct Hst as [_ _ T3 T4 _ _ _ [T7 T8]]. assert (forall pid, tab w1 pid = tab w pid) as Ht1 by (intros; apply T8).
  destruct (fork_maps_inv _ _ _ _ _ H1) as [-> | ->].
  - destruct (fork_pages_ok V w1 src dest r w') as [Hok Hf]; try done; [by rewrite T7|by rewrite Ht1|]. split; [done|].
    intros Hr. destruct Hf as [->|Hf]; [done|]. apply (fork_result_before _ _ _ w1); [by apply page_at_same|done|].
    apply (forked_result V); try done. by rewrite Ht1.
  - injection H as <- <-. split; [by exists V|done].
Qed.

Lemma vm_fork_ok srcpid destpid w r w' : vm_ok w -> vm_fork srcpid destpid w = Ret r w' -> no_share_lost w' ->
  vm_ok w' /\ (0 <= r -> srcpid <> 0 -> fork_result srcpid r w w').
Proof.
  intros Hw H Hsl. unfold vm_fork in H. destruct (_ || _); [by injection H as <- <-|].
  apply bind_ret_inv in H as (pid & w1 & H1 & H). injection H1 as _ <-.
  destruct (_ <? _); [by injection H as <- <-|].
  apply bind_ret_inv in H as (o & w1 & H1 & H).
  assert (w1 = w /\ (o = None \/ (srcpid = 0 /\ o = Some None)
    \/ o = Some (Some (space_of w srcpid)) /\ kip_area (space_of w srcpid) <> 0)) as [-> Ho].
  { destruct (Z.eqb_spec srcpid 0) as [->|Hne]; [injection H1 as <- <-; auto|].
    apply bind_ret_inv in H1 as (s & w2 & H2 & H1). apply space_at_inv in H2 as (-> & -> & _). injection H1 as <- <-.
    split; [done|]. destruct (Z.eqb_spec (kip_area (space_of w srcpid)) 0); auto. }
  destruct o as [src|]; [|by injection H as <- <-].
  apply bind_ret_inv in H as (d & w1 & H2 & H). pose proof Hw as (V & Hp & Hs).
  destruct (alloc_space_inv _ _ _ _ _ Hp Hs H2) as (Hp1 & Hs1 & T3 & T4 & Hsame & Hd).
  destruct d as [d|]; [|injection H as <- <-; split; [by exists V|done]]. destruct (Hd d eq_refl) as (Htd & Hkd & Hud & Hdr).
  assert (forall p, tab w1 p = tab w p) as Ht1 by (intros; unfold tab; by rewrite Hsame).
  unfold space_upd in H. rewrite bind_modify in H.
  match type of H with _ (set_spaces (ra_store _ ?s1 _) _) = _ => destruct (space_store V d s1 w1 Hp1 Hs1 Hud) as (Hp2 & Hs2 & Ht2) end.
  { by rewrite Ht1, Htd. }
  set (w2 := set_spaces _ w1) in *. cbn [spaces] in Hp2. destruct src as [s|]; rewrite bind_modify in H.
  - destruct Ho as [?|[[_ ?]|[[= ->] Hk]]]; try done.
    match type of H with _ (set_spaces (ra_store _ ?s2 _) _) = _ =>
      destruct (space_store V d s2 w2 Hp2 Hs2 Hud) as (Hp3 & Hs3 & Ht3) end; [done|].
    set (w3 := set_spaces _ w2) in *. apply bind_ret_inv in H as (n & w4 & H4 & H).
    apply bind_ret_inv in H as (m & w5 & H5 & H). injection H as <- <-.
    destruct (fork_fill V srcpid d w3 (inorder (maps (space_of w srcpid))) n w4 m w5) as [Hok Hf]; try done.
    + intros ->. by rewrite Hkd in Hk.
    + by rewrite Ht3, Ht2, Ht1.
    + split; [done|]. destruct (Z.ltb_spec m 0); [lia|]. intros _ _.
      apply (fork_result_before _ _ _ w3); [|done|by apply Hf]. apply page_at_same; [done|]. intros p. by rewrite Ht3, Ht2, Ht1.
  - destruct Ho as [?|[[-> _]|[? _]]]; try done. injection H as <- <-. split; [|done].
    match goal with |- vm_ok (set_spaces (ra_store _ ?s2 _) _) =>
      destruct (space_store V d s2 w2 Hp2 Hs2 Hud) as (Hp3 & Hs3 & _) end; [done|]. by exists V.
Qed.
End fork.
