(* ===== verification/VmContentProps.v ===== *)
(** What is in the memory that a fault on a mapping gets: the page of the file from the page
    cache, a copy of it, or zeros; and that only pages which were free are written to. *)
From S2P Require Import Prelude L4 Pages HashUtil Containers Vm VmMaps VmOps VmProps VmPageProps.

(** Memory is in pages of 4096 bytes. *)
Definition frames_ok (w : vm) : Prop := forall n, List.length (frame w n) = Z.to_nat PAGE_SIZE.
(** A page of memory that begins with some bytes *)
Definition page_bytes (bytes : list Z) : list Z :=
  bytes ++ replicate (Z.to_nat (PAGE_SIZE - Z.of_nat (List.length bytes))) 0.

(** The page [n] is not on the free list. *)
Definition not_free (w : vm) (n : Z) : Prop :=
  forall x p, x ∈ lst w page_free_list -> pls w !! x = Some p -> page_num p <> n.
(** Only pages that were free have other contents, and no others are free now. *)
Record free_only (w w' : vm) : Prop := FreeOnly {
  fo_frames n : not_free w n -> frame w' n = frame w n;
  fo_free n : not_free w n -> not_free w' n
}.
#[export] Instance free_only_preorder : PreOrder free_only.
Proof.
  split; [by intros w; split|]. intros w1 w2 w3 [A1 A2] [B1 B2].
  split; intros n Hn; [rewrite B1; auto|auto].
Qed.
Lemma free_only_same w w' : frames w' = frames w -> pls w' = pls w -> lists w' = lists w -> free_only w w'.
Proof. intros E1 E2 E3. split; intros n Hn; [unfold frame; by rewrite E1|]. intros x p. unfold lst. rewrite E2, E3. apply Hn. Qed.

Section contents.
Context `{LA : !L4Abi, VE : !VmEnv, RB : !RbOps}.
#[local] Opaque bob96bitmix hash_cached_page hash_lazy_mmap bucket_of fsid_ino_of int_hash.

(** The fault is served from the page cache directly: pf_mmap_shared(). *)
Definition shared_fault (m : lazy_mmap) (rwx : Z) : bool :=
  has (flags m) MAP_SHARED || (negb (has rwx L4_Writable) && negb (has (flags m) MAP_ANONYMOUS)).
(** The number of a page of a mapping *)
Definition bump_of (m : lazy_mmap) (faddr : Z) : Z := Z.shiftr (u32 (page_of faddr - addr m)) PAGE_BITS.

(** The page cache has the page [n] for a place in the file of a mapping. *)
Definition in_cache (w : vm) (m : lazy_mmap) (bump n : Z) : Prop := exists x p, pls w !! x = Some p /\ page_num p = n
  /\ PL_INO p = ino m /\ PL_FSID p = pidof_NP vm_global (fd_serv m) /\ pl_offset p = u32 (offset m + bump).
(** Bytes that were read from the file at [off]; there are none to read for anonymous memory. *)
Definition loaded (m : lazy_mmap) (off : Z) (bytes : list Z) : Prop :=
  if has (flags m) MAP_ANONYMOUS then bytes = []
  else exists tr, bytes = take (Z.to_nat PAGE_SIZE) (vm_data (VIoRead (fd_serv m) (ino m) PAGE_SIZE off :: tr)).
(** [n] is the cached page, as it was or read in just now. *)
Record cached_page (m : lazy_mmap) (bump off : Z) (w w' : vm) (n : Z) : Prop := CachedPage {
  cp_in : in_cache w' m bump n;
  cp_data : (in_cache w m bump n /\ frame w' n = frame w n)
    \/ exists bytes, loaded m off bytes /\ frame w' n = page_bytes bytes
}.

Lemma read_at_data m n off w r w' : read_at m n off w = Ret r w' -> 0 <= r.1 ->
  exists tr, r.2 = take (Z.to_nat n) (vm_data (VIoRead (fd_serv m) (ino m) n off :: tr)).
Proof.
  unfold read_at. intros ([] & w1 & [_ ->]%assert_inv & (z & w2 & [= <- <-] & H)%bind_ret_inv)%bind_ret_inv Hr.
  destruct (Z.eqb_spec (vm_env (vm_trace w) (VIoRead (fd_serv m) (ino m) n off)) 0); cbn [negb] in H.
  - rewrite bind_get in H. injection H as <- _. by exists (vm_trace w).
  - injection H as <- _. cbn in Hr. destruct (Z.ltb_spec 0 (vm_env (vm_trace w) (VIoRead (fd_serv m) (ino m) n off)));
      [done|lia].
Qed.

Lemma fill_page_data m x off bump w n w' p : fill_page m x off bump w = Ret n w' -> 0 <= n -> pls w !! x = Some p ->
  exists bytes, loaded m off bytes /\ frame w' (page_num p) = page_bytes bytes.
Proof.
  intros H Hn Hp. unfold fill_page in H. apply bind_ret_inv in H as (p0 & w1 & H1 & H).
  apply pl_at_inv in H1 as [-> Hp0]. rewrite Hp in Hp0. injection Hp0 as <-.
  apply bind_ret_inv in H as ([n0 bytes] & w1 & H1 & H). destruct (Z.ltb_spec n0 0) as [Hn0|Hn0].
  { apply bind_ret_inv in H as ([] & w2 & _ & H). apply bind_ret_inv in H as ([] & w3 & _ & H). injection H as -> _. lia. }
  exists bytes. split.
  - unfold loaded. destruct (has _ _); [by injection H1 as _ <- _|]. by apply read_at_data in H1.
  - rewrite bind_get in H. unfold set_frame, clear_tail, set_key in H. rewrite bind_modify, bind_bind, bind_get in H.
    unfold set_frame in H. rewrite !bind_modify in H. apply bind_ret_inv in H as (p' & w2 & H2 & H).
    apply pl_at_inv in H2 as [-> Hp']. apply bind_ret_inv in H as ([] & w2 & [_ ->]%assert_inv & H).
    apply bind_ret_inv in H as ([] & w2 & [_ ->]%assert_inv & H). injection H as _ <-.
    unfold frame. cbn. rewrite !lookup_insert_eq. cbn. rewrite Nat2Z.id, take_app_length. done.
Qed.

Lemma cached_key w m bump c : is_cached w m bump c = true -> exists p, pls w !! c = Some p /\ in_cache w m bump (page_num p).
Proof. intros (p & Hp & _ & H1 & H2 & H3)%is_cached_inv. exists p. split; [done|]. by exists c, p. Qed.

(** What push_cached_page() finds when the free page was filled: the bucket as it was. *)
Lemma pushed_cached V D E w w1 m x off bump n w2 w2' r w3 : pages_ok V D E w -> get_free_pl w = Ret x w1 ->
  fill_page m x off bump w1 = Ret n w2 -> 0 <= n -> w2' = set_pps (pps w2') w2 ->
  push_cached_page (head (lst w (bucket_of (hash_lazy_mmap m bump)))) x w2' = Ret r w3 -> r.1 = - ENOMEM \/ r.1 = 0.
Proof.
  intros Hok Hg Hfill Hn E2 Hpush. apply get_free_pl_inv in Hg as (l & Hl & ->).
  apply fill_page_inv in Hfill as [?|(_ & p & p' & Hp & Hp2 & _ & _ & Ekey & Eoff & _ & _ & (_ & _ & _ & Q4 & _) & _)]; [lia|].
  cbn in Hp, Hp2. assert (pls w2' !! x = Some p') as Hpx by (rewrite E2; cbn; by rewrite Hp2, lookup_insert_eq).
  destruct (hash_lazy_mmap_bucket m bump) as [Hb1 Hb2].
  assert (head (lst w (bucket_of (hash_lazy_mmap m bump))) = head (lst w2' (bucket_of (hash_cached_page (pl_offset p')
      (Z.shiftr (fsid_ino p') 32) (Z.land (fsid_ino p') 0xffffffff))))) as Htop.
  { rewrite (key_bucket m bump p' Ekey Eoff), E2. unfold lst. cbn. rewrite Q4. cbn. by rewrite lookup_insert_ne. }
  destruct (push_cached_page_inv _ _ _ _ _ _ Hpx Htop Hpush) as [?|(q & _ & -> & _)]; [by left|by right].
Qed.
Lemma no_near_miss V D E w w1 m x off bump n w2 w2' c w3 : pages_ok V D E w -> get_free_pl w = Ret x w1 ->
  fill_page m x off bump w1 = Ret n w2 -> 0 <= n -> w2' = set_pps (pps w2') w2 ->
  push_cached_page (head (lst w (bucket_of (hash_lazy_mmap m bump)))) x w2' <> Ret (- EEXIST, c) w3.
Proof. intros H1 H2 H3 H4 H5 H6. by destruct (pushed_cached _ _ _ _ _ _ _ _ _ _ _ _ _ _ H1 H2 H3 H4 H5 H6). Qed.

(** The page at the top of the free list is filled and put into the cache. *)
Lemma cache_filled V D E w w1 m x off bump n w2 w2' r w3 : pages_ok V D E w -> get_free_pl w = Ret x w1 ->
  fill_page m x off bump w1 = Ret n w2 -> 0 <= n -> w2' = set_pps (pps w2') w2 ->
  push_cached_page (head (lst w (bucket_of (hash_lazy_mmap m bump)))) x w2' = Ret r w3 -> r.1 <> - ENOMEM ->
  exists c, pls w3 !! r.2 = Some c /\ r.2 <> x
  /\ cached_page m bump off w (set_pls (delete x (pls w3)) w3) (page_num c)
  /\ free_only w (set_pls (delete x (pls w3)) w3).
Proof.
  intros Hok Hg Hfill Hn E2 Hpush Hr. pose proof Hg as Hg'. apply get_free_pl_inv in Hg' as (l & Hl & ->).
  pose proof Hfill as Hfill'.
  apply fill_page_inv in Hfill' as [?|(_ & p & p' & Hp & Hp2 & Enum & Est & Ekey & Eoff & Eino & Efs & Q & Hfr)]; [lia|].
  destruct (fill_page_data _ _ _ _ _ _ _ p Hfill Hn Hp) as (bytes & Hb & Hfb).
  destruct Q as (Q1 & Q2 & Q3 & Q4 & Q5 & Q6 & Q7). cbn in Hp, Hp2, Q6.
  assert (pls w2' !! x = Some p') as Hpx by (rewrite E2; cbn; by rewrite Hp2, lookup_insert_eq).
  assert (frames w2' = frames w2) as Ef2 by by rewrite E2.
  destruct (hash_lazy_mmap_bucket m bump) as [Hb1 Hb2].
  pose proof (ok_next_pl _ _ _ _ Hok _ _ Hp) as Hxn.
  assert (head (lst w (bucket_of (hash_lazy_mmap m bump))) = head (lst w2' (bucket_of (hash_cached_page (pl_offset p')
      (Z.shiftr (fsid_ino p') 32) (Z.land (fsid_ino p') 0xffffffff))))) as Htop.
  { rewrite (key_bucket m bump p' Ekey Eoff), E2. unfold lst. cbn. rewrite Q4. cbn. by rewrite lookup_insert_ne. }
  destruct (push_cached_page_inv _ _ _ _ _ _ Hpx Htop Hpush) as [?|(q & Hq & -> & Hw3)]; [contradiction|].
  cbv zeta in Hw3. rewrite (key_bucket m bump p' Ekey Eoff) in Hw3. cbn [fst snd] in *.
  assert (next_ptr w2' = next_ptr w) as En by by rewrite E2.
  rewrite En, Enum in *. set (nl := next_ptr w) in *. set (b := bucket_of _) in *.
  set (pc := Pl (page_num p) 1 (fsid_ino p') (pl_offset p')) in *.
  assert (pls w3 = <[nl := pc]> (pls w2')) as Hpls3 by by rewrite Hw3.
  assert (frames w3 = frames w2) as Hf3 by by rewrite Hw3; cbn; rewrite Ef2.
  assert (lst w3 page_free_list = l) as Hl3.
  { rewrite Hw3. unfold lst at 1. cbn. rewrite lookup_insert_ne by done. rewrite E2. cbn. rewrite Q4. cbn. by rewrite lookup_insert_eq. }
  exists pc. split; [by rewrite Hpls3, lookup_insert_eq|]. split; [unfold nl; lia|].
  assert (forall y, y <> x -> y <> nl -> pls w3 !! y = pls w !! y) as Hold.
  { intros y H1 H2. rewrite Hpls3, lookup_insert_ne by done. rewrite E2. cbn. by rewrite Hp2, lookup_insert_ne. }
  split; [split|split].
  - exists nl, pc. cbn. rewrite lookup_delete_ne by (unfold nl; lia). rewrite Hpls3, lookup_insert_eq.
    split; [done|]. split; [done|]. split; [by rewrite <- Eino|]. split; [by rewrite <- Efs|done].
  - right. exists bytes. split; [done|]. unfold frame in *. cbn. by rewrite Hf3.
  - intros k Hk. unfold frame in *. cbn. rewrite Hf3. apply (Hfr k). intros ->. apply (Hk x p); [rewrite Hl; by left|done|done].
  - intros k Hk y py Hy. unfold lst in Hy. cbn in Hy. fold (lst w3 page_free_list) in Hy. rewrite Hl3 in Hy. cbn.
    assert (y ∈ lst w page_free_list) as Hyf by (rewrite Hl; by right).
    assert (y <> x) as Hyx. { intros ->. pose proof (ok_nodup _ _ _ _ Hok page_free_list) as Hnd. rewrite Hl in Hnd. by inversion Hnd. }
    rewrite lookup_delete_ne by done. destruct (ok_listed _ _ _ _ Hok _ _ Hyf) as (py' & Hpy' & _).
    pose proof (ok_next_pl _ _ _ _ Hok _ _ Hpy'). rewrite Hold by (unfold nl; lia). by apply Hk.
Qed.

(** The mapped page of the file, from the page cache: pf_mmap_shared() and
    fetch_cached_page() compute where to read it from in different ways. *)
Definition shared_offset (m : lazy_mmap) (faddr : Z) : Z := u32 (offset m * PAGE_SIZE + (page_of faddr - addr m)).
Definition private_offset (m : lazy_mmap) (bump : Z) : Z := u32 (u32 (offset m + bump) * PAGE_SIZE).

Lemma cached_for_page V D E w m faddr n c w' : pages_ok V D E w -> cached_for m faddr w = Ret (n, c) w' -> 0 <= n ->
  exists p, pls w' !! c = Some p /\ free_only w w'
    /\ cached_page m (bump_of m faddr) (shared_offset m faddr) w w' (page_num p).
Proof.
  intros Hok Hrun Hn. unfold cached_for in Hrun. cbv zeta in Hrun. fold (bump_of m faddr) (shared_offset m faddr) in Hrun.
  apply bind_ret_inv in Hrun as ([top [c'|]] & w1 & H1 & H).
  { injection H as _ <- <-. apply find_cached_page_inv in H1 as (-> & _ & Hc). destruct (Hc c' eq_refl) as [_ His].
    destruct (cached_key _ _ _ _ His) as (p & Hp & Hin). exists p. split; [exact Hp|]. split; [reflexivity|]. split; [exact Hin|by left]. }
  apply find_cached_page_inv in H1 as (-> & Htop & _). cbn in Htop. subst top.
  apply bind_ret_inv in H as (x & w1 & Hg & H). apply bind_ret_inv in H as (k & w2 & Hf & H).
  destruct (Z.ltb_spec k 0) as [Hk|Hk]; [injection H as <- _ _; lia|].
  apply bind_ret_inv in H as ([r c'] & w3 & Hp & H). destruct (Z.eqb_spec r 0) as [->|Hr].
  - rewrite bind_mret in H. apply bind_ret_inv in H as ([] & w4 & H4 & H). apply free_pl_inv in H4 as ->.
    injection H as _ <- <-.
    destruct (cache_filled _ _ _ _ _ _ _ _ _ _ _ w2 _ _ Hok Hg Hf Hk ltac:(by destruct w2) Hp ltac:(done)) as (p & Hpc & Hne & Hcp & Hfo).
    exists p. cbn. by rewrite lookup_delete_ne.
  - rewrite bind_bind in H. apply bind_ret_inv in H as ([] & w4 & [Ha%Z.eqb_eq ->]%assert_inv & H). subst r.
    apply bind_ret_inv in H as ([] & w4 & H4 & H). apply bind_ret_inv in H as ([] & w5 & H5 & H). injection H as _ <- <-.
    exfalso. by apply (no_near_miss _ _ _ _ _ _ _ _ _ _ _ w2 _ _ Hok Hg Hf Hk ltac:(by destruct w2) Hp).
Qed.

Lemma fetch_cached_page_page V D E w m bump v n c w' : pages_ok V D E w -> fetch_cached_page m bump v w = Ret (n, c) w' -> 0 <= n ->
  exists p, pls w' !! c = Some p /\ free_only w w' /\ cached_page m bump (private_offset m bump) w w' (page_num p).
Proof.
  intros Hok Hrun Hn. unfold fetch_cached_page in Hrun. fold (private_offset m bump) in Hrun.
  apply bind_ret_inv in Hrun as ([top [c'|]] & w1 & H1 & H).
  { injection H as _ <- <-. apply find_cached_page_inv in H1 as (-> & _ & Hc). destruct (Hc c' eq_refl) as [_ His].
    destruct (cached_key _ _ _ _ His) as (p & Hp & Hin). exists p. split; [exact Hp|]. split; [reflexivity|]. split; [exact Hin|by left]. }
  apply find_cached_page_inv in H1 as (-> & Htop & _). cbn in Htop. subst top.
  apply bind_ret_inv in H as (x & w1 & Hg & H). apply bind_ret_inv in H as (k & w2 & Hf & H).
  destruct (Z.ltb_spec k 0) as [Hk|Hk]; [injection H as <- _ _; lia|].
  apply bind_ret_inv in H as (l & w3 & H1 & H). apply pl_at_inv in H1 as [-> Hl].
  apply bind_ret_inv in H as (q2 & w3 & H1 & H). apply pl2pp_inv in H1 as (-> & _).
  unfold set_owner in H. rewrite bind_modify in H. set (w2' := set_pps _ w2) in *.
  apply bind_ret_inv in H as ([r c'] & w3 & Hp & H). destruct (Z.eqb_spec r 0) as [->|Hr].
  - rewrite bind_bind in H. apply bind_ret_inv in H as (q3 & w4 & H1 & H). apply pl2pp_inv in H1 as (-> & _).
    rewrite bind_bind in H. apply bind_ret_inv in H as ([] & w4 & [_ ->]%assert_inv & H).
    rewrite bind_mret in H. apply bind_ret_inv in H as ([] & w4 & H4 & H). apply free_pl_inv in H4 as ->.
    injection H as _ <- <-.
    destruct (cache_filled _ _ _ _ _ _ _ _ _ _ _ w2' _ _ Hok Hg Hf Hk ltac:(done) Hp ltac:(done)) as (p & Hpc & Hne & Hcp & Hfo).
    exists p. cbn. by rewrite lookup_delete_ne.
  - exfalso. rewrite bind_bind in H. apply bind_ret_inv in H as ([] & w4 & [Ha%Z.eqb_eq ->]%assert_inv & H). subst r.
    by apply (no_near_miss _ _ _ _ _ _ _ _ _ _ _ w2' _ _ Hok Hg Hf Hk ltac:(done) Hp).
Qed.

(** *** A free page is written to and put to use *)

Record claimed (x n : Z) (bytes : list Z) (w1 w2 : vm) : Prop := Claimed {
  ca_pls : exists p', pls w2 = delete x (<[next_ptr w1 := p']> (pls w1));
  ca_free : lst w1 page_free_list = x :: lst w2 page_free_list;
  ca_num : exists px, pls w1 !! x = Some px /\ page_num px = n;
  ca_frames : frames w2 = <[n := bytes]> (frames w1)
}.

Lemma claimed_free V D E w w1 w2 x n bytes : pages_ok V D E w -> pls w = pls w1 -> lists w = lists w1 -> next_ptr w = next_ptr w1 ->
  claimed x n bytes w1 w2 -> free_only w1 w2.
Proof.
  intros Hok Epls El En [(p' & E1) E2 (px & Hpx & <-) E4]. split.
  - intros k Hk. unfold frame. rewrite E4, lookup_insert_ne; [done|]. intros <-. apply (Hk x px); [rewrite E2; by left|done|done].
  - intros k Hk y py Hy Hpy. rewrite E1 in Hpy. apply lookup_delete_Some in Hpy as [_ Hpy].
    assert (y ∈ lst w1 page_free_list) as Hyf by (rewrite E2; by right).
    destruct (ok_listed _ _ _ _ Hok page_free_list y) as (py' & Hpy' & _); [unfold lst; by rewrite El|].
    pose proof (ok_next_pl _ _ _ _ Hok _ _ Hpy'). rewrite lookup_insert_ne in Hpy by lia. by apply (Hk y py).
Qed.

(** Another page keeps its place in the cache. *)
Lemma claimed_cached V D E w w1 w2 x n bytes m bump off w0 c : pages_ok V D E w -> pls w = pls w1 -> next_ptr w = next_ptr w1 ->
  claimed x n bytes w1 w2 -> c <> n -> cached_page m bump off w0 w1 c ->
  cached_page m bump off w0 w2 c /\ frame w2 c = frame w1 c /\ frame w2 n = bytes.
Proof.
  intros Hok Epls En [(p' & E1) E2 (px & Hpx & <-) E4] Hc [(y & p & Hp & Enum & Hk) Hd].
  assert (frame w2 c = frame w1 c) as Hfc by (unfold frame; by rewrite E4, lookup_insert_ne).
  split; [split|split; [done|]].
  - exists y, p. split; [|done]. rewrite E1. assert (pls w !! y = Some p) as Hp' by by rewrite Epls.
    pose proof (ok_next_pl _ _ _ _ Hok _ _ Hp'). rewrite lookup_delete_ne by congruence.
    by rewrite lookup_insert_ne by lia.
  - rewrite Hfc. exact Hd.
  - unfold frame. by rewrite E4, lookup_insert_eq.
Qed.

(** A page of the cache is not free. *)
Lemma cached_not_free V D E w c p x px : pages_ok V D E w -> cached_in w c -> pls w !! c = Some p ->
  x ∈ lst w page_free_list -> pls w !! x = Some px -> page_num p <> page_num px.
Proof.
  intros Hok Hc Hp Hx Hpx En. destruct (cached_link _ _ _ _ _ _ Hok Hc Hp) as (q & Hq & Hl & Hnf & _).
  destruct (ok_page_of _ _ _ _ _ _ _ Hok Hx Hpx (ok_free_live _ _ _ _ _ _ Hok Hx Hpx)) as (q' & Hq' & Hl').
  rewrite <- En, Hq in Hq'. injection Hq' as <-. congruence.
Qed.

(** The first [k] bytes of the page [c], and zeros *)
Definition head_of (w : vm) (c k : Z) : list Z :=
  take (Z.to_nat k) (frame w c) ++ replicate (Z.to_nat (PAGE_SIZE - k)) 0.
(** What is in the page [n] that a fault on the mapping got *)
Definition mapped_page (m : lazy_mmap) (faddr rwx n : Z) (w w' : vm) : Prop :=
  if shared_fault m rwx then
    exists c, cached_page m (bump_of m faddr) (shared_offset m faddr) w w' c
      /\ if is_tail m faddr then frame w' n = head_of w' c (tailsz m) else n = c
  else if has (flags m) MAP_ANONYMOUS then frame w' n = replicate (Z.to_nat PAGE_SIZE) 0
  else
    exists c, cached_page m (bump_of m faddr) (private_offset m (bump_of m faddr)) w w' c
      /\ frame w' n = if is_tail m faddr then head_of w' c (tailsz m) else frame w' c.

Lemma cached_page_same m bump off w w1 w2 c : pls w2 = pls w1 -> frames w2 = frames w1 ->
  cached_page m bump off w w1 c -> cached_page m bump off w w2 c.
Proof.
  intros E1 E2 [(x & p & Hp & H1) H2]. split; [exists x, p; by rewrite E1|]. unfold frame in *. by rewrite E2.
Qed.
Lemma mapped_page_same m faddr rwx n w w1 w2 : pls w2 = pls w1 -> frames w2 = frames w1 ->
  mapped_page m faddr rwx n w w1 -> mapped_page m faddr rwx n w w2.
Proof.
  intros E1 E2 H. assert (forall k, frame w2 k = frame w1 k) as Ef by (intros; unfold frame; by rewrite E2).
  unfold mapped_page, head_of in *. destruct (shared_fault m rwx); [|destruct (has _ _); [by rewrite Ef|]];
    destruct H as (c & Hc & H); exists c; (split; [by apply (cached_page_same _ _ _ _ w1)|]);
    destruct (is_tail m faddr); by rewrite ?Ef.
Qed.

Lemma mapped_page_from m faddr rwx n w0 w w1 : pls w0 = pls w -> frames w0 = frames w ->
  mapped_page m faddr rwx n w w1 -> mapped_page m faddr rwx n w0 w1.
Proof.
  intros E1 E2. assert (forall off bump c, cached_page m bump off w w1 c -> cached_page m bump off w0 w1 c) as Hc.
  { intros off bump c [H1 H2]. split; [done|]. unfold in_cache, frame in *. by rewrite E1, E2. }
  unfold mapped_page. destruct (shared_fault m rwx); [|destruct (has _ _); [done|]]; intros (c & H1 & H2); exists c; auto.
Qed.

(** Copying the head of a page into a free one leaves just that there. *)
Lemma copied_head w c n k : List.length (frame w c) = Z.to_nat PAGE_SIZE -> k <= PAGE_SIZE ->
  take (Z.to_nat k) (take (Z.to_nat k) (frame w c) ++ drop (Z.to_nat k) (frame w n)) ++ replicate (Z.to_nat (PAGE_SIZE - k)) 0
  = head_of w c k.
Proof. intros Hl Hk. unfold head_of. by rewrite take_app_le, take_take, Nat.min_id by (rewrite length_take; lia). Qed.
Lemma copied_page w c n : frames_ok w -> take (Z.to_nat PAGE_SIZE) (frame w c) ++ drop (Z.to_nat PAGE_SIZE) (frame w n) = frame w c.
Proof. intros Hf. by rewrite take_ge, drop_ge, app_nil_r by by rewrite Hf. Qed.
Lemma is_tail_bound m faddr : is_tail m faddr = true -> tailsz m <= PAGE_SIZE.
Proof. unfold is_tail. rewrite andb_true_iff, Z.ltb_lt. lia. Qed.

Lemma push_active_claimed x w w1 l px bytes : lst w page_free_list = x :: l -> pls w !! x = Some px -> x < next_ptr w ->
  forall w0, lists w0 = <[page_free_list := l]> (lists w) -> pls w0 = pls w -> next_ptr w0 = next_ptr w ->
  frames w0 = <[page_num px := bytes]> (frames w) ->
  (_ ← push_page page_active_list x; free_pl x) w0 = Ret tt w1 -> claimed x (page_num px) bytes w w1.
Proof.
  intros Hl Hpx Hx w0 El Ep En Ef ([] & w2 & H1 & H2)%bind_ret_inv. apply push_page_inv in H1 as (o & q' & Ho & Hq' & ->).
  apply free_pl_inv in H2 as ->. split; cbn.
  - rewrite Ep, En. by eexists.
  - unfold lst at 2. cbn. rewrite El, lookup_insert_ne, lookup_insert_eq by done. exact Hl.
  - by exists px.
  - done.
Qed.

(** *** The ways to make a page *)

Lemma cached_page_length m bump off w w1 c : frames_ok w -> cached_page m bump off w w1 c ->
  List.length (frame w1 c) = Z.to_nat PAGE_SIZE.
Proof.
  intros Hf [_ [[_ ->]|(bytes & Hb & ->)]]; [apply Hf|]. unfold page_bytes. rewrite length_app, length_replicate.
  assert (List.length bytes <= Z.to_nat PAGE_SIZE)%nat; [|unfold PAGE_SIZE in *; lia].
  unfold loaded in Hb. destruct (has _ _); [subst; cbn; lia|]. destruct Hb as [tr ->]. rewrite length_take. lia.
Qed.
Lemma frame_put n b f w : frame (set_frames (<[n := b]> f) w) n = b.
Proof. unfold frame. cbn. by rewrite lookup_insert_eq. Qed.
Lemma frame_lists x w n : frame (set_lists x w) n = frame w n. Proof. done. Qed.
Lemma add_share_calm n v w b w' : add_share n v w = Ret b w' -> pls w' = pls w /\ frames w' = frames w /\ lists w' = lists w.
Proof.
  unfold add_share. intros ([] & w1 & [_ ->]%assert_inv & (q & w2 & (-> & _)%get_pp_inv & H)%bind_ret_inv)%bind_ret_inv.
  destruct (owner q); [|unfold set_owner in H; rewrite bind_modify in H; by injection H as _ <-].
  apply bind_ret_inv in H as (p & w3 & [-> _]%vp_at_inv & H). unfold hash_vp_by_phys in H. rewrite bind_bind in H.
  apply bind_ret_inv in H as ([] & w4 & [_ ->]%assert_inv & H). rewrite bind_mret, bind_get in H.
  apply bind_ret_inv in H as ([ok t] & w5 & [-> _]%htable_add_inv & H). rewrite bind_modify in H. by injection H as _ <-.
Qed.

Lemma pf_mmap_shared_page V w v m faddr rwx k n w' : pages_ok V [] ∅ w -> frames_ok w -> shared_fault m rwx = true ->
  pf_mmap_shared v m faddr w = Ret (k, n) w' -> 0 <= k -> mapped_page m faddr rwx n w w' /\ free_only w w'.
Proof.
  intros Hok Hf Hsh Hrun Hk. unfold mapped_page. rewrite Hsh. unfold pf_mmap_shared in Hrun.
  apply bind_ret_inv in Hrun as ([n1 c] & w1 & H1 & H).
  destruct (Z.ltb_spec n1 0) as [Hn1|Hn1]; [injection H as <- _ _; lia|].
  destruct (cached_for_ok _ _ _ _ _ _ _ _ _ Hok H1 Hn1) as (Hok1 & Hc & _).
  destruct (cached_for_page _ _ _ _ _ _ _ _ _ Hok H1 Hn1) as (p & Hp & Hfo & Hcp).
  apply bind_ret_inv in H as (p0 & w2 & H2 & H). apply pl_at_inv in H2 as [-> Hp0]. rewrite Hp in Hp0. injection Hp0 as <-.
  destruct (is_tail m faddr) eqn:Et.
  - apply bind_ret_inv in H as (x & w2 & H2 & H). apply get_free_pl_inv in H2 as (l & Hl & ->).
    apply bind_ret_inv in H as (px & w2 & H2 & H). apply pl_at_inv in H2 as [-> Hpx]. cbn in Hpx.
    unfold copy_page, clear_tail, set_frame, vp_upd, set_owner in H.
    rewrite bind_bind, bind_get, bind_modify, bind_bind, bind_get, bind_modify, bind_modify in H.
    apply bind_ret_inv in H as (q & w2 & H2 & H). apply get_pp_inv in H2 as (-> & _ & _).
    rewrite bind_modify in H. rewrite <- bind_bind in H. apply bind_ret_inv in H as ([] & w2 & H2 & H).
    apply bind_ret_inv in H as (pv2 & w3 & H3 & H). apply vp_at_inv in H3 as [-> Hpv2].
    apply bind_ret_inv in H as ([] & w3 & [_ ->]%assert_inv & H).
    apply bind_ret_inv in H as ([] & w3 & [_ ->]%assert_inv & H). injection H as _ <- <-.
    eapply (push_active_claimed x w1 w2 l px) in H2 as Hcl; try done;
      [|by apply (ok_next_pl _ _ _ _ Hok1 _ px)|cbn; by rewrite insert_insert_eq].
    rewrite frame_put, !frame_lists in Hcl. rewrite (copied_head w1 (page_num p) (page_num px) (tailsz m)) in Hcl;
      [|exact (cached_page_length _ _ _ _ _ _ Hf Hcp)|by apply (is_tail_bound m faddr)].
    assert (page_num p <> page_num px) as Hne.
    { apply (cached_not_free V [] ∅ w1 c p x px); try done. rewrite Hl. by left. }
    destruct (claimed_cached _ _ _ w1 w1 w2 _ _ _ _ _ _ w (page_num p) Hok1 eq_refl eq_refl Hcl Hne Hcp) as (C1 & C2 & C3).
    split; [|etrans; [exact Hfo|by eapply (claimed_free V [] ∅ w1 w1 w2 x)]].
    exists (page_num p). split; [done|]. rewrite C3. unfold head_of. by rewrite C2.
  - unfold vp_upd in H. rewrite bind_modify in H. apply bind_ret_inv in H as (b & w2 & H2 & H).
    apply add_share_calm in H2 as (E1 & E2 & E3). cbn in E1, E2, E3. rewrite bind_modify in H. injection H as _ <- <-.
    split; [|etrans; [exact Hfo|by apply free_only_same]]. exists (page_num p). split; [|done].
    by apply (cached_page_same _ _ _ _ w1).
Qed.

Lemma disowned_same w c b : let wd := if b =? 1 then disowned w c else w in
  pls wd = pls w /\ lists wd = lists w /\ next_ptr wd = next_ptr w /\ (cached_in w c -> cached_in wd c).
Proof. unfold disowned. destruct (b =? 1); [|done]. by destruct (pls w !! c). Qed.
(** What pf_mmap_private() puts into the page: the head of the one in the cache, or all of it *)
Definition private_bytes (w : vm) (m : lazy_mmap) (faddr c : Z) : list Z :=
  if is_tail m faddr then head_of w c (tailsz m) else frame w c.

Lemma copied_private w m faddr c n l u w' : List.length (frame w c) = Z.to_nat PAGE_SIZE ->
  (if is_tail m faddr then
     _ ← copy_page n c (tailsz m); clear_tail n (tailsz m)
   else copy_page n c PAGE_SIZE) (set_lists l w) = Ret u w' ->
  exists bytes, frames w' = <[n := bytes]> (frames w)
    /\ (List.length bytes = Z.to_nat PAGE_SIZE -> bytes = private_bytes w m faddr c)
    /\ pls w' = pls w /\ lists w' = l /\ next_ptr w' = next_ptr w.
Proof.
  intros Hl. unfold private_bytes. destruct (is_tail m faddr) eqn:Et; unfold copy_page, clear_tail, set_frame; intros H.
  - rewrite bind_bind, bind_get, bind_modify, bind_get in H. injection H as _ <-. rewrite frame_put, !frame_lists.
    rewrite copied_head by (done || by apply (is_tail_bound m faddr)). cbn. rewrite insert_insert_eq.
    by eexists.
  - rewrite bind_get in H. injection H as _ <-. rewrite !frame_lists. eexists. split; [done|].
    assert (forall t, take (Z.to_nat PAGE_SIZE) (take (Z.to_nat PAGE_SIZE) (frame w c) ++ t) = frame w c) as Ht.
    { intros t. rewrite (take_ge (frame w c)) by lia. by rewrite take_app_length' by done. }
    split; [|done]. intros E. etrans; [symmetry; apply take_ge; by rewrite E|apply Ht].
Qed.

Lemma pf_mmap_private_page V w v m faddr rwx k n w' : pages_ok V [] ∅ w -> v ∉ V -> frames_ok w -> frames_ok w' ->
  shared_fault m rwx = false -> has (flags m) MAP_ANONYMOUS = false ->
  pf_mmap_private v m faddr rwx w = Ret (k, n) w' -> 0 <= k -> mapped_page m faddr rwx n w w' /\ free_only w w'.
Proof.
  intros Hok HvV Hf Hf' Hsh Ha Hrun Hk. unfold mapped_page. rewrite Hsh, Ha. unfold pf_mmap_private in Hrun.
  apply bind_ret_inv in Hrun as ([] & w1 & [_ ->]%assert_inv & H).
  fold (bump_of m faddr) in H. apply bind_ret_inv in H as ([n1 c] & w1 & H1 & H).
  destruct (Z.ltb_spec n1 0) as [Hn1|Hn1]; [injection H as <- _ _; lia|].
  destruct (fetch_cached_page_ok _ _ _ _ _ _ _ _ _ _ Hok HvV H1 Hn1) as (Hok1 & Hc & _).
  destruct (fetch_cached_page_page _ _ _ _ _ _ _ _ _ _ Hok H1 Hn1) as (p & Hp & Hfo & Hcp).
  destruct (disowned_same w1 c n1) as (D1 & D2 & D3 & D4). set (wd := if n1 =? 1 then _ else _) in *.
  apply bind_ret_inv in H as (p0 & w2 & H2 & H). apply pl_at_inv in H2 as [-> Hp0]. rewrite Hp in Hp0. injection Hp0 as <-.
  apply bind_ret_inv in H as (x & w2 & H2 & H). apply get_free_pl_inv in H2 as (l & Hl & ->).
  apply bind_ret_inv in H as (px & w2 & H2 & H). apply pl_at_inv in H2 as [-> Hpx]. cbn in Hpx.
  apply bind_ret_inv in H as ([] & w2 & H2 & H).
  destruct (copied_private _ _ _ _ _ _ _ _ (cached_page_length _ _ _ _ _ _ Hf Hcp) H2) as (bytes & B1 & B2 & B3 & B4 & B5).
  apply bind_ret_inv in H as (q & w3 & H3 & H). apply pl2pp_inv in H3 as (-> & _).
  unfold set_owner in H. rewrite bind_modify, <- bind_bind in H. apply bind_ret_inv in H as ([] & w3 & H3 & H).
  assert (x < next_ptr w1) as Hxn by (rewrite <- D3; apply (ok_next_pl _ _ _ _ Hok1 _ px); by rewrite D1).
  eapply (push_active_claimed x w1 w3 l px bytes) in H3 as Hcl; try done.
  unfold vp_upd in H. rewrite bind_modify in H.
  apply bind_ret_inv in H as (pv2 & w4 & H4 & H). apply vp_at_inv in H4 as [-> Hpv2].
  apply bind_ret_inv in H as ([] & w4 & [_ ->]%assert_inv & H).
  apply bind_ret_inv in H as ([] & w4 & [_ ->]%assert_inv & H).
  apply bind_ret_inv in H as ([] & w4 & H4 & H). injection H as _ <- <-.
  assert (pls w4 = pls w3 /\ frames w4 = frames w3 /\ lists w4 = lists w3) as (E1 & E2 & E3).
  { destruct (n1 =? 1); cbn [when_] in H4; [|by injection H4 as <-].
    apply bind_ret_inv in H4 as (qc & w5 & H5 & H4). apply pl2pp_inv in H5 as (-> & _).
    rewrite bind_modify in H4. by apply assert_inv in H4 as [_ ->]. }
  assert (page_num p <> page_num px) as Hne.
  { apply (cached_not_free V [] ∅ wd c p x px); try done; [by apply D4|by rewrite D1| |by rewrite D1].
    unfold lst in *. rewrite D2, Hl. by left. }
  destruct (claimed_cached _ _ _ wd w1 w3 _ _ _ _ _ _ w (page_num p) Hok1 D1 D3 Hcl Hne Hcp) as (C1 & C2 & C3).
  split; [|etrans; [exact Hfo|]; transitivity w3; [by eapply (claimed_free V [] ∅ wd w1 w3 x)|by apply free_only_same]].
  exists (page_num p). split; [by apply (cached_page_same _ _ _ _ w3)|].
  assert (forall i, frame w4 i = frame w3 i) as Ef by (intros; unfold frame; by rewrite E2).
  unfold head_of. rewrite !Ef, C2, C3. apply B2. rewrite <- C3, <- Ef. apply Hf'.
Qed.

(** What a page gets that is made for a fault on the mapping [m]: pf_fill(). *)
Lemma pf_fill_page V w v m faddr rwx n w' : pages_ok V [] ∅ w -> v ∉ V -> frames_ok w -> frames_ok w' ->
  pf_fill v m faddr rwx w = Ret n w' -> mapped_page m faddr rwx n w w' /\ free_only w w'.
Proof.
  intros Hok HvV Hf Hf' H. unfold pf_fill in H. fold (shared_fault m rwx) in H. destruct (shared_fault m rwx) eqn:Hsh.
  - apply bind_ret_inv in H as ([k page] & w1 & H1 & H). destruct (Z.eqb_spec k 0) as [->|]; [|done]. cbn [negb] in H.
    destruct (pf_mmap_shared_page V w v m faddr rwx 0 page w1 Hok Hf Hsh H1 ltac:(done)) as [Hm Hfo].
    apply bind_ret_inv in H as (p & w2 & H2 & H). apply vp_at_inv in H2 as [-> _].
    apply bind_ret_inv in H as ([] & w2 & H2 & H). injection H as <- <-.
    assert (pls w2 = pls w1 /\ frames w2 = frames w1 /\ lists w2 = lists w1) as (E1 & E2 & E3).
    { destruct (_ && _); by injection H2 as <-. }
    split; [by apply (mapped_page_same _ _ _ _ _ w1)|]. transitivity w1; [done|by apply free_only_same].
  - destruct (has (flags m) MAP_ANONYMOUS) eqn:Ha.
    + unfold mapped_page. rewrite Hsh, Ha. apply bind_ret_inv in H as (x & w1 & H1 & H).
      apply get_free_pl_inv in H1 as (l & Hl & ->). apply bind_ret_inv in H as (px & w1 & H1 & H).
      apply pl_at_inv in H1 as [-> Hpx]. cbn in Hpx. unfold clear_tail, set_frame in H.
      rewrite bind_bind, bind_get, bind_modify in H. apply bind_ret_inv in H as (q & w1 & H1 & H).
      apply pl2pp_inv in H1 as (-> & _). unfold set_owner in H. rewrite bind_modify, <- bind_bind in H.
      apply bind_ret_inv in H as ([] & w1 & H1 & H).
      eapply (push_active_claimed x w w1 l px (replicate (Z.to_nat PAGE_SIZE) 0)) in H1 as Hcl; try done.
      2: by apply (ok_next_pl _ _ _ _ Hok _ px).
      unfold vp_upd in H. rewrite bind_modify in H. injection H as <- <-. split.
      * unfold frame. cbn. by rewrite (ca_frames _ _ _ _ _ Hcl), lookup_insert_eq.
      * transitivity w1; [by eapply (claimed_free V [] ∅ w w w1 x)|by apply free_only_same].
    + apply bind_ret_inv in H as ([k page] & w1 & H1 & H). destruct (Z.eqb_spec k 0) as [->|]; [|done]. cbn [negb] in H.
      injection H as <- <-. by apply (pf_mmap_private_page V w v m faddr rwx 0).
Qed.

(** *** How the page may be accessed *)

(** A read fault on memory that may be written to gets a page for copying on write,
    when it comes from pf_mmap_shared(). *)
Definition for_copying (m : lazy_mmap) (rwx rights : Z) : bool :=
  shared_fault m rwx && negb (has rwx L4_Writable) && has rights L4_Writable.
Definition given_rights (cow : bool) (rights : Z) : Z := if cow then clear_bits rights L4_Writable else rights.
End contents.
