(* ===== verification/VmFaultProps.v ===== *)
(** Page faults and uploaded pages in vm, and the invariant of every reachable state. *)
From S2P Require Import Prelude L4 Pages HashUtil Containers Vm VmMaps VmOps VmProps VmPageProps VmSpaceProps VmTraceProps VmForkProps VmContentProps.

Section faults.
Context `{LA : !L4Abi, VE : !VmEnv, RB : !RbOps}.
#[local] Opaque bob96bitmix hash_cached_page hash_lazy_mmap bucket_of fsid_ino_of int_hash.

(** ** A new page *)

(** Memory was found for the new virtual page [v]: the page [n], to be copied on write or not. *)
Record filled (V : gset Z) (v : Z) (pv : vp) (cow : bool) (n : Z) (w w' : vm) : Prop := Filled {
  fl_ok : pages_ok ({[v]} ∪ V) [] ∅ w';
  fl_vp : exists pv', vps w' !! v = Some pv' /\ page_of (vaddr pv') = page_of (vaddr pv) /\ status pv' = n
    /\ VP_IS_COW pv' = cow /\ VP_RIGHTS pv' = given_rights cow (VP_RIGHTS pv);
  fl_vps u : u <> v -> vps w' !! u = vps w !! u;
  fl_rest : rest w' = rest w
}.

Lemma made_filled V v pv f n w w' : f = VPF_ANON \/ f = VPF_SHARED -> plain pv -> made V v pv f n w w' ->
  filled V v pv false n w w'.
Proof.
  intros Hf (_ & _ & Hc) [M1 (pv' & M2 & M3 & M4) M5 M6]. split; try done. exists pv'.
  unfold VP_IS_COW, VP_RIGHTS in *. rewrite M3, has_lor, Hc, Z.land_lor_distr_l.
  destruct Hf as [-> | ->]; rewrite page_of_lor by done; (do 4 (split; [done|]); apply Z.lor_0_r).
Qed.

(** Setting the page again does not change it. *)
Lemma filled_again V v pv b n w w' : filled V v pv b n w w' -> set_vps (alter (set_page n) v (vps w')) w' = w'.
Proof.
  intros [_ (pv' & Hv & _ & Hs & _) _ _]. rewrite (alter_is_insert _ _ _ pv') by done.
  assert (set_page n pv' = pv') as -> by (destruct pv'; cbn in *; by rewrite <- Hs).
  rewrite insert_id by done. by destruct w'.
Qed.

Lemma make_cow_rights v : VP_RIGHTS (make_cow v) = clear_bits (VP_RIGHTS v) L4_Writable.
Proof.
  unfold VP_RIGHTS, make_cow, clear_bits. cbn [vaddr set_vaddr]. rewrite !Z.land_lor_distr_l.
  rewrite <- !Z.land_assoc, (Z.land_comm (bnot32 _) 7), !Z.land_assoc. change (Z.land VPF_COW 7) with 0. apply Z.lor_0_r.
Qed.
(** A read fault on a writable mapping of a file maps the page for copying on write. *)
Lemma filled_cow V v pv n w w' : filled V v pv false n w w' -> v ∉ V ->
  filled V v pv true n w (set_vps (alter make_cow v (vps w')) w').
Proof.
  intros [F1 (pv' & F2 & F3 & F4 & _ & F8) F5 F6] HvV. rewrite (alter_is_insert _ _ _ pv') by done.
  destruct (make_cow_facts pv') as (G1 & G2 & G3 & G4 & G5). split; try done.
  - apply (pages_ok_flags _ _ _ w' _ v pv' (make_cow pv')); try done.
    + rewrite G1, G3. apply (ok_shared _ _ _ _ F1 v); [set_solver|done].
    + by rewrite G2.
  - exists (make_cow pv'). cbn [vps set_vps]. rewrite lookup_insert_eq, make_cow_page, G5, make_cow_rights, F8. done.
  - intros u Hu. cbn [vps set_vps]. rewrite lookup_insert_ne by done. by apply F5.
Qed.

(** A page of anonymous memory *)
Lemma fill_anon V w v pv n w' : pages_ok V [] ∅ w -> v ∉ V -> vps w !! v = Some pv -> plain pv ->
  (link ← get_free_pl; l ← pl_at link; _ ← clear_tail (page_num l) 0; _ ← pl2pp link;
   _ ← set_owner (page_num l) (Some v); _ ← push_page page_active_list link; _ ← free_pl link;
   _ ← vp_upd v (fun v => set_vaddr (Z.lor (vaddr v) VPF_ANON) v); mret (page_num l)) w = Ret n w' ->
  made V v pv VPF_ANON n w (set_vps (alter (set_page n) v (vps w')) w')
  /\ frames w' = <[n := replicate 4096 0]> (frames w)
  /\ exists x px, x ∈ lst w page_free_list /\ pls w !! x = Some px /\ page_num px = n.
Proof.
  intros Hok HvV Hpv Hpl H. apply bind_ret_inv in H as (x & w1 & H1 & H). apply get_free_pl_inv in H1 as (l & Hl & ->).
  apply bind_ret_inv in H as (px & w1 & H1 & H). apply pl_at_inv in H1 as [-> Hpx]. cbn in Hpx.
  unfold clear_tail, set_frame in H. rewrite bind_bind, bind_get, bind_modify in H.
  apply bind_ret_inv in H as (q & w1 & H1 & H). apply pl2pp_inv in H1 as (-> & px' & Hpx' & Hq). cbn in Hpx', Hq.
  rewrite Hpx in Hpx'. injection Hpx' as <-. unfold set_owner in H. rewrite bind_modify, <- bind_bind in H.
  apply bind_ret_inv in H as ([] & w1 & H1 & H).
  apply (claim_run x w _ l px v w1 q) in H1 as (P1 & (p' & P2 & P2a & P2b) & P3 & P4 & P5 & P6 & P7 & P8); try done.
  2: by apply (ok_next_pl _ _ _ _ Hok _ px).
  unfold vp_upd in H. rewrite bind_modify in H. injection H as <- <-. split; [|split].
  - apply (alloc_made V v pv w w _ x l px p'); try done.
    cbn. rewrite P6. cbn. rewrite (alter_is_insert (fun v => set_vaddr _ v) _ _ pv) by done.
    rewrite (alter_is_insert _ _ _ (set_vaddr (Z.lor (vaddr pv) VPF_ANON) pv)) by by rewrite lookup_insert_eq.
    by rewrite insert_insert_eq.
  - cbn. by rewrite P7.
  - exists x, px. rewrite Hl. split; [by constructor|]. split; [exact Hpx|reflexivity].
Qed.

Lemma pf_fill_ok V w v pv m faddr rwx n w' : pages_ok V [] ∅ w -> v ∉ V -> vps w !! v = Some pv -> plain pv ->
  pf_fill v m faddr rwx w = Ret n w' -> no_share_lost w' ->
  filled V v pv (for_copying m rwx (VP_RIGHTS pv)) n w (set_vps (alter (set_page n) v (vps w')) w').
Proof.
  intros Hok HvV Hpv Hpl H Hsl. unfold pf_fill in H. fold (shared_fault m rwx) in H. unfold for_copying. rewrite rights_W.
  destruct (shared_fault m rwx) eqn:Hsh; cbn [andb].
  - apply bind_ret_inv in H as ([k page] & w1 & H1 & H). destruct (Z.eqb_spec k 0) as [->|]; [|done]. cbn [negb] in H.
    destruct (pf_mmap_shared_ok V w v pv m faddr 0 page w1 Hok HvV Hpv Hpl H1) as (f & Hm & Hf); [lia|by grown_back H|].
    assert (filled V v pv false page w w1) as Hfl by by apply (made_filled _ _ _ f).
    apply bind_ret_inv in H as (p & w2 & H2 & H). apply vp_at_inv in H2 as [-> Hp].
    apply bind_ret_inv in H as ([] & w2 & H2 & H). injection H as <- <-.
    assert (has (vaddr p) L4_Writable = has (vaddr pv) L4_Writable) as Ew.
    { destruct Hm as [_ (p' & Hp' & Eva & _) _ _]. rewrite Hp in Hp'. injection Hp' as <-. rewrite Eva, has_lor.
      destruct Hf as [-> | ->]; apply orb_false_r. }
    rewrite Ew in H2. destruct (_ && _); cbn [when_] in H2.
    + unfold vp_upd in H2. injection H2 as <-. apply filled_cow in Hfl; [|done]. by rewrite (filled_again _ _ _ _ _ _ _ Hfl).
    + injection H2 as <-. by rewrite (filled_again _ _ _ _ _ _ _ Hfl).
  - destruct (has _ _).
    + destruct (fill_anon V w v pv n w' Hok HvV Hpv Hpl H) as [Hm _]. apply (made_filled _ _ _ VPF_ANON); [by left|done|done].
    + apply bind_ret_inv in H as ([k page] & w1 & H1 & H). destruct (Z.eqb_spec k 0) as [->|]; [|done]. cbn [negb] in H.
      injection H as <- <-. apply (made_filled _ _ _ VPF_ANON); [by left|done|].
      by apply (pf_mmap_private_ok V w v pv m faddr rwx 0 page w1).
Qed.

(** The state in which a new virtual page exists and nothing refers to it *)
Definition fresh_vp (pv : vp) (w : vm) : vm :=
  set_vps (<[next_ptr w := pv]> (vps w)) (set_next_ptr (next_ptr w + 1) (add_vmcall VMalloc w)).
(** The table of [sp] with the new page in it *)
Definition enter_vp (sp v : Z) (p : vp) (w : vm) : vm :=
  set_spaces (ra_store sp (set_pages (tab w sp ++ [(hash_vp_by_vaddr p, v)]) (space_of w sp)) (spaces w))
    (add_vmcall (VHtableAdd TabPages) w).

Lemma enter_vp_shares sp v p n w : no_share_lost (enter_vp sp v p (set_vps n w)) -> no_share_lost w.
Proof. done. Qed.

Lemma pf_new_inv sp faddr rwx rights m w r w' : pf_new sp faddr rwx rights m w = Ret r w' -> exists n w2,
  pf_fill (next_ptr w) m faddr rwx (fresh_vp (Vp (Z.lor (page_of faddr) rights) 0 1) w) = Ret n w2
  /\ let w3 := set_vps (alter (set_page n) (next_ptr w) (vps w2)) w2 in
     exists p, vps w3 !! next_ptr w = Some p /\ r = (n, VP_RIGHTS p) /\ w' = enter_vp sp (next_ptr w) p w3.
Proof.
  unfold pf_new. intros (o & w1 & H1 & H)%bind_ret_inv. apply malloc_inv in H1 as [[-> _]|[-> ->]]; [done|].
  rewrite bind_modify in H. apply bind_ret_inv in H as (n & w2 & H2 & H). exists n, w2. split; [exact H2|]. cbv zeta.
  unfold vp_upd in H. rewrite bind_modify in H. apply bind_ret_inv in H as (p & w3 & H3 & H).
  apply vp_at_inv in H3 as [-> Hp]. exists p. split; [done|]. rewrite bind_get in H.
  apply bind_ret_inv in H as ([ok t] & w3 & H3 & H). apply htable_add_inv in H3 as [-> [[-> ->]|[-> ->]]];
  unfold space_upd in H; rewrite bind_modify in H; [done|]. by injection H as <- <-.
Qed.

Lemma fresh_vp_ok V pv w : pages_ok V [] ∅ w -> space_ok V w ->
  pages_ok V [] ∅ (fresh_vp pv w) /\ next_ptr w ∉ V /\ vps (fresh_vp pv w) !! next_ptr w = Some pv.
Proof.
  intros Hp Hs. assert (next_ptr w ∉ V) as HvV.
  { intros HV. destruct (ok_used _ _ _ _ Hp _ HV) as (p & _ & Hv & _). pose proof (ok_next_vp _ _ _ _ Hp _ _ Hv). lia. }
  split; [|split; [done|by apply lookup_insert_eq]]. apply (pages_ok_same V [] ∅ w); try done; unfold fresh_vp; cbn.
  - lia.
  - intros u Hu. rewrite lookup_insert_ne; [done|by intros <-].
  - intros u p. destruct (decide (u = next_ptr w)) as [->|]; [lia|]. rewrite lookup_insert_ne by done. intros Hu.
    pose proof (ok_next_vp _ _ _ _ Hp _ _ Hu). lia.
Qed.

(** Only one address of one space has changed. *)
Definition only_at (sp a : Z) (w w' : vm) : Prop :=
  forall pid b, ~ (pid = sp /\ b = a) -> page_at w' pid b = page_at w pid b.

Lemma enter_vp_ok V w w3 sp v p a : pages_ok ({[v]} ∪ V) [] ∅ w3 -> space_ok V w -> v ∉ V -> sp ∈ ra_used (spaces w) ->
  vps w3 !! v = Some p -> page_of (vaddr p) = a -> (forall u, u <> v -> vps w3 !! u = vps w !! u) -> spaces w3 = spaces w ->
  page_at w sp a = None ->
  pages_ok ({[v]} ∪ V) [] ∅ (enter_vp sp v p w3) /\ space_ok ({[v]} ∪ V) (enter_vp sp v p w3)
  /\ page_at (enter_vp sp v p w3) sp a = Some p /\ only_at sp a w (enter_vp sp v p w3).
Proof.
  intros Hp Hs HvV Hu Hv Ha Hvs Hsp Hno. set (w' := enter_vp sp v p w3). destruct (same_tabs _ _ Hsp) as [_ Hsame].
  assert (forall pid, space_of w' pid = if decide (pid = sp)
    then set_pages (tab w sp ++ [(int_hash a, v)]) (space_of w sp) else space_of w pid) as Hst.
  { intros pid. transitivity (space_of (set_spaces (ra_store sp (set_pages (tab w3 sp ++ [(hash_vp_by_vaddr p, v)])
      (space_of w3 sp)) (spaces w3)) w3) pid); [done|]. rewrite space_of_store. unfold tab, hash_vp_by_vaddr. rewrite Ha.
    destruct (decide (pid = sp)); [by rewrite !Hsame|apply Hsame]. }
  assert (forall pid, tab w' pid = if decide (pid = sp) then tab w sp ++ [(int_hash a, v)] else tab w pid) as Ht.
  { intros pid. unfold tab. rewrite Hst. by destruct (decide (pid = sp)). }
  assert (forall u, u ∈ V -> vps w' !! u = vps w !! u) as HV by (intros u HuV; apply Hvs; by intros ->).
  assert (space_ok ({[v]} ∪ V) w') as Hs'.
  { apply (space_ok_add V w w' sp v a); try done.
    - unfold page_addr, w', enter_vp. cbn. rewrite Hv. cbn. by rewrite Ha.
    - intros u HuV. unfold page_addr. by rewrite HV.
    - intros (h & u & Hin & Hpa)%addrs_elem. destruct (so_in _ _ Hs _ _ _ Hin) as (_ & b & Hb & ->).
      rewrite Hpa in Hb. injection Hb as <-. unfold page_addr in Hpa. destruct (vps w !! u) as [pu|] eqn:Eu; [|done].
      assert (page_at w sp a = Some pu) as E; [|congruence]. apply (page_at_iff V); [done|]. exists u.
      split; [done|]. split; [done|]. by injection Hpa.
    - unfold w', enter_vp. cbn. by rewrite Hsp.
    - intros pid. rewrite Hst. by destruct (decide (pid = sp)) as [->|]. }
  split; [apply (pages_ok_same _ [] ∅ w3); try done; apply (ok_next_vp _ _ _ _ Hp)|]. split; [done|].
  assert (forall h u, (h, u) ∈ tab w sp -> vps w' !! u = vps w !! u) as Hin.
  { intros h u Hin. apply HV. by apply (so_in _ _ Hs _ _ _ Hin). }
  assert (forall b, page_at w' sp b = if decide (a = b) then Some p else page_at w sp b) as Hat.
  { intros b. rewrite <- Ha. apply (page_at_add V ({[v]} ∪ V) w w' sp v); try done. by rewrite Ht, decide_True, Ha. }
  split; [by rewrite Hat, decide_True|]. intros pid b Hn. destruct (decide (pid = sp)) as [->|Hne].
  - rewrite Hat, decide_False; [done|]. intros ->. by apply Hn.
  - unfold page_at. rewrite Ht, decide_False by done. apply page_in_same. intros h u Hin'. apply HV.
    by apply (so_in _ _ Hs _ _ _ Hin').
Qed.

Lemma new_vp_page faddr k s : page_of (vaddr (Vp (Z.lor (page_of faddr) (Z.land k 7)) s 1)) = page_of faddr.
Proof.
  cbn. rewrite page_of_lor; [apply page_of_page|]. rewrite <- Z.land_assoc. apply Z.land_0_r.
Qed.
Lemma new_vp_rights faddr k s : VP_RIGHTS (Vp (Z.lor (page_of faddr) (Z.land k 7)) s 1) = Z.land k 7.
Proof.
  unfold VP_RIGHTS. cbn [vaddr]. rewrite Z.land_lor_distr_l, <- Z.land_assoc. unfold page_of. rewrite <- Z.land_assoc.
  change (Z.land (bnot32 PAGE_MASK) 7) with 0. by rewrite Z.land_0_r.
Qed.
Lemma new_vp_plain faddr k s : plain (Vp (Z.lor (page_of faddr) (Z.land k 7)) s 1).
Proof.
  unfold plain, VP_IS_ANON, VP_IS_SHARED, VP_IS_COW. cbn. change VPF_ANON with (2 ^ 4). change VPF_SHARED with (2 ^ 3).
  change VPF_COW with (2 ^ 5). by rewrite !new_flags by lia.
Qed.

(** A page was made for a fault on the mapping [m] at [faddr]: with the mapping's rights, or
    to be copied on write, and with the contents it is to have. *)
Record page_made (m : lazy_mmap) (sp faddr rwx rights : Z) (p : vp) (w w' : vm) : Prop := PageMade {
  pm_page : page_at w' sp (page_of faddr) = Some p;
  pm_cow : VP_IS_COW p = for_copying m rwx rights;
  pm_rights : VP_RIGHTS p = given_rights (VP_IS_COW p) rights;
  pm_contents : mapped_page m faddr rwx (status p) w w';
  pm_free : free_only w w';
  pm_only : only_at sp (page_of faddr) w w'
}.

Lemma pf_new_ok V w sp faddr rwx k m r w' : pages_ok V [] ∅ w -> space_ok V w -> sp ∈ ra_used (spaces w) ->
  frames_ok w -> frames_ok w' ->
  page_at w sp (page_of faddr) = None -> pf_new sp faddr rwx (Z.land k 7) m w = Ret r w' -> no_share_lost w' ->
  vm_ok w' /\ exists p, r = (status p, VP_RIGHTS p) /\ page_made m sp faddr rwx (Z.land k 7) p w w'.
Proof.
  intros Hp Hs Hu Hfr Hfr' Hno H Hsl. apply pf_new_inv in H as (n & w2 & H2 & p & Hv & -> & ->).
  set (pv := Vp (Z.lor (page_of faddr) (Z.land k 7)) 0 1) in *.
  destruct (fresh_vp_ok V pv w Hp Hs) as (Hp1 & HvV & Hv1).
  destruct (pf_fill_page V (fresh_vp pv w) (next_ptr w) m faddr rwx n w2 Hp1 HvV Hfr Hfr' H2) as [Hm Hfo].
  destruct (pf_fill_ok V _ _ pv m faddr rwx n w2 Hp1 HvV Hv1 (new_vp_plain _ _ _) H2 ltac:(by apply enter_vp_shares in Hsl)) as [F1 (pv' & F2 & F3 & F4 & F7 & F8) F5 F6].
  pose proof (new_vp_rights faddr k 0) as Er. fold pv in Er. rewrite Er in F7, F8.
  set (w3 := set_vps _ w2) in *. rewrite F2 in Hv. injection Hv as <-.
  assert (page_of (vaddr pv') = page_of faddr) as Ha by (rewrite F3; apply new_vp_page).
  destruct (rest_spaces _ _ F6) as [_ Hsp].
  destruct (enter_vp_ok V w w3 sp (next_ptr w) pv' (page_of faddr)) as (E1 & E2 & E3 & E4); try done.
  { intros u Hne. rewrite F5 by done. unfold fresh_vp. cbn. by rewrite lookup_insert_ne. }
  split; [by exists ({[next_ptr w]} ∪ V)|]. exists pv'. split; [by rewrite F4|]. split; try done.
  - by rewrite F7.
  - rewrite F4. apply (mapped_page_from _ _ _ _ w (fresh_vp pv w)); [done..|]. by apply (mapped_page_same _ _ _ _ _ w2).
  - transitivity w2; [|by apply free_only_same]. transitivity (fresh_vp pv w); [by apply free_only_same|exact Hfo].
Qed.
End faults.

(** ** Requests *)
Section requests.
Context `{LA : !L4Abi, VE : !VmEnv, RB : !RbOps}.
#[local] Opaque bob96bitmix hash_cached_page hash_lazy_mmap bucket_of fsid_ino_of int_hash.

(** A write fault on a page that is copied on write *)
Record cow_fault (sp a : Z) (p : vp) (r : Z * Z) (w w' : vm) : Prop := CowFault {
  cf_page : exists p', page_at w' sp a = Some p' /\ r = (status p', VP_RIGHTS p')
    /\ VP_RIGHTS p' = Z.lor (VP_RIGHTS p) L4_Writable /\ VP_IS_COW p' = false
    /\ (forall pid b q, page_at w' pid b = Some q -> status q = status p' -> pid = sp /\ b = a)
    /\ take (Z.to_nat PAGE_SIZE) (frame w' (status p')) = take (Z.to_nat PAGE_SIZE) (frame w (status p));
  cf_only : only_at sp a w w';
  cf_frames pid b q : ~ (pid = sp /\ b = a) -> page_at w pid b = Some q -> frame w' (status q) = frame w (status q)
}.

Lemma lor_W_rights x m f : Z.land (bnot32 m) 7 = 7 -> Z.land f 7 = L4_Writable ->
  Z.land (Z.lor (clear_bits x m) f) 7 = Z.lor (Z.land x 7) L4_Writable.
Proof. intros Hm Hf. unfold clear_bits. by rewrite Z.land_lor_distr_l, Hf, <- Z.land_assoc, Hm. Qed.
Lemma own_flags_rights p : VP_RIGHTS (own_flags p) = Z.lor (VP_RIGHTS p) L4_Writable.
Proof. by apply lor_W_rights. Qed.
Lemma copy_flags_rights n p : VP_RIGHTS (copy_flags n p) = Z.lor (VP_RIGHTS p) L4_Writable.
Proof. by apply lor_W_rights. Qed.

Lemma page_at_uses V w pid a p : space_ok V w -> page_at w pid a = Some p -> exists v, v ∈ V /\ vps w !! v = Some p
  /\ (int_hash a, v) ∈ tab w pid /\ page_of (vaddr p) = a.
Proof.
  intros Hs (v & Hin & Hv & Ha)%(page_at_iff V); [|done]. exists v. split; [by apply (so_in _ _ Hs _ _ _ Hin)|done].
Qed.

Lemma pf_cow_fault V w sp a v p r w' : pages_ok V [] ∅ w -> space_ok V w -> frames_ok w ->
  find_vp w (tab w sp) a = Some v -> vps w !! v = Some p -> pf_cow v w = Ret r w' ->
  vm_ok w' /\ cow_fault sp a p r w w'.
Proof.
  intros Hp Hs Hf Hfind Hv H. apply find_vp_some in Hfind as [Hin Ha].
  destruct (so_in _ _ Hs _ _ _ Hin) as (HV & _). destruct (pf_cow_ok V w v p r w' Hp HV Hv H) as [Hp' [C1 C2 C3]].
  assert (page_of (vaddr p) = a) as Epa by (unfold page_addr in Ha; rewrite Hv in Ha; by injection Ha).
  destruct C3 as (p' & Hv' & -> & Hc).
  assert (page_of (vaddr p') = a /\ VP_IS_COW p' = false /\ VP_RIGHTS p' = Z.lor (VP_RIGHTS p) L4_Writable) as (Epa' & Ecow & Ew).
  { destruct Hc as [(-> & _ & _)|(n & -> & _)].
    - destruct (own_flags_facts p) as (_ & ? & _ & ?). by rewrite own_flags_page, own_flags_rights.
    - destruct (copy_flags_facts n p) as (_ & ? & ? & _). by rewrite copy_flags_page, copy_flags_rights. }
  destruct (rest_spaces _ _ C1) as [_ Hsp]. destruct (same_tabs _ _ Hsp) as [Hss Hsame].
  assert (forall pid, tab w' pid = tab w pid) as Ht by (intros pid; unfold tab; by rewrite Hsame).
  assert (space_ok V w') as Hs'.
  { apply (space_ok_same V w); [done| |done]. intros u _. unfold page_addr. destruct (decide (u = v)) as [->|Hne].
    - rewrite Hv', Hv. cbn. by rewrite Epa', Epa.
    - by rewrite C2. }
  assert (page_at w' sp a = Some p') as Hat by (apply (page_at_iff V); [done|]; exists v; by rewrite Ht).
  assert (forall pid b q, page_at w pid b = Some q -> ~ (pid = sp /\ b = a) -> exists u, u ∈ V /\ u <> v
    /\ vps w !! u = Some q /\ (int_hash b, u) ∈ tab w pid) as Hother.
  { intros pid b q Hq Hn. destruct (page_at_uses V w pid b q Hs Hq) as (u & HuV & Hu & Huin & Hb). exists u.
    split; [done|]. split; [|done]. intros ->. apply Hn. split; [by apply (so_one _ _ Hs _ _ (int_hash b) (int_hash a) v)|congruence]. }
  split; [by exists V|]. split.
  - exists p'. split; [done|]. split; [done|]. split; [done|]. split; [done|]. split.
    + intros pid b q Hq Es. destruct (page_at_uses V w' pid b q Hs' Hq) as (u & HuV & Hu & Huin & Hb).
      assert (u = v) as ->; [|split; [by rewrite !Ht in *; apply (so_one _ _ Hs _ _ (int_hash b) (int_hash a) v)|congruence]].
      apply (ok_private _ _ _ _ Hp' v u p'); try done; [|split; [done|by exists q]].
      destruct Hc as [(-> & Han & _)|(n & -> & _)]; [|by destruct (copy_flags_facts n p)].
      by rewrite (proj1 (own_flags_facts p)).
    + destruct Hc as [(-> & _ & Ef)|(n & -> & Ef & _)]; [by unfold frame; rewrite Ef|].
      change (status (copy_flags n p)) with n. unfold frame at 1. rewrite Ef, lookup_insert_eq. cbn [from_option id].
      rewrite take_app_le by (rewrite length_take, Hf; lia). by rewrite take_take, Nat.min_id.
  - intros pid b Hn. apply option_eq. intros q. split.
    + intros (u & HuV & Hu & Huin & Hb)%(page_at_uses V); [|done]. rewrite Ht in Huin.
      assert (u <> v) as Hne.
      { intros ->. apply Hn. split; [by apply (so_one _ _ Hs _ _ (int_hash b) (int_hash a) v)|congruence]. }
      apply (page_at_iff V); [done|]. exists u. by rewrite <- C2.
    + intros Hq. destruct (Hother pid b q Hq Hn) as (u & HuV & Hne & Hu & Huin). apply (page_at_iff V); [done|].
      exists u. rewrite Ht, C2 by done. split; [done|]. split; [done|]. by apply (page_at_addr w pid).
  - intros pid b q Hn Hq. destruct (Hother pid b q Hq Hn) as (u & HuV & Hne & Hu & Huin).
    destruct Hc as [(_ & _ & Ef)|(n & _ & Ef & x & px & Hx & Hpx & En)]; [by unfold frame; rewrite Ef|].
    unfold frame at 1. rewrite Ef, lookup_insert_ne; [done|]. intros E.
    apply (ok_free _ _ _ _ Hp x px u Hx Hpx). split; [done|]. exists q. split; [done|congruence].
Qed.

Lemma find_calm sp a w r w' : find_lazy_mmap sp a w = Ret r w' -> still w w' /\ mms w' = mms w /\ vm_trace w' = vm_trace w.
Proof.
  intros H. split; [exact (calm_find _ _ _ _ _ H)|]. unfold find_lazy_mmap in H. rewrite bind_get in H.
  destruct (_ && _); [by injection H as _ <-|]. destruct (lookup_mmap _ _ _); [|by injection H as _ <-].
  unfold space_upd in H. rewrite bind_modify in H. by injection H as _ <-.
Qed.

(** *** What a page fault comes to *)

(** The mapping that is found for an address, and its rights *)
Definition mapped_at (w : vm) (pid faddr : Z) (m : lazy_mmap) : Prop :=
  exists mm w1, find_lazy_mmap pid faddr w = Ret (Some mm) w1 /\ mms w !! mm = Some m /\ addr m <= faddr < end_of m.
Definition mapping_rights (m : lazy_mmap) : Z := Z.land (Z.shiftr (flags m) 16) 7.
(** The accesses [rwx] are among the [rights]. *)
Definition allows (rights rwx : Z) : Prop := Z.land rights rwx = rwx.
(** The access that the kernel reports *)
Definition fault_access (w : vm) : Z := Z.land (vm_label w) 7.
(** The access is a write to a page that is to be copied before. *)
Definition writes_cow (w : vm) (p : vp) : bool := VP_IS_COW p && has (fault_access w) L4_Writable.

(** The fault is an error of the faulting thread: the page that is there does not allow the
    access, or there is none and no mapping that allows it. *)
Definition segv_due (sp faddr : Z) (w : vm) : Prop :=
  match page_at w sp (page_of faddr) with
  | Some p => writes_cow w p = false /\ ~ allows (VP_RIGHTS p) (fault_access w)
  | None => ADDR_IN_FPAGE (sysinfo_area (space_of w sp)) faddr = false
      /\ forall m, mapped_at w sp faddr m -> ~ allows (mapping_rights m) (fault_access w)
  end.

Inductive fault_result (sp faddr : Z) (w w' : vm) : option (Z * Z) -> Prop :=
| FaultIgnored : SNEKS_MAX_PID < sp \/ utcb_area (space_of w sp) = L4_Nilpage -> w' = set_vm_no_reply true w ->
    fault_result sp faddr w w' None
| FaultSegv : segv_due sp faddr w -> still w w' -> vm_no_reply w' = true ->
    vm_trace w' = VProcKill sp SIGSEGV :: vm_trace w -> fault_result sp faddr w w' None
| FaultCow p r : page_at w sp (page_of faddr) = Some p -> writes_cow w p = true ->
    cow_fault sp (page_of faddr) p r w w' -> fault_result sp faddr w w' (Some r)
| FaultRemap p : page_at w sp (page_of faddr) = Some p -> writes_cow w p = false -> allows (VP_RIGHTS p) (fault_access w) ->
    w' = w -> fault_result sp faddr w w' (Some (status p, VP_RIGHTS p))
| FaultSysinfo : page_at w sp (page_of faddr) = None -> ADDR_IN_FPAGE (sysinfo_area (space_of w sp)) faddr = true ->
    w' = w -> fault_result sp faddr w w' (Some (Z.shiftr the_sip PAGE_BITS, L4_Readable))
| FaultNew m p : page_at w sp (page_of faddr) = None -> ADDR_IN_FPAGE (sysinfo_area (space_of w sp)) faddr = false ->
    mapped_at w sp faddr m -> allows (mapping_rights m) (fault_access w) ->
    page_made m sp faddr (fault_access w) (mapping_rights m) p w w' ->
    fault_result sp faddr w w' (Some (status p, VP_RIGHTS p)).

Lemma still_only sp a w w' : still w w' -> only_at sp a w w' /\ page_at w' sp a = page_at w sp a.
Proof.
  intros [_ _ Hv _ _ _ _ [_ Ht]].
  assert (forall pid b, page_at w' pid b = page_at w pid b) as H by (apply page_at_same; [done|intros; apply Ht]).
  split; [intros pid b _|]; apply H.
Qed.
Lemma page_made_still m sp faddr rwx rights p w w1 w' : still w w1 -> page_made m sp faddr rwx rights p w1 w' ->
  page_made m sp faddr rwx rights p w w'.
Proof.
  intros Hst [M1 M2 M3 M4 M5 M6]. destruct (still_only sp (page_of faddr) w w1 Hst) as [Ho _].
  pose proof Hst as [_ E2 _ E4 E5 _ _ _]. split; try done.
  - by apply (mapped_page_from _ _ _ _ w w1).
  - transitivity w1; [by apply free_only_same|done].
  - intros q b Hn. by rewrite M6, Ho.
Qed.
Lemma mapped_at_unique w sp faddr m mm w1 : find_lazy_mmap sp faddr w = Ret (Some mm) w1 -> mms w !! mm = Some m ->
  forall m', mapped_at w sp faddr m' -> m' = m.
Proof. intros Hf Hm m' (mm' & w1' & Hf' & Hm' & _). congruence. Qed.

Lemma vm_pf_ok w faddr r w' : vm_ok w -> frames_ok w -> frames_ok w' -> vm_pf faddr w = Ret r w' -> no_share_lost w' ->
  vm_ok w' /\ fault_result (pidof_NP vm_global (vm_sender w)) faddr w w' r.
Proof.
  intros Hw Hf Hf' H Hsl. unfold vm_pf in H. apply bind_ret_inv in H as (pid & w1 & H1 & H). injection H1 as <- <-.
  set (pid := pidof_NP vm_global (vm_sender w)) in *. cbv zeta in H. fold (fault_access w) in H.
  assert (forall w1 r w', still w w1 -> vm_trace w1 = vm_trace w -> segv_due pid faddr w ->
    (_ ← vm_ask (VProcKill pid SIGSEGV); _ ← muidl_raise_no_reply; mret None) w1 = Ret r w' ->
    vm_ok w' /\ fault_result pid faddr w w' r) as Hsegv.
  { intros w1 r1 w1' Hst Ht Hdue H1.
    assert (still w w1') as Hst'.
    { etrans; [exact Hst|]. match type of H1 with ?m _ = _ => assert (steps still m) as Hc by calm; exact (Hc _ _ _ H1) end. }
    split; [by apply (vm_inv_still [] w)|].
    unfold vm_ask in H1. apply bind_ret_inv in H1 as (? & ? & [= _ <-] & H1). unfold muidl_raise_no_reply in H1.
    rewrite bind_modify in H1. injection H1 as <- <-. apply FaultSegv; [done..|]. cbn. by rewrite Ht. }
  assert (forall r w', SNEKS_MAX_PID < pid \/ utcb_area (space_of w pid) = L4_Nilpage ->
    (_ ← muidl_raise_no_reply; mret None) w = Ret r w' -> vm_ok w' /\ fault_result pid faddr w w' r) as Hquiet.
  { intros r1 w1 Hc H1. unfold muidl_raise_no_reply in H1. rewrite bind_modify in H1. injection H1 as <- <-.
    assert (still w (set_vm_no_reply true w)) by by split.
    split; [by apply (vm_inv_still [] w)|by apply FaultIgnored]. }
  destruct (Z.ltb_spec SNEKS_MAX_PID pid); [by apply Hquiet; [left|]|].
  apply bind_ret_inv in H as (s & w1 & H1 & H). apply space_at_inv in H1 as (-> & -> & _).
  destruct (L4_IsNilFpage _) eqn:Eu; [apply Z.eqb_eq in Eu; by apply Hquiet; [right|]|].
  rewrite bind_get in H. fold (tab w pid) (fault_access w) in H.
  apply Z.eqb_neq in Eu. pose proof Hw as (V & Hp & Hs).
  assert (pid ∈ ra_used (spaces w)) as Hused by (apply (used_of w); [done|by right]).
  destruct (find_vp w (tab w pid) (page_of faddr)) as [old|] eqn:Ef.
  - apply bind_ret_inv in H as (p & w1 & H1 & H). apply vp_at_inv in H1 as [-> Hv].
    assert (page_at w pid (page_of faddr) = Some p) as Hat by (unfold page_at, page_in; by rewrite Ef).
    fold (writes_cow w p) in H. destruct (writes_cow w p) eqn:Ec.
    + apply bind_ret_inv in H as (r1 & w1 & H1 & H). injection H as <- <-.
      destruct (pf_cow_fault V w pid (page_of faddr) old p r1 w1) as [? ?]; try done. split; [done|by apply (FaultCow _ _ _ _ p)].
    + destruct (Z.eqb_spec (Z.land (VP_RIGHTS p) (fault_access w)) (fault_access w)); cbn [negb] in H.
      * injection H as <- <-. split; [done|]. by apply FaultRemap.
      * apply (Hsegv w); [by apply still_refl|done| |done]. unfold segv_due. by rewrite Hat.
  - assert (page_at w pid (page_of faddr) = None) as Hno by by apply page_at_none, (find_vp_none V).
    destruct (ADDR_IN_FPAGE _ _) eqn:Esys; [injection H as <- <-; split; [done|by apply FaultSysinfo]|].
    apply bind_ret_inv in H as (mm & w1 & H1 & H). destruct (find_calm _ _ _ _ _ H1) as (Hst & Emm & Etr).
    destruct mm as [mm|]; cycle 1.
    { apply (Hsegv w1); [done..| |done]. unfold segv_due. rewrite Hno. split; [done|].
      intros m (mm' & w1' & Hf1 & _). congruence. }
    apply bind_ret_inv in H as (m & w2 & H2 & H). apply mm_at_inv in H2 as [-> Hm]. rewrite Emm in Hm.
    apply bind_ret_inv in H as ([] & w2 & [Hr%andb_true_iff ->]%assert_inv & H). fold (mapping_rights m) in H.
    assert (mapped_at w pid faddr m) as Hma.
    { exists mm, w1. split; [done|]. split; [done|]. destruct Hr as [?%Z.leb_le ?%Z.ltb_lt]. done. }
    rewrite (Z.land_comm _ (mapping_rights m)) in H.
    destruct (Z.eqb_spec (Z.land (mapping_rights m) (fault_access w)) (fault_access w)) as [Ea|Ea]; cbn [negb] in H; cycle 1.
    { apply (Hsegv w1); [done..| |done]. unfold segv_due. rewrite Hno. split; [done|].
      intros m' ->%(mapped_at_unique _ _ _ _ _ _ H1 Hm). done. }
    apply bind_ret_inv in H as (r1 & w2 & H2 & H). injection H as <- <-.
    pose proof (pages_ok_still _ _ _ _ _ Hp Hst) as Hp1. pose proof (space_ok_still _ _ _ Hs Hst) as Hs1.
    destruct (still_only pid (page_of faddr) w w1 Hst) as [Ho1 Hat1].
    assert (pid ∈ ra_used (spaces w1)) as Hu1 by (destruct Hst as [_ _ _ _ _ _ _ [-> _]]; done).
    assert (frames_ok w1) as Hf1 by (intros n; unfold frame; destruct Hst as [_ _ _ -> _ _ _ _]; apply Hf).
    destruct (pf_new_ok V w1 pid faddr _ (Z.shiftr (flags m) 16) m r1 w2 Hp1 Hs1 Hu1 Hf1 Hf' ltac:(by rewrite Hat1) H2 Hsl)
      as (Hok & p & -> & Hpm).
    split; [done|]. apply (FaultNew _ _ _ _ m); [done..|]. by apply (page_made_still _ _ _ _ _ _ _ w1).
Qed.

(** *** Addresses are given out in order *)

Definition mounts (w w' : vm) : Prop := next_ptr w <= next_ptr w'.
#[local] Instance mounts_preorder : PreOrder mounts.
Proof. split; [by intros w; unfold mounts|]. intros w1 w2 w3. unfold mounts. lia. Qed.
Lemma still_mounts w w' : still w w' -> mounts w w'. Proof. by intros []. Qed.
Ltac mounts base := walk ltac:(first
  [ base | apply (steps_mono still mounts); [exact still_mounts|solve [calm]]
  | apply steps_modify; intros; unfold mounts; cbn; lia ]).
Lemma has_shares_mounts h n c : steps mounts (has_shares h n c).
Proof.
  unfold has_shares. mounts fail. intros w r w' H. assert (w' = w) as ->; [|done].
  by apply mapM_vp_at in H as [-> _].
Qed.
Lemma pl2pp_mounts x : steps mounts (pl2pp x).
Proof. unfold pl2pp. mounts fail. Qed.
Lemma free_page_mounts x D : steps mounts (free_page x D).
Proof.
  unfold free_page, push_page, push_list, set_link. mounts ltac:(apply pl2pp_mounts).
Qed.
Lemma remove_vp_mounts v D : steps mounts (remove_vp v D).
Proof.
  unfold remove_vp, rm_share, del_share, hash_vp_by_phys, set_link, set_owner.
  mounts ltac:(first [apply free_page_mounts | apply has_shares_mounts]).
Qed.
Lemma remove_active_pls_mounts D : steps mounts (remove_active_pls D).
Proof. unfold remove_active_pls, free_pl. mounts fail. Qed.
Lemma foldM_mounts {A B} (f : A -> B -> M vm B) l b : (forall x b, steps mounts (f x b)) -> steps mounts (foldM f l b).
Proof.
  intros Hf. revert b. induction l as [|x l IH]; intros b; [apply steps_ret; apply _|]. cbn. apply steps_bind; [apply _|apply Hf|intros; apply IH].
Qed.
Lemma pop_page_mounts sp a : steps mounts (pop_page sp a).
Proof. unfold pop_page, space_upd. mounts fail. Qed.
Lemma remove_vp_range_mounts sp a n : steps mounts (remove_vp_range sp a n).
Proof.
  unfold remove_vp_range, drop_vp.
  mounts ltac:(first [apply foldM_mounts; mounts ltac:(first [apply pop_page_mounts | apply remove_vp_mounts]) | apply remove_active_pls_mounts]).
Qed.
Lemma cut_anon_mmap_mounts mm h f l : steps mounts (cut_anon_mmap mm h f l).
Proof.
  unfold cut_anon_mmap, cut_page, find_cached_page.
  mounts ltac:(first [apply foldM_mounts; mounts ltac:(first [apply has_shares_mounts | apply pl2pp_mounts | apply free_page_mounts])
    | apply remove_active_pls_mounts]).
Qed.
Lemma unmap_from_mounts sp a n l : steps mounts (unmap_from sp a n l).
Proof.
  induction l as [|cur l IH]; cbn [unmap_from]; [apply steps_ret; apply _|].
  unfold unmap_one, space_upd. mounts ltac:(first [exact IH | apply cut_anon_mmap_mounts]).
Qed.
Lemma reserve_mmap_mounts mm sp a len fixed : steps mounts (reserve_mmap mm sp a len fixed).
Proof.
  unfold reserve_mmap, munmap_space, space_upd, get_as_free.
  mounts ltac:(first [apply remove_vp_range_mounts | apply unmap_from_mounts]).
Qed.

(** *** Uploaded pages *)


Lemma prot_rights_range prot : Z.land (prot_to_l4_rights prot) 7 = prot_to_l4_rights prot.
Proof.
  apply Z.bits_inj'. intros i Hi. rewrite Z.land_spec. destruct (Z.testbit 7 i) eqn:E7; [by rewrite andb_true_r|].
  rewrite andb_false_r. assert (3 <= i) as H3.
  { destruct (decide (3 <= i)); [done|]. assert (i = 0 \/ i = 1 \/ i = 2) as [-> |[-> | ->]] by lia; done. }
  unfold prot_to_l4_rights. rewrite !Z.lor_spec, Z.shiftl_spec, Z.shiftr_spec, !Z.land_spec by lia.
  rewrite (testbit_high 1 PROT_READ), (testbit_high 2 PROT_WRITE), (testbit_high 3 PROT_EXEC) by (unfold PROT_READ, PROT_WRITE, PROT_EXEC; lia).
  by rewrite !andb_false_r.
Qed.

(** The page that was there goes. *)
Lemma upload_pop V sp a w old w1 w2 : pages_ok V [] ∅ w -> space_ok V w -> pop_page sp a w = Ret old w1 ->
  match old with
  | None => mret tt
  | Some old => dead ← remove_vp old []; remove_active_pls dead
  end w1 = Ret tt w2 ->
  removed sp [a] w w2 /\ exists V', pages_ok V' [] ∅ w2 /\ space_ok V' w2.
Proof.
  intros Hp Hs H1 H2. destruct (pop_page_ok _ _ _ _ _ _ Hs H1) as [Hrv Hv]. destruct old as [v|].
  - destruct Hv as (HV & Hs1 & _ & s & ->). set (w1 := set_spaces _ w) in *.
    assert (pages_ok V [] ∅ w1) as Hp1 by (apply (pages_ok_same V [] ∅ w); try done; apply (ok_next_vp _ _ _ _ Hp)).
    apply bind_ret_inv in H2 as (D & w3 & H2 & H3).
    destruct (remove_vp_ok _ _ _ _ _ _ _ Hp1 HV H2) as (Hp3 & Hv3 & Hf3 & Hr3).
    destruct (drop_popped V sp v w1 w3 Hs1 Hv3 Hf3 Hr3) as [Hs3 Hrv3].
    destruct (remove_active_pls_ok D w3 w2) as [(V' & Hp2 & Hs2) Hk]; [by exists (V ∖ {[v]})|done|].
    split; [|by exists V']. apply (removed_kept _ _ _ w3); [|done]. by apply (removed_trans sp [a] [] w w1 w3).
  - subst w1. injection H2 as <-. split; [done|by exists V].
Qed.

(** A free page is filled and given to the virtual page [v]. *)
Lemma upload_fill V sp a w v data va r w' : pages_ok V [] ∅ w -> space_ok V w -> v ∉ V -> v < next_ptr w ->
  page_of va = a -> VP_IS_ANON (Vp va 0 1) = true -> VP_IS_SHARED (Vp va 0 1) = false -> VP_IS_COW (Vp va 0 1) = false ->
  page_at w sp a = None ->
  sp ∈ ra_used (spaces w) ->
  (link ← get_free_pl; l ← pl_at link; let n := page_num l in
   _ ← set_frame n (take (Z.to_nat PAGE_SIZE) data);
   _ ← clear_tail n (Z.of_nat (List.length data));
   _ ← push_page page_active_list link; _ ← free_pl link;
   _ ← modify (fun w => set_vps (<[v := Vp va n 1]> (vps w)) w);
   _ ← get_pp n; _ ← set_owner n (Some v);
   w ← get;
   '(ok, t) ← htable_add TabPages (int_hash a) v (pages (space_of w sp));
   _ ← space_upd sp (set_pages t);
   if (ok : bool) then mret 0 else halt StAbort) w = Ret r w' ->
  r = 0 /\ exists n, vm_ok w' /\ page_at w' sp a = Some (Vp va n 1) /\ only_at sp a w w'
    /\ (forall pid b q, page_at w' pid b = Some q -> status q = n -> pid = sp /\ b = a)
    /\ frames w' = <[n := take (List.length data) (take (Z.to_nat PAGE_SIZE) data)
                          ++ replicate (Z.to_nat (PAGE_SIZE - Z.of_nat (List.length data))) 0]> (frames w)
    /\ forall pid b q, page_at w pid b = Some q -> status q <> n.
Proof.
  intros Hp Hs HvV Hvn Hva Ha Hns Hc Hno Hu H. apply bind_ret_inv in H as (x & w1 & H1 & H).
  apply get_free_pl_inv in H1 as (l & Hl & ->). apply bind_ret_inv in H as (px & w1 & H1 & H).
  apply pl_at_inv in H1 as [-> Hpx]. cbn in Hpx. cbv zeta in H. unfold clear_tail, set_frame in H.
  rewrite bind_modify, bind_bind, bind_get, bind_modify in H. rewrite <- bind_bind in H.
  apply bind_ret_inv in H as ([] & w2 & H2 & H).
  assert (x ∈ lst w page_free_list) as Hxf by (rewrite Hl; by constructor).
  destruct (ok_page_of _ _ _ _ _ _ _ Hp Hxf Hpx (ok_free_live _ _ _ _ _ _ Hp Hxf Hpx)) as (q & Hq & _).
  apply (push_active_run x _ w2 px q l) in H2 as (P1 & (p' & P2 & P2a & P2b) & P3 & P4 & P5 & P6 & P7 & P8); try done.
  2: by unfold lst; cbn; rewrite lookup_insert_eq.
  2: by apply (ok_next_pl _ _ _ _ Hp x px).
  cbn in P1, P2, P3, P4, P5, P6, P7. rewrite bind_modify in H.
  apply bind_ret_inv in H as (q1 & w3 & H1 & H). apply get_pp_inv in H1 as (-> & _ & _).
  unfold set_owner in H. rewrite bind_modify, bind_get in H. apply bind_ret_inv in H as ([ok t] & w3 & H3 & H).
  apply htable_add_inv in H3 as [-> [[-> ->]|[-> ->]]]; unfold space_upd in H; rewrite bind_modify in H; [done|]. injection H as <- Ew'.
  split; [done|]. set (n := page_num px) in *. exists n.
  set (w8 := set_pps _ (set_vps _ w2)) in Ew'.
  assert (pps w8 = <[n := Pp (Some (next_ptr w)) (Some v)]> (pps w)) as E1.
  { unfold w8. cbn. rewrite P1. rewrite (alter_is_insert _ _ _ (Pp (Some (next_ptr w)) (owner q))) by apply lookup_insert_eq.
    by rewrite insert_insert_eq. }
  assert (vps w8 = <[v := Vp va n 1]> (vps w)) as E2 by (unfold w8; cbn; by rewrite P6).
  assert (pages_ok ({[v]} ∪ V) [] ∅ w8) as Hp8.
  { apply (alloc_ok V [] ∅ w w8 x l px p' v (Vp va n 1)); try done.
    - unfold w8. cbn. rewrite P3. unfold lst. cbn. by rewrite lookup_insert_ne.
    - by rewrite E2, lookup_insert_eq.
    - change (VP_IS_COW (Vp va n 1)) with (VP_IS_COW (Vp va 0 1)). by rewrite Hc.
    - intros u HuV. rewrite E2, lookup_insert_ne; [done|by intros <-].
    - intros u pu. rewrite E2. unfold w8. cbn. rewrite P5. destruct (decide (u = v)) as [->|]; [lia|].
      rewrite lookup_insert_ne by done. intros Hpu. pose proof (ok_next_vp _ _ _ _ Hp _ _ Hpu). lia. }
  assert (spaces w8 = spaces w) as Esp by (destruct (rest_spaces _ _ P8) as [_ ?]; done).
  assert (vps w8 !! v = Some (Vp va n 1)) as Hv8 by by rewrite E2, lookup_insert_eq.
  destruct (enter_vp_ok V w w8 sp v (Vp va n 1) a) as (Q1 & Q2 & Q3 & Q4); try done.
  { intros u Hne. by rewrite E2, lookup_insert_ne. }
  assert (w' = enter_vp sp v (Vp va n 1) w8) as ->.
  { rewrite <- Ew'. unfold enter_vp, hash_vp_by_vaddr. cbn [vaddr]. by rewrite Hva. }
  split; [by exists ({[v]} ∪ V)|]. split; [done|]. split; [done|]. split; [|split].
  - intros pid b q' Hq' Es. destruct (page_at_uses _ _ _ _ _ Q2 Hq') as (u & HuV & Hu' & Huin & Hb).
    destruct (page_at_uses _ _ _ _ _ Q2 Q3) as (u' & HuV' & Hu2 & Huin2 & Hb2).
    assert (u = u') as ->.
    { apply (ok_private _ _ _ _ Q1 u' u (Vp va n 1)); try done. split; [done|by exists q']. }
    split; [by apply (so_one _ _ Q2 _ _ (int_hash b) (int_hash a) u')|congruence].
  - transitivity (frames w2); [done|]. rewrite P7. unfold frame. cbn [frames set_frames].
    rewrite lookup_insert_eq. cbn [from_option id frames set_lists]. by rewrite insert_insert_eq, Nat2Z.id.
  - intros pid b q' Hq' Es. destruct (page_at_uses _ _ _ _ _ Hs Hq') as (u & HuV & Hu' & _).
    apply (ok_free _ _ _ _ Hp x px u Hxf Hpx). split; [done|]. by exists q'.
Qed.

(** A page that was uploaded: the target has it to itself, with the contents asked for. *)
Record uploaded (sp a : Z) (data : list Z) (rights : Z) (w w' : vm) : Prop := Uploaded {
  up_page : exists p, page_at w' sp a = Some p /\ VP_RIGHTS p = rights
    /\ (forall pid b q, page_at w' pid b = Some q -> status q = status p -> pid = sp /\ b = a)
    /\ frame w' (status p) = take (List.length data) (take (Z.to_nat PAGE_SIZE) data)
         ++ replicate (Z.to_nat (PAGE_SIZE - Z.of_nat (List.length data))) 0;
  up_only : only_at sp a w w';
  up_frames pid b q : ~ (pid = sp /\ b = a) -> page_at w pid b = Some q -> frame w' (status q) = frame w (status q)
}.

Lemma page_range_one a b : 0 <= a < 2 ^ 32 -> b ∈ page_range a PAGE_SIZE -> b = a.
Proof.
  unfold page_range. intros Ha. destruct (Z.leb_spec (u32 (a + PAGE_SIZE)) a) as [_|Hl]; [by intros ?%elem_of_nil|].
  assert (u32 (a + PAGE_SIZE) <= a + PAGE_SIZE) as Hu by (apply Z.mod_le; unfold PAGE_SIZE; lia).
  assert ((u32 (a + PAGE_SIZE) - a + PAGE_SIZE - 1) / PAGE_SIZE = 1) as ->.
  { symmetry. apply Z.div_unique with (u32 (a + PAGE_SIZE) - a - 1); unfold PAGE_SIZE in *; lia. }
  cbn. intros ->%list_elem_of_singleton. lia.
Qed.

Lemma removed_only V V' sp A w w' a : space_ok V w -> space_ok V' w' -> removed sp A w w' -> (forall b, b ∈ A -> b = a) ->
  only_at sp a w w' /\ (forall pid b q, page_at w' pid b = Some q -> page_at w pid b = Some q).
Proof.
  intros Hs Hs' Hr HA. split.
  - intros pid b Hn. rewrite (removed_page_at V V' sp A w w') by done. rewrite decide_False; [done|].
    intros [-> Hb]. by apply Hn; rewrite (HA b Hb).
  - intros pid b q. rewrite (removed_page_at V V' sp A w w') by done. by destruct (decide _).
Qed.

Lemma upload_vp_flags a rights : Z.land rights 7 = rights -> has a PAGE_MASK = false -> 0 <= a < 2 ^ 32 ->
  let va := Z.lor a (Z.lor rights VPF_ANON) in
  page_of va = a /\ VP_IS_ANON (Vp va 0 1) = true /\ VP_IS_SHARED (Vp va 0 1) = false /\ VP_IS_COW (Vp va 0 1) = false
  /\ forall n, VP_RIGHTS (Vp va n 1) = rights.
Proof.
  intros Hr Hm Ha va. assert (page_of a = a) as Hpa by by apply page_of_id.
  assert (va = Z.lor (Z.lor (page_of a) (Z.land rights 7)) VPF_ANON) as Eva by (unfold va; by rewrite Hpa, Hr, Z.lor_assoc).
  split; [|split; [|split; [|split]]].
  - rewrite Eva, page_of_lor by done. rewrite page_of_lor; [by rewrite Hpa|]. rewrite <- Z.land_assoc. apply Z.land_0_r.
  - unfold VP_IS_ANON. cbn [vaddr]. rewrite Eva, has_lor. by rewrite orb_true_r.
  - unfold VP_IS_SHARED. cbn [vaddr]. rewrite Eva, has_lor. change VPF_SHARED with (2 ^ 3). by rewrite new_flags by lia.
  - unfold VP_IS_COW. cbn [vaddr]. rewrite Eva, has_lor. change VPF_COW with (2 ^ 5). by rewrite new_flags by lia.
  - intros n. unfold VP_RIGHTS. cbn [vaddr]. unfold va. rewrite !Z.land_lor_distr_l. change (Z.land VPF_ANON 7) with 0.
    rewrite Z.lor_0_r, Hr. rewrite <- Hpa. unfold page_of. rewrite <- Z.land_assoc.
    change (Z.land (bnot32 PAGE_MASK) 7) with 0. by rewrite Z.land_0_r.
Qed.

Lemma vm_upload_page_ok t a data prot fl w r w' : vm_ok w -> 0 <= a < 2 ^ 32 -> vm_upload_page t a data prot fl w = Ret r w' ->
  vm_ok w' /\ (r = 0 -> uploaded t a data (prot_to_l4_rights prot) w w').
Proof.
  intros Hw Ha H. unfold vm_upload_page in H. apply bind_ret_inv in H as (s & w1 & H1 & H).
  apply space_at_inv in H1 as (-> & -> & _). destruct (L4_IsNilFpage _) eqn:Eu; [by injection H as <- <-|].
  apply Z.eqb_neq in Eu. destruct (has a PAGE_MASK) eqn:Em; [by injection H as <- <-|].
  repeat match type of H with (if ?b then mret _ else _) _ = _ => destruct b; [by injection H as <- <-|] end.
  pose proof Hw as (V & Hp & Hs). assert (t ∈ ra_used (spaces w)) as Hu by (apply (used_of w); [done|by right]).
  apply bind_ret_inv in H as (v & w1 & H1 & H). destruct (malloc_fresh _ _ _ _ Hp H1) as [Hst1 Hv].
  assert (forall w2, still w w2 -> vm_ok w2) as Hstill by (intros; by apply (vm_inv_still [] w)).
  destruct v as [v|]; [|injection H as <- <-; split; [by apply Hstill|done]]. destruct (Hv v eq_refl) as (HvV & Hvn & Hnone).
  cbv zeta in H. apply bind_ret_inv in H as (mm & w2 & H2 & H). pose proof (calm_malloc _ _ _ H2) as Hst2.
  pose proof (still_trans _ _ _ Hst1 Hst2) as Hst3.
  destruct mm as [mm|]; [|injection H as <- <-; split; [by apply Hstill|done]]. rewrite bind_modify in H.
  match type of H with _ ?wx = _ => set (w3 := wx) in H; assert (still w w3) as Hst by (etrans; [exact Hst3|by split]) end.
  apply bind_ret_inv in H as (n & w4 & H4 & H).
  destruct (reserve_mmap_clears _ _ _ _ _ _ _ _ H4 (Hstill _ Hst)) as ((V4 & Hp4 & Hs4) & B & HB & Hr4).
  assert (removed t B w w4) as Hr.
  { apply (removed_trans t [] B w w3 w4); [|done]. apply (removed_kept _ _ _ w); [apply removed_refl|by apply kept_still]. }
  destruct (n <? 0) eqn:En.
  { apply bind_ret_inv in H as ([] & w5 & H5 & H). injection H as <- <-. pose proof (calm_free_mm _ _ _ _ H5) as Hst5.
    split; [apply (vm_inv_still [] w4); [by exists V4|done]|]. intros ->. done. }
  apply bind_ret_inv in H as (old & w5 & H5 & H). apply bind_ret_inv in H as ([] & w6 & H6 & H).
  destruct (upload_pop V4 t a w4 old w5 w6 Hp4 Hs4 H5 H6) as (Hr6 & V6 & Hp6 & Hs6).
  pose proof (removed_trans _ _ _ _ _ _ Hr Hr6) as Hr7.
  destruct (removed_only V V6 t (B ++ [a]) w w6 a Hs Hs6 Hr7) as [Ho Hback].
  { intros b [Hb%HB|Hb%list_elem_of_singleton]%elem_of_app; [by apply page_range_one|done]. }
  destruct (upload_vp_flags a _ (prot_rights_range prot) Em Ha) as (F1 & F2 & F5 & F3 & F4).
  set (va := Z.lor a _) in *.
  assert (v < next_ptr w6) as Hv6.
  { pose proof (st_next _ _ Hst2). pose proof (reserve_mmap_mounts _ _ _ _ _ _ _ _ H4) as M1.
    pose proof (pop_page_mounts _ _ _ _ _ H5) as M2. unfold mounts in *.
    assert (next_ptr w5 <= next_ptr w6) as M3; [|cbn in *; lia].
    destruct old as [o|]; [|by injection H6 as <-]. apply bind_ret_inv in H6 as (D & w7 & H7 & H6).
    pose proof (remove_vp_mounts _ _ _ _ _ H7). pose proof (remove_active_pls_mounts _ _ _ _ H6). unfold mounts in *. lia. }
  destruct (upload_fill V6 t a w6 v data va r w' Hp6 Hs6) as (-> & k & Hok & Hat & Ho2 & Hex & Hfr & Hne); try done.
  - intros HvV6. destruct (ok_used _ _ _ _ Hp6 v HvV6) as (p & _ & Hpv & _).
    rewrite (rv_none _ _ _ _ Hr7 v) in Hpv; [done|done].
  - rewrite (removed_page_at V4 V6 t [a] w4 w6) by done. rewrite decide_True; [done|]. split; [done|by apply list_elem_of_singleton].
  - by rewrite (rv_used _ _ _ _ Hr7).
  - split; [done|]. intros _. split.
    + exists (Vp va k 1). split; [done|]. split; [apply F4|]. split; [exact Hex|].
      change (status (Vp va k 1)) with k. unfold frame. rewrite Hfr, lookup_insert_eq. done.
    + intros pid b Hn. by rewrite Ho2, Ho.
    + intros pid b q Hn Hq. unfold frame. rewrite Hfr, lookup_insert_ne; [by rewrite (rv_frames _ _ _ _ Hr7)|].
      intros E. apply (Hne pid b q); [by rewrite Ho|done].
Qed.
End requests.
