(* ===== verification/VmServeProps.v ===== *)
(** The virtual memory server as a whole: every request keeps the books of memory and of
    spaces in agreement, and so does every state that is reached from the first one. *)
From S2P Require Import Prelude L4 Pages HashUtil Containers Vm VmMaps VmOps VmProps VmPageProps VmSpaceProps VmForkProps.
From S2P Require Import VmTraceProps VmContentProps VmFaultProps.

(** ** Memory stays in whole pages *)
Section data.
Context `{LA : !L4Abi, VE : !VmEnv, RB : !RbOps}.
#[local] Opaque bob96bitmix hash_cached_page hash_lazy_mmap bucket_of fsid_ino_of int_hash.

(** What is in the last page of a mapping is no more than a page. *)
Definition tails_ok (w : vm) : Prop := forall x m, mms w !! x = Some m -> 0 <= tailsz m <= PAGE_SIZE.
Definition data_ok (w : vm) : Prop := frames_ok w /\ tails_ok w.
Definition whole (w w' : vm) : Prop := data_ok w -> data_ok w'.
#[export] Instance whole_preorder : PreOrder whole.
Proof. split; [by intros w ?|]. intros w1 w2 w3 H1 H2 H. by apply H2, H1. Qed.

Lemma data_same w w' : frames w' = frames w -> mms w' = mms w -> whole w w'.
Proof. intros Hf Hm [H1 H2]. split; [intros n; unfold frame; rewrite Hf; apply H1|intros x m; rewrite Hm; apply H2]. Qed.
Lemma whole_frame w n l : List.length l = Z.to_nat PAGE_SIZE -> whole w (set_frames (<[n := l]> (frames w)) w).
Proof.
  intros Hl [H1 H2]. split; [|done]. intros k. unfold frame. cbn [frames set_frames].
  destruct (decide (k = n)) as [->|]; [by rewrite lookup_insert_eq|rewrite lookup_insert_ne by done; apply H1].
Qed.
Lemma whole_mm w x m : 0 <= tailsz m <= PAGE_SIZE -> whole w (set_mms (<[x := m]> (mms w)) w).
Proof.
  intros Hm [H1 H2]. split; [done|]. intros y m' H. cbn [mms set_mms] in H. destruct (decide (y = x)) as [->|].
  - rewrite lookup_insert_eq in H. by injection H as <-.
  - rewrite lookup_insert_ne in H by done. by apply (H2 y).
Qed.
Lemma whole_mm_upd x f : (forall m, 0 <= tailsz m <= PAGE_SIZE -> 0 <= tailsz (f m) <= PAGE_SIZE) ->
  steps whole (mm_upd x f).
Proof.
  intros Hf. apply steps_modify. intros w [H1 H2]. split; [done|]. intros y m H. cbn [mms set_mms] in H.
  destruct (decide (y = x)) as [->|].
  - rewrite lookup_alter_eq in H. apply fmap_Some in H as (m' & Hm & ->). apply Hf. by apply (H2 x).
  - rewrite lookup_alter_ne in H by done. by apply (H2 y).
Qed.
Lemma whole_free_mm x : steps whole (free_mm x).
Proof. apply steps_modify. intros w [H1 H2]. split; [done|]. intros y m H. cbn [mms set_mms] in H.
  apply lookup_delete_Some in H as [_ H]. by apply (H2 y). Qed.
Lemma steps_mm_at {A} x (k : lazy_mmap -> M vm A) :
  (forall m, 0 <= tailsz m <= PAGE_SIZE -> steps whole (k m)) -> steps whole (mm_at x ≫= k).
Proof.
  intros Hk w r w' (m & w1 & H1 & H)%bind_ret_inv Hw. apply mm_at_inv in H1 as [-> Hm].
  exact (Hk m (proj2 Hw x m Hm) _ _ _ H Hw).
Qed.
Lemma whole_clear_tail n k : 0 <= k <= PAGE_SIZE -> steps whole (clear_tail n k).
Proof.
  intros Hk w r w' H Hw. unfold clear_tail in H. rewrite bind_get in H. injection H as _ <-. apply whole_frame; [|done].
  rewrite length_app, length_take, length_replicate, (proj1 Hw n). unfold PAGE_SIZE in *. lia.
Qed.
(** A free page that is filled has as many bytes as before. *)
Lemma whole_fill {A} n bytes (k : M vm A) : (List.length bytes <= Z.to_nat PAGE_SIZE)%nat -> steps whole k ->
  steps whole (w ← get; _ ← set_frame n (bytes ++ drop (List.length bytes) (frame w n)); k).
Proof.
  intros Hl Hk w r w' H. rewrite bind_get in H. unfold set_frame in H. rewrite bind_modify in H. intros Hw.
  apply (Hk _ _ _ H), whole_frame; [|done]. rewrite length_app, length_drop, (proj1 Hw n). lia.
Qed.
Lemma whole_refill {A} n data (k : M vm A) : steps whole k ->
  steps whole (_ ← set_frame n (take (Z.to_nat PAGE_SIZE) data); _ ← clear_tail n (Z.of_nat (List.length data)); k).
Proof.
  intros Hk w r w' H Hw. unfold clear_tail, set_frame in H. rewrite bind_modify, bind_bind, bind_get, bind_modify in H.
  refine (Hk _ _ _ H _). unfold frame. cbn [frames set_frames]. rewrite lookup_insert_eq. cbn [from_option id].
  split; [|exact (proj2 Hw)]. intros m. unfold frame. cbn [frames set_frames]. rewrite insert_insert_eq.
  destruct (decide (m = n)) as [->|]; [rewrite lookup_insert_eq|rewrite lookup_insert_ne by done; apply (proj1 Hw)].
  cbn [from_option id]. rewrite length_app, !length_take, length_replicate. unfold PAGE_SIZE. lia.
Qed.
Lemma whole_copy_page n c k : steps whole (copy_page n c k).
Proof.
  intros w r w' H Hw. unfold copy_page in H. rewrite bind_get in H. injection H as _ <-. apply whole_frame; [|done].
  rewrite length_app, length_take, length_drop, (proj1 Hw n), (proj1 Hw c). lia.
Qed.

Ltac whole base := repeat first
  [ lazymatch goal with |- steps _ (mm_at _ ≫= _) => apply steps_mm_at; intros end
  | walk_step ltac:(first
    [ base | apply steps_modify; intros; solve [by apply data_same | by apply whole_mm]
    | apply whole_copy_page | apply whole_clear_tail; done | apply whole_free_mm | by apply whole_mm_upd ]) ].

Lemma whole_ask c : steps whole (vm_ask c).
Proof. intros w r w' [= _ <-]. by apply data_same. Qed.
Lemma whole_malloc : steps whole malloc. Proof. unfold malloc. whole ltac:(apply whole_ask). Qed.
Lemma whole_vp_at x : steps whole (vp_at x). Proof. unfold vp_at. whole fail. Qed.
Lemma whole_pl_at x : steps whole (pl_at x). Proof. unfold pl_at. whole fail. Qed.
Lemma whole_get_pp x : steps whole (get_pp x). Proof. unfold get_pp. whole fail. Qed.
Lemma whole_space_upd sp f : steps whole (space_upd sp f). Proof. unfold space_upd. whole fail. Qed.
Lemma whole_space_at sp : steps whole (space_at sp). Proof. unfold space_at. whole fail. Qed.
Lemma whole_vp_upd v f : steps whole (vp_upd v f). Proof. unfold vp_upd. whole fail. Qed.
Lemma whole_set_link n x : steps whole (set_link n x). Proof. unfold set_link. whole fail. Qed.
Lemma whole_set_owner n x : steps whole (set_owner n x). Proof. unfold set_owner. whole fail. Qed.
Lemma whole_push_list l x : steps whole (push_list l x). Proof. unfold push_list. whole fail. Qed.
Lemma whole_free_pl x : steps whole (free_pl x). Proof. unfold free_pl. whole fail. Qed.
Lemma whole_no_reply : steps whole muidl_raise_no_reply. Proof. unfold muidl_raise_no_reply. whole fail. Qed.
Lemma whole_sender_pid : steps whole sender_pid. Proof. unfold sender_pid. whole fail. Qed.
Lemma whole_mapM_vp_at l : steps whole (mapM vp_at l).
Proof. intros w r w' H. apply mapM_vp_at in H as [-> _]. by intros ?. Qed.
Lemma whole_foldM {A B} (f : A -> B -> M vm B) l b : (forall x b, steps whole (f x b)) -> steps whole (foldM f l b).
Proof.
  intros Hf. revert b. induction l as [|x l IH]; intros b; [apply steps_ret; apply _|]. cbn.
  apply steps_bind; [apply _|apply Hf|intros; apply IH].
Qed.
End data.

Create HintDb whole discriminated.
#[export] Hint Resolve whole_ask whole_malloc whole_vp_at whole_pl_at whole_get_pp whole_space_upd whole_space_at
  whole_vp_upd whole_set_link whole_set_owner whole_push_list whole_free_pl whole_no_reply whole_sender_pid
  whole_mapM_vp_at whole_copy_page whole_free_mm : whole.
Ltac whole := repeat first
  [ lazymatch goal with |- steps _ (mm_at _ ≫= _) => apply steps_mm_at; intros end
  | lazymatch goal with |- steps _ (set_frame _ _ ≫= _) => apply whole_refill end
  | walk_step ltac:(first
    [ solve [eauto with whole nocore]
    | apply steps_modify; intros; solve [by apply data_same | by apply whole_mm]
    | apply whole_clear_tail; solve [done | assumption] | by apply whole_mm_upd
    | apply whole_foldM; whole ]) ].

Section kept_whole.
Context `{LA : !L4Abi, VE : !VmEnv, RB : !RbOps}.
#[local] Opaque bob96bitmix hash_cached_page hash_lazy_mmap bucket_of fsid_ino_of int_hash.

Lemma whole_pl2pp x : steps whole (pl2pp x). Proof. unfold pl2pp. whole. Qed.
Lemma whole_hash_phys v : steps whole (hash_vp_by_phys v). Proof. unfold hash_vp_by_phys. whole. Qed.
Lemma whole_htable_add tab h v t : steps whole (htable_add tab h v t). Proof. unfold htable_add. whole. Qed.
Lemma whole_has_shares h n c : steps whole (has_shares h n c). Proof. unfold has_shares. whole. Qed.
Lemma whole_get_free_pl : steps whole get_free_pl. Proof. unfold get_free_pl. whole. Qed.
Lemma whole_del_share h v : steps whole (del_share h v). Proof. unfold del_share. whole. Qed.
Lemma whole_push_fpage fps n r : steps whole (push_fpage fps n r). Proof. unfold push_fpage. whole. Qed.
Lemma whole_flush fps : steps whole (flush_fpages fps). Proof. unfold flush_fpages. whole. Qed.
Lemma whole_pop_page sp a : steps whole (pop_page sp a). Proof. unfold pop_page. whole. Qed.
Lemma whole_remove_active D : steps whole (remove_active_pls D). Proof. unfold remove_active_pls. whole. Qed.
Lemma whole_find_cached m b : steps whole (find_cached_page m b). Proof. unfold find_cached_page. whole. Qed.
Lemma whole_set_key x f o : steps whole (set_key x f o). Proof. unfold set_key. whole. Qed.
Lemma whole_insert sp m : steps whole (insert_lazy_mmap sp m). 
Proof. unfold insert_lazy_mmap. whole. Qed.
#[local] Hint Resolve whole_pl2pp whole_hash_phys whole_htable_add whole_has_shares whole_get_free_pl whole_del_share
  whole_push_fpage whole_flush whole_pop_page whole_remove_active whole_find_cached whole_set_key whole_insert : whole.
Lemma whole_push_page l x : steps whole (push_page l x). Proof. unfold push_page. whole. Qed.
Lemma whole_add_share n v : steps whole (add_share n v). Proof. unfold add_share. whole. Qed.
Lemma whole_rm_share v : steps whole (rm_share v). Proof. unfold rm_share. whole. Qed.
Lemma whole_find sp a : steps whole (find_lazy_mmap sp a). Proof. unfold find_lazy_mmap. whole. Qed.
Lemma whole_first sp a n : steps whole (first_lazy_mmap sp a n). Proof. unfold first_lazy_mmap. whole. Qed.
Lemma whole_push_cached t x : steps whole (push_cached_page t x). Proof. unfold push_cached_page. whole. Qed.
#[local] Hint Resolve whole_push_page whole_add_share whole_rm_share whole_find whole_first whole_push_cached : whole.
Lemma whole_free_page x D : steps whole (free_page x D). Proof. unfold free_page. whole. Qed.
#[local] Hint Resolve whole_free_page : whole.
Lemma whole_remove_vp v D : steps whole (remove_vp v D). Proof. unfold remove_vp. whole. Qed.
#[local] Hint Resolve whole_remove_vp : whole.
Lemma whole_drop_vp v st : steps whole (drop_vp v st). Proof. unfold drop_vp. whole. Qed.
#[local] Hint Resolve whole_drop_vp : whole.
Lemma whole_remove_vp_range sp a n : steps whole (remove_vp_range sp a n). Proof. unfold remove_vp_range. whole. Qed.
Lemma whole_cut_page mm h f p D : steps whole (cut_page mm h f p D). Proof. unfold cut_page. whole. Qed.
#[local] Hint Resolve whole_remove_vp_range whole_cut_page : whole.
Lemma whole_cut_anon mm h f l : steps whole (cut_anon_mmap mm h f l). Proof. unfold cut_anon_mmap. whole. Qed.
#[local] Hint Resolve whole_cut_anon : whole.
Lemma whole_unmap_one sp a n cur : steps whole (unmap_one sp a n cur). Proof. unfold unmap_one. whole. Qed.
#[local] Hint Resolve whole_unmap_one : whole.
Lemma whole_unmap_from sp a n l : steps whole (unmap_from sp a n l).
Proof. induction l; cbn [unmap_from]; whole. Qed.
#[local] Hint Resolve whole_unmap_from : whole.
Lemma whole_munmap sp a n : steps whole (munmap_space sp a n). Proof. unfold munmap_space. whole. Qed.
Lemma whole_get_as_free sp n : steps whole (get_as_free sp n). Proof. unfold get_as_free. whole. Qed.
#[local] Hint Resolve whole_munmap whole_get_as_free : whole.
Lemma whole_reserve mm sp a n f : steps whole (reserve_mmap mm sp a n f). Proof. unfold reserve_mmap. whole. Qed.
#[local] Hint Resolve whole_reserve : whole.

(** *** Requests *)

Lemma whole_map_upd sp m : steps whole (mm_upd sp (fun x => set_place (addr x) m x)).
Proof. by apply whole_mm_upd. Qed.
Lemma whole_mmap t a n p f s d o : steps whole (vm_mmap t a n p f s d o).
Proof.
  unfold vm_mmap, new_mmap. whole. apply steps_modify. intros. apply whole_mm. cbn.
  pose proof (Z.mod_pos_bound n PAGE_SIZE). unfold PAGE_SIZE in *. lia.
Qed.
Lemma whole_brk_fresh sp old a : steps whole (brk_fresh sp old a). Proof. unfold brk_fresh. whole. Qed.
#[local] Hint Resolve whole_brk_fresh : whole.
Lemma whole_brk a : steps whole (vm_brk a).
Proof. unfold vm_brk, brk_extend, brk_shrink. whole. Qed.
Lemma whole_vm_munmap a n : steps whole (vm_munmap a n). Proof. unfold vm_munmap. whole. Qed.
Lemma whole_erase_map sp m : steps whole (erase_map sp m). Proof. unfold erase_map. whole. Qed.
#[local] Hint Resolve whole_erase_map : whole.
Lemma whole_erase t : steps whole (vm_erase t). Proof. unfold vm_erase. whole. Qed.
Lemma whole_configure p u k : steps whole (vm_configure p u k). Proof. unfold vm_configure. whole. Qed.
Lemma whole_fork_maps l d : steps whole (fork_maps l d).
Proof. induction l; cbn [fork_maps]; whole. Qed.
Lemma whole_fork_cow d v c : steps whole (fork_cow d v c). Proof. unfold fork_cow. whole. Qed.
#[local] Hint Resolve whole_fork_maps whole_fork_cow : whole.
Lemma whole_fork_pages_from l : forall d c fps n, steps whole (fork_pages_from l d c fps n).
Proof. induction l as [|[h v] l IH]; intros; cbn [fork_pages_from]; whole. Qed.
#[local] Hint Resolve whole_fork_pages_from : whole.
Lemma whole_fork s d : steps whole (vm_fork s d). Proof. unfold vm_fork, fork_pages, alloc_space. whole. Qed.

Lemma whole_read_at m n off : steps whole (read_at m n off).
Proof. unfold read_at. whole. Qed.
#[local] Hint Resolve whole_read_at : whole.
Lemma whole_fill_page m x off b : steps whole (fill_page m x off b).
Proof.
  unfold fill_page. apply steps_bind; [apply _|whole|]. intros l w r w' H. apply bind_ret_inv in H as ([n bytes] & w1 & H1 & H).
  assert ((List.length bytes <= Z.to_nat PAGE_SIZE)%nat /\ whole w w1) as [Hb H1w].
  { destruct (has _ _); [injection H1 as <- <- <-; split; [cbn; lia|by intros ?]|].
    split; [|by apply (whole_read_at _ _ _ _ _ _ H1)]. unfold read_at in H1.
    apply bind_ret_inv in H1 as ([] & w2 & _ & (z & w3 & _ & H1)%bind_ret_inv).
    destruct (negb _); [injection H1 as _ <- _; cbn; lia|]. rewrite bind_get in H1. injection H1 as _ <- _.
    rewrite length_take. lia. }
  intros Hw. refine (_ w1 r w' H (H1w Hw)). clear H.
  match goal with |- forall w r w', ?m w = _ -> _ => change (steps whole m) end.
  destruct (n <? 0); [whole|]. apply whole_fill; [done|].
  whole. apply whole_clear_tail. unfold PAGE_SIZE in *. lia.
Qed.
#[local] Hint Resolve whole_fill_page : whole.
Lemma whole_upload t a data p f : steps whole (vm_upload_page t a data p f).
Proof.
  unfold vm_upload_page. whole.
Qed.
Lemma whole_cached_for m a : steps whole (cached_for m a). Proof. unfold cached_for. whole. Qed.
Lemma whole_fetch_cached m b v : steps whole (fetch_cached_page m b v). Proof. unfold fetch_cached_page. whole. Qed.
#[local] Hint Resolve whole_cached_for whole_fetch_cached : whole.
Lemma whole_pf_shared v m a : 0 <= tailsz m <= PAGE_SIZE -> steps whole (pf_mmap_shared v m a).
Proof. intros Hm. unfold pf_mmap_shared. whole. Qed.
Lemma whole_pf_private v m a rwx : 0 <= tailsz m <= PAGE_SIZE -> steps whole (pf_mmap_private v m a rwx).
Proof. intros Hm. unfold pf_mmap_private. whole. Qed.
#[local] Hint Resolve whole_pf_shared whole_pf_private : whole.
Lemma whole_pf_fill v m a rwx : 0 <= tailsz m <= PAGE_SIZE -> steps whole (pf_fill v m a rwx).
Proof. intros Hm. unfold pf_fill. whole. Qed.
#[local] Hint Resolve whole_pf_fill : whole.
Lemma whole_pf_new sp a rwx rights m : 0 <= tailsz m <= PAGE_SIZE -> steps whole (pf_new sp a rwx rights m).
Proof. intros Hm. unfold pf_new. whole. Qed.
Lemma whole_pf_cow v : steps whole (pf_cow v). Proof. unfold pf_cow. whole. Qed.
#[local] Hint Resolve whole_pf_new whole_pf_cow : whole.
Lemma whole_vm_pf a : steps whole (vm_pf a). Proof. unfold vm_pf. whole. Qed.
End kept_whole.

(** ** Every request *)
Section serve.
Context `{LA : !L4Abi, VE : !VmEnv, RB : !RbOps}.
#[local] Opaque bob96bitmix hash_cached_page hash_lazy_mmap bucket_of fsid_ino_of int_hash.

(** What holds between requests *)
Definition vm_sane (w : vm) : Prop := vm_ok w /\ data_ok w.

Lemma steps_drop {A} (R : vm -> vm -> Prop) (m : M vm A) w w' : steps R m -> (_ ← m; mret tt) w = Ret tt w' -> R w w'.
Proof. intros Hm (a & w1 & H1 & H)%bind_ret_inv. injection H as <-. by apply (Hm _ _ _ H1). Qed.
Lemma breath_calm t s i : calm (vm_breath_of_life t s i). Proof. unfold vm_breath_of_life. calm. Qed.
Lemma breath_whole t s i : steps whole (vm_breath_of_life t s i). Proof. unfold vm_breath_of_life. whole. Qed.
Lemma iopf_calm : calm vm_iopf. Proof. unfold vm_iopf. calm. Qed.
Lemma iopf_whole : steps whole vm_iopf. Proof. unfold vm_iopf. whole. Qed.

Lemma serve_whole r : steps whole (vm_serve r).
Proof.
  destruct r; cbn [vm_serve]; try (intros w [] w'; apply steps_drop).
  - apply whole_mmap.
  - apply whole_vm_munmap.
  - apply whole_fork.
  - apply whole_configure.
  - apply whole_upload.
  - apply breath_whole.
  - apply whole_brk.
  - apply whole_erase.
  - apply whole_vm_pf.
  - apply iopf_whole.
Qed.

Lemma serve_ok r w w' : vm_sane w -> vm_serve r w = Ret tt w' -> no_share_lost w' -> vm_sane w'.
Proof.
  intros [Hw Hd] H Hsl. split; [|by apply (serve_whole r _ _ _ H)].
  destruct r; cbn [vm_serve] in H;
    try (apply bind_ret_inv in H as (x & w1 & H1 & H); injection H as <-).
  - by apply (vm_mmap_shrinks _ _ _ _ _ _ _ _ _ _ _ H1).
  - by apply (vm_munmap_shrinks _ _ _ _ _ H1).
  - by destruct (vm_fork_ok _ _ _ _ _ Hw H1 Hsl).
  - by apply (vm_configure_sound _ _ _ _ _ _ H1).
  - by destruct (vm_upload_page_ok _ _ _ _ _ _ _ _ Hw (u32_range _) H1).
  - by apply (vm_inv_still [] w), (breath_calm _ _ _ _ _ _ H1).
  - by apply (vm_brk_shrinks _ _ _ _ H1).
  - by destruct (vm_erase_ok _ _ _ _ Hw H1).
  - pose proof (whole_vm_pf _ _ _ _ H1 Hd) as Hd'. by destruct (vm_pf_ok _ _ _ _ Hw (proj1 Hd) (proj1 Hd') H1 Hsl).
  - by apply (vm_inv_still [] w), (iopf_calm _ _ _ H).
Qed.

Lemma message_sane sender label w : vm_sane w -> vm_sane (set_vm_message sender label w).
Proof. intros [Hw Hd]. split; [|by apply (data_same w)]. apply (vm_inv_still [] w); [done|]. by split. Qed.
Lemma step_ok w w' : vm_sane w -> vm_step w w' -> no_share_lost w' -> vm_sane w'.
Proof.
  intros Hw (sender & label & r & H) Hsl. unfold vm_turn in H. rewrite bind_modify in H.
  apply (serve_ok r _ _) in H; [done| |done]. by apply message_sane.
Qed.

(** Requests and faults one after the other, each with its sender and the label of its message *)
Fixpoint vm_turns (l : list (Z * Z * vm_request)) : M vm unit :=
  match l with [] => mret tt | (sender, label, r) :: l => _ ← vm_turn sender label r; vm_turns l end.
Lemma turns_steps l w w' : vm_turns l w = Ret tt w' -> rtc vm_step w w'.
Proof.
  revert w. induction l as [|[[s f] r] l IH]; intros w H; [by injection H as <-|]. cbn [vm_turns] in H.
  apply bind_ret_inv in H as ([] & w1 & H1 & H). apply (rtc_l _ _ w1); [by exists s, f, r|by apply IH].
Qed.

(** ** The start *)

(** The numbers of the pages in the areas [phys] *)
Definition phys_pages (phys : list (Z * Z)) : list Z := phys ≫= (fun a => (fun o => a.1 + o) <$> seqZ 0 a.2).

Lemma add_phys_ok n w : pages_ok ∅ [] ∅ w -> pps w !! n = None -> pp_first <= n -> pages_ok ∅ [] ∅ (add_phys_page n w).
Proof.
  intros Hp Hn Hf. pose proof Hp as [A1 A2 A3 A4 A5 A6 A7 A8 A9 A10 A11 A12 A13 A14 A15 A16 A17 A18].
  set (x := next_ptr w). set (w' := add_phys_page n w).
  assert (forall l y, y ∈ lst w' l <-> (l = page_free_list /\ y = x) \/ y ∈ lst w l) as Hin.
  { intros l y. unfold w', add_phys_page, lst at 1. cbn [lists set_lists]. destruct (decide (l = page_free_list)) as [->|].
    - rewrite lookup_insert_eq. cbn [default from_option id]. rewrite elem_of_cons. unfold x. tauto.
    - rewrite lookup_insert_ne by done. fold (lst w l). tauto. }
  assert (forall y p, pls w !! y = Some p -> pls w' !! y = Some p) as Hold.
  { intros y p Hy. cbn. rewrite lookup_insert_ne; [done|]. pose proof (A15 y p Hy). lia. }
  assert (forall l y, y ∈ lst w l -> y <> x) as Hne.
  { intros l y (p & Hy & _)%A1 ->. pose proof (A15 _ _ Hy). unfold x in *. lia. }
  assert (pls w' !! x = Some (Pl n 1 0 0)) as Hx by apply lookup_insert_eq.
  assert (pps w' !! n = Some (Pp (Some x) None)) as Hnew by apply lookup_insert_eq.
  assert (forall m, m <> n -> pps w' !! m = pps w !! m) as Hpps by (intros; by apply lookup_insert_ne).
  split; try done.
  - intros l y [[-> ->]|Hy]%Hin.
    + exists (Pl n 1 0 0). split; [done|]. split; [done|]. intros _. by exists (Pp (Some x) None).
    + destruct (A1 l y Hy) as (p & Hpy & H1 & H2). exists p. split; [by apply Hold|]. split; [done|].
      intros (q & Hq & Hl)%H2. exists q. split; [|done]. cbn. rewrite lookup_insert_ne; [done|congruence].
  - intros l. unfold w', add_phys_page, lst at 1. cbn [lists set_lists]. destruct (decide (l = page_free_list)) as [->|].
    + rewrite lookup_insert_eq. apply NoDup_cons. split; [|apply A2]. intros Hy. by apply (Hne page_free_list x).
    + rewrite lookup_insert_ne by done. apply A2.
  - intros l l' y [[-> ->]|Hy]%Hin [[-> Ey]|Hy']%Hin; [done| | |by apply (A3 l l' y)].
    + by destruct (Hne l' x).
    + by destruct (Hne l y).
  - intros m q Hq. destruct (decide (m = n)) as [->|Hm].
    + rewrite Hnew in Hq. injection Hq as <-. split; [done|]. exists x, (Pl n 1 0 0), page_free_list.
      do 4 (split; [done|]). apply Hin. by left.
    + rewrite Hpps in Hq by done. destruct (A4 m q Hq) as (H1 & y & p & l & H2 & H3 & H4 & H5 & H6). split; [done|].
      exists y, p, l. do 2 (split; [by auto|]). do 2 (split; [done|]). apply Hin. by right.
  - intros m q v Hq Hv. destruct (decide (m = n)) as [->|Hm]; [rewrite Hnew in Hq; injection Hq as <-; done|].
    rewrite Hpps in Hq by done. by destruct (A5 m q v Hq Hv).
  - intros h v Hs. by destruct (A6 h v Hs) as (p & _ & HV & _).
  - by intros y p v _ _ [].
  - intros y p [[? _]|Hy]%Hin Hpy Hst _; [done|]. destruct (A1 _ _ Hy) as (p' & Hp' & _). pose proof (Hold _ _ Hp') as E.
    rewrite Hpy in E. injection E as <-. by destruct (A14 y p Hy Hp' Hst) as (v & HV & _).
  - intros y p Hy. cbn in Hy |- *. destruct (decide (y = x)) as [->|]; [unfold x; lia|].
    rewrite lookup_insert_ne in Hy by done. pose proof (A15 y p Hy). lia.
  - intros v p Hv. pose proof (A16 v p Hv). cbn. lia.
  - by intros y p Hy%elem_of_nil.
  - by intros y Hy%elem_of_nil.
Qed.

(** Nothing in use yet *)
Record booted (w : vm) : Prop := Booted {
  bo_pages : pages_ok ∅ [] ∅ w; bo_frames : frames w = ∅; bo_mms : mms w = ∅; bo_spaces : spaces w = Ra ∅ ∅
}.
Lemma vm0_booted : booted vm0.
Proof.
  split; try done. assert (forall l, lst vm0 l = []) as Hl by done.
  split; intros *; rewrite ?Hl; cbn; try by intros ?%elem_of_nil.
  all: try match goal with |- NoDup [] => by apply NoDup_nil end.
  all: try by rewrite lookup_empty.
  all: by intros ?%elem_of_empty.
Qed.
Lemma add_phys_pps l : forall w n, pps (foldl (fun w n => add_phys_page n w) w l) !! n = None <-> pps w !! n = None /\ n ∉ l.
Proof.
  induction l as [|m l IH]; intros w n; cbn [foldl]; [set_solver|]. rewrite IH, elem_of_cons. cbn [pps add_phys_page set_lists set_pls set_pps].
  rewrite lookup_insert_None. naive_solver.
Qed.
Lemma add_phys_booted l : forall w, booted w -> NoDup l -> (forall n, n ∈ l -> pps w !! n = None /\ pp_first <= n) ->
  booted (foldl (fun w n => add_phys_page n w) w l).
Proof.
  induction l as [|n l IH]; intros w Hw Hnd Hl; [done|]. apply NoDup_cons in Hnd as [Hn Hnd]. cbn [foldl].
  apply IH; [|done|].
  - destruct Hw as [H1 H2 H3 H4]. destruct (Hl n ltac:(by left)) as [Hno Hf]. split; try done. by apply add_phys_ok.
  - intros m Hm. destruct (Hl m ltac:(by right)) as [Hno Hf]. split; [|done]. cbn. rewrite lookup_insert_ne; [done|].
    by intros ->.
Qed.
Lemma init_phys_fold phys : forall w, init_phys phys w = foldl (fun w n => add_phys_page n w) w (phys_pages phys).
Proof.
  induction phys as [|[b k] phys IH]; intros w; [done|]. unfold init_phys, phys_pages in *. cbn [foldl mbind list_bind].
  rewrite foldl_app, IH. f_equal. cbn [fst snd]. clear IH. revert w. induction (seqZ 0 k) as [|o l IHl]; intros w; [done|].
  cbn. apply IHl.
Qed.

(** vm after its start, with the physical memory [phys] *)
Definition vm_booted (phys : list (Z * Z)) : vm := init_phys phys vm0.

Lemma vm_booted_sane phys : NoDup (phys_pages phys) -> Forall (fun n => pp_first <= n) (phys_pages phys) ->
  vm_sane (vm_booted phys).
Proof.
  intros Hnd Hf. assert (booted (vm_booted phys)) as [H1 H2 H3 H4].
  { unfold vm_booted. rewrite init_phys_fold. apply add_phys_booted; [apply vm0_booted|done|]. intros n Hn. split; [done|].
    by apply (proj1 (Forall_forall _ _) Hf). }
  split; [exists ∅; split; [done|]|split].
  - assert (forall pid, space_of (vm_booted phys) pid = vm_space0) as Hs by (intros; unfold space_of, ra_slot; by rewrite H4).
    split; unfold addrs, tab; intros *; rewrite ?Hs; cbn; try by intros ?%elem_of_nil.
    + done.
    + apply NoDup_nil. done.
    + done.
  - intros n. unfold frame. rewrite H2, lookup_empty. cbn [from_option]. by rewrite length_replicate.
  - intros x m. by rewrite H3, lookup_empty.
Qed.

(** Every state that vm gets to is sane, as long as no share was lost: each page is on one list, is free or in use by who the
    books say, and is in the tables of at most one space unless it is shared or copied on write. *)
Lemma reachable_sane phys w : NoDup (phys_pages phys) -> Forall (fun n => pp_first <= n) (phys_pages phys) ->
  rtc vm_step (vm_booted phys) w -> no_share_lost w -> vm_sane w.
Proof.
  intros Hnd Hf H. pose proof (vm_booted_sane phys Hnd Hf) as Hs. revert Hs.
  induction H as [|w1 w2 w3 Hstep Hrest IH]; [done|]. intros Hs Hsl. apply IH; [|done]. apply (step_ok w1 w2); [done|done|].
  apply (grown_shares _ w3); [|done]. clear -Hrest. induction Hrest as [|? ? ? H _ IH]; [done|].
  etrans; [by apply grown_step|done].
Qed.

(** The page at an address of a space can be written to there and is not shared. *)
Definition private_page (w : vm) (pid a : Z) (p : vp) : Prop :=
  page_at w pid a = Some p /\ has (vaddr p) L4_Writable = true /\ VP_IS_SHARED p = false.
(** Memory of [p] is nobody else's, nor free to be given out. *)
Definition exclusive (w : vm) (pid a : Z) (p : vp) : Prop :=
  (forall pid' b q, page_at w pid' b = Some q -> status q = status p -> pid' = pid /\ b = a)
  /\ (forall x l, x ∈ lst w page_free_list -> pls w !! x = Some l -> page_num l <> status p).

(** Anonymous memory that is not to be copied is its space's alone. *)
Lemma anon_exclusive w pid a p : vm_ok w -> page_at w pid a = Some p -> VP_IS_ANON p = true -> VP_IS_COW p = false ->
  exclusive w pid a p.
Proof.
  intros (V & Hp & Hs) Hat Han Hc. destruct (page_at_uses V w pid a p Hs Hat) as (v & HV & Hv & Hin & Ha). split.
  - intros pid' b q Hq Es. destruct (page_at_uses V w pid' b q Hs Hq) as (u & HuV & Hu & Huin & Hb).
    assert (u = v) as ->; [|split; [by apply (so_one _ _ Hs _ _ (int_hash b) (int_hash a) v)|congruence]].
    apply (ok_private _ _ _ _ Hp v u p); try done. split; [done|by exists q].
  - intros x l Hx Hl E. apply (ok_free _ _ _ _ Hp x l v Hx Hl). split; [done|]. by exists p.
Qed.
Lemma sane_exclusive w pid a p : vm_sane w -> private_page w pid a p -> exclusive w pid a p.
Proof.
  intros [Hok _] (Hat & Hw & Hsh). pose proof Hok as (V & Hp & Hs).
  destruct (page_at_uses V w pid a p Hs Hat) as (v & HV & Hv & Hin & Ha). apply anon_exclusive; [done..| |].
  - rewrite (ok_shared _ _ _ _ Hp v p HV Hv) in Hsh. by destruct (VP_IS_ANON p).
  - destruct (VP_IS_COW p) eqn:Ec; [|done]. by rewrite (ok_cow _ _ _ _ Hp v p HV Hv Ec) in Hw.
Qed.
End serve.
