(* ===== verification/VmAnswerProps.v ===== *)
(** What the faults for memory come to when memory may run out: every way for the handler to
    stop instead of answering. *)
From S2P Require Import Prelude L4 Pages HashUtil Containers Vm VmMaps VmOps VmProps VmPageProps VmSpaceProps VmForkProps.
From S2P Require Import VmTraceProps VmContentProps VmFaultProps VmServeProps.

(** ** The operation comes to an answer, or it stops for one of the reasons [P]. *)
Definition answers {S A} (P : stop -> Prop) (m : M S A) (w : S) : Prop :=
  match m w with Ret _ _ => True | Stop s => P s end.

Section answers.
Context {S : Type} (P : stop -> Prop).
Lemma answers_bind {A B} (m : M S A) (k : A -> M S B) w : answers P m w ->
  (forall a w1, m w = Ret a w1 -> answers P (k a) w1) -> answers P (m ≫= k) w.
Proof.
  unfold answers, mbind, M_bind. intros Hm Hk. destruct (m w) as [a w1|] eqn:E; [by apply Hk|done].
Qed.
Lemma answers_run {A B} (m : M S A) (k : A -> M S B) w a w1 : m w = Ret a w1 -> answers P (k a) w1 -> answers P (m ≫= k) w.
Proof. intros H Hk. unfold answers. by rewrite (bind_ret m k w a w1). Qed.
Lemma answers_ret {A} (m : M S A) w a w1 : m w = Ret a w1 -> answers P m w.
Proof. unfold answers. by intros ->. Qed.
End answers.

Section served.
Context `{LA : !L4Abi, VE : !VmEnv, RB : !RbOps}.
#[local] Opaque bob96bitmix hash_cached_page hash_lazy_mmap bucket_of fsid_ino_of int_hash.

(** malloc() has nothing after the calls [tr]. *)
Definition malloc_fails (tr : list vmcall) : Prop := vm_env tr VMalloc = 0.
(** No page is free, or there is no memory for the link of one that is put to use. *)
Definition new_page_stop (w : vm) (tr : list vmcall) (s : stop) : Prop :=
  (s = StAbort /\ lst w page_free_list = []) \/ (s = StFault /\ malloc_fails tr).

Lemma malloc_run w : vm_env (vm_trace w) VMalloc <> 0 ->
  malloc w = Ret (Some (next_ptr w)) (set_next_ptr (next_ptr w + 1) (add_vmcall VMalloc w)).
Proof.
  intros Hne. unfold malloc, vm_ask. unfold mbind, M_bind. by destruct (Z.eqb_spec (vm_env (vm_trace w) VMalloc) 0).
Qed.
Lemma malloc_none w : malloc_fails (vm_trace w) -> malloc w = Ret None (add_vmcall VMalloc w).
Proof. intros E. unfold malloc, vm_ask, mbind, M_bind. by rewrite E. Qed.

Lemma push_page_answers (P : stop -> Prop) l x w p q : pls w !! x = Some p -> pps w !! page_num p = Some q ->
  pp_first <= page_num p -> (malloc_fails (vm_trace w) -> P StFault) -> answers P (push_page l x) w.
Proof.
  intros Hp Hq Hf HP. unfold push_page. destruct (decide (malloc_fails (vm_trace w))) as [E|Hne].
  { apply (answers_run _ _ _ _ None _ (malloc_none _ E)). by apply HP. }
  eapply answers_run; [by apply malloc_run|]. unfold answers. cbn [of_option]. rewrite bind_of_some.
  rewrite (bind_ret (pl_at x) _ _ p (set_next_ptr (next_ptr w + 1) (add_vmcall VMalloc w))) by by apply pl_at_inv.
  rewrite bind_modify. set (w1 := set_pls _ _).
  assert (exists p', pls w1 !! x = Some p' /\ page_num p' = page_num p) as (p' & Hp' & En).
  { cbn. destruct (decide (x = next_ptr w)) as [->|]; [rewrite lookup_insert_eq; by eexists|].
    rewrite lookup_insert_ne by done. by exists p. }
  unfold pl2pp. rewrite bind_bind. rewrite (bind_ret (pl_at x) _ _ p' w1) by by apply pl_at_inv.
  by rewrite (bind_ret _ _ _ q w1) by (apply get_pp_inv; rewrite En; by split_and!).
Qed.
Lemma push_page_trace l x w w' : push_page l x w = Ret tt w' -> vm_trace w' = VMalloc :: vm_trace w.
Proof. intros H. apply push_page_inv in H as (o & q & _ & _ & ->). done. Qed.
Lemma has_shares_run h n w : (forall h v, (h, v) ∈ share_table w -> is_Some (vps w !! v)) ->
  exists b, has_shares h n 1 w = Ret b w.
Proof.
  intros Hs. unfold has_shares. rewrite bind_assert. cbn. rewrite bind_get.
  assert (exists vs, mapM vp_at (htable_vals h (share_table w)) w = Ret vs w) as [vs Hvs].
  { assert (forall v, v ∈ htable_vals h (share_table w) -> is_Some (vps w !! v)) as Hv.
    { intros v ([h' v'] & -> & [_ Hin]%list_elem_of_filter)%list_elem_of_fmap. by apply (Hs h'). }
    induction (htable_vals h (share_table w)) as [|v l IH]; [by eexists|].
    destruct (Hv v ltac:(by left)) as [p Hp]. destruct IH as [vs Hvs]; [intros u Hu; apply Hv; by right|].
    exists (p :: vs). cbn. rewrite (bind_ret (vp_at v) _ _ p w) by by apply vp_at_inv.
    by rewrite (bind_ret _ _ _ _ _ Hvs). }
  rewrite (bind_ret _ _ _ _ _ Hvs). by eexists.
Qed.

(** The first free page, if there is one, and then the rest of the work *)
Lemma get_free_pl_answers {A} (P : stop -> Prop) V D E w (k : Z -> M vm A) : pages_ok V D E w ->
  (lst w page_free_list = [] -> P StAbort) ->
  (forall x l p q, pls w !! x = Some p -> pps w !! page_num p = Some q -> pp_first <= page_num p -> x < next_ptr w ->
    answers P (k x) (set_lists (<[page_free_list := l]> (lists w)) w)) ->
  answers P (link ← get_free_pl; k link) w.
Proof.
  intros Hok Hno Hk. destruct (lst w page_free_list) as [|x l] eqn:El.
  { unfold answers, get_free_pl. rewrite bind_bind, bind_get, El. by apply Hno. }
  assert (x ∈ lst w page_free_list) as Hx by (rewrite El; by left).
  destruct (ok_listed _ _ _ _ Hok _ _ Hx) as (p & Hp & _).
  destruct (ok_page_of _ _ _ _ _ _ _ Hok Hx Hp (ok_free_live _ _ _ _ _ _ Hok Hx Hp)) as (q & Hq & _).
  eapply answers_run; [|apply (Hk x l p q); [done|done| |]].
  - unfold get_free_pl. rewrite bind_get, El. done.
  - by apply (ok_page _ _ _ _ Hok _ q).
  - by apply (ok_next_pl _ _ _ _ Hok _ p).
Qed.
Lemma claim_answers {A} (P : stop -> Prop) l x w p q v (k : M vm A) : pls w !! x = Some p -> pps w !! page_num p = Some q ->
  pp_first <= page_num p -> (malloc_fails (vm_trace w) -> P StFault) ->
  (forall w', push_page l x (set_pps (alter (fun p => Pp (link p) v) (page_num p) (pps w)) w) = Ret tt w' -> answers P k w') ->
  answers P (_ ← pl2pp x; _ ← set_owner (page_num p) v; _ ← push_page l x; k) w.
Proof.
  intros Hp Hq Hf HP Hk. apply (answers_run _ _ _ _ q w).
  { unfold pl2pp. rewrite (bind_ret (pl_at x) _ _ p w) by by apply pl_at_inv. apply get_pp_inv. by split_and!. }
  unfold set_owner. eapply answers_run; [reflexivity|]. set (w1 := set_pps _ w) in *.
  apply answers_bind; [|intros [] w2; apply Hk].
  apply (push_page_answers P l x w1 p (Pp (link q) v)); [done| |done|done].
  cbn. by rewrite lookup_alter_eq, Hq.
Qed.

(** *** Anonymous memory *)
Lemma fill_anon_answers (P : stop -> Prop) V w v : pages_ok V [] ∅ w ->
  (forall s, new_page_stop w (vm_trace w) s -> P s) ->
  answers P (link ← get_free_pl; l ← pl_at link; _ ← clear_tail (page_num l) 0; _ ← pl2pp link;
   _ ← set_owner (page_num l) (Some v); _ ← push_page page_active_list link; _ ← free_pl link;
   _ ← vp_upd v (fun v => set_vaddr (Z.lor (vaddr v) VPF_ANON) v); mret (page_num l)) w.
Proof.
  intros Hok HP. eapply get_free_pl_answers; [done|intros ?; apply HP; by left|]. intros x l p q Hp Hq Hf Hxn.
  eapply answers_run; [by apply pl_at_inv|]. eapply answers_run; [reflexivity|].
  eapply claim_answers; [done..|intros ?; apply HP; by right|]. intros w' _. by eapply answers_ret.
Qed.
Lemma fill_anon_trace w v n w' :
  (link ← get_free_pl; l ← pl_at link; _ ← clear_tail (page_num l) 0; _ ← pl2pp link;
   _ ← set_owner (page_num l) (Some v); _ ← push_page page_active_list link; _ ← free_pl link;
   _ ← vp_upd v (fun v => set_vaddr (Z.lor (vaddr v) VPF_ANON) v); mret (page_num l)) w = Ret n w' ->
  vm_trace w' = VMalloc :: vm_trace w.
Proof.
  intros (x & w1 & (l & _ & ->)%get_free_pl_inv & (p & w2 & [-> _]%pl_at_inv & H)%bind_ret_inv)%bind_ret_inv.
  unfold clear_tail, set_frame in H. rewrite bind_bind, bind_get, bind_modify in H.
  apply bind_ret_inv in H as (q & w3 & [-> _]%pl2pp_inv & H). unfold set_owner in H. rewrite bind_modify in H.
  apply bind_ret_inv in H as ([] & w4 & Ht%push_page_trace & H). unfold free_pl, vp_upd in H. rewrite !bind_modify in H.
  injection H as _ <-. exact Ht.
Qed.

(** A page of anonymous memory that was made for a fault *)
Record zeroed (sp a rights : Z) (p : vp) (w w' : vm) : Prop := Zeroed {
  zr_sane : vm_ok w';
  zr_page : page_at w' sp a = Some p;
  zr_rights : VP_RIGHTS p = rights;
  zr_frame : frame w' (status p) = replicate 4096 0;
  zr_own : exclusive w' sp a p;
  zr_only : only_at sp a w w';
  zr_frames pid b q : page_at w pid b = Some q -> frame w' (status q) = frame w (status q)
}.

(** The handler stops when there is no memory for the new page's structure, no page or no link
    for it, or no room for it in the space's table; [tr] are the calls before. *)
Definition anon_stop (w : vm) (s : stop) : Prop :=
  let tr := vm_trace w in
  (s = StAbort /\ malloc_fails tr) \/ new_page_stop w (VMalloc :: tr) s
  \/ (s = StAbort /\ vm_env (VMalloc :: VMalloc :: tr) (VHtableAdd TabPages) = 0).

Lemma htable_add_answers (P : stop -> Prop) {A} h v t (k : bool * htable -> M vm A) w :
  answers P (k (true, t ++ [(h, v)])) (add_vmcall (VHtableAdd TabPages) w) ->
  (vm_env (vm_trace w) (VHtableAdd TabPages) = 0 -> answers P (k (false, t)) (add_vmcall (VHtableAdd TabPages) w)) ->
  answers P (htable_add TabPages h v t ≫= k) w.
Proof.
  intros H1 H2. apply answers_bind; [by eapply answers_ret|]. unfold htable_add, vm_ask.
  intros [ok t'] w1 (z & w2 & [= <- <-] & H)%bind_ret_inv.
  destruct (Z.eqb_spec (vm_env (vm_trace w) (VHtableAdd TabPages)) 0); injection H as <- <- <-; auto.
Qed.

Lemma anon_fill faddr rwx m v : has (flags m) MAP_ANONYMOUS = true -> has (flags m) MAP_SHARED = false ->
  pf_fill v m faddr rwx =
    (link ← get_free_pl; l ← pl_at link; _ ← clear_tail (page_num l) 0; _ ← pl2pp link;
     _ ← set_owner (page_num l) (Some v); _ ← push_page page_active_list link; _ ← free_pl link;
     _ ← vp_upd v (fun v => set_vaddr (Z.lor (vaddr v) VPF_ANON) v); mret (page_num l)).
Proof. intros Ha Hsh. unfold pf_fill. rewrite Hsh, Ha. cbn [orb negb andb]. by rewrite andb_false_r. Qed.

Lemma pf_new_anon_answers V sp faddr rwx k m w : pages_ok V [] ∅ w -> space_ok V w ->
  has (flags m) MAP_ANONYMOUS = true -> has (flags m) MAP_SHARED = false ->
  answers (anon_stop w) (pf_new sp faddr rwx (Z.land k 7) m) w.
Proof.
  intros Hp Hs Ha Hsh.
  set (pv := Vp (Z.lor (page_of faddr) (Z.land k 7)) 0 1). destruct (fresh_vp_ok V pv w Hp Hs) as (Hp1 & HvV & Hv1).
  unfold pf_new. destruct (decide (malloc_fails (vm_trace w))) as [E|Hne].
  { eapply answers_run; [by apply malloc_none|]. by left. }
  eapply answers_run; [by apply malloc_run|]. cbv beta iota. eapply answers_run; [reflexivity|].
  change (set_vps _ _) with (fresh_vp pv w). rewrite (anon_fill faddr rwx m _ Ha Hsh).
  apply answers_bind; [apply (fill_anon_answers _ V); [done|]; intros s Hst; by right; left|].
  intros n w2 H2. destruct (fill_anon V _ _ pv n w2 Hp1 HvV Hv1 (new_vp_plain _ _ _) H2) as (Hm & _).
  destruct (md_vp _ _ _ _ _ _ _ Hm) as (p' & Hp' & _). apply fill_anon_trace in H2.
  eapply answers_run; [reflexivity|]. eapply answers_run; [apply vp_at_inv; split; [done|exact Hp']|].
  apply (answers_run _ _ _ _ _ _ eq_refl). apply htable_add_answers.
  - by eapply answers_run.
  - intros E. cbn in E. rewrite H2 in E. by right; right.
Qed.

Lemma pf_new_anon V sp faddr rwx k m w r w' : pages_ok V [] ∅ w -> space_ok V w -> sp ∈ ra_used (spaces w) ->
  page_at w sp (page_of faddr) = None -> has (flags m) MAP_ANONYMOUS = true -> has (flags m) MAP_SHARED = false ->
  pf_new sp faddr rwx (Z.land k 7) m w = Ret r w' -> exists p, r = (status p, VP_RIGHTS p)
    /\ zeroed sp (page_of faddr) (Z.land k 7) p w w'.
Proof.
  intros Hp Hs Hu Hno Ha Hsh H.
  set (pv := Vp (Z.lor (page_of faddr) (Z.land k 7)) 0 1). destruct (fresh_vp_ok V pv w Hp Hs) as (Hp1 & HvV & Hv1).
  apply pf_new_inv in H as (n & w2 & H2 & p & Hv & -> & ->). cbv zeta in Hv. fold pv in H2.
  rewrite (anon_fill faddr rwx m _ Ha Hsh) in H2.
  destruct (fill_anon V _ _ pv n w2 Hp1 HvV Hv1 (new_vp_plain _ _ _) H2) as (Hm & Hfr & x & px & Hx & Hpx & En).
  pose proof (made_filled _ _ _ VPF_ANON _ _ _ ltac:(by left) (new_vp_plain _ _ _) Hm) as [F1 _ F5 F6].
  set (w3 := set_vps _ w2) in *. destruct (md_vp _ _ _ _ _ _ _ Hm) as (p' & Hp' & Eva & Es).
  rewrite Hp' in Hv. injection Hv as <-.
  destruct (page_of_aligned faddr) as [Hm1 Hm2].
  assert (Z.land (Z.land k 7) 7 = Z.land k 7) as E7 by by rewrite <- Z.land_assoc.
  destruct (upload_vp_flags (page_of faddr) (Z.land k 7) E7 Hm1 Hm2) as (G1 & G2 & G3 & G4 & G5).
  rewrite Z.lor_assoc in *. change (Z.lor (Z.lor (page_of faddr) (Z.land k 7)) VPF_ANON) with (Z.lor (vaddr pv) VPF_ANON) in *.
  destruct (rest_spaces _ _ F6) as [_ Hsp].
  destruct (enter_vp_ok V w w3 sp (next_ptr w) p' (page_of faddr)) as (E1 & E2 & E3 & E4); try done.
  { by rewrite Eva. }
  { intros u Hne. rewrite F5 by done. unfold fresh_vp. cbn. by rewrite lookup_insert_ne. }
  assert (VP_RIGHTS p' = Z.land k 7) as Er by (unfold VP_RIGHTS in *; rewrite Eva; apply (G5 0)).
  exists p'. rewrite Es. split; [done|].
  assert (vm_ok (enter_vp sp (next_ptr w) p' w3)) as Hok by by exists ({[next_ptr w]} ∪ V).
  assert (frames (enter_vp sp (next_ptr w) p' w3) = <[n := replicate 4096 0]> (frames w)) as Hf3 by exact Hfr.
  split; try done.
  - unfold frame. rewrite Es, Hf3, lookup_insert_eq. done.
  - apply anon_exclusive; [done..| |]; unfold VP_IS_ANON, VP_IS_COW in *; by rewrite Eva.
  - intros pid b q Hq. unfold frame. rewrite Hf3, lookup_insert_ne; [done|]. intros Eq.
    destruct (page_at_uses V w pid b q Hs Hq) as (u & HuV & Hu' & _).
    apply (ok_free _ _ _ _ Hp x px u Hx Hpx). split; [done|]. exists q. split; [done|congruence].
Qed.

(** *** Pages that are copied on write *)

Lemma cow_alone_answers P v w p (o : option Z) : vps w !! v = Some p -> VP_IS_SHARED p = false ->
  answers P (_ ← when_ (bool_decide (o = None)) (set_owner (status p) (Some v));
   _ ← vp_upd v (fun v => set_vaddr (Z.lor (clear_bits (vaddr v) VPF_COW) L4_Writable) v);
   v ← vp_at v; assert_ (negb (VP_IS_SHARED v))) w.
Proof.
  intros Hp Hs. assert (exists w1, when_ (bool_decide (o = None)) (set_owner (status p) (Some v)) w = Ret tt w1
    /\ vps w1 = vps w) as (w1 & H1 & E1) by (destruct (bool_decide _); by eexists).
  eapply answers_run; [exact H1|]. eapply answers_run; [reflexivity|].
  eapply (answers_run _ _ _ _ (own_flags p)).
  { apply vp_at_inv. split; [done|]. cbn. by rewrite E1, lookup_alter_eq, Hp. }
  destruct (own_flags_facts p) as (_ & _ & Hsh & _). rewrite Hsh, Hs. by eapply answers_ret.
Qed.

Lemma cow_copy_answers (P : stop -> Prop) V D E w1 v n : pages_ok V D E w1 ->
  (forall s, new_page_stop w1 (vm_trace w1) s -> P s) -> answers P (
   newpl ← get_free_pl;
   l ← pl_at newpl;
   _ ← copy_page (page_num l) n PAGE_SIZE;
   _ ← vp_upd v (fun v => set_page (page_num l) (set_vaddr
         (Z.lor (clear_bits (vaddr v) (Z.lor VPF_COW VPF_SHARED)) (Z.lor L4_Writable VPF_ANON)) v));
   _ ← pl2pp newpl;
   _ ← set_owner (page_num l) (Some v);
   _ ← push_page page_active_list newpl;
   free_pl newpl) w1.
Proof.
  intros Hok HP. eapply get_free_pl_answers; [done|intros ?; apply HP; by left|]. intros x l p q Hp Hq Hf Hxn.
  eapply answers_run; [by apply pl_at_inv|]. eapply answers_run; [reflexivity|]. eapply answers_run; [reflexivity|].
  eapply claim_answers; [done..|intros ?; apply HP; by right|]. intros w' _. by eapply answers_ret.
Qed.

(** The memory of [p] is another virtual page's as well, or it is in the page cache. *)
Definition in_other_use (w : vm) (V : gset Z) (v : Z) (p : vp) : Prop :=
  (exists u, u <> v /\ uses w V u (status p)) \/ VP_IS_ANON p = false.

Lemma pf_cow_answers V w v p : pages_ok V [] ∅ w -> v ∈ V -> vps w !! v = Some p -> VP_IS_COW p = true ->
  answers (fun s => in_other_use w V v p /\ new_page_stop w (vm_trace w) s) (pf_cow v) w.
Proof.
  intros Hok HV Hp Hc. destruct (ok_used _ _ _ _ Hok v HV) as (p' & q & Hp' & Hq & Href).
  rewrite Hp in Hp'. injection Hp' as <-. destruct (ok_page _ _ _ _ Hok _ _ Hq) as (Hf & _).
  unfold pf_cow. eapply answers_run; [by apply vp_at_inv|]. apply (answers_run _ _ _ _ tt w); [by apply assert_inv|].
  apply (answers_run _ _ _ _ tt w); [apply assert_inv; split; [|done]|].
  { rewrite rights_W. by rewrite (ok_cow _ _ _ _ Hok v p HV Hp Hc). }
  eapply answers_run; [by apply get_pp_inv|]. cbv zeta.
  match goal with |- answers _ (?m ≫= _) _ => assert (exists w1, m w = Ret tt w1 /\ vm_trace w1 = vm_trace w) as (w1 & H1 & Et) end.
  { destruct (decide (owner q = Some v)) as [Ho|Ho]; [rewrite (bool_decide_true _ Ho); by eexists|].
    rewrite (bool_decide_false _ Ho). unfold del_share.
    rewrite bind_bind, bind_get, bind_bind, bind_modify, bind_mret.
    destruct Href as [(q' & Hq' & Ho')|Hin]; [congruence|]. rewrite bool_decide_true by done. by eexists. }
  destruct (cow_detach _ _ _ _ _ _ Hok HV Hp Hq H1) as [wd Hcd]. pose proof Hcd as [Hokd Ewd Q1 Q2 Q3 Q4 Q5 Q6 Q7 Q8].
  eapply answers_run; [exact H1|].
  match goal with |- answers _ (?m ≫= _) _ => assert (exists b, m w1 = Ret b w1) as [alone H2] end.
  { destruct (_ && _); [|by eexists].
    destruct (has_shares_run (int_hash (status p)) (status p) w1) as [b Hb].
    - intros h u Hin. destruct (ok_share _ _ _ _ Hokd h u) as (pu & Hpu & _); [by rewrite Ewd|].
      rewrite Ewd in Hpu. by eexists.
    - rewrite (bind_ret _ _ _ _ _ Hb). by eexists. }
  destruct (cow_sole _ _ _ _ _ _ _ _ _ Hcd Hq H2) as (_ & Halone & Hnot).
  eapply answers_run; [exact H2|]. apply answers_bind.
  { destruct alone.
    - destruct (Halone eq_refl) as (_ & Ha & _). apply cow_alone_answers; [by rewrite Q2|].
      by rewrite (ok_shared _ _ _ _ Hok v p HV Hp), Ha.
    - assert (exists w2, when_ (bool_decide (owner q = Some v)) (set_owner (status p) None) w1 = Ret tt w2 /\ w2 = wd)
        as (w2 & H3 & ->).
      { rewrite Ewd, Q8. destruct (bool_decide (owner q = Some v)); (eexists; split; [reflexivity|]).
        - f_equal. by rewrite Q1, (alter_is_insert _ _ _ _ Hq).
        - rewrite <- Q1. by destruct w1. }
      eapply answers_run; [exact H3|]. apply (cow_copy_answers _ _ _ _ _ _ _ Hokd). intros s Hs. split.
      + destruct (Hnot eq_refl) as [(u & [Hu Hpu])|]; [left|by right]. exists u. split; [set_solver|].
        split; [set_solver|]. by rewrite Ewd in Hpu; cbn in Hpu; rewrite Q2 in Hpu.
      + unfold new_page_stop, lst in *. rewrite Ewd in Hs. cbn in Hs. by rewrite Q3, Et in Hs. }
  intros [] w2 H3. assert (exists p2, vps w2 !! v = Some p2) as [p2 Hp2].
  { destruct alone.
    - destruct (Halone eq_refl) as (Ho & Ha & Hnu).
      destruct (cow_alone_run _ _ _ _ _ _ _ _ Hcd Hok HV Hp Hc Hq Ho Ha Hnu H3) as (_ & -> & _).
      rewrite lookup_insert_eq. by eexists.
    - destruct (cow_copy_run _ _ _ _ _ _ _ _ Hcd Hok HV Hp Hq (Hnot eq_refl) H3) as (_ & _ & x & px & _ & _ & -> & _).
      rewrite lookup_insert_eq. by eexists. }
  eapply answers_run; [apply vp_at_inv; split; [done|exact Hp2]|]. by eapply answers_ret.
Qed.

(** *** Faults *)

(** A fault of a thread in the space [pid], which is set up *)
Definition fault_from (w : vm) (pid : Z) : Prop :=
  pidof_NP vm_global (vm_sender w) = pid /\ 0 <= pid <= SNEKS_MAX_PID /\ utcb_area (space_of w pid) <> L4_Nilpage.
(** The way of a fault to the page, or to the mapping *)
Lemma vm_pf_start faddr w pid : vm_ok w -> fault_from w pid -> pid ∈ ra_used (spaces w) /\
  vm_pf faddr w = (
    let fault_rwx := Z.land (vm_label w) 7 in
    let segv := (_ ← vm_ask (VProcKill pid SIGSEGV); _ ← muidl_raise_no_reply; mret None) in
    match find_vp w (tab w pid) (page_of faddr) with
    | Some old =>
        v ← vp_at old;
        if VP_IS_COW v && has fault_rwx L4_Writable then r ← pf_cow old; mret (Some r)
        else if negb (Z.land (VP_RIGHTS v) fault_rwx =? fault_rwx) then segv
        else mret (Some (status v, VP_RIGHTS v))
    | None =>
        if ADDR_IN_FPAGE (sysinfo_area (space_of w pid)) faddr then mret (Some (Z.shiftr the_sip PAGE_BITS, L4_Readable))
        else
          mm ← find_lazy_mmap pid faddr;
          match mm with
          | None => segv
          | Some mm =>
              m ← mm_at mm;
              _ ← assert_ ((addr m <=? faddr) && (faddr <? end_of m));
              let rights := Z.land (Z.shiftr (flags m) 16) 7 in
              if negb (Z.land fault_rwx rights =? fault_rwx) then segv
              else r ← pf_new pid faddr fault_rwx rights m; mret (Some r)
          end
    end) w.
Proof.
  intros Hw (Hpid & Hr & Hu). split; [apply (used_of w); [done|by right]|].
  unfold vm_pf, sender_pid. rewrite bind_gets, Hpid. cbv zeta. replace (SNEKS_MAX_PID <? pid) with false by lia.
  unfold space_at. replace ((0 <=? pid) && (pid <=? SNEKS_MAX_PID)) with true by lia. rewrite bind_gets.
  replace (L4_IsNilFpage (utcb_area (space_of w pid))) with false by (symmetry; by apply Z.eqb_neq).
  cbv iota. rewrite bind_get. done.
Qed.

Lemma zeroed_still sp a rights p w w1 w' : still w w1 -> zeroed sp a rights p w1 w' -> zeroed sp a rights p w w'.
Proof.
  intros Hst [Z1 Z2 Z3 Z4 Z5 Z6 Z7].
  assert (forall pid b, page_at w1 pid b = page_at w pid b) as Hat.
  { destruct Hst as [_ _ Hv _ _ _ _ [_ Ht]]. apply page_at_same; [done|intros; apply Ht]. }
  split; try done.
  - intros pid b Hn. by rewrite Z6.
  - intros pid b q Hq. rewrite (Z7 pid b q) by by rewrite Hat. unfold frame. by destruct Hst as [_ _ _ -> _ _ _ _].
Qed.

Lemma anon_stop_still w w1 s : still w w1 -> vm_trace w1 = vm_trace w -> anon_stop w1 s -> anon_stop w s.
Proof. intros [_ _ _ _ El _ _ _] Et. unfold anon_stop, new_page_stop, lst. by rewrite El, Et. Qed.

Lemma anon_fault w pid faddr m : vm_ok w -> fault_from w pid -> page_at w pid (page_of faddr) = None ->
  ADDR_IN_FPAGE (sysinfo_area (space_of w pid)) faddr = false -> mapped_at w pid faddr m ->
  has (flags m) MAP_ANONYMOUS = true -> has (flags m) MAP_SHARED = false ->
  allows (mapping_rights m) (fault_access w) ->
  match vm_pf faddr w with
  | Ret r w' => exists p, r = Some (status p, mapping_rights m) /\ zeroed pid (page_of faddr) (mapping_rights m) p w w'
  | Stop s => anon_stop w s
  end.
Proof.
  intros Hw Hf Hno Hsys (mm & w1 & Hfind & Hm & Hrange) Ha Hsh Hrwx.
  destruct (vm_pf_start faddr w pid Hw Hf) as [Hu ->]. cbv zeta. pose proof Hw as (V & Hp & Hs).
  destruct (find_vp w (tab w pid) (page_of faddr)) as [v|] eqn:Ef.
  { exfalso. apply find_vp_some in Ef as Hin. destruct Hin as [Hin _]. destruct (so_in _ _ Hs _ _ _ Hin) as (HV & _).
    destruct (ok_used _ _ _ _ Hp v HV) as (p & _ & Hv & _). unfold page_at, page_in in Hno. rewrite Ef in Hno. cbn in Hno.
    congruence. }
  rewrite Hsys, (bind_ret _ _ _ _ _ Hfind). destruct (find_calm _ _ _ _ _ Hfind) as (Hst & Emm & Et).
  rewrite (bind_ret (mm_at mm) _ _ m w1) by (apply mm_at_inv; by rewrite Emm).
  rewrite bind_assert. replace ((addr m <=? faddr) && (faddr <? end_of m)) with true by lia.
  fold (mapping_rights m) (fault_access w). unfold allows in Hrwx. rewrite Z.land_comm in Hrwx.
  rewrite Hrwx, Z.eqb_refl. cbn [negb].
  pose proof Hst as [_ _ _ _ Hli _ _ [Hu1 _]]. unfold mapping_rights.
  pose proof (pages_ok_still _ _ _ _ _ Hp Hst) as Hp1. pose proof (space_ok_still _ _ _ Hs Hst) as Hs1.
  pose proof (pf_new_anon_answers V pid faddr (fault_access w) (Z.shiftr (flags m) 16) m w1 Hp1 Hs1 Ha Hsh) as Hans.
  unfold answers, mbind, M_bind in *.
  destruct (pf_new pid faddr (fault_access w) _ m w1) as [r w'|s] eqn:Hrun; [|by apply (anon_stop_still w w1)].
  apply (pf_new_anon V) in Hrun as (p & -> & Hz); try done; [|by rewrite Hu1|].
  - exists p. split; [by rewrite (zr_rights _ _ _ _ _ _ Hz)|]. by apply (zeroed_still _ _ _ _ _ w1).
  - destruct (still_only pid (page_of faddr) w w1 Hst) as [_ ->]. done.
Qed.

(** Memory of the page [p] at [a] is in use at another place as well, or in the page cache. *)
Definition used_elsewhere (w : vm) (sp a : Z) (p : vp) : Prop :=
  VP_IS_ANON p = false \/ exists pid b q, page_at w pid b = Some q /\ status q = status p /\ ~ (pid = sp /\ b = a).

Lemma in_other_use_at V w sp a v p : space_ok V w -> (int_hash a, v) ∈ tab w sp -> page_addr w v = Some a ->
  in_other_use w V v p -> used_elsewhere w sp a p.
Proof.
  intros Hs Hin Ha [(u & Hne & HuV & q & Hu & Es)|Han]; [right|by left].
  destruct (so_back _ _ Hs u HuV) as (pid & h & Huin). destruct (so_in _ _ Hs _ _ _ Huin) as (_ & b & Hb & ->).
  exists pid, b, q. split; [|split; [done|]].
  - apply (page_at_iff V); [done|]. exists u. split; [done|]. split; [done|]. unfold page_addr in Hb. rewrite Hu in Hb. by injection Hb.
  - intros [-> ->]. apply Hne. assert ((int_hash a, u) = (int_hash a, v)) as [= ->]; [|done].
    apply (addr_inj V w sp); [done..|congruence].
Qed.

Lemma cow_write_fault w pid faddr p : vm_sane w -> fault_from w pid -> page_at w pid (page_of faddr) = Some p ->
  writes_cow w p = true ->
  match vm_pf faddr w with
  | Ret r w' => exists t, r = Some t /\ vm_ok w' /\ cow_fault pid (page_of faddr) p t w w'
  | Stop s => used_elsewhere w pid (page_of faddr) p /\ new_page_stop w (vm_trace w) s
  end.
Proof.
  intros [Hw [Hfr _]] Hf Hat Hc. destruct (vm_pf_start faddr w pid Hw Hf) as [Hu ->]. cbv zeta.
  pose proof Hw as (V & Hp & Hs). pose proof Hat as Hat'. unfold page_at, page_in in Hat.
  destruct (find_vp w (tab w pid) (page_of faddr)) as [v|] eqn:Ef; [|done]. cbn in Hat.
  apply find_vp_some in Ef as Hin. destruct Hin as [Hin Ha]. destruct (so_in _ _ Hs _ _ _ Hin) as (HV & _).
  rewrite (bind_ret (vp_at v) _ _ p w) by by apply vp_at_inv. fold (fault_access w) (writes_cow w p). rewrite Hc.
  pose proof (pf_cow_answers V w v p Hp HV Hat) as Hans. apply andb_true_iff in Hc as [Hc _].
  specialize (Hans Hc). unfold answers, mbind, M_bind in *.
  destruct (pf_cow v w) as [r w'|s] eqn:Hrun.
  - exists r. split; [done|]. by apply (pf_cow_fault V w pid _ v).
  - destruct Hans as [Ho Hst]. split; [|done]. by apply (in_other_use_at V w pid _ v).
Qed.
End served.
