(* ===== verification/VmMapProps.v ===== *)
(** The mappings of an address space: the tree they are kept in is ordered, and what
    searches of it find. *)
From stdpp Require Import sorting.
From S2P Require Import Prelude L4 Pages HashUtil Containers Vm VmMaps VmProps VmPageProps VmSpaceProps.

(** ** Ordered trees *)
Section trees.
Context (f : Z -> lazy_mmap).

(** A mapping of some addresses that does not reach the end of the address space *)
Definition placed (m : Z) : Prop := 0 <= addr (f m) /\ 0 < length (f m) /\ addr (f m) + length (f m) < 2 ^ 32.
Definition covers (m a : Z) : Prop := addr (f m) <= a < addr (f m) + length (f m).
Definition meets (m a sz : Z) : Prop := addr (f m) < a + sz /\ a < addr (f m) + length (f m).
(** [x] ends before [y] starts. *)
Definition apart (x y : Z) : Prop := addr (f x) + length (f x) <= addr (f y).
Definition ordered (l : list Z) : Prop := Forall placed l /\ StronglySorted apart l.

Lemma end_placed m : placed m -> end_of (f m) = addr (f m) + length (f m) /\ last_of (f m) = addr (f m) + length (f m) - 1.
Proof. intros (? & ? & ?). unfold end_of, last_of, u32. by rewrite !Z.mod_small by lia. Qed.

Lemma ordered_app l r : ordered (l ++ r) <-> ordered l /\ ordered r /\ forall x y, x ∈ l -> y ∈ r -> apart x y.
Proof.
  unfold ordered. rewrite Forall_app. split.
  - intros [[H1 H2] Hs]. apply StronglySorted_app in Hs as (H3 & H4 & H5). auto.
  - intros ([H1 H2] & [H3 H4] & H5). split; [done|]. apply StronglySorted_app. auto.
Qed.
Lemma ordered_cons m r : ordered (m :: r) <-> placed m /\ ordered r /\ forall y, y ∈ r -> apart m y.
Proof.
  unfold ordered. rewrite Forall_cons. split.
  - intros [[H1 H2] Hs]. inversion Hs as [|? ? H3 H4]; subst. rewrite Forall_forall in H4. auto.
  - intros (H1 & [H2 H3] & H4). split; [done|]. constructor; [done|]. by apply Forall_forall.
Qed.
Lemma ordered_node l m r : ordered (inorder (RbNode l m r)) <-> placed m /\ ordered (inorder l) /\ ordered (inorder r)
  /\ (forall x, x ∈ inorder l -> apart x m) /\ (forall y, y ∈ inorder r -> apart m y)
  /\ forall x y, x ∈ inorder l -> y ∈ inorder r -> apart x y.
Proof.
  cbn [inorder]. rewrite ordered_app, ordered_cons. setoid_rewrite elem_of_cons. naive_solver.
Qed.
Lemma ordered_in l x : ordered l -> x ∈ l -> placed x.
Proof. intros [H _]. rewrite Forall_forall in H. apply H. Qed.

(** What a search of an ordered tree finds is the mapping of the address. *)
Lemma lookup_mmap_spec t a m : ordered (inorder t) -> lookup_mmap f t a = Some m <-> m ∈ inorder t /\ covers m a.
Proof.
  induction t as [|l IHl c r IHr]; intros Hok; [cbn; set_solver|].
  apply ordered_node in Hok as (Hc & Hl & Hr & Hlc & Hcr & _). destruct (end_placed c Hc) as [Ee _].
  cbn [lookup_mmap inorder]. rewrite elem_of_app, elem_of_cons, Ee.
  assert (forall x, x ∈ inorder l -> placed x) as Hpl by (intros; by apply (ordered_in (inorder l))).
  assert (forall x, x ∈ inorder r -> placed x) as Hpr by (intros; by apply (ordered_in (inorder r))).
  unfold covers, apart, placed in *. destruct (Z.ltb_spec a (addr (f c))).
  - rewrite IHl by done. split; [tauto|]. intros [[?|[->|Hin]] ?]; [done|lia|].
    specialize (Hcr _ Hin). specialize (Hpr _ Hin). lia.
  - destruct (Z.leb_spec (addr (f c) + length (f c)) a).
    + rewrite IHr by done. split; [tauto|]. intros [[Hin|[->|?]] ?]; [|lia|done].
      specialize (Hlc _ Hin). specialize (Hpl _ Hin). lia.
    + split; [intros [= <-]; split; [tauto|lia]|]. intros [[Hin|[->|Hin]] ?]; [|done|].
      * specialize (Hlc _ Hin). specialize (Hpl _ Hin). lia.
      * specialize (Hcr _ Hin). specialize (Hpr _ Hin). lia.
Qed.
Lemma lookup_mmap_none t a : ordered (inorder t) -> lookup_mmap f t a = None <-> forall m, m ∈ inorder t -> ~ covers m a.
Proof.
  intros Hok. split.
  - intros Hn m Hin Hc. assert (lookup_mmap f t a = Some m) by by apply lookup_mmap_spec. congruence.
  - intros Hn. destruct (lookup_mmap f t a) as [m|] eqn:E; [|done]. apply lookup_mmap_spec in E as [Hin Hc]; [|done].
    by destruct (Hn m).
Qed.

(** A mapping is linked to the tree at its place, or one in the way is found. *)
Lemma insert_helper_spec t mm : ordered (inorder t) -> placed mm ->
  match insert_lazy_mmap_helper f t mm with
  | inl dupe => dupe ∈ inorder t /\ meets dupe (addr (f mm)) (length (f mm))
  | inr t' => ordered (inorder t') /\ exists l r, inorder t = l ++ r /\ inorder t' = l ++ mm :: r
  end.
Proof.
  intros Hok Hm. destruct (end_placed mm Hm) as [_ Em]. induction t as [|l IHl c r IHr]; cbn [insert_lazy_mmap_helper].
  { split; [|by exists [], []]. cbn. apply ordered_cons. split; [done|]. split; [done|]. intros y Hy%elem_of_nil. done. }
  apply ordered_node in Hok as (Hc & Hl & Hr & Hlc & Hcr & Hlr). destruct (end_placed c Hc) as [_ Ec]. rewrite Em, Ec.
  specialize (IHl Hl). specialize (IHr Hr). unfold meets, placed, apart in *.
  destruct (Z.ltb_spec (addr (f mm) + length (f mm) - 1) (addr (f c))) as [Hlt|Hge].
  - destruct (insert_lazy_mmap_helper f l mm) as [d|t'].
    + cbn [inorder]. rewrite elem_of_app. tauto.
    + destruct IHl as [Ht (l1 & l2 & E1 & E2)]. split.
      * apply ordered_node. split; [done|]. split; [done|]. split; [done|]. unfold apart. rewrite E2, E1 in *.
        setoid_rewrite elem_of_app in Hlc. setoid_rewrite elem_of_app in Hlr. repeat setoid_rewrite elem_of_app.
        repeat setoid_rewrite elem_of_cons. split; [|split; [done|]].
        -- intros x [?|[->|?]]; [by auto|lia|by auto].
        -- intros x y [?|[->|?]] Hy; [by auto| |by auto]. specialize (Hcr _ Hy). lia.
      * exists l1, (l2 ++ c :: inorder r). cbn [inorder]. by rewrite E1, E2, <- !app_assoc.
  - destruct (Z.ltb_spec (addr (f c) + length (f c) - 1) (addr (f mm))) as [Hlt|Hge2].
    + destruct (insert_lazy_mmap_helper f r mm) as [d|t'].
      * cbn [inorder]. rewrite elem_of_app, elem_of_cons. tauto.
      * destruct IHr as [Ht (l1 & l2 & E1 & E2)]. split.
        -- apply ordered_node. split; [done|]. split; [done|]. split; [done|]. unfold apart. rewrite E2, E1 in *.
           setoid_rewrite elem_of_app in Hcr. setoid_rewrite elem_of_app in Hlr. repeat setoid_rewrite elem_of_app.
           repeat setoid_rewrite elem_of_cons. split; [done|]. split.
           ++ intros y [?|[->|?]]; [by auto|lia|by auto].
           ++ intros x y Hx [?|[->|?]]; [by auto| |by auto]. specialize (Hlc _ Hx). lia.
        -- exists (inorder l ++ c :: l1), l2. cbn [inorder]. by rewrite E1, E2, <- !app_assoc.
    + cbn [inorder]. rewrite elem_of_app, elem_of_cons. split; [tauto|lia].
Qed.

(** The mapping that [first_of] comes up with is one of the range's. *)
Lemma from_node_in x l y : y ∈ from_node x l -> y ∈ l.
Proof. induction l as [|z l IH]; [done|]. cbn. destruct (x =? z); [done|]. intros Hy. right. by apply IH. Qed.
Lemma skip_right_spec l last c : skip_right f l last = Some c -> c ∈ l /\ addr (f c) < last.
Proof.
  induction l as [|x l IH]; [done|]. cbn. destruct (Z.leb_spec last (addr (f x))).
  - intros [? ?]%IH. split; [by right|done].
  - intros [= <-]. split; [by left|done].
Qed.
Lemma skip_left_spec l a c : skip_left f l a = Some c -> c ∈ l /\ a < end_of (f c).
Proof.
  induction l as [|x l IH]; [done|]. cbn. destruct (Z.leb_spec (end_of (f x)) a).
  - intros [? ?]%IH. split; [by right|done].
  - intros [= <-]. split; [by left|done].
Qed.

Lemma ordered_nodup l : ordered l -> NoDup l.
Proof.
  intros [Hp Hs]. induction Hs as [|x l _ IH Hx]; [by apply NoDup_nil|]. apply Forall_cons in Hp as [Hpx Hp].
  apply NoDup_cons. split; [|by apply IH]. intros Hin. rewrite Forall_forall in Hx. specialize (Hx x Hin).
  unfold apart, placed in *. lia.
Qed.
Lemma from_node_app x l r : x ∉ l -> from_node x (l ++ x :: r) = x :: r.
Proof.
  induction l as [|y l IH]; intros Hn; cbn; [by rewrite Z.eqb_refl|]. apply not_elem_of_cons in Hn as [Hne Hn].
  destruct (Z.eqb_spec x y); [done|by apply IH].
Qed.
Lemma before_node l c y : ordered l -> c ∈ l -> y ∈ from_node c (rev l) -> y ∈ l /\ (y = c \/ apart y c).
Proof.
  intros Hok (l1 & l2 & ->)%list_elem_of_split Hy. pose proof (ordered_nodup _ Hok) as Hnd.
  apply NoDup_app in Hnd as (_ & _ & Hnd). apply NoDup_cons in Hnd as [Hc _].
  rewrite rev_app_distr in Hy. cbn [rev] in Hy. rewrite <- app_assoc in Hy. cbn [app] in Hy.
  rewrite from_node_app in Hy by (rewrite list_elem_of_In, <- in_rev, <- list_elem_of_In; done).
  apply ordered_app in Hok as (_ & _ & Hap). apply elem_of_cons in Hy as [->|Hy].
  - split; [|by left]. apply elem_of_app. right. by left.
  - rewrite list_elem_of_In, <- in_rev, <- list_elem_of_In in Hy. split; [apply elem_of_app; by left|].
    right. apply Hap; [done|by left].
Qed.
Lemma first_of_sound t a sz c : ordered (inorder t) -> 0 <= a -> 0 < sz -> a + sz < 2 ^ 32 ->
  first_of f t a sz = Some c -> c ∈ inorder t /\ meets c a sz.
Proof.
  intros Hok Ha Hsz Hr. unfold first_of, meets. destruct (lookup_mmap f t a) as [m|] eqn:E.
  - intros [= <-]. apply lookup_mmap_spec in E as [Hin Hc]; [|done]. unfold covers in Hc. split; [done|lia].
  - destruct (descend f t a None) as [c0|]; [|done]. unfold u32. rewrite Z.mod_small by lia.
    destruct (skip_right f _ _) as [c1|] eqn:E1; [|done]. intros E2.
    apply skip_right_spec in E1 as [Hin1%from_node_in H1]. apply skip_left_spec in E2 as [Hin2 H2].
    destruct (before_node _ _ _ Hok Hin1 Hin2) as [Hin Hle]. split; [done|].
    pose proof (ordered_in _ _ Hok Hin) as Hpc. rewrite (proj1 (end_placed c Hpc)) in H2. split; [|done].
    destruct Hle as [->|Hle]; [done|]. unfold apart, placed in *. lia.
Qed.
(** The mapping of the first address is found, if it has one. *)
Lemma first_of_lookup t a sz m : ordered (inorder t) -> m ∈ inorder t -> covers m a -> first_of f t a sz = Some m.
Proof. intros Hok Hin Hc. unfold first_of. by rewrite (proj2 (lookup_mmap_spec t a m Hok)). Qed.
End trees.

(** A range may well have mappings when none is found: here the search for the first address ends
    at the one before it, and the one behind is not looked at. *)
Lemma first_of_misses : exists f t a sz m, ordered f (inorder t) /\ m ∈ inorder t /\ meets f m a sz
  /\ first_of f t a sz = None.
Proof.
  set (f x := Mm (if x =? 1 then 0x1000 else 0x5000) 0x1000 0 0 0 0 0).
  exists f, (RbNode (RbNode RB_ROOT 1 RB_ROOT) 2 RB_ROOT), 0x3000, 0x4000, 2. split; [|split; [|split]].
  - split; [repeat constructor; done|]. repeat constructor; cbn; done.
  - set_solver.
  - done.
  - vm_compute. done.
Qed.

(** ** The tree of an address space *)
Section space.
Context `{LA : !L4Abi, VE : !VmEnv, RB : !RbOps}.

(** The mappings of a space are in order, and the one found last is one of them. *)
Definition maps_ok (w : vm) (sp : Z) : Prop :=
  ordered (mm_of w) (inorder (maps (space_of w sp)))
  /\ forall m, last_mmap (space_of w sp) = Some m -> m ∈ inorder (maps (space_of w sp)).

(** A search finds the mapping of the address, and leaves the order alone. *)
Lemma find_lazy_mmap_spec w sp a : maps_ok w sp -> 0 <= a -> exists o w', find_lazy_mmap sp a w = Ret o w'
  /\ (forall m, o = Some m <-> m ∈ inorder (maps (space_of w sp)) /\ covers (mm_of w) m a)
  /\ maps_ok w' sp /\ maps (space_of w' sp) = maps (space_of w sp) /\ mms w' = mms w.
Proof.
  intros Hmo Ha. pose proof Hmo as [Hok Hlast]. unfold find_lazy_mmap. rewrite bind_get. cbv zeta.
  set (s := space_of w sp) in *. set (l := match last_mmap s with Some m => mm_of w m | None => no_mmap end).
  destruct (_ && _) eqn:El.
  - apply andb_true_iff in El as [H1%Z.leb_le H2%Z.ltb_lt]. exists (last_mmap s), w. split; [done|].
    destruct (last_mmap s) as [m|] eqn:Em; [|cbn in H2; lia]. split; [|done]. fold s.
    assert (m ∈ inorder (maps s) /\ covers (mm_of w) m a) as Hm by (split; [by apply Hlast|unfold covers, l in *; lia]).
    intros m'. rewrite <- (lookup_mmap_spec _ _ a) by done. by rewrite (proj2 (lookup_mmap_spec _ _ a m Hok) Hm).
  - destruct (lookup_mmap (mm_of w) (maps s) a) as [m|] eqn:Em.
    + eexists _, _. split; [reflexivity|]. split.
      { intros m'. by rewrite <- (lookup_mmap_spec _ _ a), Em. }
      unfold maps_ok. rewrite space_of_store, decide_True by done. cbn [maps last_mmap set_maps].
      split; [|by split]. split; [exact Hok|]. intros m' [= <-]. by apply (lookup_mmap_spec _ _ a) in Em as [? _].
    + exists None, w. split; [done|]. split; [|done]. intros m'. by rewrite <- (lookup_mmap_spec _ _ a), Em.
Qed.

(** A mapping finds its place among the others, or the one in its way is found. *)
Lemma insert_lazy_mmap_spec w sp mm : maps_ok w sp -> placed (mm_of w) mm ->
  exists o w', insert_lazy_mmap sp mm w = Ret o w' /\ maps_ok w' sp /\ mms w' = mms w /\
    match o with
    | Some dupe => w' = w /\ dupe ∈ inorder (maps (space_of w sp)) /\ meets (mm_of w) dupe (addr (mm_of w mm)) (length (mm_of w mm))
    | None => exists l r, inorder (maps (space_of w sp)) = l ++ r /\ inorder (maps (space_of w' sp)) = l ++ mm :: r
    end.
Proof.
  intros [Hok Hlast] Hm. unfold insert_lazy_mmap. rewrite bind_get.
  pose proof (insert_helper_spec _ _ _ Hok Hm) as Hins. destruct (insert_lazy_mmap_helper _ _ _) as [d|t].
  - exists (Some d), w. split; [done|]. split; [done|]. by split.
  - destruct Hins as [Ht (l & r & E1 & E2)]. eexists None, _. split; [reflexivity|]. unfold maps_ok.
    rewrite space_of_store, decide_True by done. cbn [maps last_mmap set_maps]. rewrite inorder_insert_color.
    split; [split; [exact Ht|]|split; [done|by exists l, r]].
    intros m' Hin%Hlast. rewrite E2. rewrite E1 in Hin. set_solver.
Qed.
End space.
