(* ===== verification/VmRequests.v ===== *)
(** What vm promises to the rest of the system: its requests and faults, as theorems on
    the whole server, with the runs that show them at work. *)
From S2P Require Import Prelude L4 Pages HashUtil Containers Vm VmMaps VmOps VmProps VmPageProps VmSpaceProps VmForkProps.
From S2P Require Import VmTraceProps VmContentProps VmFaultProps VmServeProps VmAnswerProps VmMapProps.

Section requests.
Context `{LA : !L4Abi, VE : !VmEnv, RB : !RbOps}.
#[local] Opaque bob96bitmix hash_cached_page hash_lazy_mmap bucket_of fsid_ino_of int_hash.

(** ** Unmapping *)

Lemma page_at_aligned w pid b p : page_at w pid b = Some p -> page_of b = b.
Proof. intros Ha. apply page_at_addr in Ha. rewrite <- Ha. apply page_of_page. Qed.
Lemma page_range_in a size b : page_of a = a -> 0 <= a -> 0 <= size -> a + size < 2 ^ 32 -> page_of b = b ->
  b ∈ page_range a size <-> a <= b < a + size.
Proof.
  intros Ha H0 Hs Hr Hb. unfold page_range, u32. rewrite Z.mod_small by lia.
  destruct (Z.leb_spec (a + size) a) as [Hl|Hl]; [split; [by intros ?%elem_of_nil|lia]|].
  rewrite list_elem_of_fmap. setoid_rewrite elem_of_seqZ.
  assert (exists k, a = PAGE_SIZE * k) as [k ->] by (rewrite page_of_div in Ha by lia; eauto).
  unfold PAGE_SIZE in *. split.
  - intros (i & -> & Hi). split; [lia|].
    assert (i < (4096 * k + size - 4096 * k + 4096 - 1) / 4096) as Hi2 by lia. Z.to_euclidean_division_equations. lia.
  - intros Hab. rewrite page_of_div in Hb by lia. unfold PAGE_SIZE in Hb. exists (b / 4096 - k). split; [lia|].
    split; [lia|]. rewrite Z.add_0_l. apply Z.lt_le_trans with ((b - 4096 * k) / 4096 + 1).
    + replace (b - 4096 * k) with (b + (- k) * 4096) by lia. rewrite Z.div_add by lia. lia.
    + apply Z.div_le_lower_bound; [lia|]. pose proof (Z.mul_div_le (b - 4096 * k) 4096). lia.
Qed.

(** The pages of a space from [lo] up to [hi] are gone, and nothing else. *)
Record range_gone (sp lo hi : Z) (w w' : vm) : Prop := RangeGone {
  rg_at pid b : page_at w' pid b = if decide (pid = sp /\ lo <= b < hi) then None else page_at w pid b;
  rg_frames : frames w' = frames w
}.

Lemma munmap_range a size r w w' : vm_ok w -> 0 <= a < 2 ^ 32 -> 0 <= size < 2 ^ 32 -> vm_munmap a size w = Ret r w' ->
  vm_ok w' /\ (r = 0 -> range_gone (pidof_NP vm_global (vm_sender w)) (page_of a) (page_of a + PAGE_CEIL size) w w').
Proof.
  intros Hw Ha Hsz H. unfold vm_munmap in H. apply bind_ret_inv in H as (pid & w1 & H1 & H). injection H1 as <- <-.
  set (pid := pidof_NP vm_global (vm_sender w)) in *.
  destruct (_ || _); [by injection H as <- <-|]. destruct (negb (VALID_ADDR_SIZE _ _)) eqn:Ev; [by injection H as <- <-|].
  apply bind_ret_inv in H as (s & w1 & H1 & H). apply space_at_inv in H1 as (-> & -> & _).
  destruct (_ =? 0); [by injection H as <- <-|]. apply bind_ret_inv in H as ([] & w1 & H1 & H). injection H as <- <-.
  destruct (munmap_space_ok _ _ _ _ _ Hw H1) as [Hw' Hr]. split; [done|]. intros _.
  pose proof Hw as (V & _ & Hs). pose proof Hw' as (V' & _ & Hs').
  assert (0 <= PAGE_CEIL size < 2 ^ 32) as Hc by apply (page_of_aligned (u32 (size + PAGE_SIZE - 1))).
  apply negb_false_iff, Z.leb_le in Ev. unfold u32 in Ev. rewrite Z.mod_small in Ev by lia.
  destruct (page_of_aligned a) as [_ Hpa].
  split; [|apply (rv_frames _ _ _ _ Hr)]. intros p b. rewrite (removed_page_at V V' pid _ w w1 p b Hs Hs' Hr).
  destruct (decide (page_of b = b)) as [Hb|Hb].
  - apply decide_ext. rewrite page_range_in; [done|apply page_of_page|lia..|done].
  - assert (page_at w p b = None) as ->; [|by repeat destruct (decide _)].
    destruct (page_at w p b) as [q|] eqn:E; [|done]. by apply page_at_aligned in E.
Qed.

(** ** Fork *)

(** The page [p] has the memory of the page at [a] in the space [sp], and neither can be written to. *)
Definition shares_with (w : vm) (sp a : Z) (p : vp) : Prop := exists q, page_at w sp a = Some q
  /\ status p = status q /\ has (vaddr p) L4_Writable = false /\ has (vaddr q) L4_Writable = false.

Lemma cow_copy_readonly p : has (vaddr (cow_copy p)) L4_Writable = false /\ status (cow_copy p) = status p.
Proof.
  unfold cow_copy. cbn [vaddr status]. rewrite has_lor, clear_W. split; [|done]. by destruct (has (VP_RIGHTS p) _).
Qed.
Lemma after_fork_readonly p : (VP_IS_COW p = true -> has (vaddr p) L4_Writable = false) ->
  has (vaddr (after_fork p)) L4_Writable = false /\ status (after_fork p) = status p.
Proof.
  intros Hc. unfold after_fork. rewrite rights_W. destruct (make_cow_facts p) as (_ & _ & _ & F4 & F5).
  destruct (VP_IS_COW p); [split; [by apply Hc|done]|]. by destruct (has (vaddr p) L4_Writable) eqn:Ew.
Qed.
Lemma fork_shares src dest w w' : vm_ok w -> fork_result src dest w w' ->
  forall a p, page_at w' dest a = Some p -> shares_with w' src a p.
Proof.
  intros (V & Hp & Hs) [R1 R2 _ _] a p. rewrite R1. destruct (page_at w src a) as [q|] eqn:Eq; [|done]. cbn.
  destruct (VP_IS_ANON q) eqn:Ea; [|done]. intros [= <-]. exists (forks q). rewrite R2, Eq. split; [done|].
  unfold forks. rewrite Ea. destruct (cow_copy_readonly q) as [-> ->].
  destruct (page_at_uses V w src a q Hs Eq) as (v & HV & Hv & _).
  destruct (after_fork_readonly q) as [-> ->]; [by apply (ok_cow _ _ _ _ Hp v)|done].
Qed.

(** ** The whole server *)

(** C1: In every state that vm reaches from its start, whatever requests and faults it serves, the
    books of memory and of address spaces agree: every physical page is on exactly one list, the
    virtual pages of the books are those in the spaces' tables, each in one table and at one address,
    free pages are in nobody's use, and a page is used by several only when it is shared or to be
    copied before it is written to.  The one condition is that no htable_add() on the table of shares
    has failed on the way ([no_share_lost]): vm.c leaves the books wrong then ([lost_share_breaks_isolation]).
    All other failures of malloc(), htable_add() and of calls to other servers are included. *)
Theorem vm_reachable_sane phys w : NoDup (phys_pages phys) -> Forall (fun n => pp_first <= n) (phys_pages phys) ->
  rtc vm_step (vm_booted phys) w -> no_share_lost w -> vm_sane w.
Proof. apply reachable_sane. Qed.

(** C2: Address spaces are isolated: in every state that vm reaches without an htable_add() on the
    table of shares having failed, memory that can be written to through a page that is not shared is
    in no other space, at no other address of the same space, and not among the free pages that vm
    gives out next.  When such an htable_add() fails this is not so ([lost_share_breaks_isolation]). *)
Theorem vm_isolation phys w pid a p : NoDup (phys_pages phys) -> Forall (fun n => pp_first <= n) (phys_pages phys) ->
  rtc vm_step (vm_booted phys) w -> no_share_lost w -> private_page w pid a p -> exclusive w pid a p.
Proof. intros Hnd Hf Hr Hsl. by apply sane_exclusive, (reachable_sane phys). Qed.

(** C8: A write fault on a page that is to be copied is replied to, or stops vm for one of two reasons.
    The reply gives a page that may be written to, is nobody else's, and has the contents of the old
    one; what other spaces and addresses have, and its contents, stays as it was.  vm stops only when
    the memory is in use elsewhere, so that a copy is needed, and no page is free (abort()) or malloc()
    has nothing for its link (a null pointer is written through). *)
Theorem cow_fault_served w pid faddr p : vm_sane w -> fault_from w pid ->
  page_at w pid (page_of faddr) = Some p -> writes_cow w p = true ->
  match vm_pf faddr w with
  | Ret r w' => exists t, r = Some t /\ vm_ok w' /\ cow_fault pid (page_of faddr) p t w w'
  | Stop s => used_elsewhere w pid (page_of faddr) p /\ new_page_stop w (vm_trace w) s
  end.
Proof. apply cow_write_fault. Qed.

(** C9: The first fault on a page of private anonymous memory is replied to with a page of zeros that
    nobody else has, with the rights of the mapping, and no other page or its contents change; or vm
    stops: because malloc() has nothing for the page's structure (abort()), no page is free (abort()),
    malloc() has nothing for its link (a null pointer is written through), or htable_add() fails for
    the space's table (abort()), and for no other reason. *)
Theorem anon_fault_served w pid faddr m : vm_ok w -> fault_from w pid ->
  page_at w pid (page_of faddr) = None -> ADDR_IN_FPAGE (sysinfo_area (space_of w pid)) faddr = false ->
  mapped_at w pid faddr m -> has (flags m) MAP_ANONYMOUS = true -> has (flags m) MAP_SHARED = false ->
  allows (mapping_rights m) (fault_access w) ->
  match vm_pf faddr w with
  | Ret r w' => exists p, r = Some (status p, mapping_rights m) /\ zeroed pid (page_of faddr) (mapping_rights m) p w w'
  | Stop s => anon_stop w s
  end.
Proof. apply anon_fault. Qed.

(** C10: What a page fault that does not stop vm comes to, as long as no htable_add() on the table of
    shares has failed.  It is ignored when the faulting thread's space is not set up; it becomes a
    SIGSEGV, and no page changes, when the page that is there does not allow the access, or
    there is none and no mapping that allows it; a write to a page that is to be copied gives the
    space a page of its own with the same contents and the right to write; a page that allows the
    access is mapped again and nothing changes; so it is for the system information page; and with a
    mapping that allows the access the space has a new page there, with the mapping's rights (for
    copying on write, without the right to write, after a read of a page of the page cache), and the
    contents of the mapping: the page of the page cache itself or a copy of it, up to the end of the
    file's part in the last page, or zeros.  Pages at other places stay, and only memory that was free
    is written to. *)
Theorem vm_fault_outcome faddr r w w' : vm_sane w -> vm_pf faddr w = Ret r w' -> no_share_lost w' ->
  vm_sane w' /\ fault_result (pidof_NP vm_global (vm_sender w)) faddr w w' r.
Proof.
  intros [Hw Hd] H Hsl. pose proof (whole_vm_pf _ _ _ _ H Hd) as Hd'.
  by destruct (vm_pf_ok _ _ _ _ Hw (proj1 Hd) (proj1 Hd') H Hsl).
Qed.

(** C11: A fork that succeeds gives the child, at the same address, each anonymous page of the parent:
    the same memory, which neither may write to from then on without a copy; the parent keeps all
    pages it had, other spaces keep theirs as they were, and no contents change.  The books agree
    after a fork that fails as well, malloc() and the child's table having no room among the reasons,
    as long as no htable_add() on the table of shares has failed. *)
Theorem vm_fork_copies srcpid destpid r w w' : vm_sane w -> vm_fork srcpid destpid w = Ret r w' -> no_share_lost w' ->
  vm_sane w' /\ (0 <= r -> srcpid <> 0 -> fork_result srcpid r w w'
    /\ forall a p, page_at w' r a = Some p -> shares_with w' srcpid a p).
Proof.
  intros [Hw Hd] H Hsl. destruct (vm_fork_ok _ _ _ _ _ Hw H Hsl) as [Hw' Hr]. split.
  - split; [done|]. by apply (whole_fork _ _ _ _ _ H).
  - intros H0 H1. pose proof (Hr H0 H1) as Hf. split; [done|]. by apply (fork_shares _ _ w).
Qed.

(** C12: munmap takes from the caller's space exactly the pages from the page of the address up to the
    end of the length rounded up to pages; all other pages, and the contents of memory, stay. *)
Theorem vm_munmap_exact a size r w w' : vm_sane w -> 0 <= a < 2 ^ 32 -> 0 <= size < 2 ^ 32 ->
  vm_munmap a size w = Ret r w' -> vm_sane w' /\ (r = 0 ->
    range_gone (pidof_NP vm_global (vm_sender w)) (page_of a) (page_of a + PAGE_CEIL size) w w').
Proof.
  intros [Hw Hd] Ha Hs H. destruct (munmap_range _ _ _ _ _ Hw Ha Hs H) as [Hw' Hr]. split; [|done].
  split; [done|]. by apply (whole_vm_munmap _ _ _ _ _ H).
Qed.

(** Erasing a space takes all of its pages, and changes no other space and no contents. *)
Theorem vm_erase_exact pid r w w' : vm_sane w -> vm_erase pid w = Ret r w' ->
  vm_sane w' /\ (r = 0 -> erased pid w w').
Proof.
  intros [Hw Hd] H. destruct (vm_erase_ok _ _ _ _ Hw H) as [Hw' Hr]. split; [|done].
  split; [done|]. by apply (whole_erase _ _ _ _ H).
Qed.

(** C13: A page that was uploaded is at its address in the target's space with the rights that were
    asked for, nobody else has its memory, which holds the data followed by zeros, and the pages
    at other places and their contents are as before. *)
Theorem vm_upload_exact t a data prot fl r w w' : vm_sane w -> 0 <= a < 2 ^ 32 ->
  vm_upload_page t a data prot fl w = Ret r w' ->
  vm_sane w' /\ (r = 0 -> uploaded t a data (prot_to_l4_rights prot) w w').
Proof.
  intros [Hw Hd] Ha H. destruct (vm_upload_page_ok _ _ _ _ _ _ _ _ Hw Ha H) as [Hw' Hr]. split; [|done].
  split; [done|]. by apply (whole_upload _ _ _ _ _ _ _ _ H).
Qed.

(** C18: While the mappings of a space are in order, a search always ends, finds the mapping of an
    address exactly when there is one, whether or not it is the one found last, and keeps the order. *)
Theorem find_lazy_mmap_exact w sp a : maps_ok w sp -> 0 <= a -> exists o w', find_lazy_mmap sp a w = Ret o w'
  /\ (forall m, o = Some m <-> m ∈ inorder (maps (space_of w sp)) /\ covers (mm_of w) m a)
  /\ maps_ok w' sp /\ maps (space_of w' sp) = maps (space_of w sp) /\ mms w' = mms w.
Proof. apply find_lazy_mmap_spec. Qed.

(** Inserting a mapping always ends: it is put in its place among the others and the order is
    kept, or a mapping that has some of its addresses is returned and nothing changes. *)
Theorem insert_lazy_mmap_exact w sp mm : maps_ok w sp -> placed (mm_of w) mm ->
  exists o w', insert_lazy_mmap sp mm w = Ret o w' /\ maps_ok w' sp /\ mms w' = mms w /\
    match o with
    | Some dupe => w' = w /\ dupe ∈ inorder (maps (space_of w sp)) /\ meets (mm_of w) dupe (addr (mm_of w mm)) (length (mm_of w mm))
    | None => exists l r, inorder (maps (space_of w sp)) = l ++ r /\ inorder (maps (space_of w' sp)) = l ++ mm :: r
    end.
Proof. apply insert_lazy_mmap_spec. Qed.
End requests.

(** ** The server at work *)
Module Demo.
#[export] Existing Instance l4_x2_32.


(** Trees that are not balanced do for a few mappings. *)
Fixpoint right_spine (l : list Z) : rbtree :=
  match l with [] => RB_ROOT | m :: l => RbNode RB_ROOT m (right_spine l) end.
Lemma inorder_spine l : inorder (right_spine l) = l.
Proof. induction l as [|m l IH]; [done|]. cbn. by rewrite IH. Qed.
#[refine] Instance plain_tree : RbOps := {|
  rb_insert_color _ t := t; rb_erase m t := right_spine (filter (fun x => x <> m) (inorder t))
|}.
Proof. - done. - intros m t _. apply inorder_spine. Defined.

(** Memory never runs out, and calls to others succeed. *)
#[global] Instance helpful_env : VmEnv := {|
  vm_env _ c := match c with VMalloc | VHtableAdd _ | VReply _ _ => 1 | VRaAllocAny => 5 | _ => 0 end;
  vm_data _ := replicate 100 65; vm_global := compose_tid 50001 0 7; uapi_tid := compose_tid 50002 0 9;
  the_sip := 0; pp_first := 16; n_pc_buckets_log2 := 4; user_addr_max := 2 ^ 31 - 1
|}.
(** A thread of the process [pid], and one of root's *)
Definition thread_of (pid : Z) : Z := compose_tid pid (tno_map_of pid) 33.
Definition root_thread : Z := compose_tid 50002 0 9.
Definition phys : list (Z * Z) := [(16, 4)].
Definition after (l : list (Z * Z * vm_request)) (w : vm) : vm :=
  match vm_turns l w with Ret _ w' => w' | Stop _ => w end.

(** The process 100 gets a space and touches a page; it forks. *)
Definition set_up : vm := after
  [(root_thread, 0, VmFork 0 100);
   (root_thread, 0, VmConfigure 100 (L4_FpageLog2 0x200000 14) (L4_FpageLog2 0x100000 12))] (vm_booted phys).
Definition touched : vm := after [(thread_of 100, 2, VmFault 0x20123)] set_up.
Definition forked : vm := after [(root_thread, 0, VmFork 100 101)] touched.

Lemma after_steps l w : rtc vm_step w (after l w).
Proof.
  unfold after. destruct (vm_turns l w) as [[] w'|] eqn:E; [by apply (turns_steps l)|done].
Qed.
Lemma phys_distinct : NoDup (phys_pages phys).
Proof. by apply (bool_decide_unpack _). Qed.
Lemma phys_above : Forall (fun n => pp_first <= n) (phys_pages phys).
Proof. repeat constructor; done. Qed.
Lemma set_up_reached : rtc vm_step (vm_booted phys) set_up.
Proof. apply after_steps. Qed.
Lemma touched_reached : rtc vm_step (vm_booted phys) touched.
Proof. transitivity set_up; [apply set_up_reached|apply after_steps]. Qed.
Lemma forked_reached : rtc vm_step (vm_booted phys) forked.
Proof. transitivity touched; [apply touched_reached|apply after_steps]. Qed.
Lemma helpful_shares w : no_share_lost w.
Proof. unfold no_share_lost. induction (vm_trace w) as [|c tr IH]; [done|]. cbn. by destruct c as [|[]| | | | | | |]. Qed.
Lemma asked_sane sender label w : rtc vm_step (vm_booted phys) w -> vm_sane (set_vm_message sender label w).
Proof.
  intros Hr. apply message_sane, (reachable_sane phys); [apply phys_distinct|apply phys_above|done|apply helpful_shares].
Qed.

#[global] Opaque set_up touched forked.

Definition returned {A} (r : result vm A) : bool := match r with Ret _ _ => true | Stop _ => false end.
(** The outcome of a run *)
Definition final {A} (r : result vm A) (w : vm) : vm := match r with Ret _ w' => w' | Stop _ => w end.
(** A message from a thread of the process [pid], or from root *)
Definition from (pid label : Z) (w : vm) : vm := set_vm_message (thread_of pid) label w.
Definition from_root (w : vm) : vm := set_vm_message root_thread 0 w.
Definition lowmem : lazy_mmap := Mm 0x10000 0xf0000 458786 0 0 0 0.
Lemma lowmem_maps w : last_mmap (space_of w 100) = None -> maps (space_of w 100) = RbNode RB_ROOT 5 RB_ROOT ->
  mm_of w 5 = lowmem -> maps_ok w 100.
Proof.
  intros Hl Hm H5. split; rewrite ?Hl, ?Hm; [|done].
  apply ordered_cons. split; [unfold placed; by rewrite H5|]. split; [by split; constructor|].
  by intros y Hy%elem_of_nil.
Qed.
Lemma set_up_maps : maps_ok set_up 100.
Proof. apply lowmem_maps; by vm_compute. Qed.
(** With another mapping, yet to be placed *)
Definition mapping : lazy_mmap := Mm 0x300000 0x1000 0 0 0 0 0.
Definition with_mapping : vm := set_mms (<[50 := mapping]> (mms set_up)) set_up.
Lemma with_mapping_maps : maps_ok with_mapping 100 /\ placed (mm_of with_mapping) 50.
Proof.
  split; [apply lowmem_maps; by vm_compute|]. unfold placed.
  assert (mm_of with_mapping 50 = mapping) as -> by by vm_compute. done.
Qed.
#[global] Opaque with_mapping.
End Demo.
Import Demo.

Lemma vm_reachable_sane_witness : page_at forked 101 0x20000 = Some (Vp 0x20035 19 1) /\ vm_sane forked.
Proof.
  split; [by vm_compute|]. apply (vm_reachable_sane phys); [apply phys_distinct|apply phys_above|apply forked_reached|apply helpful_shares].
Defined.

Lemma vm_isolation_witness : private_page touched 100 0x20000 (Vp 0x20017 19 1)
  /\ exclusive touched 100 0x20000 (Vp 0x20017 19 1).
Proof.
  assert (private_page touched 100 0x20000 (Vp 0x20017 19 1)) as Hp by by vm_compute.
  split; [done|]. apply (vm_isolation phys); [apply phys_distinct|apply phys_above|apply touched_reached|apply helpful_shares|done].
Defined.

Lemma cow_fault_served_witness : page_at forked 101 0x20000 = Some (Vp 0x20035 19 1) /\
  exists r w', vm_pf 0x20123 (from 101 2 forked) = Ret r w' /\ exists t, r = Some t /\ vm_ok w'
    /\ cow_fault 101 0x20000 (Vp 0x20035 19 1) t (from 101 2 forked) w'.
Proof.
  split; [by vm_compute|]. set (r := vm_pf 0x20123 (from 101 2 forked)).
  assert (match r with Ret r w' => exists t, r = Some t /\ vm_ok w' /\ cow_fault 101 0x20000 (Vp 0x20035 19 1) t (from 101 2 forked) w'
    | Stop s => used_elsewhere (from 101 2 forked) 101 0x20000 (Vp 0x20035 19 1)
        /\ new_page_stop (from 101 2 forked) (vm_trace (from 101 2 forked)) s end) as H.
  { apply (cow_fault_served (from 101 2 forked) 101 0x20123); try by vm_compute. apply asked_sane, forked_reached. }
  assert (returned r = true) as Hr by by vm_compute.
  destruct r as [t w'|]; [by exists t, w'|done].
Defined.

Lemma anon_fault_served_witness : page_at set_up 100 0x20000 = None /\
  exists r w', vm_pf 0x20123 (from 100 2 set_up) = Ret r w' /\ exists p, r = Some (status p, 7)
    /\ zeroed 100 0x20000 7 p (from 100 2 set_up) w'.
Proof.
  split; [by vm_compute|]. set (r := vm_pf 0x20123 (from 100 2 set_up)).
  assert (match r with Ret r w' => exists p, r = Some (status p, 7) /\ zeroed 100 0x20000 7 p (from 100 2 set_up) w'
    | Stop s => anon_stop (from 100 2 set_up) s end) as H.
  { apply (anon_fault_served (from 100 2 set_up) 100 0x20123 lowmem); try by vm_compute.
    - apply asked_sane, set_up_reached.
    - exists 5, (final (find_lazy_mmap 100 0x20123 (from 100 2 set_up)) (from 100 2 set_up)).
      split; [by vm_compute|]. split; [by vm_compute|]. done. }
  assert (returned r = true) as Hr by by vm_compute.
  destruct r as [t w'|]; [by exists t, w'|done].
Defined.

Lemma vm_fault_outcome_witness : exists p w', vm_pf 0x20123 (from 100 2 set_up) = Ret (Some (19, 7)) w'
  /\ page_at w' 100 0x20000 = Some p
  /\ vm_sane w' /\ fault_result 100 0x20123 (from 100 2 set_up) w' (Some (19, 7)).
Proof.
  set (w' := final (vm_pf 0x20123 (from 100 2 set_up)) set_up). exists (Vp 0x20017 19 1), w'.
  assert (vm_pf 0x20123 (from 100 2 set_up) = Ret (Some (19, 7)) w') as H by by vm_compute.
  split; [done|]. split; [by vm_compute|].
  exact (vm_fault_outcome 0x20123 _ (from 100 2 set_up) w' (asked_sane _ _ _ set_up_reached) H (helpful_shares _)).
Defined.

Lemma vm_fork_copies_witness : exists w', vm_fork 100 101 (from_root touched) = Ret 101 w'
  /\ page_at w' 101 0x20000 = Some (Vp 0x20035 19 1)
  /\ vm_sane w' /\ (0 <= 101 -> 100 <> 0 -> fork_result 100 101 (from_root touched) w'
    /\ forall a p, page_at w' 101 a = Some p -> shares_with w' 100 a p).
Proof.
  set (w' := final (vm_fork 100 101 (from_root touched)) touched). exists w'.
  assert (vm_fork 100 101 (from_root touched) = Ret 101 w') as H by by vm_compute.
  split; [done|]. split; [by vm_compute|]. exact (vm_fork_copies 100 101 101 (from_root touched) w' (asked_sane _ _ _ touched_reached) H (helpful_shares _)).
Defined.

Lemma vm_munmap_exact_witness : exists w', vm_munmap 0x20123 1 (from 100 0 touched) = Ret 0 w'
  /\ page_at touched 100 0x20000 <> None /\ vm_sane w' /\ (0 = 0 -> range_gone 100 0x20000 0x21000 (from 100 0 touched) w').
Proof.
  set (w' := final (vm_munmap 0x20123 1 (from 100 0 touched)) touched). exists w'.
  assert (vm_munmap 0x20123 1 (from 100 0 touched) = Ret 0 w') as H by by vm_compute.
  split; [done|]. split; [by vm_compute|].
  assert (pidof_NP vm_global (vm_sender (from 100 0 touched)) = 100) as E1 by by vm_compute.
  assert (page_of 0x20123 + PAGE_CEIL 1 = 0x21000) as E2 by by vm_compute.
  assert (page_of 0x20123 = 0x20000) as E3 by by vm_compute.
  pose proof (vm_munmap_exact 0x20123 1 0 (from 100 0 touched) w' (asked_sane _ _ _ touched_reached)
    ltac:(lia) ltac:(lia) H) as Hx.
  rewrite E1, E2, E3 in Hx. exact Hx.
Defined.

Lemma vm_erase_exact_witness : exists w', vm_erase 100 (from_root forked) = Ret 0 w'
  /\ vm_sane w' /\ (0 = 0 -> erased 100 (from_root forked) w').
Proof.
  set (w' := final (vm_erase 100 (from_root forked)) touched). exists w'.
  assert (vm_erase 100 (from_root forked) = Ret 0 w') as H by by vm_compute.
  split; [done|]. exact (vm_erase_exact 100 0 (from_root forked) w' (asked_sane _ _ _ forked_reached) H).
Defined.

Lemma vm_upload_exact_witness : exists w', vm_upload_page 100 0x20000 [1; 2; 3] 3 0x32 (from_root touched) = Ret 0 w'
  /\ vm_sane w' /\ (0 = 0 -> uploaded 100 0x20000 [1; 2; 3] (prot_to_l4_rights 3) (from_root touched) w').
Proof.
  set (w' := final (vm_upload_page 100 0x20000 [1; 2; 3] 3 0x32 (from_root touched)) touched). exists w'.
  assert (vm_upload_page 100 0x20000 [1; 2; 3] 3 0x32 (from_root touched) = Ret 0 w') as H by by vm_compute.
  split; [done|]. exact (vm_upload_exact 100 0x20000 [1; 2; 3] 3 0x32 0 (from_root touched) w' (asked_sane _ _ _ touched_reached)
    ltac:(lia) H).
Defined.

Lemma find_lazy_mmap_exact_witness : lookup_mmap (mm_of set_up) (maps (space_of set_up 100)) 0x20123 = Some 5 /\
  exists o w', find_lazy_mmap 100 0x20123 set_up = Ret o w'
  /\ (forall m, o = Some m <-> m ∈ inorder (maps (space_of set_up 100)) /\ covers (mm_of set_up) m 0x20123)
  /\ maps_ok w' 100 /\ maps (space_of w' 100) = maps (space_of set_up 100) /\ mms w' = mms set_up.
Proof. split; [by vm_compute|]. apply (find_lazy_mmap_exact set_up 100 0x20123); [apply set_up_maps|done]. Defined.

Lemma insert_lazy_mmap_exact_witness : mm_of with_mapping 50 = mapping /\
  exists o w', insert_lazy_mmap 100 50 with_mapping = Ret o w' /\ maps_ok w' 100 /\ mms w' = mms with_mapping /\
    match o with
    | Some dupe => w' = with_mapping /\ dupe ∈ inorder (maps (space_of with_mapping 100))
        /\ meets (mm_of with_mapping) dupe (addr (mm_of with_mapping 50)) (length (mm_of with_mapping 50))
    | None => exists l r, inorder (maps (space_of with_mapping 100)) = l ++ r
        /\ inorder (maps (space_of w' 100)) = l ++ 50 :: r
    end.
Proof.
  split; [by vm_compute|]. exact (insert_lazy_mmap_exact with_mapping 100 50 (proj1 with_mapping_maps) (proj2 with_mapping_maps)).
Defined.

(** ** Where vm falls short *)

Definition file_server : Z := compose_tid 50003 0 11.
(** Two pages of a file, to be read and written, at 0x400000 of the process 100 *)
Definition map_file (flags : Z) : Z * Z * vm_request := (root_thread, 0, VmMmap 100 0x400000 0x2000 3 flags file_server 3 0).
Definition page_after (l : list (Z * Z * vm_request)) (a : Z) : option vp := page_at (after l set_up) 100 a.

(** A shared mapping of a file that is first read and then written to ends up with a copy of the
    page, where a mapping that is written to at first shares the page of the file. *)
Lemma shared_mapping_copied :
  let mmap := map_file (Z.lor MAP_SHARED MAP_FIXED) in
  let read := (thread_of 100, L4_Readable, VmFault 0x400000) in
  let write := (thread_of 100, L4_Writable, VmFault 0x400000) in
  (VP_IS_COW <$> page_after [mmap; read] 0x400000) = Some true
  /\ (VP_IS_SHARED <$> page_after [mmap; read; write] 0x400000) = Some false
  /\ (VP_IS_SHARED <$> page_after [mmap; write] 0x400000) = Some true.
Proof. by vm_compute. Qed.

(** The last page of a mapping of whole pages has zeros for the contents of the file. *)
Lemma whole_last_page_cleared :
  let mmap := map_file (Z.lor MAP_PRIVATE MAP_FIXED) in
  let read a := (thread_of 100, L4_Readable, VmFault a) in
  let w a := after [mmap; read a] set_up in
  (hd 0 ∘ frame (w 0x400000) ∘ status <$> page_at (w 0x400000) 100 0x400000) = Some 65
  /\ (frame (w 0x401000) ∘ status <$> page_at (w 0x401000) 100 0x401000) = Some (replicate 4096 0).
Proof. by vm_compute. Qed.

(** A fork of a process with a page that is not to be written to stops vm. *)
Lemma fork_readonly_stops :
  let mmap := (root_thread, 0, VmMmap 100 0x400000 0x1000 PROT_READ (Z.lor MAP_PRIVATE (Z.lor MAP_ANONYMOUS MAP_FIXED)) 0 0 0) in
  let read := (thread_of 100, L4_Readable, VmFault 0x400000) in
  vm_turn root_thread 0 (VmFork 100 101) (after [mmap; read] set_up) = Stop StAssert.
Proof. by vm_compute. Qed.

(** munmap() returns success and the mapping is still there: the search for the first mapping of the
    range ends at the one before it. *)
Lemma munmap_leaves_mapping :
  let mmap a := (root_thread, 0, VmMmap 100 a 0x1000 3 (Z.lor MAP_PRIVATE (Z.lor MAP_ANONYMOUS MAP_FIXED)) 0 0 0) in
  let w := after [mmap 0x500000; mmap 0x300000] set_up in
  match vm_munmap 0x400000 0x200000 (from 100 0 w) with
  | Ret r w' => r = 0 /\ (addr ∘ mm_of w' <$> lookup_mmap (mm_of w') (maps (space_of w' 100)) 0x500000) = Some 0x500000
  | Stop _ => False
  end.
Proof. by vm_compute. Qed.

(** *** Without room in the table of shares *)
Module Lost.
(** As before, but htable_add() fails on [share_table]. *)
#[local] Instance no_shares_env : VmEnv := {|
  vm_env tr c := match c with VHtableAdd TabShares => 0 | _ => @vm_env helpful_env tr c end;
  vm_data _ := []; vm_global := compose_tid 50001 0 7; uapi_tid := compose_tid 50002 0 9;
  the_sip := 0; pp_first := 16; n_pc_buckets_log2 := 4; user_addr_max := 2 ^ 31 - 1
|}.
Definition run (l : list (Z * Z * vm_request)) : vm :=
  match vm_turns l (vm_booted phys) with Ret _ w' => w' | Stop _ => vm_booted phys end.
Lemma run_steps l : rtc vm_step (vm_booted phys) (run l).
Proof. unfold run. destruct (vm_turns l _) as [[] w'|] eqn:E; [by apply (turns_steps l)|done]. Qed.
(** The process 100 gets a space, touches a page, and a fork of it fails. *)
Definition refused_fork : list (Z * Z * vm_request) :=
  [(root_thread, 0, VmFork 0 100);
   (root_thread, 0, VmConfigure 100 (L4_FpageLog2 0x200000 14) (L4_FpageLog2 0x100000 12));
   (thread_of 100, 2, VmFault 0x20123); (root_thread, 0, VmFork 100 101)].
End Lost.

(** When an htable_add() on the table of shares fails during a fork, the child's space keeps the
    virtual page while the parent may write to the memory again, and nothing in the books tells that
    it is used by both. *)
Lemma lost_share_breaks_isolation :
  let w := Lost.run Lost.refused_fork in
  @rtc vm (@vm_step _ Lost.no_shares_env plain_tree) (vm_booted phys) w
  /\ @share_lost Lost.no_shares_env (vm_trace w) = true
  /\ private_page w 100 0x20000 (Vp 0x20017 19 1) /\ page_at w 101 0x20000 = Some (Vp 0x20035 19 1)
  /\ ~ exclusive w 100 0x20000 (Vp 0x20017 19 1).
Proof.
  cbv zeta. assert (page_at (Lost.run Lost.refused_fork) 101 0x20000 = Some (Vp 0x20035 19 1)) as Hc by by vm_compute.
  assert (@share_lost Lost.no_shares_env (vm_trace (Lost.run Lost.refused_fork)) = true) as H1 by (vm_compute; reflexivity).
  assert (private_page (Lost.run Lost.refused_fork) 100 0x20000 (Vp 0x20017 19 1)) as H2 by (vm_compute; split_and!; reflexivity).
  split; [|split; [exact H1|split; [exact H2|split; [exact Hc|]]]].
  - exact (Lost.run_steps Lost.refused_fork).
  - intros [He _]. by destruct (He 101 0x20000 _ Hc eq_refl).
Qed.
