(* ===== verification/Sysmem.v ===== *)
(** The system memory server, sys/sysmem/sysmem.c: memory of system tasks, its physical
    pages, and their replacement by compressed copies.

    Structures are referred to by their address.  What sysmem stores in its own pages is
    kept by the kind of structure: an object is in its map while it is in use, and the
    header of a page of compressed memory in [c_hdrs] while the page stores something.
    [frames] has the bytes of pages, beside the headers.  A red-black tree appears as the
    finite map from the keys it is ordered by; lists are given from the head. *)
From stdpp Require Import sorting.
From S2P Require Import Prelude L4 Pages.

Definition NUM_INIT_PAGES : nat := 12.
Definition LF_SWAP : Z := 1.
Definition PF_INCOMPRESSIBLE : Z := 1.
Definition SMATTR_PIN : Z := 1.
Definition sizeof_c_hdr : Z := 28.
Definition MAX_COMPRESSED_SIZE : Z := PAGE_SIZE - sizeof_c_hdr - 26.

(** ** Structures *)

Record p_page := PPage { addr_flags : Z; owner : option Z; age : Z }.
Record l_page := LPage { l_addr : Z; p_addr : Z; flags : Z }.
(** The link in the list of buddies is left to that list. *)
Record c_hdr := CHdr { phys : Z; a_len : Z; b_len : Z; hdr_a : option Z; hdr_b : option Z }.
Record systask := Systask {
  task_at : Z;                               (* where the structure is *)
  mem : gmap Z Z;                            (* of l_page, by l_addr *)
  brk : Z; min_fault : Z;
  utcb_area : Z; kip_area : Z;
  task_pid : Z
}.

(** The three instances of struct alloc_head, and what they allocate.  Until its first use
    a head has no pages; there is always one afterwards. *)
Inductive alloc_type := ASystask | APPage | ALPage.
#[global] Instance alloc_type_eq_dec : EqDecision alloc_type.
Proof. solve_decision. Defined.
Definition sz_of (ty : alloc_type) : Z :=
  match ty with ASystask => 36 | APPage => 20 | ALPage => 24 end.
Definition alignof : Z := 4.
Definition sizeof_ptr : Z := 4.
Record alloc_head := AllocHead { alloc_pages : list Z; trash : list Z }.

Definition P_ADDRESS (p : p_page) : Z := page_of (addr_flags p).
Definition set_p_flags (x : Z) (p : p_page) : p_page := PPage x (owner p) (age p).
Definition set_owner (o : option Z) (p : p_page) : p_page := PPage (addr_flags p) o (age p).
Definition set_age (a : Z) (p : p_page) : p_page := PPage (addr_flags p) (owner p) a.
Definition set_l_addr (a : Z) (l : l_page) : l_page := LPage a (p_addr l) (flags l).
Definition set_p_addr (a : Z) (l : l_page) : l_page := LPage (l_addr l) a (flags l).
Definition set_l_flags (f : Z) (l : l_page) : l_page := LPage (l_addr l) (p_addr l) f.
Definition set_hdr_a (o : option Z) (h : c_hdr) : c_hdr := CHdr (phys h) (a_len h) (b_len h) o (hdr_b h).
Definition set_hdr_b (o : option Z) (h : c_hdr) : c_hdr := CHdr (phys h) (a_len h) (b_len h) (hdr_a h) o.
Definition set_mem (m : gmap Z Z) (t : systask) : systask :=
  Systask (task_at t) m (brk t) (min_fault t) (utcb_area t) (kip_area t) (task_pid t).
Definition set_shape (b low : Z) (t : systask) : systask :=
  Systask (task_at t) (mem t) b low (utcb_area t) (kip_area t) (task_pid t).
Definition set_kernel_areas (u k : Z) (t : systask) : systask :=
  Systask (task_at t) (mem t) (brk t) (min_fault t) u k (task_pid t).

(** Calls out of sysmem. *)
Inductive smcall :=
| SmUnmapFpages (l : list (Z * Z))           (* page addresses and rights *)
| SmReceive (tid base size_log2 : Z)         (* for map and grant items *)
| SmSend (tid ip sp : Z)
| SmForwardIopf (iofp : Z)                   (* to sigma0 *)
| SmReplyIopf (tid iofp : Z).

(** What the microkernel has mapped on sysmem's behalf: a physical page, and the system
    task and address it is mapped at.  A page that sysmem replies with counts as mapped. *)
Definition mapping : Type := Z * (Z * Z).

Record sysmem := Sysmem {
  p_pages : gmap Z p_page;
  l_pages : gmap Z l_page;
  c_hdrs : gmap Z c_hdr;
  frames : gmap Z (list Z);
  free_page_list : list Z;
  active_page_list : list Z;
  reserved_page_list : list Z;
  num_free_pages : Z;
  buddy_list : list Z;                       (* of addresses of headers *)
  repl_enable : bool;
  hand : option Z;                           (* the static variable of replace_pages() *)
  heads : alloc_type -> alloc_head;
  alloc_next : gmap Z Z;                     (* struct alloc_page, by page address *)
  systask_tree : gmap Z systask;
  malloc_pos : Z;
  sysinfo : gmap Z Z;                        (* thread IDs in the information blocks *)
  mappings : list mapping;
  sm_trace : list smcall;                    (* latest first *)
  sm_sender : Z;                             (* of the message being served *)
  sm_no_reply : bool
}.

(** Pages that have never been written to read as zero here. *)
Definition frame (w : sysmem) (a : Z) : list Z := default (replicate (Z.to_nat PAGE_SIZE) 0) (frames w !! a).

Definition upd_head (ty : alloc_type) (h : alloc_head) (hs : alloc_type -> alloc_head) : alloc_type -> alloc_head :=
  fun ty' => if decide (ty' = ty) then h else hs ty'.

Definition set_p_pages x w := Sysmem x (l_pages w) (c_hdrs w) (frames w) (free_page_list w) (active_page_list w) (reserved_page_list w)
  (num_free_pages w) (buddy_list w) (repl_enable w) (hand w) (heads w) (alloc_next w) (systask_tree w)
  (malloc_pos w) (sysinfo w) (mappings w) (sm_trace w) (sm_sender w) (sm_no_reply w).
Definition set_l_pages x w := Sysmem (p_pages w) x (c_hdrs w) (frames w) (free_page_list w) (active_page_list w) (reserved_page_list w)
  (num_free_pages w) (buddy_list w) (repl_enable w) (hand w) (heads w) (alloc_next w) (systask_tree w)
  (malloc_pos w) (sysinfo w) (mappings w) (sm_trace w) (sm_sender w) (sm_no_reply w).
Definition set_c_hdrs x w := Sysmem (p_pages w) (l_pages w) x (frames w) (free_page_list w) (active_page_list w) (reserved_page_list w)
  (num_free_pages w) (buddy_list w) (repl_enable w) (hand w) (heads w) (alloc_next w) (systask_tree w)
  (malloc_pos w) (sysinfo w) (mappings w) (sm_trace w) (sm_sender w) (sm_no_reply w).
Definition set_frames x w := Sysmem (p_pages w) (l_pages w) (c_hdrs w) x (free_page_list w) (active_page_list w) (reserved_page_list w)
  (num_free_pages w) (buddy_list w) (repl_enable w) (hand w) (heads w) (alloc_next w) (systask_tree w)
  (malloc_pos w) (sysinfo w) (mappings w) (sm_trace w) (sm_sender w) (sm_no_reply w).
Definition set_active x w := Sysmem (p_pages w) (l_pages w) (c_hdrs w) (frames w) (free_page_list w) x (reserved_page_list w)
  (num_free_pages w) (buddy_list w) (repl_enable w) (hand w) (heads w) (alloc_next w) (systask_tree w)
  (malloc_pos w) (sysinfo w) (mappings w) (sm_trace w) (sm_sender w) (sm_no_reply w).
Definition set_reserved x w := Sysmem (p_pages w) (l_pages w) (c_hdrs w) (frames w) (free_page_list w) (active_page_list w) x
  (num_free_pages w) (buddy_list w) (repl_enable w) (hand w) (heads w) (alloc_next w) (systask_tree w)
  (malloc_pos w) (sysinfo w) (mappings w) (sm_trace w) (sm_sender w) (sm_no_reply w).
Definition set_buddies x w := Sysmem (p_pages w) (l_pages w) (c_hdrs w) (frames w) (free_page_list w) (active_page_list w)
  (reserved_page_list w) (num_free_pages w) x (repl_enable w) (hand w) (heads w) (alloc_next w)
  (systask_tree w) (malloc_pos w) (sysinfo w) (mappings w) (sm_trace w) (sm_sender w) (sm_no_reply w).
Definition set_repl_enable x w := Sysmem (p_pages w) (l_pages w) (c_hdrs w) (frames w) (free_page_list w) (active_page_list w)
  (reserved_page_list w) (num_free_pages w) (buddy_list w) x (hand w) (heads w) (alloc_next w)
  (systask_tree w) (malloc_pos w) (sysinfo w) (mappings w) (sm_trace w) (sm_sender w) (sm_no_reply w).
Definition set_hand x w := Sysmem (p_pages w) (l_pages w) (c_hdrs w) (frames w) (free_page_list w) (active_page_list w)
  (reserved_page_list w) (num_free_pages w) (buddy_list w) (repl_enable w) x (heads w) (alloc_next w)
  (systask_tree w) (malloc_pos w) (sysinfo w) (mappings w) (sm_trace w) (sm_sender w) (sm_no_reply w).
Definition set_heads x w := Sysmem (p_pages w) (l_pages w) (c_hdrs w) (frames w) (free_page_list w) (active_page_list w)
  (reserved_page_list w) (num_free_pages w) (buddy_list w) (repl_enable w) (hand w) x (alloc_next w)
  (systask_tree w) (malloc_pos w) (sysinfo w) (mappings w) (sm_trace w) (sm_sender w) (sm_no_reply w).
Definition set_alloc_next x w := Sysmem (p_pages w) (l_pages w) (c_hdrs w) (frames w) (free_page_list w) (active_page_list w)
  (reserved_page_list w) (num_free_pages w) (buddy_list w) (repl_enable w) (hand w) (heads w) x
  (systask_tree w) (malloc_pos w) (sysinfo w) (mappings w) (sm_trace w) (sm_sender w) (sm_no_reply w).
Definition set_tree x w := Sysmem (p_pages w) (l_pages w) (c_hdrs w) (frames w) (free_page_list w) (active_page_list w)
  (reserved_page_list w) (num_free_pages w) (buddy_list w) (repl_enable w) (hand w) (heads w)
  (alloc_next w) x (malloc_pos w) (sysinfo w) (mappings w) (sm_trace w) (sm_sender w) (sm_no_reply w).
Definition set_malloc_pos x w := Sysmem (p_pages w) (l_pages w) (c_hdrs w) (frames w) (free_page_list w) (active_page_list w)
  (reserved_page_list w) (num_free_pages w) (buddy_list w) (repl_enable w) (hand w) (heads w)
  (alloc_next w) (systask_tree w) x (sysinfo w) (mappings w) (sm_trace w) (sm_sender w) (sm_no_reply
  w).
Definition set_sysinfo x w := Sysmem (p_pages w) (l_pages w) (c_hdrs w) (frames w) (free_page_list w) (active_page_list w)
  (reserved_page_list w) (num_free_pages w) (buddy_list w) (repl_enable w) (hand w) (heads w)
  (alloc_next w) (systask_tree w) (malloc_pos w) x (mappings w) (sm_trace w) (sm_sender w)
  (sm_no_reply w).
Definition set_mappings x w := Sysmem (p_pages w) (l_pages w) (c_hdrs w) (frames w) (free_page_list w) (active_page_list w)
  (reserved_page_list w) (num_free_pages w) (buddy_list w) (repl_enable w) (hand w) (heads w)
  (alloc_next w) (systask_tree w) (malloc_pos w) (sysinfo w) x (sm_trace w) (sm_sender w) (sm_no_reply
  w).
Definition set_no_reply x w := Sysmem (p_pages w) (l_pages w) (c_hdrs w) (frames w) (free_page_list w) (active_page_list w)
  (reserved_page_list w) (num_free_pages w) (buddy_list w) (repl_enable w) (hand w) (heads w)
  (alloc_next w) (systask_tree w) (malloc_pos w) (sysinfo w) (mappings w) (sm_trace w) (sm_sender w) x.
(** The list of free pages, and its count *)
Definition set_free l n w := Sysmem (p_pages w) (l_pages w) (c_hdrs w) (frames w) l (active_page_list w) (reserved_page_list w) n
  (buddy_list w) (repl_enable w) (hand w) (heads w) (alloc_next w) (systask_tree w) (malloc_pos w)
  (sysinfo w) (mappings w) (sm_trace w) (sm_sender w) (sm_no_reply w).
Definition set_sm_message sender w := Sysmem (p_pages w) (l_pages w) (c_hdrs w) (frames w) (free_page_list w) (active_page_list w)
  (reserved_page_list w) (num_free_pages w) (buddy_list w) (repl_enable w) (hand w) (heads w)
  (alloc_next w) (systask_tree w) (malloc_pos w) (sysinfo w) (mappings w) (sm_trace w) sender false.
Definition add_smcall c w := Sysmem (p_pages w) (l_pages w) (c_hdrs w) (frames w) (free_page_list w) (active_page_list w)
  (reserved_page_list w) (num_free_pages w) (buddy_list w) (repl_enable w) (hand w) (heads w)
  (alloc_next w) (systask_tree w) (malloc_pos w) (sysinfo w) (mappings w) (c :: sm_trace w) (sm_sender
  w) (sm_no_reply w).

(** What is settled before sysmem starts, and the answers of its environment. *)
Class SysmemEnv := {
  sm_access : list smcall -> Z -> Z;         (* how a page was accessed since last asked *)
  sm_garbage : list smcall -> list Z;        (* pages that uninitialised flexpages designate *)
  sm_faults : list smcall -> list (Z * Z);   (* a sender's faults before its second message *)
  sm_message : list smcall -> Z * Z * Z * Z; (* that message: error code, label, u, t *)
  sm_granted : list smcall -> Z -> list Z;   (* the contents of a page received *)
  sm_ipc_error : list smcall -> Z;           (* L4_ErrorCode(), 0 when the IPC succeeded *)
  sm_global : Z;                             (* L4_MyGlobalId() *)
  sm_pager : Z;                              (* L4_Pager() *)
  L4_IsIoFpage : Z -> bool;
  first_mem : Z;
  malloc_pool : Z;
  image_start : Z;                           (* &_start *)
  image_end : Z                              (* &_end *)
}.

(** lib/lz4.c, as sysmem uses it: a buffer of LZ4_COMPRESSBOUND bytes is always enough,
    and what was compressed comes back. *)
Class LZ4 := {
  LZ4_compress : list Z -> list Z;
  LZ4_decompress_safe : list Z -> option (list Z);
  LZ4_compress_some l : LZ4_compress l <> [];
  LZ4_roundtrip l : length l = Z.to_nat PAGE_SIZE -> LZ4_decompress_safe (LZ4_compress l) = Some l
}.

Section sysmem.
Context `{!L4Abi, !SysmemEnv, !LZ4}.

(** ** Access to structures *)

Definition p_at (p : Z) : M sysmem p_page := w ← get; of_option StFault (p_pages w !! p).
Definition l_at (lp : Z) : M sysmem l_page := w ← get; of_option StFault (l_pages w !! lp).
(** A header whose magic number is checked *)
Definition hdr_at (c : Z) : M sysmem c_hdr := w ← get; of_option StAssert (c_hdrs w !! c).
Definition task_of (pid : Z) : M sysmem systask := w ← get; of_option StFault (systask_tree w !! pid).
Definition p_upd (p : Z) (f : p_page -> p_page) : M sysmem unit := modify (fun w => set_p_pages (alter f p (p_pages w)) w).
Definition l_upd (lp : Z) (f : l_page -> l_page) : M sysmem unit := modify (fun w => set_l_pages (alter f lp (l_pages w)) w).
Definition hdr_upd (c : Z) (f : c_hdr -> c_hdr) : M sysmem unit := modify (fun w => set_c_hdrs (alter f c (c_hdrs w)) w).
Definition task_upd (pid : Z) (f : systask -> systask) : M sysmem unit :=
  modify (fun w => set_tree (alter f pid (systask_tree w)) w).
Definition call (c : smcall) : M sysmem unit := modify (add_smcall c).
Definition set_frame (a : Z) (bytes : list Z) : M sysmem unit := modify (fun w => set_frames (<[a := bytes]> (frames w)) w).

(** ** What is mapped *)

Definition map_page (m : mapping) : M sysmem unit := modify (fun w => set_mappings (m :: mappings w) w).
Definition unmap (l : list Z) : M sysmem unit :=
  modify (fun w => set_mappings (filter (fun m : mapping => m.1 ∉ l) (mappings w)) w).
(** L4_UnmapFpages() of whole pages: mappings are revoked where rights are given, and
    otherwise the pages' access is asked for. *)
Definition L4_UnmapFpages (l : list (Z * Z)) : M sysmem unit :=
  _ ← call (SmUnmapFpages l);
  unmap (fst <$> filter (fun m : Z * Z => m.2 <> 0) l).

(** ** Lists *)

(** list_del_from(): the element has to be in a list. *)
Definition del_from (p : Z) (l : list Z) : M sysmem (list Z) :=
  if bool_decide (p ∈ l) then mret (filter (fun x => x <> p) l) else halt StFault.
Definition active_del (p : Z) : M sysmem unit :=
  w ← get; l ← del_from p (active_page_list w); modify (set_active l).
Definition buddy_del (c : Z) : M sysmem unit :=
  w ← get; l ← del_from c (buddy_list w); modify (set_buddies l).
Definition buddy_add (c : Z) : M sysmem unit := modify (fun w => set_buddies (c :: buddy_list w) w).
Definition active_add (p : Z) : M sysmem unit := modify (fun w => set_active (active_page_list w ++ [p]) w).
Definition free_add (p : Z) : M sysmem unit :=
  modify (fun w => set_free (p :: free_page_list w) (u32 (num_free_pages w + 1)) w).

Fixpoint list_next (l : list Z) (p : Z) : option Z :=
  match l with [] => None | x :: l => if x =? p then head l else list_next l p end.

(** ** Trees *)

Definition find_task (pid : Z) : M sysmem (option systask) :=
  if pid <? SNEKS_MIN_SYSID then mret None else gets (fun w => systask_tree w !! pid).
Definition put_task (t : systask) : M sysmem unit :=
  w ← get;
  match systask_tree w !! task_pid t with
  | Some _ => halt StPanic
  | None => modify (fun w => set_tree (<[task_pid t := t]> (systask_tree w)) w)
  end.

(** The address in [lp] is its key. *)
Definition put_lpage (task lp : Z) : M sysmem unit :=
  t ← task_of task; l ← l_at lp;
  match mem t !! l_addr l with
  | Some _ => halt StPanic
  | None => task_upd task (fun t => set_mem (<[l_addr l := lp]> (mem t)) t)
  end.
Definition get_lpage (task addr : Z) : M sysmem (option Z) :=
  _ ← assert_ (negb (has addr PAGE_MASK));
  t ← task_of task; mret (mem t !! addr).
(** rb_first() and rb_next() visit the nodes in the order of their keys. *)
Definition key_le (x y : Z * Z) : Prop := x.1 <= y.1.
#[global] Instance key_le_dec x y : Decision (key_le x y).
Proof. unfold key_le. apply _. Defined.
Definition in_order (m : gmap Z Z) : list (Z * Z) := merge_sort key_le (map_to_list m).

Definition get_active_page (addr : Z) : M sysmem (option Z) :=
  w ← get;
  mret (find (fun p => match p_pages w !! p with Some q => P_ADDRESS q =? addr | None => false end)
    (active_page_list w)).

(** ** Memory before there is any *)

Definition malloc (sz : Z) : M sysmem (option Z) :=
  let sz := Z.land (sz + 7) (bnot32 7) in
  pos ← gets malloc_pos;
  if 1024 <=? pos + sz then mret None
  else _ ← modify (set_malloc_pos (pos + sz)); mret (Some (malloc_pool + pos)).

(** ** Page replacement *)

(** The contents of compressed pages, and where the two buddies are *)
Definition bytes_at (off len : Z) (page : list Z) : list Z := take (Z.to_nat len) (drop (Z.to_nat off) page).
Definition store_at (off : Z) (bytes page : list Z) : list Z :=
  take (Z.to_nat off) page ++ bytes ++ drop (Z.to_nat off + length bytes) page.
Definition off_a : Z := sizeof_c_hdr.
Definition off_b (len : Z) : Z := PAGE_SIZE - len.

Definition hdr_left (h : c_hdr) : Z :=
  PAGE_SIZE - sizeof_c_hdr - (match hdr_a h with Some _ => a_len h | None => b_len h end).
(** The buddy that wastes the least space, if that is less than [waste] *)
Fixpoint find_buddy (w : sysmem) (c_size waste : Z) (best : option Z) (l : list Z) : option Z :=
  match l with
  | [] => best
  | cand :: l =>
      let left := match c_hdrs w !! cand with Some h => hdr_left h | None => 0 end in
      if left <? c_size then find_buddy w c_size waste best l
      else if left - c_size <? waste then find_buddy w c_size (left - c_size) (Some cand) l
      else find_buddy w c_size waste best l
  end.

(** Stores the compressed [out] of the page [p] in the page itself. *)
Definition store_alone (p pa lp : Z) (out : list Z) : M sysmem unit :=
  w ← get;
  _ ← modify (fun w => set_c_hdrs (<[pa := CHdr p (Z.of_nat (length out)) 0 (Some lp) None]> (c_hdrs w)) w);
  _ ← set_frame pa (store_at off_a out (frame w pa));
  _ ← buddy_add pa;
  _ ← l_upd lp (fun l => set_p_addr (Z.lor (p_addr l) LF_SWAP) l);
  p_upd p (set_owner None).
(** Stores it in the page [best], and frees its own. *)
Definition store_with (best p lp : Z) (out : list Z) : M sysmem unit :=
  _ ← buddy_del best;
  h ← hdr_at best;
  w ← get;
  let len := Z.of_nat (length out) in
  off ← (match hdr_a h with
         | None =>
             _ ← hdr_upd best (fun h => CHdr (phys h) len (b_len h) (Some lp) (hdr_b h));
             mret off_a
         | Some _ =>
             _ ← assert_ (sizeof_c_hdr <=? off_b len);
             _ ← hdr_upd best (fun h => CHdr (phys h) (a_len h) len (hdr_a h) (Some lp));
             mret (off_b len)
         end);
  _ ← set_frame best (store_at off out (frame w best));
  _ ← l_upd lp (set_p_addr (Z.lor (page_of best) LF_SWAP));
  _ ← p_upd p (set_owner None);
  free_add p.

Definition replace_active_page (p : Z) : M sysmem bool :=
  q ← p_at p;
  let pa := P_ADDRESS q in
  _ ← L4_UnmapFpages [(pa, L4_FullyAccessible)];
  lp ← of_option StAssert (owner q);
  w ← get;
  let out := LZ4_compress (frame w pa) in
  let c_size := Z.of_nat (length out) in
  if MAX_COMPRESSED_SIZE <=? c_size then mret false
  else if c_size =? 0 then halt StAbort
  else
    _ ← assert_ (forallb (fun c => bool_decide (is_Some (c_hdrs w !! c))) (buddy_list w));
    let best := find_buddy w c_size (PAGE_SIZE - sizeof_c_hdr - c_size) None (buddy_list w) in
    _ ← active_del p;
    _ ← (match best with
         | None => store_alone p pa lp out
         | Some best => store_with best p lp out
         end);
    mret true.

(** The pages from [hand] on, up to [k] of them, with the hand behind them and whether the
    end of the list was passed. *)
Fixpoint examine (k : nat) (start hd : option Z) : M sysmem (list Z * option Z * bool) :=
  match k with
  | O => mret ([], hd, false)
  | S k =>
      w ← get;
      match hd with
      | None => halt (if bool_decide (active_page_list w = []) then StPanic else StAssert)
      | Some p =>
          q ← p_at p;
          _ ← assert_ (bool_decide (is_Some (owner q)));
          let next := list_next (active_page_list w) p in
          let looped := bool_decide (next = None) in
          let hd := if looped then head (active_page_list w) else next in
          if bool_decide (start = hd) then mret ([p], hd, looped)
          else '(ps, hd, l) ← examine k start hd; mret (p :: ps, hd, looped || l)
      end
  end.

(** What is done with one of them, given how it was accessed; returns the hand and how
    many pages are replaced. *)
Definition age_page (hd : option Z) (p rights : Z) : M sysmem (option Z * Z) :=
  q ← p_at p;
  if negb (rights =? 0) then
    _ ← p_upd p (fun q => set_age (s32 (age q + 1)) q);
    _ ← when_ (has rights L4_Writable) (p_upd p (fun q => set_p_flags (clear_bits (addr_flags q) PF_INCOMPRESSIBLE) q));
    mret (hd, 0)
  else if 0 <? age q then _ ← p_upd p (set_age (Z.shiftr (age q) 1)); mret (hd, 0)
  else
    pinned ← (if has (addr_flags q) PF_INCOMPRESSIBLE then mret true
              else lp ← of_option StFault (owner q); l ← l_at lp; mret (has (flags l) SMATTR_PIN));
    if (pinned : bool) then mret (hd, 0)
    else
      w ← get;
      let next := list_next (active_page_list w) p in
      ok ← replace_active_page p;
      if (ok : bool) then
        q ← p_at p;
        _ ← assert_ (negb (has (addr_flags q) PF_INCOMPRESSIBLE));
        w ← get;
        mret (if bool_decide (hd = Some p) then
                match next with Some n => Some n | None => head (active_page_list w) end
              else hd, 1)
      else _ ← p_upd p (fun q => set_p_flags (Z.lor (addr_flags q) PF_INCOMPRESSIBLE) q); mret (hd, 0).

Fixpoint age_pages (hd : option Z) (l : list (Z * Z)) : M sysmem (option Z * Z) :=
  match l with
  | [] => mret (hd, 0)
  | (p, rights) :: l =>
      '(hd, n) ← age_page hd p rights;
      '(hd, m) ← age_pages hd l;
      mret (hd, n + m)
  end.

(** The hand, if it still points to a page that is in use *)
Definition hand_at (w : sysmem) : M sysmem (option Z) :=
  match hand w with
  | None => mret (head (active_page_list w))
  | Some p => q ← p_at p; mret (match owner q with None => head (active_page_list w) | Some _ => Some p end)
  end.

(** Returns how many pages were replaced, and whether the end of the list was passed.
    The flexpages that were not filled in are passed to the microkernel as well. *)
Definition replace_pages : M sysmem (Z * bool) :=
  w ← get;
  hd ← hand_at w;
  '(ps, hd, looped) ← examine 64 hd hd;
  qs ← mapM p_at ps;
  let addrs := P_ADDRESS <$> qs in
  w ← get;
  _ ← L4_UnmapFpages ((fun a => (a, 0)) <$> addrs);
  _ ← unmap (sm_garbage (sm_trace w));
  '(hd, n) ← age_pages hd (zip ps (sm_access (sm_trace w) <$> addrs));
  _ ← modify (set_hand hd);
  mret (n, looped).

(** The loop of get_free_page().  Twice round the list without replacing a page ends it. *)
Fixpoint replace_loop (fuel : nat) (loops loop_freed : Z) : M sysmem unit :=
  n ← gets num_free_pages;
  if negb (n <? 48) then mret tt
  else
    match fuel with
    | O => halt StFuel
    | S fuel =>
        '(n_freed, looped) ← replace_pages;
        let loop_freed := loop_freed + n_freed in
        if (looped : bool) then
          if (1 <? loops) && (loop_freed =? 0) then mret tt
          else replace_loop fuel (loops + 1) 0
        else replace_loop fuel loops loop_freed
    end.
Definition replace_fuel (w : sysmem) : nat :=
  let n := length (active_page_list w) in (n + 4) * (n + 1).

Definition get_free_page : M sysmem Z :=
  w ← get;
  match free_page_list w with
  | [] => halt StPanic
  | p :: l =>
      _ ← modify (set_free l (u32 (num_free_pages w - 1)));
      _ ← p_upd p (set_age 1);
      w ← get;
      _ ← when_ (repl_enable w && (num_free_pages w <? 16))
            (_ ← replace_loop (replace_fuel w) 0 0;
             n ← gets num_free_pages;
             if n <? 16 then halt StPanic else mret tt);
      mret p
  end.

(** The page that [lp] is expanded into; the contents of a page that stores no other one
    are expanded in place. *)
Definition decompress (lp : Z) : M sysmem Z :=
  l ← l_at lp;
  let c := page_of (p_addr l) in
  h ← hdr_at c;
  w ← get;
  '(data, done) ← (if bool_decide (hdr_a h = Some lp) then
      _ ← hdr_upd c (set_hdr_a None);
      mret (bytes_at off_a (a_len h) (frame w c), bool_decide (hdr_b h = None))
    else
      _ ← assert_ (bool_decide (hdr_b h = Some lp));
      _ ← hdr_upd c (set_hdr_b None);
      mret (bytes_at (off_b (b_len h)) (b_len h) (frame w c), bool_decide (hdr_a h = None)));
  phys ← (if (done : bool) then _ ← buddy_del c; mret (phys h)
          else p ← get_free_page; _ ← buddy_add c; mret p);
  q ← p_at phys;
  match LZ4_decompress_safe data with
  | Some bytes =>
      if negb (length bytes =? Z.to_nat PAGE_SIZE)%nat then halt StPanic
      else
        _ ← modify (fun w => set_c_hdrs (delete (P_ADDRESS q) (c_hdrs w)) w);
        _ ← set_frame (P_ADDRESS q) bytes;
        mret phys
  | None => halt StPanic
  end.

(** ** Allocation within pages *)

Definition set_head (ty : alloc_type) (h : alloc_head) : M sysmem unit :=
  modify (fun w => set_heads (upd_head ty h (heads w)) w).
(** Sizes are rounded up to the alignment. *)
Definition align_up (x : Z) : Z := Z.land (x + alignof - 1) (bnot32 (alignof - 1)).

(** The next object of the page [phys]; the last one that would fit is left out. *)
Definition carve (ty : alloc_type) (phys : Z) : M sysmem (option Z) :=
  q ← p_at phys;
  let base := P_ADDRESS q in
  w ← get;
  ptr ← of_option StFault (alloc_next w !! base);
  if ptr =? 0 then mret None
  else
    let next := ptr + align_up (sz_of ty) in
    _ ← modify (fun w => set_alloc_next (<[base := next]> (alloc_next w)) w);
    if base + PAGE_SIZE <=? next then mret None
    else
      _ ← assert_ (base + sizeof_ptr <=? ptr);
      _ ← assert_ (ptr + sz_of ty <=? base + PAGE_SIZE);
      mret (Some ptr).
Definition get_ram (ty : alloc_type) : M sysmem Z :=
  phys ← get_free_page;
  h ← gets (fun w => heads w ty);
  _ ← set_head ty (AllocHead (phys :: alloc_pages h) (trash h));
  q ← p_at phys;
  let base := P_ADDRESS q in
  _ ← modify (fun w => set_alloc_next (<[base := base + align_up sizeof_ptr]> (alloc_next w)) w);
  mret phys.

(** A new page is always large enough, so the loop of the source ends with it. *)
Definition alloc (ty : alloc_type) : M sysmem Z :=
  h ← gets (fun w => heads w ty);
  match trash h with
  | ptr :: rest => _ ← set_head ty (AllocHead (alloc_pages h) rest); mret ptr
  | [] =>
      o ← (match alloc_pages h with [] => mret None | phys :: _ => carve ty phys end);
      match o with
      | Some ptr => mret ptr
      | None => phys ← get_ram ty; o ← carve ty phys; of_option StFuel o
      end
  end.
Definition recycle (ty : alloc_type) (ptr : Z) : M sysmem unit :=
  h ← gets (fun w => heads w ty);
  set_head ty (AllocHead (alloc_pages h) (ptr :: trash h)).

End sysmem.
