(* ===== verification/SysmemOps.v ===== *)
(** The page fault handler and the requests of Sneks::Sysmem, sys/sysmem/sysmem.c, with
    the start of sysmem and the turns of its main loop. *)
From S2P Require Import Prelude L4 Pages Sysmem.

Section ops.
Context `{!L4Abi, !SysmemEnv, !LZ4}.

Definition L4_IsGlobalId (t : Z) : bool := negb (L4_IsLocalId t).
Definition pid_of (tid : Z) : Z := pidof_NP sm_global tid.

(** ** Tasks and faults *)

(** The task ID is kept in 16 bits. *)
Definition new_task (ptr pid : Z) : systask :=
  Systask ptr ∅ 0x10000 (bnot32 PAGE_MASK) L4_Nilpage L4_Nilpage (u16 pid).
(** Returns the ID, by which tasks are referred to. *)
Definition get_task (pid : Z) : M sysmem Z :=
  _ ← assert_ (SNEKS_MIN_SYSID <=? pid);
  t ← find_task pid;
  match t with
  | Some t => mret (task_pid t)
  | None =>
      ptr ← alloc ASystask;
      _ ← put_task (new_task ptr pid);
      t ← find_task (u16 pid);
      _ ← assert_ (bool_decide (task_at <$> t = Some ptr));
      mret (u16 pid)
  end.

(** A page [phys] of memory for [lp] *)
Definition give_page (lp phys : Z) : M sysmem unit :=
  q ← p_at phys;
  _ ← l_upd lp (set_p_addr (P_ADDRESS q));
  _ ← p_upd phys (set_owner (Some lp));
  active_add phys.
(** A new page of a task; the physical page is left to be set by the caller. *)
Definition new_lpage (task addr paddr fl : Z) : M sysmem Z :=
  lp ← alloc ALPage;
  _ ← modify (fun w => set_l_pages (<[lp := LPage addr paddr fl]> (l_pages w)) w);
  _ ← put_lpage task lp;
  mret lp.

(** What the fault at [addr] of a task that has the page [lp] there is given *)
Definition fault_page (task addr : Z) (lp : option Z) : M sysmem Z :=
  o ← (match lp with None => mret None | Some lp => l ← l_at lp; mret (Some (lp, l)) end);
  match o with
  | Some (lp, l) =>
      if p_addr l =? 0 then
        _ ← assert_ (negb (flags l =? 0));
        phys ← get_free_page; _ ← give_page lp phys; mret lp
      else if has (p_addr l) LF_SWAP then
        phys ← decompress lp; _ ← give_page lp phys; mret lp
      else mret lp
  | None =>
      lp ← new_lpage task addr 0 0;
      phys ← get_free_page; _ ← give_page lp phys; mret lp
  end.

(** The page to map in reply, or none: then there is no reply. *)
Definition handle_pf (tid faddr : Z) : M sysmem (option mapping) :=
  let addr := page_of faddr in
  if addr =? 0 then mret None
  else
    task ← get_task (pid_of tid);
    lp ← get_lpage task addr;
    t ← task_of task;
    if bool_decide (lp = None) && (brk t <? addr) then halt StAbort
    else
      lp ← fault_page task addr lp;
      _ ← task_upd task (fun t => set_shape (brk t) (Z.min (min_fault t) addr) t);
      l ← l_at lp;
      _ ← assert_ (negb (page_of (p_addr l) =? 0));
      mret (Some (page_of (p_addr l), (task, addr))).

Definition impl_handle_fault (faddr : Z) : M sysmem unit :=
  tid ← gets sm_sender;
  o ← handle_pf tid faddr;
  match o with
  | Some m => map_page m
  | None => modify (set_no_reply true)
  end.

(** A fault of [peer] while a message of another kind is expected from it. *)
Definition interim_fault (peer faddr : Z) : M sysmem unit :=
  o ← handle_pf peer faddr;
  match o with Some m => map_page m | None => halt StAbort end.

(** ** Removal of pages *)

(** The flexpages that are yet to be unmapped, if the caller collects them *)
Definition batch : Type := option (list Z).
Definition unmap_page (address : Z) (fp : batch) : M sysmem batch :=
  match fp with
  | None => _ ← L4_UnmapFpages [(address, L4_FullyAccessible)]; mret None
  | Some l =>
      let l := l ++ [address] in
      if (length l <? 64)%nat then mret (Some l)
      else _ ← L4_UnmapFpages ((fun a => (a, L4_FullyAccessible)) <$> l); mret (Some [])
  end.
(** What is left of a batch *)
Definition unmap_rest (fp : batch) : M sysmem unit :=
  match fp with
  | Some (a :: l) => L4_UnmapFpages ((fun a => (a, L4_FullyAccessible)) <$> a :: l)
  | _ => mret tt
  end.

(** Takes [lp] out of the page that stores it. *)
Definition drop_compressed (lp c : Z) : M sysmem unit :=
  h ← hdr_at c;
  done ← (if bool_decide (hdr_a h = Some lp) then
            _ ← hdr_upd c (set_hdr_a None); mret (bool_decide (hdr_b h = None))
          else
            _ ← assert_ (bool_decide (hdr_b h = Some lp));
            _ ← hdr_upd c (set_hdr_b None); mret (bool_decide (hdr_a h = None)));
  if (done : bool) then
    _ ← buddy_del c;
    q ← p_at (phys h);
    _ ← assert_ (bool_decide (owner q = None));
    _ ← modify (fun w => set_c_hdrs (delete c (c_hdrs w)) w);
    free_add (phys h)
  else buddy_add c.

(** Gives up the place of [lp]. *)
Definition drop_place (lp : Z) (l : l_page) (fp : batch) : M sysmem batch :=
  if has (p_addr l) LF_SWAP then _ ← drop_compressed lp (page_of (p_addr l)); mret fp
  else
    phys ← get_active_page (page_of (p_addr l));
    match phys with
    | None => mret fp
    | Some phys =>
        fp ← unmap_page (page_of (p_addr l)) fp;
        q ← p_at phys;
        _ ← assert_ (bool_decide (owner q = Some lp));
        _ ← active_del phys;
        _ ← p_upd phys (set_owner None);
        _ ← free_add phys;
        mret fp
    end.
Definition remove_l_page (task lp : Z) (fp : batch) : M sysmem batch :=
  l ← l_at lp;
  fp ← drop_place lp l fp;
  _ ← task_upd task (fun t => set_mem (delete (l_addr l) (mem t)) t);
  _ ← modify (fun w => set_l_pages (delete lp (l_pages w)) w);
  _ ← recycle ALPage lp;
  mret fp.

(** Pages of a task, one after the other *)
Fixpoint remove_l_pages (task : Z) (l : list (Z * Z)) (fp : batch) : M sysmem batch :=
  match l with
  | [] => mret fp
  | (_, lp) :: l => fp ← remove_l_page task lp fp; remove_l_pages task l fp
  end.

Definition impl_rm_task (pid : Z) : M sysmem unit :=
  if pid <? SNEKS_MIN_SYSID then mret tt
  else
    t ← find_task pid;
    match t with
    | None => mret tt
    | Some t =>
        fp ← remove_l_pages pid (in_order (mem t)) (Some []);
        _ ← unmap_rest fp;
        _ ← modify (fun w => set_tree (delete pid (systask_tree w)) w);
        recycle ASystask (task_at t)
    end.

(** ** Memory from the root task *)

(** What is in a page that was received *)
Definition receive (a : Z) : M sysmem unit :=
  w ← get;
  set_frame a (take (Z.to_nat PAGE_SIZE) (sm_granted (sm_trace w) a ++ replicate (Z.to_nat PAGE_SIZE) 0)).

Definition add_free_page (pg : Z) : M sysmem unit :=
  q ← p_at pg;
  let top := page_of (u32 (image_end + PAGE_MASK)) in
  let a := P_ADDRESS q in
  if (image_start <=? a) && (a <? top) then
    if (first_mem <=? a) && (a <? first_mem + Z.of_nat NUM_INIT_PAGES * PAGE_SIZE) then mret tt
    else modify (fun w => set_reserved (reserved_page_list w ++ [pg]) w)
  else
    _ ← receive a;
    _ ← modify (fun w => set_free (free_page_list w ++ [pg]) (u32 (num_free_pages w + 1)) w);
    n ← gets num_free_pages;
    when_ (60 <? n) (modify (set_repl_enable true)).

Definition add_task_page (task pg : Z) : M sysmem unit :=
  q ← p_at pg;
  let a := P_ADDRESS q in
  lp ← new_lpage task a a 0;
  _ ← receive a;
  _ ← p_upd pg (fun q => set_age 1 (set_owner (Some lp) q));
  _ ← active_add pg;
  task_upd task (fun t => set_shape (Z.max (brk t) (Z.lor a PAGE_MASK)) (Z.min (min_fault t) (page_of a)) t).

(** Pages from the frame [n] on *)
Fixpoint add_pages (count : nat) (task : option Z) (n : Z) : M sysmem unit :=
  match count with
  | O => mret tt
  | S count =>
      pg ← alloc APPage;
      _ ← modify (fun w => set_p_pages (<[pg := PPage (u32 (Z.shiftl n PAGE_BITS)) None 0]> (p_pages w)) w);
      _ ← (match task with None => add_free_page pg | Some task => add_task_page task pg end);
      add_pages count task (u32 (n + 1))
  end.

Definition impl_send_phys (dest frame_num size_log2 : Z) : M sysmem unit :=
  _ ← assert_ (L4_IsNilThread dest || L4_IsGlobalId dest);
  if negb (L4_IsNilThread dest) && (pid_of dest <? SNEKS_MIN_SYSID) then mret tt
  else
    task ← (if L4_IsNilThread dest then mret None else t ← get_task (pid_of dest); mret (Some t));
    sender ← gets sm_sender;
    _ ← call (SmReceive sender (u32 (Z.shiftl frame_num PAGE_BITS)) size_log2);
    tr ← gets sm_trace;
    _ ← mapM_ (fun f => interim_fault sender f.1) (sm_faults tr);
    tr ← gets sm_trace;
    let '(ec, label, u, t) := sm_message tr in
    if negb (ec =? 0) || negb (label =? 0) || negb (u =? 0) || negb (t =? 2) then mret tt
    else if (size_log2 <? PAGE_BITS) || (42 <? size_log2) then halt StUB
    else add_pages (Z.to_nat (2 ^ (size_log2 - PAGE_BITS))) task frame_num.

Definition impl_send_virt (src_addr dest dest_addr : Z) : M sysmem Z :=
  sender ← gets sm_sender;
  let src_pid := pid_of sender in
  if src_pid <? SNEKS_MIN_SYSID then mret EINVAL
  else
    src ← get_task src_pid;
    lp ← get_lpage src src_addr;
    match lp with
    | None => mret EFAULT
    | Some lp =>
        if negb (L4_IsNilThread dest) then
          let dest_pid := pid_of dest in
          if dest_pid <? SNEKS_MIN_SYSID then mret EINVAL
          else
            dest ← get_task dest_pid;
            dstp ← get_lpage dest dest_addr;
            fp ← (match dstp with None => mret (Some []) | Some dstp => remove_l_page dest dstp (Some []) end);
            l ← l_at lp;
            fp ← unmap_page (page_of (p_addr l)) fp;
            _ ← task_upd src (fun t => set_mem (delete (l_addr l) (mem t)) t);
            _ ← l_upd lp (set_l_addr dest_addr);
            _ ← put_lpage dest lp;
            _ ← task_upd dest (fun t => set_shape (Z.max (brk t) (Z.lor dest_addr PAGE_MASK))
                  (Z.min (min_fault t) (page_of dest_addr)) t);
            _ ← unmap_rest fp; mret 0
        else
          fp ← remove_l_page src lp (Some []);
          _ ← unmap_rest fp; mret 0
    end.

(** ** The break *)

(** The lowest page from [addr] on and before [high], found by trying the addresses *)
Fixpoint first_page (fuel : nat) (task addr high : Z) : M sysmem (option Z) :=
  if negb (addr <? high) then mret None
  else
    match fuel with
    | O => halt StFuel
    | S fuel =>
        lp ← get_lpage task addr;
        match lp with
        | Some lp => mret (Some lp)
        | None => first_page fuel task (u32 (addr + PAGE_SIZE)) high
        end
    end.
Definition all_pages : nat := Z.to_nat (2 ^ 20).

(** The pages from [lp] on, in order, as long as they are below [high] *)
Fixpoint pages_below (high : Z) (l : list (Z * Z)) : list (Z * Z) :=
  match l with [] => [] | (a, x) :: l => if a <? high then (a, x) :: pages_below high l else [] end.
Fixpoint pages_from (lp high : Z) (l : list (Z * Z)) : list (Z * Z) :=
  match l with
  | [] => []
  | (a, x) :: l => if x =? lp then pages_below high ((a, x) :: l) else pages_from lp high l
  end.

Definition impl_brk (new_brk : Z) : M sysmem unit :=
  sender ← gets sm_sender;
  let pid := pid_of sender in
  if pid <? SNEKS_MIN_SYSID then mret tt
  else
    task ← get_task pid;
    t ← task_of task;
    _ ← when_ (new_brk <? brk t)
          (let low := page_of (u32 (new_brk + PAGE_MASK)) in
           let high := Z.lor (brk t) PAGE_MASK in
           cur ← first_page all_pages task low high;
           match cur with
           | None => mret tt
           | Some cur =>
               fp ← remove_l_pages task (pages_from cur high (in_order (mem t))) (Some []);
               unmap_rest fp
           end);
    task_upd task (fun t => set_shape new_brk (min_fault t) t).

(** ** Other requests *)

Definition impl_breath_of_life (tid ip sp : Z) : M sysmem Z :=
  _ ← call (SmSend tid ip sp); tr ← gets sm_trace; mret (sm_ipc_error tr).

Definition FP_EDGES (fp : Z) : list Z := [L4_Address fp; u32 (L4_Address fp + L4_Size fp - 1)].
(** Returns the error, and the lowest and highest address. *)
Definition impl_get_shape (task : Z) : M sysmem (Z * Z * Z) :=
  t ← find_task (pid_of task);
  match t with
  | None => mret (ENOENT, 0, 0)
  | Some t =>
      let edges := [brk t; min_fault t] ++ FP_EDGES (utcb_area t) ++ FP_EDGES (kip_area t) in
      mret (0, foldl Z.min (bnot32 PAGE_MASK) edges, foldl Z.max 0 edges)
  end.

Definition L4_ReadWriteOnly : Z := 6.
Definition impl_set_kernel_areas (task utcb kip : Z) : M sysmem Z :=
  t ← find_task (pid_of task);
  match t with
  | None => mret ENOENT
  | Some t =>
      if L4_IsNilFpage utcb || L4_IsNilFpage kip then mret EINVAL
      else if negb (L4_IsNilFpage (utcb_area t)) || negb (L4_IsNilFpage (kip_area t)) then mret EEXIST
      else
        _ ← task_upd (task_pid t) (set_kernel_areas (L4_Set_Rights utcb L4_ReadWriteOnly)
              (L4_Set_Rights kip L4_ReadWriteOnly));
        mret 0
  end.

Definition alter_page (task or_mask and_mask addr : Z) : M sysmem unit :=
  lp ← get_lpage task addr;
  match lp with
  | Some lp =>
      l ← l_at lp;
      let fl := Z.land (Z.lor (flags l) or_mask) and_mask in
      _ ← l_upd lp (set_l_flags fl);
      if (fl =? 0) && (p_addr l =? 0) then _ ← remove_l_page task lp None; mret tt else mret tt
  | None => _ ← new_lpage task addr 0 or_mask; mret tt
  end.
Fixpoint alter_range (fuel : nat) (task or_mask and_mask addr high : Z) : M sysmem unit :=
  if negb (addr <? high) then mret tt
  else
    match fuel with
    | O => halt StFuel
    | S fuel =>
        _ ← alter_page task or_mask and_mask addr;
        alter_range fuel task or_mask and_mask (u32 (addr + PAGE_SIZE)) high
    end.

Definition impl_alter_flags (task range or_mask and_mask : Z) : M sysmem Z :=
  sender ← gets sm_sender;
  if negb (Z.land or_mask (bnot32 and_mask) =? 0) then mret (- EINVAL)
  else if L4_Size range <? PAGE_BITS then mret (- EINVAL)
  else if negb (L4_IsNilThread task) && (pid_of sender =? pid_of task) then mret (- EINVAL)
  else
    let task := if L4_IsNilThread task then sender else task in
    t ← find_task (pid_of task);
    match t with
    | None => mret (- EINVAL)
    | Some t =>
        if fpage_overlap (utcb_area t) range || fpage_overlap (kip_area t) range then mret (- EINVAL)
        else
          _ ← alter_range all_pages (task_pid t) or_mask and_mask (L4_Address range)
                (u32 (L4_Address range + L4_Size range));
          mret 0
    end.

(** ** Information on the system *)

(** The thread IDs of the information blocks, in the order of the table of names *)
Definition info_kmsg : Z := 0.
Definition info_rootserv : Z := 1.
Definition info_uapi : Z := 2.
Definition info_vm : Z := 3.
Definition info_rootfs : Z := 4.
Definition info_sysmsg : Z := 5.
Definition info_pipe : Z := 6.
Definition info_block (k : Z) : M sysmem Z := gets (fun w => default 0 (sysinfo w !! k)).

Definition tids : list (list Z * Z) := [
  ([107; 109; 115; 103], info_kmsg);                                    (* kmsg *)
  ([114; 111; 111; 116; 115; 101; 114; 118], info_rootserv);            (* rootserv *)
  ([117; 97; 112; 105], info_uapi);                                     (* uapi *)
  ([117; 97; 112; 105; 58; 118; 109], info_vm);                         (* uapi:vm *)
  ([114; 111; 111; 116; 102; 115], info_rootfs);                        (* rootfs *)
  ([115; 121; 115; 58; 115; 121; 115; 109; 115; 103], info_sysmsg);     (* sys:sysmsg *)
  ([112; 111; 115; 105; 120; 58; 112; 105; 112; 101], info_pipe)        (* posix:pipe *)
].
Definition tid_suffix : list Z := [58; 116; 105; 100].                  (* :tid *)

Definition haszero (x : Z) : bool :=
  negb (Z.land (Z.land (u32 (x - 0x01010101)) (bnot32 x)) 0x80808080 =? 0).
Definition word_bytes (x : Z) : list Z :=
  [u8 x; u8 (Z.shiftr x 8); u8 (Z.shiftr x 16); u8 (Z.shiftr x 24)].
(** The words of the string, up to [u] of them or one with a zero byte, and the rest *)
Fixpoint string_words (u : nat) (mrs : list Z) : list Z * list Z :=
  match u, mrs with
  | S u, x :: mrs =>
      if haszero x || (u =? 0)%nat then ([x], mrs)
      else let '(s, rest) := string_words u mrs in (x :: s, rest)
  | _, _ => ([], mrs)
  end.
Fixpoint c_string (l : list Z) : list Z :=
  match l with [] => [] | c :: l => if c =? 0 then [] else c :: c_string l end.
Definition strends (s suffix : list Z) : bool :=
  (length suffix <=? length s)%nat && bool_decide (drop (length s - length suffix) s = suffix).

(** [mrs] are the words of the message, [u] of them untyped.  A string with no words would
    be copied past the end of its buffer.  lib/string.c does not find a character that is
    the first one of its string. *)
Definition sysinfo_init_msg (u : Z) (mrs : list Z) : M sysmem unit :=
  if u =? 0 then halt StUB
  else
    let '(words, rest) := string_words (Z.to_nat u) mrs in
    let name := c_string (mjoin (word_bytes <$> words)) in
    if negb (strends name tid_suffix) then mret tt
    else if (length name =? length tid_suffix)%nat then halt StFault
    else
      let name := take (length name - length tid_suffix) name in
      tid ← of_option StUB (head rest);
      _ ← assert_ (L4_IsGlobalId tid);
      match find (fun e : list Z * Z => bool_decide (e.1 = name)) tids with
      | Some (_, k) => modify (fun w => set_sysinfo (<[k := tid]> (sysinfo w)) w)
      | None => mret tt
      end.

Definition handle_iopf (sender iofp : Z) : M sysmem unit :=
  _ ← assert_ (L4_IsIoFpage iofp);
  _ ← assert_ (negb (sender =? sm_pager));
  _ ← assert_ (negb (L4_IsNilThread sm_pager));
  _ ← call (SmForwardIopf iofp);
  tr ← gets sm_trace;
  if negb (sm_ipc_error tr =? 0) then mret tt else call (SmReplyIopf sender iofp).

(** ** The server *)

Inductive smreq :=
| SmHandleFault (faddr fip : Z)
| SmRmTask (pid : Z)
| SmSendPhys (dest frame_num size_log2 : Z)
| SmSendVirt (src_addr dest dest_addr : Z)
| SmBrk (new_brk : Z)
| SmBreathOfLife (tid ip sp : Z)
| SmGetShape (task : Z)
| SmSetKernelAreas (task utcb kip : Z)
| SmAlterFlags (task range or_mask and_mask : Z)
| SmInfo (block : Z)                         (* lookup and the information blocks *)
| SmSysinfoMsg (u : Z) (mrs : list Z)
| SmIopf (iofp : Z).

Definition ignore {A} (m : M sysmem A) : M sysmem unit := _ ← m; mret tt.
Definition sm_serve (r : smreq) : M sysmem unit :=
  match r with
  | SmHandleFault faddr _ => impl_handle_fault faddr
  | SmRmTask pid => impl_rm_task (s32 pid)
  | SmSendPhys dest n size => impl_send_phys dest n size
  | SmSendVirt src dest addr => ignore (impl_send_virt src dest addr)
  | SmBrk b => impl_brk b
  | SmBreathOfLife tid ip sp => ignore (impl_breath_of_life tid ip sp)
  | SmGetShape task => ignore (impl_get_shape task)
  | SmSetKernelAreas task u k => ignore (impl_set_kernel_areas task u k)
  | SmAlterFlags task range o a => ignore (impl_alter_flags task range o a)
  | SmInfo block => ignore (info_block block)
  | SmSysinfoMsg u mrs => sysinfo_init_msg u mrs
  | SmIopf iofp => sender ← gets sm_sender; handle_iopf sender iofp
  end.
(** A turn of the main loop.  Other tasks' messages of the system's start are ignored. *)
Definition sm_turn (sender : Z) (r : smreq) : M sysmem unit :=
  _ ← modify (set_sm_message sender);
  match r with
  | SmSysinfoMsg _ _ => if L4_ThreadNo sender <? L4_ThreadNo sm_global then sm_serve r else mret tt
  | _ => sm_serve r
  end.

(** The start *)
Fixpoint add_first_mem (n : nat) (a : Z) : M sysmem unit :=
  match n with
  | O => mret tt
  | S n =>
      p ← malloc (sz_of APPage);
      p ← of_option StFault p;
      _ ← assert_ (negb (has a PAGE_MASK));
      _ ← modify (fun w => set_p_pages (<[p := PPage a None 0]> (p_pages w)) w);
      _ ← modify (fun w => set_free (free_page_list w ++ [p]) (u32 (num_free_pages w + 1)) w);
      add_first_mem n (a + PAGE_SIZE)
  end.
Definition sysmem0 : sysmem :=
  Sysmem ∅ ∅ ∅ ∅ [] [] [] 0 [] false None (fun _ => AllocHead [] []) ∅ ∅ 0 ∅ [] [] 0 false.
Definition sm_main : M sysmem unit := add_first_mem NUM_INIT_PAGES first_mem.

End ops.
