(* ===== verification/SysmemProps.v ===== *)
(** What the books of sysmem's memory have to agree on: where each physical page is, which
    logical page it belongs to, what is stored in pages of compressed memory, and what is
    mapped. *)
From S2P Require Import Prelude L4 Pages Sysmem SysmemOps.

Section books.
Context `{LA : !L4Abi, SE : !SysmemEnv, LZ : !LZ4}.

(** ** The places of physical pages *)

Definition stored_in (m : gmap Z c_hdr) : list Z := (fun e : Z * c_hdr => phys e.2) <$> map_to_list m.
Definition heads_pages (w : sysmem) : list Z :=
  alloc_pages (heads w ASystask) ++ alloc_pages (heads w APPage) ++ alloc_pages (heads w ALPage).
(** Every page that sysmem has not handed to a caller of get_free_page(), once for each
    place it has *)
Definition places (w : sysmem) : list Z :=
  free_page_list w ++ active_page_list w ++ reserved_page_list w ++ heads_pages w ++ stored_in (c_hdrs w).
Definition paddr (w : sysmem) (p : Z) : Z := match p_pages w !! p with Some q => P_ADDRESS q | None => 0 end.

(** Not where the first structures are *)
Definition usable (a : Z) : Prop := a + PAGE_SIZE <= malloc_pool \/ malloc_pool + 1024 <= a.

(** [H] has the pages that are on their way from one place to another. *)
Record placed (H : list Z) (w : sysmem) : Prop := Placed {
  pl_nodup : NoDup (paddr w <$> (places w ++ H));
  pl_pos p : p ∈ places w ++ H -> 0 < paddr w p;
  pl_usable p : p ∈ places w ++ H -> p ∉ reserved_page_list w -> usable (paddr w p);
  pl_count : num_free_pages w = u32 (Z.of_nat (length (free_page_list w)));
  pl_hand p : hand w = Some p -> is_Some (p_pages w !! p)
}.

(** ** The contents of logical pages *)

(** The compressed contents of [lp] in the page [c] *)
Definition slot (h : c_hdr) (lp : Z) (page : list Z) : list Z :=
  if bool_decide (hdr_a h = Some lp) then bytes_at off_a (a_len h) page
  else bytes_at (off_b (b_len h)) (b_len h) page.
Definition content (w : sysmem) (lp : Z) : option (list Z) :=
  l ← l_pages w !! lp;
  if has (p_addr l) LF_SWAP then
    h ← c_hdrs w !! page_of (p_addr l); LZ4_decompress_safe (slot h lp (frame w (page_of (p_addr l))))
  else if p_addr l =? 0 then None
  else Some (frame w (p_addr l)).

Definition held_by (w : sysmem) (p lp : Z) : Prop := exists q l,
  p_pages w !! p = Some q /\ owner q = Some lp /\ l_pages w !! lp = Some l /\ p_addr l = P_ADDRESS q.
Definition packed (len : Z) (bytes : list Z) : Prop :=
  0 < len /\ exists data, length data = Z.to_nat PAGE_SIZE /\ bytes = LZ4_compress data.
Definition swapped_to (w : sysmem) (c lp : Z) : Prop :=
  exists l, l_pages w !! lp = Some l /\ p_addr l = Z.lor c LF_SWAP.
Definition stores (h : c_hdr) (lp : Z) : Prop := hdr_a h = Some lp \/ hdr_b h = Some lp.
(** One of the two buddies *)
Definition single (h : c_hdr) : Prop := hdr_a h = None \/ hdr_b h = None.

(** A page of compressed memory *)
Record hdr_ok (w : sysmem) (c : Z) (h : c_hdr) : Prop := HdrOk {
  ho_phys : paddr w (phys h) = c;
  ho_some : exists lp, stores h lp;
  ho_lp lp : stores h lp -> swapped_to w c lp;
  ho_a lp : hdr_a h = Some lp -> packed (a_len h) (bytes_at off_a (a_len h) (frame w c)) /\ sizeof_c_hdr + a_len h <= PAGE_SIZE;
  ho_b lp : hdr_b h = Some lp -> packed (b_len h) (bytes_at (off_b (b_len h)) (b_len h) (frame w c)) /\ sizeof_c_hdr + b_len h <= PAGE_SIZE;
  ho_both lp lp' : hdr_a h = Some lp -> hdr_b h = Some lp' -> lp <> lp' /\ sizeof_c_hdr + a_len h + b_len h <= PAGE_SIZE
}.

(** [X] is a page that is about to be given memory, with the page that it was stored in, if
    that one is to be a buddy again. *)
Record owned (X : option (Z * option Z)) (w : sysmem) : Prop := Owned {
  ow_owner p q lp : p_pages w !! p = Some q -> owner q = Some lp -> p ∈ active_page_list w;
  ow_active p : p ∈ active_page_list w -> exists lp, held_by w p lp;
  ow_lpage lp l : l_pages w !! lp = Some l -> fst <$> X <> Some lp ->
    p_addr l = 0
    \/ (exists p, p ∈ active_page_list w /\ held_by w p lp)
    \/ (has (p_addr l) LF_SWAP = true /\ exists h, c_hdrs w !! page_of (p_addr l) = Some h /\ stores h lp);
  ow_x lp c : X = Some (lp, c) -> (forall x, c = Some x -> exists h, c_hdrs w !! x = Some h /\ single h)
    /\ (forall c' h, c_hdrs w !! c' = Some h -> ~ stores h lp) /\ (forall p, ~ held_by w p lp);
  ow_hdr c h : c_hdrs w !! c = Some h -> hdr_ok w c h;
  ow_buddy c : c ∈ buddy_list w <-> snd <$> X <> Some (Some c) /\ exists h, c_hdrs w !! c = Some h /\ single h;
  ow_buddies : NoDup (buddy_list w);
  ow_frames a : length (frame w a) = Z.to_nat PAGE_SIZE
}.

(** ** Tasks, objects and mappings *)

Record tasked (w : sysmem) : Prop := Tasked {
  tk_pid pid t : systask_tree w !! pid = Some t -> task_pid t = pid /\ SNEKS_MIN_SYSID <= pid < 2 ^ 16;
  tk_mem pid t a lp : systask_tree w !! pid = Some t -> mem t !! a = Some lp ->
    has a PAGE_MASK = false /\ exists l, l_pages w !! lp = Some l /\ l_addr l = a;
  tk_one pid pid' t t' a a' lp : systask_tree w !! pid = Some t -> systask_tree w !! pid' = Some t' ->
    mem t !! a = Some lp -> mem t' !! a' = Some lp -> pid = pid';
  tk_home lp l : l_pages w !! lp = Some l -> exists pid t, systask_tree w !! pid = Some t /\ mem t !! l_addr l = Some lp
}.

Definition live (w : sysmem) (ty : alloc_type) (x : Z) : Prop :=
  match ty with
  | ASystask => exists pid t, systask_tree w !! pid = Some t /\ task_at t = x
  | APPage => is_Some (p_pages w !! x)
  | ALPage => is_Some (l_pages w !! x)
  end.
(** Where objects of a kind are: in the part of an allocation page that was given out, or
    among the first ones *)
Definition in_pages (w : sysmem) (ty : alloc_type) (x : Z) : Prop := exists p nx,
  p ∈ alloc_pages (heads w ty) /\ alloc_next w !! paddr w p = Some nx
  /\ paddr w p <= x < nx /\ x < paddr w p + PAGE_SIZE.
Definition in_pool (w : sysmem) (ty : alloc_type) (x : Z) : Prop :=
  ty = APPage /\ malloc_pool <= x < malloc_pool + 1024.

Record head_ok (w : sysmem) (ty : alloc_type) : Prop := HeadOk {
  hd_trash : NoDup (trash (heads w ty));
  hd_dead x : x ∈ trash (heads w ty) -> ~ live w ty x;
  hd_at x : live w ty x \/ x ∈ trash (heads w ty) -> in_pages w ty x \/ in_pool w ty x;
  hd_next p : p ∈ alloc_pages (heads w ty) ->
    exists nx, alloc_next w !! paddr w p = Some nx /\ paddr w p + sizeof_ptr <= nx
}.
Record allocated (w : sysmem) : Prop := Allocated {
  ac_head ty : head_ok w ty;
  ac_task pid pid' t t' : systask_tree w !! pid = Some t -> systask_tree w !! pid' = Some t' ->
    task_at t = task_at t' -> pid = pid'
}.

(** What is mapped is memory of the task it is mapped to, at its address; [U] are pages
    that are yet to be unmapped. *)
Definition maps_to (w : sysmem) (pa pid a : Z) : Prop := exists p q lp t,
  p_pages w !! p = Some q /\ P_ADDRESS q = pa /\ owner q = Some lp
  /\ systask_tree w !! pid = Some t /\ mem t !! a = Some lp.
Definition mapped (U : list Z) (w : sysmem) : Prop :=
  forall pa pid a, (pa, (pid, a)) ∈ mappings w -> pa ∉ U -> maps_to w pa pid a.

Record books (H : list Z) (X : option (Z * option Z)) (U : list Z) (w : sysmem) : Prop := Books {
  bk_placed : placed H w;
  bk_owned : owned X w;
  bk_tasked : tasked w;
  bk_allocated : allocated w;
  bk_mapped : mapped U w
}.
Definition sysmem_ok (w : sysmem) : Prop := books [] None [] w.

(** ** Keeping the places *)

Lemma stored_insert m c h : m !! c = None -> stored_in (<[c := h]> m) ≡ₚ phys h :: stored_in m.
Proof. intros Hc. unfold stored_in. by rewrite map_to_list_insert. Qed.
Lemma stored_delete m c h : m !! c = Some h -> stored_in m ≡ₚ phys h :: stored_in (delete c m).
Proof. intros Hc. rewrite <- stored_insert by apply lookup_delete_eq. by rewrite insert_delete_id. Qed.
Lemma stored_alter f m c : (forall h, phys (f h) = phys h) -> stored_in (alter f c m) ≡ₚ stored_in m.
Proof.
  intros Hf. destruct (m !! c) as [h|] eqn:E; [|by rewrite alter_id; [|rewrite E]].
  rewrite (stored_delete m c h E), (stored_delete (alter f c m) c (f h)) by (by rewrite lookup_alter_eq, E).
  rewrite Hf. f_equiv. assert (delete c (alter f c m) = delete c m) as ->; [|done].
  apply map_eq. intros i. destruct (decide (i = c)) as [->|]; [by rewrite !lookup_delete_eq|].
  by rewrite !lookup_delete_ne, lookup_alter_ne by done.
Qed.
Lemma elem_of_stored m p : p ∈ stored_in m <-> exists c h, m !! c = Some h /\ phys h = p.
Proof.
  unfold stored_in. rewrite list_elem_of_fmap. split.
  - intros ([c h] & -> & Hin%elem_of_map_to_list). by exists c, h.
  - intros (c & h & Hm & <-). exists (c, h). split; [done|]. by apply elem_of_map_to_list.
Qed.

Lemma placed_perm H H' w w' : placed H w -> (forall p, p ∈ places w ++ H -> paddr w' p = paddr w p) ->
  places w ++ H ≡ₚ places w' ++ H' -> reserved_page_list w' = reserved_page_list w ->
  num_free_pages w' = u32 (Z.of_nat (length (free_page_list w'))) ->
  (forall p, hand w' = Some p -> is_Some (p_pages w' !! p)) -> placed H' w'.
Proof.
  intros [P1 P2 P3 P4 P5] Ha Hp Hr Hc Hh. split; [| | |done|done].
  - rewrite <- Hp. assert (paddr w' <$> (places w ++ H) = paddr w <$> (places w ++ H)) as ->; [|done].
    apply list_fmap_ext. intros i p Hi. apply Ha. by eapply list_elem_of_lookup_2.
  - intros p Hin. rewrite <- Hp in Hin. rewrite Ha by done. by apply P2.
  - intros p Hin. rewrite <- Hp in Hin. rewrite Ha, Hr by done. by apply P3.
Qed.

(** ** States with the same books *)

Definition p_core (q : p_page) : Z * option Z := (P_ADDRESS q, owner q).
Definition l_core (l : l_page) : Z * Z := (l_addr l, p_addr l).
Definition t_core (t : systask) : gmap Z Z * Z * Z := (mem t, task_at t, task_pid t).

(** Ages, flags, shapes, the hand and the calls made may differ, and less may be mapped. *)
Record alike (w w' : sysmem) : Prop := Alike {
  al_p p : p_core <$> p_pages w' !! p = p_core <$> p_pages w !! p;
  al_l lp : l_core <$> l_pages w' !! lp = l_core <$> l_pages w !! lp;
  al_t pid : t_core <$> systask_tree w' !! pid = t_core <$> systask_tree w !! pid;
  al_hdrs : c_hdrs w' = c_hdrs w;
  al_frames : frames w' = frames w;
  al_free : free_page_list w' = free_page_list w;
  al_active : active_page_list w' = active_page_list w;
  al_reserved : reserved_page_list w' = reserved_page_list w;
  al_count : num_free_pages w' = num_free_pages w;
  al_buddy : buddy_list w' = buddy_list w;
  al_heads : heads w' = heads w;
  al_next : alloc_next w' = alloc_next w;
  al_hand p : hand w' = Some p -> hand w = Some p \/ is_Some (p_pages w !! p);
  al_maps m : m ∈ mappings w' -> m ∈ mappings w
}.

Lemma core_fwd {A B} (f : A -> B) (o o' : option A) : f <$> o' = f <$> o ->
  forall a, o = Some a -> exists a', o' = Some a' /\ f a' = f a.
Proof. intros E a ->. by apply fmap_Some in E as (a' & -> & ?); exists a'. Qed.
Lemma core_bwd {A B} (f : A -> B) (o o' : option A) : f <$> o' = f <$> o ->
  forall a, o' = Some a -> exists a', o = Some a' /\ f a' = f a.
Proof. intros E a ->. symmetry in E. by apply fmap_Some in E as (a' & -> & ?); exists a'. Qed.
Lemma core_is_some {A B} (f : A -> B) (o o' : option A) : f <$> o' = f <$> o -> is_Some o' <-> is_Some o.
Proof. intros E. by rewrite <- (fmap_is_Some f o), <- E, fmap_is_Some. Qed.

Lemma alike_refl w : alike w w.
Proof. split; auto. Qed.
Lemma alike_trans w1 w2 w3 : alike w1 w2 -> alike w2 w3 -> alike w1 w3.
Proof.
  intros A B. split; intros;
    first [by rewrite (al_p _ _ B), (al_p _ _ A)|by rewrite (al_l _ _ B), (al_l _ _ A)|by rewrite (al_t _ _ B), (al_t _ _ A)|idtac].
  all: try (destruct A, B; congruence).
  - destruct (al_hand _ _ B p) as [Hh|Hh]; [done|by apply (al_hand _ _ A)|right].
    by apply (core_is_some p_core _ _ (al_p _ _ A p)).
  - by apply (al_maps _ _ A), (al_maps _ _ B).
Qed.
#[export] Instance alike_preorder : PreOrder alike.
Proof. split; [intros w; apply alike_refl|intros w1 w2 w3; apply alike_trans]. Qed.

Lemma alike_paddr w w' p : alike w w' -> paddr w' p = paddr w p.
Proof.
  intros A. unfold paddr. pose proof (al_p _ _ A p) as E.
  destruct (p_pages w !! p) as [q|]; destruct (p_pages w' !! p) as [q'|]; cbn in E; try done. by injection E.
Qed.
Lemma alike_places w w' : alike w w' -> places w' = places w.
Proof. intros []. unfold places, heads_pages. congruence. Qed.
Lemma alike_frame w w' a : alike w w' -> frame w' a = frame w a.
Proof. intros []. unfold frame. congruence. Qed.
Lemma alike_placed H w w' : alike w w' -> placed H w -> placed H w'.
Proof.
  intros A P. apply (placed_perm H H w); [done|by intros; apply alike_paddr|by rewrite (alike_places w w')|by destruct A|..].
  - rewrite (al_free _ _ A), (al_count _ _ A). apply P.
  - intros p Hp. apply (core_is_some p_core _ _ (al_p _ _ A p)). destruct (al_hand _ _ A p Hp); [by apply (pl_hand _ _ P)|done].
Qed.
Lemma alike_held w w' p lp : alike w w' -> held_by w p lp -> held_by w' p lp.
Proof.
  intros A (q & l & Hq & Ho & Hl & Hp).
  destruct (core_fwd _ _ _ (al_p _ _ A p) q Hq) as (q' & Hq' & [= E1 E2]).
  destruct (core_fwd _ _ _ (al_l _ _ A lp) l Hl) as (l' & Hl' & [= E3 E4]).
  exists q', l'. by rewrite E1, E2, E4.
Qed.
Lemma alike_held_back w w' p lp : alike w w' -> held_by w' p lp -> held_by w p lp.
Proof.
  intros A (q & l & Hq & Ho & Hl & Hp).
  destruct (core_bwd _ _ _ (al_p _ _ A p) q Hq) as (q' & Hq' & [= E1 E2]).
  destruct (core_bwd _ _ _ (al_l _ _ A lp) l Hl) as (l' & Hl' & [= E3 E4]).
  exists q', l'. by rewrite E1, E2, E4.
Qed.
Lemma alike_swapped w w' c lp : alike w w' -> swapped_to w c lp -> swapped_to w' c lp.
Proof.
  intros A (l & Hl & Hp). destruct (core_fwd _ _ _ (al_l _ _ A lp) l Hl) as (l' & Hl' & [= E3 E4]). exists l'. by rewrite E4.
Qed.
Lemma alike_hdr w w' c h : alike w w' -> hdr_ok w c h -> hdr_ok w' c h.
Proof.
  intros A [H1 H2 H3 H4 H5 H6]. split; rewrite ?(alike_frame w w' _ A); [by rewrite (alike_paddr w w')|done| |done..].
  intros lp Hs. apply (alike_swapped w); auto.
Qed.
Lemma alike_owned X w w' : alike w w' -> owned X w -> owned X w'.
Proof.
  intros A [O1 O2 O3 O4 O5 O6 O7 O8]. split.
  - intros p q lp Hq Ho. destruct (core_bwd _ _ _ (al_p _ _ A p) q Hq) as (q' & Hq' & [= E1 E2]).
    rewrite (al_active _ _ A). apply (O1 p q' lp); congruence.
  - intros p. rewrite (al_active _ _ A). intros Hp. destruct (O2 p Hp) as (lp & Hlp). exists lp. by apply (alike_held w).
  - intros lp l Hl Hx. destruct (core_bwd _ _ _ (al_l _ _ A lp) l Hl) as (l' & Hl' & [= E3 E4]).
    rewrite <- E4, (al_hdrs _ _ A), (al_active _ _ A). destruct (O3 lp l' Hl' Hx) as [?|[(p & ? & ?)|?]]; auto.
    right. left. exists p. split; [done|]. by apply (alike_held w).
  - intros lp c Hx. rewrite (al_hdrs _ _ A). destruct (O4 lp c Hx) as (H1 & H2 & H3). split; [done|]. split; [done|].
    intros p Hp. by apply (H3 p), (alike_held_back w w').
  - intros c h. rewrite (al_hdrs _ _ A). intros Hc. apply (alike_hdr w); auto.
  - intros c. rewrite (al_buddy _ _ A), (al_hdrs _ _ A). apply O6.
  - by rewrite (al_buddy _ _ A).
  - intros a. by rewrite (alike_frame w w').
Qed.
Lemma alike_content w w' lp : alike w w' -> content w' lp = content w lp.
Proof.
  intros A. unfold content. pose proof (al_l _ _ A lp) as E.
  destruct (l_pages w !! lp) as [l|]; destruct (l_pages w' !! lp) as [l'|]; try done. injection E as E1 E2. cbn.
  rewrite E2, (al_hdrs _ _ A), !(alike_frame w w') by done. done.
Qed.
(** Tasks and allocation do not depend on where logical pages are. *)
Record kin (w w' : sysmem) : Prop := Kin {
  kn_t pid : t_core <$> systask_tree w' !! pid = t_core <$> systask_tree w !! pid;
  kn_l lp : l_addr <$> l_pages w' !! lp = l_addr <$> l_pages w !! lp;
  kn_p p : P_ADDRESS <$> p_pages w' !! p = P_ADDRESS <$> p_pages w !! p;
  kn_heads : heads w' = heads w;
  kn_next : alloc_next w' = alloc_next w
}.
Lemma kin_paddr w w' p : kin w w' -> paddr w' p = paddr w p.
Proof.
  intros A. unfold paddr. pose proof (kn_p _ _ A p) as E.
  destruct (p_pages w !! p) as [q|]; destruct (p_pages w' !! p) as [q'|]; cbn in E; try done. by injection E.
Qed.
Lemma kin_tasked w w' : kin w w' -> tasked w -> tasked w'.
Proof.
  intros A [T1 T2 T3 T4]. split.
  - intros pid t Ht. destruct (core_bwd _ _ _ (kn_t _ _ A pid) t Ht) as (t' & Ht' & [= E1 E2 E3]).
    rewrite <- E3. by apply (T1 pid t').
  - intros pid t a lp Ht Hm. destruct (core_bwd _ _ _ (kn_t _ _ A pid) t Ht) as (t' & Ht' & [= E1 E2 E3]).
    rewrite <- E1 in Hm. destruct (T2 pid t' a lp Ht' Hm) as (? & l & Hl & ?). split; [done|].
    destruct (core_fwd _ _ _ (kn_l _ _ A lp) l Hl) as (l' & Hl' & E4). exists l'. by rewrite E4.
  - intros pid pid' t t' a a' lp Ht Ht' Hm Hm'. destruct (core_bwd _ _ _ (kn_t _ _ A pid) t Ht) as (s & Hs & [= E1 E2 E3]).
    destruct (core_bwd _ _ _ (kn_t _ _ A pid') t' Ht') as (s' & Hs' & [= E4 E5 E6]).
    rewrite <- E1 in Hm. rewrite <- E4 in Hm'. by apply (T3 pid pid' s s' a a' lp).
  - intros lp l Hl. destruct (core_bwd _ _ _ (kn_l _ _ A lp) l Hl) as (l' & Hl' & E4).
    destruct (T4 lp l' Hl') as (pid & t & Ht & Hm). destruct (core_fwd _ _ _ (kn_t _ _ A pid) t Ht) as (t' & Ht' & [= E1 E2 E3]).
    exists pid, t'. by rewrite E1, <- E4.
Qed.
Lemma kin_live w w' ty x : kin w w' -> live w' ty x <-> live w ty x.
Proof.
  intros A. destruct ty; cbn.
  - split; intros (pid & t & Ht & <-).
    + destruct (core_bwd _ _ _ (kn_t _ _ A pid) t Ht) as (t' & Ht' & [= E1 E2 E3]). eauto.
    + destruct (core_fwd _ _ _ (kn_t _ _ A pid) t Ht) as (t' & Ht' & [= E1 E2 E3]). eauto.
  - apply (core_is_some P_ADDRESS), A.
  - apply (core_is_some l_addr), A.
Qed.
Lemma kin_allocated w w' : kin w w' -> allocated w -> allocated w'.
Proof.
  intros A [C1 C2]. split.
  - intros ty. destruct (C1 ty) as [D1 D2 D3 D4]. split; rewrite ?(kn_heads _ _ A).
    + done.
    + intros x Hx. rewrite (kin_live w w') by done. by apply D2.
    + intros x. rewrite (kin_live w w') by done. intros Hx. destruct (D3 x Hx) as [(p & nx & Hp & Hn & ?)|]; [left|by right].
      exists p, nx. rewrite (kn_heads _ _ A), (kn_next _ _ A), (kin_paddr w w') by done. done.
    + intros p Hp. rewrite (kn_next _ _ A), (kin_paddr w w') by done. by apply D4.
  - intros pid pid' t t' Ht Ht' E. destruct (core_bwd _ _ _ (kn_t _ _ A pid) t Ht) as (s & Hs & [= E1 E2 E3]).
    destruct (core_bwd _ _ _ (kn_t _ _ A pid') t' Ht') as (s' & Hs' & [= E4 E5 E6]). apply (C2 pid pid' s s'); congruence.
Qed.
Lemma fmap_core {A B C} (f : A -> B) (g : B -> C) (o o' : option A) : f <$> o' = f <$> o -> (g ∘ f) <$> o' = (g ∘ f) <$> o.
Proof. intros E. by rewrite !option_fmap_compose, E. Qed.
Lemma alike_kin w w' : alike w w' -> kin w w'.
Proof.
  intros A. split; [apply A|intros lp; apply (fmap_core l_core fst), A|intros p; apply (fmap_core p_core fst), A|apply A..].
Qed.
Lemma alike_maps_to w w' pa pid a : alike w w' -> maps_to w pa pid a -> maps_to w' pa pid a.
Proof.
  intros A (p & q & lp & t & Hq & Hpa & Ho & Ht & Hm).
  destruct (core_fwd _ _ _ (al_p _ _ A p) q Hq) as (q' & Hq' & [= E1 E2]).
  destruct (core_fwd _ _ _ (al_t _ _ A pid) t Ht) as (t' & Ht' & [= E3 E4 E5]).
  exists p, q', lp, t'. by rewrite E1, E2, E3.
Qed.
Lemma alike_mapped U w w' : alike w w' -> mapped U w -> mapped U w'.
Proof. intros A Hm pa pid a Hin Hu. apply (alike_maps_to w); [done|]. apply Hm; [by apply (al_maps _ _ A)|done]. Qed.
Lemma alike_books H X U w w' : alike w w' -> books H X U w -> books H X U w'.
Proof.
  intros A [B1 B2 B3 B4 B5]. pose proof (alike_kin _ _ A) as K. split; [by apply (alike_placed H w)|by apply (alike_owned X w)
    |by apply (kin_tasked w)|by apply (kin_allocated w)|by apply (alike_mapped U w)].
Qed.
End books.

(** Lists of the same elements *)
Ltac perm := apply (Permutation_count_occ Z.eq_dec); intros ?;
  repeat (progress (cbn [count_occ app]; rewrite ?count_occ_app)); repeat (destruct (Z.eq_dec _ _)); lia.
