(* ===== verification/SysmemReplProps.v ===== *)
(** Page replacement: compressed pages keep the contents of what they store, the books stay
    in agreement, and the search for pages to replace comes to an end. *)
From S2P Require Import Prelude L4 Pages Sysmem SysmemOps SysmemProps.

(** ** Regions of a page *)

Lemma length_store off bytes page : 0 <= off -> off + Z.of_nat (length bytes) <= Z.of_nat (length page) ->
  length (store_at off bytes page) = length page.
Proof. intros. unfold store_at. rewrite !length_app, length_take, length_drop. lia. Qed.
Lemma bytes_at_store off bytes page : 0 <= off -> off + Z.of_nat (length bytes) <= Z.of_nat (length page) ->
  bytes_at off (Z.of_nat (length bytes)) (store_at off bytes page) = bytes.
Proof.
  intros. unfold bytes_at, store_at. rewrite Nat2Z.id, drop_app_length' by (rewrite length_take; lia).
  by rewrite take_app_length' by done.
Qed.
Lemma bytes_at_before off bytes page o n : 0 <= o -> 0 <= n -> o + n <= off ->
  off + Z.of_nat (length bytes) <= Z.of_nat (length page) ->
  bytes_at o n (store_at off bytes page) = bytes_at o n page.
Proof.
  intros. unfold bytes_at, store_at. rewrite !take_drop_commute, take_app_le by (rewrite length_take; lia).
  rewrite take_take. do 2 f_equal. lia.
Qed.
Lemma bytes_at_after off bytes page o n : 0 <= off -> off + Z.of_nat (length bytes) <= o ->
  off + Z.of_nat (length bytes) <= Z.of_nat (length page) ->
  bytes_at o n (store_at off bytes page) = bytes_at o n page.
Proof.
  intros. unfold bytes_at, store_at. f_equal.
  rewrite drop_app_ge by (rewrite length_take; lia). rewrite length_take, drop_app_ge by lia.
  rewrite drop_drop. f_equal. lia.
Qed.

Section repl.
Context `{LA : !L4Abi, SE : !SysmemEnv, LZ : !LZ4}.

(** ** Addresses and contents *)

Lemma P_ADDRESS_page q : page_of (P_ADDRESS q) = P_ADDRESS q /\ has (P_ADDRESS q) LF_SWAP = false.
Proof.
  split; [apply page_of_page|]. change LF_SWAP with (2 ^ 0). rewrite has_bit by lia. unfold P_ADDRESS. by rewrite page_of_bit.
Qed.
Lemma swap_addr c : page_of c = c -> page_of (Z.lor c LF_SWAP) = c /\ has (Z.lor c LF_SWAP) LF_SWAP = true.
Proof. intros Hc. split; [by rewrite page_of_lor|]. rewrite has_lor. by rewrite orb_true_r. Qed.
Lemma paddr_page w p : page_of (paddr w p) = paddr w p.
Proof. unfold paddr. destruct (p_pages w !! p); [apply P_ADDRESS_page|done]. Qed.
Lemma paddr_at w p q : p_pages w !! p = Some q -> paddr w p = P_ADDRESS q.
Proof. unfold paddr. by intros ->. Qed.
Lemma hdr_page w c h : hdr_ok w c h -> page_of c = c.
Proof. intros Hh. by rewrite <- (ho_phys _ _ _ Hh), paddr_page. Qed.

Lemma content_resident w p lp : held_by w p lp -> 0 < paddr w p -> content w lp = Some (frame w (paddr w p)).
Proof.
  intros (q & l & Hq & Ho & Hl & Hp) Hpos. unfold content. rewrite Hl. cbn. rewrite Hp, (paddr_at _ _ _ Hq) in *.
  destruct (P_ADDRESS_page q) as [_ ->]. by destruct (Z.eqb_spec (P_ADDRESS q) 0); [lia|].
Qed.
Lemma content_swapped w c lp h : swapped_to w c lp -> page_of c = c -> c_hdrs w !! c = Some h ->
  content w lp = LZ4_decompress_safe (slot h lp (frame w c)).
Proof.
  intros (l & Hl & Hp) Hc Hh. unfold content. rewrite Hl. cbn. rewrite Hp. destruct (swap_addr c Hc) as [-> ->].
  by rewrite Hh.
Qed.
Definition slot_at (w : sysmem) (c lp : Z) : option (list Z) := (fun h => slot h lp (frame w c)) <$> c_hdrs w !! c.
(** A logical page keeps its contents when the frame, or the slot, it is in does. *)
Lemma content_ext w w' lp : p_addr <$> l_pages w' !! lp = p_addr <$> l_pages w !! lp ->
  (forall l, l_pages w !! lp = Some l -> has (p_addr l) LF_SWAP = false -> p_addr l <> 0 ->
     frame w' (p_addr l) = frame w (p_addr l)) ->
  (forall l, l_pages w !! lp = Some l -> has (p_addr l) LF_SWAP = true ->
     slot_at w' (page_of (p_addr l)) lp = slot_at w (page_of (p_addr l)) lp) ->
  content w' lp = content w lp.
Proof.
  intros El Hf Hs. unfold content. destruct (l_pages w !! lp) as [l|]; destruct (l_pages w' !! lp) as [l'|]; try done.
  injection El as El. cbn. rewrite El. destruct (has (p_addr l) LF_SWAP) eqn:Eh.
  - specialize (Hs l eq_refl Eh). unfold slot_at in Hs.
    destruct (c_hdrs w !! page_of (p_addr l)); destruct (c_hdrs w' !! page_of (p_addr l)); try done. cbn in Hs |- *. congruence.
  - destruct (Z.eqb_spec (p_addr l) 0); [done|]. by rewrite Hf.
Qed.

(** ** Places are apart *)

Lemma placed_apart H w l1 l2 p p' : placed H w -> places w ++ H ≡ₚ l1 ++ l2 -> p ∈ l1 -> p' ∈ l2 -> paddr w p <> paddr w p'.
Proof.
  intros P Hl H1 H2 E. pose proof (pl_nodup _ _ P) as Hn. rewrite Hl, fmap_app in Hn. apply NoDup_app in Hn as (_ & Hn & _).
  apply (Hn (paddr w p)); [by apply list_elem_of_fmap_2|]. rewrite E. by apply list_elem_of_fmap_2.
Qed.
Lemma placed_inj H w p p' : placed H w -> p ∈ places w ++ H -> p' ∈ places w ++ H -> paddr w p = paddr w p' -> p = p'.
Proof.
  intros P (i & Hi)%list_elem_of_lookup (j & Hj)%list_elem_of_lookup E.
  assert (i = j) as ->; [|congruence]. apply (NoDup_lookup _ i j (paddr w p) (pl_nodup _ _ P)); rewrite list_lookup_fmap.
  - by rewrite Hi.
  - by rewrite Hj, E.
Qed.
Lemma placed_lists_nodup H w : placed H w -> NoDup (places w ++ H).
Proof. intros P. by eapply NoDup_fmap_1, pl_nodup. Qed.
Lemma active_place H w p : p ∈ active_page_list w -> p ∈ places w ++ H.
Proof. unfold places. rewrite !elem_of_app. tauto. Qed.
Lemma stored_place H w c h : c_hdrs w !! c = Some h -> phys h ∈ places w ++ H.
Proof. intros Hc. unfold places. rewrite !elem_of_app. assert (phys h ∈ stored_in (c_hdrs w)) by (apply elem_of_stored; eauto). tauto. Qed.
Lemma active_not_stored H w p c h : placed H w -> p ∈ active_page_list w -> c_hdrs w !! c = Some h -> paddr w (phys h) <> paddr w p.
Proof.
  intros P Hp Hc. apply (placed_apart H w (stored_in (c_hdrs w)) (free_page_list w ++ active_page_list w ++ reserved_page_list w ++ heads_pages w ++ H)); [done| | |].
  - unfold places. perm.
  - apply elem_of_stored. eauto.
  - set_solver.
Qed.

(** A page belongs to one logical page, which is not in compressed memory. *)
Lemma held_inj H X w p p' lp : placed H w -> owned X w -> p ∈ active_page_list w -> p' ∈ active_page_list w ->
  held_by w p lp -> held_by w p' lp -> p = p'.
Proof.
  intros P O Hp Hp' (q & l & Hq & _ & Hl & E) (q' & l' & Hq' & _ & Hl' & E').
  apply (placed_inj H w); [done|by apply active_place..|]. rewrite (paddr_at _ _ _ Hq), (paddr_at _ _ _ Hq'). congruence.
Qed.
Lemma held_not_swapped w p lp c : held_by w p lp -> ~ swapped_to w c lp.
Proof.
  intros (q & l & Hq & _ & Hl & E) (l' & Hl' & E'). destruct (P_ADDRESS_page q) as [_ Hs]. rewrite <- E in Hs.
  replace l' with l in E' by congruence. rewrite E', has_lor in Hs. by rewrite orb_true_r in Hs.
Qed.
Lemma held_not_stored X w p lp c h : owned X w -> held_by w p lp -> c_hdrs w !! c = Some h -> ~ stores h lp.
Proof. intros O Hh Hc Hs. by apply (held_not_swapped w p lp c), (ho_lp w c h), Hs; [|apply (ow_hdr X)]. Qed.

(** ** Packing a page *)

(** The page [p] of [lp] is given up for a slot of the page [c], with the header [h'] and
    the bytes [f']. *)
Record packs (X : option (Z * option Z)) (p lp c : Z) (h' : c_hdr) (f' : list Z) (w w' : sysmem) : Prop := Packs {
  pk_active : p ∈ active_page_list w;
  pk_held : held_by w p lp;
  pk_p : p_pages w' = alter (set_owner None) p (p_pages w);
  pk_l : l_pages w' = alter (set_p_addr (Z.lor c LF_SWAP)) lp (l_pages w);
  pk_c : c_hdrs w' = <[c := h']> (c_hdrs w);
  pk_f : frames w' = <[c := f']> (frames w);
  pk_act : active_page_list w' = filter (fun x => x <> p) (active_page_list w);
  pk_buddy x : x ∈ buddy_list w' <-> if decide (x = c) then single h' else x ∈ buddy_list w;
  pk_buddies : NoDup (buddy_list w');
  pk_len : length f' = Z.to_nat PAGE_SIZE;
  pk_phys : paddr w (phys h') = c;
  pk_new : stores h' lp;
  pk_slot : slot h' lp f' = LZ4_compress (frame w (paddr w p));
  pk_only lp' : stores h' lp' -> lp' = lp \/ exists h, c_hdrs w !! c = Some h /\ stores h lp';
  pk_old h lp' : c_hdrs w !! c = Some h -> stores h lp' -> stores h' lp' /\ slot h' lp' f' = slot h lp' (frame w c);
  pk_a x : hdr_a h' = Some x -> packed (a_len h') (bytes_at off_a (a_len h') f') /\ sizeof_c_hdr + a_len h' <= PAGE_SIZE;
  pk_b x : hdr_b h' = Some x -> packed (b_len h') (bytes_at (off_b (b_len h')) (b_len h') f') /\ sizeof_c_hdr + b_len h' <= PAGE_SIZE;
  pk_both x y : hdr_a h' = Some x -> hdr_b h' = Some y -> x <> y /\ sizeof_c_hdr + a_len h' + b_len h' <= PAGE_SIZE;
  pk_apart p' : p' ∈ active_page_list w -> p' <> p -> paddr w p' <> c;
  pk_x : snd <$> X <> Some (Some c)
}.

Section packs.
Context (H : list Z) (X : option (Z * option Z)) (w w' : sysmem) (p lp c : Z) (h' : c_hdr) (f' : list Z).
Context (HP : placed H w) (HO : owned X w) (PK : packs X p lp c h' f' w w').

Lemma packs_paddr x : paddr w' x = paddr w x.
Proof.
  unfold paddr. rewrite (pk_p _ _ _ _ _ _ _ _ PK). destruct (decide (x = p)) as [->|].
  - rewrite lookup_alter_eq. by destruct (p_pages w !! p).
  - by rewrite lookup_alter_ne.
Qed.
Lemma packs_l x : x <> lp -> l_pages w' !! x = l_pages w !! x.
Proof. intros Hx. by rewrite (pk_l _ _ _ _ _ _ _ _ PK), lookup_alter_ne. Qed.
Lemma packs_lp : swapped_to w' c lp.
Proof.
  destruct (pk_held _ _ _ _ _ _ _ _ PK) as (q & l & _ & _ & Hl & _).
  exists (set_p_addr (Z.lor c LF_SWAP) l). by rewrite (pk_l _ _ _ _ _ _ _ _ PK), lookup_alter_eq, Hl.
Qed.
Lemma packs_frame a : frame w' a = if decide (a = c) then f' else frame w a.
Proof.
  unfold frame. rewrite (pk_f _ _ _ _ _ _ _ _ PK). destruct (decide (a = c)) as [->|].
  - by rewrite lookup_insert_eq.
  - by rewrite lookup_insert_ne.
Qed.
Lemma packs_page : page_of c = c.
Proof. by rewrite <- (pk_phys _ _ _ _ _ _ _ _ PK), paddr_page. Qed.
Lemma packs_held p' x : p' ∈ active_page_list w -> p' <> p -> held_by w p' x -> x <> lp /\ held_by w' p' x.
Proof.
  intros Ha Hne Hx. assert (x <> lp) as Hxl.
  { intros ->. by apply Hne, (held_inj H X w p' p lp); try done; apply PK. }
  split; [done|]. destruct Hx as (q & l & Hq & Ho & Hl & E). exists q, l. rewrite packs_l by done.
  by rewrite (pk_p _ _ _ _ _ _ _ _ PK), lookup_alter_ne by done.
Qed.
Lemma packs_swapped c' x : swapped_to w c' x -> x <> lp /\ swapped_to w' c' x.
Proof.
  intros Hx. assert (x <> lp) as Hxl.
  { intros ->. by apply (held_not_swapped w p lp c'), Hx; apply PK. }
  split; [done|]. destruct Hx as (l & Hl & E). exists l. by rewrite packs_l.
Qed.

Lemma packs_hdr c' h : c_hdrs w' !! c' = Some h -> hdr_ok w' c' h.
Proof.
  rewrite (pk_c _ _ _ _ _ _ _ _ PK). destruct (decide (c' = c)) as [->|Hne].
  - rewrite lookup_insert_eq. intros [= <-]. split; rewrite ?packs_frame, ?decide_True by done; try apply PK.
    + by rewrite packs_paddr, (pk_phys _ _ _ _ _ _ _ _ PK).
    + exists lp. apply PK.
    + intros x Hx. apply (pk_only _ _ _ _ _ _ _ _ PK) in Hx as [->|(h & Hc & Hs)]; [apply packs_lp|].
      by apply packs_swapped, (ho_lp w c h), Hs; apply (ow_hdr X).
  - rewrite lookup_insert_ne by done. intros Hc. destruct (ow_hdr X w HO c' h Hc) as [H1 H2 H3 H4 H5 H6].
    split; rewrite ?packs_frame, ?decide_False by done; try done; [by rewrite packs_paddr|].
    intros x Hx. by apply packs_swapped, H3.
Qed.

Lemma packs_owned : owned X w'.
Proof.
  split.
  - intros p' q x Hq Ho. rewrite (pk_act _ _ _ _ _ _ _ _ PK), list_elem_of_filter.
    rewrite (pk_p _ _ _ _ _ _ _ _ PK) in Hq. destruct (decide (p' = p)) as [->|Hne].
    + rewrite lookup_alter_eq in Hq. apply fmap_Some in Hq as (? & _ & ->). done.
    + rewrite lookup_alter_ne in Hq by done. split; [done|]. by apply (ow_owner X w HO p' q x).
  - intros p'. rewrite (pk_act _ _ _ _ _ _ _ _ PK), list_elem_of_filter. intros [Hne Ha].
    destruct (ow_active X w HO p' Ha) as (x & Hx). exists x. by apply packs_held.
  - intros x l Hl Hx. rewrite (pk_c _ _ _ _ _ _ _ _ PK), (pk_act _ _ _ _ _ _ _ _ PK). destruct (decide (x = lp)) as [->|Hne].
    { right; right. destruct packs_lp as (l' & Hl' & E). rewrite Hl in Hl'. injection Hl' as <-. rewrite E.
      destruct (swap_addr c packs_page) as [-> ->]. split; [done|]. exists h'. rewrite lookup_insert_eq. split; [done|apply PK]. }
    rewrite packs_l in Hl by done. destruct (ow_lpage X w HO x l Hl Hx) as [?|[(p' & Ha & Hh)|(Hs & h & Hc & Hst)]]; [by left| |].
    + right; left. assert (p' <> p) as Hp.
      { intros ->. destruct Hh as (q & _ & Hq & Ho & _). destruct (pk_held _ _ _ _ _ _ _ _ PK) as (q' & _ & Hq' & Ho' & _). congruence. }
      exists p'. rewrite list_elem_of_filter. split; [done|]. by apply packs_held.
    + right; right. split; [done|]. destruct (decide (page_of (p_addr l) = c)) as [E|].
      * rewrite E, lookup_insert_eq in *. exists h'. split; [done|]. by apply (pk_old _ _ _ _ _ _ _ _ PK h).
      * rewrite lookup_insert_ne by done. by exists h.
  - intros x cx Hx. destruct (ow_x X w HO x cx Hx) as (H1 & H2 & H3). rewrite (pk_c _ _ _ _ _ _ _ _ PK).
    assert (x <> lp) as Hne by (intros ->; apply (H3 p), PK).
    split.
    { intros y Hy. rewrite lookup_insert_ne; [by apply H1|]. intros ->. apply (pk_x _ _ _ _ _ _ _ _ PK). by rewrite Hx, Hy. }
    split.
    + intros c' h. destruct (decide (c' = c)) as [->|]; [|rewrite lookup_insert_ne by done; apply H2].
      rewrite lookup_insert_eq. intros [= <-] Hs. apply (pk_only _ _ _ _ _ _ _ _ PK) in Hs as [?|(h & Hc & Hs)]; [done|]. by apply (H2 c h).
    + intros p' (q & l & Hq & Ho & Hl & E). rewrite packs_l in Hl by done. apply (H3 p'). rewrite (pk_p _ _ _ _ _ _ _ _ PK) in Hq.
      destruct (decide (p' = p)) as [->|]; [|rewrite lookup_alter_ne in Hq by done; by exists q, l].
      rewrite lookup_alter_eq in Hq. apply fmap_Some in Hq as (? & _ & ->). done.
  - apply packs_hdr.
  - intros x. rewrite (pk_buddy _ _ _ _ _ _ _ _ PK), (pk_c _ _ _ _ _ _ _ _ PK). destruct (decide (x = c)) as [->|].
    + rewrite lookup_insert_eq. split; [intros Hs; split; [apply PK|by exists h']|by intros (_ & h & [= <-] & ?)].
    + rewrite lookup_insert_ne by done. apply (ow_buddy X w HO).
  - apply PK.
  - intros a. rewrite packs_frame. destruct (decide _); [apply PK|apply (ow_frames X w HO)].
Qed.

Lemma packs_content x : fst <$> X <> Some x -> (forall p, p ∈ active_page_list w -> 0 < paddr w p) -> content w' x = content w x.
Proof.
  intros Hx Hpos. destruct (decide (x = lp)) as [->|Hne].
  { rewrite (content_swapped w' c lp h'), packs_frame, decide_True by
      (done || apply packs_lp || apply packs_page || by rewrite (pk_c _ _ _ _ _ _ _ _ PK), lookup_insert_eq).
    rewrite (pk_slot _ _ _ _ _ _ _ _ PK), LZ4_roundtrip by apply (ow_frames X w HO).
    symmetry. apply content_resident; [apply PK|]. apply Hpos, PK. }
  apply content_ext; [by rewrite packs_l| |]; intros l Hl Hs.
  - intros Hz. rewrite packs_frame, decide_False; [done|].
    destruct (ow_lpage X w HO x l Hl Hx) as [?|[(p' & Ha & Hh)|(Hs' & _)]]; [done| |by rewrite Hs in Hs'].
    assert (p' <> p) as Hp.
    { intros ->. destruct Hh as (q & _ & Hq & Ho & _). destruct (pk_held _ _ _ _ _ _ _ _ PK) as (q' & _ & Hq' & Ho' & _). congruence. }
    destruct Hh as (q & l' & Hq & Ho & Hl' & E). rewrite Hl in Hl'. injection Hl' as <-. rewrite E, <- (paddr_at _ _ _ Hq).
    by apply (pk_apart _ _ _ _ _ _ _ _ PK).
  - destruct (ow_lpage X w HO x l Hl Hx) as [E|[(p' & Ha & Hh)|(_ & h & Hc & Hst)]].
    + by rewrite E in Hs.
    + destruct Hh as (q & l' & Hq & Ho & Hl' & E). rewrite Hl in Hl'. injection Hl' as <-. rewrite E in Hs.
      by destruct (P_ADDRESS_page q) as [_ Hn]; rewrite Hn in Hs.
    + unfold slot_at. rewrite packs_frame, (pk_c _ _ _ _ _ _ _ _ PK). destruct (decide (page_of (p_addr l) = c)) as [E|].
      * rewrite E in Hc |- *. rewrite lookup_insert_eq, Hc. cbn. f_equal. by apply (pk_old _ _ _ _ _ _ _ _ PK h).
      * by rewrite lookup_insert_ne.
Qed.
End packs.
End repl.

(** ** What replacement leaves as it is *)
Section turned.
Context `{LA : !L4Abi, SE : !SysmemEnv, LZ : !LZ4}.

Definition l_shape (l : l_page) : Z * Z := (l_addr l, flags l).

(** Everything that tasks can tell: their memory with its contents and flags, and what
    sysmem knows of them.  What is being expanded keeps its place, and pages that nothing
    was ever stored in keep having none. *)
Record turned (X : option (Z * option Z)) (w w' : sysmem) : Prop := Turned {
  tn_tree : systask_tree w' = systask_tree w;
  tn_l lp : l_shape <$> l_pages w' !! lp = l_shape <$> l_pages w !! lp;
  tn_zero lp l : l_pages w !! lp = Some l -> p_addr l = 0 -> l_pages w' !! lp = Some l;
  tn_content lp : fst <$> X <> Some lp -> content w' lp = content w lp;
  tn_x lp c : X = Some (lp, c) -> l_pages w' !! lp = l_pages w !! lp /\ forall x, c = Some x -> c_hdrs w' !! x = c_hdrs w !! x;
  tn_p p : P_ADDRESS <$> p_pages w' !! p = P_ADDRESS <$> p_pages w !! p;
  tn_heads : heads w' = heads w;
  tn_next : alloc_next w' = alloc_next w;
  tn_reserved : reserved_page_list w' = reserved_page_list w;
  tn_enable : repl_enable w' = repl_enable w;
  tn_pos : malloc_pos w' = malloc_pos w;
  tn_info : sysinfo w' = sysinfo w;
  tn_sender : sm_sender w' = sm_sender w;
  tn_no_reply : sm_no_reply w' = sm_no_reply w;
  tn_maps m : m ∈ mappings w' -> m ∈ mappings w
}.

#[export] Instance turned_preorder X : PreOrder (turned X).
Proof.
  split; [intros w; split; auto|]. intros w1 w2 w3 A B. split; intros; try (destruct A, B; congruence).
  - by apply (tn_zero _ _ _ B), H0; apply (tn_zero _ _ _ A).
  - by rewrite (tn_content _ _ _ B), (tn_content _ _ _ A).
  - destruct (tn_x _ _ _ A lp c) as [A1 A2], (tn_x _ _ _ B lp c) as [B1 B2]; [done..|].
    split; [congruence|]. intros x Hx. by rewrite B2, A2.
  - by apply (tn_maps _ _ _ A), (tn_maps _ _ _ B).
Qed.
Lemma turned_paddr X w w' p : turned X w w' -> paddr w' p = paddr w p.
Proof.
  intros T. unfold paddr. pose proof (tn_p _ _ _ T p) as E.
  destruct (p_pages w !! p); destruct (p_pages w' !! p); cbn in E; congruence.
Qed.
Lemma turned_kin X w w' : turned X w w' -> kin w w'.
Proof.
  intros T. split; [intros pid; by rewrite (tn_tree _ _ _ T)| |apply T..]. intros lp. apply (fmap_core l_shape fst), T.
Qed.

(** The same, but for what is allocated within pages *)
Record remains (X : option (Z * option Z)) (w w' : sysmem) : Prop := Remains {
  rm_tree : systask_tree w' = systask_tree w;
  rm_l lp : l_shape <$> l_pages w' !! lp = l_shape <$> l_pages w !! lp;
  rm_zero lp l : fst <$> X <> Some lp -> l_pages w !! lp = Some l -> p_addr l = 0 -> l_pages w' !! lp = Some l;
  rm_content lp : fst <$> X <> Some lp -> content w' lp = content w lp;
  rm_p p : P_ADDRESS <$> p_pages w' !! p = P_ADDRESS <$> p_pages w !! p;
  rm_reserved : reserved_page_list w' = reserved_page_list w;
  rm_enable : repl_enable w' = repl_enable w;
  rm_info : sysinfo w' = sysinfo w;
  rm_sender : sm_sender w' = sm_sender w;
  rm_no_reply : sm_no_reply w' = sm_no_reply w;
  rm_maps m : m ∈ mappings w' -> m ∈ mappings w
}.
#[export] Instance remains_preorder X : PreOrder (remains X).
Proof.
  split; [intros w; split; eauto|]. intros w1 w2 w3 A B. split; intros; try (destruct A, B; congruence).
  - by apply (rm_zero _ _ _ B); [|apply (rm_zero _ _ _ A)|].
  - by rewrite (rm_content _ _ _ B), (rm_content _ _ _ A).
  - by apply (rm_maps _ _ _ A), (rm_maps _ _ _ B).
Qed.
Lemma turned_remains X w w' : turned X w w' -> remains X w w'.
Proof. intros T. split; try apply T. intros lp l _. apply T. Qed.
Lemma remains_fst X Y w w' : fst <$> X = fst <$> Y -> remains X w w' -> remains Y w w'.
Proof. intros E []. split; try done; by rewrite <- E. Qed.

(** The steps that change no more than [alike] says *)
Record quiet (w w' : sysmem) : Prop := Quiet {
  qt_alike : alike w w';
  qt_tree : systask_tree w' = systask_tree w;
  qt_l : l_pages w' = l_pages w;
  qt_rest : (repl_enable w', malloc_pos w', sysinfo w', sm_sender w', sm_no_reply w')
            = (repl_enable w, malloc_pos w, sysinfo w, sm_sender w, sm_no_reply w)
}.
#[export] Instance quiet_preorder : PreOrder quiet.
Proof.
  split; [intros w; by split|]. intros w1 w2 w3 [] []. split; [by etrans|congruence..].
Qed.
Lemma quiet_turned X w w' : quiet w w' -> turned X w w'.
Proof.
  intros [A E1 E2 [= E3 E4 E5 E6 E7]]. split; try done; try apply A; try (by rewrite E2).
  - intros lp _. by apply alike_content.
  - intros lp c _. by rewrite E2, (al_hdrs _ _ A).
  - intros p. apply (fmap_core p_core fst), A.
Qed.

Lemma quiet_call c w : quiet w (add_smcall c w).
Proof. split; [split; auto|done..]. Qed.
Lemma quiet_maps f w : (forall m, m ∈ f (mappings w) -> m ∈ mappings w) -> quiet w (set_mappings (f (mappings w)) w).
Proof. intros Hf. split; [split; auto|done..]. Qed.
Lemma quiet_p p f w : (forall q, p_core (f q) = p_core q) -> quiet w (set_p_pages (alter f p (p_pages w)) w).
Proof.
  intros Hf. split; [|done..]. split; try done; auto. intros x. cbn. destruct (decide (x = p)) as [->|].
  - rewrite lookup_alter_eq. destruct (p_pages w !! p); cbn; [by rewrite Hf|done].
  - by rewrite lookup_alter_ne.
Qed.
Lemma quiet_hand h w : (forall p, h = Some p -> is_Some (p_pages w !! p)) -> quiet w (set_hand h w).
Proof. intros Hh. split; [split; auto|done..]. Qed.

Lemma wp_unmap E (l : list Z) Q w : Q tt (set_mappings (filter (fun m : mapping => m.1 ∉ l) (mappings w)) w) -> wp E (unmap l) Q w.
Proof. done. Qed.
Lemma unmap_quiet (l : list Z) w : quiet w (set_mappings (filter (fun m : mapping => m.1 ∉ l) (mappings w)) w).
Proof. apply (quiet_maps (filter (fun m : mapping => m.1 ∉ l))). intros m [_ Hm]%list_elem_of_filter. done. Qed.
(** Unmapping is quiet, and leaves nothing of the pages that it is told to revoke. *)
Definition unmapped (l : list (Z * Z)) (w w' : sysmem) : Prop := quiet w w'
  /\ (p_pages w', hand w', sm_trace w') = (p_pages w, hand w, SmUnmapFpages l :: sm_trace w)
  /\ mappings w' = filter (fun m : mapping => m.1 ∉ fst <$> filter (fun m : Z * Z => m.2 <> 0) l) (mappings w).
Lemma unmap_fpages_ok E l w : wp E (L4_UnmapFpages l) (fun _ w' => unmapped l w w') w.
Proof.
  unfold L4_UnmapFpages, call. wp_steps. apply wp_unmap. split; [|done].
  etrans; [apply quiet_call|apply unmap_quiet].
Qed.

(** ** Replacing a page *)

(** The parts of a state that packing a page leaves alone *)
Record undisturbed (w w' : sysmem) : Prop := Undisturbed {
  un_tree : systask_tree w' = systask_tree w;
  un_heads : heads w' = heads w;
  un_next : alloc_next w' = alloc_next w;
  un_reserved : reserved_page_list w' = reserved_page_list w;
  un_maps : mappings w' = mappings w;
  un_hand : hand w' = hand w;
  un_rest : (repl_enable w', malloc_pos w', sysinfo w', sm_sender w', sm_no_reply w')
            = (repl_enable w, malloc_pos w, sysinfo w, sm_sender w, sm_no_reply w)
}.

Lemma packs_turned H X w w' p lp c h' f' : placed H w -> owned X w -> packs X p lp c h' f' w w' -> undisturbed w w' ->
  turned X w w'.
Proof.
  intros P O PK [U1 U2 U3 U4 U5 U6 [= U7 U8 U9 U10 U11]]. split; try done.
  - intros x. destruct (decide (x = lp)) as [->|Hne]; [|by rewrite (packs_l X w w' p lp c h' f' PK)].
    rewrite (pk_l _ _ _ _ _ _ _ _ PK), lookup_alter_eq. by destruct (l_pages w !! lp).
  - intros x l Hl Hz. rewrite (packs_l X w w' p lp c h' f' PK); [done|]. intros ->.
    destruct (pk_held _ _ _ _ _ _ _ _ PK) as (q & l' & Hq & _ & Hl' & E). replace l' with l in E by congruence.
    pose proof (pl_pos _ _ P p (active_place _ _ _ (pk_active _ _ _ _ _ _ _ _ PK))) as Hp. rewrite (paddr_at _ _ _ Hq) in Hp. lia.
  - intros x Hx. apply (packs_content X w w' p lp c h' f'); try done. intros p' Hp'. apply (pl_pos _ _ P). by apply active_place.
  - intros x cx Hx. rewrite (packs_l X w w' p lp c h' f' PK), (pk_c _ _ _ _ _ _ _ _ PK); [split; [done|]|].
    + intros y ->. rewrite lookup_insert_ne; [done|]. intros ->. apply (pk_x _ _ _ _ _ _ _ _ PK). by rewrite Hx.
    + intros ->. destruct (ow_x X w O lp cx Hx) as (_ & _ & H3). apply (H3 p), PK.
  - intros x. rewrite (pk_p _ _ _ _ _ _ _ _ PK). destruct (decide (x = p)) as [->|].
    + rewrite lookup_alter_eq. by destruct (p_pages w !! p).
    + by rewrite lookup_alter_ne.
  - by rewrite U5.
Qed.
Lemma packs_mapped U X w w' p lp c h' f' : packs X p lp c h' f' w w' -> undisturbed w w' ->
  (forall m, m ∈ mappings w -> m.1 <> paddr w p) -> mapped U w -> mapped U w'.
Proof.
  intros PK Un Hm M pa pid a. rewrite (un_maps _ _ Un). intros Hin Hu.
  destruct (M pa pid a Hin Hu) as (x & q & y & t & Hq & Hpa & Ho & Ht & Ha). exists x, q, y, t.
  rewrite (pk_p _ _ _ _ _ _ _ _ PK), (un_tree _ _ Un), lookup_alter_ne; [done|]. intros <-.
  apply (Hm _ Hin). by rewrite (paddr_at _ _ _ Hq).
Qed.
Lemma packs_books H X U w w' p lp c h' f' : books H X U w -> packs X p lp c h' f' w w' -> undisturbed w w' ->
  (forall m, m ∈ mappings w -> m.1 <> paddr w p) -> places w ++ H ≡ₚ places w' ++ H ->
  num_free_pages w' = u32 (Z.of_nat (length (free_page_list w'))) -> books H X U w' /\ turned X w w'.
Proof.
  intros [P O T A M] PK Un Hm Hp Hc. pose proof (packs_turned H X w w' p lp c h' f' P O PK Un) as Tn. split; [|done].
  pose proof (turned_kin _ _ _ Tn) as K. split.
  - apply (placed_perm H H w); try done; [intros; by apply (turned_paddr X)|by apply Tn|]. rewrite (un_hand _ _ Un). intros x Hx.
    apply (core_is_some P_ADDRESS _ _ (tn_p _ _ _ Tn x)). by apply (pl_hand _ _ P).
  - by apply (packs_owned H X w w' p lp c h' f').
  - by apply (kin_tasked w).
  - by apply (kin_allocated w).
  - by apply (packs_mapped U X w w' p lp c h' f').
Qed.

Lemma filter_perm p (l : list Z) : NoDup l -> p ∈ l -> l ≡ₚ p :: filter (fun x => x <> p) l.
Proof.
  intros Hn Hp. induction l as [|x l IH]; [by apply elem_of_nil in Hp|]. apply NoDup_cons in Hn as [Hx Hn].
  rewrite filter_cons. destruct (decide (x <> p)) as [Hne|Heq].
  - apply elem_of_cons in Hp as [->|Hp]; [done|]. rewrite (IH Hn Hp) at 1. apply Permutation_swap.
  - assert (x = p) as -> by (destruct (decide (x = p)); tauto). f_equiv. clear -Hx. induction l as [|y l IH]; [done|].
    apply not_elem_of_cons in Hx as [Hy Hl]. rewrite filter_cons_True by done. f_equiv. by apply IH.
Qed.
Lemma active_nodup H w : placed H w -> NoDup (active_page_list w).
Proof.
  intros P. pose proof (placed_lists_nodup _ _ P) as Hn. unfold places in Hn. rewrite !NoDup_app in Hn. tauto.
Qed.
Lemma wp_del_from E p l (Q : list Z -> sysmem -> Prop) w : p ∈ l -> Q (filter (fun x => x <> p) l) w -> wp E (del_from p l) Q w.
Proof. intros Hp HQ. unfold del_from. by rewrite bool_decide_true. Qed.
Lemma wp_at {A} E r (f : sysmem -> option A) a (Q : A -> sysmem -> Prop) w : f w = Some a -> Q a w ->
  wp E (w ← get; of_option r (f w)) Q w.
Proof. intros Hf HQ. unfold wp, mbind, M_bind, get, of_option. by rewrite Hf. Qed.
Lemma wp_p_at E p q (Q : p_page -> sysmem -> Prop) w : p_pages w !! p = Some q -> Q q w -> wp E (p_at p) Q w.
Proof. apply (wp_at E StFault (fun w => p_pages w !! p)). Qed.
Lemma wp_l_at E lp l (Q : l_page -> sysmem -> Prop) w : l_pages w !! lp = Some l -> Q l w -> wp E (l_at lp) Q w.
Proof. apply (wp_at E StFault (fun w => l_pages w !! lp)). Qed.
Lemma wp_hdr_at E c h (Q : c_hdr -> sysmem -> Prop) w : c_hdrs w !! c = Some h -> Q h w -> wp E (hdr_at c) Q w.
Proof. apply (wp_at E StAssert (fun w => c_hdrs w !! c)). Qed.
Lemma wp_task_of E pid t (Q : systask -> sysmem -> Prop) w : systask_tree w !! pid = Some t -> Q t w -> wp E (task_of pid) Q w.
Proof. apply (wp_at E StFault (fun w => systask_tree w !! pid)). Qed.

Lemma find_buddy_spec w c l waste best x : find_buddy w c waste best l = Some x ->
  best = Some x \/ x ∈ l /\ forall h, c_hdrs w !! x = Some h -> c <= hdr_left h.
Proof.
  revert waste best. induction l as [|y l IH]; intros waste best; cbn [find_buddy]; [by left|].
  intros H. set (left := match c_hdrs w !! y with Some h => hdr_left h | None => 0 end) in *.
  destruct (Z.ltb_spec left c); [destruct (IH _ _ H) as [?|[? ?]]; [by left|right; split; [by right|done]]|].
  destruct (left - c <? waste); destruct (IH _ _ H) as [Hb|[? ?]]; try (right; split; [by right|done]); [|by left].
  injection Hb as <-. right. split; [by left|]. unfold left in *. intros h E. rewrite E in *. lia.
Qed.

(** *** Stored alone *)
Section store.
Context (E : stop -> Prop) (H : list Z) (X : option (Z * option Z)) (U : list Z) (w : sysmem) (p lp : Z) (q : p_page) (l : l_page).
Context (HB : books H X U w) (Hp : p ∈ active_page_list w) (Hq : p_pages w !! p = Some q) (Ho : owner q = Some lp)
  (Hl : l_pages w !! lp = Some l) (Hpl : p_addr l = P_ADDRESS q)
  (Hm : forall m, m ∈ mappings w -> m.1 <> paddr w p).
Let out := LZ4_compress (frame w (P_ADDRESS q)).
Context (Hmax : Z.of_nat (length out) < MAX_COMPRESSED_SIZE).

Definition packed_away (w' : sysmem) : Prop := books H X U w' /\ turned X w w' /\ hand w' = hand w
  /\ active_page_list w' = filter (fun x => x <> p) (active_page_list w)
  /\ forall x, addr_flags <$> p_pages w' !! x = addr_flags <$> p_pages w !! x.

Lemma out_pos : 0 < Z.of_nat (length out).
Proof. pose proof (LZ4_compress_some (frame w (P_ADDRESS q))) as Hn. unfold out in *. destruct (LZ4_compress _); [done|]. cbn. lia. Qed.
Lemma out_packed : packed (Z.of_nat (length out)) out.
Proof. split; [apply out_pos|]. exists (frame w (P_ADDRESS q)). split; [|done]. apply (ow_frames X w), HB. Qed.
Lemma own_flags x : addr_flags <$> alter (set_owner None) p (p_pages w) !! x = addr_flags <$> p_pages w !! x.
Proof.
  destruct (decide (x = p)) as [->|]; [|by rewrite lookup_alter_ne]. rewrite lookup_alter_eq. by destruct (p_pages w !! p).
Qed.
Lemma held_here : held_by w p lp.
Proof. by exists q, l. Qed.
Lemma active_perm : active_page_list w ≡ₚ p :: filter (fun x => x <> p) (active_page_list w).
Proof. apply filter_perm; [apply (active_nodup H), HB|done]. Qed.

Lemma store_alone_ok : wp E (_ ← active_del p; store_alone p (P_ADDRESS q) lp out) (fun _ => packed_away) w.
Proof.
  pose proof HB as [P O T A M]. pose proof (paddr_at _ _ _ Hq) as Hpa.
  assert (c_hdrs w !! P_ADDRESS q = None) as Hnc.
  { destruct (c_hdrs w !! P_ADDRESS q) as [h|] eqn:Eh; [|done]. exfalso.
    apply (active_not_stored H w p (P_ADDRESS q) h P Hp Eh). by rewrite (ho_phys w _ h) by by apply (ow_hdr X). }
  assert (Z.of_nat (length (frame w (P_ADDRESS q))) = PAGE_SIZE) as Hf by by rewrite (ow_frames X w O).
  unfold active_del. wp_steps. apply wp_del_from; [done|]. wp_steps. unfold store_alone. wp_steps. unfold set_frame. wp_steps.
  unfold buddy_add, l_upd, p_upd. wp_steps. pose proof out_pos as Hpos. unfold MAX_COMPRESSED_SIZE, sizeof_c_hdr, PAGE_SIZE in *.
  match goal with |- packed_away ?w' => set (wf := w') end.
  assert (packs X p lp (P_ADDRESS q) (CHdr p (Z.of_nat (length out)) 0 (Some lp) None)
    (store_at off_a out (frame w (P_ADDRESS q))) w wf) as PK.
  { assert (bytes_at off_a (Z.of_nat (length out)) (store_at off_a out (frame w (P_ADDRESS q))) = out) as Hb
      by (apply bytes_at_store; unfold off_a, sizeof_c_hdr; lia).
    split; try done.
    - apply held_here.
    - cbn. apply alter_ext. intros y Hy. replace y with l by congruence. by rewrite Hpl.
    - intros x. cbn. destruct (decide (x = P_ADDRESS q)) as [->|Hne].
      + split; [intros _; by right|intros _; by left].
      + set_solver.
    - apply NoDup_cons. split; [|apply O]. intros Hin. apply (ow_buddy X w O) in Hin as (_ & h & Hc & _). congruence.
    - rewrite length_store; [apply (ow_frames X w O)|unfold off_a, sizeof_c_hdr; lia..].
    - by left.
    - unfold slot. cbn [hdr_a]. rewrite bool_decide_true by done. cbn [a_len]. rewrite Hb. unfold out. by rewrite Hpa.
    - intros x [[= <-]|Hx]; [by left|done].
    - intros h x Hc. congruence.
    - intros x _. cbn [a_len]. rewrite Hb. split; [apply out_packed|unfold sizeof_c_hdr, PAGE_SIZE; lia].
    - intros p' Hp' Hne Heq. apply Hne, (placed_inj H w); [done|by apply active_place..|congruence].
    - intros Hx. destruct X as [[y cx]|] eqn:EX; [|done]. injection Hx as ->. destruct (ow_x _ w O y _ eq_refl) as (Hs & _ & _).
      destruct (Hs _ eq_refl) as (? & ? & _). congruence. }
  assert (undisturbed w wf) as Un by done. split.
  - apply (packs_books H X U w wf p lp _ _ _ HB PK Un Hm); [|apply P].
    unfold places, heads_pages. cbn. rewrite (stored_insert _ _ _ Hnc). cbn. rewrite active_perm at 1. perm.
  - split; [by apply (packs_turned H X w wf p lp _ _ _ P O PK Un)|]. split; [done|]. split; [done|]. exact own_flags.
Qed.

(** *** Stored with a buddy *)
Section buddy.
Context (best : Z) (h : c_hdr) (Hbest : best ∈ buddy_list w) (Hh : c_hdrs w !! best = Some h)
  (Hleft : Z.of_nat (length out) <= hdr_left h).
Let len := Z.of_nat (length out).

(** The header and the bytes of the page once it has both *)
Definition both_hdr (h' : c_hdr) (f' : list Z) : Prop :=
  (hdr_a h = None /\ exists y, hdr_b h = Some y /\ h' = CHdr (phys h) len (b_len h) (Some lp) (hdr_b h)
     /\ f' = store_at off_a out (frame w best))
  \/ (exists y, hdr_a h = Some y /\ hdr_b h = None /\ h' = CHdr (phys h) (a_len h) len (hdr_a h) (Some lp)
     /\ f' = store_at (off_b len) out (frame w best)).

Lemma both_packs h' f' w' : both_hdr h' f' ->
  p_pages w' = alter (set_owner None) p (p_pages w) ->
  l_pages w' = alter (set_p_addr (Z.lor best LF_SWAP)) lp (l_pages w) ->
  c_hdrs w' = <[best := h']> (c_hdrs w) -> frames w' = <[best := f']> (frames w) ->
  active_page_list w' = filter (fun x => x <> p) (active_page_list w) ->
  buddy_list w' = filter (fun x => x <> best) (buddy_list w) ->
  packs X p lp best h' f' w w'.
Proof.
  pose proof HB as [P O T A M]. intros Hbh E1 E2 E3 E4 E5 E6. pose proof (paddr_at _ _ _ Hq) as Hpa.
  destruct (ow_hdr X w O best h Hh) as [K1 K2 K3 K4 K5 K6].
  assert (Z.of_nat (length (frame w best)) = PAGE_SIZE) as Hf by by rewrite (ow_frames X w O).
  pose proof out_pos as Hpos. pose proof out_packed as Hpk. fold len in Hpos, Hpk. unfold hdr_left in Hleft. fold len in Hleft.
  assert (phys h' = phys h /\ stores h' lp /\ ~ single h' /\ (forall x, stores h' x -> x = lp \/ stores h x)) as (F1 & F2 & F3 & F4).
  { unfold stores, single. destruct Hbh as [(Ha & y & Hb & -> & _)|(y & Ha & Hb & -> & _)]; cbn; split_and!; try done; auto.
    - rewrite Hb. intros [|]; done.
    - intros x [[= <-]|?]; auto.
    - rewrite Ha. intros [|]; done.
    - intros x [?|[= <-]]; auto. }
  assert (length f' = Z.to_nat PAGE_SIZE
    /\ (hdr_a h' = Some lp \/ hdr_a h' <> Some lp /\ hdr_b h' = Some lp)
    /\ (forall x, hdr_a h' = Some x -> sizeof_c_hdr + a_len h' <= PAGE_SIZE /\
          bytes_at off_a (a_len h') f' = if decide (x = lp) then out else bytes_at off_a (a_len h) (frame w best))
    /\ (forall x, hdr_b h' = Some x -> sizeof_c_hdr + b_len h' <= PAGE_SIZE /\
          bytes_at (off_b (b_len h')) (b_len h') f' = if decide (x = lp) then out else bytes_at (off_b (b_len h)) (b_len h) (frame w best))
    /\ sizeof_c_hdr + a_len h' + b_len h' <= PAGE_SIZE) as (G1 & G2 & G3 & G4 & G5).
  { destruct Hbh as [(Ha & y & Hb & -> & ->)|(y & Ha & Hb & -> & ->)]; cbn [hdr_a hdr_b a_len b_len];
      unfold off_a, off_b, sizeof_c_hdr, PAGE_SIZE in *.
    - assert (y <> lp) as Hy. { intros ->. apply (held_not_stored X w p lp best h O held_here Hh). by right. }
      destruct (K5 y Hb) as [[? _] ?]. rewrite Ha in Hleft. rewrite length_store by (unfold len in *; lia).
      split_and!; [lia|by left| | |lia].
      + intros x [= <-]. rewrite decide_True by done. split; [lia|]. apply bytes_at_store; unfold len in *; lia.
      + intros x. rewrite Hb. intros [= <-]. rewrite decide_False by done. split; [lia|]. apply bytes_at_after; unfold len in *; lia.
    - assert (y <> lp) as Hy. { intros ->. apply (held_not_stored X w p lp best h O held_here Hh). by left. }
      destruct (K4 y Ha) as [[? _] ?]. rewrite Ha in Hleft. rewrite length_store by (unfold len in *; lia).
      split_and!; [lia|right; split; congruence| | |lia].
      + intros x. rewrite Ha. intros [= <-]. rewrite decide_False by done. split; [lia|]. apply bytes_at_before; unfold len in *; lia.
      + intros x [= <-]. rewrite decide_True by done. split; [lia|]. apply bytes_at_store; unfold len in *; lia. }
  assert (forall x, stores h x -> x <> lp /\ stores h' x /\ slot h' x f' = slot h x (frame w best)) as Hold.
  { intros x Hx. assert (x <> lp) as Hne. { intros ->. by apply (held_not_stored X w p lp best h O held_here Hh). }
    split; [done|]. unfold stores, slot in *. destruct Hbh as [(Ha & y & Hb & -> & _)|(y & Ha & Hb & -> & _)]; cbn [hdr_a hdr_b a_len b_len] in *.
    - rewrite Ha, Hb in *. destruct Hx as [?|[= ->]]; [done|]. split; [by right|].
      rewrite !bool_decide_false by congruence. destruct (G4 x eq_refl) as [_ ->]. by rewrite decide_False.
    - rewrite Ha, Hb in *. destruct Hx as [[= ->]|?]; [|done]. split; [by left|].
      rewrite !bool_decide_true by congruence. destruct (G3 x eq_refl) as [_ ->]. by rewrite decide_False. }
  assert (b_len h' = len \/ b_len h' = b_len h) as Hbl by (destruct Hbh as [(_ & y & _ & -> & _)|(y & _ & _ & -> & _)]; auto).
  assert (a_len h' = len \/ a_len h' = a_len h) as Hal by (destruct Hbh as [(_ & y & _ & -> & _)|(y & _ & _ & -> & _)]; auto).
  split; try done.
  - apply held_here.
  - intros x. rewrite E6, list_elem_of_filter. destruct (decide (x = best)) as [->|]; [tauto|]. tauto.
  - rewrite E6. apply NoDup_filter, O.
  - by rewrite F1.
  - unfold slot. rewrite Hpa. fold out. destruct G2 as [Ea|[Ea Eb]].
    + rewrite bool_decide_true by done. destruct (G3 lp Ea) as [_ ->]. by rewrite decide_True.
    + rewrite bool_decide_false by done. destruct (G4 lp Eb) as [_ ->]. by rewrite decide_True.
  - intros x Hx. destruct (F4 x Hx) as [?|?]; [by left|right; eauto].
  - intros h0 x Hc Hx. replace h0 with h in * by congruence. destruct (Hold x Hx) as (_ & ? & ?). done.
  - intros x Hx. destruct (G3 x Hx) as [G ->]. split; [|done]. destruct (decide (x = lp)) as [->|Hne].
    + destruct Hbh as [(Ha & y & Hb & -> & _)|(y & Ha & Hb & -> & _)]; [done|]. cbn in Hx.
      exfalso. apply (held_not_stored X w p lp best h O held_here Hh). by left.
    + destruct Hbh as [(Ha & y & Hb & -> & _)|(y & Ha & Hb & -> & _)]; cbn in Hx |- *; [congruence|by apply (K4 x)].
  - intros x Hx. destruct (G4 x Hx) as [G ->]. split; [|done]. destruct (decide (x = lp)) as [->|Hne].
    + destruct Hbh as [(Ha & y & Hb & -> & _)|(y & Ha & Hb & -> & _)]; [|done]. cbn in Hx.
      exfalso. apply (held_not_stored X w p lp best h O held_here Hh). by right.
    + destruct Hbh as [(Ha & y & Hb & -> & _)|(y & Ha & Hb & -> & _)]; cbn in Hx |- *; [by apply (K5 x)|congruence].
  - intros x y Hx Hy. split; [|done]. intros <-. destruct Hbh as [(Ha & z & Hb & -> & _)|(z & Ha & Hb & -> & _)]; cbn in Hx, Hy.
    + injection Hx as <-. apply (held_not_stored X w p lp best h O held_here Hh). by right.
    + injection Hy as <-. apply (held_not_stored X w p lp best h O held_here Hh). by left.
  - intros p' Hp' Hne Heq. apply (active_not_stored H w p' best h P Hp' Hh). by rewrite K1.
  - by apply (ow_buddy X w O) in Hbest as [? _].
Qed.

Lemma both_away h' f' w' : both_hdr h' f' -> packs X p lp best h' f' w w' -> undisturbed w w' ->
  p_pages w' = alter (set_owner None) p (p_pages w) ->
  free_page_list w' = p :: free_page_list w -> num_free_pages w' = u32 (num_free_pages w + 1) -> packed_away w'.
Proof.
  pose proof HB as [P O T A M]. intros Hbh PK Un E1 E2 E3. split; [|split; [by apply (packs_turned H X w w' p lp best h' f')|]].
  - apply (packs_books H X U w w' p lp best h' f' HB PK Un Hm).
    + unfold places, heads_pages. rewrite (un_heads _ _ Un), (un_reserved _ _ Un), E2, (pk_act _ _ _ _ _ _ _ _ PK).
      assert (stored_in (c_hdrs w') ≡ₚ stored_in (c_hdrs w)) as ->.
      { rewrite (pk_c _ _ _ _ _ _ _ _ PK), (stored_delete _ _ _ Hh), (stored_delete (<[best:=h']> _) best h') by apply lookup_insert_eq.
        rewrite delete_insert_eq. destruct Hbh as [(_ & y & _ & -> & _)|(y & _ & _ & -> & _)]; done. }
      rewrite active_perm at 1. perm.
    + rewrite E3, E2, (pl_count _ _ P). unfold u32. rewrite Zplus_mod_idemp_l. f_equal. cbn [length]. lia.
  - split; [apply Un|]. split; [apply PK|]. intros x. rewrite E1. apply own_flags.
Qed.
Lemma store_with_ok : wp E (_ ← active_del p; store_with best p lp out) (fun _ => packed_away) w.
Proof.
  pose proof HB as [P O T A M]. pose proof (hdr_page _ _ _ (ow_hdr X w O best h Hh)) as Hpb.
  unfold active_del. wp_steps. apply wp_del_from; [done|]. wp_steps. unfold store_with, buddy_del. wp_steps.
  apply wp_del_from; [done|]. wp_steps. eapply wp_hdr_at; [done|].
  wp_steps. unfold hdr_upd.
  apply (wp_conseq E _ (fun off w2 => exists h' f', both_hdr h' f' /\ f' = store_at off out (frame w best)
    /\ w2 = set_c_hdrs (<[best := h']> (c_hdrs w)) (set_buddies (filter (fun x => x <> best) (buddy_list w))
         (set_active (filter (fun x => x <> p) (active_page_list w)) w)))).
  - destruct (ow_hdr X w O best h Hh) as [K1 [y K2] K3 K4 K5 K6]. pose proof (proj1 (ow_buddy X w O best) Hbest) as (_ & h0 & Hc & Hs).
    replace h0 with h in * by congruence. destruct (hdr_a h) as [a|] eqn:Ea.
    + destruct Hs as [?|Hs]; [congruence|]. wp_steps. apply wp_assert.
      { destruct (K4 a eq_refl) as [[? _] ?]. unfold hdr_left in Hleft. rewrite Ea in Hleft. unfold off_b, sizeof_c_hdr, PAGE_SIZE in *. lia. }
      wp_steps. exists (CHdr (phys h) (a_len h) len (hdr_a h) (Some lp)), (store_at (off_b len) out (frame w best)).
      split; [right; by exists a|]. split; [done|]. f_equal. cbn. apply map_eq. intros i. destruct (decide (i = best)) as [->|].
      * by rewrite lookup_alter_eq, lookup_insert_eq, Hh.
      * by rewrite lookup_alter_ne, lookup_insert_ne.
    + assert (hdr_b h = Some y) as Eb by (destruct K2; congruence).
      wp_steps. exists (CHdr (phys h) len (b_len h) (Some lp) (hdr_b h)), (store_at off_a out (frame w best)).
      split; [left; split; [done|by exists y]|]. split; [done|]. f_equal. cbn. apply map_eq. intros i. destruct (decide (i = best)) as [->|].
      * by rewrite lookup_alter_eq, lookup_insert_eq, Hh.
      * by rewrite lookup_alter_ne, lookup_insert_ne.
  - intros off w2 (h' & f' & Hbh & -> & ->). unfold set_frame, l_upd, p_upd, free_add. wp_steps. rewrite Hpb.
    apply (both_away h' (store_at off out (frame w best))); try done. by apply both_packs.
Qed.
End buddy.
End store.
End turned.
