(* ===== verification/SysmemClockProps.v ===== *)
(** The clock of page replacement: which pages a turn of it looks at, that what it replaces
    keeps its contents, and that the loop of get_free_page() ends. *)
From S2P Require Import Prelude L4 Pages Sysmem SysmemOps SysmemProps SysmemReplProps.

(** Memory may run out, which is a panic. *)
Definition no_memory (r : stop) : Prop := r = StPanic.

(** ** Lists in a circle *)

Lemma list_next_split l1 p l2 : p ∉ l1 -> list_next (l1 ++ p :: l2) p = head l2.
Proof.
  induction l1 as [|x l1 IH]; cbn [list_next app]; [by rewrite Z.eqb_refl|].
  intros [Hx Hl]%not_elem_of_cons. destruct (Z.eqb_spec x p); [congruence|]. by apply IH.
Qed.
Lemma list_next_in l p n : list_next l p = Some n -> n ∈ l.
Proof.
  induction l as [|x l IH]; [done|]. cbn [list_next]. destruct (x =? p); [|intros H; right; by apply IH].
  destruct l; [done|]. intros [= ->]. set_solver.
Qed.
(** What comes after [p] on the way round, and whether the end is passed *)
Definition around (l : list Z) (p : Z) : option Z := match list_next l p with None => head l | n => n end.
Lemma around_if l p : (if bool_decide (list_next l p = None) then head l else list_next l p) = around l p.
Proof. unfold around. destruct (list_next l p); [by rewrite bool_decide_false|by rewrite bool_decide_true]. Qed.

Lemma last_other (l1 l2 : list Z) p q : NoDup (l1 ++ p :: l2) -> last (l1 ++ p :: l2) = Some q -> q = p <-> l2 = [].
Proof.
  intros Hn Hl. rewrite last_app in Hl. apply NoDup_app in Hn as (_ & _ & [Hp _]%NoDup_cons). destruct l2 as [|x l2].
  - cbn in Hl. split; [done|congruence].
  - split; [|done]. intros ->. rewrite last_cons_cons in Hl. destruct (last (x :: l2)) as [z|] eqn:E; [|by apply last_None in E].
    injection Hl as ->. by apply last_Some_elem_of in E.
Qed.
(** A walk from [s] round the list [A ++ s :: B] *)
Lemma around_spec A s B l1 p l2 : NoDup (A ++ s :: B) -> s :: B ++ A = l1 ++ p :: l2 ->
  around (A ++ s :: B) p = head (l2 ++ [s]) /\ (list_next (A ++ s :: B) p = None <-> last (A ++ s :: B) = Some p).
Proof.
  intros Hn Hr. assert (exists q, last (A ++ s :: B) = Some q) as [q Hq].
  { destruct (last (A ++ s :: B)) eqn:E; [eauto|]. apply last_None in E. by destruct A. }
  assert ((exists k, s :: B = l1 ++ p :: k /\ l2 = k ++ A) \/ exists k, l1 = (s :: B) ++ k /\ A = k ++ p :: l2) as
    [(k & HB & ->)|(k & -> & ->)].
  { change (s :: B ++ A) with ((s :: B) ++ A) in Hr. apply app_eq_inv in Hr as [(k & E1 & E2)|(k & E1 & E2)]; [|right; by exists k].
    destruct k as [|y k]; [right; exists []; rewrite E1, !app_nil_r; by split|]. injection E2 as <- ->. left. by exists k. }
  - rewrite HB, app_assoc in *. pose proof (last_other _ _ _ _ Hn Hq) as Hlast. unfold around. rewrite list_next_split.
    2: { intros Hp. apply NoDup_app in Hn as (_ & Hd & _). apply (Hd p Hp). by left. }
    rewrite Hq. destruct k as [|x k]; cbn [head app]; [|split; [done|]; split; [done|intros [= ->]; discriminate (proj1 Hlast eq_refl)]].
    split; [|split; [intros _; by rewrite (proj2 Hlast)|done]]. destruct A as [|a A]; [|done]. cbn [app].
    destruct l1; cbn in HB |- *; congruence.
  - rewrite <- app_assoc in *. cbn [app] in *. pose proof (last_other _ _ _ _ Hn Hq) as Hlast. unfold around. rewrite list_next_split.
    2: { intros Hp. apply NoDup_app in Hn as (_ & Hd & _). apply (Hd p Hp). by left. }
    rewrite Hq. destruct l2 as [|x l2]; cbn [head app]; (split; [done|]; split; [done|intros [= ->]; discriminate (proj1 Hlast eq_refl)]).
Qed.

Section clock.
Context `{LA : !L4Abi, SE : !SysmemEnv, LZ : !LZ4}.

(** ** The pages a turn looks at *)

(** [ps] are the first pages on the way round from [p] to [s], and [hd] is after them. *)
Definition walked (w : sysmem) (s p : Z) (l2 ps : list Z) (hd : option Z) (looped : bool) : Prop :=
  exists rest, p :: l2 = ps ++ rest /\ ps <> [] /\ hd = head (rest ++ [s])
  /\ (looped = true <-> exists x, x ∈ ps /\ last (active_page_list w) = Some x).

Lemma examine_ok E H X U w A s B : books H X U w -> active_page_list w = A ++ s :: B ->
  forall l2 l1 p k, s :: B ++ A = l1 ++ p :: l2 ->
  wp E (examine (S k) (Some s) (Some p)) (fun r w' => w' = w /\ walked w s p l2 r.1.1 r.1.2 r.2) w.
Proof.
  intros HB Ha. pose proof HB as [P O _ _ _]. assert (NoDup (A ++ s :: B)) as Hn by (rewrite <- Ha; by apply (active_nodup H)).
  intros l2. induction l2 as [|x l2 IH]; intros l1 p k Hr;
    destruct (around_spec A s B l1 p _ Hn Hr) as [Har Hlast]; rewrite <- Ha in Har, Hlast;
    (assert (p ∈ active_page_list w) as Hp by (rewrite Ha; assert (p ∈ s :: B ++ A) by (rewrite Hr; set_solver); set_solver));
    destruct (ow_active X w O p Hp) as (lp & q & l & Hq & Ho & _); cbn [examine];
    wp_steps; apply (wp_p_at E p q _ w Hq);
    apply wp_bind, wp_assert; try (by rewrite Ho; apply bool_decide_true); cbn [head app] in Har; rewrite around_if, Har.
  - rewrite bool_decide_true by done. wp_steps. split; [done|]. exists []. split_and!; try done. cbn [snd].
    rewrite bool_decide_eq_true, Hlast. split; [intros; exists p; set_solver|]. intros (y & Hy%list_elem_of_singleton & ?). congruence.
  - assert (x <> s) as Hxs.
    { intros ->. assert (NoDup (s :: B ++ A)) as Hn' by (assert (s :: B ++ A ≡ₚ A ++ s :: B) as -> by perm; done).
      rewrite Hr in Hn'. destruct l1 as [|y l1]; injection Hr as -> _; cbn in Hn'; apply NoDup_cons in Hn' as [Hn' _]; set_solver. }
    rewrite bool_decide_false by congruence. wp_steps.
    destruct k as [|k].
    { cbn [examine]. wp_steps. split; [done|]. exists (x :: l2). split_and!; try done. cbn [snd].
      rewrite orb_false_r, bool_decide_eq_true, Hlast. split; [intros; exists p; set_solver|].
      intros (y & Hy%list_elem_of_singleton & ?). congruence. }
    eapply wp_conseq; [apply (IH (l1 ++ [p]) x k); by rewrite <- app_assoc|]. intros [[ps hd] lp'] w' (-> & rest & E1 & E2 & E3 & E4).
    cbn [fst snd] in *. wp_steps. split; [done|]. exists rest. cbn [fst snd]. split_and!; try done; [by rewrite E1|].
    rewrite orb_true_iff, bool_decide_eq_true, Hlast, E4. split.
    + intros [?|(y & Hy & ?)]; [exists p; set_solver|exists y; set_solver].
    + intros (y & [->|Hy]%elem_of_cons & ?); [by left|right; by exists y].
Qed.

(** ** What a turn replaces *)

(** Some pages in [gone] are replaced, and otherwise tasks cannot tell the difference. *)
Record cycled (H : list Z) (X : option (Z * option Z)) (U gone : list Z) (w w' : sysmem) : Prop := Cycled {
  cy_books : books H X U w';
  cy_turned : turned X w w';
  cy_active : active_page_list w' = filter (fun x => x ∉ gone) (active_page_list w)
}.
Lemma cycled_quiet H X U w w' : books H X U w -> quiet w w' -> cycled H X U [] w w'.
Proof.
  intros HB Q. split; [by apply (alike_books H X U w), HB; apply Q|by apply quiet_turned|]. rewrite (al_active _ _ (qt_alike _ _ Q)).
  symmetry. apply filter_all. set_solver.
Qed.
Lemma cycled_trans H X U g1 g2 w1 w2 w3 : cycled H X U g1 w1 w2 -> cycled H X U g2 w2 w3 -> cycled H X U (g1 ++ g2) w1 w3.
Proof.
  intros [B1 T1 A1] [B2 T2 A2]. split; [done|by etrans|]. rewrite A2, A1, list_filter_filter.
  apply list_filter_iff. set_solver.
Qed.
Lemma cycled_p_some H X U g w w' p : cycled H X U g w w' -> is_Some (p_pages w' !! p) <-> is_Some (p_pages w !! p).
Proof. intros C. apply (core_is_some P_ADDRESS), C. Qed.

Lemma replace_ok E H X U w p : books H X U w -> p ∈ active_page_list w ->
  wp E (replace_active_page p) (fun ok w' => cycled H X U (if ok then [p] else []) w w' /\ hand w' = hand w
    /\ forall x, addr_flags <$> p_pages w' !! x = addr_flags <$> p_pages w !! x) w.
Proof.
  intros HB Hp. destruct (ow_active X w (bk_owned _ _ _ _ HB) p Hp) as (lp & q & l & Hq & Ho & Hl & Hpl).
  unfold replace_active_page. wp_steps. eapply wp_p_at; [done|]. wp_steps. eapply wp_conseq; [apply unmap_fpages_ok|].
  intros [] w1 (Q & [= E1 E2 _] & E3). wp_steps. rewrite Ho. apply wp_of_some with lp; [done|]. wp_steps.
  assert (books H X U w1) as HB1 by (apply (alike_books H X U w); [apply Q|done]).
  assert (frame w1 (P_ADDRESS q) = frame w (P_ADDRESS q)) as Hf by (apply alike_frame, Q). rewrite !Hf.
  destruct (Z.leb_spec MAX_COMPRESSED_SIZE (Z.of_nat (length (LZ4_compress (frame w (P_ADDRESS q)))))) as [Hle|Hlt].
  { wp_steps. split; [by apply cycled_quiet|]. by rewrite E1, E2. }
  rewrite <- Hf in Hlt. assert (length (LZ4_compress (frame w1 (P_ADDRESS q))) <> 0%nat) as Hnz.
  { pose proof (LZ4_compress_some (frame w1 (P_ADDRESS q))). by destruct (LZ4_compress _). }
  rewrite <- Hf. destruct (Z.eqb_spec (Z.of_nat (length (LZ4_compress (frame w1 (P_ADDRESS q))))) 0); [lia|].
  wp_steps. apply wp_assert.
  { apply forallb_forall. intros c Hc%list_elem_of_In. apply bool_decide_true.
    destruct (proj1 (ow_buddy X w1 (bk_owned _ _ _ _ HB1) c) Hc) as (_ & h & Hh & _). by exists h. }
  assert (p ∈ active_page_list w1) as Hp1 by by rewrite (al_active _ _ (qt_alike _ _ Q)).
  assert (p_pages w1 !! p = Some q) as Hq1 by by rewrite E1. assert (l_pages w1 !! lp = Some l) as Hl1 by by rewrite (qt_l _ _ Q).
  assert (forall m, m ∈ mappings w1 -> m.1 <> paddr w1 p) as Hm1.
  { intros m. rewrite E3, list_elem_of_filter, (paddr_at _ _ _ Hq1). intros [Hm _] Heq. apply Hm. rewrite Heq.
    rewrite filter_cons_True by done. cbn. set_solver. }
  assert (forall w', packed_away H X U w1 p w' -> cycled H X U [p] w w' /\ hand w' = hand w
    /\ forall x, addr_flags <$> p_pages w' !! x = addr_flags <$> p_pages w !! x) as Hdone.
  { intros w' (HB' & Tn & Hh & Ha & Hfl). rewrite E1, E2 in *. split; [|done]. split; [done|etrans; [by apply quiet_turned|done]|].
    rewrite Ha, (al_active _ _ (qt_alike _ _ Q)). apply list_filter_iff. set_solver. }
  destruct (find_buddy w1 _ _ None (buddy_list w1)) as [best|] eqn:Eb.
  - apply find_buddy_spec in Eb as [?|[Hb Hleft]]; [done|].
    destruct (proj1 (ow_buddy X w1 (bk_owned _ _ _ _ HB1) best) Hb) as (_ & h & Hh & _).
    pose proof (store_with_ok E H X U w1 p lp q l HB1 Hp1 Hq1 Ho Hl1 Hpl Hm1 Hlt best h Hb Hh (Hleft h Hh)) as HS.
    eapply wp_conseq in HS; [|intros ? w' Hw'; exact (Hdone w' Hw')]. revert HS. unfold wp, mbind, M_bind.
    destruct (active_del p w1) as [[] w2|]; [|done]. by destruct (store_with _ _ _ _ w2).
  - pose proof (store_alone_ok E H X U w1 p lp q l HB1 Hp1 Hq1 Ho Hl1 Hpl Hm1 Hlt) as HS.
    eapply wp_conseq in HS; [|intros ? w' Hw'; exact (Hdone w' Hw')]. revert HS. unfold wp, mbind, M_bind.
    destruct (active_del p w1) as [[] w2|]; [|done]. by destruct (store_alone _ _ _ _ w2).
Qed.

(** ** Ageing *)

Lemma p_upd_cycled H X U w p f : books H X U w -> (forall q, p_core (f q) = p_core q) ->
  cycled H X U [] w (set_p_pages (alter f p (p_pages w)) w).
Proof. intros HB Hf. by apply cycled_quiet, quiet_p. Qed.
Lemma flag_core m q : m = clear_bits (addr_flags q) PF_INCOMPRESSIBLE \/ m = Z.lor (addr_flags q) PF_INCOMPRESSIBLE ->
  p_core (set_p_flags m q) = p_core q.
Proof.
  unfold p_core, P_ADDRESS. cbn. intros [->| ->]; f_equal; [by apply page_of_clear|by apply page_of_lor].
Qed.

(** What is done with a page: nobody can tell, but it may be replaced; the hand is moved
    off it then. *)
Definition aged (H : list Z) (X : option (Z * option Z)) (U ps : list Z) (hd : option Z) (w : sysmem) (r : option Z * Z) (w' : sysmem) : Prop :=
  exists gone, cycled H X U gone w w' /\ hand w' = hand w /\ gone ⊆ ps /\ NoDup gone /\ r.2 = Z.of_nat (length gone)
  /\ ((forall p, hd = Some p -> p ∉ ps) -> r.1 = hd)
  /\ ((forall p, hd = Some p -> is_Some (p_pages w !! p)) -> forall p, r.1 = Some p -> is_Some (p_pages w' !! p)).
Lemma aged_none H X U ps hd w w' : cycled H X U [] w w' -> hand w' = hand w -> aged H X U ps hd w (hd, 0) w'.
Proof.
  intros C Hh. exists []. split_and!; try done; [set_solver|apply NoDup_nil_2|]. intros Hp p E. apply (cycled_p_some _ _ _ _ _ _ _ C). by apply Hp.
Qed.
Lemma active_p_some H X U w p : books H X U w -> p ∈ active_page_list w -> is_Some (p_pages w !! p).
Proof. intros HB Hp. destruct (ow_active X w (bk_owned _ _ _ _ HB) p Hp) as (lp & q & l & Hq & _). by exists q. Qed.

Lemma age_page_ok E H X U w p hd rights : books H X U w -> p ∈ active_page_list w ->
  wp E (age_page hd p rights) (aged H X U [p] hd w) w.
Proof.
  intros HB Hp. destruct (ow_active X w (bk_owned _ _ _ _ HB) p Hp) as (lp & q & l & Hq & Ho & Hl & Hpl).
  unfold age_page. wp_steps. eapply wp_p_at; [done|].
  destruct (negb (rights =? 0)).
  { unfold p_upd at 1. wp_steps. apply wp_bind, wp_when.
    - intros _. unfold p_upd. wp_steps. apply aged_none; [|done].
      apply (cycled_trans H X U [] [] _ (set_p_pages (alter (fun q => set_age (s32 (age q + 1)) q) p (p_pages w)) w)).
      + by apply p_upd_cycled.
      + apply p_upd_cycled; [|intros; apply flag_core; by left]. by apply p_upd_cycled.
    - intros _. wp_steps. apply aged_none; [|done]. by apply p_upd_cycled. }
  destruct (0 <? age q). { unfold p_upd. wp_steps. apply aged_none; [|done]. by apply p_upd_cycled. }
  apply wp_bind. apply (wp_conseq E _ (fun b w' => w' = w /\ (b = false -> has (addr_flags q) PF_INCOMPRESSIBLE = false))).
  { destruct (has (addr_flags q) _) eqn:Ei; [by wp_steps|]. wp_steps. rewrite Ho. apply wp_of_some with lp; [done|].
    wp_steps. eapply wp_l_at; [done|]. by wp_steps. }
  intros b w' [-> Hb]. destruct b; [wp_steps; apply aged_none; [|done]; by apply cycled_quiet|].
  wp_steps. eapply wp_conseq; [by apply (replace_ok E H X U)|]. intros ok w' (C & Hh & Hfl). destruct ok.
  - specialize (Hfl p) as Hflp. rewrite Hq in Hflp. apply fmap_Some in Hflp as (q' & Hq' & Eq').
    wp_steps. eapply wp_p_at; [done|]. wp_steps. apply wp_assert; [by rewrite <- Eq', Hb|]. wp_steps.
    exists [p]. split_and!; try done; [apply NoDup_singleton| |].
    + intros Hn. cbn. rewrite bool_decide_false; [done|]. intros ->. by apply (Hn p eq_refl), list_elem_of_singleton.
    + intros Hd x. cbn. rewrite (cycled_p_some _ _ _ _ _ _ _ C). destruct (bool_decide _); [|apply Hd].
      assert (forall y, y ∈ active_page_list w' -> is_Some (p_pages w !! y)) as Hact.
      { intros y Hy. apply (cycled_p_some _ _ _ _ _ _ _ C). by apply (active_p_some H X U), Hy; apply C. }
      destruct (list_next (active_page_list w) p) as [n|] eqn:En.
      * intros [= <-]. apply list_next_in in En. by apply (active_p_some H X U).
      * intros Hx. apply Hact. destruct (active_page_list w'); [done|]. injection Hx as ->. by left.
  - unfold p_upd. wp_steps. apply aged_none; [|done]. apply (cycled_trans H X U [] [] _ w'); [done|].
    apply p_upd_cycled; [apply C|intros; apply flag_core; by right].
Qed.

Lemma age_pages_ok E H X U l w hd : books H X U w -> NoDup (fst <$> l) -> (forall p, p ∈ fst <$> l -> p ∈ active_page_list w) ->
  wp E (age_pages hd l) (aged H X U (fst <$> l) hd w) w.
Proof.
  revert w hd. induction l as [|[p r] l IH]; intros w hd HB Hn Ha; cbn [age_pages].
  { wp_steps. apply aged_none; [|done]. by apply cycled_quiet. }
  cbn [fmap list_fmap fst] in *. apply NoDup_cons in Hn as [Hp Hn]. wp_steps.
  eapply wp_conseq; [apply age_page_ok; [done|apply Ha; by left]|].
  intros [hd1 n] w1 (g1 & C1 & H1 & S1 & N1 & E1 & F1 & G1). cbn [fst snd] in *. wp_steps.
  eapply wp_conseq; [apply (IH w1 hd1); [apply C1|done|]|].
  { intros x Hx. rewrite (cy_active _ _ _ _ _ _ C1), list_elem_of_filter. split; [|apply Ha; by right]. set_solver. }
  intros [hd2 m] w2 (g2 & C2 & H2 & S2 & N2 & E2 & F2 & G2). cbn [fst snd] in *. wp_steps.
  exists (g1 ++ g2). split_and!.
  - by apply (cycled_trans H X U g1 g2 w w1).
  - by rewrite H2.
  - set_solver.
  - apply NoDup_app. split; [done|]. split; [set_solver|done].
  - cbn. rewrite length_app. lia.
  - cbn. intros Hd. assert (hd1 = hd) as -> by (apply F1; set_solver). apply F2. set_solver.
  - cbn. intros Hd. by apply G2, G1.
Qed.

(** ** A turn *)

Fixpoint from (p : Z) (l : list Z) : list Z :=
  match l with [] => [] | x :: l' => if x =? p then l else from p l' end.
Lemma from_split l1 p l2 : p ∉ l1 -> from p (l1 ++ p :: l2) = p :: l2.
Proof.
  induction l1 as [|x l1 IH]; cbn [from app]; [by rewrite Z.eqb_refl|].
  intros [Hx Hl]%not_elem_of_cons. destruct (Z.eqb_spec x p); [congruence|]. by apply IH.
Qed.
Lemma from_length p l : (length (from p l) <= length l)%nat.
Proof. induction l as [|x l IH]; cbn [from length]; [lia|]. destruct (x =? p); cbn [length]; lia. Qed.

Definition hand_top (w : sysmem) : option Z :=
  match hand w with
  | None => head (active_page_list w)
  | Some p => match p_pages w !! p ≫= owner with None => head (active_page_list w) | Some _ => Some p end
  end.
(** How far the hand is from the end of the list *)
Definition hand_rest (w : sysmem) : nat :=
  match hand_top w with Some p => length (from p (active_page_list w)) | None => 0%nat end.

Lemma hand_at_ok E H X U w (Q : option Z -> sysmem -> Prop) : books H X U w -> Q (hand_top w) w -> wp E (hand_at w) Q w.
Proof.
  intros HB HQ. unfold hand_at, hand_top in *. destruct (hand w) as [p|] eqn:Eh; [|by wp_steps].
  destruct (pl_hand _ _ (bk_placed _ _ _ _ HB) p Eh) as [q Hq]. wp_steps. eapply wp_p_at; [done|]. wp_steps.
  rewrite Hq in HQ. exact HQ.
Qed.
Lemma hand_top_active H X U w p : books H X U w -> hand_top w = Some p -> p ∈ active_page_list w.
Proof.
  intros HB. unfold hand_top. assert (head (active_page_list w) = Some p -> p ∈ active_page_list w) as Hhd.
  { destruct (active_page_list w); [done|]. intros [= ->]. by left. }
  destruct (hand w) as [x|]; [|done]. destruct (p_pages w !! x) as [q|] eqn:Eq; [|done]. cbn.
  destruct (owner q) as [lp|] eqn:Eo; [|done]. intros [= ->]. by apply (ow_owner X w (bk_owned _ _ _ _ HB) p q lp).
Qed.
Lemma wp_mapM_p_at E l w (Q : list p_page -> sysmem -> Prop) : (forall p, p ∈ l -> is_Some (p_pages w !! p)) ->
  (forall qs, length qs = length l -> Q qs w) -> wp E (mapM p_at l) Q w.
Proof.
  revert Q. induction l as [|p l IH]; intros Q Hl HQ; cbn [mapM]; [wp_steps; by apply HQ|].
  destruct (Hl p) as [q Hq]; [by left|]. wp_steps. eapply wp_p_at; [done|]. wp_steps. apply IH; [set_solver|].
  intros qs Hqs. wp_steps. apply HQ. cbn. lia.
Qed.

(** [looped] is false only when the hand gets closer to the end. *)
Definition turned_round (H : list Z) (X : option (Z * option Z)) (U : list Z) (w : sysmem) (r : Z * bool) (w' : sysmem) : Prop :=
  exists gone, cycled H X U gone w w' /\ r.1 = Z.of_nat (length gone)
  /\ (length gone + length (active_page_list w') = length (active_page_list w))%nat
  /\ (r.2 = false -> (hand_rest w' < hand_rest w)%nat).

Lemma gone_length H X U gone w w' : cycled H X U gone w w' -> NoDup (active_page_list w) -> NoDup gone -> gone ⊆ active_page_list w ->
  (length gone + length (active_page_list w') = length (active_page_list w))%nat.
Proof.
  intros C Hn Hg Hs. rewrite (cy_active _ _ _ _ _ _ C), <- length_app. apply Permutation_length.
  rewrite <- (filter_app_complement (fun x => x ∉ gone) (active_page_list w)) at 2. rewrite Permutation_app_comm. f_equiv.
  apply NoDup_Permutation; [done|by apply NoDup_filter|]. intros x. rewrite list_elem_of_filter. split; [intros ?; split; [tauto|set_solver]|].
  intros [Hx _]. destruct (decide (x ∈ gone)); tauto.
Qed.
(** A walk that does not pass the end of the list stops before it. *)
Lemma walk_short w A s B ps rest : active_page_list w = A ++ s :: B -> s :: B ++ A = ps ++ rest ->
  (false = true <-> exists x, x ∈ ps /\ last (active_page_list w) = Some x) ->
  exists h k, s :: B = ps ++ h :: k /\ rest = h :: k ++ A.
Proof.
  intros Ha Hr Hl. assert (forall x, x ∈ ps -> last (A ++ s :: B) <> Some x) as Hlast.
  { intros x Hx E. rewrite <- Ha in E. assert (false = true) by (apply Hl; eauto). done. }
  assert (exists z, last (s :: B) = Some z /\ z ∈ s :: B) as (z & Hz & Hzin).
  { destruct (last (s :: B)) as [z|] eqn:E; [|by apply last_None in E]. exists z. split; [done|]. by apply last_Some_elem_of. }
  assert (last (A ++ s :: B) = Some z) as Hlz by by rewrite last_app, Hz.
  change (s :: B ++ A) with ((s :: B) ++ A) in Hr. apply app_eq_inv in Hr as [(k & F1 & F2)|(k & F1 & F2)].
  - destruct k as [|h k]; [|by exists h, k]. exfalso. apply (Hlast z); [|done]. by rewrite F1, app_nil_r in Hzin.
  - exfalso. apply (Hlast z); [|done]. rewrite F1. set_solver.
Qed.
Lemma hand_closer H X U gone w w' A s B ps rest hd looped : books H X U w -> cycled H X U gone w w' ->
  active_page_list w = A ++ s :: B -> hand_top w = Some s -> s :: B ++ A = ps ++ rest -> ps <> [] -> hd = head (rest ++ [s]) ->
  (looped = true <-> exists x, x ∈ ps /\ last (active_page_list w) = Some x) -> gone ⊆ ps ->
  hand w' = hd -> looped = false -> (hand_rest w' < hand_rest w)%nat.
Proof.
  intros HB C Ha Ht Hr Hne Hhd Hl Hg Hh ->. assert (NoDup (A ++ s :: B)) as Hn by (rewrite <- Ha; apply (active_nodup H), HB).
  assert (s ∉ A) as HsA by (apply NoDup_app in Hn as (_ & Hn & _); intros Hs; apply (Hn s Hs); by left).
  destruct (walk_short w A s B ps rest Ha Hr Hl) as (h & k & E1 & E2).
  rewrite E2 in Hhd. cbn in Hhd. subst hd. rewrite E1, app_assoc in Hn. pose proof Hn as Hn'.
  apply NoDup_app in Hn as (Hn1 & Hn2 & [Hhk _]%NoDup_cons). apply NoDup_app in Hn1 as (_ & Hn3 & _).
  assert (active_page_list w' = filter (fun x => x ∉ gone) (A ++ ps) ++ h :: k) as Ea.
  { rewrite (cy_active _ _ _ _ _ _ C), Ha, E1, app_assoc, filter_app. f_equal. apply filter_all. intros x Hx Hxg.
    apply (Hn2 x); [|done]. set_solver. }
  assert (h ∉ filter (fun x => x ∉ gone) (A ++ ps)) as Hhn.
  { intros [_ Hin]%list_elem_of_filter. apply (Hn2 h Hin). by left. }
  assert (hand_top w' = Some h) as Ht'.
  { unfold hand_top. rewrite Hh. destruct (ow_active X w' (bk_owned _ _ _ _ (cy_books _ _ _ _ _ _ C)) h) as (lp & q & l & Hq & Ho & _).
    - rewrite Ea. set_solver.
    - by rewrite Hq; cbn; rewrite Ho. }
  unfold hand_rest. rewrite Ht, Ht', Ea, Ha, !from_split by done. rewrite E1, length_app. destruct ps; [done|]. cbn [length]. lia.
Qed.

Lemma replace_pages_ok (E : stop -> Prop) H X U w : (forall r, no_memory r -> E r) -> books H X U w ->
  wp E replace_pages (turned_round H X U w) w.
Proof.
  intros HE HB. unfold replace_pages. wp_steps. apply (hand_at_ok E H X U); [done|]. wp_steps.
  destruct (hand_top w) as [s|] eqn:Ht.
  2: { assert (active_page_list w = []) as Ha.
    { unfold hand_top in Ht. destruct (active_page_list w) as [|x l]; [done|]. cbn in Ht.
      destruct (hand w) as [y|]; [|done]. destruct (p_pages w !! y ≫= owner); done. }
    cbn [examine]. wp_steps. rewrite Ha, bool_decide_true by done. by apply HE. }
  pose proof (hand_top_active H X U w s HB Ht) as Hs. apply list_elem_of_split in Hs as (A & B & Ha).
  eapply wp_conseq; [apply (examine_ok E H X U w A s B HB Ha (B ++ A) [] s 63); done|].
  intros [[ps hd] looped] w0 (-> & rest & E1 & E2 & E3 & E4). cbn [fst snd] in *. wp_steps.
  assert (NoDup (A ++ s :: B)) as Hn by (rewrite <- Ha; apply (active_nodup H), HB).
  assert (A ++ s :: B ≡ₚ ps ++ rest) as Hperm by (rewrite <- E1; perm).
  assert (forall p, p ∈ ps -> p ∈ active_page_list w) as Hps.
  { intros p Hp. rewrite Ha, Hperm. apply elem_of_app. by left. }
  assert (NoDup ps) as Hnp by (rewrite Hperm in Hn; by apply NoDup_app in Hn as [? _]).
  apply wp_mapM_p_at; [intros p Hp; by apply (active_p_some H X U), Hps|]. intros qs Hqs. wp_steps.
  eapply wp_conseq; [apply unmap_fpages_ok|]. intros [] w1 (Q1 & [= F1 F2 _] & _). wp_steps.
  apply wp_unmap. pose proof (unmap_quiet (sm_garbage (sm_trace w)) w1) as Q2. set (w2 := set_mappings _ w1) in *.
  assert (quiet w w2) as Q by by etrans. pose proof (cycled_quiet H X U w w2 HB Q) as C1. wp_steps.
  assert (fst <$> zip ps (sm_access (sm_trace w) <$> (P_ADDRESS <$> qs)) = ps) as Hz.
  { apply fst_zip. rewrite !length_fmap. lia. }
  eapply wp_conseq; [apply (age_pages_ok E H X U _ w2 hd)|]; rewrite ?Hz; [apply C1|done| |].
  { intros p Hp. rewrite (al_active _ _ (qt_alike _ _ Q)). by apply Hps. }
  intros [hd2 n] w3 (gone & C2 & Hh & G1 & G2 & G3 & G4 & G5). cbn [fst snd] in *. wp_steps.
  assert (forall p, hd = Some p -> is_Some (p_pages w2 !! p)) as Hhd.
  { intros p ->. apply (cycled_p_some _ _ _ _ _ _ _ C1), (active_p_some H X U); [done|].
    rewrite Ha. destruct rest as [|x rest]; injection E3 as ->; [set_solver|]. rewrite Hperm. set_solver. }
  assert (cycled H X U gone w (set_hand hd2 w3)) as C.
  { apply (cycled_trans H X U [] gone w w2); [done|]. rewrite <- (app_nil_r gone). apply (cycled_trans H X U gone [] w2 w3); [done|].
    apply cycled_quiet; [apply C2|]. apply quiet_hand. by apply G5. }
  exists gone. split; [done|]. split; [done|]. split.
  - apply (gone_length H X U gone w (set_hand hd2 w3)); try done; [apply (active_nodup H), HB|]. intros x Hx. by apply Hps, G1.
  - cbn [snd]. intros ->. apply (hand_closer H X U gone w (set_hand hd2 w3) A s B ps rest hd false); try done. cbn.
    apply G4. intros p -> Hp. destruct (walk_short w A s B ps rest Ha E1 E4) as (h & k & F3 & ->). injection E3 as ->.
    rewrite F3, app_assoc in Hn. apply NoDup_app in Hn as (_ & Hn & _). apply (Hn h); set_solver.
Qed.

(** ** The loop ends *)

(** What is left to do: each time round the list, but for the first two, a page has been
    replaced, and every turn in between brings the hand closer to the end. *)
Definition budget (loops loop_freed : Z) (a : nat) : nat :=
  Z.to_nat (2 - loops) + (if (0 <? loop_freed)%Z then 1 else 0) + a.
Definition turns_left (n : nat) (loops loop_freed : Z) (w : sysmem) : nat :=
  budget loops loop_freed (length (active_page_list w)) * (n + 1) + hand_rest w.

Lemma hand_rest_le w : (hand_rest w <= length (active_page_list w))%nat.
Proof. unfold hand_rest. destruct (hand_top w); [apply from_length|lia]. Qed.

Lemma turns_left_next n loops freed H X U gone w w' looped : cycled H X U gone w w' -> 0 <= freed ->
  (length gone + length (active_page_list w') = length (active_page_list w))%nat -> (length (active_page_list w) <= n)%nat ->
  (looped = false -> (hand_rest w' < hand_rest w)%nat) ->
  (looped = true -> ((1 <? loops) && (freed + Z.of_nat (length gone) =? 0)) = false) ->
  (turns_left n (if looped then loops + 1 else loops) (if looped then 0 else freed + Z.of_nat (length gone)) w' < turns_left n loops freed w)%nat.
Proof.
  intros C Hf Hg Hn Hr Hl. unfold turns_left. pose proof (hand_rest_le w') as Hle.
  set (a := length (active_page_list w)) in *. set (a' := length (active_page_list w')) in *.
  set (k := budget loops freed a). destruct looped.
  - specialize (Hl eq_refl). apply andb_false_iff in Hl. rewrite Z.ltb_ge, Z.eqb_neq in Hl.
    assert (budget (loops + 1) 0 a' + 1 <= k)%nat as Hk.
    { unfold k, budget. change (0 <? 0) with false. destruct (Z.ltb_spec 0 freed), Hl; lia. }
    nia.
  - specialize (Hr eq_refl). assert (budget loops (freed + Z.of_nat (length gone)) a' <= k)%nat as Hk.
    { unfold k, budget. destruct (Z.ltb_spec 0 freed), (Z.ltb_spec 0 (freed + Z.of_nat (length gone))); lia. }
    nia.
Qed.

Lemma replace_loop_ok H X U n fuel loops freed w : books H X U w -> 0 <= freed -> (length (active_page_list w) <= n)%nat ->
  (turns_left n loops freed w < fuel)%nat ->
  wp no_memory (replace_loop fuel loops freed) (fun _ w' => exists gone, cycled H X U gone w w') w.
Proof.
  revert loops freed w. induction fuel as [|fuel IH]; intros loops freed w HB Hf Hn Hlt; [lia|]. cbn [replace_loop].
  assert (exists gone, cycled H X U gone w w) as Hend by (exists []; by apply cycled_quiet).
  wp_steps. destruct (negb _); [by wp_steps|]. wp_steps.
  eapply wp_conseq; [by apply (replace_pages_ok no_memory H X U)|]. intros [m looped] w' (gone & C & Hm & Hg & Hr).
  cbn [fst snd] in *. subst m. destruct (Z.ltb_spec 1 loops) as [Hl|Hl].
  all: pose proof (turns_left_next n loops freed H X U gone w w' looped C Hf Hg Hn Hr) as Hdec.
  all: assert (forall loops freed, 0 <= freed -> (turns_left n loops freed w' < fuel)%nat ->
    wp no_memory (replace_loop fuel loops freed) (fun _ w2 => exists gone, cycled H X U gone w w2) w') as Hgo.
  1,3: intros loops' freed' H1 H2; eapply wp_conseq; [apply IH; [apply C|done|lia|done]|];
    intros _ w2 (g & C2); exists (gone ++ g); by apply (cycled_trans H X U gone g w w').
  - destruct looped; [|apply Hgo; [lia|]; specialize (Hdec ltac:(done)); lia].
    cbn [andb]. destruct (Z.eqb_spec (freed + Z.of_nat (length gone)) 0) as [Hz|Hz].
    + wp_steps. by exists gone.
    + apply Hgo; [lia|]. specialize (Hdec (fun _ => andb_false_r _)). lia.
  - cbn [andb]. assert (looped = true -> (1 <? loops) && (freed + Z.of_nat (length gone) =? 0) = false) as Hq.
    { intros _. by replace (1 <? loops) with false by lia. }
    specialize (Hdec Hq). destruct looped; cbn match in Hdec; apply Hgo; lia.
Qed.
Lemma replace_fuel_enough w : (turns_left (length (active_page_list w)) 0 0 w < replace_fuel w)%nat.
Proof.
  unfold turns_left, replace_fuel, budget. change (0 <? 0) with false. pose proof (hand_rest_le w).
  change (Z.to_nat (2 - 0) + (if false then 1 else 0))%nat with 2%nat. nia.
Qed.

(** ** A free page *)

(** Changes to the list of free pages are between sysmem and itself. *)
Lemma turned_free X w l n : turned X w (set_free l n w).
Proof. by split. Qed.
Lemma books_free H H' X U w l n : books H X U w -> placed H' (set_free l n w) -> books H' X U (set_free l n w).
Proof.
  intros [P O T A M] P'. split; [done| | | |done].
  - destruct O as [O1 O2 O3 O4 O5 O6 O7 O8]. split; try done. intros c h Hc. destruct (O5 c h Hc). by split.
  - destruct T. by split.
  - destruct A as [A1 A2]. split; [|done]. intros ty. destruct (A1 ty) as [D1 D2 D3 D4]. split; [done|by destruct ty|by destruct ty|done].
Qed.

Lemma get_free_page_ok H X U w : books H X U w ->
  wp no_memory get_free_page (fun p w' => books (p :: H) X U w' /\ turned X w w') w.
Proof.
  intros HB. unfold get_free_page. wp_steps. destruct (free_page_list w) as [|p l] eqn:Ef; [by wp_steps|]. wp_steps.
  set (w1 := set_free l (u32 (num_free_pages w - 1)) w). unfold p_upd. wp_steps.
  pose proof (bk_placed _ _ _ _ HB) as P.
  assert (books (p :: H) X U w1) as HB1.
  { apply (books_free H); [done|]. apply (placed_perm H (p :: H) w); try done; [|cbn|apply P].
    - unfold places, heads_pages. cbn. rewrite Ef. perm.
    - rewrite (pl_count _ _ P), Ef. cbn [length]. unfold u32. rewrite Zminus_mod_idemp_l. f_equal. lia. }
  pose proof (p_upd_cycled (p :: H) X U w1 p (set_age 1) HB1 ltac:(done)) as C1. set (w2 := set_p_pages _ w1) in *.
  assert (turned X w w2) as T2 by (etrans; [apply turned_free|apply C1]). wp_steps. apply wp_when.
  - intros _. wp_steps. eapply wp_conseq.
    + apply (replace_loop_ok (p :: H) X U (length (active_page_list w2))); [apply C1|done|done|apply replace_fuel_enough].
    + intros _ w3 (gone & C). wp_steps. destruct (_ <? 16); wp_steps; [done|].
      split; [apply C|]. etrans; [done|apply C].
  - intros _. by split; [apply C1|].
Qed.
End clock.
