(* ===== verification/SysmemTaskProps.v ===== *)
(** Memory of tasks: pages are given to tasks, and expanded from compressed memory with
    the contents they had. *)
From S2P Require Import Prelude L4 Pages Sysmem SysmemOps SysmemProps SysmemReplProps SysmemClockProps.

Section tasks.
Context `{LA : !L4Abi, SE : !SysmemEnv, LZ : !LZ4}.

(** ** Giving memory to a logical page *)

(** The page [p], with the bytes [f], goes to [lp]; the page it was stored in, if any, is a
    buddy again. *)
Record given (p lp pa : Z) (f : list Z) (c : option Z) (w w' : sysmem) : Prop := Given {
  gv_p : p_pages w' = alter (set_owner (Some lp)) p (p_pages w);
  gv_l : l_pages w' = alter (set_p_addr pa) lp (l_pages w);
  gv_act : active_page_list w' = active_page_list w ++ [p];
  gv_frame a : frame w' a = if decide (a = pa) then f else frame w a;
  gv_c : c_hdrs w' = c_hdrs w;
  gv_buddy : buddy_list w' = match c with Some c => c :: buddy_list w | None => buddy_list w end;
  gv_free : (free_page_list w', num_free_pages w') = (free_page_list w, num_free_pages w);
  gv_rest : undisturbed w w'
}.

Section given.
Context (H : list Z) (U : list Z) (w w' : sysmem) (p lp : Z) (q : p_page) (l : l_page) (f : list Z) (c : option Z).
Context (HB : books (p :: H) (Some (lp, c)) U w) (Hq : p_pages w !! p = Some q) (Hl : l_pages w !! lp = Some l)
  (Hf : length f = Z.to_nat PAGE_SIZE) (G : given p lp (P_ADDRESS q) f c w w').

Lemma given_places x : x ∈ places w -> paddr w x <> P_ADDRESS q.
Proof.
  intros Hx. rewrite <- (paddr_at _ _ _ Hq). apply (placed_apart (p :: H) w (places w) (p :: H)); [apply HB|done|done|by left].
Qed.
Lemma given_not_active : p ∉ active_page_list w.
Proof.
  intros Hp. apply (given_places p); [|by apply paddr_at]. by rewrite <- (app_nil_r (places w)); apply active_place.
Qed.
Lemma given_hdr_ne x h : c_hdrs w !! x = Some h -> x <> P_ADDRESS q.
Proof.
  intros Hx. rewrite <- (ho_phys _ _ _ (ow_hdr _ _ (bk_owned _ _ _ _ HB) _ _ Hx)). apply given_places.
  rewrite <- (app_nil_r (places w)). by eapply stored_place.
Qed.
Lemma given_paddr x : paddr w' x = paddr w x.
Proof.
  unfold paddr. rewrite (gv_p _ _ _ _ _ _ _ G). destruct (decide (x = p)) as [->|]; [|by rewrite lookup_alter_ne].
  rewrite lookup_alter_eq. by destruct (p_pages w !! p).
Qed.
Lemma given_l x : x <> lp -> l_pages w' !! x = l_pages w !! x.
Proof. intros Hx. by rewrite (gv_l _ _ _ _ _ _ _ G), lookup_alter_ne. Qed.
Lemma given_p x : x <> p -> p_pages w' !! x = p_pages w !! x.
Proof. intros Hx. by rewrite (gv_p _ _ _ _ _ _ _ G), lookup_alter_ne. Qed.
Lemma given_held : held_by w' p lp.
Proof.
  exists (set_owner (Some lp) q), (set_p_addr (P_ADDRESS q) l).
  by rewrite (gv_p _ _ _ _ _ _ _ G), (gv_l _ _ _ _ _ _ _ G), !lookup_alter_eq, Hq, Hl.
Qed.
Lemma given_held_other x y : x ∈ active_page_list w -> held_by w x y -> y <> lp /\ held_by w' x y.
Proof.
  intros Hx Hh. assert (x <> p) as Hxp by (intros ->; by apply given_not_active).
  assert (y <> lp) as Hy. { intros ->. by apply (ow_x _ _ (bk_owned _ _ _ _ HB) lp c eq_refl) in Hh. }
  split; [done|]. destruct Hh as (q' & l' & Hq' & Ho & Hl' & E). exists q', l'. by rewrite given_p, given_l.
Qed.
Lemma given_hdr x h : c_hdrs w !! x = Some h -> hdr_ok w' x h.
Proof.
  intros Hx. destruct (ow_hdr _ _ (bk_owned _ _ _ _ HB) x h Hx) as [K1 K2 K3 K4 K5 K6].
  split; rewrite ?(gv_frame _ _ _ _ _ _ _ G), ?decide_False by (by eapply given_hdr_ne); try done; [by rewrite given_paddr|].
  intros y Hy. destruct (K3 y Hy) as (l' & Hl' & E). exists l'. rewrite given_l; [done|]. intros ->.
  by apply (proj1 (proj2 (ow_x _ _ (bk_owned _ _ _ _ HB) lp c eq_refl)) x h).
Qed.
Lemma given_owned : owned None w'.
Proof.
  pose proof (bk_owned _ _ _ _ HB) as O. split.
  - intros x q' y Hx Ho. rewrite (gv_act _ _ _ _ _ _ _ G), elem_of_app, list_elem_of_singleton. destruct (decide (x = p)) as [->|Hne]; [by right|].
    left. rewrite given_p in Hx by done. by apply (ow_owner _ _ O x q' y).
  - intros x. rewrite (gv_act _ _ _ _ _ _ _ G), elem_of_app, list_elem_of_singleton. intros [Hx| ->]; [|exists lp; apply given_held].
    destruct (ow_active _ _ O x Hx) as (y & Hy). exists y. by apply given_held_other.
  - intros x l' Hx _. destruct (decide (x = lp)) as [->|Hne].
    { right; left. exists p. rewrite (gv_act _ _ _ _ _ _ _ G). split; [set_solver|apply given_held]. }
    rewrite given_l in Hx by done. rewrite (gv_c _ _ _ _ _ _ _ G), (gv_act _ _ _ _ _ _ _ G).
    destruct (ow_lpage _ _ O x l' Hx) as [?|[(p' & Ha & Hh)|?]]; [by intros [= ->]|by left| |by right; right].
    right; left. exists p'. split; [set_solver|]. by apply given_held_other.
  - done.
  - intros x h. rewrite (gv_c _ _ _ _ _ _ _ G). apply given_hdr.
  - intros x. rewrite (gv_c _ _ _ _ _ _ _ G), (gv_buddy _ _ _ _ _ _ _ G). destruct c as [c'|].
    + rewrite elem_of_cons, (ow_buddy _ _ O). split.
      * intros [->|[_ ?]]; (split; [done|]); [|done]. by apply (ow_x _ _ O lp _ eq_refl).
      * intros [_ Hs]. destruct (decide (x = c')) as [->|]; [by left|right]. split; [|done]. intros [= ->]. done.
    + rewrite (ow_buddy _ _ O). split; intros [_ ?]; done.
  - rewrite (gv_buddy _ _ _ _ _ _ _ G). destruct c as [c'|]; [|apply O]. apply NoDup_cons. split; [|apply O].
    intros Hin. by apply (ow_buddy _ _ O) in Hin as [? _].
  - intros a. rewrite (gv_frame _ _ _ _ _ _ _ G). destruct (decide _); [done|apply O].
Qed.
Lemma given_content : content w' lp = Some f.
Proof.
  rewrite (content_resident w' p lp given_held), given_paddr, (gv_frame _ _ _ _ _ _ _ G), decide_True; [done|by apply paddr_at|].
  rewrite given_paddr. apply (pl_pos _ _ (bk_placed _ _ _ _ HB)). set_solver.
Qed.
Lemma given_content_other x : x <> lp -> content w' x = content w x.
Proof.
  intros Hx. pose proof (bk_owned _ _ _ _ HB) as O. apply content_ext; [by rewrite given_l| |]; intros l' Hl' Hs.
  - intros Hz. rewrite (gv_frame _ _ _ _ _ _ _ G), decide_False; [done|].
    destruct (ow_lpage _ _ O x l' Hl') as [?|[(p' & Ha & Hh)|(Hs' & _)]]; [by intros [= ->]|done| |by rewrite Hs in Hs'].
    destruct Hh as (q' & l2 & Hq' & Ho & Hl2 & E). replace l' with l2 by congruence. rewrite E, <- (paddr_at _ _ _ Hq').
    apply given_places. rewrite <- (app_nil_r (places w)). by apply active_place.
  - unfold slot_at. rewrite (gv_c _ _ _ _ _ _ _ G), (gv_frame _ _ _ _ _ _ _ G).
    destruct (c_hdrs w !! page_of (p_addr l')) as [h|] eqn:Eh; [|done]. by rewrite decide_False by (by eapply given_hdr_ne).
Qed.
Lemma given_books : books H None U w'.
Proof.
  pose proof HB as [P O T A M]. destruct (gv_rest _ _ _ _ _ _ _ G) as [U1 U2 U3 U4 U5 U6 _]. pose proof (gv_free _ _ _ _ _ _ _ G) as [= F1 F2].
  assert (kin w w') as K.
  { split; [by rewrite U1| | |done..].
    - intros x. destruct (decide (x = lp)) as [->|]; [|by rewrite given_l]. rewrite (gv_l _ _ _ _ _ _ _ G), lookup_alter_eq. by destruct (l_pages w !! lp).
    - intros x. destruct (decide (x = p)) as [->|]; [|by rewrite given_p]. rewrite (gv_p _ _ _ _ _ _ _ G), lookup_alter_eq. by destruct (p_pages w !! p). }
  split; [| |by apply (kin_tasked w)|by apply (kin_allocated w)|].
  - apply (placed_perm (p :: H) H w); [done|intros; apply given_paddr| |done| |].
    + unfold places, heads_pages. rewrite F1, U2, U4, (gv_act _ _ _ _ _ _ _ G), (gv_c _ _ _ _ _ _ _ G). perm.
    + rewrite F1, F2. apply P.
    + rewrite U6. intros x Hx. apply (core_is_some P_ADDRESS _ _ (kn_p _ _ K x)). by apply (pl_hand _ _ P).
  - apply given_owned.
  - intros pa pid a. rewrite U5. intros Hin Hu. destruct (M pa pid a Hin Hu) as (x & q' & y & t & Hx & Hpa & Ho & Ht & Ha).
    exists x, q', y, t. rewrite U1, given_p; [done|]. intros ->. apply given_not_active. by apply (ow_owner _ _ O p q' y).
Qed.
End given.

(** ** Taking a logical page out of compressed memory *)

(** [h'] is [h] without [lp], which leaves the page's other one. *)
Definition cleared (h : c_hdr) (lp y : Z) (h' : c_hdr) : Prop :=
  hdr_a h = Some lp /\ hdr_b h = Some y /\ h' = set_hdr_a None h
  \/ hdr_a h = Some y /\ hdr_b h = Some lp /\ h' = set_hdr_b None h.

Section clear.
Context (H : list Z) (U : list Z) (w : sysmem) (c lp : Z) (h : c_hdr) (HB : books H None U w) (Hh : c_hdrs w !! c = Some h).

Lemma stored_swapped : stores h lp -> swapped_to w c lp.
Proof. intros Hs. by apply (ho_lp w c h), Hs; apply (ow_hdr None), Hh; apply HB. Qed.
Lemma stored_once x h2 y : stores h y -> c_hdrs w !! x = Some h2 -> stores h2 y -> x = c.
Proof.
  pose proof (bk_owned _ _ _ _ HB) as O. intros Hs Hx Hs2. pose proof (ow_hdr None w O c h Hh) as K. pose proof (ow_hdr None w O x h2 Hx) as K2.
  destruct (ho_lp _ _ _ K _ Hs) as (l & Hl & E), (ho_lp _ _ _ K2 _ Hs2) as (l2 & Hl2 & E2).
  rewrite <- (proj1 (swap_addr c (hdr_page _ _ _ K))), <- (proj1 (swap_addr x (hdr_page _ _ _ K2))). congruence.
Qed.
Lemma stored_not_held p : stores h lp -> ~ held_by w p lp.
Proof. intros Hs Hp. by apply (held_not_swapped w p lp c), stored_swapped. Qed.

Lemma clear_slot_ok y h' : cleared h lp y h' -> let w1 := set_c_hdrs (<[c := h']> (c_hdrs w)) w in
  books H (Some (lp, Some c)) U w1 /\ (forall x, x <> lp -> content w1 x = content w x).
Proof.
  intros Hc w1. pose proof HB as [P O T A M]. pose proof (ow_hdr None w O c h Hh) as K. pose proof K as [K1 K2 K3 K4 K5 K6].
  assert (stores h lp /\ stores h y /\ lp <> y /\ single h' /\ phys h' = phys h /\ (a_len h', b_len h') = (a_len h, b_len h)) as (S1 & S2 & Hne & Hsg & Eph & [= El1 El2]).
  { unfold stores, single. destruct Hc as [(Ea & Eb & ->)|(Ea & Eb & ->)]; cbn; destruct (K6 _ _ Ea Eb); split_and!; auto. }
  assert (forall x, stores h' x -> x = y) as Hone.
  { unfold stores. destruct Hc as [(Ea & Eb & ->)|(Ea & Eb & ->)]; cbn; rewrite ?Ea, ?Eb; naive_solver. }
  assert (stores h' y) as S3 by (unfold stores; destruct Hc as [(Ea & Eb & ->)|(Ea & Eb & ->)]; cbn; auto).
  assert (slot h' y = slot h y) as Eslot.
  { unfold slot. rewrite El1, El2. destruct Hc as [(Ea & Eb & ->)|(Ea & Eb & ->)]; cbn; rewrite Ea; [|done].
    by rewrite !bool_decide_false by congruence. }
  assert (forall x h2, c_hdrs w1 !! x = Some h2 -> ~ stores h2 lp) as Hno.
  { intros x h2. cbn. destruct (decide (x = c)) as [->|Hx].
    - rewrite lookup_insert_eq. intros [= <-] ?. by apply Hne, Hone.
    - rewrite lookup_insert_ne by done. intros Hx2 Hs. by apply Hx, (stored_once x h2 lp). }
  split; [split|].
  - apply (placed_perm H H w); try done; [|apply P..]. unfold places, heads_pages. cbn.
    assert (stored_in (<[c:=h']> (c_hdrs w)) ≡ₚ stored_in (c_hdrs w)) as ->; [|done].
    rewrite (stored_delete _ _ _ Hh), (stored_delete (<[c:=h']> _) c h') by apply lookup_insert_eq. by rewrite delete_insert_eq, Eph.
  - destruct O as [O1 O2 O3 O4 O5 O6 O7 O8]. split; try done.
    + intros x l Hl Hx. cbn. destruct (O3 x l Hl) as [?|[?|(Hs & h2 & Hc2 & Hs2)]]; [done|by left|by right; left|right; right].
      split; [done|]. destruct (decide (page_of (p_addr l) = c)) as [E|]; [|rewrite lookup_insert_ne by done; by exists h2].
      rewrite E, lookup_insert_eq in *. exists h'. split; [done|]. replace h2 with h in Hs2 by congruence.
      assert (x = y) as ->; [|done]. unfold stores in *. destruct Hc as [(Ea & Eb & _)|(Ea & Eb & _)]; rewrite Ea, Eb in Hs2; naive_solver.
    + intros x c' [= <- <-]. split; [intros z [= <-]; exists h'; cbn; by rewrite lookup_insert_eq|]. split; [apply Hno|].
      intros p. by apply stored_not_held.
    + intros x h2. cbn. destruct (decide (x = c)) as [->|Hx].
      * rewrite lookup_insert_eq. intros [= <-]. split; rewrite ?El1, ?El2; try (by rewrite Eph); [by exists y|..].
        -- intros z Hz%Hone. subst z. by apply K3.
        -- intros z Hz. destruct Hc as [(Ea & Eb & ->)|(Ea & Eb & ->)]; [done|]. by apply (K4 z).
        -- intros z Hz. destruct Hc as [(Ea & Eb & ->)|(Ea & Eb & ->)]; [|done]. by apply (K5 z).
        -- intros z z2 Hz Hz2. destruct Hc as [(Ea & Eb & ->)|(Ea & Eb & ->)]; done.
      * rewrite lookup_insert_ne by done. intros Hx2. destruct (O5 x h2 Hx2). by split.
    + intros x. cbn. rewrite O6. destruct (decide (x = c)) as [->|Hx].
      * split; [|by intros [? _]]. intros (_ & h2 & Hc2 & Hs2). exfalso. replace h2 with h in Hs2 by congruence.
        unfold single in Hs2. destruct Hc as [(Ea & Eb & _)|(Ea & Eb & _)]; rewrite Ea, Eb in Hs2; naive_solver.
      * rewrite lookup_insert_ne by done. split; intros [_ ?]; (split; [|done]); [by intros [= ->]|done].
  - destruct T. by split.
  - destruct A as [A1 A2]. split; [|done]. intros ty. destruct (A1 ty) as [D1 D2 D3 D4]. split; [done|by destruct ty|by destruct ty|done].
  - done.
  - intros x Hx. apply content_ext; [done|done|]. intros l Hl Hs. unfold slot_at. cbn [c_hdrs w1 set_c_hdrs].
    destruct (decide (page_of (p_addr l) = c)) as [E|]; [|by rewrite lookup_insert_ne]. rewrite E, lookup_insert_eq, Hh. cbn. f_equal.
    destruct (ow_lpage None w O x l Hl) as [Ez|[(p & Hp & q & l2 & Hq & _ & Hl2 & E2)|(_ & h2 & Hc2 & Hs2)]]; [done|by rewrite Ez in Hs| |].
    + replace l2 with l in E2 by congruence. rewrite E2 in Hs. by rewrite (proj2 (P_ADDRESS_page q)) in Hs.
    + rewrite E, Hh in Hc2. injection Hc2 as <-. assert (x = y) as ->.
      { unfold stores in Hs2. destruct Hc as [(Ea & Eb & _)|(Ea & Eb & _)]; rewrite Ea, Eb in Hs2; naive_solver. }
      change (frame w1 c) with (frame w c). by rewrite Eslot.
Qed.

(** [lp] is all that the page stores, which is free for other uses then. *)
Lemma empty_slot_ok : stores h lp -> single h ->
  let w1 := set_c_hdrs (delete c (c_hdrs w)) (set_buddies (filter (fun x => x <> c) (buddy_list w)) w) in
  books (phys h :: H) (Some (lp, None)) U w1 /\ (forall x, x <> lp -> content w1 x = content w x).
Proof.
  intros S1 Hsg w1. pose proof HB as [P O T A M]. pose proof (ow_hdr None w O c h Hh) as K.
  assert (forall x, stores h x -> x = lp) as Hone.
  { unfold stores, single in *. destruct (hdr_a h), (hdr_b h); naive_solver. }
  assert (forall x h2, c_hdrs w1 !! x = Some h2 -> ~ stores h2 lp) as Hno.
  { intros x h2. cbn. intros [Hx Hx2]%lookup_delete_Some Hs. apply Hx; symmetry; by apply (stored_once x h2 lp). }
  split; [split|].
  - apply (placed_perm H (phys h :: H) w); try done; [|apply P..]. unfold places, heads_pages. cbn.
    rewrite (stored_delete _ _ _ Hh). perm.
  - destruct O as [O1 O2 O3 O4 O5 O6 O7 O8]. split; try done.
    + intros x l Hl Hx. cbn. destruct (O3 x l Hl) as [?|[?|(Hs & h2 & Hc2 & Hs2)]]; [done|by left|by right; left|right; right].
      split; [done|]. exists h2. split; [|done]. apply lookup_delete_Some. split; [|done]. intros E. rewrite <- E, Hh in Hc2.
      injection Hc2 as <-. apply Hx; cbn; f_equal; symmetry; by apply Hone.
    + intros x c' [= <- <-]. split; [done|]. split; [apply Hno|]. intros p. by apply stored_not_held.
    + intros x h2. cbn. intros [Hx Hx2]%lookup_delete_Some. destruct (O5 x h2 Hx2). by split.
    + intros x. cbn. rewrite list_elem_of_filter, O6. split.
      * intros [Hx [_ (h2 & Hc2 & Hs2)]]. split; [done|]. exists h2. by rewrite lookup_delete_ne.
      * intros [_ (h2 & [Hx Hx2]%lookup_delete_Some & Hs2)]. split; [done|]. split; [done|by exists h2].
    + apply NoDup_filter, O7.
  - destruct T. by split.
  - destruct A as [A1 A2]. split; [|done]. intros ty. destruct (A1 ty) as [D1 D2 D3 D4]. split; [done|by destruct ty|by destruct ty|done].
  - done.
  - intros x Hx. apply content_ext; [done|done|]. intros l Hl Hs. unfold slot_at. cbn [c_hdrs w1 set_c_hdrs].
    destruct (decide (page_of (p_addr l) = c)) as [E|]; [|by rewrite lookup_delete_ne]. exfalso. apply Hx, Hone.
    destruct (ow_lpage None w O x l Hl) as [Ez|[(p & Hp & q & l2 & Hq & _ & Hl2 & E2)|(_ & h2 & Hc2 & Hs2)]]; [done|by rewrite Ez in Hs| |].
    + replace l2 with l in E2 by congruence. rewrite E2 in Hs. by rewrite (proj2 (P_ADDRESS_page q)) in Hs.
    + by rewrite E, Hh in Hc2; injection Hc2 as <-.
Qed.
End clear.

(** ** Memory with given contents *)

(** [lp] has a page of its own with the contents [f], and everything else is as before. *)
Record settled (H U : list Z) (lp : Z) (f : list Z) (w w' : sysmem) : Prop := Settled {
  st_books : books H None U w';
  st_content : content w' lp = Some f;
  st_remains : remains (Some (lp, None)) w w';
  st_held : exists p, p ∈ active_page_list w' /\ held_by w' p lp
}.
Lemma given_settled H U w0 w w' p lp q l f c : books (p :: H) (Some (lp, c)) U w -> p_pages w !! p = Some q ->
  l_pages w !! lp = Some l -> length f = Z.to_nat PAGE_SIZE -> given p lp (P_ADDRESS q) f c w w' ->
  remains (Some (lp, None)) w0 w -> settled H U lp f w0 w'.
Proof.
  intros HB Hq Hl Hf G R. split; [by eapply given_books|by eapply given_content| |].
  - etrans; [done|]. destruct (gv_rest _ _ _ _ _ _ _ G) as [U1 U2 U3 U4 U5 U6 [= U7 U8 U9 U10 U11]]. split; try done.
    + intros x. destruct (decide (x = lp)) as [->|]; [|by rewrite (gv_l _ _ _ _ _ _ _ G), lookup_alter_ne by done].
      rewrite (gv_l _ _ _ _ _ _ _ G), lookup_alter_eq. by destruct (l_pages w !! lp).
    + intros x l' Hx Hl' Hz. rewrite (gv_l _ _ _ _ _ _ _ G), lookup_alter_ne; [done|]. intros ->. by apply Hx.
    + intros x Hx. eapply given_content_other; try done. intros ->. by apply Hx.
    + intros x. rewrite (gv_p _ _ _ _ _ _ _ G). destruct (decide (x = p)) as [->|]; [|by rewrite lookup_alter_ne].
      rewrite lookup_alter_eq. by destruct (p_pages w !! p).
    + by rewrite U5.
  - exists p. rewrite (gv_act _ _ _ _ _ _ _ G). split; [set_solver|]. by eapply given_held.
Qed.

Lemma give_page_ok E H U w0 w p lp l : books (p :: H) (Some (lp, None)) U w -> l_pages w !! lp = Some l ->
  remains (Some (lp, None)) w0 w -> wp E (give_page lp p) (fun _ w' => exists f, settled H U lp f w0 w') w.
Proof.
  intros HB Hl R. assert (0 < paddr w p) as Hp by (apply (pl_pos _ _ (bk_placed _ _ _ _ HB)); set_solver).
  destruct (p_pages w !! p) as [q|] eqn:Hq; [|unfold paddr in Hp; rewrite Hq in Hp; lia].
  unfold give_page. wp_steps. eapply wp_p_at; [done|]. unfold l_upd, p_upd, active_add. wp_steps.
  exists (frame w (P_ADDRESS q)). eapply given_settled; [exact HB|done|done|apply (ow_frames _ _ (bk_owned _ _ _ _ HB))| |done].
  split; try done. intros a. cbn. by destruct (decide (a = P_ADDRESS q)) as [->|].
Qed.
(** A page that nothing was stored in yet *)
Lemma await_page H U w lp l : books H None U w -> l_pages w !! lp = Some l -> p_addr l = 0 -> books H (Some (lp, None)) U w.
Proof.
  intros [P O T A M] Hl Hz. split; try done. destruct O as [O1 O2 O3 O4 O5 O6 O7 O8]. split; try done.
  - intros x l' Hl' _. by apply O3.
  - intros x c [= <- <-]. split; [done|]. split.
    + intros c h Hc Hs. destruct (ho_lp _ _ _ (O5 c h Hc) lp Hs) as (l' & Hl' & E). replace l' with l in E by congruence.
      assert (has (Z.lor c LF_SWAP) LF_SWAP = true) as Hsw by (rewrite has_lor; apply orb_true_r). by rewrite <- E, Hz in Hsw.
    + intros p (q & l' & Hq & Ho & Hl' & E). replace l' with l in E by congruence.
      assert (0 < paddr w p) as Hp by (apply (pl_pos _ _ P), active_place; by apply (O1 p q lp)). rewrite (paddr_at _ _ _ Hq) in Hp. lia.
  - intros c. rewrite O6. split; intros [_ ?]; done.
Qed.

Lemma stored_data H U w c lp h : books H None U w -> c_hdrs w !! c = Some h -> stores h lp ->
  exists d, length d = Z.to_nat PAGE_SIZE /\ slot h lp (frame w c) = LZ4_compress d /\ content w lp = Some d.
Proof.
  intros HB Hh Hs. pose proof (ow_hdr _ _ (bk_owned _ _ _ _ HB) c h Hh) as K.
  assert (exists d, length d = Z.to_nat PAGE_SIZE /\ slot h lp (frame w c) = LZ4_compress d) as (d & Hd & E).
  { unfold slot. destruct (decide (hdr_a h = Some lp)) as [Ea|Ea].
    - rewrite bool_decide_true by done. by destruct (ho_a _ _ _ K lp Ea) as [[_ ?] _].
    - rewrite bool_decide_false by done. destruct Hs as [?|Eb]; [done|]. by destruct (ho_b _ _ _ K lp Eb) as [[_ ?] _]. }
  exists d. split; [done|]. split; [done|]. rewrite (content_swapped w c lp h), E; [by apply LZ4_roundtrip|by eapply ho_lp|by eapply hdr_page|done].
Qed.

Lemma expand_ok H U w lp l : books H None U w -> l_pages w !! lp = Some l -> has (p_addr l) LF_SWAP = true ->
  wp no_memory (phys ← decompress lp; give_page lp phys) (fun _ w' => exists f, content w lp = Some f /\ settled H U lp f w w') w.
Proof.
  intros HB Hl Hs. pose proof HB as [P O _ _ _].
  destruct (ow_lpage _ _ O lp l Hl) as [Ez|[(p & _ & q & l' & _ & _ & Hl' & E)|(_ & h & Hh & Hst)]]; [done|by rewrite Ez in Hs| |].
  { replace l' with l in E by congruence. by rewrite E, (proj2 (P_ADDRESS_page q)) in Hs. }
  set (c := page_of (p_addr l)) in *. destruct (stored_data H U w c lp h HB Hh Hst) as (d & Hd & Eslot & Ect).
  pose proof (ow_hdr _ _ O c h Hh) as K. unfold decompress. wp_steps. eapply wp_l_at; [done|]. wp_steps. fold c.
  eapply wp_hdr_at; [done|]. wp_steps.
  apply (wp_conseq _ _ (fun r w1 => r.1 = slot h lp (frame w c) /\ exists h', w1 = set_c_hdrs (<[c := h']> (c_hdrs w)) w
    /\ (if r.2 : bool then single h else exists y, cleared h lp y h'))).
  { assert (forall f, alter f c (c_hdrs w) = <[c := f h]> (c_hdrs w)) as Halt.
    { intros f. apply map_eq. intros i. destruct (decide (i = c)) as [->|]; [by rewrite lookup_alter_eq, lookup_insert_eq, Hh|].
      by rewrite lookup_alter_ne, lookup_insert_ne. }
    unfold hdr_upd, slot. destruct (decide (hdr_a h = Some lp)) as [Ea|Ea].
    - rewrite !bool_decide_true by done. wp_steps. rewrite Halt. split; [done|]. exists (set_hdr_a None h). split; [done|].
      cbn [snd]. destruct (hdr_b h) as [y|] eqn:Eb; [rewrite bool_decide_false by done; exists y; by left|]. rewrite bool_decide_true by done. by right.
    - rewrite !bool_decide_false by done. destruct Hst as [?|Eb]; [done|]. wp_steps. apply wp_assert; [by apply bool_decide_true|].
      wp_steps. rewrite Halt. split; [done|]. exists (set_hdr_b None h). split; [done|].
      cbn [snd]. destruct (hdr_a h) as [y|] eqn:Ea'; [rewrite bool_decide_false by done; exists y; by right|]. rewrite bool_decide_true by done. by left. }
  intros [data done] w1 (Edata & h' & -> & Hdone). cbn [fst snd] in *. wp_steps. rewrite Edata, Eslot, LZ4_roundtrip by done. destruct done.
  - (* in place *)
    destruct (empty_slot_ok H U w c lp h HB Hh Hst Hdone) as [HB1 Hc1]. set (w1 := set_c_hdrs _ _) in HB1, Hc1.
    assert (0 < paddr w (phys h)) as Hpos by (apply (pl_pos _ _ P); by eapply stored_place).
    rewrite (ho_phys _ _ _ K) in Hpos. pose proof (ho_phys _ _ _ K) as Ec. unfold paddr in Ec.
    destruct (p_pages w !! phys h) as [q|] eqn:Hq; [|lia]. unfold buddy_del. wp_steps. apply wp_del_from.
    { cbn. apply (ow_buddy _ _ O). split; [done|by exists h]. }
    wp_steps. eapply wp_p_at; [done|]. rewrite Hd, Nat.eqb_refl. cbn [negb]. unfold set_frame. wp_steps.
    unfold give_page. wp_steps. eapply wp_p_at; [done|]. unfold l_upd, p_upd, active_add. wp_steps.
    exists d. split; [done|]. eapply given_settled; [exact HB1|exact Hq|done|done| |].
    + rewrite Ec. split; try done; cbn.
      * intros a. unfold frame. cbn. destruct (decide (a = c)) as [->|]; [by rewrite lookup_insert_eq|by rewrite lookup_insert_ne].
      * by rewrite delete_insert_eq.
    + split; try done. intros x Hx. apply Hc1. intros ->. by apply Hx.
  - destruct Hdone as [y Hcl]. destruct (clear_slot_ok H U w c lp h HB Hh y h' Hcl) as [HB1 Hc1].
    set (w1 := set_c_hdrs (<[c := h']> (c_hdrs w)) w) in *. wp_steps. eapply wp_conseq; [by apply get_free_page_ok|].
    intros p w2 [HB2 T2]. unfold buddy_add. wp_steps. destruct (tn_x _ _ _ T2 lp (Some c) eq_refl) as [Hl2 _].
    assert (0 < paddr w2 p) as Hp by (apply (pl_pos _ _ (bk_placed _ _ _ _ HB2)); set_solver).
    destruct (p_pages w2 !! p) as [q|] eqn:Hq; [|unfold paddr in Hp; rewrite Hq in Hp; lia].
    wp_steps. eapply wp_p_at; [done|]. rewrite Hd, Nat.eqb_refl. cbn [negb]. unfold set_frame. wp_steps.
    unfold give_page. wp_steps. eapply wp_p_at; [done|]. unfold l_upd, p_upd, active_add. wp_steps.
    exists d. split; [done|]. eapply given_settled; [exact HB2|exact Hq|by rewrite Hl2|done| |].
    + split; try done; cbn.
      * intros a. unfold frame. cbn. destruct (decide (a = P_ADDRESS q)) as [->|]; [by rewrite lookup_insert_eq|by rewrite lookup_insert_ne].
      * apply delete_id. destruct (c_hdrs w2 !! P_ADDRESS q) eqn:E; [|done]. exfalso. by eapply given_hdr_ne.
    + trans w1; [|apply (remains_fst (Some (lp, Some c))); [done|by apply turned_remains]].
      split; try done. intros x Hx. apply Hc1. intros ->. by apply Hx.
Qed.
End tasks.
