(* ===== verification/SysmemAllocProps.v ===== *)
(** Allocation within pages: objects are given out once until they are recycled, and lie in
    pages that are used for nothing else. *)
From S2P Require Import Prelude L4 Pages Sysmem SysmemOps SysmemProps SysmemReplProps SysmemClockProps SysmemTaskProps.

Section alloc.
Context `{LA : !L4Abi, SE : !SysmemEnv, LZ : !LZ4}.

(** An address that nothing has, and that may be given to an object of the kind *)
Definition fresh (w : sysmem) (ty : alloc_type) (x : Z) : Prop :=
  ~ live w ty x /\ x ∉ trash (heads w ty) /\ (in_pages w ty x \/ in_pool w ty x).

Lemma page_multiple a : page_of a = a -> exists k, a = 4096 * k.
Proof.
  intros Ha. destruct (page_of_aligned a) as [_ Hr]. rewrite Ha in Hr. rewrite page_of_div in Ha by done.
  exists (a / PAGE_SIZE). by rewrite <- Ha at 1.
Qed.
Lemma pages_apart a b x : page_of a = a -> page_of b = b -> a <= x < a + PAGE_SIZE -> b <= x < b + PAGE_SIZE -> a = b.
Proof. intros (k & ->)%page_multiple (m & ->)%page_multiple. unfold PAGE_SIZE. lia. Qed.
Lemma align_sz ty : align_up (sz_of ty) = sz_of ty.
Proof. by destruct ty. Qed.
Lemma heads_page_place w ty p : p ∈ alloc_pages (heads w ty) -> p ∈ heads_pages w.
Proof. unfold heads_pages. rewrite !elem_of_app. destruct ty; tauto. Qed.
Lemma heads_usable H w ty p : placed H w -> p ∈ alloc_pages (heads w ty) -> usable (paddr w p) /\ 0 < paddr w p.
Proof.
  intros P Hp%heads_page_place. assert (p ∈ places w ++ H) as Hin by (unfold places; rewrite !elem_of_app; tauto). split; [|by apply (pl_pos _ _ P)].
  apply (pl_usable _ _ P p Hin). intros Hr.
  apply (placed_apart H w (heads_pages w) (free_page_list w ++ active_page_list w ++ reserved_page_list w ++ stored_in (c_hdrs w) ++ H) p p P);
    [unfold places; perm|done|set_solver|done].
Qed.

(** ** Steps on the heads *)

Definition with_trash (w : sysmem) (ty : alloc_type) (tr : list Z) : sysmem :=
  set_heads (upd_head ty (AllocHead (alloc_pages (heads w ty)) tr) (heads w)) w.
Lemma with_trash_pages w ty tr ty' : alloc_pages (heads (with_trash w ty tr) ty') = alloc_pages (heads w ty').
Proof. unfold with_trash, upd_head. cbn. destruct (decide (ty' = ty)) as [->|]; done. Qed.
Lemma with_trash_trash w ty tr ty' : trash (heads (with_trash w ty tr) ty') = if decide (ty' = ty) then tr else trash (heads w ty').
Proof. unfold with_trash, upd_head. cbn. by destruct (decide (ty' = ty)). Qed.
Lemma with_trash_in w ty tr ty' x : in_pages (with_trash w ty tr) ty' x <-> in_pages w ty' x.
Proof. unfold in_pages. by setoid_rewrite with_trash_pages. Qed.
Lemma with_trash_live w ty tr ty' x : live (with_trash w ty tr) ty' x <-> live w ty' x.
Proof. by destruct ty'. Qed.

(** What does not concern allocation *)
Lemma owned_heads X w hs nx : owned X w -> owned X (set_alloc_next nx (set_heads hs w)).
Proof. intros [O1 O2 O3 O4 O5 O6 O7 O8]. split; try done. intros c h Hc. destruct (O5 c h Hc). by split. Qed.
Lemma tasked_heads w hs nx : tasked w -> tasked (set_alloc_next nx (set_heads hs w)).
Proof. intros []. by split. Qed.
Lemma remains_heads X w hs nx : remains X w (set_alloc_next nx (set_heads hs w)).
Proof. by split. Qed.

Lemma books_trash H X U w ty tr : books H X U w -> NoDup tr ->
  (forall x, x ∈ tr -> ~ live w ty x /\ (in_pages w ty x \/ in_pool w ty x)) -> books H X U (with_trash w ty tr).
Proof.
  intros [P O T A M] Hn Ht. split; [|by apply (owned_heads X w _ (alloc_next w))|by apply (tasked_heads w _ (alloc_next w))| |done].
  - apply (placed_perm H H w); try done; [|apply P..]. unfold places, heads_pages. by rewrite !with_trash_pages.
  - destruct A as [A1 A2]. split; [|done]. intros ty'. destruct (A1 ty') as [D1 D2 D3 D4].
    split; rewrite ?with_trash_pages, ?with_trash_trash; [by destruct (decide _)| | |done].
    + intros x. rewrite with_trash_live. destruct (decide (ty' = ty)) as [->|]; [|apply D2]. intros Hx. by apply Ht.
    + intros x. rewrite with_trash_live, with_trash_in. destruct (decide (ty' = ty)) as [->|]; [|apply D3].
      intros [Hx|Hx]; [apply D3; by left|by apply Ht].
Qed.

(** More of a page is given out. *)
Lemma books_next H X U w a nx : books H X U w -> (forall n, alloc_next w !! a = Some n -> n <= nx) ->
  books H X U (set_alloc_next (<[a := nx]> (alloc_next w)) w) /\
  forall ty x, in_pages w ty x -> in_pages (set_alloc_next (<[a := nx]> (alloc_next w)) w) ty x.
Proof.
  intros [P O T A M] Hnx. set (w' := set_alloc_next _ w).
  assert (forall ty x, in_pages w ty x -> in_pages w' ty x) as Hin.
  { intros ty x (p & n & Hp & Hn & Hx & ?). exists p. change (paddr w' p) with (paddr w p). cbn. destruct (decide (a = paddr w p)) as [->|].
    - exists nx. rewrite lookup_insert_eq. specialize (Hnx n Hn). split_and!; [done|done|lia|lia|lia].
    - exists n. by rewrite lookup_insert_ne. }
  split; [|done]. split; [|by apply (owned_heads X w (heads w))|by apply (tasked_heads w (heads w))| |done].
  - by apply (placed_perm H H w); try done; apply P.
  - destruct A as [A1 A2]. split; [|done]. intros ty. destruct (A1 ty) as [D1 D2 D3 D4]. split; [done|by destruct ty| |].
    + intros x Hx. destruct (D3 x) as [?|?]; [by destruct ty|left; by apply Hin|by right].
    + intros p Hp. destruct (D4 p Hp) as (n & Hn & Hle). cbn. change (paddr w' p) with (paddr w p). destruct (decide (a = paddr w p)) as [->|].
      * exists nx. rewrite lookup_insert_eq. specialize (Hnx n Hn). split; [done|lia].
      * exists n. by rewrite lookup_insert_ne.
Qed.

(** A page that was free is the first one of its head. *)
Definition with_page (w : sysmem) (ty : alloc_type) (p : Z) : sysmem :=
  set_alloc_next (<[paddr w p := paddr w p + align_up sizeof_ptr]> (alloc_next w))
    (set_heads (upd_head ty (AllocHead (p :: alloc_pages (heads w ty)) (trash (heads w ty))) (heads w)) w).
Lemma with_page_pages w ty p ty' : alloc_pages (heads (with_page w ty p) ty') = if decide (ty' = ty) then p :: alloc_pages (heads w ty') else alloc_pages (heads w ty').
Proof. unfold with_page, upd_head. cbn. by destruct (decide (ty' = ty)) as [->|]. Qed.
Lemma with_page_trash w ty p ty' : trash (heads (with_page w ty p) ty') = trash (heads w ty').
Proof. unfold with_page, upd_head. cbn. by destruct (decide (ty' = ty)) as [->|]. Qed.
Lemma books_page H X U w ty p : books (p :: H) X U w -> books H X U (with_page w ty p).
Proof.
  intros [P O T A M].
  assert (forall ty' p', p' ∈ alloc_pages (heads w ty') -> paddr w p' <> paddr w p) as Hne.
  { intros ty' p' Hp'. apply (placed_apart (p :: H) w (heads_pages w) (free_page_list w ++ active_page_list w ++ reserved_page_list w ++ stored_in (c_hdrs w) ++ p :: H));
      [done|unfold places; perm|by eapply heads_page_place|set_solver]. }
  split; [|by apply owned_heads|by apply tasked_heads| |done].
  - apply (placed_perm (p :: H) H w); try done; [|apply P..]. unfold places. change (free_page_list (with_page w ty p)) with (free_page_list w).
    change (active_page_list (with_page w ty p)) with (active_page_list w). change (reserved_page_list (with_page w ty p)) with (reserved_page_list w).
    change (c_hdrs (with_page w ty p)) with (c_hdrs w). unfold heads_pages. rewrite !with_page_pages.
    destruct ty; repeat (case_decide; try done); perm.
  - destruct A as [A1 A2]. split; [|done]. intros ty'. destruct (A1 ty') as [D1 D2 D3 D4].
    assert (forall x, in_pages w ty' x -> in_pages (with_page w ty p) ty' x) as Hin.
    { intros x (p' & n & Hp' & Hn & Hx). exists p', n. rewrite with_page_pages. cbn. change (paddr (with_page w ty p) p') with (paddr w p').
      rewrite lookup_insert_ne by (apply not_eq_sym; by eapply Hne). split; [destruct (decide _); set_solver|done]. }
    split; rewrite ?with_page_trash; [done|by destruct ty'| |].
    + intros x Hx. destruct (D3 x) as [?|?]; [by destruct ty'|left; by apply Hin|by right].
    + intros p' Hp'. rewrite with_page_pages in Hp'. change (paddr (with_page w ty p) p') with (paddr w p'). cbn.
      assert (p' = p \/ p' ∈ alloc_pages (heads w ty')) as [->|Hold] by (destruct (decide _); set_solver).
      * exists (paddr w p + 4). rewrite lookup_insert_eq. split; [done|unfold sizeof_ptr; lia].
      * rewrite lookup_insert_ne by (apply not_eq_sym; by eapply Hne). by apply D4.
Qed.

(** ** Allocation *)

Lemma fresh_next H X U w ty p nx : books H X U w -> p ∈ alloc_pages (heads w ty) -> alloc_next w !! paddr w p = Some nx ->
  paddr w p <= nx < paddr w p + PAGE_SIZE -> ~ live w ty nx /\ nx ∉ trash (heads w ty).
Proof.
  intros [P _ _ [A _] _] Hp Hn Hr. destruct (A ty) as [D1 D2 D3 D4]. destruct (heads_usable H w ty p P Hp) as [Hu _].
  assert (~ (in_pages w ty nx \/ in_pool w ty nx)) as Hno.
  { intros [(p' & n & Hp' & Hn' & Hx & Hx2)|[_ Hx]].
    - assert (paddr w p' = paddr w p) as E by (apply (pages_apart _ _ nx); [apply paddr_page..|lia|done]).
      rewrite E, Hn in Hn'. injection Hn' as ->. lia.
    - unfold usable, PAGE_SIZE in *. lia. }
  split; intros Hx; apply Hno, D3; [by left|by right].
Qed.
Lemma carve_ok E H X U w ty p : books H X U w -> p ∈ alloc_pages (heads w ty) ->
  wp E (carve ty p) (fun o w' => books H X U w' /\ remains X w w' /\ match o with
    | Some x => fresh w' ty x
    | None => alloc_next w !! paddr w p <> Some (paddr w p + align_up sizeof_ptr) end) w.
Proof.
  intros HB Hp. destruct (ac_head _ (bk_allocated _ _ _ _ HB) ty) as [_ _ _ D4]. destruct (D4 p Hp) as (nx & Hn & Hle).
  destruct (heads_usable H w ty p (bk_placed _ _ _ _ HB) Hp) as [Hu Hpos].
  destruct (p_pages w !! p) as [q|] eqn:Hq; [|unfold paddr in Hpos; rewrite Hq in Hpos; lia]. pose proof (paddr_at _ _ _ Hq) as Ea.
  unfold carve. wp_steps. eapply wp_p_at; [done|]. wp_steps. rewrite <- Ea. eapply wp_of_some; [done|].
  unfold sizeof_ptr in *. destruct (Z.eqb_spec nx 0); [lia|]. rewrite align_sz. wp_steps.
  destruct (books_next H X U w (paddr w p) (nx + sz_of ty) HB) as [HB' Hin]. { intros n'. rewrite Hn. intros [= ->]. destruct ty; cbn; lia. }
  set (w' := set_alloc_next _ w) in *. assert (remains X w w') as R by apply (remains_heads X w (heads w)).
  destruct (Z.leb_spec (paddr w p + PAGE_SIZE) (nx + sz_of ty)) as [Hbig|Hfit].
  - wp_steps. split; [done|]. split; [done|]. rewrite Hn. change (align_up 4) with 4. intros [= ->].
    unfold PAGE_SIZE in Hbig. destruct ty; cbn in Hbig; lia.
  - wp_steps. apply wp_assert; [lia|]. wp_steps. apply wp_assert; [destruct ty; cbn in *; lia|]. wp_steps.
    split; [done|]. split; [done|]. assert (0 < sz_of ty) as Hsz by (by destruct ty).
    destruct (fresh_next H X U w ty p nx HB Hp Hn) as [F1 F2]; [lia|]. split; [by destruct ty|]. split; [done|].
    left. exists p, (nx + sz_of ty). cbn. change (paddr w' p) with (paddr w p). rewrite lookup_insert_eq. split_and!; try done; lia.
Qed.
Lemma sm_alloc_ok H U w ty : books H None U w ->
  wp no_memory (alloc ty) (fun x w' => books H None U w' /\ remains None w w' /\ fresh w' ty x) w.
Proof.
  intros HB. unfold alloc. wp_steps. destruct (trash (heads w ty)) as [|x tr] eqn:Et.
  - wp_steps. apply (wp_conseq _ _ (fun o w' => books H None U w' /\ remains None w w' /\ match o with Some x => fresh w' ty x | None => True end)).
    { destruct (alloc_pages (heads w ty)) as [|p l] eqn:Ep; [by wp_steps|]. eapply wp_conseq; [apply (carve_ok no_memory H None U w ty p HB); rewrite Ep; by left|].
      intros [x|] w' (? & ? & ?); done. }
    intros [x|] w1 (HB1 & R1 & Hx); [by wp_steps|]. unfold get_ram. wp_steps.
    eapply wp_conseq; [by apply (get_free_page_ok H None U)|]. intros p w2 [HB2 T2]. wp_steps. unfold set_head. wp_steps.
    assert (0 < paddr w2 p) as Hp by (apply (pl_pos _ _ (bk_placed _ _ _ _ HB2)); set_solver).
    destruct (p_pages w2 !! p) as [q|] eqn:Hq; [|unfold paddr in Hp; rewrite Hq in Hp; lia].
    eapply wp_p_at; [done|]. wp_steps. rewrite <- (paddr_at _ _ _ Hq). cbn [alloc_next set_heads]. change (set_alloc_next _ _) with (with_page w2 ty p).
    eapply wp_conseq; [apply (carve_ok no_memory H None U _ ty p (books_page H None U w2 ty p HB2))|].
    { rewrite with_page_pages, decide_True by done. by left. }
    assert (remains None w (with_page w2 ty p)) as R2.
    { trans w1; [done|]. trans w2; [by apply turned_remains|]. apply remains_heads. }
    intros [x|] w3 (HB3 & R3 & Hx3).
    + eapply wp_of_some; [done|]. split; [done|]. split; [by trans (with_page w2 ty p)|done].
    + exfalso. apply Hx3. cbn. change (paddr (with_page w2 ty p) p) with (paddr w2 p). by rewrite lookup_insert_eq.
  - unfold set_head. wp_steps. change (set_heads _ w) with (with_trash w ty tr).
    destruct (ac_head _ (bk_allocated _ _ _ _ HB) ty) as [D1 D2 D3 D4]. rewrite Et in D1, D2, D3. apply NoDup_cons in D1 as [Hx D1].
    split; [|split].
    + apply books_trash; [done|done|]. intros y Hy. split; [apply D2; by right|apply D3; right; by right].
    + apply (remains_heads None w _ (alloc_next w)).
    + split; [rewrite with_trash_live; apply D2; by left|]. rewrite with_trash_trash, decide_True by done. split; [done|].
      rewrite with_trash_in. apply D3. right. by left.
Qed.
End alloc.
