(* ===== verification/SysmemFaultProps.v ===== *)
(** Page faults: a task that appears has no memory, a page that is faulted on is there
    afterwards with the contents it had, and no other memory changes. *)
From S2P Require Import Prelude L4 Pages Sysmem SysmemOps SysmemProps SysmemReplProps SysmemClockProps SysmemTaskProps SysmemAllocProps.

Section fault.
Context `{LA : !L4Abi, SE : !SysmemEnv, LZ : !LZ4}.

(** ** What tasks can tell *)

(** The memory of the task [pid] at [a]: its flags and contents, if there are any yet *)
Definition memory (w : sysmem) (pid a : Z) : option (Z * option (list Z)) :=
  t ← systask_tree w !! pid; lp ← mem t !! a; l ← l_pages w !! lp; Some (flags l, content w lp).
Definition shape (w : sysmem) (pid : Z) : option (Z * Z * Z * Z) :=
  (fun t => (brk t, min_fault t, utcb_area t, kip_area t)) <$> systask_tree w !! pid.
(** What is not about tasks; the microkernel may have less mapped. *)
Record same_rest (w w' : sysmem) : Prop := SameRest {
  sr_reserved : reserved_page_list w' = reserved_page_list w;
  sr_info : sysinfo w' = sysinfo w;
  sr_sender : sm_sender w' = sm_sender w;
  sr_no_reply : sm_no_reply w' = sm_no_reply w;
  sr_p p : P_ADDRESS <$> p_pages w' !! p = P_ADDRESS <$> p_pages w !! p;
  sr_maps m : m ∈ mappings w' -> m ∈ mappings w
}.
#[export] Instance same_rest_preorder : PreOrder same_rest.
Proof.
  split; [intros w; split; eauto|]. intros w1 w2 w3 A B. split; intros; try (destruct A, B; congruence).
  - by apply (sr_maps _ _ A), (sr_maps _ _ B).
Qed.
Lemma remains_rest X w w' : remains X w w' -> same_rest w w'.
Proof. intros []. by split. Qed.
Lemma remains_memory X w w' pid a : remains X w w' ->
  (forall t lp, systask_tree w !! pid = Some t -> mem t !! a = Some lp -> fst <$> X <> Some lp) -> memory w' pid a = memory w pid a.
Proof.
  intros R Hx. unfold memory. rewrite (rm_tree _ _ _ R). destruct (systask_tree w !! pid) as [t|]; cbn; [|done].
  destruct (mem t !! a) as [lp|] eqn:Ha; cbn; [|done]. pose proof (rm_l _ _ _ R lp) as E.
  destruct (l_pages w !! lp) as [l|]; destruct (l_pages w' !! lp) as [l'|]; cbn in E; try done.
  injection E as E1 E2. cbn. rewrite E2, (rm_content _ _ _ R); [done|]. by eapply Hx.
Qed.
Lemma remains_shape X w w' pid : remains X w w' -> shape w' pid = shape w pid.
Proof. intros R. unfold shape. by rewrite (rm_tree _ _ _ R). Qed.
(** Only the memory of [task] at [addr] is different. *)
Record elsewhere (task addr : Z) (w w' : sysmem) : Prop := Elsewhere {
  ew_memory pid a : (pid, a) <> (task, addr) -> memory w' pid a = memory w pid a;
  ew_rest : same_rest w w'
}.
Lemma elsewhere_trans task addr w1 w2 w3 : elsewhere task addr w1 w2 -> elsewhere task addr w2 w3 -> elsewhere task addr w1 w3.
Proof. intros [A1 A2] [B1 B2]. split; [intros; by rewrite B1, A1|by etrans]. Qed.
Lemma remains_elsewhere c w w' task addr t lp : tasked w -> systask_tree w !! task = Some t -> mem t !! addr = Some lp ->
  remains (Some (lp, c)) w w' -> elsewhere task addr w w'.
Proof.
  intros T Ht Ha R. split; [|by eapply remains_rest]. intros pid a Hne. apply (remains_memory _ _ _ _ _ R). intros t' lp' Ht' Ha' [= ->].
  pose proof (tk_one _ T _ _ _ _ _ _ _ Ht Ht' Ha Ha') as <-. replace t' with t in Ha' by congruence.
  destruct (tk_mem _ T _ _ _ _ Ht Ha) as (_ & l & Hl & El), (tk_mem _ T _ _ _ _ Ht Ha') as (_ & l' & Hl' & El'). congruence.
Qed.
Lemma unchanged_elsewhere w w' task addr : remains None w w' -> elsewhere task addr w w'.
Proof. intros R. split; [|by eapply remains_rest]. intros pid a _. by apply (remains_memory None). Qed.

(** ** Tasks that appear *)

Definition sys_pid (pid : Z) : Prop := SNEKS_MIN_SYSID <= pid < 2 ^ 16.
Definition with_task (pid ptr : Z) (w : sysmem) : sysmem := set_tree (<[pid := new_task ptr pid]> (systask_tree w)) w.

Lemma owned_tree X w tr : owned X w -> owned X (set_tree tr w).
Proof. intros [O1 O2 O3 O4 O5 O6 O7 O8]. split; try done. intros c h Hc. destruct (O5 c h Hc). by split. Qed.
Lemma placed_tree H w tr : placed H w -> placed H (set_tree tr w).
Proof. intros P. apply (placed_perm H H w); try done; apply P. Qed.

Lemma with_task_books H U w pid ptr : books H None U w -> sys_pid pid -> systask_tree w !! pid = None -> fresh w ASystask ptr ->
  books H None U (with_task pid ptr w).
Proof.
  intros [P O [T1 T2 T3 T4] A M] Hpid Hno [F1 [F2 F3]]. set (w' := with_task pid ptr w).
  assert (forall pid' t, systask_tree w' !! pid' = Some t -> pid' = pid /\ t = new_task ptr pid \/ pid' <> pid /\ systask_tree w !! pid' = Some t) as Hcase.
  { intros pid' t. cbn. intros [[<- <-]|[? ?]]%lookup_insert_Some; [by left|right; auto]. }
  split; [by apply placed_tree|by apply owned_tree| | |].
  - split.
    + intros pid' t [[-> ->]|[Hne Ht]]%Hcase; [|by apply T1]. cbn. unfold sys_pid, SNEKS_MIN_SYSID in *. split; [|done].
      unfold u16. apply Z.mod_small. lia.
    + intros pid' t a lp [[-> ->]|[Hne Ht]]%Hcase Ha; [done|]. by apply (T2 pid' t).
    + intros pid1 pid2 t1 t2 a1 a2 lp [[-> ->]|[Hne1 Ht1]]%Hcase [[-> ->]|[Hne2 Ht2]]%Hcase Ha1 Ha2; try done. by apply (T3 pid1 pid2 t1 t2 a1 a2 lp).
    + intros lp l Hl. destruct (T4 lp l Hl) as (pid' & t & Ht & Ha). exists pid', t. split; [|done]. cbn.
      rewrite lookup_insert_ne; [done|]. intros ->. congruence.
  - destruct A as [A1 A2]. split.
    + intros ty. destruct (A1 ty) as [D1 D2 D3 D4].
      assert (forall x, live w' ty x <-> live w ty x \/ ty = ASystask /\ x = ptr) as Hlive.
      { intros x. destruct ty; cbn; [|naive_solver..]. split.
        - intros (pid' & t & [[-> ->]|[Hne Ht]]%Hcase & <-); [by right|left; eauto].
        - intros [(pid' & t & Ht & <-)|[_ ->]].
          + exists pid', t. rewrite lookup_insert_ne; [done|]. intros ->. congruence.
          + exists pid, (new_task ptr pid). by rewrite lookup_insert_eq. }
      split; [done| |intros x; rewrite Hlive|done].
      * intros x Hx. rewrite Hlive. intros [?|[-> ->]]; [by apply (D2 x)|done].
      * intros [[?|[-> ->]]|?]; [apply D3; auto|exact F3|apply D3; auto].
    + intros pid1 pid2 t1 t2 [[-> ->]|[Hne1 Ht1]]%Hcase [[-> ->]|[Hne2 Ht2]]%Hcase E; try done.
      * exfalso. apply F1. exists pid2, t2. by rewrite <- E.
      * exfalso. apply F1. exists pid1, t1. by rewrite E.
      * by apply (A2 pid1 pid2 t1 t2).
  - intros pa pid' a Hin Hu. destruct (M pa pid' a Hin Hu) as (p & q & lp & t & Hq & Hpa & Ho & Ht & Ha).
    exists p, q, lp, t. split_and!; try done. cbn. rewrite lookup_insert_ne; [done|]. intros ->. congruence.
Qed.

(** The task [pid] is there, as it was or without any memory. *)
Record present (pid : Z) (w w' : sysmem) : Prop := Present {
  pr_task : exists t, systask_tree w' !! pid = Some t /\ (systask_tree w !! pid = Some t
    \/ systask_tree w !! pid = None /\ exists ptr, t = new_task ptr pid);
  pr_other pid' : pid' <> pid -> systask_tree w' !! pid' = systask_tree w !! pid';
  pr_memory pid' a : memory w' pid' a = memory w pid' a;
  pr_rest : same_rest w w'
}.
Lemma get_task_ok H U w pid : books H None U w -> sys_pid pid ->
  wp no_memory (get_task pid) (fun r w' => r = pid /\ books H None U w' /\ present pid w w') w.
Proof.
  intros HB Hpid. unfold sys_pid, SNEKS_MIN_SYSID in Hpid. unfold get_task, find_task. wp_steps. apply wp_assert; [unfold SNEKS_MIN_SYSID; lia|].
  assert (u16 pid = pid) as E16 by (unfold u16; apply Z.mod_small; lia).
  replace (pid <? SNEKS_MIN_SYSID) with false by (unfold SNEKS_MIN_SYSID; lia). wp_steps.
  destruct (systask_tree w !! pid) as [t|] eqn:Et.
  - wp_steps. split; [by apply (tk_pid w (bk_tasked _ _ _ _ HB))|]. split; [done|]. split; [|done..]. exists t. auto.
  - wp_steps. eapply wp_conseq; [by apply (sm_alloc_ok H U)|]. intros ptr w1 (HB1 & R & F). unfold put_task. wp_steps.
    cbn [new_task task_pid]. rewrite E16, (rm_tree _ _ _ R), Et. wp_steps. rewrite (rm_tree _ _ _ R).
    replace (pid <? SNEKS_MIN_SYSID) with false by (unfold SNEKS_MIN_SYSID; lia). wp_steps. cbn [systask_tree set_tree].
    rewrite lookup_insert_eq. apply wp_assert; [by apply bool_decide_true|]. wp_steps. split; [done|].
    rewrite <- (rm_tree _ _ _ R). split; [apply (with_task_books H U w1); try done; by rewrite (rm_tree _ _ _ R)|].
    split; cbn.
    + exists (new_task ptr pid). rewrite lookup_insert_eq. eauto.
    + intros pid' Hne. by rewrite (rm_tree _ _ _ R), lookup_insert_ne.
    + intros pid' a. trans (memory w1 pid' a); [|by apply (remains_memory None)].
      unfold memory. cbn. destruct (decide (pid' = pid)) as [->|Hne]; [|by rewrite lookup_insert_ne].
      rewrite lookup_insert_eq, (rm_tree _ _ _ R), Et. done.
    + trans w1; [by eapply remains_rest|]. by split.
Qed.

(** ** New pages *)

(** [lp] is the page of [task] at [addr]. *)
Definition with_lpage (task addr pa fl lp : Z) (w : sysmem) : sysmem :=
  set_tree (alter (fun t => set_mem (<[addr := lp]> (mem t)) t) task (systask_tree w))
    (set_l_pages (<[lp := LPage addr pa fl]> (l_pages w)) w).

Section with_lpage.
Context (H U : list Z) (w : sysmem) (task addr pa fl lp : Z) (t : systask).
Context (HB : books H None U w) (Ht : systask_tree w !! task = Some t) (Ha : mem t !! addr = None)
  (Hal : has addr PAGE_MASK = false) (F : fresh w ALPage lp).
Let w' := with_lpage task addr pa fl lp w.

Lemma with_lpage_new : l_pages w !! lp = None.
Proof. destruct F as [F1 _]. cbn in F1. by destruct (l_pages w !! lp); [destruct F1|]. Qed.
Lemma with_lpage_l x : x <> lp -> l_pages w' !! x = l_pages w !! x.
Proof. intros Hx. cbn. by rewrite lookup_insert_ne. Qed.
Lemma with_lpage_lp : l_pages w' !! lp = Some (LPage addr pa fl).
Proof. cbn. apply lookup_insert_eq. Qed.
Lemma with_lpage_task : systask_tree w' !! task = Some (set_mem (<[addr := lp]> (mem t)) t).
Proof. cbn. by rewrite lookup_alter_eq, Ht. Qed.
Lemma with_lpage_other pid : pid <> task -> systask_tree w' !! pid = systask_tree w !! pid.
Proof. intros Hne. cbn. by rewrite lookup_alter_ne. Qed.
Lemma with_lpage_mem pid t' a x : systask_tree w' !! pid = Some t' -> mem t' !! a = Some x ->
  (pid = task /\ a = addr /\ x = lp) \/ (exists t0, systask_tree w !! pid = Some t0 /\ mem t0 !! a = Some x) /\ x <> lp.
Proof.
  intros Ht' Hx. assert (forall t0, systask_tree w !! pid = Some t0 -> mem t0 !! a = Some x -> x <> lp) as Hne.
  { intros t0 Ht0 Hx0 ->. destruct (tk_mem _ (bk_tasked _ _ _ _ HB) _ _ _ _ Ht0 Hx0) as (_ & l & Hl & _). rewrite with_lpage_new in Hl. done. }
  destruct (decide (pid = task)) as [->|Hp].
  - rewrite with_lpage_task in Ht'. injection Ht' as <-. cbn in Hx. apply lookup_insert_Some in Hx as [[<- <-]|[_ Hx]]; [by left|].
    right. split; [by exists t|by apply (Hne t)].
  - rewrite with_lpage_other in Ht' by done. right. split; [by exists t'|by apply (Hne t')].
Qed.
Lemma with_lpage_keeps pid t0 a x : systask_tree w !! pid = Some t0 -> mem t0 !! a = Some x ->
  exists t', systask_tree w' !! pid = Some t' /\ mem t' !! a = Some x /\ task_at t' = task_at t0.
Proof.
  intros Ht0 Hx. destruct (decide (pid = task)) as [->|Hp]; [|exists t0; by rewrite with_lpage_other].
  replace t0 with t in * by congruence. exists (set_mem (<[addr := lp]> (mem t)) t). rewrite with_lpage_task. cbn.
  rewrite lookup_insert_ne; [done|]. intros ->. congruence.
Qed.
Lemma with_lpage_task_at pid t' : systask_tree w' !! pid = Some t' -> exists t0, systask_tree w !! pid = Some t0 /\ (task_at t', task_pid t') = (task_at t0, task_pid t0).
Proof.
  destruct (decide (pid = task)) as [->|Hp]; [|rewrite with_lpage_other by done; by exists t'].
  rewrite with_lpage_task. intros [= <-]. by exists t.
Qed.
Lemma with_lpage_held p x : held_by w p x -> held_by w' p x.
Proof.
  intros (q & l & Hq & Ho & Hl & E). exists q, l. rewrite with_lpage_l; [done|]. intros ->. by rewrite with_lpage_new in Hl.
Qed.
Lemma with_lpage_owned : owned (Some (lp, None)) w'.
Proof.
  pose proof (bk_owned _ _ _ _ HB) as O. destruct O as [O1 O2 O3 O4 O5 O6 O7 O8]. split; try done.
  - intros p Hp. destruct (O2 p Hp) as (x & Hx). exists x. by apply with_lpage_held.
  - intros x l Hl Hx. rewrite with_lpage_l in Hl by (intros ->; by apply Hx).
    destruct (O3 x l Hl) as [?|[(p & ? & ?)|?]]; [done|by left| |by right; right]. right; left. exists p. split; [done|]. by apply with_lpage_held.
  - intros x c [= <- <-]. split; [done|]. split.
    + intros c h Hc Hs. destruct (ho_lp _ _ _ (O5 c h Hc) lp Hs) as (l & Hl & _). by rewrite with_lpage_new in Hl.
    + intros p (q & l & Hq & Ho & _). destruct (O2 p (O1 p q lp Hq Ho)) as (x & q' & l' & Hq' & Ho' & Hl' & _).
      change (p_pages w') with (p_pages w) in Hq. assert (x = lp) as -> by congruence. by rewrite with_lpage_new in Hl'.
  - intros c h Hc. destruct (O5 c h Hc) as [K1 K2 K3 K4 K5 K6]. split; try done. intros x Hx. destruct (K3 x Hx) as (l & Hl & E).
    exists l. rewrite with_lpage_l; [done|]. intros ->. by rewrite with_lpage_new in Hl.
  - intros c. change (buddy_list w') with (buddy_list w). rewrite O6. split; intros [_ ?]; done.
Qed.
Lemma with_lpage_tasked : tasked w'.
Proof.
  destruct (bk_tasked _ _ _ _ HB) as [T1 T2 T3 T4]. split.
  - intros pid t' (t0 & Ht0 & [= E1 E2])%with_lpage_task_at. rewrite E2. by apply T1.
  - intros pid t' a x Ht' Hx. destruct (with_lpage_mem _ _ _ _ Ht' Hx) as [(-> & -> & ->)|((t0 & Ht0 & Hx0) & Hne)].
    + split; [done|]. exists (LPage addr pa fl). by rewrite with_lpage_lp.
    + rewrite with_lpage_l by done. by apply (T2 pid t0).
  - intros pid pid' t1 t2 a1 a2 x Ht1 Ht2 Hx1 Hx2.
    destruct (with_lpage_mem _ _ _ _ Ht1 Hx1) as [(-> & _ & ->)|((s1 & Hs1 & Hy1) & Hne1)],
      (with_lpage_mem _ _ _ _ Ht2 Hx2) as [(-> & _ & E)|((s2 & Hs2 & Hy2) & Hne2)]; try done. by apply (T3 pid pid' s1 s2 a1 a2 x).
  - intros x l Hl. destruct (decide (x = lp)) as [->|Hne].
    + rewrite with_lpage_lp in Hl. injection Hl as <-. exists task, (set_mem (<[addr := lp]> (mem t)) t). rewrite with_lpage_task. cbn.
      by rewrite lookup_insert_eq.
    + rewrite with_lpage_l in Hl by done. destruct (T4 x l Hl) as (pid & t0 & Ht0 & Hx).
      destruct (with_lpage_keeps _ _ _ _ Ht0 Hx) as (t' & ? & ? & _). by exists pid, t'.
Qed.
Lemma with_lpage_allocated : allocated w'.
Proof.
  destruct (bk_allocated _ _ _ _ HB) as [A1 A2]. destruct F as [F1 [F2 F3]]. split.
  - intros ty. destruct (A1 ty) as [D1 D2 D3 D4].
    assert (forall x, live w' ty x -> live w ty x \/ ty = ALPage /\ x = lp) as Hlive.
    { intros x. destruct ty; [|by left|].
      - intros (pid & t' & (t0 & Ht0 & [= E _])%with_lpage_task_at & <-). left. exists pid, t0. by rewrite E.
      - cbn. intros [l [[<- _]|[_ Hl]]%lookup_insert_Some]; [by right|left; by exists l]. }
    split; [done| | |done].
    + intros x Hx [?|[-> ->]]%Hlive; [by apply (D2 x)|done].
    + intros x [[?|[-> ->]]%Hlive|?]; [apply D3; auto|exact F3|apply D3; auto].
  - intros pid pid' t1 t2 (s1 & Hs1 & [= E1 _])%with_lpage_task_at (s2 & Hs2 & [= E2 _])%with_lpage_task_at E.
    apply (A2 pid pid' s1 s2); congruence.
Qed.
Lemma with_lpage_books : books H (Some (lp, None)) U w'.
Proof.
  split; [|apply with_lpage_owned|apply with_lpage_tasked|apply with_lpage_allocated|].
  - apply (placed_tree H (set_l_pages _ w)), (placed_perm H H w); try done; apply HB.
  - intros p pid a Hin Hu. destruct (bk_mapped _ _ _ _ HB p pid a Hin Hu) as (x & q & y & t0 & Hq & Hpa & Ho & Ht0 & Hx).
    destruct (with_lpage_keeps _ _ _ _ Ht0 Hx) as (t' & ? & ? & _). by exists x, q, y, t'.
Qed.
Lemma with_lpage_memory pid a : (pid, a) <> (task, addr) -> memory w' pid a = memory w pid a.
Proof.
  intros Hne. unfold memory. assert (forall x, x <> lp -> content w' x = content w x) as Hc.
  { intros x Hx. unfold content. by rewrite with_lpage_l. }
  destruct (decide (pid = task)) as [->|Hp].
  - rewrite with_lpage_task, Ht. cbn [mbind option_bind set_mem mem]. rewrite lookup_insert_ne by congruence.
    destruct (mem t !! a) as [x|] eqn:Hx; cbn; [|done]. destruct (tk_mem _ (bk_tasked _ _ _ _ HB) _ _ _ _ Ht Hx) as (_ & l & Hl & _).
    assert (x <> lp) as Hxl by (intros ->; by rewrite with_lpage_new in Hl). rewrite lookup_insert_ne, Hl by done. cbn. by rewrite Hc.
  - rewrite with_lpage_other by done. destruct (systask_tree w !! pid) as [t0|] eqn:Ht0; cbn [mbind option_bind]; [|done].
    destruct (mem t0 !! a) as [x|] eqn:Hx; cbn; [|done]. destruct (tk_mem _ (bk_tasked _ _ _ _ HB) _ _ _ _ Ht0 Hx) as (_ & l & Hl & _).
    assert (x <> lp) as Hxl by (intros ->; by rewrite with_lpage_new in Hl). rewrite lookup_insert_ne, Hl by done. cbn. by rewrite Hc.
Qed.
Lemma with_lpage_shape pid : shape w' pid = shape w pid.
Proof.
  unfold shape. destruct (decide (pid = task)) as [->|]; [by rewrite with_lpage_task, Ht|by rewrite with_lpage_other].
Qed.
End with_lpage.

(** A page that nothing was stored in has what it needs. *)
Lemma settle_page H U w lp l : books H (Some (lp, None)) U w -> l_pages w !! lp = Some l -> p_addr l = 0 -> books H None U w.
Proof.
  intros [P [O1 O2 O3 O4 O5 O6 O7 O8] T A M] Hl Hz. split; try done. split; try done.
  - intros x l' Hl' _. destruct (decide (x = lp)) as [->|Hne]; [left; congruence|]. apply O3; [done|]. by intros [= ->].
  - intros c. rewrite O6. split; intros [_ ?]; done.
Qed.

(** ** Faults *)

(** [lp] is the page of [task] at [addr]; what other memory there is, is as it was. *)
Record at_page (task addr lp : Z) (w w' : sysmem) : Prop := AtPage {
  ap_task : exists t, systask_tree w' !! task = Some t /\ mem t !! addr = Some lp;
  ap_else : elsewhere task addr w w';
  ap_shape pid : shape w' pid = shape w pid
}.
Lemma at_page_remains c task addr lp w1 w2 w3 : tasked w2 -> at_page task addr lp w1 w2 -> remains (Some (lp, c)) w2 w3 ->
  at_page task addr lp w1 w3.
Proof.
  intros T [(t & Ht & Ha) E S] R. split.
  - exists t. by rewrite (rm_tree _ _ _ R).
  - eapply elsewhere_trans; [done|]. by eapply remains_elsewhere.
  - intros pid. by rewrite (remains_shape _ _ _ _ R).
Qed.
Lemma new_lpage_ok H U w task addr pa fl t : books H None U w -> systask_tree w !! task = Some t -> mem t !! addr = None ->
  has addr PAGE_MASK = false -> wp no_memory (new_lpage task addr pa fl) (fun lp w' =>
    books H (Some (lp, None)) U w' /\ l_pages w' !! lp = Some (LPage addr pa fl) /\ at_page task addr lp w w') w.
Proof.
  intros HB Ht Ha Hal. unfold new_lpage. wp_steps. eapply wp_conseq; [by apply (sm_alloc_ok H U)|]. intros lp w1 (HB1 & R & F).
  rewrite <- (rm_tree _ _ _ R) in Ht. unfold put_lpage. wp_steps. eapply wp_task_of; [done|]. wp_steps.
  eapply wp_l_at; [cbn; apply lookup_insert_eq|]. cbn [l_addr]. rewrite Ha. unfold task_upd. wp_steps.
  change (set_tree _ _) with (with_lpage task addr pa fl lp w1).
  split; [by eapply with_lpage_books|]. split; [apply with_lpage_lp|]. split.
  - exists (set_mem (<[addr := lp]> (mem t)) t). rewrite (with_lpage_task w1 _ _ _ _ _ t) by done. split; [done|]. cbn. apply lookup_insert_eq.
  - apply (elsewhere_trans _ _ w w1); [by apply unchanged_elsewhere|]. split; [intros; by eapply (with_lpage_memory H U)|].
    by split.
  - intros pid. rewrite (with_lpage_shape w1 _ _ _ _ _ t) by done. by apply (remains_shape None).
Qed.

(** What a fault makes of memory: contents stay, and there are some afterwards. *)
Definition faulted (before after : option (Z * option (list Z))) : Prop := exists f,
  after = Some (default 0 (fst <$> before), Some f) /\ forall g, before ≫= snd = Some g -> f = g.
Lemma memory_at w task t addr lp l : systask_tree w !! task = Some t -> mem t !! addr = Some lp -> l_pages w !! lp = Some l ->
  memory w task addr = Some (flags l, content w lp).
Proof. intros Ht Ha Hl. unfold memory. rewrite Ht. cbn. rewrite Ha. cbn. by rewrite Hl. Qed.
Lemma memory_task w pid a m : memory w pid a = Some m -> exists t lp l, systask_tree w !! pid = Some t /\ mem t !! a = Some lp
  /\ l_pages w !! lp = Some l /\ m = (flags l, content w lp).
Proof.
  unfold memory. destruct (systask_tree w !! pid) as [t|] eqn:Et; cbn; [|done]. destruct (mem t !! a) as [lp|] eqn:Ea; cbn; [|done].
  destruct (l_pages w !! lp) as [l|] eqn:El; cbn; [|done]. intros [= <-]. by exists t, lp, l.
Qed.
Lemma settled_memory H U c task addr lp f w w' l t : tasked w -> systask_tree w !! task = Some t -> mem t !! addr = Some lp ->
  l_pages w !! lp = Some l -> settled H U lp f w w' -> remains (Some (lp, c)) w w' ->
  memory w' task addr = Some (flags l, Some f).
Proof.
  intros T Ht Ha Hl S R. pose proof (rm_l _ _ _ R lp) as E. rewrite Hl in E.
  destruct (l_pages w' !! lp) as [l'|] eqn:Hl'; [|done]. injection E as _ E.
  rewrite (memory_at w' task t addr lp l'); [by rewrite E, (st_content _ _ _ _ _ _ S)| |done..]. by rewrite (rm_tree _ _ _ R).
Qed.

(** A fault can be answered. *)
Definition backed (w : sysmem) (o : option Z) : Prop :=
  forall lp l, o = Some lp -> l_pages w !! lp = Some l -> p_addr l = 0 -> flags l <> 0.
Lemma fault_page_ok H U w task addr t : books H None U w -> systask_tree w !! task = Some t -> has addr PAGE_MASK = false ->
  backed w (mem t !! addr) -> wp no_memory (fault_page task addr (mem t !! addr)) (fun lp w' => books H None U w'
    /\ at_page task addr lp w w' /\ (exists p, p ∈ active_page_list w' /\ held_by w' p lp)
    /\ faulted (memory w task addr) (memory w' task addr)) w.
Proof.
  intros HB Ht Hal Hb. pose proof (bk_tasked _ _ _ _ HB) as T.
  assert (forall w0 lp l w1 (f : list Z), books H (Some (lp, None)) U w0 -> at_page task addr lp w w0 -> l_pages w0 !! lp = Some l ->
    memory w task addr = None /\ flags l = 0 \/ memory w task addr = Some (flags l, None) \/ memory w task addr = Some (flags l, Some f) ->
    settled H U lp f w0 w1 -> books H None U w1 /\ at_page task addr lp w w1 /\ (exists p, p ∈ active_page_list w1 /\ held_by w1 p lp)
      /\ faulted (memory w task addr) (memory w1 task addr)) as Hdone.
  { intros w0 lp l w1 f HB0 AP Hl Hm S. pose proof AP as [(t0 & Ht0 & Ha0) _ _]. split; [apply S|].
    split; [eapply at_page_remains; [apply HB0|done|apply S]|]. split; [apply S|]. exists f.
    rewrite (settled_memory H U None task addr lp f w0 w1 l t0) by (done || apply HB0 || apply S).
    destruct Hm as [[-> E]|[-> | ->]]; cbn; rewrite ?E; split; try done; by intros g [= ->]. }
  assert (forall lp l, books H (Some (lp, None)) U w -> mem t !! addr = Some lp -> l_pages w !! lp = Some l -> content w lp = None ->
    wp no_memory (phys ← get_free_page; _ ← give_page lp phys; mret lp) (fun lp w' => books H None U w'
      /\ at_page task addr lp w w' /\ (exists p, p ∈ active_page_list w' /\ held_by w' p lp)
      /\ faulted (memory w task addr) (memory w' task addr)) w) as Hzero.
  { intros lp l HB0 Ha Hl Hc. wp_steps. eapply wp_conseq; [by apply (get_free_page_ok H (Some (lp, None)) U)|]. intros p w1 [HB1 T1]. wp_steps.
    destruct (tn_x _ _ _ T1 lp None eq_refl) as [Hl1 _]. eapply wp_conseq.
    - eapply (give_page_ok _ H U w w1 p lp l); [done|by rewrite Hl1|by apply turned_remains].
    - intros _ w2 (f & S). wp_steps. apply (Hdone w lp l w2 f); [done| |done| |done].
      + split; [by exists t| |done]. by split.
      + right; left. by rewrite (memory_at w task t addr lp l), Hc. }
  unfold fault_page. destruct (mem t !! addr) as [lp|] eqn:Ha.
  - destruct (tk_mem _ T _ _ _ _ Ht Ha) as (_ & l & Hl & El). wp_steps. eapply wp_l_at; [done|]. wp_steps.
    assert (at_page task addr lp w w) as AP by (split; [by exists t|by split|done]).
    destruct (Z.eqb_spec (p_addr l) 0) as [Hz|Hz]; [|destruct (has (p_addr l) LF_SWAP) eqn:Hs].
    + wp_steps. apply wp_assert; [by destruct (Z.eqb_spec (flags l) 0) as [E|E]; [destruct (Hb lp l)|]|].
      apply (Hzero lp l); [by eapply await_page|done|done|]. unfold content. rewrite Hl. cbn. by rewrite Hz.
    + apply wp_assoc. wp_step. eapply wp_conseq; [by apply (expand_ok H U w lp l)|]. intros _ w1 (f & Hf & S). wp_steps.
      split; [apply S|]. split; [eapply at_page_remains; [exact T|done|apply S]|]. split; [apply S|]. exists f.
      rewrite (settled_memory H U None task addr lp f w w1 l t) by (done || apply S). rewrite (memory_at w task t addr lp l), Hf by done.
      split; [done|]. cbn. congruence.
    + wp_steps. split; [done|]. split; [done|].
      destruct (ow_lpage _ _ (bk_owned _ _ _ _ HB) lp l Hl) as [?|[(p & Hp & Hh)|(Hs' & _)]]; [done|done| |congruence].
      split; [by exists p|]. exists (frame w (paddr w p)). rewrite (memory_at w task t addr lp l) by done.
      rewrite (content_resident w p lp Hh); [split; [done|cbn; congruence]|]. apply (pl_pos _ _ (bk_placed _ _ _ _ HB)). by apply active_place.
  - wp_steps. eapply wp_conseq; [by apply (new_lpage_ok H U w task addr 0 0 t)|]. intros lp w1 (HB1 & Hl1 & AP). wp_steps.
    eapply wp_conseq; [by apply (get_free_page_ok H (Some (lp, None)) U)|]. intros p w2 [HB2 T2]. wp_steps.
    destruct (tn_x _ _ _ T2 lp None eq_refl) as [Hl2 _]. eapply wp_conseq.
    + eapply (give_page_ok _ H U w1 w2 p lp); [done|by rewrite Hl2|by apply turned_remains].
    + intros _ w3 (f & S). wp_steps. apply (Hdone w1 lp (LPage addr 0 0) w3 f); [done|done|done| |done].
      left. split; [|done]. unfold memory. rewrite Ht. cbn. by rewrite Ha.
Qed.

(** Changes to tasks, apart from their memory *)
Definition with_shape (f : systask -> systask) (pid : Z) (w : sysmem) : sysmem := set_tree (alter f pid (systask_tree w)) w.
Lemma with_shape_books H X U f pid w : (forall t, t_core (f t) = t_core t) -> books H X U w -> books H X U (with_shape f pid w).
Proof.
  intros Hf. apply alike_books. split; try done; auto. intros x. cbn. destruct (decide (x = pid)) as [->|].
  - rewrite lookup_alter_eq. destruct (systask_tree w !! pid) as [t|]; cbn; [|done]. by rewrite Hf.
  - by rewrite lookup_alter_ne.
Qed.
Lemma with_shape_tree f pid w x t : (forall t, mem (f t) = mem t) -> systask_tree w !! x = Some t ->
  exists t', systask_tree (with_shape f pid w) !! x = Some t' /\ mem t' = mem t.
Proof.
  intros Hf Ht. cbn. destruct (decide (x = pid)) as [->|]; [|exists t; by rewrite lookup_alter_ne].
  exists (f t). by rewrite lookup_alter_eq, Ht, Hf.
Qed.
Lemma with_shape_memory f pid w x a : (forall t, mem (f t) = mem t) -> memory (with_shape f pid w) x a = memory w x a.
Proof.
  intros Hf. unfold memory. cbn. destruct (decide (x = pid)) as [->|]; [|by rewrite lookup_alter_ne].
  rewrite lookup_alter_eq. destruct (systask_tree w !! pid) as [t|]; cbn; [|done]. by rewrite Hf.
Qed.
Lemma with_shape_shape f pid w x : shape (with_shape f pid w) x =
  if decide (x = pid) then (fun t => (brk (f t), min_fault (f t), utcb_area (f t), kip_area (f t))) <$> systask_tree w !! pid else shape w x.
Proof.
  unfold shape. cbn. destruct (decide (x = pid)) as [->|]; [|by rewrite lookup_alter_ne].
  rewrite lookup_alter_eq. by destruct (systask_tree w !! pid).
Qed.

(** The shape of a task that has not been heard of *)
Definition new_shape : Z * Z * Z * Z := (0x10000, bnot32 PAGE_MASK, L4_Nilpage, L4_Nilpage).
Definition low_at (a : Z) (s : Z * Z * Z * Z) : Z * Z * Z * Z := let '(b, low, u, k) := s in (b, Z.min low a, u, k).
Lemma present_shape pid w w' : present pid w w' -> shape w' pid = Some (default new_shape (shape w pid))
  /\ forall x, x <> pid -> shape w' x = shape w x.
Proof.
  intros [(t & Ht & Hw) Ho _ _]. unfold shape. split; [|by intros x Hx; rewrite Ho].
  rewrite Ht. destruct Hw as [->|[-> [ptr ->]]]; done.
Qed.

(** The fault at [addr] of [pid] can be answered. *)
Definition answerable (w : sysmem) (pid addr : Z) : Prop :=
  (memory w pid addr = None -> addr <= (default new_shape (shape w pid)).1.1.1)
  /\ memory w pid addr <> Some (0, None).
Record answered (pid addr : Z) (w w' : sysmem) : Prop := Answered {
  an_memory : faulted (memory w pid addr) (memory w' pid addr);
  an_else : elsewhere pid addr w w';
  an_shape : shape w' pid = Some (low_at addr (default new_shape (shape w pid)));
  an_shapes x : x <> pid -> shape w' x = shape w x
}.

Lemma get_lpage_ok E w task addr t (Q : option Z -> sysmem -> Prop) : has addr PAGE_MASK = false -> systask_tree w !! task = Some t ->
  Q (mem t !! addr) w -> wp E (get_lpage task addr) Q w.
Proof. intros Hal Ht HQ. unfold get_lpage. wp_steps. apply wp_assert; [by rewrite Hal|]. wp_steps. by eapply wp_task_of. Qed.
Lemma memory_none w pid t addr : tasked w -> systask_tree w !! pid = Some t -> memory w pid addr = None -> mem t !! addr = None.
Proof.
  intros T Ht. unfold memory. rewrite Ht. cbn. destruct (mem t !! addr) as [lp|] eqn:Ha; [|done]. cbn.
  destruct (tk_mem _ T _ _ _ _ Ht Ha) as (_ & l & Hl & _). by rewrite Hl.
Qed.
Lemma content_zero w lp l : l_pages w !! lp = Some l -> p_addr l = 0 -> content w lp = None.
Proof. intros Hl Hz. unfold content. rewrite Hl. cbn. by rewrite Hz. Qed.

Lemma content_some H U w lp l : books H None U w -> l_pages w !! lp = Some l -> p_addr l <> 0 -> content w lp <> None.
Proof.
  intros HB Hl Hz. destruct (ow_lpage _ _ (bk_owned _ _ _ _ HB) lp l Hl) as [?|[(p & Hp & Hh)|(Hs & h & Hh & Hst)]]; [done|done| |].
  - rewrite (content_resident w p lp Hh); [done|]. apply (pl_pos _ _ (bk_placed _ _ _ _ HB)). by apply active_place.
  - destruct (stored_data H U w _ lp h HB Hh Hst) as (d & _ & _ & E). by rewrite E.
Qed.

Lemma handle_pf_ok U w tid faddr : let pid := pid_of tid in let addr := page_of faddr in
  books [] None U w -> addr <> 0 -> sys_pid pid -> answerable w pid addr ->
  wp no_memory (handle_pf tid faddr) (fun o w' => books [] None U w' /\ answered pid addr w w'
    /\ exists pa, o = Some (pa, (pid, addr)) /\ maps_to w' pa pid addr) w.
Proof.
  intros pid addr HB Hz Hpid [Hbrk Hback]. unfold handle_pf. fold pid addr.
  destruct (Z.eqb_spec addr 0); [done|]. wp_steps. eapply wp_conseq; [by apply (get_task_ok [] U)|].
  intros r w1 (-> & HB1 & PR). wp_steps. pose proof (present_shape _ _ _ PR) as [S1 S2].
  destruct (pr_task _ _ _ PR) as (t & Ht & _). destruct (page_of_aligned faddr) as [Hal _]. fold addr in Hal.
  pose proof (bk_tasked _ _ _ _ HB1) as T1. eapply get_lpage_ok; [done|done|]. wp_steps. eapply wp_task_of; [done|].
  assert (brk t = (default new_shape (shape w pid)).1.1.1) as Eb.
  { unfold shape in S1 at 1. rewrite Ht in S1. injection S1 as S1. by rewrite <- S1. }
  assert (bool_decide (mem t !! addr = None) && (brk t <? addr) = false) as ->.
  { destruct (decide (mem t !! addr = None)) as [Ha|Ha]; [|by rewrite bool_decide_false]. rewrite bool_decide_true by done. cbn.
    rewrite Eb. apply Z.ltb_ge, Hbrk. rewrite <- (pr_memory _ _ _ PR). unfold memory. rewrite Ht. cbn. by rewrite Ha. }
  assert (backed w1 (mem t !! addr)) as Hb.
  { intros lp l Ha Hl Hzl Hf. apply Hback. rewrite <- (pr_memory _ _ _ PR), (memory_at w1 pid t addr lp l), Hf by done.
    by rewrite (content_zero w1 lp l). }
  wp_steps. eapply wp_conseq; [by apply (fault_page_ok [] U w1 pid addr t)|]. intros lp w2 (HB2 & AP & (p & Hp & Hh) & Hf).
  unfold task_upd. wp_steps. change (set_tree _ w2) with (with_shape (fun t => set_shape (brk t) (Z.min (min_fault t) addr) t) pid w2).
  set (w3 := with_shape _ _ w2). assert (books [] None U w3) as HB3 by by apply with_shape_books.
  pose proof Hh as (q & l & Hq & Ho & Hl & El). eapply wp_l_at; [done|]. wp_steps.
  assert (page_of (p_addr l) = P_ADDRESS q) as Epa by (rewrite El; apply P_ADDRESS_page).
  assert (0 < P_ADDRESS q) as Hpos.
  { rewrite <- (paddr_at _ _ _ Hq). apply (pl_pos _ _ (bk_placed _ _ _ _ HB2)). by apply active_place. }
  rewrite Epa. apply wp_assert; [destruct (Z.eqb_spec (P_ADDRESS q) 0); [lia|done]|]. wp_steps.
  split; [done|]. destruct AP as [(t2 & Ht2 & Ha2) [E1 E2] E3]. split; [split|].
  - unfold w3. rewrite with_shape_memory by done. by rewrite <- (pr_memory _ _ _ PR).
  - split; [intros x a Hne; unfold w3; by rewrite with_shape_memory, E1, (pr_memory _ _ _ PR)|].
    trans w1; [apply PR|]. trans w2; [done|]. by split.
  - unfold w3. rewrite with_shape_shape, decide_True, Ht2 by done. cbn. rewrite <- E3 in S1. unfold shape in S1 at 1. rewrite Ht2 in S1.
    injection S1 as <-. done.
  - intros x Hx. unfold w3. by rewrite with_shape_shape, decide_False, E3, S2.
  - exists (P_ADDRESS q). split; [done|].
    destruct (with_shape_tree (fun t => set_shape (brk t) (Z.min (min_fault t) addr) t) pid w2 pid t2 ltac:(done) Ht2) as (t3 & Ht3 & Em).
    exists p, q, lp, t3. by rewrite Em.
Qed.
(** Why a fault is not answered: there is no memory, the task is not one of the system's,
    or there is nothing where it faulted. *)
Definition pf_stops (w : sysmem) (pid addr : Z) (r : stop) : Prop :=
  r = StPanic
  \/ (r = StAssert /\ (pid < SNEKS_MIN_SYSID \/ memory w pid addr = Some (0, None)))
  \/ (r = StAbort /\ memory w pid addr = None /\ (default new_shape (shape w pid)).1.1.1 < addr).
Definition pf_outcome (pid addr : Z) (w : sysmem) (o : option mapping) (w' : sysmem) : Prop :=
  if decide (addr = 0) then o = None /\ w' = w
  else sys_pid pid /\ answerable w pid addr /\ answered pid addr w w'
    /\ exists pa, o = Some (pa, (pid, addr)) /\ maps_to w' pa pid addr.
Lemma pid_of_range tid : pid_of tid < 2 ^ 16.
Proof. apply pidof_range. Qed.
Lemma handle_pf_all w tid faddr : let pid := pid_of tid in let addr := page_of faddr in
  sysmem_ok w -> wp (pf_stops w pid addr) (handle_pf tid faddr) (fun o w' => sysmem_ok w' /\ pf_outcome pid addr w o w') w.
Proof.
  intros pid addr HB. unfold pf_outcome. destruct (decide (addr = 0)) as [Hz|Hz].
  { unfold handle_pf. fold addr. rewrite Hz. cbn. by wp_steps. }
  destruct (decide (pid < SNEKS_MIN_SYSID)) as [Hlt|Hge].
  { unfold handle_pf, get_task. fold addr pid. destruct (Z.eqb_spec addr 0); [done|]. wp_steps.
    apply wp_assert_false; [by apply Z.leb_gt|]. right; left. auto. }
  assert (sys_pid pid) as Hpid by (split; [lia|apply pid_of_range]). destruct (page_of_aligned faddr) as [Hal _]. fold addr in Hal.
  assert (answerable w pid addr -> wp (pf_stops w pid addr) (handle_pf tid faddr) (fun o w' => sysmem_ok w' /\ sys_pid pid
    /\ answerable w pid addr /\ answered pid addr w w' /\ exists pa, o = Some (pa, (pid, addr)) /\ maps_to w' pa pid addr) w) as Hok.
  { intros Hans. eapply wp_mono; [eapply wp_conseq; [by apply (handle_pf_ok [] w tid faddr)|]|intros r ->; by left].
    intros o w' (? & ? & ?). split_and!; done. }
  destruct (memory w pid addr) as [[fl [c|]]|] eqn:Em.
  - apply Hok. split; rewrite Em; done.
  - destruct (decide (fl = 0)) as [->|Hfl]; [|apply Hok; split; rewrite Em; congruence].
    unfold handle_pf. fold addr pid. destruct (Z.eqb_spec addr 0); [done|]. wp_steps.
    eapply wp_mono; [eapply wp_conseq; [by apply (get_task_ok [] [])|]|intros r ->; by left].
    intros r w1 (-> & HB1 & PR). rewrite <- (pr_memory _ _ _ PR) in Em. destruct (memory_task _ _ _ _ Em) as (t & lp & l & Ht & Ha & Hl & E2).
    wp_steps. eapply get_lpage_ok; [done|done|]. wp_steps. eapply wp_task_of; [done|]. rewrite Ha. cbn [bool_decide andb].
    rewrite bool_decide_false by done. cbn [andb]. unfold fault_page. wp_steps. eapply wp_l_at; [done|]. wp_steps.
    assert (p_addr l = 0) as ->. { destruct (decide (p_addr l = 0)) as [|Hnz]; [done|]. by destruct (content_some [] [] w1 lp l HB1 Hl Hnz); injection E2. }
    cbn [Z.eqb]. wp_steps. injection E2 as E2 _. rewrite <- E2. apply wp_assert_false; [done|]. right; left. split; [done|].
    right. by rewrite <- (pr_memory _ _ _ PR).
  - destruct (decide ((default new_shape (shape w pid)).1.1.1 < addr)) as [Hlt|Hle]; [|apply Hok; split; rewrite Em; [lia|done]].
    unfold handle_pf. fold addr pid. destruct (Z.eqb_spec addr 0); [done|]. wp_steps.
    eapply wp_mono; [eapply wp_conseq; [by apply (get_task_ok [] [])|]|intros r ->; by left].
    intros r w1 (-> & HB1 & PR). pose proof (present_shape _ _ _ PR) as [S1 _]. destruct (pr_task _ _ _ PR) as (t & Ht & _).
    wp_steps. eapply get_lpage_ok; [done|done|]. wp_steps. eapply wp_task_of; [done|].
    rewrite (memory_none w1 pid t addr) by (apply HB1 || done || by rewrite (pr_memory _ _ _ PR)). rewrite bool_decide_true by done. cbn [andb].
    assert (brk t = (default new_shape (shape w pid)).1.1.1) as ->.
    { unfold shape in S1 at 1. rewrite Ht in S1. injection S1 as S1. by rewrite <- S1. }
    replace (_ <? addr) with true by lia. wp_steps. right; right. auto.
Qed.
(** What a task is given is mapped. *)
Lemma map_page_ok H X U m w : books H X U w -> maps_to w m.1 m.2.1 m.2.2 -> books H X U (set_mappings (m :: mappings w) w).
Proof.
  intros [P O T A M] Hm. split; try done.
  - by apply (placed_perm H H w); try done; apply P.
  - destruct O as [O1 O2 O3 O4 O5 O6 O7 O8]. split; try done. intros c h Hc. destruct (O5 c h Hc). by split.
  - destruct T. by split.
  - destruct A as [A1 A2]. split; [|done]. intros ty. destruct (A1 ty) as [D1 D2 D3 D4]. split; [done|by destruct ty|by destruct ty|done].
  - intros pa pid a. cbn. intros [<-|Hin]%elem_of_cons Hu; [done|by apply M].
Qed.
End fault.
