(* ===== verification/SysmemDropProps.v ===== *)
(** Removal of memory: a page that a task gives up is unmapped before anything else is done
    with it, and no other memory changes. *)
From S2P Require Import Prelude L4 Pages Sysmem SysmemOps SysmemProps SysmemReplProps SysmemClockProps SysmemTaskProps SysmemAllocProps SysmemFaultProps.

Section drop.
Context `{LA : !L4Abi, SE : !SysmemEnv, LZ : !LZ4}.

(** ** Unmapping in batches *)

Definition pend (fp : batch) : list Z := default [] fp.
Lemma quiet_rest w w' : quiet w w' -> same_rest w w'.
Proof. intros Q. by eapply remains_rest, turned_remains, (quiet_turned None). Qed.
(** The pages [l] have been unmapped. *)
Lemma unmapped_all l w w' : unmapped ((fun a => (a, L4_FullyAccessible)) <$> l) w w' ->
  forall m, m ∈ mappings w' -> m ∈ mappings w /\ m.1 ∉ l.
Proof.
  intros (_ & _ & E) m. rewrite E, list_elem_of_filter. intros [Hm ?]. split; [done|]. intros Hl. apply Hm.
  rewrite list_elem_of_fmap. exists (m.1, L4_FullyAccessible). split; [done|]. rewrite list_elem_of_filter. split; [done|].
  by apply (list_elem_of_fmap_2 (fun a => (a, L4_FullyAccessible))).
Qed.
Lemma books_unmapped H X U l w w' : books H X U w -> unmapped ((fun a => (a, L4_FullyAccessible)) <$> l) w w' ->
  (forall a, a ∈ U -> a ∈ l) -> books H X [] w'.
Proof.
  intros HB Hu Hl. pose proof Hu as (Q & _). destruct (alike_books H X U w w' (qt_alike _ _ Q) HB) as [P O T A M].
  split; try done. intros pa pid a Hin _. destruct (unmapped_all _ _ _ Hu _ Hin) as [Hin' Hnl]. apply M; [done|].
  intros Hu'. by apply Hnl, Hl.
Qed.
Lemma books_more H X U U' w : books H X U w -> (forall a, a ∈ U -> a ∈ U') -> books H X U' w.
Proof. intros [P O T A M] HU. split; try done. intros pa pid a Hin Hu. apply M; [done|]. intros Hu'. by apply Hu, HU. Qed.

(** What is mapped of the page [a] is on the batch. *)
Definition awaits (a : Z) (fp : batch) (w : sysmem) : Prop := forall m, m ∈ mappings w -> m.1 = a -> a ∈ pend fp.
Lemma unmap_page_ok E H X a fp w : books H X (pend fp) w -> wp E (unmap_page a fp) (fun fp' w' =>
  books H X (pend fp') w' /\ quiet w w' /\ p_pages w' = p_pages w /\ awaits a fp' w' /\ (fp = None -> fp' = None)) w.
Proof.
  intros HB. unfold unmap_page. destruct fp as [l|].
  - destruct (_ <? 64)%nat.
    + wp_steps. cbn. split; [by eapply books_more; [|set_solver]|]. split; [done|]. split; [done|]. split; [|done]. intros m _ _. cbn. set_solver.
    + wp_steps. eapply wp_conseq; [apply unmap_fpages_ok|]. intros [] w' Hu. wp_steps. pose proof Hu as (Q & Ep%(f_equal (fun x => x.1.1)) & _).
      split; [eapply (books_unmapped H X l (l ++ [a])); [exact HB|exact Hu|set_solver]|]. split; [done|]. split; [done|].
      split; [|done]. intros m Hm Em. destruct (unmapped_all _ _ _ Hu m Hm) as [_ Hn]. rewrite Em in Hn. set_solver.
  - wp_steps. eapply wp_conseq; [apply unmap_fpages_ok|]. intros [] w' Hu. wp_steps. pose proof Hu as (Q & Ep%(f_equal (fun x => x.1.1)) & _).
    split; [by eapply (books_unmapped H X [] [a]); [exact HB|exact Hu|set_solver]|]. split; [done|]. split; [done|].
    split; [|done]. intros m Hm Em. destruct (unmapped_all [a] _ _ Hu m Hm) as [_ Hn]. rewrite Em in Hn. set_solver.
Qed.
Lemma unmap_rest_ok E H X fp w : books H X (pend fp) w ->
  wp E (unmap_rest fp) (fun _ w' => books H X [] w' /\ quiet w w') w.
Proof.
  intros HB. unfold unmap_rest. destruct fp as [[|a l]|]; [by wp_steps| |by wp_steps].
  eapply wp_conseq; [apply unmap_fpages_ok|]. intros [] w' Hu. split; [|apply Hu]. by eapply books_unmapped; [exact HB|exact Hu|].
Qed.

(** ** Giving up the place of a page *)

(** [lp] has no place any more, and nothing else has another one. *)
Record freed (lp : Z) (w w' : sysmem) : Prop := Freed {
  fr_tree : systask_tree w' = systask_tree w;
  fr_l : l_pages w' = l_pages w;
  fr_content x : x <> lp -> content w' x = content w x;
  fr_rest : same_rest w w'
}.
Lemma books_tell H X X' U w w' : books H X U w -> owned X' w' -> (systask_tree w', l_pages w', p_pages w', heads w', alloc_next w', mappings w')
  = (systask_tree w, l_pages w, p_pages w, heads w, alloc_next w, mappings w) -> placed H w' -> books H X' U w'.
Proof.
  intros [P O T A M] O' [= E1 E2 E3 E4 E5 E6] P'. assert (kin w w') as K by (split; congruence).
  split; [done|done|by apply (kin_tasked w)|by apply (kin_allocated w)|].
  intros pa pid a. rewrite E6. intros Hin Hu. unfold maps_to. rewrite E1, E3. by apply M.
Qed.

(** A page that stores something for one logical page can be filled again. *)
Lemma buddy_back H U w lp c : books H (Some (lp, Some c)) U w -> books H (Some (lp, None)) U (set_buddies (c :: buddy_list w) w).
Proof.
  intros HB. pose proof HB as [P O T A M]. apply (books_tell H (Some (lp, Some c)) _ U w); [done| |done|].
  - destruct O as [O1 O2 O3 O4 O5 O6 O7 O8]. destruct (O4 lp _ eq_refl) as (X1 & X2 & X3). split; try done.
    + intros x c' [= <- <-]. done.
    + intros x h Hx. destruct (O5 x h Hx). by split.
    + intros x. cbn. rewrite elem_of_cons, O6. split.
      * intros [->|[_ ?]]; (split; [done|]); [|done]. by apply X1.
      * intros [_ Hs]. destruct (decide (x = c)) as [->|]; [by left|right]. split; [|done]. by intros [= ->].
    + apply NoDup_cons. split; [|done]. intros Hin. by apply O6 in Hin as [? _].
  - by apply (placed_perm H H w); try done; apply P.
Qed.
Lemma books_free_add p H X U w : books (p :: H) X U w -> books H X U (set_free (p :: free_page_list w) (u32 (num_free_pages w + 1)) w).
Proof.
  intros HB. pose proof (bk_placed _ _ _ _ HB) as P. apply (books_free (p :: H)); [done|].
  apply (placed_perm (p :: H) H w); try done; [|cbn|apply P].
  - unfold places, heads_pages. cbn. perm.
  - rewrite (pl_count _ _ P). unfold u32. cbn [length]. rewrite Zplus_mod_idemp_l. f_equal. lia.
Qed.

Lemma stored_unowned H X U w c h q : books H X U w -> c_hdrs w !! c = Some h -> p_pages w !! phys h = Some q -> owner q = None.
Proof.
  intros HB Hh Hq. destruct (owner q) as [y|] eqn:Ho; [|done]. exfalso.
  pose proof (ow_owner _ _ (bk_owned _ _ _ _ HB) _ _ _ Hq Ho) as Ha. by apply (active_not_stored H w (phys h) c h (bk_placed _ _ _ _ HB) Ha Hh).
Qed.
Lemma drop_compressed_ok E H U w lp l : books H None U w -> l_pages w !! lp = Some l -> has (p_addr l) LF_SWAP = true ->
  wp E (drop_compressed lp (page_of (p_addr l))) (fun _ w' => books H (Some (lp, None)) U w' /\ freed lp w w') w.
Proof.
  intros HB Hl Hs. pose proof HB as [P O _ _ _].
  destruct (ow_lpage _ _ O lp l Hl) as [Ez|[(p & _ & q & l' & _ & _ & Hl' & E0)|(_ & h & Hh & Hst)]]; [done|by rewrite Ez in Hs| |].
  { replace l' with l in E0 by congruence. by rewrite E0, (proj2 (P_ADDRESS_page q)) in Hs. }
  set (c := page_of (p_addr l)) in *. pose proof (ow_hdr _ _ O c h Hh) as K.
  assert (forall f, alter f c (c_hdrs w) = <[c := f h]> (c_hdrs w)) as Halt.
  { intros f. apply map_eq. intros i. destruct (decide (i = c)) as [->|]; [by rewrite lookup_alter_eq, lookup_insert_eq, Hh|].
    by rewrite lookup_alter_ne, lookup_insert_ne. }
  unfold drop_compressed. wp_steps. eapply wp_hdr_at; [done|]. wp_steps.
  apply (wp_conseq _ _ (fun (done : bool) w1 => exists h', w1 = set_c_hdrs (<[c := h']> (c_hdrs w)) w
    /\ (if done then single h else exists y, cleared h lp y h'))).
  { unfold hdr_upd. destruct (decide (hdr_a h = Some lp)) as [Ea|Ea].
    - rewrite bool_decide_true by done. wp_steps. rewrite Halt. exists (set_hdr_a None h). split; [done|].
      destruct (hdr_b h) as [y|] eqn:Eb; [rewrite bool_decide_false by done; exists y; by left|]. rewrite bool_decide_true by done. by right.
    - rewrite (bool_decide_false (hdr_a h = Some lp)) by done. destruct Hst as [?|Eb]; [done|]. wp_steps.
      apply wp_assert; [by apply bool_decide_true|]. wp_steps. rewrite Halt. exists (set_hdr_b None h). split; [done|].
      destruct (hdr_a h) as [y|] eqn:Ea'; [rewrite bool_decide_false by done; exists y; by right|]. rewrite bool_decide_true by done. by left. }
  intros done w1 (h' & -> & Hdone). destruct done.
  - destruct (empty_slot_ok H U w c lp h HB Hh Hst Hdone) as [HB1 Hc1]. set (w1 := set_c_hdrs _ _) in HB1, Hc1.
    assert (0 < paddr w (phys h)) as Hpos by (apply (pl_pos _ _ P); by eapply stored_place). unfold paddr in Hpos.
    destruct (p_pages w !! phys h) as [q|] eqn:Hq; [|lia]. unfold buddy_del. wp_steps. apply wp_del_from.
    { cbn. apply (ow_buddy _ _ O). split; [done|by exists h]. }
    wp_steps. eapply wp_p_at; [done|]. rewrite (stored_unowned H None U w c h q HB Hh Hq). wp_steps. apply wp_assert; [done|].
    unfold free_add. wp_steps. cbn. rewrite delete_insert_eq. split; [by apply (books_free_add (phys h) H _ U w1)|]. by split.
  - destruct Hdone as [y Hcl]. destruct (clear_slot_ok H U w c lp h HB Hh y h' Hcl) as [HB1 Hc1].
    unfold buddy_add. wp_steps. split; [by apply (buddy_back H U _ lp c)|]. by split.
Qed.

(** A page in use is taken from its logical page. *)
Definition taken (p : Z) (w : sysmem) : sysmem :=
  set_p_pages (alter (set_owner None) p (p_pages w)) (set_active (filter (fun x => x <> p) (active_page_list w)) w).
Section taken.
Context (H U : list Z) (w : sysmem) (p lp : Z) (HB : books H None U w) (Hp : p ∈ active_page_list w) (Hh : held_by w p lp)
  (Hm : forall m, m ∈ mappings w -> m.1 = paddr w p -> paddr w p ∈ U).
Let w' := taken p w.

Lemma taken_p x : x <> p -> p_pages w' !! x = p_pages w !! x.
Proof. intros Hx. cbn. by rewrite lookup_alter_ne. Qed.
Lemma taken_owner x q y : p_pages w' !! x = Some q -> owner q = Some y -> x <> p.
Proof.
  intros Hq Ho ->. cbn in Hq. rewrite lookup_alter_eq in Hq. apply fmap_Some in Hq as (q0 & _ & ->). done.
Qed.
Lemma taken_kin : kin w w'.
Proof.
  split; try done. intros x. destruct (decide (x = p)) as [->|]; [|by rewrite taken_p].
  cbn. rewrite lookup_alter_eq. by destruct (p_pages w !! p).
Qed.
Lemma taken_active x : x ∈ active_page_list w' <-> x <> p /\ x ∈ active_page_list w.
Proof. unfold w', taken. cbn [active_page_list set_p_pages set_active]. by rewrite list_elem_of_filter. Qed.
Lemma taken_held x y : x <> p -> held_by w' x y <-> held_by w x y.
Proof. intros Hx. unfold held_by. by rewrite taken_p. Qed.
Lemma held_owner x y y' : held_by w x y -> held_by w x y' -> y = y'.
Proof. intros (q & l & Hq & Ho & _) (q' & l' & Hq' & Ho' & _). congruence. Qed.
Lemma taken_owned : owned (Some (lp, None)) w'.
Proof.
  pose proof HB as [P O _ _ _]. pose proof O as [O1 O2 O3 O4 O5 O6 O7 O8]. split; try done.
  - intros x q y Hq Ho. assert (x <> p) as Hx by by eapply taken_owner. rewrite taken_p in Hq by done. apply taken_active.
    split; [done|]. by apply (O1 x q y).
  - intros x [Hx Ha]%taken_active. destruct (O2 x Ha) as (y & Hy). exists y. by apply taken_held.
  - intros x l Hl Hx. destruct (O3 x l Hl) as [?|[(p' & Ha & Hh')|?]]; [done|by left| |by right; right].
    right; left. exists p'. assert (p' <> p) as Hne by (intros ->; apply Hx; cbn; f_equal; by apply (held_owner p)).
    by rewrite taken_active, taken_held.
  - intros x c [= <- <-]. split; [done|]. split.
    + intros c h. by apply (held_not_stored None w p).
    + intros x Hx. pose proof Hx as (q & l & Hq & Ho & _). assert (x <> p) as Hne by by eapply taken_owner.
      rewrite taken_held in Hx by done. rewrite taken_p in Hq by done. apply Hne.
      apply (held_inj H None w x p lp); try done. by apply (O1 x q lp).
  - intros c h Hc. destruct (O5 c h Hc). split; try done. by rewrite (kin_paddr w w') by apply taken_kin.
  - intros c. change (buddy_list w') with (buddy_list w). rewrite O6. split; intros [_ ?]; done.
Qed.
Lemma taken_books : books (p :: H) (Some (lp, None)) U w'.
Proof.
  pose proof HB as [P O T A M]. split; [|apply taken_owned|by apply (kin_tasked w), T; apply taken_kin|by apply (kin_allocated w), A; apply taken_kin|].
  - apply (placed_perm H (p :: H) w); try done; [intros; apply kin_paddr, taken_kin| |apply P|].
    + unfold places, heads_pages. cbn. rewrite (filter_perm p (active_page_list w)) at 1 by (done || by apply (active_nodup H)). perm.
    + intros x Hx. apply (core_is_some P_ADDRESS _ _ (kn_p _ _ taken_kin x)). by apply (pl_hand _ _ P).
  - intros pa pid a Hin Hu. destruct (M pa pid a Hin Hu) as (x & q & y & t & Hq & Hpa & Ho & Ht & Ha).
    exists x, q, y, t. rewrite taken_p; [done|]. intros ->. apply Hu. rewrite <- Hpa, <- (paddr_at _ _ _ Hq).
    apply (Hm _ Hin). cbn. by rewrite <- Hpa, (paddr_at _ _ _ Hq).
Qed.
End taken.

Lemma get_active_page_found H U w p lp l q : books H None U w -> p ∈ active_page_list w -> p_pages w !! p = Some q ->
  l_pages w !! lp = Some l -> p_addr l = P_ADDRESS q ->
  find (fun p => match p_pages w !! p with Some q => P_ADDRESS q =? page_of (p_addr l) | None => false end) (active_page_list w) = Some p.
Proof.
  intros [P O _ _ _] Hp Hq Hl E. rewrite E, (proj1 (P_ADDRESS_page q)).
  destruct (find _ _) as [p'|] eqn:Ef.
  - apply find_some in Ef as [Hin Eq]. apply list_elem_of_In in Hin. destruct (p_pages w !! p') as [q'|] eqn:Hq'; [|done].
    apply Z.eqb_eq in Eq. f_equal. apply (placed_inj H w); [done|by apply active_place..|]. by rewrite (paddr_at _ _ _ Hq), (paddr_at _ _ _ Hq').
  - exfalso. apply list_elem_of_In in Hp. pose proof (find_none _ _ Ef p Hp) as Hn. cbn in Hn. rewrite Hq in Hn. by rewrite Z.eqb_refl in Hn.
Qed.
Lemma get_active_page_none H U w : books H None U w ->
  find (fun p => match p_pages w !! p with Some q => P_ADDRESS q =? page_of 0 | None => false end) (active_page_list w) = None.
Proof.
  intros [P O _ _ _]. destruct (find _ _) as [p'|] eqn:Ef; [|done]. exfalso. apply find_some in Ef as [Hin Eq].
  apply list_elem_of_In in Hin. destruct (p_pages w !! p') as [q'|] eqn:Hq'; [|done]. apply Z.eqb_eq in Eq.
  pose proof (pl_pos _ _ P p' (active_place _ _ _ Hin)) as Hpos. rewrite (paddr_at _ _ _ Hq'), Eq in Hpos. by apply Z.lt_irrefl in Hpos.
Qed.

Lemma drop_place_ok E H lp l fp w : books H None (pend fp) w -> l_pages w !! lp = Some l ->
  wp E (drop_place lp l fp) (fun fp' w' => books H (Some (lp, None)) (pend fp') w' /\ freed lp w w' /\ (fp = None -> fp' = None)) w.
Proof.
  intros HB Hl. unfold drop_place. destruct (has (p_addr l) LF_SWAP) eqn:Hs.
  { wp_steps. eapply wp_conseq; [by apply (drop_compressed_ok E H (pend fp) w)|]. intros [] w' [? ?]. by wp_steps. }
  unfold get_active_page. wp_steps. destruct (ow_lpage _ _ (bk_owned _ _ _ _ HB) lp l Hl) as [Hz|[(p & Hp & Hh)|[Hs' _]]]; [done| | |congruence].
  - rewrite Hz, (get_active_page_none H (pend fp) w HB). wp_steps. split; [by eapply await_page|]. by split.
  - pose proof Hh as (q & l' & Hq & Ho & Hl' & E0). assert (l' = l) as -> by congruence.
    rewrite (get_active_page_found H (pend fp) w p lp l q HB Hp Hq Hl E0). wp_steps. rewrite E0, (proj1 (P_ADDRESS_page q)).
    eapply wp_conseq; [by apply (unmap_page_ok E H None)|]. intros fp' w1 (HB1 & Q & Ep & Haw & Hno).
    wp_steps. eapply wp_p_at; [by rewrite Ep|]. wp_steps. apply wp_assert; [by apply bool_decide_true|].
    pose proof (al_active _ _ (qt_alike _ _ Q)) as Ea. unfold active_del. wp_steps. apply wp_del_from; [by rewrite Ea|].
    unfold p_upd, free_add. wp_steps. change (set_p_pages _ _) with (taken p w1).
    assert (paddr w1 p = P_ADDRESS q) as Epa by (unfold paddr; by rewrite Ep, Hq).
    assert (books (p :: H) (Some (lp, None)) (pend fp') (taken p w1)) as HB2.
    { apply taken_books; [done|by rewrite Ea|by apply (alike_held w), Hh; apply Q|]. intros m Hin Em. rewrite Epa in *. by apply (Haw m). }
    split; [by apply (books_free_add p H _ _ (taken p w1))|]. split; [|done]. split; cbn.
    + apply Q.
    + apply Q.
    + intros x Hx. etrans; [|apply alike_content, Q]. done.
    + trans w1; [by apply quiet_rest|]. split; try done. intros x. cbn.
      destruct (decide (x = p)) as [->|]; [|by rewrite lookup_alter_ne].
      rewrite lookup_alter_eq. by destruct (p_pages w1 !! p).
Qed.

(** ** Removing a page *)

(** [lp], which has no place, is not the page of [task] at [addr] any more. *)
Definition without_lpage (task addr lp : Z) (w : sysmem) : sysmem :=
  set_heads (upd_head ALPage (AllocHead (alloc_pages (heads w ALPage)) (lp :: trash (heads w ALPage))) (heads w))
    (set_l_pages (delete lp (l_pages w)) (set_tree (alter (fun t => set_mem (delete addr (mem t)) t) task (systask_tree w)) w)).
Section without_lpage.
Context (H U : list Z) (w : sysmem) (task addr lp : Z) (t : systask) (HB : books H (Some (lp, None)) U w)
  (Ht : systask_tree w !! task = Some t) (Ha : mem t !! addr = Some lp).
Let w' := without_lpage task addr lp w.

Lemma without_lpage_l x l : l_pages w' !! x = Some l <-> x <> lp /\ l_pages w !! x = Some l.
Proof. cbn. rewrite lookup_delete_Some. naive_solver. Qed.
Lemma without_lpage_at pid t' : systask_tree w' !! pid = Some t' -> exists t0, systask_tree w !! pid = Some t0
  /\ (task_at t', task_pid t') = (task_at t0, task_pid t0)
  /\ mem t' = if decide (pid = task) then delete addr (mem t0) else mem t0.
Proof.
  cbn. destruct (decide (pid = task)) as [->|Hne].
  - rewrite lookup_alter_eq, Ht. intros [= <-]. by exists t.
  - rewrite lookup_alter_ne by done. intros Ht'. by exists t'.
Qed.
Lemma without_lpage_tree pid t0 : systask_tree w !! pid = Some t0 -> exists t', systask_tree w' !! pid = Some t'
  /\ task_at t' = task_at t0 /\ mem t' = if decide (pid = task) then delete addr (mem t0) else mem t0.
Proof.
  intros Ht0. cbn. destruct (decide (pid = task)) as [->|Hne].
  - rewrite lookup_alter_eq, Ht0. by exists (set_mem (delete addr (mem t0)) t0).
  - rewrite lookup_alter_ne by done. by exists t0.
Qed.
Lemma without_lpage_keeps pid t0 a x : systask_tree w !! pid = Some t0 -> mem t0 !! a = Some x -> x <> lp ->
  exists t', systask_tree w' !! pid = Some t' /\ mem t' !! a = Some x.
Proof.
  intros Ht0 Hx Hne. destruct (without_lpage_tree _ _ Ht0) as (t' & Ht' & _ & Em). exists t'. split; [done|]. rewrite Em.
  destruct (decide (pid = task)) as [->|]; [|done]. rewrite lookup_delete_ne; [done|]. intros ->. congruence.
Qed.
Lemma without_lpage_mem pid t' a x : systask_tree w' !! pid = Some t' -> mem t' !! a = Some x ->
  x <> lp /\ exists t0, systask_tree w !! pid = Some t0 /\ mem t0 !! a = Some x.
Proof.
  intros Ht' Hx. destruct (without_lpage_at _ _ Ht') as (t0 & Ht0 & _ & Em). rewrite Em in Hx. pose proof (bk_tasked _ _ _ _ HB) as T.
  assert (mem t0 !! a = Some x /\ (pid, a) <> (task, addr)) as [Hx0 Hne].
  { destruct (decide (pid = task)) as [->|Hp]; [|split; [done|congruence]]. apply lookup_delete_Some in Hx as [? ?]. split; [done|congruence]. }
  split; [|by exists t0]. intros ->. pose proof (tk_one _ T _ _ _ _ _ _ _ Ht Ht0 Ha Hx0) as E. subst pid. replace t0 with t in * by congruence.
  destruct (tk_mem _ T _ _ _ _ Ht Ha) as (_ & l & Hl & El), (tk_mem _ T _ _ _ _ Ht Hx0) as (_ & l' & Hl' & El'). congruence.
Qed.
Lemma without_lpage_held p x : x <> lp -> held_by w p x -> held_by w' p x.
Proof. intros Hx (q & l & Hq & Ho & Hl & E). exists q, l. by rewrite without_lpage_l. Qed.
Lemma without_lpage_owned : owned None w'.
Proof.
  destruct (bk_owned _ _ _ _ HB) as [O1 O2 O3 O4 O5 O6 O7 O8]. destruct (O4 lp None eq_refl) as (_ & X2 & X3). split; try done.
  - intros p Hp. destruct (O2 p Hp) as (x & Hx). exists x. apply without_lpage_held; [|done]. intros ->. by apply (X3 p).
  - intros x l [Hne Hl]%without_lpage_l _. destruct (O3 x l Hl) as [?|[(p & ? & ?)|?]]; [by intros [= ->]|by left| |by right; right].
    right; left. exists p. split; [done|]. by apply without_lpage_held.
  - intros c h Hc. destruct (O5 c h Hc) as [K1 K2 K3 K4 K5 K6]. split; try done. intros x Hx. destruct (K3 x Hx) as (l & Hl & E).
    exists l. rewrite without_lpage_l. split; [|done]. split; [|done]. intros ->. by apply (X2 c h).
  - intros c. change (buddy_list w') with (buddy_list w). rewrite O6. split; intros [_ ?]; done.
Qed.
Lemma without_lpage_tasked : tasked w'.
Proof.
  destruct (bk_tasked _ _ _ _ HB) as [T1 T2 T3 T4]. split.
  - intros pid t' (t0 & Ht0 & [= _ E] & _)%without_lpage_at. rewrite E. by apply T1.
  - intros pid t' a x Ht' Hx. destruct (without_lpage_mem _ _ _ _ Ht' Hx) as (Hne & t0 & Ht0 & Hx0).
    destruct (T2 pid t0 a x Ht0 Hx0) as (? & l & Hl & ?). split; [done|]. exists l. by rewrite without_lpage_l.
  - intros pid pid' t1 t2 a1 a2 x Ht1 Ht2 Hx1 Hx2. destruct (without_lpage_mem _ _ _ _ Ht1 Hx1) as (_ & s1 & Hs1 & Hy1),
      (without_lpage_mem _ _ _ _ Ht2 Hx2) as (_ & s2 & Hs2 & Hy2). by apply (T3 pid pid' s1 s2 a1 a2 x).
  - intros x l [Hne Hl]%without_lpage_l. destruct (T4 x l Hl) as (pid & t0 & Ht0 & Hx).
    destruct (without_lpage_keeps _ _ _ _ Ht0 Hx Hne) as (t' & ? & ?). by exists pid, t'.
Qed.
Lemma without_lpage_allocated : allocated w'.
Proof.
  destruct (bk_allocated _ _ _ _ HB) as [A1 A2].
  assert (is_Some (l_pages w !! lp)) as Hlive.
  { destruct (tk_mem _ (bk_tasked _ _ _ _ HB) _ _ _ _ Ht Ha) as (_ & l & Hl & _). by exists l. }
  assert (forall ty, alloc_pages (heads w' ty) = alloc_pages (heads w ty)) as Ep by (by intros []).
  assert (forall ty x, live w' ty x -> live w ty x /\ (ty = ALPage -> x <> lp)) as Hl.
  { intros ty x. destruct ty; [| |].
    - intros (pid & t' & (t0 & Ht0 & [= E _] & _)%without_lpage_at & <-). split; [|done]. exists pid, t0. by rewrite E.
    - by split.
    - intros [l [Hne Hl]%without_lpage_l]. split; [by exists l|done]. }
  assert (forall ty x, x ∈ trash (heads w' ty) -> x ∈ trash (heads w ty) \/ ty = ALPage /\ x = lp) as Htr.
  { intros [] x; [by left..|]. change (trash (heads w' ALPage)) with (lp :: trash (heads w ALPage)). rewrite elem_of_cons. naive_solver. }
  assert (forall ty x, in_pages w ty x -> in_pages w' ty x) as Hin.
  { intros ty x (p & nx & Hp & Hn). exists p, nx. by rewrite Ep. }
  split.
  - intros ty. destruct (A1 ty) as [D1 D2 D3 D4]. split.
    + destruct ty; [done..|]. change (trash (heads w' ALPage)) with (lp :: trash (heads w ALPage)). apply NoDup_cons.
      split; [|done]. intros Hx. by apply (D2 lp).
    + intros x [Hx|[-> ->]]%Htr [Hlx Hne]%Hl; [by apply (D2 x)|by apply Hne].
    + intros x Hx. assert (live w ty x \/ x ∈ trash (heads w ty)) as Hx'.
      { destruct Hx as [[? _]%Hl|[?|[-> ->]]%Htr]; auto. }
      destruct (D3 x Hx'); [left; by apply Hin|by right].
    + intros p. rewrite Ep. apply D4.
  - intros pid pid' t1 t2 (s1 & Hs1 & [= E1 _] & _)%without_lpage_at (s2 & Hs2 & [= E2 _] & _)%without_lpage_at E.
    apply (A2 pid pid' s1 s2); congruence.
Qed.
Lemma without_lpage_books : books H None U w'.
Proof.
  pose proof HB as [P O T A M]. split; [|apply without_lpage_owned|apply without_lpage_tasked|apply without_lpage_allocated|].
  - apply (placed_perm H H w); try done; apply P.
  - intros pa pid a Hin Hu. destruct (M pa pid a Hin Hu) as (p & q & x & t0 & Hq & Hpa & Ho & Ht0 & Hx).
    destruct (without_lpage_keeps _ _ _ _ Ht0 Hx) as (t' & Ht' & Hx'); [|by exists p, q, x, t']. intros ->.
    pose proof (ow_owner _ _ O p q lp Hq Ho) as Hact. destruct (ow_active _ _ O p Hact) as (y & Hy).
    pose proof Hy as (q' & l & Hq' & Ho' & _). assert (y = lp) as -> by congruence. by apply (ow_x _ _ O lp None eq_refl) in Hy.
Qed.
Lemma without_lpage_memory pid a : memory w' pid a = if decide ((pid, a) = (task, addr)) then None else memory w pid a.
Proof.
  unfold memory. destruct (systask_tree w !! pid) as [t0|] eqn:Ht0.
  - destruct (without_lpage_tree _ _ Ht0) as (t' & Ht' & _ & Em). rewrite Ht'. cbn [mbind option_bind]. rewrite Em.
    destruct (decide ((pid, a) = (task, addr))) as [[= -> ->]|Hne].
    { by rewrite decide_True, lookup_delete_eq. }
    destruct (mem t0 !! a) as [x|] eqn:Hx.
    + assert ((if decide (pid = task) then delete addr (mem t0) else mem t0) !! a = Some x) as Hx'.
      { destruct (decide (pid = task)) as [->|]; [|done]. rewrite lookup_delete_ne; [done|congruence]. }
      rewrite Hx'. cbn. rewrite <- Em in Hx'. destruct (without_lpage_mem _ _ _ _ Ht' Hx') as [Hxl _].
      rewrite lookup_delete_ne by done. destruct (l_pages w !! x) as [l|] eqn:Hl; [|done]. cbn. unfold content. cbn. by rewrite lookup_delete_ne, Hl.
    + assert ((if decide (pid = task) then delete addr (mem t0) else mem t0) !! a = None) as ->; [|done].
      destruct (decide (pid = task)); [|done]. apply lookup_delete_None. by right.
  - assert (systask_tree w' !! pid = None) as ->.
    { cbn. rewrite lookup_alter_ne; [done|]. intros ->. congruence. }
    destruct (decide ((pid, a) = (task, addr))) as [[= -> ->]|]; [congruence|done].
Qed.
End without_lpage.

(** The pages of [task] at the addresses [l] are gone. *)
Record removed (task : Z) (l : list Z) (w w' : sysmem) : Prop := Removed {
  rd_memory pid a : memory w' pid a = if decide (pid = task /\ a ∈ l) then None else memory w pid a;
  rd_shape pid : shape w' pid = shape w pid;
  rd_other pid : pid <> task -> systask_tree w' !! pid = systask_tree w !! pid;
  rd_task t : systask_tree w !! task = Some t -> exists t', systask_tree w' !! task = Some t' /\ task_at t' = task_at t
    /\ forall a, a ∉ l -> mem t' !! a = mem t !! a;
  rd_rest : same_rest w w'
}.
Lemma removed_nil task w w' : quiet w w' -> removed task [] w w'.
Proof.
  intros Q. split.
  - intros pid a. rewrite decide_False by set_solver. by apply (remains_memory None); [apply turned_remains, quiet_turned|].
  - intros pid. by apply (remains_shape None), turned_remains, quiet_turned.
  - intros pid _. by rewrite (qt_tree _ _ Q).
  - intros t Ht. exists t. by rewrite (qt_tree _ _ Q).
  - by apply quiet_rest.
Qed.
Lemma drop_trans task l1 l2 w1 w2 w3 : removed task l1 w1 w2 -> removed task l2 w2 w3 -> removed task (l1 ++ l2) w1 w3.
Proof.
  intros A B. split.
  - intros pid a. rewrite (rd_memory _ _ _ _ B), (rd_memory _ _ _ _ A). repeat case_decide; try done; set_solver.
  - intros pid. by rewrite (rd_shape _ _ _ _ B), (rd_shape _ _ _ _ A).
  - intros pid Hne. by rewrite (rd_other _ _ _ _ B), (rd_other _ _ _ _ A).
  - intros t Ht. destruct (rd_task _ _ _ _ A t Ht) as (t2 & Ht2 & E2 & M2), (rd_task _ _ _ _ B t2 Ht2) as (t3 & Ht3 & E3 & M3).
    exists t3. split; [done|]. split; [congruence|]. intros a Ha. rewrite M3, M2; [done|set_solver..].
  - trans w2; [apply A|apply B].
Qed.
Lemma freed_memory task t addr lp w w' pid a : tasked w -> systask_tree w !! task = Some t -> mem t !! addr = Some lp -> freed lp w w' ->
  (pid, a) <> (task, addr) -> memory w' pid a = memory w pid a.
Proof.
  intros T Ht Ha [F1 F2 F3 _] Hne. unfold memory. rewrite F1. destruct (systask_tree w !! pid) as [t'|] eqn:Ht'; cbn; [|done].
  destruct (mem t' !! a) as [x|] eqn:Hx; cbn; [|done]. rewrite F2. destruct (l_pages w !! x) as [l|] eqn:Hl; cbn; [|done]. rewrite F3; [done|].
  intros ->. pose proof (tk_one _ T _ _ _ _ _ _ _ Ht Ht' Ha Hx) as <-. replace t' with t in * by congruence.
  destruct (tk_mem _ T _ _ _ _ Ht Ha) as (_ & l1 & Hl1 & E1), (tk_mem _ T _ _ _ _ Ht Hx) as (_ & l2 & Hl2 & E2). congruence.
Qed.
Lemma remove_l_page_ok E H task addr lp t fp w : books H None (pend fp) w -> systask_tree w !! task = Some t -> mem t !! addr = Some lp ->
  wp E (remove_l_page task lp fp) (fun fp' w' => books H None (pend fp') w' /\ removed task [addr] w w' /\ (fp = None -> fp' = None)) w.
Proof.
  intros HB Ht Ha. pose proof (bk_tasked _ _ _ _ HB) as T. destruct (tk_mem _ T _ _ _ _ Ht Ha) as (_ & l & Hl & El).
  unfold remove_l_page. wp_steps. eapply wp_l_at; [done|]. wp_steps. eapply wp_conseq; [by apply (drop_place_ok E H)|].
  intros fp' w1 (HB1 & F & Hno). unfold task_upd, recycle, set_head. wp_steps. rewrite El. cbn [heads set_tree set_l_pages].
  change (set_heads _ _) with (without_lpage task addr lp w1). rewrite <- (fr_tree _ _ _ F) in Ht.
  split; [by eapply without_lpage_books|]. split; [|done]. split.
  - intros pid a. rewrite (without_lpage_memory H (pend fp') w1 task addr lp t) by done. rewrite (fr_tree _ _ _ F) in Ht.
    repeat case_decide; try done; try set_solver. by eapply freed_memory.
  - intros pid. unfold shape. destruct (systask_tree w1 !! pid) as [t0|] eqn:Ht0.
    + rewrite <- (fr_tree _ _ _ F), Ht0. cbn. destruct (decide (pid = task)) as [->|]; [by rewrite lookup_alter_eq, Ht0|by rewrite lookup_alter_ne, Ht0].
    + rewrite <- (fr_tree _ _ _ F), Ht0. cbn. rewrite lookup_alter_ne, Ht0; [done|]. intros ->. congruence.
  - intros pid Hne. cbn. by rewrite lookup_alter_ne, (fr_tree _ _ _ F).
  - intros t0 Ht0. rewrite <- (fr_tree _ _ _ F) in Ht0. exists (set_mem (delete addr (mem t0)) t0). cbn. rewrite lookup_alter_eq, Ht0.
    split; [done|]. split; [done|]. intros a Hne. rewrite lookup_delete_ne; [done|set_solver].
  - trans w1; [apply F|]. by split.
Qed.
Lemma remove_l_pages_ok E H task l t fp w : books H None (pend fp) w -> systask_tree w !! task = Some t -> NoDup (l.*1) ->
  (forall a lp, (a, lp) ∈ l -> mem t !! a = Some lp) ->
  wp E (remove_l_pages task l fp) (fun fp' w' => books H None (pend fp') w' /\ removed task (l.*1) w w') w.
Proof.
  revert t fp w. induction l as [|[a lp] l IH]; intros t fp w HB Ht Hn Hm; cbn [remove_l_pages].
  - wp_steps. split; [done|]. by apply removed_nil.
  - apply NoDup_cons in Hn as [Ha Hn]. wp_steps. eapply wp_conseq; [eapply (remove_l_page_ok E H task a lp t); [done|done|apply Hm; by left]|].
    intros fp1 w1 (HB1 & R1 & _). destruct (rd_task _ _ _ _ R1 t Ht) as (t1 & Ht1 & _ & M1). eapply wp_conseq; [apply (IH t1 fp1 w1); [done|done|done|]|].
    + intros a' lp' Hin. rewrite M1; [apply Hm; by right|]. rewrite list_elem_of_singleton. intros ->. apply Ha.
      by apply (list_elem_of_fmap_2 fst) in Hin.
    + intros fp2 w2 [HB2 R2]. split; [done|]. by apply (drop_trans task [a] _ w w1).
Qed.
Lemma in_order_perm m : in_order m ≡ₚ map_to_list m.
Proof. apply sorting.merge_sort_Permutation. Qed.
Lemma in_order_nodup m : NoDup ((in_order m).*1).
Proof. rewrite in_order_perm. apply NoDup_fst_map_to_list. Qed.
Lemma elem_of_in_order m a lp : (a, lp) ∈ in_order m <-> m !! a = Some lp.
Proof. rewrite in_order_perm. apply elem_of_map_to_list. Qed.

(** ** Removing a task *)

Definition without_task (pid at_ : Z) (w : sysmem) : sysmem :=
  set_heads (upd_head ASystask (AllocHead (alloc_pages (heads w ASystask)) (at_ :: trash (heads w ASystask))) (heads w))
    (set_tree (delete pid (systask_tree w)) w).
Lemma without_task_books H U w pid t : books H None U w -> systask_tree w !! pid = Some t -> mem t = ∅ ->
  books H None U (without_task pid (task_at t) w).
Proof.
  intros [P O [T1 T2 T3 T4] [A1 A2] M] Ht Hm. set (w' := without_task _ _ w).
  assert (forall x t', systask_tree w' !! x = Some t' -> x <> pid /\ systask_tree w !! x = Some t') as Htr.
  { intros x t'. cbn. rewrite lookup_delete_Some. naive_solver. }
  assert (forall x t' a lp, systask_tree w !! x = Some t' -> mem t' !! a = Some lp -> systask_tree w' !! x = Some t') as Hkeep.
  { intros x t' a lp Hx Ha. cbn. rewrite lookup_delete_ne; [done|]. intros ->. replace t' with t in Ha by congruence. by rewrite Hm in Ha. }
  split.
  - by apply (placed_perm H H w); try done; apply P.
  - destruct O as [O1 O2 O3 O4 O5 O6 O7 O8]. split; try done. intros c h Hc. destruct (O5 c h Hc). by split.
  - split.
    + intros x t' [_ Hx]%Htr. by apply T1.
    + intros x t' a lp [_ Hx]%Htr. by apply T2 with x.
    + intros x x' t1 t2 a a' lp [_ Hx]%Htr [_ Hx']%Htr. by apply T3.
    + intros lp l Hl. destruct (T4 lp l Hl) as (x & t' & Hx & Ha). exists x, t'. split; [by eapply Hkeep|done].
  - assert (forall ty x, live w' ty x -> live w ty x /\ (ty = ASystask -> x <> task_at t)) as Hl.
    { intros ty x. destruct ty; [|by split..]. intros (x' & t' & [Hne Hx]%Htr & <-). split; [by exists x', t'|]. intros _ E. by apply Hne, (A2 x' pid t' t). }
    assert (forall ty x, x ∈ trash (heads w' ty) -> x ∈ trash (heads w ty) \/ ty = ASystask /\ x = task_at t) as Hd.
    { intros [] x; [|by left..]. change (trash (heads w' ASystask)) with (task_at t :: trash (heads w ASystask)). rewrite elem_of_cons. naive_solver. }
    assert (forall ty, alloc_pages (heads w' ty) = alloc_pages (heads w ty)) as Ep by (by intros []).
    assert (live w ASystask (task_at t)) as Hlive by by exists pid, t.
    split.
    + intros ty. destruct (A1 ty) as [D1 D2 D3 D4]. split.
      * destruct ty; [|done..]. change (trash (heads w' ASystask)) with (task_at t :: trash (heads w ASystask)). apply NoDup_cons.
        split; [|done]. intros Hx. by apply (D2 (task_at t)).
      * intros x [Hx|[-> ->]]%Hd [Hlx Hne]%Hl; [by apply (D2 x)|by apply Hne].
      * intros x Hx. assert (live w ty x \/ x ∈ trash (heads w ty)) as Hx'.
        { destruct Hx as [[? _]%Hl|[?|[-> ->]]%Hd]; auto. }
        destruct (D3 x Hx') as [(p & nx & Hp & Hn)|]; [left|by right]. exists p, nx. by rewrite Ep.
      * intros p. rewrite Ep. apply D4.
    + intros x x' t1 t2 [_ Hx]%Htr [_ Hx']%Htr. by apply A2.
  - intros pa x a Hin Hu. destruct (M pa x a Hin Hu) as (p & q & lp & t' & Hq & Hpa & Ho & Hx & Ha). exists p, q, lp, t'.
    split_and!; try done. by eapply Hkeep.
Qed.

(** All of the task's memory is gone, and nothing of anyone else's. *)
Record departed (pid : Z) (w w' : sysmem) : Prop := Departed {
  dp_task : systask_tree w' !! pid = None;
  dp_memory x a : x <> pid -> memory w' x a = memory w x a;
  dp_shape x : x <> pid -> shape w' x = shape w x;
  dp_rest : same_rest w w'
}.
Lemma impl_rm_task_ok E w pid : sysmem_ok w -> SNEKS_MIN_SYSID <= pid ->
  wp E (impl_rm_task pid) (fun _ w' => sysmem_ok w' /\ departed pid w w') w.
Proof.
  intros HB Hpid. unfold impl_rm_task, find_task. replace (pid <? SNEKS_MIN_SYSID) with false by lia. wp_steps.
  destruct (systask_tree w !! pid) as [t|] eqn:Ht; [|wp_steps; split; [done|by split]].
  wp_steps. eapply wp_conseq; [apply (remove_l_pages_ok E [] pid (in_order (mem t)) t); [done|done|apply in_order_nodup|]|].
  { intros a lp. by rewrite elem_of_in_order. }
  intros fp w1 [HB1 R]. wp_steps. eapply wp_conseq; [by apply (unmap_rest_ok E [] None)|]. intros [] w2 [HB2 Q].
  unfold recycle, set_head. wp_steps. cbn [heads set_tree]. pose proof (drop_trans _ _ _ _ _ _ R (removed_nil pid _ _ Q)) as R2.
  rewrite app_nil_r in R2. destruct (rd_task _ _ _ _ R2 t Ht) as (t2 & Ht2 & Eat & Mt2). rewrite <- Eat.
  change (set_heads _ _) with (without_task pid (task_at t2) w2).
  assert (mem t2 = ∅) as Hm.
  { apply map_empty. intros a. destruct (decide (a ∈ (in_order (mem t)).*1)) as [Ha|Ha].
    - apply (memory_none w2 pid); [apply HB2|done|]. by rewrite (rd_memory _ _ _ _ R2), decide_True.
    - rewrite Mt2 by done. destruct (mem t !! a) as [lp|] eqn:E2; [|done]. exfalso. apply Ha.
      apply elem_of_in_order in E2. by apply (list_elem_of_fmap_2 fst) in E2. }
  split; [by apply without_task_books|]. split.
  - cbn. apply lookup_delete_eq.
  - intros x a Hne. trans (memory w2 x a); [unfold memory; cbn; by rewrite lookup_delete_ne|].
    rewrite (rd_memory _ _ _ _ R2), decide_False; [done|]. by intros [? _].
  - intros x Hne. trans (shape w2 x); [unfold shape; cbn; by rewrite lookup_delete_ne|]. apply R2.
  - trans w2; [apply R2|]. by split.
Qed.
End drop.
