(* ===== verification/SysmemBrkProps.v ===== *)
(** The break: lowering it takes exactly the pages between the new break and the old one
    from the task. *)
From stdpp Require Import sorting.
From S2P Require Import Prelude L4 Pages Sysmem SysmemOps SysmemProps SysmemReplProps SysmemClockProps SysmemTaskProps SysmemAllocProps SysmemFaultProps SysmemDropProps.

Section brk.
Context `{LA : !L4Abi, SE : !SysmemEnv, LZ : !LZ4}.

(** ** Pages in order *)

#[local] Instance key_le_total : Total key_le.
Proof. intros x y. unfold key_le. lia. Qed.
#[local] Instance key_le_trans : Transitive key_le.
Proof. intros x y z. unfold key_le. lia. Qed.
Lemma in_order_sorted m : StronglySorted key_le (in_order m).
Proof. apply (StronglySorted_merge_sort key_le). Qed.

Lemma pages_below_spec high l x : StronglySorted key_le l -> x ∈ pages_below high l <-> x ∈ l /\ x.1 < high.
Proof.
  induction l as [|[a y] l IH]; cbn [pages_below]; [set_solver|]. intros [Hs Ha]%StronglySorted_inv.
  destruct (Z.ltb_spec a high).
  - rewrite !elem_of_cons, IH by done. split; [intros [->|[? ?]]; [by split; [left|]|tauto]|tauto].
  - split; [by intros ?%elem_of_nil|]. intros [[->|Hx]%elem_of_cons Hlt]; [cbn in Hlt; lia|].
    rewrite Forall_forall in Ha. specialize (Ha x Hx). unfold key_le in Ha. cbn in Ha. lia.
Qed.
Lemma pages_below_sub high l : sublist (pages_below high l) l.
Proof. induction l as [|[a y] l IH]; cbn [pages_below]; [done|]. destruct (a <? high); [by constructor|apply sublist_nil_l]. Qed.
Lemma pages_from_sub lp high l : sublist (pages_from lp high l) l.
Proof.
  induction l as [|[a y] l IH]; cbn [pages_from]; [done|]. destruct (y =? lp); [apply pages_below_sub|by apply sublist_cons].
Qed.
(** [lp] is the first page from [low] on. *)
Lemma pages_from_spec lp low high l x : StronglySorted key_le l -> (forall a, (a, lp) ∈ l -> low <= a) ->
  (exists a, (a, lp) ∈ l) -> (forall y a, y ∈ l -> (a, lp) ∈ l -> y.1 < a -> y.1 < low) ->
  (forall y a, y ∈ l -> (a, lp) ∈ l -> y.1 = a -> y = (a, lp)) ->
  x ∈ pages_from lp high l <-> x ∈ l /\ low <= x.1 < high.
Proof.
  induction l as [|[a y] l IH]; cbn [pages_from]; [set_solver|]. intros Hs H1 H2 H3 H4. destruct (Z.eqb_spec y lp) as [->|Hne].
  - rewrite pages_below_spec by done. split; [|tauto]. intros [Hx ?]. split; [done|]. split; [|done].
    assert (low <= a) by (apply H1; by left). apply StronglySorted_inv in Hs as [_ Ha].
    apply elem_of_cons in Hx as [->|Hx]; [done|]. rewrite Forall_forall in Ha. specialize (Ha x Hx). unfold key_le in Ha. cbn in Ha. lia.
  - apply StronglySorted_inv in Hs as [Hs Ha]. destruct H2 as (a' & [[= -> ->]|Hin]%elem_of_cons); [done|].
    assert (a < low) as Hlow.
    { apply (H3 (a, y) a'); [by left|by right|]. cbn. rewrite Forall_forall in Ha. specialize (Ha _ Hin). unfold key_le in Ha. cbn in Ha.
      destruct (decide (a = a')) as [->|]; [|lia]. assert ((a', y) = (a', lp)) as [= ->] by (apply (H4 (a', y) a'); [by left|by right|done]). done. }
    rewrite IH; [|done|intros b Hb; apply H1; by right|by exists a'|intros z b Hz Hb; apply H3; by right|intros z b Hz Hb; apply H4; by right].
    rewrite elem_of_cons. split; [tauto|]. intros [[->|?] ?]; [cbn in *; lia|tauto].
Qed.

(** ** The first page *)

Lemma aligned_mod a : has a PAGE_MASK = false <-> a mod 4096 = 0.
Proof.
  unfold has. change PAGE_MASK with (Z.ones 12). rewrite Z.land_ones by lia. change (2 ^ 12) with 4096.
  rewrite negb_false_iff. apply Z.eqb_eq.
Qed.
Lemma first_page_ok E task t w high fuel addr : systask_tree w !! task = Some t -> 0 <= addr -> addr mod 4096 = 0 ->
  high + 1 < 2 ^ 32 -> (high + 1) mod 4096 = 0 -> high - addr < 4096 * Z.of_nat fuel -> wp E (first_page fuel task addr high) (fun o w' => w' = w /\ match o with
    | None => forall a, addr <= a < high -> a mod 4096 = 0 -> mem t !! a = None
    | Some lp => exists a, addr <= a < high /\ mem t !! a = Some lp /\ forall a', addr <= a' < a -> a' mod 4096 = 0 -> mem t !! a' = None
    end) w.
Proof.
  intros Ht. revert addr. induction fuel as [|fuel IH]; intros addr Hlo Hal Hhi Hhal Hf; cbn [first_page]; destruct (Z.ltb_spec addr high); cbn [negb];
    [lia|wp_steps; split; [done|intros; lia]| |wp_steps; split; [done|intros; lia]].
  wp_steps. eapply get_lpage_ok; [by apply aligned_mod|done|]. destruct (mem t !! addr) as [lp|] eqn:Ha.
  - wp_steps. split; [done|]. exists addr. split; [lia|]. split; [done|]. intros; lia.
  - assert (addr + 4096 <= high + 1) as Hnext by (clear -H Hal Hhal; Z.to_euclidean_division_equations; lia).
    assert (u32 (addr + PAGE_SIZE) = addr + 4096) as -> by (unfold PAGE_SIZE; apply u32_id; lia).
    assert (forall a', addr <= a' < addr + 4096 -> a' mod 4096 = 0 -> mem t !! a' = None) as Hhere.
    { intros a' Hr Hm. assert (a' = addr) as ->; [|done]. clear -Hr Hm Hal. Z.to_euclidean_division_equations; lia. }
    eapply wp_conseq; [apply IH; try done; [lia| |lia]|].
    { clear -Hal. rewrite Z.add_mod, Hal by lia. done. }
    intros [lp|] w' [-> Ho]; (split; [done|]).
    + destruct Ho as (a & Hr & Hm & Hno). exists a. split; [lia|]. split; [done|]. intros a' Hr' Hm'.
      destruct (decide (a' < addr + 4096)); [apply Hhere; [lia|done]|apply Hno; [lia|done]].
    + intros a Hr Hm. destruct (decide (a < addr + 4096)); [apply Hhere; [lia|done]|apply Ho; [lia|done]].
Qed.

(** What lies between the new break and the old one *)
Definition cut (new_brk old a : Z) : Prop := new_brk < old /\ page_of (u32 (new_brk + PAGE_MASK)) <= a < Z.lor old PAGE_MASK.
#[global] Instance cut_dec b o a : Decision (cut b o a).
Proof. unfold cut. apply _. Defined.

Lemma high_page b : 0 <= b < 2 ^ 32 - 4096 -> Z.lor b PAGE_MASK + 1 < 2 ^ 32 /\ (Z.lor b PAGE_MASK + 1) mod 4096 = 0 /\ b <= Z.lor b PAGE_MASK.
Proof.
  intros Hb. assert (Z.lor b PAGE_MASK = (b / 4096) * 2 ^ 12 + PAGE_MASK) as ->.
  { rewrite <- lor_shiftl_add by done. change 4096 with (2 ^ 12). rewrite <- Z.shiftr_div_pow2 by lia.
    change PAGE_MASK with (Z.ones 12). apply Z.bits_inj'. intros i Hi. rewrite !Z.lor_spec, Z.testbit_ones, Z.shiftl_spec by lia.
    destruct (Z.ltb_spec i 12); [by replace (0 <=? i) with true by lia; rewrite !orb_true_r|].
    rewrite Z.shiftr_spec by lia. by replace (i - 12 + 12) with i by lia. }
  unfold PAGE_MASK. Z.to_euclidean_division_equations; lia.
Qed.
Lemma ceil_page b : page_of (u32 (b + PAGE_MASK)) mod 4096 = 0 /\ 0 <= page_of (u32 (b + PAGE_MASK)).
Proof. destruct (page_of_aligned (u32 (b + PAGE_MASK))) as [Ha Hr]. split; [by apply aligned_mod|lia]. Qed.
Lemma all_pages_Z : Z.of_nat all_pages = 2 ^ 20.
Proof. unfold all_pages. by rewrite Z2Nat.id. Qed.

(** ** The request *)

Definition caller (w : sysmem) : Z := pid_of (sm_sender w).
Definition set_break (b : Z) (s : Z * Z * Z * Z) : Z * Z * Z * Z := let '(_, low, u, k) := s in (b, low, u, k).
Record broken (pid new_brk : Z) (w w' : sysmem) : Prop := Broken {
  br_memory x a : memory w' x a =
    if decide (x = pid /\ cut new_brk (default new_shape (shape w pid)).1.1.1 a) then None else memory w x a;
  br_shape : shape w' pid = Some (set_break new_brk (default new_shape (shape w pid)));
  br_shapes x : x <> pid -> shape w' x = shape w x;
  br_rest : same_rest w w'
}.

(** The pages that are taken *)
Lemma pages_from_cut w pid t lp low high a x : tasked w -> systask_tree w !! pid = Some t -> low mod 4096 = 0 ->
  low <= a < high -> mem t !! a = Some lp -> (forall a', low <= a' < a -> a' mod 4096 = 0 -> mem t !! a' = None) ->
  x ∈ pages_from lp high (in_order (mem t)) <-> mem t !! x.1 = Some x.2 /\ low <= x.1 < high.
Proof.
  intros T Ht Hlow Hr Ha Hno. destruct x as [k v]. assert (forall b, mem t !! b = Some lp -> b = a) as Hone.
  { intros b Hb. destruct (tk_mem _ T _ _ _ _ Ht Hb) as (_ & l & Hl & <-), (tk_mem _ T _ _ _ _ Ht Ha) as (_ & l' & Hl' & <-). congruence. }
  rewrite (pages_from_spec lp low high).
  - by rewrite elem_of_in_order.
  - apply in_order_sorted.
  - intros b Hb%elem_of_in_order. rewrite (Hone b Hb). lia.
  - exists a. by apply elem_of_in_order.
  - intros [b y] a' Hb%elem_of_in_order Ha'%elem_of_in_order. cbn. rewrite (Hone a' Ha'). intros Hlt.
    destruct (decide (b < low)) as [|Hge]; [done|]. destruct (tk_mem _ T _ _ _ _ Ht Hb) as [Hal%aligned_mod _].
    rewrite Hno in Hb; [done|lia|done].
  - intros [b y] a' Hb%elem_of_in_order Ha'%elem_of_in_order. cbn. intros ->. congruence.
Qed.
Lemma sublist_nodup_fst (l k : list (Z * Z)) : sublist l k -> NoDup k.*1 -> NoDup l.*1.
Proof. intros Hs Hn. eapply sublist_NoDup; [done|]. by apply fmap_sublist. Qed.

(** The pages from [low] on and before [high] are removed. *)
Lemma cut_pages_ok E fuel w pid t low high : Z.of_nat fuel = 2 ^ 20 -> sysmem_ok w -> systask_tree w !! pid = Some t -> 0 <= low -> low mod 4096 = 0 ->
  high + 1 < 2 ^ 32 -> (high + 1) mod 4096 = 0 ->
  wp E (cur ← first_page fuel pid low high;
        match cur with
        | None => mret tt
        | Some cur => fp ← remove_l_pages pid (pages_from cur high (in_order (mem t))) (Some []); unmap_rest fp
        end)
    (fun _ w' => sysmem_ok w' /\ exists l, removed pid l w w' /\ forall a, memory w pid a <> None -> a ∈ l <-> low <= a < high) w.
Proof.
  intros Hfuel HB Ht Hlo Hal Hhi Hhal. pose proof (bk_tasked _ _ _ _ HB) as T. wp_steps. eapply wp_conseq.
  { apply (first_page_ok E pid t w high); try done. lia. }
  intros [lp|] w' [-> Ho].
  - destruct Ho as (a & Hr & Ha & Hno). wp_steps. eapply wp_conseq; [apply (remove_l_pages_ok E [] pid _ t); [done|done| |]|].
    + eapply sublist_nodup_fst; [apply pages_from_sub|apply in_order_nodup].
    + intros b y Hin. by apply (pages_from_cut w pid t lp low high a (b, y)) in Hin as [? _].
    + intros fp w1 [HB1 R]. eapply wp_conseq; [by apply (unmap_rest_ok E [] None)|]. intros [] w2 [HB2 Q]. split; [done|].
      exists ((pages_from lp high (in_order (mem t))).*1). split.
      { rewrite <- (app_nil_r (_.*1)). by apply (drop_trans pid _ [] w w1), removed_nil. }
      intros b Hb. rewrite list_elem_of_fmap. split.
      * intros ([b' y] & -> & Hin). by apply (pages_from_cut w pid t lp low high a) in Hin as [_ ?].
      * intros Hb'. destruct (mem t !! b) as [y|] eqn:Eb.
        -- exists (b, y). split; [done|]. by apply (pages_from_cut w pid t lp low high a).
        -- exfalso. apply Hb. unfold memory. rewrite Ht. cbn. by rewrite Eb.
  - wp_steps. split; [done|]. exists []. split; [by apply removed_nil|]. intros a Ha. rewrite elem_of_nil. split; [done|]. intros Hr.
    apply Ha. unfold memory. rewrite Ht. cbn. destruct (mem t !! a) as [lp|] eqn:E2; [|done].
    destruct (tk_mem _ T _ _ _ _ Ht E2) as [Hm%aligned_mod _]. by rewrite Ho in E2.
Qed.

Lemma impl_brk_ok w new_brk : let pid := caller w in let old := (default new_shape (shape w pid)).1.1.1 in
  sysmem_ok w -> sys_pid pid -> 0 <= old < 2 ^ 32 - 4096 ->
  wp no_memory (impl_brk new_brk) (fun _ w' => sysmem_ok w' /\ broken pid new_brk w w') w.
Proof.
  intros pid old HB Hpid Hold. unfold impl_brk. pose proof all_pages_Z as Hfuel. revert Hfuel. generalize all_pages. intros fuel Hfuel. wp_steps. fold (caller w). fold pid.
  replace (pid <? SNEKS_MIN_SYSID) with false by (destruct Hpid; lia). wp_steps.
  eapply wp_conseq; [by apply (get_task_ok [] [])|]. intros r w1 (-> & HB1 & PR). wp_steps.
  destruct (present_shape _ _ _ PR) as [S1 S2]. destruct (pr_task _ _ _ PR) as (t & Ht & _). eapply wp_task_of; [done|]. wp_steps.
  assert (brk t = old) as Eb. { unfold shape in S1 at 1. rewrite Ht in S1. injection S1 as S1. unfold old. by rewrite <- S1. }
  apply (wp_conseq _ _ (fun _ w2 => sysmem_ok w2 /\ exists l, removed pid l w1 w2 /\
    forall a, memory w1 pid a <> None -> a ∈ l <-> cut new_brk old a)).
  - apply wp_when.
    + intros Hlt%Z.ltb_lt. rewrite Eb in *. destruct (high_page old Hold) as (H1 & H2 & _). destruct (ceil_page new_brk) as [H3 H4].
      eapply wp_conseq; [by apply (cut_pages_ok no_memory fuel w1 pid t)|]. intros _ w2 (HB2 & l & R & Hl). split; [done|].
      exists l. split; [done|]. intros a Ha. rewrite (Hl a Ha). unfold cut. tauto.
    + intros Hge%Z.ltb_ge. split; [done|]. exists []. split; [by apply removed_nil|]. intros a _. rewrite elem_of_nil. unfold cut. lia.
  - intros _ w2 (HB2 & l & R & Hl). unfold task_upd. wp_steps.
    change (set_tree _ w2) with (with_shape (fun t => set_shape new_brk (min_fault t) t) pid w2).
    split; [by apply with_shape_books|]. split.
    + intros x a. rewrite with_shape_memory, (rd_memory _ _ _ _ R), (pr_memory _ _ _ PR) by done. fold old.
      destruct (decide (x = pid)) as [->|]; [|by rewrite !decide_False by tauto].
      destruct (memory w pid a) as [m|] eqn:Em; [|by repeat case_decide].
      rewrite <- (pr_memory _ _ _ PR) in Em. assert (memory w1 pid a <> None) as Hn by (by rewrite Em). specialize (Hl a Hn).
      repeat case_decide; tauto.
    + rewrite with_shape_shape, decide_True by done. rewrite <- (rd_shape _ _ _ _ R) in S1. unfold shape in S1 at 1.
      destruct (systask_tree w2 !! pid) as [t2|]; [|done]. injection S1 as <-. done.
    + intros x Hx. by rewrite with_shape_shape, decide_False, (rd_shape _ _ _ _ R), S2.
    + trans w1; [apply PR|]. trans w2; [apply R|]. by split.
Qed.
End brk.
