(* ===== verification/SysmemSendProps.v ===== *)
(** Memory that moves from one task to another keeps its contents, and what was at its new
    place is gone. *)
From S2P Require Import Prelude L4 Pages Sysmem SysmemOps SysmemProps SysmemReplProps SysmemClockProps SysmemTaskProps SysmemAllocProps SysmemFaultProps SysmemDropProps SysmemBrkProps.

Section send.
Context `{LA : !L4Abi, SE : !SysmemEnv, LZ : !LZ4}.

(** ** Moving a page *)

(** The page [lp] of [src] at [a] becomes that of [dst] at [b]. *)
Definition moved (src a dst b lp : Z) (w : sysmem) : sysmem :=
  set_tree (alter (fun t => set_mem (<[b := lp]> (mem t)) t) dst (alter (fun t => set_mem (delete a (mem t)) t) src (systask_tree w)))
    (set_l_pages (alter (set_l_addr b) lp (l_pages w)) w).
Section moved.
Context (H U : list Z) (w : sysmem) (src a dst b lp : Z) (ts td : systask) (l : l_page) (HB : books H None U w)
  (Hs : systask_tree w !! src = Some ts) (Hd : systask_tree w !! dst = Some td) (Ha : mem ts !! a = Some lp)
  (Hb : mem td !! b = None) (Hal : has b PAGE_MASK = false) (Hl : l_pages w !! lp = Some l)
  (Haw : forall m, m ∈ mappings w -> m.1 = page_of (p_addr l) -> page_of (p_addr l) ∈ U).
Let w' := moved src a dst b lp w.

Definition new_mem (pid : Z) (m : gmap Z Z) : gmap Z Z :=
  let m := if decide (pid = src) then delete a m else m in if decide (pid = dst) then <[b := lp]> m else m.
Lemma moved_apart : (src, a) <> (dst, b).
Proof. intros [= -> ->]. congruence. Qed.
Lemma moved_tree pid : systask_tree w' !! pid = (fun t => set_mem (new_mem pid (mem t)) t) <$> systask_tree w !! pid.
Proof.
  cbn. unfold new_mem. destruct (decide (pid = dst)) as [->|Hnd].
  - rewrite lookup_alter_eq. destruct (decide (dst = src)) as [->|Hns]; [rewrite lookup_alter_eq|rewrite lookup_alter_ne by done].
    + by destruct (systask_tree w !! src).
    + by destruct (systask_tree w !! dst).
  - rewrite lookup_alter_ne by done. destruct (decide (pid = src)) as [->|Hns]; [by rewrite lookup_alter_eq|rewrite lookup_alter_ne by done].
    by destruct (systask_tree w !! pid) as [[]|].
Qed.
Lemma new_mem_at pid m k : new_mem pid m !! k =
  if decide ((pid, k) = (dst, b)) then Some lp else if decide ((pid, k) = (src, a)) then None else m !! k.
Proof.
  unfold new_mem. destruct (decide (pid = dst)) as [->|Hnd].
  - destruct (decide (k = b)) as [->|Hk]; [by rewrite lookup_insert_eq, decide_True|]. rewrite lookup_insert_ne by done.
    rewrite (decide_False (P := (dst, k) = (dst, b))) by congruence. destruct (decide (dst = src)) as [->|Hns].
    + destruct (decide (k = a)) as [->|]; [by rewrite lookup_delete_eq, decide_True|]. rewrite lookup_delete_ne by done. by rewrite decide_False by congruence.
    + by rewrite decide_False by congruence.
  - rewrite (decide_False (P := (pid, k) = (dst, b))) by congruence. destruct (decide (pid = src)) as [->|Hns].
    + destruct (decide (k = a)) as [->|]; [by rewrite lookup_delete_eq, decide_True|]. rewrite lookup_delete_ne by done. by rewrite decide_False by congruence.
    + by rewrite decide_False by congruence.
Qed.
Lemma moved_only pid t0 k : systask_tree w !! pid = Some t0 -> mem t0 !! k = Some lp -> (pid, k) = (src, a).
Proof.
  intros Ht0 Hk. pose proof (bk_tasked _ _ _ _ HB) as T. pose proof (tk_one _ T _ _ _ _ _ _ _ Hs Ht0 Ha Hk) as <-.
  replace t0 with ts in Hk by congruence. destruct (tk_mem _ T _ _ _ _ Hs Ha) as (_ & l1 & Hl1 & E1), (tk_mem _ T _ _ _ _ Hs Hk) as (_ & l2 & Hl2 & E2). congruence.
Qed.
Lemma moved_mem pid t' k x : systask_tree w' !! pid = Some t' -> mem t' !! k = Some x ->
  (pid, k) = (dst, b) /\ x = lp \/ x <> lp /\ (pid, k) <> (dst, b) /\ exists t0, systask_tree w !! pid = Some t0 /\ mem t0 !! k = Some x.
Proof.
  rewrite moved_tree. intros (t0 & Ht0 & ->)%fmap_Some. cbn. rewrite new_mem_at. case_decide as E1; [intros [= <-]; by left|].
  case_decide as E2; [done|]. intros Hx. right. split; [|split; [done|by exists t0]]. intros ->. by apply E2, (moved_only pid t0).
Qed.
Lemma moved_keeps pid t0 k x : systask_tree w !! pid = Some t0 -> mem t0 !! k = Some x -> x <> lp ->
  exists t', systask_tree w' !! pid = Some t' /\ mem t' !! k = Some x.
Proof.
  intros Ht0 Hx Hne. exists (set_mem (new_mem pid (mem t0)) t0). rewrite moved_tree, Ht0. split; [done|]. cbn. rewrite new_mem_at.
  rewrite !decide_False; [done| |]; intros [= -> ->]; congruence.
Qed.
Lemma moved_l x : x <> lp -> l_pages w' !! x = l_pages w !! x.
Proof. intros Hx. cbn. by rewrite lookup_alter_ne. Qed.
Lemma moved_lp : l_pages w' !! lp = Some (set_l_addr b l).
Proof. cbn. by rewrite lookup_alter_eq, Hl. Qed.
Lemma moved_place x : p_addr <$> l_pages w' !! x = p_addr <$> l_pages w !! x.
Proof. destruct (decide (x = lp)) as [->|]; [by rewrite moved_lp, Hl|by rewrite moved_l]. Qed.
Lemma moved_held p x : held_by w p x <-> held_by w' p x.
Proof.
  unfold held_by. split; intros (q & lx & Hq & Ho & Hx & E).
  - destruct (core_fwd _ _ _ (moved_place x) lx Hx) as (l' & Hx' & E'). exists q, l'. by rewrite E'.
  - destruct (core_bwd _ _ _ (moved_place x) lx Hx) as (l' & Hx' & E'). exists q, l'. by rewrite E'.
Qed.
Lemma moved_owned : owned None w'.
Proof.
  destruct (bk_owned _ _ _ _ HB) as [O1 O2 O3 O4 O5 O6 O7 O8]. split; try done.
  - intros p Hp. destruct (O2 p Hp) as (x & Hx). exists x. by apply moved_held.
  - intros x lx Hx _. destruct (core_bwd _ _ _ (moved_place x) lx Hx) as (l' & Hx' & <-).
    destruct (O3 x l' Hx') as [?|[(p & ? & ?)|?]]; [done|by left| |by right; right]. right; left. exists p. by rewrite <- moved_held.
  - intros c h Hc. destruct (O5 c h Hc) as [K1 K2 K3 K4 K5 K6]. split; try done. intros x Hx. destruct (K3 x Hx) as (lx & Hlx & E).
    destruct (core_fwd _ _ _ (moved_place x) lx Hlx) as (l' & Hx' & E'). exists l'. by rewrite E'.
Qed.
Lemma moved_tasked : tasked w'.
Proof.
  pose proof (bk_tasked _ _ _ _ HB) as [T1 T2 T3 T4]. split.
  - intros pid t'. rewrite moved_tree. intros (t0 & Ht0 & ->)%fmap_Some. exact (T1 pid t0 Ht0).
  - intros pid t' k x Ht' Hx. destruct (moved_mem _ _ _ _ Ht' Hx) as [([= -> ->] & ->)|(Hne & _ & t0 & Ht0 & Hx0)].
    + split; [done|]. exists (set_l_addr b l). by rewrite moved_lp.
    + rewrite moved_l by done. by apply (T2 pid t0).
  - intros pid pid' t1 t2 k1 k2 x Ht1 Ht2 Hx1 Hx2.
    destruct (moved_mem _ _ _ _ Ht1 Hx1) as [([= -> ->] & ->)|(Hne1 & _ & s1 & Hs1 & Hy1)],
      (moved_mem _ _ _ _ Ht2 Hx2) as [([= -> ->] & E)|(Hne2 & _ & s2 & Hs2 & Hy2)]; try done. by apply (T3 pid pid' s1 s2 k1 k2 x).
  - intros x lx Hx. destruct (decide (x = lp)) as [->|Hne].
    + rewrite moved_lp in Hx. injection Hx as <-. exists dst, (set_mem (new_mem dst (mem td)) td). rewrite moved_tree, Hd. split; [done|].
      cbn. by rewrite new_mem_at, decide_True.
    + rewrite moved_l in Hx by done. destruct (T4 x lx Hx) as (pid & t0 & Ht0 & Hm).
      destruct (moved_keeps _ _ _ _ Ht0 Hm Hne) as (t' & ? & ?). by exists pid, t'.
Qed.
Lemma moved_allocated : allocated w'.
Proof.
  destruct (bk_allocated _ _ _ _ HB) as [A1 A2]. assert (forall ty x, live w' ty x <-> live w ty x) as Hlive.
  { intros ty x. destruct ty; [|done|]; cbn [live].
    - split.
      + intros (pid & t' & Ht' & <-). rewrite moved_tree in Ht'. apply fmap_Some in Ht' as (t0 & Ht0 & ->). by exists pid, t0.
      + intros (pid & t0 & Ht0 & <-). exists pid, (set_mem (new_mem pid (mem t0)) t0). by rewrite moved_tree, Ht0.
    - apply (core_is_some p_addr), moved_place. }
  split.
  - intros ty. destruct (A1 ty) as [D1 D2 D3 D4]. split; [done| |intros x; rewrite Hlive; apply D3|done]. intros x. rewrite Hlive. apply D2.
  - intros pid pid' t1 t2. rewrite !moved_tree. intros (s1 & Hs1 & ->)%fmap_Some (s2 & Hs2 & ->)%fmap_Some. by apply (A2 pid pid' s1 s2).
Qed.
Lemma moved_books : books H None U w'.
Proof.
  split; [|apply moved_owned|apply moved_tasked|apply moved_allocated|].
  - apply (placed_tree H (set_l_pages _ w)), (placed_perm H H w); try done; apply HB.
  - intros pa pid k Hin Hu. destruct (bk_mapped _ _ _ _ HB pa pid k Hin Hu) as (p & q & x & t0 & Hq & Hpa & Ho & Ht0 & Hx).
    destruct (moved_keeps _ _ _ _ Ht0 Hx) as (t' & ? & ?); [|by exists p, q, x, t']. intros ->. apply Hu.
    pose proof (bk_owned _ _ _ _ HB) as O. destruct (ow_active _ _ O p (ow_owner _ _ O p q lp Hq Ho)) as (y & q' & l' & Hq' & Ho' & Hl' & E).
    assert (y = lp) as -> by congruence. assert (page_of (p_addr l) = pa) as Epa.
    { replace l with l' by congruence. replace q with q' in Hpa by congruence. rewrite E, Hpa, <- Hpa. apply P_ADDRESS_page. }
    rewrite <- Epa. by apply (Haw _ Hin).
Qed.
Lemma moved_content x : content w' x = content w x.
Proof. apply content_ext; [apply moved_place|done|done]. Qed.
Lemma moved_memory pid k : memory w' pid k =
  if decide ((pid, k) = (dst, b)) then memory w src a else if decide ((pid, k) = (src, a)) then None else memory w pid k.
Proof.
  unfold memory at 1. rewrite moved_tree. destruct (decide ((pid, k) = (dst, b))) as [[= -> ->]|Hnd].
  { rewrite Hd. cbn [fmap option_fmap option_map mbind option_bind set_mem mem]. rewrite new_mem_at, decide_True by done.
    cbn [mbind option_bind]. rewrite moved_lp. cbn. rewrite moved_content. by rewrite (memory_at w src ts a lp l). }
  unfold memory. destruct (systask_tree w !! pid) as [t0|] eqn:Ht0; [|by case_decide].
  cbn [fmap option_fmap option_map mbind option_bind set_mem mem]. rewrite new_mem_at, (decide_False (P := (pid, k) = (dst, b))) by done. case_decide as Hns; [done|].
  destruct (mem t0 !! k) as [x|] eqn:Hx; [|done]. cbn [mbind option_bind]. rewrite moved_content.
  assert (x <> lp) as Hne by (intros ->; by apply Hns, (moved_only pid t0)). by rewrite moved_l.
Qed.
Lemma moved_shape pid : shape w' pid = shape w pid.
Proof. unfold shape. rewrite moved_tree. by destruct (systask_tree w !! pid). Qed.
End moved.

(** ** The request *)

(** The page of the caller at [a] is that of [dst] at [b], whose shape includes it. *)
Record sent (src a dst b : Z) (w w' : sysmem) : Prop := Sent {
  se_memory pid k : memory w' pid k =
    if decide ((pid, k) = (dst, b)) then memory w src a else if decide ((pid, k) = (src, a)) then None else memory w pid k;
  se_shape : shape w' dst = Some (let '(b0, low, u, k) := default new_shape (shape w dst) in
    (Z.max b0 (Z.lor b PAGE_MASK), Z.min low (page_of b), u, k));
  se_shapes pid : pid <> dst -> shape w' pid = shape w pid;
  se_rest : same_rest w w'
}.
Lemma present_same pid w w' : present pid w w' -> is_Some (systask_tree w !! pid) -> forall x, systask_tree w' !! x = systask_tree w !! x.
Proof.
  intros PR [t Ht] x. destruct (decide (x = pid)) as [->|Hx]; [|by apply PR].
  destruct (pr_task _ _ _ PR) as (t' & Ht' & [E|[E _]]); congruence.
Qed.
Lemma send_to_ok E w src a dst b ts td lp l fp : books [] None (pend fp) w -> systask_tree w !! src = Some ts -> systask_tree w !! dst = Some td ->
  mem ts !! a = Some lp -> l_pages w !! lp = Some l -> mem td !! b = None -> has b PAGE_MASK = false ->
  wp E (fp ← unmap_page (page_of (p_addr l)) fp;
        _ ← task_upd src (fun t => set_mem (delete (l_addr l) (mem t)) t);
        _ ← l_upd lp (set_l_addr b);
        _ ← put_lpage dst lp;
        _ ← task_upd dst (fun t => set_shape (Z.max (brk t) (Z.lor b PAGE_MASK)) (Z.min (min_fault t) (page_of b)) t);
        _ ← unmap_rest fp; mret 0)
    (fun r w' => r = 0 /\ sysmem_ok w' /\ sent src a dst b w w') w.
Proof.
  intros HB Hs Hd Ha Hl Hb Hal. assert (l_addr l = a) as El.
  { destruct (tk_mem _ (bk_tasked _ _ _ _ HB) _ _ _ _ Hs Ha) as (_ & l' & Hl' & <-). congruence. }
  rewrite El. wp_steps. eapply wp_conseq; [by apply (unmap_page_ok E [] None)|]. intros fp' w1 (HB1 & Q & _ & Haw & _).
  pose proof (qt_tree _ _ Q) as Et. pose proof (qt_l _ _ Q) as Elp. unfold task_upd, l_upd, put_lpage. wp_steps.
  assert (exists td', systask_tree (set_l_pages (alter (set_l_addr b) lp (l_pages w1))
    (set_tree (alter (fun t => set_mem (delete a (mem t)) t) src (systask_tree w1)) w1)) !! dst = Some td' /\ mem td' !! b = None) as (td' & Hd' & Hb').
  { cbn. rewrite Et. destruct (decide (dst = src)) as [->|Hne]; [|exists td; by rewrite lookup_alter_ne].
    exists (set_mem (delete a (mem td)) td). rewrite lookup_alter_eq, Hd. split; [done|]. cbn. apply lookup_delete_None. by right. }
  eapply wp_task_of; [exact Hd'|]. wp_steps. eapply wp_l_at; [cbn; rewrite Elp, lookup_alter_eq, Hl; done|]. cbn [set_l_addr l_addr]. rewrite Hb'.
  unfold task_upd. wp_steps. change (set_tree (alter (fun t => set_mem (<[b:=lp]> (mem t)) t) dst _) _) with (moved src a dst b lp w1).
  set (g := fun t => set_shape _ _ t). change (set_tree _ (moved src a dst b lp w1)) with (with_shape g dst (moved src a dst b lp w1)).
  rewrite <- Et in Hs, Hd. rewrite <- Elp in Hl.
  assert (books [] None (pend fp') (moved src a dst b lp w1)) as HB2 by by eapply (moved_books [] (pend fp') w1).
  set (w2 := with_shape g dst _). assert (books [] None (pend fp') w2) as HB3 by by apply with_shape_books.
  eapply wp_conseq; [by apply (unmap_rest_ok E [] None)|]. intros [] w3 [HB4 Q3]. wp_steps. split; [done|]. split; [done|].
  assert (forall pid k, memory w3 pid k = memory (moved src a dst b lp w1) pid k) as Em.
  { intros pid k. trans (memory w2 pid k); [by apply (remains_memory None); [apply turned_remains, quiet_turned|]|]. by apply with_shape_memory. }
  assert (forall pid k, memory w1 pid k = memory w pid k) as Em1.
  { intros pid k. by apply (remains_memory None); [apply turned_remains, quiet_turned|]. }
  assert (forall pid, shape w1 pid = shape w pid) as Es1 by (intros pid; unfold shape; by rewrite Et).
  assert (forall pid, shape w3 pid = shape w2 pid) as Es3 by (intros pid; unfold shape; by rewrite (qt_tree _ _ Q3)).
  split.
  - intros pid k. rewrite Em, (moved_memory [] (pend fp') w1 src a dst b lp ts td l), !Em1 by done. done.
  - rewrite Es3. unfold w2. rewrite with_shape_shape, decide_True by done. rewrite <- Es1. unfold shape.
    rewrite (moved_tree w1 src a dst b lp ts td), Hd by done. done.
  - intros pid Hne. rewrite Es3. unfold w2. rewrite with_shape_shape, decide_False by done.
    rewrite (moved_shape w1 src a dst b lp ts td) by done. apply Es1.
  - trans w1; [by apply quiet_rest|]. trans w2; [by split|]. by apply quiet_rest.
Qed.

(** A task that sysmem has not known is made, and the page at [b] is all that it has. *)
Definition made_with (dst b : Z) (w w' : sysmem) : Prop :=
  systask_tree w !! dst = None -> is_Some (systask_tree w' !! dst) /\ forall k, k <> b -> memory w' dst k = None.
Lemma sent_made src a dst b w w' : sent src a dst b w w' -> made_with dst b w w'.
Proof.
  intros [S1 S2 S3 S4] Hn. split.
  - unfold shape in S2. destruct (systask_tree w' !! dst); [by eexists|done].
  - intros k Hk. rewrite S1, decide_False by (by intros [= ->]). case_decide; [done|]. unfold memory. by rewrite Hn.
Qed.

(** What becomes of a request to send the page at [a] *)
Definition send_outcome (src a dest b : Z) (w : sysmem) (r : Z) (w' : sysmem) : Prop :=
  if src <? SNEKS_MIN_SYSID then r = EINVAL /\ w' = w
  else match memory w src a with
  | None => r = EFAULT /\ present src w w'
  | Some _ =>
      if L4_IsNilThread dest then r = 0 /\ removed src [a] w w'
      else if pid_of dest <? SNEKS_MIN_SYSID then r = EINVAL /\ present src w w'
      else r = 0 /\ sent src a (pid_of dest) b w w' /\ made_with (pid_of dest) b w w'
  end.
(** Nothing is there at [b] any more. *)
Lemma clear_place_ok E w dst b td : sysmem_ok w -> systask_tree w !! dst = Some td -> wp E
  (match mem td !! b with None => mret (Some []) | Some dstp => remove_l_page dst dstp (Some []) end)
  (fun fp w' => books [] None (pend fp) w' /\ removed dst [b] w w') w.
Proof.
  intros HB Hd. destruct (mem td !! b) as [dstp|] eqn:Hb.
  { eapply wp_conseq; [by eapply (remove_l_page_ok E [])|]. by intros fp w' (? & ? & _). }
  wp_steps. split; [done|]. split; try done; [|intros t Ht; by exists t].
  intros pid k. case_decide as Hk; [|done]. destruct Hk as [-> ->%list_elem_of_singleton]. unfold memory. rewrite Hd. cbn. by rewrite Hb.
Qed.
Lemma sent_after dst src a b w w2 w3 w4 : (src, a) <> (dst, b) -> present dst w w2 -> removed dst [b] w2 w3 -> sent src a dst b w3 w4 -> sent src a dst b w w4.
Proof.
  intros Hne PR RM [S1 S2 S3 S4]. destruct (present_shape _ _ _ PR) as [P1 P2]. split.
  - intros pid k. rewrite S1, !(rd_memory _ _ _ _ RM), !(pr_memory _ _ _ PR). rewrite (decide_False (P := src = dst /\ a ∈ [b])).
    + repeat case_decide; try done. exfalso. destruct H1 as [-> ->%list_elem_of_singleton]. done.
    + intros [-> ->%list_elem_of_singleton]. done.
  - by rewrite S2, (rd_shape _ _ _ _ RM), P1.
  - intros pid Hp. by rewrite S3, (rd_shape _ _ _ _ RM), P2.
  - trans w2; [apply PR|]. trans w3; [apply RM|done].
Qed.
Lemma present_trans_known pid w w1 w2 : present pid w w1 -> is_Some (systask_tree w !! pid) -> forall x, present x w1 w2 -> present x w w2.
Proof.
  intros PR Hs x [B1 B2 B3 B4]. pose proof (present_same _ _ _ PR Hs) as Ht. split.
  - destruct B1 as (t & Ht2 & Hc). exists t. split; [done|]. by rewrite <- Ht.
  - intros y Hy. by rewrite B2.
  - intros y a. by rewrite B3, (pr_memory _ _ _ PR).
  - trans w1; [apply PR|done].
Qed.
Lemma impl_send_virt_ok w a dest b : let src := caller w in
  sysmem_ok w -> has a PAGE_MASK = false -> (L4_IsNilThread dest = true \/ has b PAGE_MASK = false /\ (src, a) <> (pid_of dest, b)) ->
  wp no_memory (impl_send_virt a dest b) (fun r w' => sysmem_ok w' /\ send_outcome src a dest b w r w') w.
Proof.
  intros src HB Ha Hgood. pose proof (pid_of_range (sm_sender w)) as Hs. fold (caller w) src in Hs. pose proof (pid_of_range dest) as Hd.
  unfold impl_send_virt, send_outcome. wp_steps. fold (caller w). fold src.
  destruct (Z.ltb_spec src SNEKS_MIN_SYSID) as [Hlt|Hge]; [by wp_steps|]. wp_steps.
  eapply wp_conseq; [by apply (get_task_ok [] [])|]. intros r w1 (-> & HB1 & PR). wp_steps.
  destruct (pr_task _ _ _ PR) as (ts & Hts & _). eapply get_lpage_ok; [done|done|]. rewrite <- (pr_memory _ _ _ PR).
  destruct (mem ts !! a) as [lp|] eqn:Hlp; cycle 1.
  { assert (memory w1 src a = None) as -> by (unfold memory; rewrite Hts; cbn; by rewrite Hlp). by wp_steps. }
  destruct (tk_mem _ (bk_tasked _ _ _ _ HB1) _ _ _ _ Hts Hlp) as (_ & l & Hl & _).
  pose proof (memory_at w1 src ts a lp l Hts Hlp Hl) as Em. assert (is_Some (systask_tree w !! src)) as Hsome.
  { rewrite (pr_memory _ _ _ PR) in Em. destruct (memory_task _ _ _ _ Em) as (t & _ & _ & Ht & _). by exists t. }
  rewrite Em. wp_steps. destruct (L4_IsNilThread dest) eqn:En; cbn [negb].
  - wp_steps. eapply wp_conseq; [by eapply (remove_l_page_ok no_memory [] src a lp ts (Some []))|]. intros fp w2 (HB2 & R & _). wp_steps.
    eapply wp_conseq; [by apply (unmap_rest_ok no_memory [] None)|]. intros [] w3 [HB3 Q]. wp_steps. split; [done|]. split; [done|].
    pose proof (drop_trans _ _ [] _ _ _ R (removed_nil src _ _ Q)) as R3. rewrite app_nil_r in R3.
    pose proof (present_same _ _ _ PR Hsome) as Et. destruct R3 as [R1 R2 R3 R4 R5]. split.
    + intros pid k. by rewrite R1, (pr_memory _ _ _ PR).
    + intros pid. rewrite R2. unfold shape. by rewrite Et.
    + intros pid Hp. by rewrite R3, Et.
    + intros t. rewrite <- Et. apply R4.
    + trans w1; [apply PR|done].
  - destruct Hgood as [?|[Hb Hne]]; [done|]. destruct (Z.ltb_spec (pid_of dest) SNEKS_MIN_SYSID) as [Hlt|Hdge]; [by wp_steps|]. wp_steps.
    set (dst := pid_of dest) in *. eapply wp_conseq; [by apply (get_task_ok [] [])|]. intros r w2 (-> & HB2 & PR2). wp_steps.
    pose proof (present_trans_known _ _ _ _ PR Hsome _ PR2) as PR2'.
    destruct (pr_task _ _ _ PR2) as (td & Htd & _). eapply get_lpage_ok; [done|done|]. wp_steps.
    assert (exists ts2, systask_tree w2 !! src = Some ts2 /\ mem ts2 !! a = Some lp) as (ts2 & Hts2 & Hlp2).
    { destruct (decide (src = dst)) as [->|Hsd]; [|exists ts; by rewrite (pr_other _ _ _ PR2)].
      exists ts. by rewrite (present_same _ _ _ PR2 ltac:(by exists ts)). }
    eapply wp_conseq; [by apply (clear_place_ok no_memory w2 dst b td)|]. intros fp w3 [HB3 RM].
    assert (exists ts3, systask_tree w3 !! src = Some ts3 /\ mem ts3 !! a = Some lp) as (ts3 & Hts3 & Hlp3).
    { destruct (decide (src = dst)) as [E|Hsd]; [|exists ts2; by rewrite (rd_other _ _ _ _ RM)]. rewrite <- E in RM.
      destruct (rd_task _ _ _ _ RM ts2 Hts2) as (t3 & Ht3 & _ & Hm). exists t3. split; [done|]. rewrite Hm; [done|].
      intros ->%list_elem_of_singleton. apply Hne. by rewrite E. }
    destruct (rd_task _ _ _ _ RM td Htd) as (td3 & Htd3 & _ & _).
    destruct (tk_mem _ (bk_tasked _ _ _ _ HB3) _ _ _ _ Hts3 Hlp3) as (_ & l3 & Hl3 & _). wp_steps. eapply wp_l_at; [done|].
    eapply wp_conseq; [eapply (send_to_ok no_memory w3 src a dst b ts3 td3 lp l3 fp); try done|].
    { apply (memory_none w3 dst); [apply HB3|done|]. rewrite (rd_memory _ _ _ _ RM), decide_True; [done|]. by rewrite list_elem_of_singleton. }
    intros r w4 (-> & HB4 & S). split; [done|]. split; [done|].
    assert (sent src a dst b w w4) as S' by by eapply sent_after. split; [done|by apply (sent_made src a)].
Qed.
End send.
