(* ===== verification/SysmemFlagProps.v ===== *)
(** Flags of memory, and the shape of tasks as others are told. *)
From S2P Require Import Prelude L4 Pages Sysmem SysmemOps SysmemProps SysmemReplProps SysmemClockProps SysmemTaskProps SysmemAllocProps SysmemFaultProps SysmemDropProps SysmemBrkProps.

Section flags.
Context `{LA : !L4Abi, SE : !SysmemEnv, LZ : !LZ4}.

(** ** A page *)

(** Memory whose flags are changed.  What has neither flags nor contents is gone. *)
Definition alter_cell (or_mask and_mask : Z) (m : option (Z * option (list Z))) : option (Z * option (list Z)) :=
  match m with
  | None => Some (or_mask, None)
  | Some (f, c) =>
      let f := Z.land (Z.lor f or_mask) and_mask in
      if (f =? 0) && bool_decide (c = None) then None else Some (f, c)
  end.
(** The memory of [task] at the addresses that satisfy [D] is changed by [g]. *)
Record touched (task : Z) (D : Z -> Prop) `{!forall a, Decision (D a)} (g : option (Z * option (list Z)) -> option (Z * option (list Z)))
    (w w' : sysmem) : Prop := Touched {
  to_memory pid a : memory w' pid a = if decide (pid = task /\ D a) then g (memory w pid a) else memory w pid a;
  to_shape pid : shape w' pid = shape w pid;
  to_task : is_Some (systask_tree w !! task) -> is_Some (systask_tree w' !! task);
  to_rest : same_rest w w'
}.

Definition with_flags (fl lp : Z) (w : sysmem) : sysmem := set_l_pages (alter (set_l_flags fl) lp (l_pages w)) w.
Lemma with_flags_alike fl lp w : alike w (with_flags fl lp w).
Proof.
  split; try done; auto. intros x. cbn. destruct (decide (x = lp)) as [->|]; [|by rewrite lookup_alter_ne].
  rewrite lookup_alter_eq. by destruct (l_pages w !! lp).
Qed.
Lemma with_flags_memory w fl lp task addr t l : tasked w -> systask_tree w !! task = Some t -> mem t !! addr = Some lp -> l_pages w !! lp = Some l ->
  forall pid a, memory (with_flags fl lp w) pid a = if decide ((pid, a) = (task, addr)) then Some (fl, content w lp) else memory w pid a.
Proof.
  intros T Ht Ha Hl pid a. pose proof (alike_content w (with_flags fl lp w)) as Hc. case_decide as E.
  - injection E as -> ->. rewrite (memory_at (with_flags fl lp w) task t addr lp (set_l_flags fl l)); [|done|done|cbn; by rewrite lookup_alter_eq, Hl].
    cbn. by rewrite Hc by apply with_flags_alike.
  - unfold memory. cbn [with_flags systask_tree set_l_pages]. destruct (systask_tree w !! pid) as [t'|] eqn:Ht'; cbn [mbind option_bind]; [|done].
    destruct (mem t' !! a) as [x|] eqn:Hx; cbn [mbind option_bind]; [|done]. assert (x <> lp) as Hne.
    { intros ->. apply E. pose proof (tk_one _ T _ _ _ _ _ _ _ Ht Ht' Ha Hx) as <-. replace t' with t in Hx by congruence.
      destruct (tk_mem _ T _ _ _ _ Ht Ha) as (_ & l1 & Hl1 & E1), (tk_mem _ T _ _ _ _ Ht Hx) as (_ & l2 & Hl2 & E2). congruence. }
    cbn. rewrite lookup_alter_ne by done. destruct (l_pages w !! x); cbn; [|done]. change (set_l_pages _ w) with (with_flags fl lp w).
    by rewrite Hc by apply with_flags_alike.
Qed.

Lemma alter_page_ok w task or_mask and_mask addr t : sysmem_ok w -> systask_tree w !! task = Some t -> has addr PAGE_MASK = false ->
  wp no_memory (alter_page task or_mask and_mask addr) (fun _ w' => sysmem_ok w'
    /\ touched task (fun a => a = addr) (alter_cell or_mask and_mask) w w') w.
Proof.
  intros HB Ht Hal. pose proof (bk_tasked _ _ _ _ HB) as T. unfold alter_page. wp_steps. eapply get_lpage_ok; [done|done|].
  destruct (mem t !! addr) as [lp|] eqn:Ha.
  - destruct (tk_mem _ T _ _ _ _ Ht Ha) as (_ & l & Hl & _). wp_steps. eapply wp_l_at; [done|].
    set (fl := Z.land _ _). unfold l_upd. wp_steps. change (set_l_pages _ w) with (with_flags fl lp w).
    pose proof (alike_books _ _ _ _ _ (with_flags_alike fl lp w) HB) as HB1. fold (sysmem_ok (with_flags fl lp w)) in HB1.
    pose proof (with_flags_memory w fl lp task addr t l T Ht Ha Hl) as Em. pose proof (memory_at w task t addr lp l Ht Ha Hl) as Em0.
    assert (bool_decide (content w lp = None) = (p_addr l =? 0)) as Ez.
    { destruct (Z.eqb_spec (p_addr l) 0) as [Hz|Hz]; [apply bool_decide_true; by apply (content_zero w lp l)|].
      apply bool_decide_false. by apply (content_some [] [] w lp l). }
    assert (same_rest w (with_flags fl lp w)) as R1 by (by split).
    destruct ((fl =? 0) && (p_addr l =? 0)) eqn:Eb.
    + wp_steps. eapply wp_conseq; [by apply (remove_l_page_ok no_memory [] task addr lp t None)|]. intros fp w2 (HB2 & R & Hno).
      wp_steps. destruct R as [M1 M2 M3 M4 M5]. rewrite Hno in HB2 by done.
      split; [done|]. split.
      * intros pid a. rewrite M1. case_decide as E1; [|rewrite Em].
        -- destruct E1 as [-> ->%list_elem_of_singleton]. rewrite decide_True by done. rewrite Em0. cbn. fold fl. by rewrite Ez, Eb.
        -- repeat case_decide; try done; exfalso; apply E1; set_solver.
      * intros pid. by rewrite M2.
      * intros _. destruct (M4 t Ht) as (t' & ? & _). by exists t'.
      * by trans (with_flags fl lp w).
    + wp_steps. split; [done|]. split; [|done|done|done].
      intros pid a. rewrite Em. repeat case_decide; try done; [|set_solver..]. injection H as -> ->. rewrite Em0. cbn. fold fl. by rewrite Ez, Eb.
  - wp_steps. eapply wp_conseq; [by apply (new_lpage_ok [] [] w task addr 0 or_mask t)|]. intros lp w1 (HB1 & Hl & [(t' & Ht' & Ha') [E1 E2] E3]).
    wp_steps. pose proof (settle_page [] [] w1 lp _ HB1 Hl eq_refl) as HB2. split; [done|]. split; [|done|by exists t'|done].
    intros pid a. case_decide as Hd; [|apply E1; intros [= -> ->]; by apply Hd].
    destruct Hd as [-> ->]. rewrite (memory_at w1 task t' addr lp _ Ht' Ha' Hl), (content_zero w1 lp _ Hl eq_refl).
    unfold memory. rewrite Ht. cbn. by rewrite Ha.
Qed.

(** ** A range *)

Definition in_range (addr high a : Z) : Prop := addr <= a < high /\ a mod 4096 = 0.
#[global] Instance in_range_dec addr high a : Decision (in_range addr high a).
Proof. unfold in_range. apply _. Defined.
Lemma touched_none task D `{!forall a, Decision (D a)} g w : (forall a, ~ D a) -> touched task D g w w.
Proof. intros HD. split; try done. intros pid a. rewrite decide_False; [done|]. intros [_ Ha]. by apply (HD a). Qed.
Lemma touched_step task addr high g w1 w2 w3 : addr mod 4096 = 0 -> addr < high -> touched task (fun a => a = addr) g w1 w2 ->
  touched task (in_range (addr + 4096) high) g w2 w3 -> touched task (in_range addr high) g w1 w3.
Proof.
  intros Hal Hlt [A1 A2 A3 A4] [B1 B2 B3 B4]. split.
  - intros pid a. rewrite B1, A1. unfold in_range.
    assert (addr <= a < high /\ a mod 4096 = 0 <-> a = addr \/ addr + 4096 <= a < high /\ a mod 4096 = 0) as Hr.
    { split; [|intros [->|?]; [|split; [lia|tauto]]]; [|split; [lia|done]]. intros [Hr Hm].
      destruct (decide (a = addr)); [by left|right]. split; [|done]. clear -Hr Hm Hal n. Z.to_euclidean_division_equations; lia. }
    repeat case_decide; try done; exfalso; try tauto. destruct H as [_ [? _]], H0 as [_ ->]. lia.
  - intros pid. by rewrite B2.
  - auto.
  - by trans w2.
Qed.
Lemma alter_range_ok fuel w task or_mask and_mask addr high : sysmem_ok w -> is_Some (systask_tree w !! task) -> 0 <= addr -> addr mod 4096 = 0 ->
  high + 4096 <= 2 ^ 32 -> high - addr < 4096 * Z.of_nat fuel ->
  wp no_memory (alter_range fuel task or_mask and_mask addr high) (fun _ w' => sysmem_ok w'
    /\ touched task (in_range addr high) (alter_cell or_mask and_mask) w w') w.
Proof.
  revert w addr. induction fuel as [|fuel IH]; intros w addr HB [t Ht] Hlo Hal Hhi Hf; cbn [alter_range]; destruct (Z.ltb_spec addr high); cbn [negb];
    [lia| | |]; [wp_steps; split; [done|]; apply touched_none; intros a [? _]; lia| |wp_steps; split; [done|]; apply touched_none; intros a [? _]; lia].
  wp_steps. eapply wp_conseq; [apply (alter_page_ok w task or_mask and_mask addr t); try done; by apply aligned_mod|].
  intros [] w1 [HB1 T1]. assert (u32 (addr + PAGE_SIZE) = addr + 4096) as -> by (unfold PAGE_SIZE; apply u32_id; lia).
  eapply wp_conseq; [apply (IH w1 (addr + 4096)); try done; [by eapply to_task; [exact T1|exists t]|lia| |lia]|].
  { clear -Hal. rewrite Z.add_mod, Hal by lia. done. }
  intros [] w2 [HB2 T2]. split; [done|]. by apply (touched_step task addr high _ w w1 w2).
Qed.

Definition flags_refused (w : sysmem) (task range or_mask and_mask : Z) : bool :=
  negb (Z.land or_mask (bnot32 and_mask) =? 0) || (L4_Size range <? PAGE_BITS)
  || (negb (L4_IsNilThread task) && (caller w =? pid_of task)).
Definition flags_task (w : sysmem) (task : Z) : Z := if L4_IsNilThread task then caller w else pid_of task.
Definition flags_outcome (task range or_mask and_mask : Z) (w : sysmem) (r : Z) (w' : sysmem) : Prop :=
  if flags_refused w task range or_mask and_mask then r = - EINVAL /\ w' = w
  else match (if flags_task w task <? SNEKS_MIN_SYSID then None else shape w (flags_task w task)) with
  | None => r = - EINVAL /\ w' = w
  | Some (_, _, u, k) =>
      if fpage_overlap u range || fpage_overlap k range then r = - EINVAL /\ w' = w
      else r = 0 /\ touched (flags_task w task) (in_range (L4_Address range) (L4_Address range + L4_Size range)) (alter_cell or_mask and_mask) w w'
  end.
Lemma impl_alter_flags_ok w task range or_mask and_mask : sysmem_ok w -> 0 <= L4_Address range -> L4_Address range mod 4096 = 0 ->
  L4_Address range + L4_Size range + 4096 <= 2 ^ 32 ->
  wp no_memory (impl_alter_flags task range or_mask and_mask) (fun r w' => sysmem_ok w' /\ flags_outcome task range or_mask and_mask w r w') w.
Proof.
  intros HB Hlo Hal Hhi. unfold impl_alter_flags, flags_outcome, flags_refused, flags_task. wp_steps. fold (caller w).
  pose proof all_pages_Z as Hfuel. revert Hfuel. generalize all_pages. intros fuel Hfuel.
  destruct (negb (Z.land or_mask (bnot32 and_mask) =? 0)); [by wp_steps|]. destruct (L4_Size range <? PAGE_BITS); [by wp_steps|]. cbn [orb].
  destruct (negb (L4_IsNilThread task) && (caller w =? pid_of task)); [by wp_steps|].
  assert (pid_of (if L4_IsNilThread task then sm_sender w else task) = if L4_IsNilThread task then caller w else pid_of task) as Ep by (by destruct (L4_IsNilThread task)).
  unfold find_task. rewrite Ep. set (pid := if L4_IsNilThread task then _ else _). wp_steps.
  destruct (pid <? SNEKS_MIN_SYSID) eqn:Elt; [by wp_steps|]. wp_steps. unfold shape.
  destruct (systask_tree w !! pid) as [t|] eqn:Ht; cbn [fmap option_fmap option_map]; [|by wp_steps].
  destruct (fpage_overlap _ _ || _); [by wp_steps|]. wp_steps.
  assert (0 <= L4_Size range) as Hsz by apply u32_range.
  rewrite (proj1 (tk_pid w (bk_tasked _ _ _ _ HB) pid t Ht)). rewrite u32_id by lia.
  eapply wp_conseq; [apply (alter_range_ok fuel w pid); try done; lia|]. intros [] w1 [HB1 T]. by wp_steps.
Qed.

(** ** Shapes *)

Lemma impl_get_shape_ok E w task : wp E (impl_get_shape task) (fun r w' => w' = w /\
  match (if pid_of task <? SNEKS_MIN_SYSID then None else shape w (pid_of task)) with
  | None => r = (ENOENT, 0, 0)
  | Some (b, low, u, k) => exists lo hi, r = (0, lo, hi) /\ forall x, x ∈ [b; low] ++ FP_EDGES u ++ FP_EDGES k -> lo <= x <= hi
  end) w.
Proof.
  unfold impl_get_shape, find_task. wp_steps. destruct (pid_of task <? SNEKS_MIN_SYSID); [by wp_steps|]. wp_steps. unfold shape.
  destruct (systask_tree w !! pid_of task) as [t|]; cbn [fmap option_fmap option_map]; wp_steps; [|done]. split; [done|].
  set (edges := [brk t; min_fault t] ++ _). eexists _, _. split; [done|].
  assert (forall (l : list Z) a x, x ∈ l \/ a <= x -> foldl Z.min a l <= x) as Hmin.
  { induction l as [|y l IH]; intros a x Hx; cbn; [destruct Hx as [?%elem_of_nil|?]; done|]. apply IH.
    destruct Hx as [[->|?]%elem_of_cons|?]; [right; lia|by left|right; lia]. }
  assert (forall (l : list Z) a x, x ∈ l \/ x <= a -> x <= foldl Z.max a l) as Hmax.
  { induction l as [|y l IH]; intros a x Hx; cbn; [destruct Hx as [?%elem_of_nil|?]; done|]. apply IH.
    destruct Hx as [[->|?]%elem_of_cons|?]; [right; lia|by left|right; lia]. }
  intros x Hx. split; [by apply Hmin; left|by apply Hmax; left].
Qed.
(** The kernel areas of a task are set once. *)
Definition areas_outcome (task utcb kip : Z) (w : sysmem) (r : Z) (w' : sysmem) : Prop :=
  match (if pid_of task <? SNEKS_MIN_SYSID then None else shape w (pid_of task)) with
  | None => r = ENOENT /\ w' = w
  | Some (b, low, u, k) =>
      if L4_IsNilFpage utcb || L4_IsNilFpage kip then r = EINVAL /\ w' = w
      else if L4_IsNilFpage u && L4_IsNilFpage k then r = 0
        /\ (forall pid a, memory w' pid a = memory w pid a)
        /\ (forall pid, shape w' pid = if decide (pid = pid_of task)
             then Some (b, low, L4_Set_Rights utcb L4_ReadWriteOnly, L4_Set_Rights kip L4_ReadWriteOnly) else shape w pid)
        /\ same_rest w w'
      else r = EEXIST /\ w' = w
  end.
Lemma impl_set_kernel_areas_ok E w task utcb kip : sysmem_ok w ->
  wp E (impl_set_kernel_areas task utcb kip) (fun r w' => sysmem_ok w' /\ areas_outcome task utcb kip w r w') w.
Proof.
  intros HB. unfold impl_set_kernel_areas, areas_outcome, find_task. wp_steps. destruct (pid_of task <? SNEKS_MIN_SYSID); [by wp_steps|].
  wp_steps. unfold shape at 1. destruct (systask_tree w !! pid_of task) as [t|] eqn:Ht; cbn [fmap option_fmap option_map]; [|by wp_steps].
  destruct (L4_IsNilFpage utcb || L4_IsNilFpage kip); [by wp_steps|]. rewrite <- negb_andb.
  destruct (L4_IsNilFpage (utcb_area t) && L4_IsNilFpage (kip_area t)); cbn [negb]; [|by wp_steps].
  rewrite (proj1 (tk_pid w (bk_tasked _ _ _ _ HB) _ t Ht)). unfold task_upd. wp_steps. set (g := set_kernel_areas _ _).
  change (set_tree _ w) with (with_shape g (pid_of task) w). split; [by apply with_shape_books|]. split; [done|].
  split; [intros; by apply with_shape_memory|]. split; [|by split].
  intros pid. rewrite with_shape_shape, Ht. by repeat case_decide.
Qed.
End flags.
