(* ===== verification/SysmemGrantProps.v ===== *)
(** Memory from the root task: frames that sysmem did not have become free, or the memory
    of a task at their own addresses. *)
From S2P Require Import Prelude L4 Pages Sysmem SysmemOps SysmemProps SysmemReplProps SysmemClockProps SysmemTaskProps SysmemAllocProps SysmemFaultProps SysmemDropProps SysmemBrkProps.

Section grant.
Context `{LA : !L4Abi, SE : !SysmemEnv, LZ : !LZ4}.

(** ** Descriptors of frames *)

Definition new_frame (w : sysmem) (a : Z) : Prop := forall p q, p_pages w !! p = Some q -> P_ADDRESS q <> a.
Definition with_ppage (p a : Z) (w : sysmem) : sysmem := set_p_pages (<[p := PPage a None 0]> (p_pages w)) w.
Lemma books_placed H H' X U w : books H X U w -> placed H' w -> books H' X U w.
Proof. intros [P O T A M] P'. by split. Qed.

Section with_ppage.
Context (H U : list Z) (w : sysmem) (p a : Z) (HB : books H None U w) (F : fresh w APPage p) (Ha : page_of a = a).
Let w' := with_ppage p a w.

Lemma with_ppage_new : p_pages w !! p = None.
Proof. destruct F as [F1 _]. cbn in F1. by destruct (p_pages w !! p); [destruct F1|]. Qed.
Lemma with_ppage_p x : x <> p -> p_pages w' !! x = p_pages w !! x.
Proof. intros Hx. cbn. by rewrite lookup_insert_ne. Qed.
Lemma with_ppage_old x q : p_pages w !! x = Some q -> p_pages w' !! x = Some q.
Proof. intros Hq. rewrite with_ppage_p; [done|]. intros ->. by rewrite with_ppage_new in Hq. Qed.
Lemma with_ppage_addr : paddr w' p = a.
Proof. unfold paddr. cbn. rewrite lookup_insert_eq. done. Qed.
Lemma place_known x : x ∈ places w ++ H -> x <> p /\ exists q, p_pages w !! x = Some q.
Proof.
  intros Hx. pose proof (pl_pos _ _ (bk_placed _ _ _ _ HB) x Hx) as Hp. unfold paddr in Hp. destruct (p_pages w !! x) as [q|] eqn:Hq; [|lia].
  split; [|by exists q]. intros ->. by rewrite with_ppage_new in Hq.
Qed.
Lemma with_ppage_paddr x : x ∈ places w ++ H -> paddr w' x = paddr w x.
Proof. intros [Hx _]%place_known. unfold paddr. by rewrite with_ppage_p. Qed.
Lemma with_ppage_held x y : held_by w x y <-> held_by w' x y.
Proof.
  split; intros (q & l & Hq & Ho & Hl & E); exists q, l; [split; [by apply with_ppage_old|done]|].
  cbn in Hq. apply lookup_insert_Some in Hq as [[_ <-]|[_ Hq]]; [done|done].
Qed.
Lemma with_ppage_owned : owned None w'.
Proof.
  destruct (bk_owned _ _ _ _ HB) as [O1 O2 O3 O4 O5 O6 O7 O8]. split; try done.
  - intros x q y Hq Ho. cbn in Hq. apply lookup_insert_Some in Hq as [[_ <-]|[_ Hq]]; [done|]. by apply (O1 x q y).
  - intros x Hx. destruct (O2 x Hx) as (y & Hy). exists y. by apply with_ppage_held.
  - intros y l Hl Hy. destruct (O3 y l Hl Hy) as [?|[(x & Hx & Hh)|?]]; [by left| |by right; right].
    right; left. exists x. by rewrite <- with_ppage_held.
  - intros c h Hc. destruct (O5 c h Hc). split; try done. rewrite with_ppage_paddr; [done|]. by eapply stored_place.
Qed.
Lemma with_ppage_allocated : allocated w'.
Proof.
  destruct (bk_allocated _ _ _ _ HB) as [A1 A2]. destruct F as [F1 [F2 F3]].
  assert (forall ty x, live w' ty x -> live w ty x \/ ty = APPage /\ x = p) as Hl.
  { intros [] x; [by left| |by left]. cbn. intros [q [[<- _]|[_ Hq]]%lookup_insert_Some]; [by right|left; by exists q]. }
  assert (forall ty x, in_pages w ty x -> in_pages w' ty x) as Hin.
  { intros ty x (p' & nx & Hp' & Hn). exists p', nx. split; [done|]. rewrite with_ppage_paddr; [done|].
    apply heads_page_place in Hp'. unfold places. rewrite !elem_of_app. tauto. }
  split; [|done]. intros ty. destruct (A1 ty) as [D1 D2 D3 D4]. split; [done| | |].
  - intros x Hx [?|[-> ->]]%Hl; [by apply (D2 x)|done].
  - intros x Hx. assert (in_pages w ty x \/ in_pool w ty x) as [?|?]; [|left; by apply Hin|by right].
    destruct Hx as [[?|[-> ->]]%Hl|?]; [apply D3; auto|exact F3|apply D3; auto].
  - intros p' Hp'. rewrite with_ppage_paddr; [by apply D4|]. apply heads_page_place in Hp'.
    unfold places. rewrite !elem_of_app. tauto.
Qed.
Lemma with_ppage_books : books H None U w'.
Proof.
  pose proof HB as [P O T A M]. split; [|apply with_ppage_owned|by destruct T; split|apply with_ppage_allocated|].
  - apply (placed_perm H H w); try done; [apply with_ppage_paddr|apply P|]. intros x Hx. destruct (pl_hand _ _ P x Hx) as [q Hq].
    exists q. by apply with_ppage_old.
  - intros pa pid b Hin Hu. destruct (M pa pid b Hin Hu) as (x & q & y & t & Hq & Hrest). exists x, q, y, t. split; [by apply with_ppage_old|done].
Qed.
Context (Hnew : new_frame w a) (Hpos : 0 < a).
Lemma with_ppage_nodup : NoDup (paddr w' <$> (p :: places w' ++ H)).
Proof.
  rewrite fmap_cons, with_ppage_addr. apply NoDup_cons. split.
  - rewrite list_elem_of_fmap. intros (x & E & Hx). destruct (place_known x Hx) as (_ & q & Hq). rewrite with_ppage_paddr in E by done.
    apply (Hnew x q Hq). by rewrite <- (paddr_at _ _ _ Hq).
  - apply with_ppage_books.
Qed.
Lemma with_ppage_placed : usable a -> placed (p :: H) w'.
Proof.
  intros Hu. pose proof (bk_placed _ _ _ _ with_ppage_books) as [P1 P2 P3 P4 P5]. split; [| | |done|done].
  - assert (places w' ++ p :: H ≡ₚ p :: places w' ++ H) as -> by perm. apply with_ppage_nodup.
  - intros x. rewrite elem_of_app, elem_of_cons. intros [?|[->|?]]; [apply P2; set_solver|by rewrite with_ppage_addr|apply P2; set_solver].
  - intros x. rewrite elem_of_app, elem_of_cons. intros [?|[->|?]] Hr; [apply P3; set_solver|by rewrite with_ppage_addr|apply P3; set_solver].
Qed.
Lemma with_ppage_reserved : books H None U (set_reserved (reserved_page_list w' ++ [p]) w').
Proof.
  pose proof with_ppage_books as [[P1 P2 P3 P4 P5] O T A M]. set (w2 := set_reserved _ w').
  assert (places w2 ++ H ≡ₚ p :: places w' ++ H) as Hp.
  { unfold places, heads_pages. cbn. perm. }
  split; [split; try done| |by destruct T; split| |done].
  - change (paddr w2) with (paddr w'). rewrite Hp. apply with_ppage_nodup.
  - intros x. rewrite Hp, elem_of_cons. intros [->|Hx]; [|by apply P2]. change (paddr w2 p) with (paddr w' p). by rewrite with_ppage_addr.
  - intros x. rewrite Hp, elem_of_cons. intros Hx Hr. change (x ∉ reserved_page_list w' ++ [p]) in Hr.
    rewrite elem_of_app, list_elem_of_singleton in Hr. apply P3; tauto.
  - destruct O as [O1 O2 O3 O4 O5 O6 O7 O8]. split; try done. intros c h Hc. destruct (O5 c h Hc). by split.
  - destruct A as [A1 A2]. split; [|done]. intros ty. destruct (A1 ty) as [D1 D2 D3 D4]. split; [done|by destruct ty|by destruct ty|done].
Qed.
End with_ppage.

Lemma with_ppage_content w p a x : content (with_ppage p a w) x = content w x.
Proof. done. Qed.

(** ** Their contents *)

Definition received (w : sysmem) (a : Z) : list Z := take (Z.to_nat PAGE_SIZE) (sm_granted (sm_trace w) a ++ replicate (Z.to_nat PAGE_SIZE) 0).
Lemma length_received w a : length (received w a) = Z.to_nat PAGE_SIZE.
Proof. unfold received. rewrite length_take, length_app, length_replicate. lia. Qed.
Lemma frame_set w a f b : frame (set_frames (<[a := f]> (frames w)) w) b = if decide (b = a) then f else frame w b.
Proof. unfold frame. cbn. destruct (decide (b = a)) as [->|]; [by rewrite lookup_insert_eq|by rewrite lookup_insert_ne]. Qed.
Lemma frame_books H U w p f : books (p :: H) None U w -> length f = Z.to_nat PAGE_SIZE ->
  let w' := set_frames (<[paddr w p := f]> (frames w)) w in books (p :: H) None U w' /\ forall x, content w' x = content w x.
Proof.
  intros HB Hf w'. pose proof HB as [P O T A M]. assert (forall x, x ∈ places w -> paddr w x <> paddr w p) as Hne.
  { intros x Hx. apply (placed_apart (p :: H) w (places w) (p :: H)); [done|done|done|by left]. }
  assert (forall c h, c_hdrs w !! c = Some h -> frame w' c = frame w c) as Hhdr.
  { intros c h Hc. unfold w'. rewrite frame_set, decide_False; [done|]. rewrite <- (ho_phys _ _ _ (ow_hdr _ _ O c h Hc)). apply Hne.
    rewrite <- (app_nil_r (places w)). by eapply stored_place. }
  split; [split|].
  - by apply (placed_perm (p :: H) (p :: H) w); try done; apply P.
  - destruct O as [O1 O2 O3 O4 O5 O6 O7 O8]. split; try done.
    + intros c h Hc. destruct (O5 c h Hc) as [K1 K2 K3 K4 K5 K6]. by split; rewrite ?(Hhdr c h).
    + intros a. unfold w'. rewrite frame_set. by destruct (decide _).
  - destruct T. by split.
  - destruct A as [A1 A2]. split; [|done]. intros ty. destruct (A1 ty) as [D1 D2 D3 D4]. split; [done|by destruct ty|by destruct ty|done].
  - done.
  - intros x. apply content_ext; [done| |]; intros l Hl Hs.
    + intros Hz. unfold w'. rewrite frame_set, decide_False; [done|].
      destruct (ow_lpage _ _ O x l Hl) as [?|[(p' & Ha & q & l2 & Hq & Ho & Hl2 & E)|(Hs' & _)]]; [done|done| |by rewrite Hs in Hs'].
      replace l with l2 by congruence. rewrite E, <- (paddr_at _ _ _ Hq). apply Hne. rewrite <- (app_nil_r (places w)). by apply active_place.
    + unfold slot_at. change (c_hdrs w') with (c_hdrs w). destruct (c_hdrs w !! page_of (p_addr l)) as [h|] eqn:Eh; [|done]. by rewrite (Hhdr _ h).
Qed.
Lemma books_free_tail p H X U w : books (p :: H) X U w -> books H X U (set_free (free_page_list w ++ [p]) (u32 (num_free_pages w + 1)) w).
Proof.
  intros HB. pose proof (bk_placed _ _ _ _ HB) as P. apply (books_free (p :: H)); [done|].
  apply (placed_perm (p :: H) H w); try done; [|cbn|apply P].
  - unfold places, heads_pages. cbn. perm.
  - rewrite (pl_count _ _ P), length_app. unfold u32. cbn [length]. rewrite Zplus_mod_idemp_l. f_equal. lia.
Qed.
Lemma books_enable H X U w b : books H X U w -> books H X U (set_repl_enable b w).
Proof. apply alike_books. split; auto. Qed.

(** ** What the root task gives *)

(** The frames that are known afterwards are those before, and [l]. *)
Record enlarged (l : list Z) (w w' : sysmem) : Prop := Enlarged {
  en_p x q : p_pages w' !! x = Some q -> P_ADDRESS q ∈ l \/ exists x' q', p_pages w !! x' = Some q' /\ P_ADDRESS q' = P_ADDRESS q;
  en_info : sysinfo w' = sysinfo w;
  en_sender : sm_sender w' = sm_sender w;
  en_no_reply : sm_no_reply w' = sm_no_reply w;
  en_maps m : m ∈ mappings w' -> m ∈ mappings w
}.
Lemma enlarged_rest w w' : same_rest w w' -> enlarged [] w w'.
Proof. intros [R1 R2 R3 R4 R5 R6]. split; try done. intros x q Hq. right. destruct (core_bwd _ _ _ (R5 x) q Hq) as (q' & ? & ?). by exists x, q'. Qed.
Lemma enlarged_trans l1 l2 w1 w2 w3 : enlarged l1 w1 w2 -> enlarged l2 w2 w3 -> enlarged (l1 ++ l2) w1 w3.
Proof.
  intros A B. split; [|by rewrite (en_info _ _ _ B), (en_info _ _ _ A)|by rewrite (en_sender _ _ _ B), (en_sender _ _ _ A)
    |by rewrite (en_no_reply _ _ _ B), (en_no_reply _ _ _ A)|intros m Hm; by apply (en_maps _ _ _ A), (en_maps _ _ _ B)].
  intros x q Hq. destruct (en_p _ _ _ B x q Hq) as [?|(y & q1 & Hq1 & <-)]; [left; set_solver|].
  destruct (en_p _ _ _ A y q1 Hq1) as [?|?]; [left; set_solver|by right].
Qed.
Lemma enlarged_new l w w' a : enlarged l w w' -> new_frame w a -> a ∉ l -> new_frame w' a.
Proof.
  intros E Hn Ha p q Hq. destruct (en_p _ _ _ E p q Hq) as [?|(x & q' & Hq' & <-)]; [congruence|]. by apply (Hn x q').
Qed.

Definition in_image (a : Z) : bool := (image_start <=? a) && (a <? page_of (u32 (image_end + PAGE_MASK))).
Definition in_first (a : Z) : bool := (first_mem <=? a) && (a <? first_mem + Z.of_nat NUM_INIT_PAGES * PAGE_SIZE).
(** A frame that may be given to sysmem: it is not one that it has already, but for those
    that it started with, nor where its first structures are, but for its own image. *)
Definition grantable (task : option Z) (w : sysmem) (a : Z) : Prop :=
  0 < a /\ page_of a = a /\ if bool_decide (task = None) && in_image a then in_first a = true \/ new_frame w a
    else new_frame w a /\ usable a.

(** What becomes of the memory of tasks *)
Record given_out (task : option Z) (l : list Z) (w w' : sysmem) : Prop := GivenOut {
  gt_memory pid a : (forall t, task = Some t -> pid = t -> a ∉ l) -> memory w' pid a = memory w pid a;
  gt_task t a : task = Some t -> a ∈ l -> exists f, memory w' t a = Some (0, Some f);
  gt_shape pid : (forall t, task = Some t -> pid <> t) -> shape w' pid = shape w pid;
  gt_there t : task = Some t -> is_Some (systask_tree w !! t) -> is_Some (systask_tree w' !! t);
  gt_rest : enlarged l w w'
}.

(** The frame [a] with the descriptor [p] is put where it belongs: frames of sysmem's image are
    set aside, but for those that it has had from the start; any other one goes to the end of
    the free list and is counted, and has what the root task has put into it. *)
Definition made_free (p a : Z) (w w' : sysmem) : Prop :=
  if in_image a then
    if in_first a then w' = with_ppage p a w
    else w' = set_reserved (reserved_page_list w ++ [p]) (with_ppage p a w)
  else
    w' = set_repl_enable (repl_enable w || (60 <? u32 (num_free_pages w + 1)))
           (set_free (free_page_list w ++ [p]) (u32 (num_free_pages w + 1))
             (set_frames (<[a := received w a]> (frames w)) (with_ppage p a w))).
(** So it is with each frame, one after the other, for which memory for the descriptor is found. *)
Inductive freed : list Z -> sysmem -> sysmem -> Prop :=
| freed_nil w : freed [] w w
| freed_cons a l p w w1 w2 w3 : alloc APPage w = Ret p w1 -> made_free p a w1 w2 -> freed l w2 w3 -> freed (a :: l) w w3.

Record granted (task : option Z) (l : list Z) (w w' : sysmem) : Prop := Granted {
  gr_memory : given_out task l w w';
  gr_free : task = None -> freed l w w'
}.

Lemma given_out_trans task l1 l2 w1 w2 w3 : given_out task l1 w1 w2 -> given_out task l2 w2 w3 -> given_out task (l1 ++ l2) w1 w3.
Proof.
  intros A B. split.
  - intros pid a Ha. rewrite (gt_memory _ _ _ _ B), (gt_memory _ _ _ _ A); [done| |]; intros t Ht Hp ?; apply (Ha t Ht Hp); set_solver.
  - intros t a Ht Ha. destruct (decide (a ∈ l2)) as [|Hn]; [by apply (gt_task _ _ _ _ B)|].
    destruct (gt_task _ _ _ _ A t a Ht ltac:(set_solver)) as (f & E). exists f. rewrite (gt_memory _ _ _ _ B); [done|]. by intros t' _ _.
  - intros pid Hp. by rewrite (gt_shape _ _ _ _ B), (gt_shape _ _ _ _ A).
  - intros t Ht Hs. by eapply gt_there, gt_there.
  - eapply enlarged_trans; [apply A|apply B].
Qed.
Lemma remains_given_out task w w' : remains None w w' -> given_out task [] w w'.
Proof.
  intros R. split; [| | | |by apply enlarged_rest, (remains_rest None)].
  - intros pid a _. by apply (remains_memory None).
  - by intros t a _ ?%elem_of_nil.
  - intros pid _. by apply (remains_shape None).
  - intros t _. by rewrite (rm_tree _ _ _ R).
Qed.
(** Steps that leave tasks alone *)
Lemma given_out_same task l w w' : (systask_tree w', l_pages w') = (systask_tree w, l_pages w) -> (forall x, content w' x = content w x) ->
  enlarged l w w' -> task = None -> given_out task l w w'.
Proof.
  intros [= E1 E2] Hc E ->. split; try done.
  - intros pid a _. unfold memory. rewrite E1. destruct (systask_tree w !! pid); cbn; [|done]. destruct (mem _ !! a); cbn; [|done].
    rewrite E2. destruct (l_pages w !! _); cbn; [|done]. by rewrite Hc.
  - intros pid _. unfold shape. by rewrite E1.
Qed.
Lemma with_ppage_enlarged p a w : page_of a = a -> enlarged [a] w (with_ppage p a w).
Proof.
  intros Ha. split; try done. intros x q. cbn. intros [[_ <-]|[_ Hq]]%lookup_insert_Some; [left|right; by exists x, q].
  rewrite list_elem_of_singleton. exact Ha.
Qed.
Lemma add_free_page_ok E w p a : sysmem_ok w -> fresh w APPage p -> grantable None w a ->
  wp E (add_free_page p) (fun _ w' => sysmem_ok w' /\ given_out None [a] w w' /\ made_free p a w w') (with_ppage p a w).
Proof.
  intros HB F (Hpos & Ha & Hg). change (bool_decide (None = None) && in_image a) with (in_image a) in Hg.
  pose proof (with_ppage_books [] [] w p a HB F) as HB1. pose proof (with_ppage_enlarged p a w Ha) as En.
  assert (P_ADDRESS (PPage a None 0) = a) as Ea by exact Ha. set (w1 := with_ppage p a w) in *. unfold made_free.
  unfold add_free_page. wp_steps. eapply wp_p_at; [cbn; apply lookup_insert_eq|]. rewrite Ea. fold (in_image a) (in_first a).
  destruct (in_image a).
  - destruct (in_first a) eqn:Ef; wp_steps.
    + split; [done|]. split; [by apply given_out_same|done].
    + destruct Hg as [?|Hn]; [done|]. split; [by apply (with_ppage_reserved [] [])|]. split; [|done].
      apply given_out_same; try done. by destruct En.
  - destruct Hg as [Hn Hu]. unfold receive, set_frame. wp_steps. fold (received w1 a).
    assert (books [p] None [] w1) as HB2 by (eapply books_placed; [done|]; by apply (with_ppage_placed [] [])).
    destruct (frame_books [] [] w1 p (received w1 a) HB2 (length_received _ _)) as [HB3 Hc].
    assert (paddr w1 p = a) as Epa by by apply with_ppage_addr. rewrite Epa in HB3, Hc. set (w2 := set_frames _ w1) in *.
    pose proof (books_free_tail p [] None [] w2 HB3) as HB4. set (w3 := set_free _ _ w2) in *.
    assert (given_out None [a] w w3) as G by (apply given_out_same; [done| |by destruct En|done]; intros x; exact (Hc x)).
    change (num_free_pages w3) with (u32 (num_free_pages w + 1)). destruct (60 <? u32 (num_free_pages w + 1)) eqn:E60; cbn [when_].
    + wp_steps. split; [by apply books_enable|]. split; [|by rewrite orb_true_r].
      destruct G as [G1 G2 G3 G4 G5]. split; try done. by destruct G5.
    + wp_steps. split; [done|]. split; [done|]. rewrite orb_false_r. by destruct w.
Qed.
Lemma add_task_page_ok w task p a : sysmem_ok w -> is_Some (systask_tree w !! task) -> fresh w APPage p -> grantable (Some task) w a ->
  wp no_memory (add_task_page task p) (fun _ w' => sysmem_ok w' /\ given_out (Some task) [a] w w') (with_ppage p a w).
Proof.
  intros HB [t Ht] F (Hpos & Ha & Hn & Hu). pose proof (with_ppage_books [] [] w p a HB F) as HB0. pose proof (with_ppage_enlarged p a w Ha) as En.
  assert (P_ADDRESS (PPage a None 0) = a) as Ea by exact Ha. set (w1 := with_ppage p a w) in *.
  assert (books [p] None [] w1) as HB1 by (eapply books_placed; [done|]; by apply (with_ppage_placed [] [])).
  unfold add_task_page. wp_steps. eapply wp_p_at; [cbn; apply lookup_insert_eq|]. rewrite Ea.
  assert (has a PAGE_MASK = false) as Hal by (rewrite <- Ha; apply page_of_aligned).
  wp_steps. destruct (mem t !! a) as [lp0|] eqn:Em.
  { unfold new_lpage. wp_steps. eapply wp_conseq; [by apply (sm_alloc_ok [p] [])|]. intros lp w2 (_ & R & _). wp_steps. unfold put_lpage. wp_steps.
    eapply wp_task_of; [cbn; rewrite (rm_tree _ _ _ R); exact Ht|]. wp_steps. eapply wp_l_at; [cbn; apply lookup_insert_eq|]. cbn [l_addr].
    rewrite Em. by wp_steps. }
  eapply wp_conseq; [by apply (new_lpage_ok [p] [] w1 task a a 0 t)|]. intros lp w2 (HB2 & Hl2 & AP).
  unfold receive, set_frame, p_upd, active_add, task_upd. wp_steps. fold (received w2 a). set (f := received w2 a).
  pose proof AP as [(t2 & Ht2 & Ha2) [AE AR] AS].
  pose proof (sr_p _ _ AR p) as Ep. assert (exists q, p_pages w2 !! p = Some q /\ P_ADDRESS q = a) as (q & Hq & Eq).
  { cbn in Ep. rewrite lookup_insert_eq in Ep. cbn in Ep. destruct (p_pages w2 !! p) as [q|]; [|done]. injection Ep as Ep. exists q. by rewrite Ep, Ea. }
  set (wa := set_p_pages (alter (set_age 1) p (p_pages w2)) w2).
  assert (books [p] (Some (lp, None)) [] wa) as HBa by (eapply alike_books; [|done]; by apply (quiet_p p (set_age 1))).
  set (w3 := set_active _ _). assert (given p lp a f None wa w3) as G.
  { split; try done.
    - cbn. apply map_eq. intros x. destruct (decide (x = p)) as [->|]; [|by rewrite !lookup_alter_ne]. rewrite !lookup_alter_eq. by destruct (p_pages w2 !! p).
    - cbn. symmetry. apply map_eq. intros x. destruct (decide (x = lp)) as [->|]; [by rewrite lookup_alter_eq, Hl2|by rewrite lookup_alter_ne].
    - intros b. apply (frame_set w2). }
  assert (p_pages wa !! p = Some (set_age 1 q)) as Hqa by (cbn; by rewrite lookup_alter_eq, Hq).
  pose proof (given_settled [] [] wa wa w3 p lp _ _ f None HBa Hqa Hl2 (length_received _ _)) as S.
  change (P_ADDRESS (set_age 1 q)) with (P_ADDRESS q) in S. rewrite Eq in S. specialize (S G ltac:(reflexivity)).
  set (g := fun t => set_shape _ _ t). change (set_tree _ w3) with (with_shape g task w3).
  pose proof (remains_elsewhere None wa w3 task a t2 lp (bk_tasked _ _ _ _ HBa) Ht2 Ha2 (st_remains _ _ _ _ _ _ S)) as [EM ER].
  assert (quiet w2 wa) as Qa by by apply (quiet_p p (set_age 1)).
  assert (forall pid b, memory wa pid b = memory w2 pid b) as Ema by (intros; by apply (remains_memory None); [apply turned_remains, quiet_turned|]).
  split; [apply with_shape_books; [done|apply S]|]. split.
  - intros pid b Hb. assert ((pid, b) <> (task, a)) as Hne by (intros [= -> ->]; apply (Hb task); [done|done|by left]).
    rewrite with_shape_memory by done. by rewrite EM, Ema, AE.
  - intros t' b [= <-] ->%list_elem_of_singleton. exists f. rewrite with_shape_memory by done.
    apply (settled_memory [] [] None task a lp f wa w3 (LPage a a 0) t2 (bk_tasked _ _ _ _ HBa) Ht2 Ha2 Hl2 S (st_remains _ _ _ _ _ _ S)).
  - intros pid Hp. rewrite with_shape_shape, decide_False by (by apply Hp). rewrite (remains_shape _ _ _ pid (st_remains _ _ _ _ _ _ S)).
    trans (shape w2 pid); [done|]. by rewrite AS.
  - intros t' [= <-] _. exists (g t2). change (systask_tree (with_shape g task w3)) with (alter g task (systask_tree w3)).
    change (systask_tree w3) with (systask_tree w2). by rewrite lookup_alter_eq, Ht2.
  - apply (enlarged_trans [a] [] w w1); [done|]. apply enlarged_rest. trans w2; [done|]. trans wa; [by apply quiet_rest|]. by trans w3.
Qed.

(** The frames from number [n] on *)
Fixpoint frames_from (count : nat) (n : Z) : list Z :=
  match count with O => [] | S count => u32 (Z.shiftl n PAGE_BITS) :: frames_from count (u32 (n + 1)) end.
Lemma grantable_after task l w w' a : enlarged l w w' -> a ∉ l -> grantable task w a -> grantable task w' a.
Proof.
  intros En Hl (Hp & Ha & Hg). split; [done|]. split; [done|]. destruct (_ && _).
  - destruct Hg as [?|Hn]; [by left|right; by eapply enlarged_new].
  - destruct Hg as [Hn Hu]. split; [by eapply enlarged_new|done].
Qed.
Lemma add_pages_ok count w task n : sysmem_ok w -> (forall t, task = Some t -> is_Some (systask_tree w !! t)) ->
  NoDup (frames_from count n) -> Forall (grantable task w) (frames_from count n) ->
  wp no_memory (add_pages count task n) (fun _ w' => sysmem_ok w' /\ granted task (frames_from count n) w w') w.
Proof.
  revert w n. induction count as [|count IH]; intros w n HB Ht Hn Hg; cbn [add_pages frames_from] in *.
  { wp_steps. split; [done|]. split; [by apply remains_given_out|intros _; constructor]. }
  apply NoDup_cons in Hn as [Hna Hn]. apply Forall_cons in Hg as [Hga Hg]. set (a := u32 (Z.shiftl n PAGE_BITS)) in *.
  wp_steps. pose proof (sm_alloc_ok [] [] w APPage HB) as Hal. unfold wp in Hal |- *. destruct (alloc APPage w) as [p w1|] eqn:Eal; [|done].
  destruct Hal as (HB1 & R & F). match goal with |- match ?m w1 with _ => _ end => change (wp no_memory m
    (fun _ w' => sysmem_ok w' /\ granted task (a :: frames_from count (u32 (n + 1))) w w') w1) end. wp_steps.
  pose proof (remains_given_out task w w1 R) as G0. change (set_p_pages _ w1) with (with_ppage p a w1).
  assert (grantable task w1 a) as Hga1 by (eapply grantable_after; [apply G0|by apply not_elem_of_nil|done]).
  apply (wp_conseq _ _ (fun _ w2 => sysmem_ok w2 /\ given_out task [a] w1 w2 /\ (task = None -> made_free p a w1 w2))).
  { destruct task as [t|].
    - eapply wp_conseq; [apply add_task_page_ok; try done; rewrite (rm_tree _ _ _ R); by apply Ht|]. intros [] w2 [H1 H2]. by split_and!.
    - eapply wp_conseq; [by apply add_free_page_ok|]. intros [] w2 (H1 & H2 & H3). by split_and!. }
  intros [] w2 (HB2 & G2 & M2). pose proof (given_out_trans _ _ _ _ _ _ G0 G2) as G.
  eapply wp_conseq; [apply (IH w2 (u32 (n + 1))); [done| |done|]|].
  - intros t Hs. eapply gt_there; [exact G|done|by apply Ht].
  - rewrite Forall_forall in Hg |- *. intros b Hb. eapply grantable_after; [apply G|cbn; rewrite list_elem_of_singleton; by intros ->|by apply Hg].
  - intros [] w3 [HB3 [G3 M3]]. split; [done|]. split; [by apply (given_out_trans task [a] _ w w2)|].
    intros Hno. apply (freed_cons a _ p w w1 w2); auto.
Qed.
End grant.
