(* ===== verification/SysmemServeProps.v ===== *)
(** The main loop of sysmem: every turn keeps the books, whatever it is asked, and what
    tasks write is seen in their own memory only. *)
From S2P Require Import Prelude L4 Pages Sysmem SysmemOps SysmemProps SysmemReplProps SysmemClockProps SysmemTaskProps SysmemAllocProps SysmemFaultProps SysmemDropProps SysmemBrkProps SysmemSendProps SysmemFlagProps SysmemGrantProps.

Section serve.
Context `{LA : !L4Abi, SE : !SysmemEnv, LZ : !LZ4}.

(** ** What holds of a request that returns *)

Definition anyhow (r : stop) : Prop := True.
Lemma any_wp {A E} (m : M sysmem A) Q w : wp E m Q w -> wp anyhow m Q w.
Proof. intros Hm. by eapply wp_mono. Qed.
Lemma any_assert b (Q : unit -> sysmem -> Prop) w : (b = true -> Q tt w) -> wp anyhow (assert_ b) Q w.
Proof. intros HQ. destruct b; [by apply wp_assert, HQ|by apply wp_assert_false]. Qed.
Lemma any_of_option {A} r (o : option A) (Q : A -> sysmem -> Prop) w : (forall a, o = Some a -> Q a w) -> wp anyhow (of_option r o) Q w.
Proof. intros HQ. destruct o as [a|]; [by apply HQ|done]. Qed.
Lemma any_lpage task addr (Q : option Z -> sysmem -> Prop) w :
  (forall t, has addr PAGE_MASK = false -> systask_tree w !! task = Some t -> Q (mem t !! addr) w) -> wp anyhow (get_lpage task addr) Q w.
Proof.
  intros HQ. unfold get_lpage. wp_steps. apply any_assert. intros Ha%negb_true_iff. wp_steps. unfold task_of. wp_steps.
  apply any_of_option. intros t Ht. wp_steps. by apply HQ.
Qed.
Lemma any_task pid (Q : Z -> sysmem -> Prop) w : sysmem_ok w -> SNEKS_MIN_SYSID <= pid < 2 ^ 16 ->
  (forall w', sysmem_ok w' -> present pid w w' -> Q pid w') -> wp anyhow (get_task pid) Q w.
Proof.
  intros HB Hp HQ. eapply any_wp, wp_conseq; [by apply (get_task_ok [] [])|]. intros r w' (-> & ? & ?). by apply HQ.
Qed.
Lemma caller_range w : caller w < 2 ^ 16.
Proof. apply pid_of_range. Qed.

Definition keeps {A} (m : M sysmem A) (w : sysmem) : Prop := wp anyhow m (fun _ w' => sysmem_ok w') w.
Lemma keeps_ok {A E} (m : M sysmem A) (P : A -> sysmem -> Prop) w : wp E m (fun a w' => sysmem_ok w' /\ P a w') w -> keeps m w.
Proof. intros Hm. eapply any_wp, wp_conseq; [exact Hm|]. by intros a w' [? _]. Qed.
Lemma alike_ok w w' : alike w w' -> sysmem_ok w -> sysmem_ok w'.
Proof. apply alike_books. Qed.

Lemma rm_task_keeps w pid : sysmem_ok w -> keeps (impl_rm_task pid) w.
Proof.
  intros HB. destruct (decide (SNEKS_MIN_SYSID <= pid)) as [Hp|Hp]; [by eapply keeps_ok, (impl_rm_task_ok anyhow)|].
  unfold keeps, impl_rm_task. replace (pid <? SNEKS_MIN_SYSID) with true by lia. by wp_steps.
Qed.
Lemma handle_pf_keeps w tid faddr (Q : option mapping -> sysmem -> Prop) : sysmem_ok w ->
  (forall o w', sysmem_ok w' -> (forall m, o = Some m -> maps_to w' m.1 m.2.1 m.2.2) -> Q o w') -> wp anyhow (handle_pf tid faddr) Q w.
Proof.
  intros HB HQ. eapply any_wp, wp_conseq; [by apply handle_pf_all|]. intros o w' [HB' Ho]. apply HQ; [done|]. intros m ->.
  unfold pf_outcome in Ho. destruct (decide _); [by destruct Ho|]. destruct Ho as (_ & _ & _ & pa & [= ->] & ?). done.
Qed.
Lemma handle_fault_keeps w faddr : sysmem_ok w -> keeps (impl_handle_fault faddr) w.
Proof.
  intros HB. unfold keeps, impl_handle_fault. wp_steps. apply handle_pf_keeps; [done|]. intros [m|] w' HB' Hm; unfold map_page; wp_steps.
  - apply map_page_ok; [done|by apply Hm].
  - apply (alike_ok w'); [split; auto|done].
Qed.
Lemma interim_fault_keeps w peer faddr : sysmem_ok w -> keeps (interim_fault peer faddr) w.
Proof.
  intros HB. unfold keeps, interim_fault. wp_steps. apply handle_pf_keeps; [done|]. intros [m|] w' HB' Hm; unfold map_page; wp_steps; [|done].
  apply map_page_ok; [done|by apply Hm].
Qed.

(** ** The break *)

Lemma first_page_keeps fuel w task addr high : wp anyhow (first_page fuel task addr high) (fun _ w' => w' = w) w.
Proof.
  revert addr. induction fuel as [|fuel IH]; intros addr; cbn [first_page]; destruct (negb _); [by wp_steps..|].
  wp_steps. apply any_lpage. intros t _ _. destruct (mem t !! addr); [by wp_steps|apply IH].
Qed.
Lemma brk_keeps w b : sysmem_ok w -> keeps (impl_brk b) w.
Proof.
  intros HB. unfold keeps, impl_brk. generalize all_pages. intros fuel. wp_steps. fold (caller w).
  destruct (Z.ltb_spec (caller w) SNEKS_MIN_SYSID) as [|Hp]; [by wp_steps|]. pose proof (caller_range w).
  wp_steps. apply any_task; [done|lia|]. intros w1 HB1 _. wp_steps. unfold task_of. wp_steps. apply any_of_option. intros t Ht.
  assert (forall w2, sysmem_ok w2 -> wp anyhow (task_upd (caller w) (fun t => set_shape b (min_fault t) t)) (fun _ w' => sysmem_ok w') w2) as Hend.
  { intros w2 HB2. unfold task_upd. wp_steps. by apply (with_shape_books [] None []). }
  wp_steps. apply wp_when; [|by intros; apply Hend]. intros _. wp_steps. eapply wp_conseq; [apply first_page_keeps|].
  intros [lp|] w2 ->; wp_steps; [|by apply Hend]. eapply any_wp, wp_conseq.
  { eapply (remove_l_pages_ok anyhow [] (caller w) _ t); [done|done| |].
    - eapply sublist_nodup_fst; [apply pages_from_sub|apply in_order_nodup].
    - intros a x Hin. apply elem_of_in_order. eapply elem_of_submseteq; [exact Hin|]. apply sublist_submseteq, pages_from_sub. }
  intros fp w3 [HB3 _]. eapply wp_conseq; [by apply (unmap_rest_ok anyhow [] None)|]. intros [] w4 [HB4 _]. by apply Hend.
Qed.

(** ** Sending memory *)

(** A page that is sent to where it is already is gone before it is sent. *)
Lemma removed_gone task a lp t w w' : sysmem_ok w -> tasked w' -> systask_tree w !! task = Some t -> mem t !! a = Some lp ->
  removed task [a] w w' -> l_pages w' !! lp = None.
Proof.
  intros HB T' Ht Ha R. destruct (l_pages w' !! lp) as [l|] eqn:Hl; [|done]. exfalso. pose proof (bk_tasked _ _ _ _ HB) as T.
  destruct (tk_home _ T' lp l Hl) as (pid & t' & Ht' & Ha'). assert (memory w' pid (l_addr l) <> None) as Hm.
  { rewrite (memory_at w' pid t' _ lp l) by done. done. }
  rewrite (rd_memory _ _ _ _ R) in Hm. case_decide as Hd; [done|]. destruct (memory w pid (l_addr l)) as [m|] eqn:Em; [|done].
  destruct (memory_task _ _ _ _ Em) as (t0 & lp0 & l0 & Ht0 & Ha0 & Hl0 & _). assert (lp0 = lp) as ->.
  { destruct (decide (pid = task)) as [->|Hp].
    - destruct (rd_task _ _ _ _ R t0 Ht0) as (t1 & Ht1 & _ & M1). replace t' with t1 in Ha' by congruence. rewrite M1 in Ha'; [congruence|].
      intros Hin. by apply Hd.
    - rewrite (rd_other _ _ _ _ R) in Ht' by done. congruence. }
  pose proof (tk_one _ T _ _ _ _ _ _ _ Ht Ht0 Ha Ha0) as <-. replace t0 with t in Ha0 by congruence.
  destruct (tk_mem _ T _ _ _ _ Ht Ha) as (_ & l1 & Hl1 & E1), (tk_mem _ T _ _ _ _ Ht Ha0) as (_ & l2 & Hl2 & E2).
  apply Hd. split; [done|]. rewrite list_elem_of_singleton. congruence.
Qed.
Definition bad_place (src a dst b : Z) : Prop := has b PAGE_MASK = true \/ (src, a) = (dst, b).
Lemma send_virt_bad w a dest b : sysmem_ok w -> L4_IsNilThread dest = false -> bad_place (caller w) a (pid_of dest) b ->
  keeps (impl_send_virt a dest b) w.
Proof.
  intros HB En Hbad. pose proof (caller_range w). pose proof (pid_of_range dest). unfold keeps, impl_send_virt. wp_steps. fold (caller w).
  set (src := caller w) in *. destruct (Z.ltb_spec src SNEKS_MIN_SYSID) as [|Hp]; [by wp_steps|]. wp_steps.
  apply any_task; [done|lia|]. intros w1 HB1 _. wp_steps. apply any_lpage. intros ts _ Hts.
  destruct (mem ts !! a) as [lp|] eqn:Hlp; [|by wp_steps]. rewrite En. cbn [negb].
  set (dst := pid_of dest) in *. destruct (Z.ltb_spec dst SNEKS_MIN_SYSID) as [|Hp2]; [by wp_steps|]. wp_steps.
  apply any_task; [done|lia|]. intros w2 HB2 PR. wp_steps. apply any_lpage. intros td Hal Htd.
  destruct Hbad as [Hb|[= E1 E2]]; [congruence|]. rewrite <- E1, <- E2 in *. clear E1 E2.
  pose proof (present_same _ _ _ PR ltac:(by exists ts)) as Et. rewrite Et in Htd. assert (td = ts) as -> by congruence. rewrite <- Et in Hts.
  wp_steps. rewrite Hlp. eapply wp_conseq; [by eapply (remove_l_page_ok anyhow [] src a lp ts (Some []))|].
  intros fp w3 (HB3 & R & _). wp_steps. unfold l_at. wp_steps. apply any_of_option. intros l.
  by rewrite (removed_gone src a lp ts w2 w3 HB2 (bk_tasked _ _ _ _ HB3) Hts Hlp R).
Qed.
Lemma send_virt_keeps w a dest b : sysmem_ok w -> keeps (impl_send_virt a dest b) w.
Proof.
  intros HB. destruct (has a PAGE_MASK) eqn:Ha.
  - pose proof (caller_range w). unfold keeps, impl_send_virt. wp_steps. fold (caller w).
    destruct (Z.ltb_spec (caller w) SNEKS_MIN_SYSID) as [|Hp]; [by wp_steps|]. wp_steps.
    apply any_task; [done|lia|]. intros w1 HB1 _. wp_steps. apply any_lpage. intros ts Hal. congruence.
  - destruct (L4_IsNilThread dest) eqn:En; [eapply keeps_ok, impl_send_virt_ok; [done|done|by left]|].
    destruct (has b PAGE_MASK) eqn:Hb; [apply send_virt_bad; [done|done|by left]|].
    destruct (decide ((caller w, a) = (pid_of dest, b))) as [E|]; [apply send_virt_bad; [done|done|by right]|].
    eapply keeps_ok, impl_send_virt_ok; [done|done|by right].
Qed.

(** ** Flags *)

Lemma alter_range_keeps fuel w task o m addr high : sysmem_ok w -> is_Some (systask_tree w !! task) -> keeps (alter_range fuel task o m addr high) w.
Proof.
  unfold keeps. revert w addr. induction fuel as [|fuel IH]; intros w addr HB [t Ht]; cbn [alter_range]; destruct (negb _); [by wp_steps..|]. wp_steps.
  destruct (has addr PAGE_MASK) eqn:Ha.
  { unfold alter_page. wp_steps. apply any_lpage. congruence. }
  eapply any_wp, wp_conseq; [by apply (alter_page_ok w task o m addr t)|]. intros [] w1 [HB1 T]. eapply wp_mono; [apply IH; [done|]|done].
  by eapply to_task; [exact T|exists t].
Qed.
Lemma alter_flags_keeps w task range o m : sysmem_ok w -> keeps (impl_alter_flags task range o m) w.
Proof.
  intros HB. unfold keeps, impl_alter_flags. generalize all_pages. intros fuel. wp_steps.
  destruct (negb (Z.land o (bnot32 m) =? 0)); [by wp_steps|]. destruct (L4_Size range <? PAGE_BITS); [by wp_steps|].
  destruct (negb (L4_IsNilThread task) && _); [by wp_steps|]. unfold find_task. set (pid := pid_of _). destruct (pid <? SNEKS_MIN_SYSID); [by wp_steps|]. wp_steps.
  destruct (systask_tree w !! pid) as [t|] eqn:Ht; [|by wp_steps]. destruct (fpage_overlap _ _ || _); [by wp_steps|]. wp_steps.
  rewrite (proj1 (tk_pid w (bk_tasked _ _ _ _ HB) pid t Ht)). eapply wp_conseq; [apply alter_range_keeps; [done|by exists t]|].
  intros [] w1 HB1. by wp_steps.
Qed.

(** ** Memory from the root task *)

(** What the root task promises of the frames it gives *)
Definition promised (w : sysmem) (r : smreq) : Prop :=
  match r with
  | SmSendPhys dest n size =>
      let l := frames_from (Z.to_nat (2 ^ (size - PAGE_BITS))) n in
      NoDup l /\ Forall (grantable (if L4_IsNilThread dest then None else Some (pid_of dest)) w) l
  | _ => True
  end.
(** Frames and tasks that are known stay known. *)
Record steady (w w' : sysmem) : Prop := Steady {
  sd_p p : P_ADDRESS <$> p_pages w' !! p = P_ADDRESS <$> p_pages w !! p;
  sd_task t : is_Some (systask_tree w !! t) -> is_Some (systask_tree w' !! t)
}.
#[export] Instance steady_preorder : PreOrder steady.
Proof. split; [by split|]. intros w1 w2 w3 [A1 A2] [B1 B2]. split; [intros p; by rewrite B1|auto]. Qed.
Lemma steady_grantable task w w' a : steady w w' -> grantable task w a -> grantable task w' a.
Proof.
  intros S (Hp & Ha & Hg). split; [done|]. split; [done|]. assert (new_frame w a -> new_frame w' a) as Hn.
  { intros Hn p q Hq. destruct (core_bwd _ _ _ (sd_p _ _ S p) q Hq) as (q' & Hq' & <-). by apply (Hn p). }
  destruct (_ && _); [|destruct Hg as [? ?]; auto]. destruct Hg; auto.
Qed.
Lemma present_steady pid w w' : present pid w w' -> steady w w' /\ is_Some (systask_tree w' !! pid).
Proof.
  intros [(t & Ht & _) Ho _ R]. split; [|by exists t]. split; [apply R|]. intros x Hx. destruct (decide (x = pid)) as [->|]; [by exists t|by rewrite Ho].
Qed.
Lemma shape_some w pid : is_Some (shape w pid) <-> is_Some (systask_tree w !! pid).
Proof. unfold shape. apply fmap_is_Some. Qed.
Lemma pf_steady pid addr w o w' : pf_outcome pid addr w o w' -> steady w w'.
Proof.
  unfold pf_outcome. destruct (decide _); [by intros [_ ->]|]. intros (_ & _ & A & _). split; [apply (ew_rest _ _ _ _ (an_else _ _ _ _ A))|].
  intros t. rewrite <- !shape_some. destruct (decide (t = pid)) as [->|]; [by rewrite (an_shape _ _ _ _ A)|by rewrite (an_shapes _ _ _ _ A)].
Qed.
Lemma interim_steady w peer faddr : sysmem_ok w -> wp anyhow (interim_fault peer faddr) (fun _ w' => sysmem_ok w' /\ steady w w') w.
Proof.
  intros HB. unfold interim_fault. wp_steps. eapply any_wp, wp_conseq; [by apply handle_pf_all|]. intros o w' [HB' Ho].
  pose proof (pf_steady _ _ _ _ _ Ho) as S. destruct o as [m|]; [|by wp_steps]. unfold map_page. wp_steps.
  split; [|by split; apply S]. apply map_page_ok; [done|]. unfold pf_outcome in Ho. destruct (decide _); [by destruct Ho|].
  destruct Ho as (_ & _ & _ & pa & [= ->] & ?). done.
Qed.
Lemma interim_faults_steady w peer l : sysmem_ok w ->
  wp anyhow (mapM_ (fun f : Z * Z => interim_fault peer f.1) l) (fun _ w' => sysmem_ok w' /\ steady w w') w.
Proof.
  revert w. induction l as [|f l IH]; intros w HB; cbn [mapM_]; [by wp_steps|]. wp_steps. eapply wp_conseq; [by apply interim_steady|].
  intros [] w1 [HB1 S1]. eapply wp_conseq; [by apply IH|]. intros [] w2 [HB2 S2]. split; [done|]. by trans w1.
Qed.
Lemma send_phys_keeps w dest n size : sysmem_ok w -> promised w (SmSendPhys dest n size) -> keeps (impl_send_phys dest n size) w.
Proof.
  intros HB [Hnd Hg]. unfold keeps, impl_send_phys. wp_steps. apply any_assert. intros _. pose proof (pid_of_range dest).
  set (task := if L4_IsNilThread dest then None else Some (pid_of dest)) in *.
  destruct (negb (L4_IsNilThread dest) && (pid_of dest <? SNEKS_MIN_SYSID)) eqn:Eb; [by wp_steps|]. wp_steps.
  apply (wp_conseq _ _ (fun r w1 => r = task /\ sysmem_ok w1 /\ steady w w1 /\ forall t, task = Some t -> is_Some (systask_tree w1 !! t))).
  { unfold task. destruct (L4_IsNilThread dest); [by wp_steps|]. cbn in Eb. apply Z.ltb_ge in Eb. wp_steps.
    apply any_task; [done|lia|]. intros w1 HB1 PR. wp_steps. destruct (present_steady _ _ _ PR). split; [done|]. split; [done|]. split; [done|]. by intros t [= <-]. }
  intros r w1 (-> & HB1 & S1 & Ht1). unfold call. wp_steps.
  eapply wp_conseq; [apply interim_faults_steady; apply (alike_ok w1); [split; auto|done]|]. intros [] w2 [HB2 S2]. wp_steps.
  assert (steady w w2) as S by (trans w1; [done|]; by split; apply S2). assert (forall t, task = Some t -> is_Some (systask_tree w2 !! t)) as Ht2.
  { intros t Et. by apply (sd_task _ _ S2), Ht1. }
  destruct (sm_message _) as [[[ec label] u] t]. destruct (negb (ec =? 0) || negb (label =? 0) || negb (u =? 0) || negb (t =? 2)); [by wp_steps|].
  destruct ((size <? PAGE_BITS) || _); [by wp_steps|]. eapply keeps_ok, add_pages_ok; [done|done|done|].
  eapply Forall_impl; [exact Hg|]. intros a. by apply steady_grantable.
Qed.

(** ** Turns *)

Lemma sysinfo_keeps w u mrs : sysmem_ok w -> keeps (sysinfo_init_msg u mrs) w.
Proof.
  intros HB. unfold keeps, sysinfo_init_msg. destruct (u =? 0); [by wp_steps|]. destruct (string_words _ _) as [words rest].
  destruct (negb (strends _ _)); [by wp_steps|]. destruct (_ =? _)%nat; [by wp_steps|]. wp_steps. apply any_of_option. intros tid _. wp_steps.
  apply any_assert. intros _. destruct (find _ _) as [[e k]|]; wp_steps; [|done]. apply (alike_ok w); [split; auto|done].
Qed.
Lemma iopf_keeps w sender iofp : sysmem_ok w -> keeps (handle_iopf sender iofp) w.
Proof.
  intros HB. unfold keeps, handle_iopf, call. wp_steps. apply any_assert. intros _. wp_steps. apply any_assert. intros _. wp_steps.
  apply any_assert. intros _. wp_steps. destruct (negb _); wp_steps; (apply (alike_ok w); [split; auto|done]).
Qed.
Lemma ignore_keeps {A} (m : M sysmem A) w : keeps m w -> keeps (ignore m) w.
Proof. intros Hm. unfold keeps, ignore. wp_steps. eapply wp_conseq; [exact Hm|]. intros a w' HB. by wp_steps. Qed.
Lemma serve_keeps w r : sysmem_ok w -> promised w r -> keeps (sm_serve r) w.
Proof.
  intros HB Hp. destruct r; cbn [sm_serve].
  - by apply handle_fault_keeps.
  - by apply rm_task_keeps.
  - by apply send_phys_keeps.
  - by apply ignore_keeps, send_virt_keeps.
  - by apply brk_keeps.
  - apply ignore_keeps. unfold keeps, impl_breath_of_life, call. wp_steps. apply (alike_ok w); [split; auto|done].
  - apply ignore_keeps. unfold keeps. eapply any_wp, wp_conseq; [apply (impl_get_shape_ok anyhow)|]. by intros r w' [-> _].
  - by eapply ignore_keeps, keeps_ok, (impl_set_kernel_areas_ok anyhow).
  - by apply ignore_keeps, alter_flags_keeps.
  - apply ignore_keeps. unfold keeps, info_block. by wp_steps.
  - by apply sysinfo_keeps.
  - unfold keeps. wp_steps. by apply iopf_keeps.
Qed.
Lemma promised_message w sender r : promised w r -> promised (set_sm_message sender w) r.
Proof. done. Qed.
Lemma turn_keeps w sender r : sysmem_ok w -> promised w r -> keeps (sm_turn sender r) w.
Proof.
  intros HB Hp. unfold keeps, sm_turn. wp_steps. assert (sysmem_ok (set_sm_message sender w)) as HB1 by (apply (alike_ok w); [split; auto|done]).
  pose proof (serve_keeps _ r HB1 (promised_message w sender r Hp)) as Hs. destruct r; try exact Hs. destruct (_ <? _); [exact Hs|by wp_steps].
Qed.
End serve.
