(* ===== verification/SysmemReachProps.v ===== *)
(** The states that sysmem gets into: its start, the turns of its main loop, and the writes
    of tasks to the memory they were given. *)
From S2P Require Import Prelude L4 Pages Sysmem SysmemOps SysmemProps SysmemReplProps SysmemClockProps SysmemTaskProps SysmemAllocProps SysmemFaultProps SysmemDropProps SysmemBrkProps SysmemGrantProps SysmemServeProps.

Section reach.
Context `{LA : !L4Abi, SE : !SysmemEnv, LZ : !LZ4}.

(** ** The start *)

(** The pages that sysmem starts with are apart from its first structures. *)
Record image_ok : Prop := ImageOk {
  im_page : first_mem mod 4096 = 0;
  im_range : 0 < first_mem /\ first_mem + Z.of_nat NUM_INIT_PAGES * PAGE_SIZE <= 2 ^ 32;
  im_apart : first_mem + Z.of_nat NUM_INIT_PAGES * PAGE_SIZE <= malloc_pool \/ malloc_pool + 1024 <= first_mem
}.
(** After [k] of them *)
Record started (k : Z) (w : sysmem) : Prop := Started {
  sa_ok : sysmem_ok w;
  sa_trash : trash (heads w APPage) = [];
  sa_pos : malloc_pos w = 24 * k;
  sa_p p q : p_pages w !! p = Some q -> p < malloc_pool + 24 * k /\ P_ADDRESS q < first_mem + 4096 * k;
  sa_maps : mappings w = []
}.
Lemma sysmem0_ok : started 0 sysmem0.
Proof.
  split; [split|done..].
  - split; [constructor|by intros p ?%elem_of_nil|by intros p ?%elem_of_nil|done|done].
  - split; [done|by intros p ?%elem_of_nil|done|done|done| |constructor|].
    + intros c. split; [by intros ?%elem_of_nil|]. by intros (_ & h & ? & _).
    + intros a. unfold frame. cbn. apply length_replicate.
  - split; done.
  - split; [|done]. intros ty. split; [constructor|by intros x ?%elem_of_nil| |by destruct ty; intros p ?%elem_of_nil].
    intros x [Hx|?%elem_of_nil]; [|done]. destruct ty; cbn in Hx; [destruct Hx as (? & ? & ? & _); done|by destruct Hx..].
  - by intros pa pid a ?%elem_of_nil.
Qed.
Lemma first_page_started k a w : image_ok -> 0 <= k < Z.of_nat NUM_INIT_PAGES -> a = first_mem + 4096 * k -> started k w ->
  let p := malloc_pool + 24 * k in let w1 := with_ppage p a (set_malloc_pos (24 * k + 24) w) in
  started (k + 1) (set_free (free_page_list w1 ++ [p]) (u32 (num_free_pages w1 + 1)) w1).
Proof.
  intros [I1 I2 I3] Hk Ha [HB S1 S2 S3 S4] p w1. set (w0 := set_malloc_pos (24 * k + 24) w) in *. unfold NUM_INIT_PAGES, PAGE_SIZE in *.
  assert (sysmem_ok w0) as HB0 by (apply (alike_ok w); [split; auto|done]).
  assert (page_of a = a) as Hpa by (apply page_of_id; [lia|]; apply aligned_mod; subst a; Z.to_euclidean_division_equations; lia).
  assert (fresh w0 APPage p) as F.
  { split; [|split].
    - cbn. intros [q Hq]. destruct (S3 p q Hq). lia.
    - cbn. rewrite S1. apply not_elem_of_nil.
    - right. split; [done|]. lia. }
  assert (new_frame w0 a) as Hn by (intros p' q Hq Eq; destruct (S3 p' q Hq); lia).
  pose proof (with_ppage_books [] [] w0 p a HB0 F) as HB1.
  assert (books [p] None [] w1) as HB2.
  { eapply books_placed; [exact HB1|]. apply (with_ppage_placed [] []); try done; [lia|]. unfold usable, PAGE_SIZE. lia. }
  split.
  - by apply (books_free_tail p [] None []).
  - done.
  - cbn. lia.
  - intros p' q. cbn. intros [[<- <-]|[_ Hq]]%lookup_insert_Some.
    + split; [lia|]. change (P_ADDRESS (PPage a None 0)) with (page_of a). lia.
    + destruct (S3 p' q Hq). lia.
  - done.
Qed.
Lemma add_first_mem_ok n k a w : image_ok -> 0 <= k -> k + Z.of_nat n <= Z.of_nat NUM_INIT_PAGES -> a = first_mem + 4096 * k -> started k w ->
  wp (fun _ => False) (add_first_mem n a) (fun _ w' => started (k + Z.of_nat n) w') w.
Proof.
  intros I. revert k a w. induction n as [|n IH]; intros k a w Hk Hn Ha Hs; cbn [add_first_mem].
  { wp_steps. by rewrite Z.add_0_r. }
  unfold malloc. wp_steps. change (Z.land (sz_of APPage + 7) (bnot32 7)) with 24. rewrite (sa_pos _ _ Hs).
  unfold NUM_INIT_PAGES in *. replace (1024 <=? 24 * k + 24) with false by lia. wp_steps. eapply wp_of_some; [done|]. wp_steps.
  apply wp_assert.
  { apply negb_true_iff, aligned_mod. subst a. destruct I as [I1 _ _]. Z.to_euclidean_division_equations; lia. }
  wp_steps. eapply wp_conseq; [apply (IH (k + 1)); [lia|lia|unfold PAGE_SIZE; lia|]|].
  - apply (first_page_started k a w); [done|unfold NUM_INIT_PAGES; lia|done|done].
  - intros [] w'. by replace (k + 1 + Z.of_nat n) with (k + Z.of_nat (S n)) by lia.
Qed.
Lemma sm_main_ok : image_ok -> wp (fun _ => False) sm_main (fun _ w' => sysmem_ok w') sysmem0.
Proof.
  intros I. eapply wp_conseq; [apply (add_first_mem_ok NUM_INIT_PAGES 0); [done|done|done|lia|apply sysmem0_ok]|].
  by intros [] w' [? _ _ _ _].
Qed.

(** ** Writes *)

Definition written (pa : Z) (f : list Z) (w : sysmem) : sysmem := set_frames (<[pa := f]> (frames w)) w.
Section written.
Context (w : sysmem) (pa pid a : Z) (f : list Z) (HB : sysmem_ok w) (Hm : (pa, (pid, a)) ∈ mappings w) (Hf : length f = Z.to_nat PAGE_SIZE).

Lemma mapping_held : exists p q lp l t, p ∈ active_page_list w /\ held_by w p lp /\ p_pages w !! p = Some q /\ P_ADDRESS q = pa
  /\ l_pages w !! lp = Some l /\ p_addr l = pa /\ systask_tree w !! pid = Some t /\ mem t !! a = Some lp.
Proof.
  destruct (bk_mapped _ _ _ _ HB pa pid a Hm) as (p & q & lp & t & Hq & Hpa & Ho & Ht & Ha); [by apply not_elem_of_nil|].
  pose proof (bk_owned _ _ _ _ HB) as O. pose proof (ow_owner _ _ O p q lp Hq Ho) as Hp. destruct (ow_active _ _ O p Hp) as (y & Hy).
  pose proof Hy as (q' & l & Hq' & Ho' & Hl & E). assert (y = lp) as -> by congruence. exists p, q, lp, l, t. split_and!; try done. congruence.
Qed.
Lemma written_frame b : frame (written pa f w) b = if decide (b = pa) then f else frame w b.
Proof. apply frame_set. Qed.
(** Nothing of compressed memory is where tasks can write. *)
Lemma written_hdr c h : c_hdrs w !! c = Some h -> c <> pa.
Proof.
  intros Hc ->. destruct mapping_held as (p & q & lp & l & t & Hp & _ & Hq & Hpa & _). pose proof HB as [P O _ _ _].
  apply (active_not_stored [] w p pa h P Hp Hc). by rewrite (ho_phys _ _ _ (ow_hdr _ _ O _ _ Hc)), (paddr_at _ _ _ Hq).
Qed.
Lemma written_ok : sysmem_ok (written pa f w).
Proof.
  pose proof HB as [P O T A M]. split.
  - by apply (placed_perm [] [] w); try done; apply P.
  - destruct O as [O1 O2 O3 O4 O5 O6 O7 O8]. split; try done.
    + intros c h Hc. destruct (O5 c h Hc) as [K1 K2 K3 K4 K5 K6].
      split; rewrite ?written_frame, ?decide_False by (by eapply written_hdr); done.
    + intros b. rewrite written_frame. by destruct (decide _).
  - destruct T. by split.
  - destruct A as [A1 A2]. split; [|done]. intros ty. destruct (A1 ty) as [D1 D2 D3 D4]. split; [done|by destruct ty|by destruct ty|done].
  - done.
Qed.
Lemma written_content lp l t x : systask_tree w !! pid = Some t -> mem t !! a = Some lp -> l_pages w !! lp = Some l ->
  content (written pa f w) x = if decide (x = lp) then Some f else content w x.
Proof.
  intros Ht Ha Hl. destruct mapping_held as (p & q & lp' & l' & t' & Hp & Hh & Hq & Hpa & Hl' & E & Ht' & Ha').
  assert (t' = t) as -> by congruence. assert (lp' = lp) as -> by congruence. assert (l' = l) as -> by congruence.
  pose proof HB as [P O _ _ _]. destruct (decide (x = lp)) as [->|Hne].
  - rewrite (content_resident (written pa f w) p lp Hh); change (paddr (written pa f w) p) with (paddr w p).
    + by rewrite written_frame, (paddr_at _ _ _ Hq), Hpa, decide_True.
    + apply (pl_pos _ _ P). by apply active_place.
  - apply content_ext; [done| |]; intros lx Hlx Hs.
    + intros Hz. rewrite written_frame, decide_False; [done|]. intros Epa.
      destruct (ow_lpage _ _ O x lx Hlx) as [?|[(p' & Hp' & Hh')|(Hs' & _)]]; [done|done| |congruence].
      pose proof Hh' as (q' & l2 & Hq' & Ho' & Hl2 & E2). assert (p' = p) as ->.
      { apply (placed_inj [] w); [done|by apply active_place..|]. rewrite (paddr_at _ _ _ Hq'), (paddr_at _ _ _ Hq). congruence. }
      apply Hne. by apply (held_owner w p).
    + unfold slot_at. change (c_hdrs (written pa f w)) with (c_hdrs w). destruct (c_hdrs w !! page_of (p_addr lx)) as [h|] eqn:Eh; [|done].
      by rewrite written_frame, decide_False by (by eapply written_hdr).
Qed.
Lemma written_memory : exists fl, memory w pid a = Some (fl, Some (frame w pa)) /\ forall pid' a',
  memory (written pa f w) pid' a' = if decide ((pid', a') = (pid, a)) then Some (fl, Some f) else memory w pid' a'.
Proof.
  destruct mapping_held as (p & q & lp & l & t & Hp & Hh & Hq & Hpa & Hl & E & Ht & Ha). pose proof HB as [P _ T _ _].
  exists (flags l). split.
  - rewrite (memory_at w pid t a lp l Ht Ha Hl), (content_resident w p lp Hh), (paddr_at _ _ _ Hq), Hpa; [done|].
    apply (pl_pos _ _ P). by apply active_place.
  - intros pid' a'. case_decide as Hd.
    + injection Hd as -> ->. rewrite (memory_at (written pa f w) pid t a lp l Ht Ha Hl).
      by rewrite (written_content lp l t lp Ht Ha Hl), decide_True.
    + unfold memory. change (systask_tree (written pa f w)) with (systask_tree w). change (l_pages (written pa f w)) with (l_pages w).
      destruct (systask_tree w !! pid') as [t'|] eqn:Ht'; cbn [mbind option_bind]; [|done].
      destruct (mem t' !! a') as [x|] eqn:Hx; cbn [mbind option_bind]; [|done].
      destruct (l_pages w !! x) as [lx|] eqn:Hlx; cbn [mbind option_bind]; [|done].
      rewrite (written_content lp l t x Ht Ha Hl), decide_False; [done|]. intros ->. apply Hd.
      pose proof (tk_one _ T _ _ _ _ _ _ _ Ht Ht' Ha Hx) as <-. replace t' with t in Hx by congruence.
      destruct (tk_mem _ T _ _ _ _ Ht Ha) as (_ & l1 & Hl1 & E1), (tk_mem _ T _ _ _ _ Ht Hx) as (_ & l2 & Hl2 & E2). congruence.
Qed.
End written.

(** ** Reachable states *)

Inductive sm_step (w : sysmem) : sysmem -> Prop :=
| sm_step_turn sender r w' : promised w r -> sm_turn sender r w = Ret tt w' -> sm_step w w'
| sm_step_write pa pid a f : (pa, (pid, a)) ∈ mappings w -> length f = Z.to_nat PAGE_SIZE -> sm_step w (written pa f w).
Inductive sm_reachable : sysmem -> Prop :=
| sm_reach_start w : sm_main sysmem0 = Ret tt w -> sm_reachable w
| sm_reach_step w w' : sm_reachable w -> sm_step w w' -> sm_reachable w'.

Lemma sm_step_keeps w w' : sysmem_ok w -> sm_step w w' -> sysmem_ok w'.
Proof.
  intros HB [sender r w2 Hp Hr|pa pid a f Hm Hf]; [|by eapply written_ok].
  exact (wp_run _ _ _ _ _ _ (turn_keeps w sender r HB Hp) Hr).
Qed.
Lemma sm_reachable_ok w : image_ok -> sm_reachable w -> sysmem_ok w.
Proof.
  intros I. induction 1 as [w Hw|w w' _ IH Hs]; [|by eapply sm_step_keeps].
  exact (wp_run _ _ _ _ _ _ (sm_main_ok I) Hw).
Qed.
End reach.
