(* ===== verification/SysmemRequests.v ===== *)
(** What sysmem promises to the system tasks whose memory it has, as theorems on the whole
    server, with the runs that show them at work. *)
From S2P Require Import Prelude L4 Pages Sysmem SysmemOps SysmemProps SysmemReplProps SysmemClockProps SysmemTaskProps SysmemAllocProps SysmemFaultProps SysmemDropProps SysmemBrkProps SysmemSendProps SysmemFlagProps SysmemGrantProps SysmemServeProps SysmemReachProps.

Section requests.
Context `{LA : !L4Abi, SE : !SysmemEnv, LZ : !LZ4}.

Lemma wp_total {A} (m : M sysmem A) Q w : wp (fun _ => False) m Q w -> exists a w', m w = Ret a w' /\ Q a w'.
Proof. unfold wp. destruct (m w) as [a w'|]; [|done]. intros ?. by exists a, w'. Qed.

Lemma wp_and {A E} (m : M sysmem A) Q Q' w : wp E m Q w -> wp anyhow m Q' w -> wp E m (fun a w' => Q a w' /\ Q' a w') w.
Proof. unfold wp. destruct (m w); auto. Qed.
Lemma any_bind {A B} (m : M sysmem A) (k : A -> M sysmem B) Q w : (forall a w', wp anyhow (k a) Q w') -> wp anyhow (m ≫= k) Q w.
Proof. intros Hk. wp_steps. unfold wp at 1. destruct (m w); [apply Hk|done]. Qed.
Lemma fault_page_same task addr lp w : wp anyhow (fault_page task addr (Some lp)) (fun lp' _ => lp' = lp) w.
Proof.
  unfold fault_page. wp_steps. apply any_of_option. intros l Hl. wp_steps.
  destruct (p_addr l =? 0); [|destruct (has (p_addr l) LF_SWAP); [|by wp_steps]]; repeat (apply any_bind; intros); by wp_steps.
Qed.

(** ** What is mapped *)

Lemma mapped_once w pa pid a pid' a' : sysmem_ok w -> (pa, (pid, a)) ∈ mappings w -> (pa, (pid', a')) ∈ mappings w -> (pid', a') = (pid, a).
Proof.
  intros HB H1 H2. pose proof HB as [P O T _ _].
  destruct (mapping_held w pa pid a HB H1) as (p & q & lp & l & t & Hp & Hh & Hq & Hpa & Hl & _ & Ht & Ha),
    (mapping_held w pa pid' a' HB H2) as (p' & q' & lp' & l' & t' & Hp' & Hh' & Hq' & Hpa' & Hl' & _ & Ht' & Ha').
  assert (p' = p) as ->. { apply (placed_inj [] w); [done|by apply active_place..|]. rewrite (paddr_at _ _ _ Hq), (paddr_at _ _ _ Hq'). congruence. }
  assert (lp' = lp) as -> by by apply (held_owner w p). pose proof (tk_one _ T _ _ _ _ _ _ _ Ht Ht' Ha Ha') as <-.
  replace t' with t in Ha' by congruence.
  destruct (tk_mem _ T _ _ _ _ Ht Ha) as (_ & l1 & Hl1 & E1), (tk_mem _ T _ _ _ _ Ht Ha') as (_ & l2 & Hl2 & E2). congruence.
Qed.
(** Pages that tasks do not have: free ones, and those that sysmem keeps its own data in *)
Definition own_page (w : sysmem) (pa : Z) : Prop :=
  (exists p, p ∈ free_page_list w ++ reserved_page_list w ++ heads_pages w ++ stored_in (c_hdrs w) /\ paddr w p = pa) \/ is_Some (c_hdrs w !! pa).
Lemma mapped_not_own w pa pid a : sysmem_ok w -> (pa, (pid, a)) ∈ mappings w -> ~ own_page w pa.
Proof.
  intros HB Hm. pose proof HB as [P O _ _ _]. destruct (mapping_held w pa pid a HB Hm) as (p & q & lp & l & t & Hp & _ & Hq & Hpa & _).
  assert (forall p', p' ∈ free_page_list w ++ reserved_page_list w ++ heads_pages w ++ stored_in (c_hdrs w) -> paddr w p <> paddr w p') as Hne.
  { intros p' Hp'. apply (placed_apart [] w (active_page_list w) (free_page_list w ++ reserved_page_list w ++ heads_pages w ++ stored_in (c_hdrs w)));
      [done|unfold places; perm|done|done]. }
  rewrite (paddr_at _ _ _ Hq), Hpa in Hne. intros [(p' & Hp' & E)|[h Hh]]; [by apply (Hne p' Hp')|].
  apply (Hne (phys h)); [|by rewrite (ho_phys _ _ _ (ow_hdr _ _ O _ _ Hh))]. rewrite !elem_of_app. do 3 right. apply elem_of_stored. by exists pa, h.
Qed.
Lemma held_page_unmapped U w p : books [p] None U w -> forall m, m ∈ mappings w -> m.1 ∉ U -> m.1 <> paddr w p.
Proof.
  intros HB [pa [pid a]] Hm Hu E. cbn in *. pose proof HB as [P O _ _ _]. destruct (bk_mapped _ _ _ _ HB pa pid a Hm Hu) as (p' & q & lp & t & Hq & Hpa & Ho & _).
  apply (placed_apart [p] w (active_page_list w) (free_page_list w ++ reserved_page_list w ++ heads_pages w ++ stored_in (c_hdrs w) ++ [p]) p' p);
    [done|unfold places; perm|by apply (ow_owner _ _ O p' q lp)|set_solver|]. rewrite (paddr_at _ _ _ Hq). congruence.
Qed.

Lemma message_ok sender w : sysmem_ok w -> sysmem_ok (set_sm_message sender w).
Proof. apply alike_ok. split; auto. Qed.

(** ** The theorems *)

(** C3: sysmem starts, and in every state it gets into, through whatever requests and
    whatever tasks write to their memory, its books agree: each physical page has one place,
    pages in use and their owners name each other, what is stored in compressed pages can be
    expanded, objects in use are not on a free list, and only a task's own memory is mapped
    to it.  The root task is taken to give no frame twice. *)
Theorem sysmem_reachable_sane : image_ok ->
  (exists w, sm_main sysmem0 = Ret tt w) /\ forall w, sm_reachable w -> sysmem_ok w.
Proof.
  intros I. split; [|by intros w; apply sm_reachable_ok]. destruct (wp_total _ _ _ (sm_main_ok I)) as ([] & w & H & _). by exists w.
Qed.

(** C4: a page that is mapped to a task is that task's memory at the address it is mapped
    at, is mapped nowhere else, and is neither free nor used by sysmem itself; what the task
    writes there changes that piece of memory and no other task's, compressed or not. *)
Theorem sysmem_isolation w pa pid a : image_ok -> sm_reachable w -> (pa, (pid, a)) ∈ mappings w ->
  (forall pid' a', (pa, (pid', a')) ∈ mappings w -> (pid', a') = (pid, a)) /\ ~ own_page w pa
  /\ exists fl, memory w pid a = Some (fl, Some (frame w pa)) /\ forall f pid' a', length f = Z.to_nat PAGE_SIZE ->
       memory (written pa f w) pid' a' = if decide ((pid', a') = (pid, a)) then Some (fl, Some f) else memory w pid' a'.
Proof.
  intros I Hr Hm. pose proof (sm_reachable_ok w I Hr) as HB. split; [by intros pid' a'; apply mapped_once|].
  split; [by eapply mapped_not_own|]. destruct (written_memory w pa pid a (frame w pa) HB Hm) as (fl & E & _). exists fl. split; [done|].
  intros f pid' a' Hf. destruct (written_memory w pa pid a f HB Hm) as (fl' & E' & Hw). rewrite Hw. by rewrite E in E'; injection E' as <-.
Qed.

(** C5: a page fault of a task comes to one of these: nothing, for the zero page; the page
    mapped, with the contents it had, fresh memory where there was none up to the break, and
    no other memory changed; or sysmem stops, which is when there is no memory left, the
    task is not one of the system's, its page has neither flags nor contents, or it faulted
    above its break. *)
Theorem sysmem_fault_outcome w tid faddr : sysmem_ok w ->
  wp (pf_stops w (pid_of tid) (page_of faddr)) (handle_pf tid faddr)
    (fun o w' => sysmem_ok w' /\ pf_outcome (pid_of tid) (page_of faddr) w o w') w.
Proof. intros HB. by apply handle_pf_all. Qed.

(** C6: taking a free page ends, with a page that is mapped nowhere or because memory has
    run out; the pages that are replaced for it keep their contents, and no task's memory or
    shape is any different. *)
Theorem sysmem_replacement_transparent w : sysmem_ok w -> wp (fun r => r = StPanic) get_free_page (fun p w' =>
  books [p] None [] w' /\ (forall m, m ∈ mappings w' -> m.1 <> paddr w' p)
  /\ (forall pid a, memory w' pid a = memory w pid a) /\ forall pid, shape w' pid = shape w pid) w.
Proof.
  intros HB. eapply wp_conseq; [by apply (get_free_page_ok [] None [])|]. intros p w' [HB' T]. split; [done|].
  split; [intros m Hm; by apply (held_page_unmapped []), not_elem_of_nil|]. apply turned_remains in T.
  split; [intros; by apply (remains_memory None)|intros; by apply (remains_shape None)].
Qed.

(** C7: a page that is replaced and then faulted on has the bytes it had, in memory again. *)
Theorem sysmem_compression_roundtrip w p lp pid t a : sysmem_ok w -> p ∈ active_page_list w -> held_by w p lp ->
  systask_tree w !! pid = Some t -> mem t !! a = Some lp ->
  wp (fun r => r = StPanic) (_ ← replace_active_page p; fault_page pid a (Some lp)) (fun lp' w' => sysmem_ok w' /\ lp' = lp
    /\ exists p', p' ∈ active_page_list w' /\ held_by w' p' lp /\ frame w' (paddr w' p') = frame w (paddr w p)) w.
Proof.
  intros HB Hp Hh Ht Ha. wp_steps. eapply wp_conseq; [by apply (replace_ok _ [] None [])|]. intros ok w1 ([HB1 T1 _] & _ & _).
  pose proof (content_resident w p lp Hh ltac:(apply (pl_pos _ _ (bk_placed _ _ _ _ HB)); by apply active_place)) as Ec.
  rewrite <- (tn_tree _ _ _ T1) in Ht. destruct (tk_mem _ (bk_tasked _ _ _ _ HB1) _ _ _ _ Ht Ha) as (Hal & l1 & Hl1 & _).
  pose proof (tn_content _ _ _ T1 lp ltac:(done)) as Ec1. rewrite Ec in Ec1. rewrite <- Ha.
  eapply wp_conseq; [apply wp_and; [apply (fault_page_ok [] [] w1 pid a t HB1 Ht Hal)|rewrite Ha; apply fault_page_same]|].
  { intros lp' l' Ha' Hl' Hz. assert (lp' = lp) as -> by congruence. by rewrite (content_zero w1 lp l' Hl' Hz) in Ec1. }
  intros lp' w2 [(HB2 & [(t2 & Ht2 & Ha2) _ _] & (p2 & Hp2 & Hh2) & f & Em & Hf) ->]. split; [done|]. split; [done|].
  exists p2. split; [done|]. split; [done|]. pose proof Hh2 as (q2 & l2 & _ & _ & Hl2 & _). rewrite (memory_at w2 pid t2 a lp l2 Ht2 Ha2 Hl2) in Em.
  rewrite (memory_at w1 pid t a lp l1 Ht Ha Hl1) in Hf. injection Em as _ Em. cbn in Hf. specialize (Hf _ Ec1). subst f.
  assert (0 < paddr w2 p2) as Hpos by (apply (pl_pos _ _ (bk_placed _ _ _ _ HB2)); by apply active_place).
  rewrite (content_resident w2 p2 lp Hh2 Hpos) in Em. by injection Em.
Qed.

(** C14: lowering the break takes exactly the pages from the new break on, up to the old one,
    from the task; raising it takes none. *)
Theorem sysmem_brk_exact w new_brk : sysmem_ok w -> sys_pid (caller w) -> 0 <= (default new_shape (shape w (caller w))).1.1.1 < 2 ^ 32 - 4096 ->
  wp (fun r => r = StPanic) (impl_brk new_brk) (fun _ w' => sysmem_ok w' /\ broken (caller w) new_brk w w') w.
Proof. intros HB Hp Hb. by apply impl_brk_ok. Qed.

(** C22: a task that is removed is gone with all of its memory, whether it was in use,
    compressed or never touched, none of it is mapped any more, and no other task's memory or
    shape is different. *)
Theorem sysmem_rm_task_exact w pid : sysmem_ok w -> SNEKS_MIN_SYSID <= pid ->
  wp (fun _ => False) (impl_rm_task pid) (fun _ w' => sysmem_ok w' /\ departed pid w w' /\ forall m, m ∈ mappings w' -> m.2.1 <> pid) w.
Proof.
  intros HB Hp. eapply wp_conseq; [by apply (impl_rm_task_ok (fun _ => False))|]. intros [] w' [HB' Dp]. split; [done|]. split; [done|].
  intros [pa [x a]] Hm E. cbn in E. subst x. destruct (mapping_held w' pa pid a HB' Hm) as (_ & _ & _ & _ & t & _ & _ & _ & _ & _ & _ & Ht & _).
  by rewrite (dp_task _ _ _ Dp) in Ht.
Qed.

(** C15: what a request to send a page comes to: an error and nothing changed, the page
    tossed, or the page with its flags and contents at its new place, what was there before
    gone, and its old place empty.  A destination that sysmem does not know is no error here,
    although sysmem.idl promises one: the task is made, and has the page and nothing else. *)
Theorem sysmem_send_virt_exact w a dest b : sysmem_ok w -> has a PAGE_MASK = false ->
  (L4_IsNilThread dest = true \/ has b PAGE_MASK = false /\ (caller w, a) <> (pid_of dest, b)) ->
  wp (fun r => r = StPanic) (impl_send_virt a dest b) (fun r w' => sysmem_ok w' /\ send_outcome (caller w) a dest b w r w') w.
Proof. intros HB Ha Hb. by apply impl_send_virt_ok. Qed.

(** C16: flags are altered of exactly the pages of the range: those that are left with
    neither flags nor contents go, those that were not there come to be without contents. *)
Theorem sysmem_alter_flags_exact w task range or_mask and_mask : sysmem_ok w -> 0 <= L4_Address range -> L4_Address range mod 4096 = 0 ->
  L4_Address range + L4_Size range + 4096 <= 2 ^ 32 ->
  wp (fun r => r = StPanic) (impl_alter_flags task range or_mask and_mask)
    (fun r w' => sysmem_ok w' /\ flags_outcome task range or_mask and_mask w r w') w.
Proof. intros HB H1 H2 H3. by apply impl_alter_flags_ok. Qed.

(** C17: frames that the root task gives, which sysmem did not have, become free or a task's
    memory at their own addresses.  Free means that each in its turn, once there is memory for
    its descriptor, is put at the end of the free list, which is counted, with what the root
    task has put into it, and that replacement begins with more than 60 free pages; frames of
    sysmem's own image are set aside.  No other memory changes, and no other frames are known. *)
Theorem sysmem_frames_granted count w task n : sysmem_ok w -> (forall t, task = Some t -> is_Some (systask_tree w !! t)) ->
  NoDup (frames_from count n) -> Forall (grantable task w) (frames_from count n) ->
  wp (fun r => r = StPanic) (add_pages count task n) (fun _ w' => sysmem_ok w' /\ granted task (frames_from count n) w w') w.
Proof. intros HB Ht Hn Hg. by apply add_pages_ok. Qed.
End requests.

(** ** Runs *)

(** Runs of one byte are all that is compressed here, which keeps every promise. *)
Definition rle_pack (l : list Z) : list Z :=
  match l with [] => [2] | b :: _ => if forallb (Z.eqb b) l then [0; b] else 1 :: l end.
Definition rle_unpack (l : list Z) : option (list Z) :=
  match l with
  | 0 :: b :: _ => Some (replicate (Z.to_nat PAGE_SIZE) b)
  | 1 :: l => Some l
  | _ => None
  end.
#[refine] Instance rle : LZ4 := {| LZ4_compress := rle_pack; LZ4_decompress_safe := rle_unpack |}.
Proof.
  - intros [|b l]; [done|]. cbn. by destruct (_ && _).
  - intros [|b l] Hl; [done|]. unfold rle_pack. destruct (forallb _ _) eqn:E; [|done]. cbn [rle_unpack]. f_equal. rewrite <- Hl.
    apply replicate_as_elem_of. split; [done|]. intros x Hx. rewrite forallb_forall in E. apply list_elem_of_In, E in Hx. lia.
Defined.
#[export] Existing Instance l4_x2_32.
(** An idle system: nothing is accessed, and nothing but frames is sent. *)
#[export] Instance idle_env : SysmemEnv := {|
  sm_access _ _ := 0; sm_garbage _ := []; sm_faults _ := []; sm_message _ := (0, 0, 0, 2);
  sm_granted _ a := []; sm_ipc_error _ := 0; sm_global := compose_tid 50001 0 1; sm_pager := 0; L4_IsIoFpage _ := false;
  first_mem := 0x404000; malloc_pool := 0x402000; image_start := 0x400000; image_end := 0x420000
|}.
Definition after {A} (m : M sysmem A) (w : sysmem) : sysmem := match m w with Ret _ w' => w' | Stop _ => w end.
Definition returns {A} (m : M sysmem A) (w : sysmem) : bool := match m w with Ret _ _ => true | Stop _ => false end.
Lemma returns_after (m : M sysmem unit) w : returns m w = true -> m w = Ret tt (after m w).
Proof. unfold returns, after. by destruct (m w) as [[] w'|]. Qed.

Definition ping : Z := compose_tid 50010 1 5.
Definition pong : Z := compose_tid 50011 1 6.
Definition sevens : list Z := replicate (Z.to_nat PAGE_SIZE) 7.
Definition up : sysmem := after sm_main sysmem0.
Definition faulted_in : sysmem := after (sm_turn ping (SmHandleFault 0x8123 0)) up.
Definition filled : sysmem := written 0x406000 sevens faulted_in.
(** A message of [ping] about it *)
Definition asked : sysmem := set_sm_message ping filled.

Lemma image_idle : image_ok.
Proof. split; [done|done|]. right. done. Qed.
Lemma up_reached : sm_reachable up.
Proof. apply sm_reach_start, returns_after. by vm_compute. Qed.
Lemma faulted_in_reached : sm_reachable faulted_in.
Proof. eapply sm_reach_step; [apply up_reached|]. apply (sm_step_turn up ping (SmHandleFault 0x8123 0)); [done|]. apply returns_after. by vm_compute. Qed.
Lemma faulted_in_maps : mappings faulted_in = [(0x406000, (50010, 0x8000))].
Proof. by vm_compute. Qed.
Lemma filled_ok : sysmem_ok filled.
Proof.
  apply (sm_reachable_ok filled image_idle). eapply sm_reach_step; [apply faulted_in_reached|].
  apply (sm_step_write faulted_in 0x406000 50010 0x8000 sevens); [rewrite faulted_in_maps; by left|done].
Qed.
Lemma asked_ok : sysmem_ok asked.
Proof. apply message_ok, filled_ok. Qed.
Lemma new_frame_check w a : forallb (fun e : Z * p_page => negb (P_ADDRESS e.2 =? a)) (map_to_list (p_pages w)) = true -> new_frame w a.
Proof.
  intros H p q Hq E. rewrite forallb_forall in H. apply elem_of_map_to_list in Hq. specialize (H (p, q) (proj1 (list_elem_of_In _ _) Hq)).
  cbn in H. rewrite E in H. by rewrite Z.eqb_refl in H.
Qed.

Lemma sysmem_reachable_sane_witness : mappings faulted_in = [(0x406000, (50010, 0x8000))] /\ sysmem_ok faulted_in.
Proof. split; [by vm_compute|]. apply (proj2 (sysmem_reachable_sane image_idle)), faulted_in_reached. Defined.

Lemma sysmem_isolation_witness : ~ own_page faulted_in 0x406000 /\ memory filled 50010 0x8000 = Some (0, Some sevens).
Proof.
  destruct (sysmem_isolation faulted_in 0x406000 50010 0x8000 image_idle faulted_in_reached) as (_ & Hno & fl & Hfl & Hw).
  - rewrite faulted_in_maps. by left.
  - split; [done|]. unfold filled. rewrite Hw by done. rewrite decide_True by done. assert (fst <$> memory faulted_in 50010 0x8000 = Some 0) as E by by vm_compute.
    rewrite Hfl in E. by injection E as ->.
Defined.

Lemma sysmem_fault_outcome_witness : returns (handle_pf ping 0x8123) up = true /\ returns (handle_pf ping 0x20123) up = false
  /\ wp (pf_stops up (pid_of ping) (page_of 0x8123)) (handle_pf ping 0x8123)
       (fun o w' => sysmem_ok w' /\ pf_outcome (pid_of ping) (page_of 0x8123) up o w') up.
Proof.
  split; [by vm_compute|]. split; [by vm_compute|].
  apply (sysmem_fault_outcome up ping 0x8123). apply (sm_reachable_ok up image_idle up_reached).
Defined.

Lemma sysmem_replacement_transparent_witness : returns get_free_page filled = true
  /\ wp (fun r => r = StPanic) get_free_page (fun p w' => books [p] None [] w' /\ (forall m, m ∈ mappings w' -> m.1 <> paddr w' p)
       /\ (forall pid a, memory w' pid a = memory filled pid a) /\ forall pid, shape w' pid = shape filled pid) filled.
Proof. split; [by vm_compute|]. apply (sysmem_replacement_transparent filled), filled_ok. Defined.

Definition some_task : systask := default (new_task 0 0) (systask_tree filled !! 50010).
Definition some_page : p_page := default (PPage 0 None 0) (p_pages filled !! 0x402030).
Definition some_lpage : l_page := default (LPage 0 0 0) (l_pages filled !! 0x405004).
Lemma sysmem_compression_roundtrip_witness :
  (fun l => has (p_addr l) LF_SWAP) <$> l_pages (after (replace_active_page 0x402030) filled) !! 0x405004 = Some true
  /\ wp (fun r => r = StPanic) (_ ← replace_active_page 0x402030; fault_page 50010 0x8000 (Some 0x405004)) (fun lp' w' => sysmem_ok w' /\ lp' = 0x405004
    /\ exists p', p' ∈ active_page_list w' /\ held_by w' p' 0x405004 /\ frame w' (paddr w' p') = frame filled (paddr filled 0x402030)) filled.
Proof.
  split; [by vm_compute|]. apply (sysmem_compression_roundtrip filled 0x402030 0x405004 50010 some_task 0x8000); [apply filled_ok|..].
  - assert (active_page_list filled = [0x402030]) as -> by by vm_compute. by left.
  - exists some_page, some_lpage. by vm_compute.
  - by vm_compute.
  - by vm_compute.
Defined.

Lemma sysmem_brk_exact_witness : memory asked 50010 0x8000 <> None /\ memory (after (impl_brk 0x7000) asked) 50010 0x8000 = None
  /\ wp (fun r => r = StPanic) (impl_brk 0x7000) (fun _ w' => sysmem_ok w' /\ broken (caller asked) 0x7000 asked w') asked.
Proof.
  split; [by vm_compute|]. split; [by vm_compute|]. apply (sysmem_brk_exact asked 0x7000); [apply asked_ok|by vm_compute..].
Defined.

Lemma sysmem_rm_task_exact_witness : length (free_page_list filled) = 9%nat /\ length (free_page_list (after (impl_rm_task 50010) filled)) = 10%nat
  /\ wp (fun _ => False) (impl_rm_task 50010) (fun _ w' => sysmem_ok w' /\ departed 50010 filled w' /\ forall m, m ∈ mappings w' -> m.2.1 <> 50010) filled.
Proof. split; [by vm_compute|]. split; [by vm_compute|]. apply (sysmem_rm_task_exact filled 50010); [apply filled_ok|done]. Defined.

Lemma sysmem_send_virt_exact_witness : fst <$> memory (after (impl_send_virt 0x8000 pong 0x9000) asked) 50011 0x9000 = Some 0
  /\ wp (fun r => r = StPanic) (impl_send_virt 0x8000 pong 0x9000)
       (fun r w' => sysmem_ok w' /\ send_outcome (caller asked) 0x8000 pong 0x9000 asked r w') asked.
Proof.
  split; [by vm_compute|]. apply (sysmem_send_virt_exact asked 0x8000 pong 0x9000); [apply asked_ok|done|]. right. split; [done|].
  assert (caller asked = 50010) as -> by by vm_compute. done.
Defined.

Lemma sysmem_alter_flags_exact_witness : fst <$> memory (after (impl_alter_flags 0 (L4_FpageLog2 0x8000 13) 1 1) asked) 50010 0x9000 = Some 1
  /\ wp (fun r => r = StPanic) (impl_alter_flags 0 (L4_FpageLog2 0x8000 13) 1 1)
       (fun r w' => sysmem_ok w' /\ flags_outcome 0 (L4_FpageLog2 0x8000 13) 1 1 asked r w') asked.
Proof. split; [by vm_compute|]. apply (sysmem_alter_flags_exact asked 0 (L4_FpageLog2 0x8000 13) 1 1); [apply asked_ok|done..]. Defined.

Lemma sysmem_frames_granted_witness : length (free_page_list (after (add_pages 2 None 0x500) filled)) = 10%nat
  /\ wp (fun r => r = StPanic) (add_pages 2 None 0x500) (fun _ w' => sysmem_ok w' /\ granted None (frames_from 2 0x500) filled w') filled.
Proof.
  split; [by vm_compute|]. apply (sysmem_frames_granted 2 filled None 0x500); [apply filled_ok|done|by apply (bool_decide_unpack _); vm_compute|].
  constructor; [|constructor; [|constructor]].
  - split; [done|]. split; [by vm_compute|]. change (new_frame filled 0x500000 /\ usable 0x500000).
    split; [apply new_frame_check; by vm_compute|right; by vm_compute].
  - split; [done|]. split; [by vm_compute|]. change (new_frame filled 0x501000 /\ usable 0x501000).
    split; [apply new_frame_check; by vm_compute|right; by vm_compute].
Defined.
