(* ===== verification/Sort.v ===== *)
(** Sorting and searching of arrays: lib/sort.c and lib/bsearch.c.

    An array is the list of its elements, which the code compares and exchanges only as
    wholes; an access past its end stops with StFault.  Indices are natural numbers: none
    of the code's computations on them leaves the range of the array. *)
From S2P Require Import Prelude.

Section sort.
Context {A : Type} (compare : A -> A -> Z).

(** The element at an index, and CMP(). *)
Definition elem (i : nat) : M (list A) A := l ← get; of_option StFault (l !! i).
Definition CMP (j k : nat) : M (list A) Z := x ← elem j; y ← elem k; mret (compare x y).

Definition swap (i j : nat) : M (list A) unit :=
  if (i =? j)%nat then mret tt else
  x ← elem i; y ← elem j; modify (fun l => <[j := x]> (<[i := y]> l)).

(** The larger child of [k]: the one that comes first when they compare equal. *)
Definition larger_child (N k : nat) : M (list A) nat :=
  let j := (2 * k)%nat in
  if (j <? N)%nat then c ← CMP j (j + 1)%nat; mret (if c <? 0 then (j + 1)%nat else j) else mret j.

Fixpoint downheap (fuel N k : nat) : M (list A) unit :=
  if (k <=? N / 2)%nat then
    match fuel with
    | O => halt StFuel
    | S fuel =>
        j ← larger_child N k;
        c ← CMP k j;
        if 0 <=? c then mret tt else _ ← swap j k; downheap fuel N j
    end
  else mret tt.

(** The loops of qsort(): one makes a heap, the other takes it apart. *)
Fixpoint heapify (N k : nat) : M (list A) unit :=
  _ ← downheap (S N) N k;
  match k with O => mret tt | S k => heapify N k end.

Fixpoint take_apart (N : nat) : M (list A) unit :=
  match N with
  | O => mret tt
  | S N' => _ ← swap 0 N; _ ← downheap N N' 0; take_apart N'
  end.

Definition qsort (count : nat) : M (list A) unit :=
  match count with
  | O => mret tt
  | S N => _ ← heapify N (N / 2); take_apart N
  end.

(** bsearch(): the index of what compares equal to the key. *)
Fixpoint bsearch_loop (fuel : nat) (cmp_key : A -> Z) (l u : nat) : M (list A) (option nat) :=
  if (l <? u)%nat then
    match fuel with
    | O => halt StFuel
    | S fuel =>
        let idx := ((l + u) / 2)%nat in
        p ← elem idx;
        let comparison := cmp_key p in
        if comparison <? 0 then bsearch_loop fuel cmp_key l idx
        else if 0 <? comparison then bsearch_loop fuel cmp_key (idx + 1) u
        else mret (Some idx)
    end
  else mret None.

Definition bsearch (cmp_key : A -> Z) (nmemb : nat) : M (list A) (option nat) :=
  bsearch_loop nmemb cmp_key 0 nmemb.
End sort.
