(* ===== verification/SortProps.v ===== *)
(** Sorting: the array is rearranged whatever the comparison says, as long as nothing
    comes before itself, and ends up in order when the comparison is an order; a binary
    search of what is in order finds what is there. *)
From S2P Require Import Prelude Sort.

(** What qsort() needs of a comparison: signs are opposite when arguments are
    exchanged, and "not after" is transitive. *)
Record ordering {A} (compare : A -> A -> Z) : Prop := {
  ord_opp x y : compare x y < 0 <-> 0 < compare y x;
  ord_trans x y z : compare x y <= 0 -> compare y z <= 0 -> compare x z <= 0 }.

Section props.
Context {A : Type} (compare : A -> A -> Z).
Notation never := (fun _ : stop => False).
Implicit Types l : list A.

Lemma ord_le x y : ordering compare -> 0 <= compare x y -> compare y x <= 0.
Proof. intros O H. destruct (ord_opp _ O x y) as [H1 H2]. destruct (Z.le_gt_cases (compare y x) 0); [done|]. lia. Qed.
Lemma ord_refl x : ordering compare -> 0 <= compare x x.
Proof. intros O. pose proof (ord_opp _ O x x). lia. Qed.

(** [l'] has the elements of [l], those at [hi] and below rearranged. *)
Definition rearranged (hi : nat) (l l' : list A) : Prop :=
  l' ≡ₚ l /\ (forall i, (hi < i)%nat -> l' !! i = l !! i)
  /\ forall P : A -> Prop, (forall i x, (i <= hi)%nat -> l !! i = Some x -> P x) ->
     forall i x, (i <= hi)%nat -> l' !! i = Some x -> P x.

Lemma rearranged_refl hi l : rearranged hi l l.
Proof. split_and!; [done|done|]. intros P H i x. apply H. Qed.
Lemma rearranged_trans hi l1 l2 l3 : rearranged hi l1 l2 -> rearranged hi l2 l3 -> rearranged hi l1 l3.
Proof.
  intros (P1 & U1 & R1) (P2 & U2 & R2). split_and!; [by rewrite P2|intros i Hi; by rewrite U2, U1|].
  intros P H. apply R2, R1, H.
Qed.
Lemma rearranged_mono hi hi' l l' : (hi <= hi')%nat -> rearranged hi l l' -> rearranged hi' l l'.
Proof.
  intros Hh (P1 & U1 & R1). split_and!; [done|intros i Hi; apply U1; lia|].
  intros P H i x Hi Hx. destruct (Nat.le_gt_cases i hi).
  - apply (R1 P) with i; try done. intros; eapply H; [|done]; lia.
  - rewrite U1 in Hx by done. by apply (H i).
Qed.
Lemma rearranged_length hi l l' : rearranged hi l l' -> length l' = length l.
Proof. intros [H _]. by apply Permutation_length. Qed.

(** ** Exchanging two elements *)

Definition transpose (i j n : nat) : nat := if decide (n = i) then j else if decide (n = j) then i else n.

Lemma transpose_inj i j : Inj (=) (=) (transpose i j).
Proof. intros m n. unfold transpose. repeat case_decide; lia. Qed.

Lemma elem_ok i l x Q E : l !! i = Some x -> Q x l -> wp E (elem i) Q l.
Proof. intros H HQ. unfold elem. wp_steps. by rewrite H. Qed.

Lemma swap_ok hi i j l Q : (i <= hi)%nat -> (j <= hi)%nat -> (hi < length l)%nat ->
  (forall l', (forall n, l' !! n = l !! transpose i j n) -> rearranged hi l l' -> Q tt l') ->
  wp never (swap i j) Q l.
Proof.
  intros Hi Hj Hl HQ. unfold swap.
  enough (forall l', length l' = length l -> (forall n, l' !! n = l !! transpose i j n) -> Q tt l') as G.
  { destruct (Nat.eqb_spec i j) as [<-|Hn].
    - wp_steps. apply G; [done|]. intros n. unfold transpose. by repeat case_decide; subst.
    - destruct (lookup_lt_is_Some_2 l i ltac:(lia)) as [x Hx], (lookup_lt_is_Some_2 l j ltac:(lia)) as [y Hy].
      wp_step. apply (elem_ok _ _ x); [done|]. wp_step. apply (elem_ok _ _ y); [done|]. wp_steps.
      apply G; [by rewrite !length_insert|]. intros n. unfold transpose. repeat case_decide; subst.
      + rewrite list_lookup_insert_ne, list_lookup_insert_eq by lia. done.
      + rewrite list_lookup_insert_eq by (rewrite length_insert; lia). done.
      + by rewrite !list_lookup_insert_ne by done. }
  intros l' Hlen H. apply HQ; [done|]. split_and!.
  - apply Permutation_inj. split; [done|]. exists (transpose i j). split; [apply transpose_inj|done].
  - intros n Hn. rewrite H. unfold transpose. by repeat case_decide; subst; try lia.
  - intros P HP n x Hn. rewrite H. apply HP. unfold transpose. repeat case_decide; lia.
Qed.

(** ** Heaps

    The children of an index above zero are twice the index and its successor; the only
    child of zero is one. *)

Definition heap (N k0 : nat) (l : list A) : Prop := forall c x y,
  (1 <= c <= N)%nat -> (k0 <= c / 2)%nat -> l !! c = Some x -> l !! (c / 2)%nat = Some y -> compare x y <= 0.

Definition heap_but (N k0 k : nat) (l : list A) : Prop :=
  (forall c x y, (1 <= c <= N)%nat -> (k0 <= c / 2)%nat -> (c / 2)%nat <> k ->
     l !! c = Some x -> l !! (c / 2)%nat = Some y -> compare x y <= 0)
  /\ forall c x y, (1 <= c <= N)%nat -> (c / 2)%nat = k -> k <> 0%nat -> (k0 <= k / 2)%nat ->
     l !! c = Some x -> l !! (k / 2)%nat = Some y -> compare x y <= 0.

Lemma half_lt c : (1 <= c)%nat -> (c / 2 < c)%nat.
Proof. intros H. apply Nat.div_lt; lia. Qed.
Lemma half_eq c k : (c / 2)%nat = k -> (c = 2 * k \/ c = 2 * k + 1)%nat.
Proof. intros <-. pose proof (Nat.div_mod_eq c 2). pose proof (Nat.mod_upper_bound c 2 ltac:(lia)). lia. Qed.
Lemma half_even k : (2 * k / 2)%nat = k.
Proof. rewrite Nat.mul_comm. by apply Nat.div_mul. Qed.
Lemma half_odd k : ((2 * k + 1) / 2)%nat = k.
Proof. symmetry. apply (Nat.div_unique _ _ _ 1); lia. Qed.

Lemma larger_child_ok N k l Q : (k <= N / 2)%nat -> (N < length l)%nat ->
  (forall j, (j <= N)%nat -> (j = 2 * k \/ j = 2 * k + 1)%nat ->
     (ordering compare -> forall c x y, (1 <= c <= N)%nat -> (c / 2)%nat = k ->
        l !! c = Some x -> l !! j = Some y -> compare x y <= 0) -> Q j l) ->
  wp never (larger_child compare N k) Q l.
Proof.
  intros Hk Hl HQ. unfold larger_child. pose proof (Nat.Div0.mul_div_le N 2).
  destruct (Nat.ltb_spec (2 * k) N).
  - destruct (lookup_lt_is_Some_2 l (2 * k) ltac:(lia)) as [x Hx].
    destruct (lookup_lt_is_Some_2 l (2 * k + 1) ltac:(lia)) as [y Hy].
    unfold CMP. wp_step. wp_step. apply (elem_ok _ _ x); [done|]. wp_step. apply (elem_ok _ _ y); [done|]. wp_steps.
    destruct (Z.ltb_spec (compare x y) 0); apply HQ; try lia; intros O c x' y' Hc [->| ->]%half_eq; intros; simplify_eq;
      try lia; auto using Z.lt_le_incl, ord_le, ord_refl.
  - wp_steps. apply HQ; try lia. intros O c x y Hc [->| ->]%half_eq; [|lia]. intros. simplify_eq.
    by apply ord_le, ord_refl.
Qed.

(** One exchange moves the place where the heap is out of order down. *)
Lemma sift_step N k0 k j l l' x y : ordering compare -> (k0 <= k)%nat -> (j <= N)%nat -> j <> k ->
  (j = 2 * k \/ j = 2 * k + 1)%nat ->
  (forall c x y, (1 <= c <= N)%nat -> (c / 2)%nat = k -> l !! c = Some x -> l !! j = Some y -> compare x y <= 0) ->
  l !! k = Some x -> l !! j = Some y -> compare x y < 0 ->
  (forall n, l' !! n = l !! transpose j k n) -> heap_but N k0 k l -> heap_but N k0 j l'.
Proof.
  intros O Hk0 HjN Hjk Hj Hmax Hx Hy Hxy Hl' [H1 H2].
  assert ((j / 2)%nat = k) as Hjh by (destruct Hj as [->| ->]; [apply half_even|apply half_odd]).
  assert (k < j)%nat as Hkj by (rewrite <- Hjh; apply half_lt; lia).
  split.
  - intros c a b Hc Hk Hcj. rewrite !Hl'. pose proof (half_lt c ltac:(lia)).
    unfold transpose. rewrite (decide_False (P := (c / 2)%nat = j)) by done.
    destruct (decide (c = j)) as [->|]; [rewrite decide_True by done; intros; simplify_eq; lia|].
    destruct (decide ((c / 2)%nat = k)) as [E|].
    + rewrite decide_False by lia. intros Ha Hb. exact (Hmax c a b Hc E Ha Hb).
    + destruct (decide (c = k)) as [->|]; [|by apply H1].
      intros Ha Hb. apply (H2 j a b); try done; lia.
  - intros c a b Hc Hcj Hj0 Hk. rewrite !Hl'. pose proof (half_lt c ltac:(lia)). rewrite Hjh.
    unfold transpose. rewrite (decide_False (P := c = j)), (decide_False (P := c = k)) by lia.
    rewrite (decide_False (P := k = j)), (decide_True (P := k = k)) by lia. intros Ha Hb.
    apply (H1 c a b); rewrite ?Hcj; try done; lia.
Qed.

Lemma heap_but_at N k0 k l : (N / 2 < k)%nat -> heap_but N k0 k l -> heap N k0 l.
Proof.
  intros Hk [H1 _] c x y Hc Hk0. apply H1; try done. intros [->| ->]%half_eq.
  all: pose proof (Nat.div_mod_eq N 2); pose proof (Nat.mod_upper_bound N 2 ltac:(lia)); lia.
Qed.

Lemma downheap_ok N k0 : (forall x, 0 <= compare x x) -> forall fuel k l, (k0 <= k)%nat -> (N < length l)%nat ->
  (N / 2 < fuel + k)%nat ->
  wp never (downheap compare fuel N k)
    (fun _ l' => rearranged N l l' /\ (ordering compare -> heap_but N k0 k l -> heap N k0 l')) l.
Proof.
  intros Hself. induction fuel as [|fuel IH]; intros k l Hk0 Hl Hf; cbn [downheap];
    (destruct (Nat.leb_spec k (N / 2)); [try lia|apply wp_ret; eauto using rearranged_refl, heap_but_at]).
  apply wp_bind, larger_child_ok; [done..|]. intros j HjN Hj Hmax.
  destruct (lookup_lt_is_Some_2 l k) as [x Hx]; [pose proof (Nat.Div0.div_le_upper_bound N 2 N); lia|].
  destruct (lookup_lt_is_Some_2 l j ltac:(lia)) as [y Hy].
  unfold CMP. wp_step. wp_step. apply (elem_ok _ _ x); [done|]. wp_step. apply (elem_ok _ _ y); [done|]. wp_steps.
  destruct (Z.leb_spec 0 (compare x y)).
  - apply wp_ret. split; [apply rearranged_refl|]. intros O [H1 _] c a b Hc Hk Ha Hb.
    destruct (decide ((c / 2)%nat = k)) as [E|]; [|by apply (H1 c)].
    apply (ord_trans _ O _ y); [by apply (Hmax O c a y)|]. rewrite E in Hb. simplify_eq. by apply ord_le.
  - assert (j <> k) as Hjk by (intros ->; simplify_eq; specialize (Hself x); lia).
    wp_step. apply (swap_ok N); [done|lia|done|]. intros l1 Hl1 R1.
    eapply wp_conseq; [apply IH; [lia|by rewrite (rearranged_length _ _ _ R1)|lia]|].
    intros [] l2 [R2 H2]. split; [by eapply rearranged_trans|]. intros O Hb. apply H2; [done|].
    refine (sift_step N k0 k j l l1 x y O Hk0 HjN Hjk Hj (Hmax O) Hx Hy _ Hl1 Hb). lia.
Qed.

Lemma heap_above N l : heap_but N (S (N / 2)) (S (N / 2)) l.
Proof.
  assert (forall c, (c <= N)%nat -> (S (N / 2) <= c / 2)%nat -> False) as H.
  { intros c Hc. pose proof (Nat.Div0.div_le_mono c N 2 Hc). lia. }
  split; intros c x y Hc; [intros; exfalso; eapply H; [|done]; lia|].
  intros E. intros. exfalso. apply (H c); lia.
Qed.

(** A heap from [k + 1] on is one from [k] on, but for [k]. *)
Lemma heap_down N k l : heap N (S k) l -> heap_but N k k l.
Proof.
  intros H. split; [intros c x y Hc Hk Hn; apply H; lia|].
  intros c x y Hc E Hk0 Hk. pose proof (half_lt k). lia.
Qed.

Lemma heapify_ok N : (forall x, 0 <= compare x x) -> forall k l, (N < length l)%nat ->
  wp never (heapify compare N k)
    (fun _ l' => rearranged N l l' /\ (ordering compare -> heap_but N k k l -> heap N 0 l')) l.
Proof.
  intros Hself. induction k as [|k IH]; intros l Hl; cbn [heapify]; wp_step;
    (eapply wp_conseq; [eapply (downheap_ok N _ Hself); [reflexivity|done|pose proof (Nat.Div0.div_le_upper_bound N 2 N); lia]|]);
    intros [] l1 [R1 H1].
  - by apply wp_ret.
  - eapply wp_conseq; [apply IH; by rewrite (rearranged_length _ _ _ R1)|]. intros [] l2 [R2 H2].
    split; [by eapply rearranged_trans|]. intros O Hb. apply H2, heap_down, H1; done.
Qed.

Lemma heap_max N l : ordering compare -> heap N 0 l -> forall c x y, (c <= N)%nat ->
  l !! c = Some x -> l !! 0%nat = Some y -> compare x y <= 0.
Proof.
  intros O H c. induction (lt_wf c) as [c _ IH]. intros x y Hc Hx Hy.
  destruct (decide (c = 0%nat)) as [->|]; [simplify_eq; by apply ord_le, ord_refl|].
  pose proof (half_lt c ltac:(lia)). pose proof (lookup_lt_Some _ _ _ Hx).
  destruct (lookup_lt_is_Some_2 l (c / 2) ltac:(lia)) as [z Hz].
  apply (ord_trans _ O _ z); [apply (H c); auto with lia|apply (IH (c / 2)%nat); auto with lia].
Qed.

(** What is behind [N] is in its final place. *)
Definition settled (N : nat) (l : list A) : Prop := forall i j x y,
  (i < j)%nat -> (N < j)%nat -> l !! i = Some x -> l !! j = Some y -> compare x y <= 0.

Lemma settled_rearranged N l l' : rearranged N l l' -> settled N l -> settled N l'.
Proof.
  intros (_ & U & R) H i j x y Hij Hj Hx. rewrite (U j Hj). intros Hy.
  destruct (Nat.le_gt_cases i N) as [Hi|Hi].
  - apply (R (fun x => compare x y <= 0)) with i; try done. intros i' x' Hi' Hx'. apply (H i' j x' y); try done. lia.
  - rewrite (U i Hi) in Hx. by apply (H i j).
Qed.

Lemma settled_swap N l l' : ordering compare -> heap (S N) 0 l -> settled (S N) l ->
  (forall n, l' !! n = l !! transpose 0 (S N) n) -> settled N l'.
Proof.
  intros O Hh Hs Hl' i j x y Hij Hj. rewrite !Hl'. unfold transpose.
  rewrite (decide_False (P := j = 0%nat)) by lia.
  destruct (decide (j = S N)) as [->|].
  - rewrite (decide_False (P := i = S N)) by lia. intros Hx Hy.
    destruct (decide (i = 0%nat)); refine (heap_max (S N) l O Hh _ x y _ Hx Hy); lia.
  - intros Hx Hy. destruct (decide (i = 0%nat)); [|destruct (decide (i = S N))];
      eapply (Hs _ j); try exact Hx; try exact Hy; lia.
Qed.

Lemma heap_but_swap N l l' : heap (S N) 0 l -> (forall n, l' !! n = l !! transpose 0 (S N) n) -> heap_but N 0 0 l'.
Proof.
  intros Hh Hl'. split; [|done]. intros c x y Hc Hk Hn. rewrite !Hl'. pose proof (half_lt c ltac:(lia)).
  unfold transpose. rewrite !decide_False by lia. apply Hh; lia.
Qed.

Lemma take_apart_ok : (forall x, 0 <= compare x x) -> forall N l, (N < length l)%nat ->
  wp never (take_apart compare N)
    (fun _ l' => rearranged N l l' /\ (ordering compare -> heap N 0 l -> settled N l -> settled 0 l')) l.
Proof.
  intros Hself. induction N as [|N IH]; intros l Hl; cbn [take_apart].
  - apply wp_ret. split; [apply rearranged_refl|done].
  - wp_step. apply (swap_ok (S N)); [lia|lia|done|]. intros l1 Hl1 R1.
    assert (N < length l1)%nat by (rewrite (rearranged_length _ _ _ R1); lia).
    wp_step. eapply wp_conseq; [apply (downheap_ok N 0 Hself); [done..|]|].
    { destruct N; [simpl; lia|]. pose proof (half_lt (S N)). lia. }
    intros [] l2 [R2 H2]. eapply wp_conseq; [apply IH; by rewrite (rearranged_length _ _ _ R2)|].
    intros [] l3 [R3 H3]. split.
    + eapply rearranged_trans; [done|]. apply rearranged_mono with N; [lia|]. by eapply rearranged_trans.
    + intros O Hh Hs. apply H3; [done|apply H2; [done|by eapply heap_but_swap]|].
      eapply settled_rearranged; [done|]. by eapply settled_swap.
Qed.

(** ** qsort() *)

Lemma settled_sorted l : settled 0 l -> StronglySorted (fun x y => compare x y <= 0) l.
Proof.
  induction l as [|x l IH]; intros H; constructor.
  - apply IH. intros i j a b Hij Hj Ha Hb. apply (H (S i) (S j)); auto with lia.
  - apply Forall_forall. intros y [j Hj]%list_elem_of_lookup. apply (H 0%nat (S j)); auto with lia.
Qed.

Lemma qsort_ok l : (forall x, 0 <= compare x x) ->
  wp never (qsort compare (length l)) (fun _ l' => l' ≡ₚ l /\
    (ordering compare -> StronglySorted (fun x y => compare x y <= 0) l')) l.
Proof.
  intros Hself. unfold qsort. destruct (length l) as [|N] eqn:Hl.
  - apply wp_ret. split; [done|]. destruct l; [constructor|done].
  - wp_step. eapply wp_conseq; [apply (heapify_ok N Hself); lia|]. intros [] l1 [R1 H1].
    eapply wp_conseq; [apply (take_apart_ok Hself); rewrite (rearranged_length _ _ _ R1); lia|].
    intros [] l2 [R2 H2]. destruct R1 as (P1 & _), R2 as (P2 & _). split; [by rewrite P2|]. intros O.
    apply settled_sorted, H2; [done|apply H1; [done|apply heap_down]|].
    + intros c x y Hc Hk. exfalso. pose proof (Nat.Div0.div_le_mono c N 2 ltac:(lia)). lia.
    + intros i j x y Hij Hj Hx Hy. apply lookup_lt_Some in Hy. rewrite P1 in Hy. lia.
Qed.
End props.

(** ** bsearch() *)

(** The key is after, at, and then before the elements of the array. *)
Definition ascending {A} (cmp_key : A -> Z) (l : list A) : Prop := forall i j x y,
  (i <= j)%nat -> l !! i = Some x -> l !! j = Some y ->
  (cmp_key x < 0 -> cmp_key y < 0) /\ (0 < cmp_key y -> 0 < cmp_key x).

Definition bsearch_result {A} (cmp_key : A -> Z) (l : list A) (r : option nat) : Prop :=
  match r with
  | Some i => exists x, l !! i = Some x /\ cmp_key x = 0
  | None => forall x, x ∈ l -> cmp_key x <> 0
  end.

Lemma bsearch_loop_ok {A} (cmp_key : A -> Z) l : ascending cmp_key l -> forall fuel lo hi,
  (hi <= length l)%nat -> (hi <= fuel + lo)%nat ->
  (forall i x, l !! i = Some x -> ((i < lo)%nat -> 0 < cmp_key x) /\ ((hi <= i)%nat -> cmp_key x < 0)) ->
  wp (fun _ => False) (bsearch_loop fuel cmp_key lo hi) (fun r l' => l' = l /\ bsearch_result cmp_key l r) l.
Proof.
  intros Hasc. induction fuel as [|fuel IH]; intros lo hi Hhi Hf Hout; cbn [bsearch_loop];
    (destruct (Nat.ltb_spec lo hi) as [Hlt|Hge]; [try lia|]).
  1,3: apply wp_ret; split; [done|]; intros x [i Hi]%list_elem_of_lookup;
       destruct (Hout i x Hi); destruct (Nat.lt_ge_cases i lo); lia.
  pose proof (Nat.div_mod_eq (lo + hi) 2). pose proof (Nat.mod_upper_bound (lo + hi) 2 ltac:(lia)).
  remember ((lo + hi) / 2)%nat as idx. destruct (lookup_lt_is_Some_2 l idx ltac:(lia)) as [p Hp].
  wp_step. apply (elem_ok _ _ p); [done|].
  destruct (Z.ltb_spec (cmp_key p) 0); [|destruct (Z.ltb_spec 0 (cmp_key p))].
  - apply IH; try lia. intros i x Hi. split; [by apply Hout|]. intros Hx. by apply (Hasc idx i p x).
  - apply IH; try lia. intros i x Hi. split; [|by apply Hout]. intros Hx. apply (Hasc i idx x p); auto with lia.
  - apply wp_ret. split; [done|]. exists p. split; [done|lia].
Qed.

(** The binary search ends within as many rounds as there are elements, and finds an
    element exactly when there is one that compares equal. *)
Lemma bsearch_ok {A} (cmp_key : A -> Z) l : ascending cmp_key l ->
  wp (fun _ => False) (bsearch cmp_key (length l)) (fun r l' => l' = l /\ bsearch_result cmp_key l r) l.
Proof.
  intros Hasc. apply bsearch_loop_ok; [done|lia|lia|]. intros i x Hi. pose proof (lookup_lt_Some _ _ _ Hi). lia.
Qed.

(** ** The theorem *)

(** C33: qsort() returns, without access outside of the array, whatever the comparison
    says as long as nothing comes before itself, and the array then has the elements it
    had; they are in order when the comparison is an order. *)
Theorem qsort_sorts {A} (compare : A -> A -> Z) (l : list A) (Hself : forall x, 0 <= compare x x) :
  exists l', qsort compare (length l) l = Ret tt l' /\ l' ≡ₚ l
    /\ (ordering compare -> StronglySorted (fun x y => compare x y <= 0) l').
Proof.
  pose proof (qsort_ok compare l Hself) as H. unfold wp in H.
  destruct (qsort compare (length l) l) as [[] l'|]; [by exists l'|done].
Qed.

Lemma qsort_sorts_witness : exists l', qsort Z.sub 5 [3; 1; 4; 1; 0] = Ret tt l' /\ l' ≡ₚ [3; 1; 4; 1; 0]
  /\ (ordering Z.sub -> StronglySorted (fun x y => x - y <= 0) l').
Proof. apply (qsort_sorts Z.sub [3; 1; 4; 1; 0]). intros x. lia. Defined.
