(* ===== verification/SysMsg.v ===== *)
(** System messages: the server of sys/msg/sysmsg.c, which system tasks subscribe to and
    broadcast through.

    A client appears under its process ID, which is what the hash table compares.  The
    table of subscriptions is the list of them, in some order: where the order could show,
    in a broadcast, the code sorts. *)
From S2P Require Import Prelude L4 HashUtil Sort.

Definition FILTER_SIZE : Z := 16.        (* words of a cacheline *)
Definition SLOTS_PER_LIMB : Z := 8.      (* four-bit fields of a word *)

(** ** The filter: four-bit counters, three for each item *)

Definition limb_of (slot : Z) : nat := Z.to_nat (slot / SLOTS_PER_LIMB).
Definition offs_of (slot : Z) : Z := slot mod SLOTS_PER_LIMB * 4.
Definition limb (filter : list Z) (slot : Z) : Z := filter !!! limb_of slot.

Definition filter_inc (filter : list Z) (slot : Z) : list Z * bool :=
  let offs := offs_of slot in
  let f := Z.land (Z.shiftr (limb filter slot) offs) 0xf in
  (if f <? 0xf then <[limb_of slot := u32 (limb filter slot + Z.shiftl 1 offs)]> filter else filter, f =? 0xe).

Definition filter_dec (filter : list Z) (slot : Z) : list Z :=
  let offs := offs_of slot in
  if 1 <? Z.land (u32 (Z.shiftr (limb filter slot) offs + 1)) 0xf
  then <[limb_of slot := u32 (limb filter slot - Z.shiftl 1 offs)]> filter else filter.

Definition get_slots (hash : Z) : list Z :=
  let n_slots := FILTER_SIZE * 4 * 8 / 4 in
  [Z.land hash (n_slots - 1); Z.land (hash / n_slots) (n_slots - 1); Z.land (hash / n_slots / n_slots) (n_slots - 1)].

Definition filter_query (filter : list Z) (slots : list Z) : bool :=
  forallb (fun slot => negb (Z.land (limb filter slot) (u32 (Z.shiftl 0xf (offs_of slot))) =? 0)) slots.

(** for_each_bit(): the bits of a mask, the lowest first. *)
Fixpoint bits_from (fuel : nat) (acc : Z) : list Z :=
  if acc =? 0 then [] else
  match fuel with
  | O => []
  | S fuel => let b := ffsl acc - 1 in b :: bits_from fuel (Z.land acc (unot 32 (Z.shiftl 1 b)))
  end.
Definition bits_of (mask : Z) : list Z := bits_from 32 (u32 mask).

Definition popcount (mask : Z) : Z := Z.of_nat (length (bits_of mask)).

(** ** The server's state *)

Record msgclient := Msgclient {
  recv_tid : Z;
  subs_mask : Z;                         (* int *)
  filter_mask : Z;                       (* int *)
  n_filters : Z;                         (* int *)
  bloom : option (list Z);               (* filter *)
  subs : list Z                          (* bits of the subscriptions *)
}.

Record sub := Sub { sub_bit : Z; sub_client : Z }.
#[global] Instance sub_eq_dec : EqDecision sub.
Proof. solve_decision. Defined.

(** What the server does that others see, what it served, and what it asked for. *)
Inductive msgcall :=
| CallAlloc                                             (* malloc(), calloc(), realloc() *)
| CallSetmask (pid or and : Z)
| CallAddFilter (pid : Z) (items : list (Z * Z))        (* bits and labels *)
| CallRmFilter (pid : Z) (items : list (Z * Z))
| CallSend (pid bits : Z) (body : list Z)
| CallReply (pid label : Z) (words : list Z).           (* to a call out of a handler *)

Record sysmsg := Sysmsg {
  client_ht : gmap Z msgclient;
  subs_ht : list sub;
  msg_trace : list msgcall
}.
Definition set_client_ht x w := Sysmsg x (subs_ht w) (msg_trace w).
Definition set_subs_ht x w := Sysmsg (client_ht w) x (msg_trace w).
Definition log_call c w := Sysmsg (client_ht w) (subs_ht w) (c :: msg_trace w).

(** A message: the number of its untyped words and the message registers. *)
Record message := Message { m_u : Z; m_mr : Z -> Z }.
Inductive answer :=
| IpcFails (ec : Z)
| Reply (m : message).

(** The calls that a client's handler makes to the server before it answers, and the
    answer; memory; a word that a message did not bring; the thread of the server. *)
Class MsgEnv := {
  handler_run : list msgcall -> list message * answer;
  has_memory : list msgcall -> bool;
  stale_word : list msgcall -> Z;
  siphash_2_4 : Z -> Z;                  (* of a 64-bit word with the constant key *)
  msg_global : Z
}.

Section server.
Context `{!L4Abi, !MsgEnv}.

Definition msg_pid (tid : Z) : Z := pidof_NP msg_global tid.

Definition salts : list Z :=
  (fix go n salt := match n with O => [] | S n => u32 salt :: go n (siphash_2_4 salt) end)
    32%nat (siphash_2_4 (siphash_2_4 0xBADC0FFEE0DDF00D)).
Definition filter_salt (bit : Z) : Z := salts !!! Z.to_nat bit.

Definition slots_of (bit hash : Z) : list Z := get_slots (Z.lxor hash (filter_salt bit)).

Definition filter_pass (filter : option (list Z)) (maskp hash : Z) : bool :=
  match filter with
  | None => true
  | Some f => existsb (fun bit => filter_query f (slots_of bit hash)) (bits_of maskp)
  end.

Definition get_client (tid : Z) : M sysmsg (option msgclient) := gets (fun w => client_ht w !! msg_pid tid).
Definition put_client (pid : Z) (c : msgclient) : M sysmsg unit :=
  modify (fun w => set_client_ht (<[pid := c]> (client_ht w)) w).
Definition allocate : M sysmsg bool :=
  w ← get; _ ← modify (log_call CallAlloc); mret (has_memory (msg_trace w)).
Definition malloc_or_abort : M sysmsg unit := ok ← allocate; if (ok : bool) then mret tt else halt StAbort.

(** A field of a client. *)
Definition alter_client (pid : Z) (f : msgclient -> msgclient) : M sysmsg unit :=
  modify (fun w => set_client_ht (alter f pid (client_ht w)) w).
Definition set_masks sm fm c := Msgclient (recv_tid c) sm fm (n_filters c) (bloom c) (subs c).
Definition set_subs l c := Msgclient (recv_tid c) (subs_mask c) (filter_mask c) (n_filters c) (bloom c) l.
Definition set_filter fm n b c := Msgclient (recv_tid c) (subs_mask c) fm n b (subs c).

Definition rmsub (pid bit : Z) : M sysmsg unit :=
  _ ← alter_client pid (fun c => set_subs (filter (fun b => b <> bit) (subs c)) c);
  modify (fun w => set_subs_ht (filter (fun s => s <> Sub bit pid) (subs_ht w)) w).

Definition addsub (pid bit : Z) : M sysmsg unit :=
  _ ← malloc_or_abort;
  _ ← malloc_or_abort;                                   (* in htable_add() *)
  _ ← modify (fun w => set_subs_ht (Sub bit pid :: subs_ht w) w);
  alter_client pid (fun c => set_subs (subs c ++ [bit]) c).

Definition setmask (tid or and : Z) : M sysmsg Z :=
  let pid := msg_pid tid in
  _ ← modify (log_call (CallSetmask pid or and));
  found ← get_client tid;
  if match found with None => (and =? 0) && (or =? 0) | Some _ => false end then mret 0 else
  c ← match found with
      | Some c => mret c
      | None =>
          _ ← malloc_or_abort;
          _ ← malloc_or_abort;                           (* in htable_add() *)
          let c := Msgclient tid 0 0 0 None [] in
          _ ← put_client pid c;
          mret c
      end;
  let old_mask := subs_mask c in
  let new_mask := Z.lor (Z.land old_mask and) or in
  let removed := Z.land old_mask (Z.lnot new_mask) in
  let added := Z.land (Z.lnot old_mask) new_mask in
  _ ← alter_client pid (set_masks new_mask (Z.land (filter_mask c) (Z.lnot removed)));
  _ ← mapM_ (rmsub pid) (bits_of removed);
  _ ← mapM_ (addsub pid) (bits_of added);
  mret old_mask.

(** Items of a request on filters: each label with each bit of the mask. *)
Definition items_of (mask : Z) (labels : list Z) : list (Z * Z) :=
  label ← labels; bit ← bits_of mask; [(bit, label)].

(** The first [n] of the labels; past the end of the array is past what there is. *)
Definition first_labels (n : Z) (labels : list Z) : M sysmsg (list Z) :=
  if n <=? Z.of_nat (length labels) then mret (take (Z.to_nat n) labels) else halt StFault.

Definition inc_item (f : list Z) (item : Z * Z) : list Z :=
  foldl (fun f slot => (filter_inc f slot).1) f (slots_of item.1 (int_hash item.2)).
Definition dec_item (f : list Z) (item : Z * Z) : list Z :=
  foldl filter_dec f (slots_of item.1 (int_hash item.2)).
Definition query_item (f : list Z) (item : Z * Z) : bool := filter_query f (slots_of item.1 (int_hash item.2)).

Definition add_filter (sender mask : Z) (labels : list Z) (n_labels : Z) : M sysmsg unit :=
  let pid := msg_pid sender in
  found ← get_client sender;
  match found with
  | None => mret tt                                      (* with a message to the log *)
  | Some c =>
      f ← match bloom c with
          | Some f => mret (Some f)
          | None =>
              _ ← assert_ (n_filters c =? 0);
              ok ← allocate;
              mret (if ok : bool then Some (replicate (Z.to_nat FILTER_SIZE) 0) else None)
          end;
      match f with
      | None => mret tt                                  (* with a message to the log *)
      | Some f =>
          labels ← first_labels n_labels labels;
          let items := items_of mask labels in
          let fm := if n_labels =? 0 then filter_mask c else Z.lor (filter_mask c) mask in
          _ ← modify (log_call (CallAddFilter pid items));
          alter_client pid (set_filter fm (s32 (n_filters c + n_labels * popcount mask)) (Some (foldl inc_item f items)))
      end
  end.

(** The loop of rm_filter(), with the number of items it took out. *)
Definition rm_items (f : list Z) (items : list (Z * Z)) : list Z * Z :=
  foldl (fun acc item => if query_item acc.1 item then (dec_item acc.1 item, acc.2 + 1) else acc) (f, 0) items.

Definition rm_filter (sender mask : Z) (labels : list Z) (n_labels : Z) : M sysmsg unit :=
  let pid := msg_pid sender in
  found ← get_client sender;
  match found with
  | None => mret tt
  | Some c =>
      match bloom c with
      | None => mret tt
      | Some f =>
          labels ← first_labels n_labels labels;
          let items := items_of mask labels in
          let '(f, removed) := rm_items f items in
          _ ← modify (log_call (CallRmFilter pid items));
          _ ← assert_ (removed <=? n_filters c);
          let n := n_filters c - removed in
          alter_client pid (set_filter (filter_mask c) n (if n =? 0 then None else Some f))
      end
  end.

Definition impl_setmask (sender or and : Z) : M sysmsg Z := setmask sender or and.
Definition impl_add_filter (sender mask : Z) (labels : list Z) : M sysmsg unit :=
  add_filter sender mask labels (Z.of_nat (length labels)).
Definition impl_rm_filter (sender mask : Z) (labels : list Z) : M sysmsg unit :=
  rm_filter sender mask labels (Z.of_nat (length labels)).

(** ** Calls out of handlers *)

Definition reply (pid label : Z) (words : list Z) : M sysmsg unit := modify (log_call (CallReply pid label words)).

(** [L4_StoreMRs(3, n, labels)] into an array of sixty words. *)
Definition inline_labels (m : message) : M sysmsg (list Z) :=
  if 60 <? m_u m - 2 then halt StFault else mret (map (fun i => m_mr m (3 + i)) (seqZ 0 60)).

Definition recursive_sysmsg_call (m : message) (sender : Z) : M sysmsg unit :=
  let pid := msg_pid sender in
  let oplabel := m_mr m 1 in
  if oplabel =? 1 then
    let or := m_mr m 1 in
    let and := m_mr m 2 in
    oldmask ← setmask sender (s32 or) (s32 and);
    reply pid 0 [u32 oldmask]
  else if oplabel =? 2 then reply pid 1 [EAGAIN]
  else if (oplabel =? 3) || (oplabel =? 4) then
    let n_labels := m_u m - 2 in
    let mask := s32 (m_mr m 2) in
    labels ← inline_labels m;
    _ ← (if oplabel =? 3 then add_filter sender mask labels (u32 n_labels)
         else rm_filter sender mask labels (u32 n_labels));
    reply pid 0 []
  else reply pid 1 [ENOSYS].

Definition send_to_client (sender pid bits : Z) (body : list Z) : M sysmsg Z :=
  w ← get;
  c ← of_option StFault (client_ht w !! pid);
  _ ← assert_ (negb (sender =? recv_tid c));
  let '(calls, final) := handler_run (msg_trace w) in
  _ ← modify (log_call (CallSend pid bits body));
  _ ← mapM_ (fun m => recursive_sysmsg_call m (recv_tid c)) calls;
  match final with
  | IpcFails ec => mret (- s32 ec)
  | Reply m => _ ← assert_ (m_u m =? 1); mret (s32 (m_mr m 1))
  end.

(** ** Broadcasts *)

(** The growing array of recipients. *)
Record recbuf := Recbuf { recs : list Z; rec_alloc : Z; rec_heap : bool }.

Definition grow (r : recbuf) : M sysmsg recbuf :=
  if Z.of_nat (length (recs r)) =? rec_alloc r then
    _ ← (if rec_heap r then mret tt else malloc_or_abort);
    _ ← malloc_or_abort;
    mret (Recbuf (recs r) (Z.max 16 (rec_alloc r * 2)) true)
  else mret r.

Fixpoint gather (maskn : Z) (l : list sub) (r : recbuf) : M sysmsg recbuf :=
  match l with
  | [] => mret r
  | s :: l =>
      w ← get;
      c ← of_option StFault (client_ht w !! sub_client s);
      if negb (Z.land (subs_mask c) maskn =? 0) then gather maskn l r else
      r ← grow r;
      gather maskn l (Recbuf (recs r ++ [sub_client s]) (rec_alloc r) (rec_heap r))
  end.

(** The subscriptions that the loops of impl_broadcast() go through. *)
Definition subs_of (maskp : Z) (l : list sub) : list sub :=
  bit ← bits_of maskp; filter (fun s => sub_bit s = bit) l.

Definition order_msgclientptr_by_pid (l r : Z) : Z := l - r.

(** Dropping of repeated elements, in place: [n] more rounds from [i] on. *)
Fixpoint uniq (n i count : nat) (recs : list Z) : nat * list Z :=
  match n with
  | O => (count, recs)
  | S n =>
      if order_msgclientptr_by_pid (recs !!! (i - 1)%nat) (recs !!! i) =? 0 then uniq n (S i) count recs
      else uniq n (S i) (S count) (<[count := recs !!! i]> recs)
  end.

Definition sort_recs (l : list Z) : M sysmsg (list Z) :=
  match qsort order_msgclientptr_by_pid (length l) l with Ret _ l => mret l | Stop r => halt r end.

(** Whether the filter of a client keeps a message from it. *)
Definition filtered (c : msgclient) (maskp hash : Z) : bool :=
  (Z.land (filter_mask c) maskp =? maskp) && negb (filter_pass (bloom c) (Z.land maskp (filter_mask c)) hash).

(** The loop over the recipients. *)
Fixpoint deliver (sender maskp : Z) (body : list Z) (hash : Z) (prev : option Z) (l : list Z) (immediate : bool)
    : M sysmsg bool :=
  match l with
  | [] => mret immediate
  | pid :: l =>
      _ ← assert_ (negb (bool_decide (prev = Some pid)));
      w ← get;
      c ← of_option StFault (client_ht w !! pid);
      if filtered c maskp hash then deliver sender maskp body hash (Some pid) l immediate else
      n ← send_to_client sender pid (u32 maskp) body;
      deliver sender maskp body hash (Some pid) l (if n =? 1 then false else immediate)
  end.

Definition impl_broadcast (sender maskp maskn : Z) (body : list Z) : M sysmsg bool :=
  if (maskp =? 0) || (maskn =? Z.lnot 0) then mret true else
  w ← get;
  r ← gather maskn (subs_of maskp (subs_ht w)) (Recbuf [] 64 false);
  sorted ← sort_recs (recs r);
  let sz := length sorted in
  let '(count, l) := uniq (sz - 1) 1 (if (0 <? sz)%nat then 1%nat else 0%nat) sorted in
  let hash := int_hash (default (stale_word (msg_trace w)) (body !! 0%nat)) in
  deliver sender maskp body hash None (take count l) true.

(** ** The main loop *)

Inductive request :=
| RqSetmask (or and : Z)
| RqBroadcast (maskp maskn : Z) (body : list Z)
| RqAddFilter (mask : Z) (labels : list Z)
| RqRmFilter (mask : Z) (labels : list Z).

Definition serve_msg (sender : Z) (q : request) : M sysmsg unit :=
  match q with
  | RqSetmask or and => _ ← impl_setmask sender or and; mret tt
  | RqBroadcast maskp maskn body => _ ← impl_broadcast sender maskp maskn body; mret tt
  | RqAddFilter mask labels => impl_add_filter sender mask labels
  | RqRmFilter mask labels => impl_rm_filter sender mask labels
  end.

Definition msg_start : sysmsg := Sysmsg ∅ [] [].
End server.
