(* ===== verification/SysMsgProps.v ===== *)
(** System messages: the filters count what is in them and let pass what they are to let
    pass, subscriptions agree with the masks of clients, and a broadcast reaches exactly
    the clients that are subscribed, once each. *)
From S2P Require Import Prelude L4 HashUtil Sort SortProps SysMsg.

(** ** Bits of a mask *)

Lemma bits_from_spec fuel : forall acc lo, 0 <= lo -> 0 <= acc < 2 ^ 32 -> 32 <= Z.of_nat fuel + lo ->
  (forall b, 0 <= b < lo -> Z.testbit acc b = false) ->
  NoDup (bits_from fuel acc) /\ forall b, b ∈ bits_from fuel acc <-> 0 <= b < 32 /\ Z.testbit acc b = true.
Proof.
  induction fuel as [|fuel IH]; intros acc lo Hlo Hacc Hf Hlow.
  - assert (acc = 0) as ->.
    { apply Z.bits_inj'. intros n Hn. rewrite Z.bits_0. destruct (Z.lt_ge_cases n 32); [apply Hlow; lia|].
      by apply (testbit_high 32); try lia. }
    simpl. split; [constructor|]. intros b. rewrite Z.bits_0. set_solver.
  - cbn [bits_from]. destruct (Z.eqb_spec acc 0) as [->|Hne].
    { split; [constructor|]. intros b. rewrite Z.bits_0. set_solver. }
    unfold ffsl. destruct (ffs_spec 32 acc) as [[_ H0]|(Hr & Ht & Hb)].
    { exfalso. apply Hne, Z.bits_inj'. intros n Hn. rewrite Z.bits_0.
      destruct (Z.lt_ge_cases n 32); [apply H0; lia|by apply (testbit_high 32); try lia]. }
    set (r := ffs_fuel 32 acc) in *. set (acc' := Z.land acc _).
    assert (lo <= r - 1) by (destruct (Z.lt_ge_cases (r - 1) lo); [rewrite Hlow in Ht by lia; done|done]).
    assert (forall i, 0 <= i -> Z.testbit acc' i = Z.testbit acc i && negb (i =? r - 1)) as Hacc'.
    { intros i Hi. unfold acc'. rewrite Z.land_spec, unot_testbit by lia.
      rewrite Z.shiftl_mul_pow2, Z.mul_1_l, Z.pow2_bits_eqb by lia. rewrite (Z.eqb_sym (r - 1)).
      destruct (Z.ltb_spec i 32); [done|]. rewrite (testbit_high 32 acc) by lia. done. }
    destruct (IH acc' r) as [N I]; [lia| |lia| |].
    { assert (0 <= acc') by (apply Z.land_nonneg; lia). split; [done|]. apply bits_bound; [lia|done|].
      intros i Hi. rewrite Hacc' by lia. by rewrite (testbit_high 32 acc) by lia. }
    { intros b Hbr. rewrite Hacc' by lia. destruct (Z.eqb_spec b (r - 1)); [apply andb_false_r|]. rewrite Hb by lia. done. }
    split.
    + constructor; [|done]. rewrite I. intros [Hb1 Hb2]. rewrite Hacc' in Hb2 by lia.
      rewrite Z.eqb_refl in Hb2. by rewrite andb_false_r in Hb2.
    + intros b. rewrite elem_of_cons, I. destruct (decide (b = r - 1)) as [->|Hn]; [intuition lia|].
      split; [intros [?|[? Hx]]; [done|]; rewrite Hacc' in Hx by lia; by apply andb_prop in Hx as [? _]|].
      intros [? Hx]. right. split; [done|]. rewrite Hacc', Hx by lia. destruct (Z.eqb_spec b (r - 1)); done.
Qed.

Lemma bits_of_spec mask : NoDup (bits_of mask) /\
  forall b, b ∈ bits_of mask <-> 0 <= b < 32 /\ Z.testbit mask b = true.
Proof.
  destruct (bits_from_spec 32 (u32 mask) 0) as [N I]; [lia|apply u32_range|lia|lia|]. split; [done|].
  intros b. unfold bits_of. rewrite I. unfold u32. rewrite mod_pow2_testbit by lia.
  destruct (Z.ltb_spec b 32); [done|]. split; intros [? ?]; lia.
Qed.
Lemma elem_of_bits mask b : b ∈ bits_of mask <-> 0 <= b < 32 /\ Z.testbit mask b = true.
Proof. apply bits_of_spec. Qed.
Lemma bits_of_0 : bits_of 0 = [].
Proof. reflexivity. Qed.
Lemma bits_of_nodup mask : NoDup (bits_of mask).
Proof. apply bits_of_spec. Qed.

(** ** Four-bit fields of words *)

Definition nib (x k : Z) : Z := x / 16 ^ k mod 16.

Lemma nib_add x k j : 0 <= k -> 0 <= j -> nib x k <> 15 -> nib (x + 16 ^ k) j = nib x j + (if decide (j = k) then 1 else 0).
Proof.
  intros Hk Hj Hn. unfold nib in *. destruct (decide (j = k)) as [->|Hjk].
  - replace (x + 16 ^ k) with (x + 1 * 16 ^ k) by lia. rewrite Z.div_add by lia. revert Hn. generalize (x / 16 ^ k). intros q Hn. Z.div_mod_to_equations; lia.
  - rewrite Z.add_0_r. destruct (Z.lt_ge_cases j k).
    + replace (16 ^ k) with (16 ^ (k - j - 1) * 16 * 16 ^ j)
        by (rewrite <- Z.mul_assoc, <- Z.pow_succ_r, <- Z.pow_add_r by lia; f_equal; lia).
      rewrite Z.div_add by lia. apply Z.mod_add. lia.
    + replace (16 ^ j) with (16 ^ k * (16 * 16 ^ (j - k - 1)))
        by (rewrite <- Z.pow_succ_r, <- Z.pow_add_r by lia; f_equal; lia).
      rewrite <- !Z.div_div by lia. do 2 f_equal.
      replace (x + 16 ^ k) with (x + 1 * 16 ^ k) by lia. rewrite Z.div_add by lia.
      revert Hn. generalize (x / 16 ^ k). intros q Hn. Z.div_mod_to_equations; lia.
Qed.

Lemma nib_sub x k j : 0 <= k -> 0 <= j -> nib x k <> 0 -> nib (x - 16 ^ k) j = nib x j - (if decide (j = k) then 1 else 0).
Proof.
  intros Hk Hj Hn. pose proof (nib_add (x - 16 ^ k) k j Hk Hj) as H. rewrite Z.sub_add in H.
  rewrite H; [lia|].
  unfold nib in *. replace (x - 16 ^ k) with (x + (-1) * 16 ^ k) by lia. rewrite Z.div_add by lia.
  revert Hn. generalize (x / 16 ^ k). intros q Hn. Z.div_mod_to_equations; lia.
Qed.

Lemma nib_u32 x k : 0 <= k < 8 -> nib (u32 x) k = nib x k.
Proof.
  intros Hk. unfold nib, u32. replace (2 ^ 32) with (16 ^ k * (16 * 16 ^ (7 - k)))
    by (rewrite <- Z.pow_succ_r, <- Z.pow_add_r by lia; replace (k + Z.succ (7 - k)) with 8 by lia; done).
  rewrite Z.rem_mul_r by lia. rewrite (Z.mul_comm (16 ^ k)), Z.div_add by lia.
  rewrite Z.div_small, Z.add_0_l by (apply Z.mod_pos_bound; lia).
  rewrite Z.rem_mul_r by lia. rewrite (Z.mul_comm 16), Z.mod_add by lia. by rewrite Z.mod_mod by lia.
Qed.

Lemma nib_land x k : 0 <= k -> Z.land (Z.shiftr x (k * 4)) 0xf = nib x k.
Proof.
  intros Hk. unfold nib. rewrite (Z.land_ones _ 4) by lia. rewrite Z.shiftr_div_pow2 by lia.
  by rewrite (Z.mul_comm k), Z.pow_mul_r by lia.
Qed.

(** ** Slots of a filter *)

Definition is_slot (s : Z) : Prop := 0 <= s < 128.
Definition field (f : list Z) (s : Z) : Z := nib (limb f s) (s mod 8).

Lemma slot_eq s t : is_slot s -> is_slot t -> t / 8 = s / 8 -> t mod 8 = s mod 8 -> t = s.
Proof. intros Hs Ht E1 E2. pose proof (Z.div_mod s 8). pose proof (Z.div_mod t 8). lia. Qed.
Lemma limb_bound s : is_slot s -> (limb_of s < 16)%nat /\ 0 <= s mod 8 < 8.
Proof. unfold is_slot, limb_of, SLOTS_PER_LIMB. intros H. Z.div_mod_to_equations. lia. Qed.

Lemma limb_insert f s t v : length f = 16%nat -> is_slot s -> is_slot t ->
  limb (<[limb_of s := v]> f) t = if decide (t / 8 = s / 8) then v else limb f t.
Proof.
  intros Hl Hs Ht. destruct (limb_bound s Hs) as [Hb _]. unfold limb. case_decide as E.
  - unfold limb_of in *. unfold SLOTS_PER_LIMB in *. rewrite E. apply list_lookup_total_insert_eq. by rewrite Hl.
  - apply list_lookup_total_insert_ne. unfold limb_of, SLOTS_PER_LIMB. unfold is_slot in *. Z.div_mod_to_equations. lia.
Qed.

Lemma field_insert f s t x d : length f = 16%nat -> is_slot s -> is_slot t ->
  (forall j, 0 <= j -> nib x j = nib (limb f s) j + (if decide (j = s mod 8) then d else 0)) ->
  field (<[limb_of s := u32 x]> f) t = if decide (t = s) then field f s + d else field f t.
Proof.
  intros Hl Hs Ht Hx. destruct (limb_bound s Hs) as [_ Hb], (limb_bound t Ht) as [_ Hbt]. unfold field.
  rewrite limb_insert by done. destruct (decide (t / 8 = s / 8)) as [E|E].
  - rewrite nib_u32, Hx by lia. destruct (decide (t = s)) as [->|Hn]; [by rewrite decide_True|].
    rewrite decide_False by (intros ?; by apply Hn, slot_eq). unfold limb, limb_of, SLOTS_PER_LIMB. rewrite E. lia.
  - rewrite decide_False by (by intros ->). done.
Qed.

Lemma nib_range x k : 0 <= nib x k < 16.
Proof. apply Z.mod_pos_bound. lia. Qed.

Lemma shiftl_offs s : is_slot s -> Z.shiftl 1 (offs_of s) = 16 ^ (s mod 8).
Proof.
  intros Hs. destruct (limb_bound s Hs). unfold offs_of, SLOTS_PER_LIMB. rewrite Z.shiftl_mul_pow2, Z.mul_1_l by lia.
  by rewrite (Z.mul_comm _ 4), Z.pow_mul_r by lia.
Qed.

Lemma read_field f s : is_slot s -> Z.land (Z.shiftr (limb f s) (offs_of s)) 0xf = field f s.
Proof. intros Hs. destruct (limb_bound s Hs). apply (nib_land _ (s mod 8)). lia. Qed.

(** Fields count up to fifteen, where they stay. *)
Lemma inc_field f s t : length f = 16%nat -> is_slot s -> is_slot t ->
  field (filter_inc f s).1 t = if decide (t = s) then Z.min 15 (field f s + 1) else field f t.
Proof.
  intros Hl Hs Ht. destruct (limb_bound s Hs) as [_ Hb]. unfold filter_inc. cbv zeta. cbn [fst].
  rewrite read_field by done.
  pose proof (nib_range (limb f s) (s mod 8)) as Hr. fold (field f s) in Hr.
  destruct (Z.ltb_spec (field f s) 0xf).
  - rewrite shiftl_offs by done. rewrite (field_insert f s t _ 1); [|done..|intros j Hj; apply nib_add; [lia|done|]].
    + case_decide; [lia|done].
    + unfold field in *. lia.
  - case_decide; [subst; lia|done].
Qed.

Lemma dec_field f s t : length f = 16%nat -> is_slot s -> is_slot t ->
  field (filter_dec f s) t =
    if decide (t = s) then (if (1 <=? field f s) && (field f s <? 15) then field f s - 1 else field f s) else field f t.
Proof.
  intros Hl Hs Ht. destruct (limb_bound s Hs) as [_ Hb]. unfold filter_dec. cbv zeta.
  pose proof (nib_range (limb f s) (s mod 8)) as Hr. fold (field f s) in Hr.
  assert (Z.land (u32 (Z.shiftr (limb f s) (offs_of s) + 1)) 0xf = (field f s + 1) mod 16) as ->.
  { rewrite (Z.land_ones _ 4) by lia. unfold field, nib, offs_of, SLOTS_PER_LIMB.
    rewrite Z.shiftr_div_pow2, (Z.mul_comm _ 4), Z.pow_mul_r by lia. change (2 ^ 4) with 16. unfold u32.
    rewrite <- Znumtheory.Zmod_div_mod by (try lia; by exists (2 ^ 28)). by rewrite Zplus_mod_idemp_l. }
  destruct (Z.leb_spec 1 (field f s)), (Z.ltb_spec (field f s) 15); cbn [andb].
  - rewrite Z.mod_small by lia. rewrite (proj2 (Z.ltb_lt _ _)) by lia. rewrite shiftl_offs by done.
    rewrite (field_insert f s t _ (-1)); [case_decide; [lia|done]|done..|].
    intros j Hj. rewrite nib_sub; [case_decide; lia|lia|done|]. unfold field in *. lia.
  - replace (field f s + 1) with 16 by lia. case_decide; [by subst|done].
  - rewrite Z.mod_small, (proj2 (Z.ltb_ge _ _)) by lia. case_decide; [by subst|done].
  - lia.
Qed.

Lemma query_slot f s : is_slot s ->
  negb (Z.land (limb f s) (u32 (Z.shiftl 0xf (offs_of s))) =? 0) = negb (field f s =? 0).
Proof.
  intros Hs. destruct (limb_bound s Hs) as [_ Hb]. f_equal. unfold offs_of, SLOTS_PER_LIMB.
  rewrite u32_id.
  2:{ rewrite Z.shiftl_mul_pow2 by lia. pose proof (Z.pow_le_mono_r 2 (s mod 8 * 4) 28 ltac:(lia) ltac:(lia)). lia. }
  rewrite (land_field _ 4) by lia. unfold field, nib. rewrite (Z.mul_comm _ 4), Z.pow_mul_r by lia.
  change (2 ^ 4) with 16. assert (0 < 16 ^ (s mod 8)) by (apply Z.pow_pos_nonneg; lia).
  destruct (Z.eqb_spec (limb f s / 16 ^ (s mod 8) mod 16) 0) as [->|Hn]; [done|]. apply Z.eqb_neq. nia.
Qed.

Lemma inc_length f s : length (filter_inc f s).1 = length f.
Proof. unfold filter_inc. cbv zeta. cbn [fst]. case_match; by rewrite ?length_insert. Qed.
Lemma dec_length f s : length (filter_dec f s) = length f.
Proof. unfold filter_dec. cbv zeta. case_match; by rewrite ?length_insert. Qed.

(** ** What a filter counts

    [S] has the slots of the items that were put in, each as often as it was. *)

Definition count (s : Z) (S : list Z) : Z := Z.of_nat (count_occ Z.eq_dec S s).
Definition counts (f : list Z) (S : list Z) : Prop :=
  length f = 16%nat /\ forall s, is_slot s -> field f s = count s S \/ field f s = 15.

Lemma count_nonneg s S : 0 <= count s S.
Proof. unfold count. lia. Qed.
Lemma count_cons s t S : count t (s :: S) = count t S + (if decide (t = s) then 1 else 0).
Proof. unfold count. simpl. destruct (Z.eq_dec s t), (decide (t = s)); try congruence; lia. Qed.
Lemma count_perm s S S' : S ≡ₚ S' -> count s S = count s S'.
Proof. intros H. unfold count. f_equal. apply (Permutation_count_occ Z.eq_dec). done. Qed.
Lemma count_elem s S : s ∈ S -> 1 <= count s S.
Proof. intros H. unfold count. apply list_elem_of_In in H. apply (count_occ_In Z.eq_dec) in H. lia. Qed.

Lemma counts_perm f S S' : S ≡ₚ S' -> counts f S -> counts f S'.
Proof. intros HS [Hl H]. split; [done|]. intros s Hs. rewrite <- (count_perm s _ _ HS). auto. Qed.
Lemma counts_inc f s S : is_slot s -> counts f S -> counts (filter_inc f s).1 (s :: S).
Proof.
  intros Hs [Hl H]. split; [by rewrite inc_length|]. intros t Ht. rewrite inc_field, count_cons by done.
  pose proof (count_nonneg t S). destruct (decide (t = s)) as [->|]; [destruct (H s Hs); lia|destruct (H t Ht); lia].
Qed.
Lemma counts_dec f s S : is_slot s -> counts f (s :: S) -> counts (filter_dec f s) S.
Proof.
  intros Hs [Hl H]. split; [by rewrite dec_length|]. intros t Ht. rewrite dec_field by done.
  pose proof (H t Ht) as Hc. rewrite count_cons in Hc. pose proof (count_nonneg t S).
  pose proof (nib_range (limb f t) (t mod 8)) as Hr. fold (field f t) in Hr.
  destruct (decide (t = s)) as [->|]; [|lia].
  destruct (Z.leb_spec 1 (field f s)), (Z.ltb_spec (field f s) 15); cbn [andb]; lia.
Qed.
Lemma counts_query f S slots : Forall is_slot slots -> counts f S -> (forall s, s ∈ slots -> s ∈ S) ->
  filter_query f slots = true.
Proof.
  intros Hs [_ H] Hin. unfold filter_query. apply forallb_forall. intros s Hx%list_elem_of_In.
  rewrite Forall_forall in Hs. rewrite query_slot by auto. pose proof (count_elem s S (Hin s Hx)).
  destruct (H s (Hs s Hx)); destruct (Z.eqb_spec (field f s) 0); try done; lia.
Qed.
Lemma counts_fresh : counts (replicate 16 0) [].
Proof.
  split; [done|]. intros s Hs. left. unfold field, limb. destruct (limb_bound s Hs) as [Hb Hm].
  rewrite lookup_total_replicate_2 by done. unfold nib. by rewrite Z.div_0_l by (apply Z.pow_nonzero; lia).
Qed.

Section server.
Context {abi : L4Abi} {env : MsgEnv}.

(** ** Items *)

Definition item_slots (item : Z * Z) : list Z := slots_of item.1 (int_hash item.2).
Definition spread (items : list (Z * Z)) : list Z := items ≫= item_slots.

Lemma slots_are_slots bit hash : Forall is_slot (slots_of bit hash).
Proof.
  assert (forall x, is_slot (Z.land x (FILTER_SIZE * 4 * 8 / 4 - 1))) as H.
  { intros x. change (FILTER_SIZE * 4 * 8 / 4 - 1) with (Z.ones 7). rewrite Z.land_ones by lia. apply Z.mod_pos_bound. lia. }
  unfold slots_of, get_slots. repeat constructor; apply H.
Qed.

Lemma counts_inc_slots l : forall f S, Forall is_slot l -> counts f S ->
  counts (foldl (fun f s => (filter_inc f s).1) f l) (l ++ S).
Proof.
  induction l as [|s l IH]; intros f S Hl H; [done|]. apply Forall_cons in Hl as [Hs Hl]. simpl.
  eapply counts_perm; [|apply (IH _ (s :: S)); [done|by apply counts_inc]]. by rewrite Permutation_middle.
Qed.
Lemma counts_dec_slots l : forall f S, Forall is_slot l -> counts f (l ++ S) -> counts (foldl filter_dec f l) S.
Proof.
  induction l as [|s l IH]; intros f S Hl H; [done|]. apply Forall_cons in Hl as [Hs Hl]. simpl.
  apply IH; [done|]. by apply counts_dec.
Qed.

Lemma counts_inc_items items : forall f S, counts f (spread S) -> counts (foldl inc_item f items) (spread (items ++ S)).
Proof.
  induction items as [|it items IH]; intros f S H; [done|].
  assert (counts (inc_item f it) (spread (it :: S))) as H1.
  { apply (counts_inc_slots (item_slots it)); [apply slots_are_slots|done]. }
  apply (counts_perm _ (spread (items ++ it :: S))); [|by apply IH].
  apply bind_Permutation. symmetry. apply Permutation_middle.
Qed.

Lemma counts_query_item f S item : counts f (spread S) -> item ∈ S -> query_item f item = true.
Proof.
  intros H Hin. eapply counts_query; [apply slots_are_slots|done|]. intros s Hs.
  unfold spread. apply list_elem_of_bind. by exists item.
Qed.

(** Items that are in the filter are all found and taken out. *)
Lemma counts_rm_items items : forall f S n, counts f (spread (items ++ S)) ->
  exists f', foldl (fun acc item => if query_item acc.1 item then (dec_item acc.1 item, acc.2 + 1) else acc) (f, n) items
    = (f', n + Z.of_nat (length items)) /\ counts f' (spread S).
Proof.
  induction items as [|it items IH]; intros f S n H.
  - exists f. split; [|done]. simpl. by rewrite Z.add_0_r.
  - cbn [foldl fst snd]. rewrite (counts_query_item f ((it :: items) ++ S)) by (done || by constructor).
    destruct (IH (dec_item f it) S (n + 1)) as (f' & E & H').
    { apply (counts_dec_slots (item_slots it)); [apply slots_are_slots|done]. }
    exists f'. split; [|done]. rewrite E. f_equal. cbn [length]. lia.
Qed.

(** ** The items of a client, by what was served

    A client takes out what it put in, and has less than 2^31 items at a time. *)
Definition about_filter (pid : Z) (c : msgcall) : Prop :=
  match c with CallAddFilter p _ | CallRmFilter p _ => p = pid | _ => False end.

Inductive filters_of (pid : Z) : list msgcall -> list (Z * Z) -> Prop :=
| fo_none : filters_of pid [] []
| fo_add items t l : filters_of pid t l -> Z.of_nat (length (items ++ l)) < 2 ^ 31 ->
    filters_of pid (CallAddFilter pid items :: t) (items ++ l)
| fo_rm items t l l' : filters_of pid t l -> l ≡ₚ items ++ l' -> filters_of pid (CallRmFilter pid items :: t) l'
| fo_other c t l : ~ about_filter pid c -> filters_of pid t l -> filters_of pid (c :: t) l.

(** A client's counter and filter hold the items [l]. *)
Definition holds (c : msgclient) (l : list (Z * Z)) : Prop :=
  n_filters c = Z.of_nat (length l) /\
  match bloom c with None => l = [] | Some f => counts f (spread l) end.

Definition subs_ok (w : sysmsg) : Prop :=
  NoDup (subs_ht w) /\
  (forall bit pid, Sub bit pid ∈ subs_ht w <->
    exists c, client_ht w !! pid = Some c /\ bit ∈ bits_of (subs_mask c)) /\
  forall pid c, client_ht w !! pid = Some c -> subs c ≡ₚ bits_of (subs_mask c).

Record msg_ok (w : sysmsg) : Prop := {
  ok_subs : subs_ok w;
  ok_recv pid c : client_ht w !! pid = Some c -> msg_pid (recv_tid c) = pid;
  ok_filters pid l : filters_of pid (msg_trace w) l ->
    match client_ht w !! pid with None => l = [] | Some c => holds c l end }.


Lemma msg_start_ok : msg_ok msg_start.
Proof.
  split; [split; [constructor|split]|..]; simpl.
  - intros bit pid. rewrite lookup_empty. set_solver.
  - intros pid c. by rewrite lookup_empty.
  - intros pid c. by rewrite lookup_empty.
  - intros pid l H. rewrite lookup_empty. by inversion H.
Qed.

(** Calls that are not about filters leave them. *)
Lemma filters_of_skip pid l t x : Forall (fun c => ~ about_filter pid c) l -> filters_of pid (l ++ t) x -> filters_of pid t x.
Proof.
  induction 1 as [|c l Hc _ IH]; [done|]. simpl. intros H. apply IH.
  inversion H; subst; try done; by destruct Hc.
Qed.

(** ** Subscriptions *)

Lemma elem_of_removed old new b : b ∈ bits_of (Z.land old (Z.lnot new)) <-> b ∈ bits_of old /\ b ∉ bits_of new.
Proof.
  rewrite !elem_of_bits. split.
  - intros [Hb H]. rewrite Z.land_spec, Z.lnot_spec in H by lia. apply andb_prop in H as [H1 H2].
    split; [done|]. intros [_ H]. by rewrite H in H2.
  - intros [[Hb H1] H2]. split; [done|]. rewrite Z.land_spec, Z.lnot_spec, H1 by lia.
    destruct (Z.testbit new b) eqn:E; [by destruct H2|done].
Qed.
Lemma elem_of_added old new b : b ∈ bits_of (Z.land (Z.lnot old) new) <-> b ∉ bits_of old /\ b ∈ bits_of new.
Proof. rewrite Z.land_comm, elem_of_removed. tauto. Qed.

Definition off (pid : Z) (l : list Z) (s : sub) : Prop := ~ (sub_client s = pid /\ sub_bit s ∈ l).
#[local] Instance off_dec pid l s : Decision (off pid l s).
Proof. unfold off. apply _. Defined.

Lemma rmsubs_run pid l : forall w, mapM_ (rmsub pid) l w =
  Ret tt (Sysmsg (alter (fun c => set_subs (filter (fun b => b ∉ l) (subs c)) c) pid (client_ht w))
                 (filter (off pid l) (subs_ht w)) (msg_trace w)).
Proof.
  induction l as [|b l IH]; intros [ht sh tr]; cbn [mapM_ client_ht subs_ht msg_trace].
  - unfold mret, M_ret. do 2 f_equal.
    + symmetry. apply alter_id. intros c _. destruct c. unfold set_subs. simpl. f_equal.
      apply filter_all. set_solver.
    + symmetry. apply filter_all. unfold off. set_solver.
  - etransitivity; [exact (IH (Sysmsg (alter (fun c => set_subs (filter (fun x => x <> b) (subs c)) c) pid ht)
      (filter (fun s => s <> Sub b pid) sh) tr))|]. cbn [client_ht subs_ht msg_trace].
    do 2 f_equal.
    + rewrite alter_alter_eq. apply alter_ext. intros c Hc. destruct c. unfold compose, set_subs. simpl. f_equal.
      rewrite list_filter_filter. apply list_filter_iff. intros x. set_solver.
    + rewrite list_filter_filter. apply list_filter_iff. intros [x p]. unfold off. cbn [sub_client sub_bit].
      rewrite elem_of_cons. assert (Sub x p = Sub b pid <-> x = b /\ p = pid) as -> by naive_solver. tauto.
Qed.

Lemma rmsubs_ok pid l w E (Q : unit -> sysmsg -> Prop) :
  Q tt (Sysmsg (alter (fun c => set_subs (filter (fun b => b ∉ l) (subs c)) c) pid (client_ht w))
               (filter (off pid l) (subs_ht w)) (msg_trace w)) -> wp E (mapM_ (rmsub pid) l) Q w.
Proof. intros H. unfold wp. by rewrite rmsubs_run. Qed.

Definition quiet (l : list msgcall) : Prop := Forall (fun c => c = CallAlloc) l.
Notation aborts := (fun r => r = StAbort).

Lemma allocate_ok w (Q : bool -> sysmsg -> Prop) E : Q (has_memory (msg_trace w)) (log_call CallAlloc w) -> wp E allocate Q w.
Proof. intros H. unfold allocate. by wp_steps. Qed.
Lemma malloc_ok w (Q : unit -> sysmsg -> Prop) : Q tt (log_call CallAlloc w) -> wp aborts malloc_or_abort Q w.
Proof. intros H. unfold malloc_or_abort. wp_step. apply allocate_ok. case_match; by wp_steps. Qed.

Lemma addsubs_ok pid l : forall w, wp aborts (mapM_ (addsub pid) l) (fun _ w' =>
  client_ht w' = alter (fun c => set_subs (subs c ++ l) c) pid (client_ht w)
  /\ subs_ht w' = rev (map (fun b => Sub b pid) l) ++ subs_ht w
  /\ exists q, msg_trace w' = q ++ msg_trace w /\ quiet q) w.
Proof.
  induction l as [|b l IH]; intros w; cbn [mapM_].
  - apply wp_ret. split_and!; [|done|by exists []; split; [|constructor]].
    symmetry. apply alter_id. intros c _. destruct c. unfold set_subs. simpl. by rewrite app_nil_r.
  - wp_step. unfold addsub at 1. wp_step. apply malloc_ok. wp_step. apply malloc_ok. unfold alter_client. wp_steps.
    eapply wp_conseq; [apply IH|]. cbn [client_ht subs_ht msg_trace set_client_ht set_subs_ht log_call].
    intros [] w' (E1 & E2 & q & E3 & Hq). split_and!.
    + rewrite E1, alter_alter_eq. apply alter_ext. intros c _. destruct c. unfold set_subs. simpl. by rewrite <- app_assoc.
    + rewrite E2. cbn [map rev]. by rewrite <- app_assoc.
    + exists (q ++ [CallAlloc; CallAlloc]). rewrite E3, <- app_assoc. split; [done|].
      apply Forall_app. split; [done|]. by repeat constructor.
Qed.

(** The books of a table in which one client's mask has changed. *)
Lemma resubscribed w w' pid c c' removed added : subs_ok w ->
  client_ht w !! pid = Some c \/ (client_ht w !! pid = None /\ subs_mask c = 0 /\ subs c = []) ->
  client_ht w' = <[pid := c']> (client_ht w) ->
  (forall b, b ∈ removed <-> b ∈ bits_of (subs_mask c) /\ b ∉ bits_of (subs_mask c')) ->
  (forall b, b ∈ added <-> b ∉ bits_of (subs_mask c) /\ b ∈ bits_of (subs_mask c')) -> NoDup added ->
  subs c' = filter (fun b => b ∉ removed) (subs c) ++ added ->
  subs_ht w' = rev (map (fun b => Sub b pid) added) ++ filter (off pid removed) (subs_ht w) -> subs_ok w'.
Proof.
  intros (N & I & L) Hc Hht Hrem Hadd Nadd Hsubs Hsh.
  assert (forall b, Sub b pid ∈ subs_ht w <-> b ∈ bits_of (subs_mask c)) as Hold.
  { intros b. rewrite I. destruct Hc as [Hc|(Hc & Hm & _)]; rewrite Hc.
    - split; [intros (? & [= <-] & H); done|by exists c].
    - rewrite Hm, bits_of_0. split; [by intros (? & ? & _)|]. intros H. by apply not_elem_of_nil in H. }
  assert (subs c ≡ₚ bits_of (subs_mask c)) as Hl.
  { destruct Hc as [Hc|(_ & Hm & Hn)]; [by apply (L pid)|]. rewrite Hm, Hn, bits_of_0. done. }
  assert (forall b, b ∈ bits_of (subs_mask c') <-> (b ∈ bits_of (subs_mask c) /\ b ∉ removed) \/ b ∈ added) as Hnew.
  { intros b. rewrite Hrem, Hadd.
    destruct (decide (b ∈ bits_of (subs_mask c))), (decide (b ∈ bits_of (subs_mask c'))); tauto. }
  assert (forall b, b ∈ added -> b ∉ bits_of (subs_mask c)) as Hdis by (intros b; rewrite Hadd; tauto).
  assert (forall b p, Sub b p ∈ rev (map (fun b => Sub b pid) added) <-> p = pid /\ b ∈ added) as Hrev.
  { intros b p. rewrite list_elem_of_In, <- in_rev, in_map_iff. split.
    - intros (x & [= <- <-] & H). by apply list_elem_of_In in H.
    - intros [-> H]. exists b. by rewrite <- list_elem_of_In. }
  split_and!.
  - rewrite Hsh. apply NoDup_app. split_and!.
    + apply NoDup_ListNoDup, NoDup_rev, NoDup_ListNoDup. apply (NoDup_fmap_2_strong (fun b => Sub b pid)); [|done].
      intros x y _ _ [= ->]. done.
    + intros [b p] [-> Hb]%Hrev [_ Hin]%list_elem_of_filter. by apply Hold, (Hdis b) in Hin.
    + by apply NoDup_filter.
  - intros b p. rewrite Hsh, elem_of_app, Hrev, list_elem_of_filter, Hht. unfold off. cbn [sub_bit sub_client].
    destruct (decide (p = pid)) as [->|Hn].
    + rewrite lookup_insert_eq, Hold. split; [intros H; exists c'; split; [done|apply Hnew]; tauto|].
      intros (? & [= <-] & Hb). apply Hnew in Hb. tauto.
    + rewrite lookup_insert_ne, <- I by done. tauto.
  - intros p d. rewrite Hht. destruct (decide (p = pid)) as [->|Hn]; [|rewrite lookup_insert_ne by done; apply L].
    rewrite lookup_insert_eq. intros [= <-]. rewrite Hsubs, Hl. apply NoDup_Permutation; [|apply bits_of_nodup|].
    + apply NoDup_app. split_and!; [by apply NoDup_filter, bits_of_nodup| |done].
      intros b [_ Hb]%list_elem_of_filter Ha. by apply (Hdis b).
    + intros b. rewrite elem_of_app, list_elem_of_filter, Hnew. tauto.
Qed.

(** ** Every request keeps the books *)

Lemma log_ok c w : (forall pid, ~ about_filter pid c) -> msg_ok w -> msg_ok (log_call c w).
Proof.
  intros Hc [S R F]. split; [done|done|]. intros pid l H. apply F.
  apply (filters_of_skip pid [c]); [by repeat constructor|done].
Qed.
Lemma quiet_skip q pid : quiet q -> Forall (fun c => ~ about_filter pid c) q.
Proof. intros H. apply (Forall_impl _ _ _ H). by intros c -> []. Qed.

(** setmask() with a client, which is in the table or just made. *)
Lemma remask_ok w pid c or and : msg_ok w ->
  client_ht w !! pid = Some c \/ (client_ht w !! pid = None /\ msg_pid (recv_tid c) = pid /\ c = Msgclient (recv_tid c) 0 0 0 None []) ->
  let new_mask := Z.lor (Z.land (subs_mask c) and) or in
  let removed := Z.land (subs_mask c) (Z.lnot new_mask) in
  let added := Z.land (Z.lnot (subs_mask c)) new_mask in
  wp aborts (_ ← alter_client pid (set_masks new_mask (Z.land (filter_mask c) (Z.lnot removed)));
             _ ← mapM_ (rmsub pid) (bits_of removed); _ ← mapM_ (addsub pid) (bits_of added); mret (subs_mask c))
    (fun old w' => old = subs_mask c /\ msg_ok w' /\ (exists q, msg_trace w' = q ++ msg_trace w /\ quiet q)
       /\ exists c', client_ht w' = <[pid := c']> (client_ht w) /\ recv_tid c' = recv_tid c /\ subs_mask c' = new_mask
          /\ filter_mask c' = Z.land (filter_mask c) (Z.lnot removed) /\ n_filters c' = n_filters c /\ bloom c' = bloom c)
    (set_client_ht (<[pid := c]> (client_ht w)) w).
Proof.
  intros [S R F] Hc new_mask removed added. unfold alter_client. wp_steps. apply rmsubs_ok.
  cbn [client_ht subs_ht msg_trace set_client_ht]. wp_step. eapply wp_conseq; [apply addsubs_ok|].
  cbn [client_ht subs_ht msg_trace]. intros [] w' (E1 & E2 & q & E3 & Hq). wp_steps.
  rewrite !alter_insert_eq in E1. set (c' := set_subs _ _) in E1.
  assert (subs_ok w') as S'.
  { apply (resubscribed w w' pid c c' (bits_of removed) (bits_of added)); try done.
    - destruct Hc as [Hc|(Hn & _ & ->)]; [by left|by right].
    - intros b. apply elem_of_removed.
    - intros b. apply elem_of_added.
    - apply bits_of_nodup. }
  split; [done|]. split_and!; [|by exists q|by exists c'].
  split; [done|..].
  - intros p d. rewrite E1. destruct (decide (p = pid)) as [->|Hn]; [|rewrite lookup_insert_ne by done; apply R].
    rewrite lookup_insert_eq. intros [= <-]. simpl. destruct Hc as [Hc|(_ & Hr & _)]; [by apply R|done].
  - intros p l. rewrite E3. intros Hl%filters_of_skip; [|by apply quiet_skip]. specialize (F p l Hl). rewrite E1.
    destruct (decide (p = pid)) as [->|Hn]; [|by rewrite lookup_insert_ne].
    rewrite lookup_insert_eq. destruct Hc as [Hc|(Hc & _ & Hc')]; rewrite Hc in F; [exact F|]. subst l.
    unfold c'. by rewrite Hc'.
Qed.

(** What setmask() makes of the table: the client's mask is changed, and with it its
    subscriptions; a client that is not known gets an entry unless the request is empty. *)
Lemma setmask_ok tid or and w : msg_ok w ->
  wp aborts (setmask tid or and) (fun old w' => msg_ok w' /\ let pid := msg_pid tid in
    (forall p, p <> pid -> client_ht w' !! p = client_ht w !! p) /\
    match client_ht w !! pid with
    | Some c => old = subs_mask c /\ exists c', client_ht w' !! pid = Some c' /\ recv_tid c' = recv_tid c
        /\ subs_mask c' = Z.lor (Z.land old and) or
    | None => old = 0 /\ (client_ht w' !! pid = None /\ or = 0 /\ and = 0
        \/ exists c', client_ht w' !! pid = Some c' /\ recv_tid c' = tid /\ subs_mask c' = or)
    end) w.
Proof.
  intros H. unfold setmask. cbv zeta. wp_step. wp_step. unfold get_client. wp_step. wp_step.
  set (w1 := log_call _ w). assert (msg_ok w1) as H1 by (apply log_ok; [by intros ? []|done]). change (client_ht w1) with (client_ht w).
  destruct (client_ht w !! msg_pid tid) as [c|] eqn:Hc.
  - cbn iota. wp_step. wp_step.
    replace w1 with (set_client_ht (<[msg_pid tid := c]> (client_ht w1)) w1)
      by (rewrite (insert_id (client_ht w1)) by done; by destruct w1).
    eapply wp_conseq; [apply (remask_ok w1); [done|by left]|]. cbv beta. intros old w' (-> & H' & _ & c' & E & Hr & Hm & _).
    split; [done|]. rewrite E. split_and!; [intros p Hp; by rewrite lookup_insert_ne|done|].
    exists c'. by rewrite lookup_insert_eq.
  - destruct ((and =? 0) && (or =? 0)) eqn:Hz.
    { apply andb_prop in Hz as [Ha%Z.eqb_eq Ho%Z.eqb_eq]. wp_steps. split_and!; try done. by left. }
    wp_step. wp_step. apply malloc_ok. wp_step. apply malloc_ok. unfold put_client. do 3 wp_step.
    set (w2 := log_call CallAlloc (log_call CallAlloc w1)).
    eapply wp_conseq; [apply (remask_ok w2 (msg_pid tid) (Msgclient tid 0 0 0 None []))|].
    + do 2 (apply log_ok; [by intros ? []|]). done.
    + right. by split_and!.
    + cbv beta. intros old w' (-> & H' & _ & c' & E & Hr & Hm & _). split; [done|]. rewrite E.
      split_and!; [intros p Hp; by rewrite lookup_insert_ne|done|]. right. exists c'. by rewrite lookup_insert_eq.
Qed.

(** A client whose subscriptions stay as they are. *)
Lemma subs_ok_put w pid c c' t : subs_ok w -> client_ht w !! pid = Some c ->
  subs_mask c' = subs_mask c -> subs c' = subs c -> subs_ok (Sysmsg (<[pid := c']> (client_ht w)) (subs_ht w) t).
Proof.
  intros (N & I & L) Hc Hm Hs. split_and!; cbn [client_ht subs_ht]; [done|..].
  - intros bit p. rewrite I. destruct (decide (p = pid)) as [->|]; [|by rewrite lookup_insert_ne].
    rewrite lookup_insert_eq, Hc. split; intros (? & [= <-] & H); eexists; (split; [done|]); congruence.
  - intros p d. destruct (decide (p = pid)) as [->|]; [|rewrite lookup_insert_ne by done; apply L].
    rewrite lookup_insert_eq. intros [= <-]. rewrite Hm, Hs. by apply (L pid).
Qed.

Lemma recv_put w pid c c' : msg_ok w -> client_ht w !! pid = Some c -> recv_tid c' = recv_tid c ->
  forall p d, <[pid := c']> (client_ht w) !! p = Some d -> msg_pid (recv_tid d) = p.
Proof.
  intros H Hc Hr p d. destruct (decide (p = pid)) as [->|]; [|rewrite lookup_insert_ne by done; apply (ok_recv w H)].
  rewrite lookup_insert_eq. intros [= <-]. rewrite Hr. by apply (ok_recv w H).
Qed.

Lemma length_bind {A B} (g : A -> list B) k l : (forall x, length (g x) = k) -> length (l ≫= g) = (length l * k)%nat.
Proof. intros Hg. induction l as [|x l IH]; [done|]. rewrite bind_cons, length_app, IH, Hg. simpl. lia. Qed.
Lemma items_length mask labels : length (items_of mask labels) = (length labels * length (bits_of mask))%nat.
Proof. apply length_bind. intros x. rewrite (length_bind _ 1); [lia|done]. Qed.

Lemma add_keeps w pid c f fm items n : msg_ok w -> client_ht w !! pid = Some c ->
  (bloom c = Some f \/ bloom c = None /\ f = replicate 16 0) -> n = Z.of_nat (length items) ->
  msg_ok (Sysmsg (<[pid := set_filter fm (s32 (n_filters c + n)) (Some (foldl inc_item f items)) c]> (client_ht w))
                 (subs_ht w) (CallAddFilter pid items :: msg_trace w)).
Proof.
  intros H Hc Hf Hn. split; cbn [client_ht].
  - apply subs_ok_put with c; by try apply H.
  - by apply recv_put with c.
  - intros p l Hl. cbn [msg_trace] in Hl. inversion Hl as [|i t l0 Hl0 Hlen| |c0 t l0 Hna Hl0]; subst.
    + rewrite lookup_insert_eq. pose proof (ok_filters w H pid l0 Hl0) as Hh. rewrite Hc in Hh. destruct Hh as [Hcnt Hh].
      split; cbn [n_filters bloom set_filter].
      * rewrite Hcnt, length_app in *. rewrite (signed_id 32) by lia. lia.
      * apply counts_inc_items. destruct Hf as [Hf|[Hf ->]]; rewrite Hf in Hh; [done|]. subst l0. apply counts_fresh.
    + pose proof (ok_filters w H p l Hl0) as Hh. rewrite lookup_insert_ne; [done|]. intros ->. by apply Hna.
Qed.

Lemma rm_keeps w pid c f fm items removed g : msg_ok w -> client_ht w !! pid = Some c -> bloom c = Some f ->
  rm_items f items = (g, removed) ->
  let n := n_filters c - removed in
  msg_ok (Sysmsg (<[pid := set_filter fm n (if n =? 0 then None else Some g) c]> (client_ht w))
                 (subs_ht w) (CallRmFilter pid items :: msg_trace w)).
Proof.
  intros H Hc Hf Hg n. split; cbn [client_ht].
  - apply subs_ok_put with c; by try apply H.
  - by apply recv_put with c.
  - intros p l Hl. cbn [msg_trace] in Hl. inversion Hl as [| |i t l0 l1 Hl0 Hperm|c0 t l0 Hna Hl0]; subst.
    + rewrite lookup_insert_eq. pose proof (ok_filters w H pid l0 Hl0) as Hh. rewrite Hc in Hh. destruct Hh as [Hcnt Hh].
      rewrite Hf in Hh. destruct (counts_rm_items items f l 0) as (g' & E & Hg').
      { eapply counts_perm; [|exact Hh]. by apply bind_Permutation. }
      unfold rm_items in Hg. rewrite E in Hg. injection Hg as <- <-.
      assert (n = Z.of_nat (length l)) as Hn by (unfold n; rewrite Hcnt, Hperm, length_app; lia).
      split; cbn [n_filters bloom set_filter]; [done|]. rewrite Hn.
      destruct (Z.eqb_spec (Z.of_nat (length l)) 0); [by apply nil_length_inv; lia|done].
    + pose proof (ok_filters w H p l Hl0) as Hh. rewrite lookup_insert_ne; [done|]. intros ->. by apply Hna.
Qed.

Notation anything := (fun _ : stop => True).

Lemma first_labels_ok n labels w (Q : list Z -> sysmsg -> Prop) :
  (n <= Z.of_nat (length labels) -> Q (take (Z.to_nat n) labels) w) -> wp anything (first_labels n labels) Q w.
Proof. intros H. unfold first_labels. destruct (Z.leb_spec n (Z.of_nat (length labels))); wp_steps; auto. Qed.

Lemma add_filter_ok sender mask labels n w : 0 <= n -> msg_ok w ->
  wp anything (add_filter sender mask labels n) (fun _ w' => msg_ok w') w.
Proof.
  intros Hn H. unfold add_filter. cbv zeta. wp_step. unfold get_client. wp_step.
  destruct (client_ht w !! msg_pid sender) as [c|] eqn:Hc; [|by wp_steps].
  enough (forall w1 f, msg_ok w1 -> client_ht w1 !! msg_pid sender = Some c -> (bloom c = Some f \/ bloom c = None /\ f = replicate 16 0) ->
    wp anything (labels ← first_labels n labels; _ ← modify (log_call (CallAddFilter (msg_pid sender) (items_of mask labels)));
      alter_client (msg_pid sender) (set_filter (if n =? 0 then filter_mask c else Z.lor (filter_mask c) mask)
        (s32 (n_filters c + n * popcount mask)) (Some (foldl inc_item f (items_of mask labels))))) (fun _ w' => msg_ok w') w1) as G.
  { wp_step. destruct (bloom c) as [f|] eqn:Hf.
    - wp_step. apply G; auto.
    - wp_step. destruct (n_filters c =? 0); [|done]. apply wp_assert; [done|]. wp_step. apply allocate_ok. wp_step.
      destruct (has_memory _); [|by wp_steps; apply log_ok; [intros ? []|]]. apply G; [apply log_ok; [by intros ? []|done]|done|by right]. }
  intros w1 f H1 Hc1 Hf. wp_step. apply first_labels_ok. intros Hle. unfold alter_client. wp_steps. unfold set_client_ht, log_call. cbn [client_ht subs_ht msg_trace].
  rewrite <- (insert_id (client_ht w1) (msg_pid sender) c Hc1), alter_insert_eq.
  apply (add_keeps w1); [done|done|done|]. by rewrite items_length, length_take, Nat.min_l, Nat2Z.inj_mul, Z2Nat.id by lia.
Qed.

Lemma rm_filter_ok sender mask labels n w : 0 <= n -> msg_ok w ->
  wp anything (rm_filter sender mask labels n) (fun _ w' => msg_ok w') w.
Proof.
  intros Hn H. unfold rm_filter. cbv zeta. wp_step. unfold get_client. wp_step.
  destruct (client_ht w !! msg_pid sender) as [c|] eqn:Hc; [|by wp_steps].
  destruct (bloom c) as [f|] eqn:Hf; [|by wp_steps].
  wp_step. apply first_labels_ok. intros Hle. destruct (rm_items f _) as [g removed] eqn:Hg.
  wp_step. wp_step. wp_step. destruct (removed <=? n_filters c); [|done]. apply wp_assert; [done|]. unfold alter_client. wp_steps.
  unfold set_client_ht, log_call. cbn [client_ht subs_ht msg_trace].
  rewrite <- (insert_id (client_ht w) (msg_pid sender) c Hc), alter_insert_eq. by apply (rm_keeps w _ _ f).
Qed.

Lemma wp_top {A} (m : M sysmsg A) Q w : wp aborts m Q w -> wp anything m Q w.
Proof. intros H. by eapply wp_mono. Qed.

Lemma u32_pos n : 0 <= u32 n.
Proof. apply u32_range. Qed.

Lemma msg_reply_ok pid label words w (Q : unit -> sysmsg -> Prop) :
  (msg_ok (log_call (CallReply pid label words) w) -> Q tt (log_call (CallReply pid label words) w)) ->
  msg_ok w -> wp anything (reply pid label words) Q w.
Proof. intros HQ H. unfold reply. wp_steps. apply HQ, log_ok; [by intros ? []|done]. Qed.

Lemma recursive_ok m sender w : msg_ok w -> wp anything (recursive_sysmsg_call m sender) (fun _ w' => msg_ok w') w.
Proof.
  intros H. unfold recursive_sysmsg_call. cbv zeta.
  destruct (m_mr m 1 =? 1).
  { wp_step. eapply wp_conseq; [apply wp_top, setmask_ok, H|]. intros old w' [H' _]. by apply msg_reply_ok. }
  destruct (m_mr m 1 =? 2); [by apply msg_reply_ok|]. destruct ((m_mr m 1 =? 3) || (m_mr m 1 =? 4)); [|by apply msg_reply_ok].
  wp_step. unfold inline_labels. destruct (60 <? m_u m - 2); [done|]. wp_steps.
  apply (wp_conseq _ _ (fun _ w' => msg_ok w')); [|intros [] w' H'; by apply msg_reply_ok].
  destruct (m_mr m 1 =? 3); [apply add_filter_ok|apply rm_filter_ok]; auto using u32_pos.
Qed.

Lemma recursives_ok sender l : forall w, msg_ok w ->
  wp anything (mapM_ (fun m => recursive_sysmsg_call m sender) l) (fun _ w' => msg_ok w') w.
Proof.
  induction l as [|m l IH]; intros w H; cbn [mapM_]; [by apply wp_ret|]. wp_step.
  eapply wp_conseq; [by apply recursive_ok|]. intros [] w' H'. by apply IH.
Qed.

Lemma send_ok sender pid bits body w : msg_ok w -> wp anything (send_to_client sender pid bits body) (fun _ w' => msg_ok w') w.
Proof.
  intros H. unfold send_to_client. wp_step. wp_step. wp_step. destruct (client_ht w !! pid) as [c|]; [|done].
  eapply wp_of_some; [done|]. wp_step. destruct (sender =? recv_tid c); [done|]. apply wp_assert; [done|].
  destruct (handler_run (msg_trace w)) as [calls final]. wp_step. wp_step. wp_step.
  eapply wp_conseq; [apply recursives_ok, log_ok; [by intros ? []|done]|]. intros [] w' H'.
  destruct final as [ec|m]; [by wp_steps|]. wp_step. destruct (m_u m =? 1); [|done]. apply wp_assert; [done|]. by wp_steps.
Qed.

Lemma deliver_ok sender maskp body hash l : forall prev w b, msg_ok w ->
  wp anything (deliver sender maskp body hash prev l b) (fun _ w' => msg_ok w') w.
Proof.
  induction l as [|pid l IH]; intros prev w b H; cbn [deliver]; [by apply wp_ret|].
  wp_step. destruct (negb _); [|done]. apply wp_assert; [done|]. wp_step. wp_step. wp_step.
  destruct (client_ht w !! pid) as [c|]; [|done]. eapply wp_of_some; [done|].
  destruct (filtered c maskp hash); [by apply IH|]. wp_step. eapply wp_conseq; [by apply send_ok|].
  intros n w' H'. by apply IH.
Qed.

(** ** Who a broadcast is for *)

Definition wants (w : sysmsg) (maskn pid : Z) : Prop :=
  exists c, client_ht w !! pid = Some c /\ Z.land (subs_mask c) maskn = 0.
#[local] Instance wants_dec w maskn pid : Decision (wants w maskn pid).
Proof.
  unfold wants. destruct (client_ht w !! pid) as [c|]; [|right; by intros (? & ? & _)].
  destruct (decide (Z.land (subs_mask c) maskn = 0)) as [E|E]; [left; by exists c|right; by intros (? & [= <-] & ?)].
Defined.

(** Only memory is asked for on the way from [w] to [w']. *)
Definition only_memory (w w' : sysmsg) : Prop :=
  client_ht w' = client_ht w /\ subs_ht w' = subs_ht w /\ exists q, msg_trace w' = q ++ msg_trace w /\ quiet q.

Lemma only_memory_refl w : only_memory w w.
Proof. split_and!; [done|done|]. exists []. split; [done|constructor]. Qed.
Lemma only_memory_trans w1 w2 w3 : only_memory w1 w2 -> only_memory w2 w3 -> only_memory w1 w3.
Proof.
  intros (C1 & S1 & q1 & T1 & Q1) (C2 & S2 & q2 & T2 & Q2). split_and!; [congruence|congruence|].
  exists (q2 ++ q1). rewrite T2, T1, app_assoc. split; [done|by apply Forall_app].
Qed.
Lemma only_memory_alloc w : only_memory w (log_call CallAlloc w).
Proof. split_and!; [done|done|]. exists [CallAlloc]. split; [done|by repeat constructor]. Qed.
Lemma only_memory_wants w w' maskn pid : only_memory w w' -> wants w' maskn pid <-> wants w maskn pid.
Proof. intros (E & _). unfold wants. by rewrite E. Qed.
Lemma only_memory_ok w w' : only_memory w w' -> msg_ok w -> msg_ok w'.
Proof.
  intros (C & S & q & T & Hq) H. destruct H as [(N & I & L) R F]. split; [split_and!|..]; rewrite ?C, ?S; try done.
  intros pid l. rewrite T. intros Hl%filters_of_skip; [by apply F|by apply quiet_skip].
Qed.

(** Out of memory is the one reason to stop; with memory there is none. *)
Definition oom (r : stop) : Prop := r = StAbort /\ exists t, has_memory t = false.

Lemma malloc_oom w (Q : unit -> sysmsg -> Prop) : Q tt (log_call CallAlloc w) -> wp oom malloc_or_abort Q w.
Proof.
  intros H. unfold malloc_or_abort. wp_step. apply allocate_ok. destruct (has_memory _) eqn:E; wp_steps; [done|].
  split; [done|by exists (msg_trace w)].
Qed.

Lemma grow_ok r w : wp oom (grow r) (fun r' w' => recs r' = recs r /\ only_memory w w') w.
Proof.
  unfold grow. case_match; [|apply wp_ret; split; [done|apply only_memory_refl]].
  assert (only_memory w (log_call CallAlloc (log_call CallAlloc w)))
    by (eapply only_memory_trans; apply only_memory_alloc).
  destruct (rec_heap r); repeat (wp_step || apply malloc_oom); (split; [done|]); [apply only_memory_alloc|done].
Qed.

Lemma gather_ok maskn l : forall r w, (forall s, s ∈ l -> is_Some (client_ht w !! sub_client s)) ->
  wp oom (gather maskn l r) (fun r' w' =>
    recs r' = recs r ++ map sub_client (filter (fun s => wants w maskn (sub_client s)) l) /\ only_memory w w') w.
Proof.
  induction l as [|s l IH]; intros r w Hl; cbn [gather].
  - apply wp_ret. split; [by rewrite app_nil_r|apply only_memory_refl].
  - destruct (Hl s ltac:(constructor)) as [c Hc]. wp_step. wp_step. wp_step. eapply wp_of_some; [done|].
    destruct (Z.eqb_spec (Z.land (subs_mask c) maskn) 0) as [E|E]; cbn [negb].
    + wp_step. eapply wp_conseq; [apply grow_ok|]. intros r1 w1 [Hr HM].
      eapply wp_conseq; [apply IH; intros s' Hs'; rewrite (proj1 HM); apply Hl; by constructor|].
      intros r2 w2 [Hr2 HM2]. split; [|by eapply only_memory_trans].
      rewrite Hr2, filter_cons_True by (by exists c). cbn [recs map]. rewrite Hr, <- app_assoc. cbn [app]. do 3 f_equal.
      apply list_filter_iff. intros x. by apply only_memory_wants.
    + eapply wp_conseq; [apply IH; intros s' Hs'; apply Hl; by constructor|].
      intros r2 w2 [Hr2 HM2]. rewrite filter_cons_False; [done|]. intros (d & Hd & ?). congruence.
Qed.

Lemma sort_recs_ok l w : wp oom (sort_recs l) (fun l' w' => w' = w /\ l' ≡ₚ l /\ StronglySorted Z.le l') w.
Proof.
  unfold sort_recs, order_msgclientptr_by_pid.
  pose proof (qsort_ok Z.sub l ltac:(intros; lia)) as H. unfold wp in H. change (fun l0 r : Z => l0 - r) with Z.sub.
  destruct (qsort Z.sub (length l) l) as [[] l'|r]; [|done]. destruct H as [Hp Hs]. apply wp_ret. split_and!; [done|done|].
  assert (ordering Z.sub) as O by (split; intros; lia). specialize (Hs O). clear -Hs.
  induction Hs as [|x l' _ IH Hx]; constructor; [done|]. eapply Forall_impl; [exact Hx|]. intros y Hy. cbv beta in Hy. lia.
Qed.

(** The elements before [count] are those of the first [i] of the sorted array, once each. *)
Definition uniqued (l recs : list Z) (i count : nat) : Prop :=
  length recs = length l /\ (1 <= count <= i)%nat /\ StronglySorted Z.lt (take count recs) /\
  (forall x, x ∈ take count recs <-> x ∈ take i l) /\ forall j, (i - 1 <= j)%nat -> recs !! j = l !! j.

Lemma sorted_le l i j x y : StronglySorted Z.le l -> (i <= j)%nat -> l !! i = Some x -> l !! j = Some y -> x <= y.
Proof.
  intros H. revert i j. induction H as [|a l _ IH Ha]; intros i j Hij Hi Hj; [done|].
  destruct i as [|i], j as [|j]; simpl in *; try lia; [simplify_eq; lia| |by apply (IH i j); try lia].
  simplify_eq. rewrite Forall_forall in Ha. apply Ha. by eapply list_elem_of_lookup_2.
Qed.

Lemma sorted_snoc l x : StronglySorted Z.lt l -> (forall y, y ∈ l -> y < x) -> StronglySorted Z.lt (l ++ [x]).
Proof.
  induction 1 as [|a l _ IH Ha]; intros Hx; [by repeat constructor|]. simpl. constructor.
  - apply IH. intros y Hy. apply Hx. by constructor.
  - apply Forall_app. split; [done|]. repeat constructor. apply Hx. constructor.
Qed.

Lemma uniq_ok l : StronglySorted Z.le l -> forall n i count recs, (n + i = length l)%nat -> (1 <= i)%nat ->
  uniqued l recs i count -> let '(c, r) := uniq n i count recs in uniqued l r (length l) c.
Proof.
  intros Hs. induction n as [|n IH]; intros i count recs Hn Hi (Hlen & Hc & Hst & Hin & Hj); cbn [uniq].
  { replace (length l) with i by lia. split; [lia|]. by split_and!; try lia. }
  destruct (lookup_lt_is_Some_2 l (i - 1) ltac:(lia)) as [x Hx], (lookup_lt_is_Some_2 l i ltac:(lia)) as [y Hy].
  rewrite (list_lookup_total_correct recs (i - 1) x), (list_lookup_total_correct recs i y) by (rewrite Hj; [done|lia]).
  assert (x ∈ take i l) as Hxi by (apply (list_elem_of_lookup_2 _ (i - 1)); by rewrite lookup_take_lt by lia).
  assert (forall z, z ∈ take (S i) l <-> z ∈ take i l \/ z = y) as Hnext.
  { intros z. rewrite (take_S_r _ _ y), elem_of_app, list_elem_of_singleton by done. done. }
  unfold order_msgclientptr_by_pid. destruct (Z.eqb_spec (x - y) 0) as [E|E].
  - apply IH; [lia|lia|]. assert (y = x) as -> by lia.
    split_and!; try done; try lia; [|intros j Hji; apply Hj; lia]. intros z. rewrite Hin, Hnext.
    split; [by left|]. intros [?| ->]; done.
  - assert (x < y) by (pose proof (sorted_le l (i - 1) i x y Hs ltac:(lia) Hx Hy); lia).
    assert (take (S count) (<[count := y]> recs) = take count recs ++ [y]) as Ht.
    { rewrite (take_S_r _ _ y) by (rewrite list_lookup_insert_eq; [done|lia]). by rewrite take_insert_ge by lia. }
    apply IH; [lia|lia|]. split_and!; [by rewrite length_insert|lia|lia|..].
    + rewrite Ht. apply sorted_snoc; [done|]. intros z Hz%Hin. apply list_elem_of_lookup in Hz as [j Hz].
      apply lookup_take_Some in Hz as [Hz Hji]. pose proof (sorted_le l j (i - 1) z x Hs ltac:(lia) Hz Hx). lia.
    + intros z. by rewrite Ht, elem_of_app, list_elem_of_singleton, Hin, Hnext.
    + intros j Hji. destruct (decide (j = count)) as [->|]; [|rewrite list_lookup_insert_ne by done; apply Hj; lia].
      rewrite list_lookup_insert_eq by lia. by replace count with i by lia.
Qed.

(** The recipients: sorted, without repetition, and all that are in the sorted array. *)
Lemma uniq_recs l : StronglySorted Z.le l ->
  let '(c, r) := uniq (length l - 1) 1 (if (0 <? length l)%nat then 1%nat else 0%nat) l in
  StronglySorted Z.lt (take c r) /\ forall x, x ∈ take c r <-> x ∈ l.
Proof.
  intros Hs. destruct l as [|x l]; [simpl; split; [constructor|done]|].
  pose proof (uniq_ok (x :: l) Hs (length l) 1 1 (x :: l) ltac:(simpl; lia) ltac:(lia)) as H.
  replace (length (x :: l) - 1)%nat with (length l) by (simpl; lia). cbn [Nat.ltb Nat.leb length].
  destruct (uniq _ _ _ _) as [c r]. destruct H as (_ & _ & H1 & H2 & _).
  - split_and!; try done; try lia. repeat constructor.
  - rewrite (take_ge (x :: l)) in H2 by (simpl; lia). done.
Qed.

Lemma elem_of_subs_of maskp l s : s ∈ subs_of maskp l <-> s ∈ l /\ sub_bit s ∈ bits_of maskp.
Proof.
  unfold subs_of. rewrite list_elem_of_bind. split.
  - intros (b & [Hb Hs]%list_elem_of_filter & Hm). by subst b.
  - intros [Hs Hb]. exists (sub_bit s). rewrite list_elem_of_filter. done.
Qed.

(** A client that has a bit of [maskp] and none of [maskn]. *)
Definition subscribed (w : sysmsg) (maskp maskn pid : Z) : Prop :=
  exists c, client_ht w !! pid = Some c /\ Z.land (subs_mask c) maskn = 0
    /\ exists bit, bit ∈ bits_of maskp /\ bit ∈ bits_of (subs_mask c).

(** Up to the loop of sending, impl_broadcast() is a computation of the recipients. *)
Lemma recipients_ok maskp maskn w Q : msg_ok w ->
  (forall w' R, only_memory w w' -> StronglySorted Z.lt R -> (forall pid, pid ∈ R <-> subscribed w maskp maskn pid) -> Q R w') ->
  wp oom (r ← gather maskn (subs_of maskp (subs_ht w)) (Recbuf [] 64 false); sorted ← sort_recs (recs r);
    let '(count, l) := uniq (length sorted - 1) 1 (if (0 <? length sorted)%nat then 1%nat else 0%nat) sorted in
    mret (take count l)) Q w.
Proof.
  intros H HQ. destruct (ok_subs w H) as (_ & I & _).
  assert (forall s, s ∈ subs_of maskp (subs_ht w) ->
    exists c, client_ht w !! sub_client s = Some c /\ sub_bit s ∈ bits_of (subs_mask c)) as Hs.
  { intros [b p] [Hs _]%elem_of_subs_of. by apply I. }
  wp_step. eapply wp_conseq; [apply gather_ok; intros s (c & Hc & _)%Hs; by exists c|].
  intros r w1 [Hr HM]. wp_step. eapply wp_conseq; [apply sort_recs_ok|]. intros sorted w2 (-> & Hp & Hst).
  pose proof (uniq_recs sorted Hst) as Hu. destruct (uniq _ _ _ _) as [count l]. destruct Hu as [Hl Hin].
  apply wp_ret, HQ; [done|done|]. intros pid. rewrite Hin, Hp, Hr. cbn [recs app].
  rewrite list_elem_of_In, in_map_iff. split.
  - intros (s & <- & Hf). apply list_elem_of_In, list_elem_of_filter in Hf as [(c & Hc & Hn) Hsub].
    destruct (Hs s Hsub) as (d & Hd & Hb). apply elem_of_subs_of in Hsub as [_ Hbit].
    exists c. split_and!; [done|done|]. exists (sub_bit s). split; [done|congruence].
  - intros (c & Hc & Hn & b & Hb & Hbc). exists (Sub b pid). split; [done|]. apply list_elem_of_In, list_elem_of_filter.
    split; [by exists c|]. apply elem_of_subs_of. split; [apply I; by exists c|done].
Qed.

(** ** The server *)

Inductive msg_reachable : sysmsg -> Prop :=
| mr_start : msg_reachable msg_start
| mr_serve w sender q w' : msg_reachable w -> serve_msg sender q w = Ret tt w' -> msg_reachable w'.

Lemma wp_unbind {A B} E (m : M sysmsg A) (k : A -> M sysmsg B) Q w :
  wp E (m ≫= k) Q w -> wp E m (fun a w' => wp E (k a) Q w') w.
Proof. unfold wp, mbind, M_bind. by destruct (m w). Qed.

(** A broadcast is sent to its recipients. *)
Lemma broadcast_wp (E : stop -> Prop) sender maskp maskn body w Q : (forall r, oom r -> E r) -> msg_ok w ->
  ((maskp =? 0) || (maskn =? Z.lnot 0) = true -> Q true w) ->
  (forall w' R, only_memory w w' -> StronglySorted Z.lt R -> (forall pid, pid ∈ R <-> subscribed w maskp maskn pid) ->
     wp E (deliver sender maskp body (int_hash (default (stale_word (msg_trace w)) (body !! 0%nat))) None R true) Q w') ->
  wp E (impl_broadcast sender maskp maskn body) Q w.
Proof.
  intros HE H H0 HQ. unfold impl_broadcast. destruct (_ || _); [by apply wp_ret, H0|].
  pose proof (recipients_ok maskp maskn w (fun R w' => only_memory w w' /\ StronglySorted Z.lt R /\
    forall pid, pid ∈ R <-> subscribed w maskp maskn pid) H ltac:(done)) as HR.
  apply wp_unbind in HR. wp_step. wp_step. wp_step. eapply wp_conseq; [eapply wp_mono; [exact HR|done]|]. cbv beta. clear HR.
  intros r w1 HR. apply wp_unbind in HR. wp_step. eapply wp_conseq; [eapply wp_mono; [exact HR|done]|]. cbv beta. clear HR.
  intros sorted w2 HR. destruct (uniq _ _ _ _) as [count l]. destruct HR as (HM & Hs & Hin). by apply HQ.
Qed.

Lemma broadcast_ok sender maskp maskn body w : msg_ok w ->
  wp anything (impl_broadcast sender maskp maskn body) (fun _ w' => msg_ok w') w.
Proof.
  intros H. apply broadcast_wp; [done|done|done|]. intros w1 R HM _ _. by apply deliver_ok, (only_memory_ok w).
Qed.

Lemma serve_msg_ok sender q w : msg_ok w -> wp anything (serve_msg sender q) (fun _ w' => msg_ok w') w.
Proof.
  intros H. destruct q as [or and|maskp maskn body|mask labels|mask labels]; cbn [serve_msg].
  - wp_step. eapply wp_conseq; [apply wp_top, setmask_ok, H|]. by intros old w' [H' _].
  - wp_step. by eapply wp_conseq; [apply broadcast_ok|].
  - apply add_filter_ok; [lia|done].
  - apply rm_filter_ok; [lia|done].
Qed.

Lemma msg_reachable_ok w : msg_reachable w -> msg_ok w.
Proof.
  induction 1 as [|w sender q w' _ IH E]; [apply msg_start_ok|].
  pose proof (serve_msg_ok sender q w IH) as H. unfold wp in H. by rewrite E in H.
Qed.

(** What is in a client's filter is let through. *)
Lemma not_filtered c l maskp bit label : holds c l -> bit ∈ bits_of maskp -> (bit, label) ∈ l ->
  filtered c maskp (int_hash label) = false.
Proof.
  intros [_ Hh] Hb Hl. unfold filtered. destruct (Z.eqb_spec (Z.land (filter_mask c) maskp) maskp) as [E|]; [|done].
  apply negb_false_iff. unfold filter_pass. destruct (bloom c) as [f|]; [|done].
  apply existsb_exists. exists bit. split; [|exact (counts_query_item f l (bit, label) Hh Hl)].
  apply list_elem_of_In. by rewrite Z.land_comm, E.
Qed.

(** ** Broadcasts that are not interfered with *)

(** Handlers answer without calls to the server, and with a verdict of one word. *)
Definition calm : Prop := forall t, (handler_run t).1 = [] /\
  match (handler_run t).2 with IpcFails ec => 0 < ec < 2 ^ 31 | Reply m => m_u m = 1 end.

Definition defers (t : list msgcall) : Prop :=
  match (handler_run t).2 with IpcFails _ => False | Reply m => s32 (m_mr m 1) = 1 end.

Lemma send_calm sender pid bits body w c : calm -> client_ht w !! pid = Some c -> recv_tid c <> sender ->
  wp oom (send_to_client sender pid bits body)
    (fun n w' => w' = log_call (CallSend pid bits body) w /\ (n = 1 -> defers (msg_trace w))) w.
Proof.
  intros Hcalm Hc Hr. unfold send_to_client. wp_step. wp_step. wp_step. eapply wp_of_some; [done|].
  wp_step. apply wp_assert; [by apply negb_true_iff, Z.eqb_neq|]. destruct (Hcalm (msg_trace w)) as [H1 H2].
  unfold defers. destruct (handler_run (msg_trace w)) as [calls final]. cbn [fst snd] in *. subst calls. cbn [mapM_]. wp_steps.
  destruct final as [ec|m].
  - apply wp_ret. split; [done|]. unfold s32. rewrite signed_id by lia. lia.
  - wp_step. apply wp_assert; [by apply Z.eqb_eq|]. by apply wp_ret.
Qed.

Definition send_of (maskp : Z) (body : list Z) (pid : Z) : msgcall := CallSend pid (u32 maskp) body.

(** The clients of a list that are sent to. *)
Definition unfiltered (w : sysmsg) (maskp hash pid : Z) : bool :=
  match client_ht w !! pid with Some c => negb (filtered c maskp hash) | None => false end.

Lemma deliver_calm sender maskp body hash ht l : calm -> StronglySorted Z.lt l ->
  (forall pid, pid ∈ l -> exists c, ht !! pid = Some c /\ recv_tid c <> sender) ->
  forall prev w b, client_ht w = ht -> (forall p, prev = Some p -> p ∉ l) ->
  wp oom (deliver sender maskp body hash prev l b) (fun imm w' =>
    client_ht w' = ht /\ subs_ht w' = subs_ht w /\
    msg_trace w' = rev (map (send_of maskp body) (List.filter (unfiltered w maskp hash) l)) ++ msg_trace w /\
    (b = true -> (forall t, ~ defers t) -> imm = true)) w.
Proof.
  intros Hcalm Hs. induction Hs as [|pid l Hs IH Hlt]; intros Hl prev w b Hht Hprev; cbn [deliver].
  { by apply wp_ret. }
  rewrite Forall_forall in Hlt. destruct (Hl pid ltac:(constructor)) as (c & Hc & Hr).
  assert (forall w1 b1, client_ht w1 = ht -> wp oom (deliver sender maskp body hash (Some pid) l b1) (fun imm w' =>
    client_ht w' = ht /\ subs_ht w' = subs_ht w1 /\
    msg_trace w' = rev (map (send_of maskp body) (List.filter (unfiltered w1 maskp hash) l)) ++ msg_trace w1 /\
    (b1 = true -> (forall t, ~ defers t) -> imm = true)) w1) as IH'.
  { intros w1 b1 H1. apply IH; [intros p Hp; apply Hl; by constructor|done|].
    intros p [= <-] Hin. specialize (Hlt _ Hin). lia. }
  wp_step. apply wp_assert.
  { apply negb_true_iff, bool_decide_eq_false. intros E. apply (Hprev pid E). constructor. }
  wp_step. wp_step. wp_step. rewrite Hht. eapply wp_of_some; [done|].
  cbn [List.filter]. unfold unfiltered at 1. rewrite Hht, Hc. destruct (filtered c maskp hash); cbn [negb].
  - by apply IH'.
  - wp_step. eapply wp_conseq; [apply (send_calm _ _ _ _ _ c); [done|by rewrite Hht|done]|].
    intros n w1 [-> Hn]. eapply wp_conseq; [by apply IH'|].
    intros imm w' (E1 & E2 & E3 & E4). split_and!; [done|done| |].
    + rewrite E3. cbn [map rev]. by rewrite <- app_assoc.
    + intros Hb Hd. apply E4; [|done]. destruct (Z.eqb_spec n 1); [|done]. exfalso. by eapply Hd, Hn.
Qed.
End server.

(** ** The theorems *)

(** In every state the message server reaches, whatever is asked of it and whatever
    handlers do meanwhile, the table of subscriptions has one entry for each bit of each
    client's mask and no others, and clients are under their own process IDs. *)
Theorem sysmsg_reachable_sane {abi : L4Abi} {env : MsgEnv} w (HW : msg_reachable w) :
  subs_ok w /\ forall pid c, client_ht w !! pid = Some c -> msg_pid (recv_tid c) = pid.
Proof. apply msg_reachable_ok in HW. split; apply HW. Qed.

(** C31: A client that takes out of its filter only what it put in, and has less than 2^31
    items in it at a time, gets what it asked for: its items are counted exactly, and no
    message with one of its labels is kept from it, however often counters of the filter
    saturated. *)
Theorem sysmsg_filter_lets_pass {abi : L4Abi} {env : MsgEnv} w pid c items (HW : msg_reachable w)
    (Hc : client_ht w !! pid = Some c) (Hi : filters_of pid (msg_trace w) items) :
  n_filters c = Z.of_nat (length items) /\
  forall maskp bit label, bit ∈ bits_of maskp -> (bit, label) ∈ items -> filtered c maskp (int_hash label) = false.
Proof.
  pose proof (ok_filters w (msg_reachable_ok w HW) pid items Hi) as H. rewrite Hc in H.
  split; [apply H|]. intros maskp bit label. by apply not_filtered.
Qed.

(** C32: A broadcast is sent to exactly the clients that have a bit of [maskp] and none of
    [maskn] and whose filters let it pass, once each and in the order of their process
    IDs; nothing else changes, and it counts as handled at once when no handler defers. *)
Theorem sysmsg_broadcast_exact {abi : L4Abi} {env : MsgEnv} sender maskp maskn label body w
    (HW : msg_reachable w) (Hcalm : calm) (Hmem : forall t, has_memory t = true)
    (Hs : forall pid c, client_ht w !! pid = Some c -> recv_tid c <> sender) (Hp : maskp <> 0) (Hn : maskn <> -1) :
  exists imm w' R q, impl_broadcast sender maskp maskn (label :: body) w = Ret imm w'
    /\ client_ht w' = client_ht w /\ subs_ht w' = subs_ht w
    /\ msg_trace w' = rev (map (send_of maskp (label :: body)) R) ++ q ++ msg_trace w /\ quiet q
    /\ StronglySorted Z.lt R
    /\ (forall pid, pid ∈ R <-> subscribed w maskp maskn pid /\ unfiltered w maskp (int_hash label) pid = true)
    /\ ((forall t, ~ defers t) -> imm = true).
Proof.
  assert (wp oom (impl_broadcast sender maskp maskn (label :: body)) (fun imm w' => exists R q,
    client_ht w' = client_ht w /\ subs_ht w' = subs_ht w
    /\ msg_trace w' = rev (map (send_of maskp (label :: body)) R) ++ q ++ msg_trace w /\ quiet q
    /\ StronglySorted Z.lt R
    /\ (forall pid, pid ∈ R <-> subscribed w maskp maskn pid /\ unfiltered w maskp (int_hash label) pid = true)
    /\ ((forall t, ~ defers t) -> imm = true)) w) as H.
  { apply broadcast_wp; [done|by apply msg_reachable_ok| |].
    - intros [?%Z.eqb_eq|?%Z.eqb_eq]%orb_prop; done.
    - intros w1 R (C & S & q & T & Hq) HR Hin. eapply wp_conseq.
      + apply (deliver_calm _ _ _ _ (client_ht w) R Hcalm HR); [|done|done].
        intros pid (c & Hc & _)%Hin. exists c. split; [done|by eapply Hs].
      + intros imm w2 (C2 & S2 & T2 & D). exists (List.filter (unfiltered w1 maskp (int_hash label)) R), q.
        assert (forall pid, unfiltered w1 maskp (int_hash label) pid = unfiltered w maskp (int_hash label) pid) as U
          by (intros pid; unfold unfiltered; by rewrite C).
        split_and!; [done|congruence|by rewrite T2, T|done| | |by apply D].
        * clear -HR. induction HR as [|x l _ IH Hx]; simpl; [constructor|]. case_match; [|done]. constructor; [done|].
          rewrite Forall_forall in Hx |- *. intros y [Hy _]%list_elem_of_In%filter_In. by apply Hx, list_elem_of_In.
        * intros pid. rewrite list_elem_of_In, filter_In, <- list_elem_of_In, Hin, U. done. }
  unfold wp in H. destruct (impl_broadcast _ _ _ _ w) as [imm w'|r].
  - destruct H as (R & q & H). by exists imm, w', R, q.
  - destruct H as [_ [t Ht]]. by rewrite Hmem in Ht.
Qed.

(** ** A server at work *)

#[local] Existing Instance l4_x2_32.

(** Handlers that answer at once, memory that does not run out. *)
#[local] Instance calm_env : MsgEnv := {|
  handler_run _ := ([], Reply (Message 1 (fun _ => 0))); has_memory _ := true; stale_word _ := 0;
  siphash_2_4 x := u64 (x * 6364136223846793005 + 1442695040888963407); msg_global := L4_GlobalId 7 18 |}.

Definition serve_all (l : list (Z * request)) : option sysmsg :=
  foldl (fun w q => match w with
                    | Some w => match serve_msg q.1 q.2 w with Ret _ w' => Some w' | Stop _ => None end
                    | None => None end) (Some msg_start) l.

Lemma serve_all_reachable l w : serve_all l = Some w -> msg_reachable w.
Proof.
  unfold serve_all. revert w. induction l as [|q l IH] using rev_ind; intros w; [intros [= <-]; constructor|].
  rewrite foldl_app. cbn [foldl]. destruct (foldl _ _ l) as [w0|]; [|done]. specialize (IH w0 eq_refl).
  destruct (serve_msg q.1 q.2 w0) as [[] w'|] eqn:E; [|done]. intros [= <-]. by eapply mr_serve.
Qed.

(** Three clients: the first two listen for bit 2, the second for label 77 only; the
    third listens for bit 3. *)
Definition task (n : Z) : Z := L4_GlobalId (16 + n) (4 * n + 2).
Definition demo : list (Z * request) :=
  [(task 2, RqSetmask 4 (-1)); (task 1, RqSetmask 5 (-1)); (task 3, RqSetmask 8 (-1));
   (task 2, RqAddFilter 4 [77; 78]); (task 2, RqRmFilter 4 [78])].
Definition demo_state : sysmsg := default msg_start (serve_all demo).

Lemma demo_reachable : msg_reachable demo_state.
Proof. apply (serve_all_reachable demo). by vm_compute. Qed.
Lemma demo_filters : filters_of 50002 (msg_trace demo_state) [(2, 77)].
Proof.
  let t := eval vm_compute in (msg_trace demo_state) in replace (msg_trace demo_state) with t by by vm_compute.
  apply (fo_rm _ [(2, 78)] _ [(2, 77); (2, 78)]); [|by apply perm_swap].
  apply (fo_add _ [(2, 77); (2, 78)] _ []); [|done]. repeat (apply fo_other; [by intros []|]). apply fo_none.
Qed.

Example demo_label : exists w, impl_broadcast (task 4) 4 0 [78] demo_state = Ret true w /\
  msg_trace w = CallSend 50001 4 [78] :: msg_trace demo_state.
Proof. eexists. by vm_compute. Qed.
Example demo_both : exists w, impl_broadcast (task 4) 4 0 [77] demo_state = Ret true w /\
  msg_trace w = CallSend 50002 4 [77] :: CallSend 50001 4 [77] :: msg_trace demo_state.
Proof. eexists. by vm_compute. Qed.

Lemma sysmsg_filter_lets_pass_witness : exists c, client_ht demo_state !! 50002 = Some c /\
  n_filters c = 1 /\ filtered c 4 (int_hash 77) = false /\ filtered c 4 (int_hash 78) = true.
Proof.
  eexists. split; [by vm_compute|].
  pose proof (sysmsg_filter_lets_pass demo_state 50002 _ [(2, 77)] demo_reachable ltac:(by vm_compute) demo_filters) as [H1 H2].
  split; [exact H1|]. split; [apply (H2 4 2 77); [by apply elem_of_bits|by constructor]|by vm_compute].
Defined.

Lemma demo_senders pid c : client_ht demo_state !! pid = Some c -> recv_tid c <> task 4.
Proof.
  intros H. pose proof (ok_recv _ (msg_reachable_ok _ demo_reachable) pid c H) as Hr. intros E. rewrite E in Hr.
  change (msg_pid (task 4)) with 50004 in Hr. subst pid. by vm_compute in H.
Qed.

Lemma sysmsg_broadcast_exact_witness : exists imm w' R q,
  impl_broadcast (task 4) 4 0 [77] demo_state = Ret imm w' /\ client_ht w' = client_ht demo_state
  /\ subs_ht w' = subs_ht demo_state
  /\ msg_trace w' = rev (map (send_of 4 [77]) R) ++ q ++ msg_trace demo_state /\ quiet q /\ StronglySorted Z.lt R
  /\ (forall pid, pid ∈ R <-> subscribed demo_state 4 0 pid /\ unfiltered demo_state 4 (int_hash 77) pid = true)
  /\ ((forall t, ~ defers t) -> imm = true).
Proof.
  apply (sysmsg_broadcast_exact (task 4) 4 0 77 [] demo_state demo_reachable); [|done|apply demo_senders|lia|lia].
  intros t. by split.
Defined.
