(* ===== verification/Mtx.v ===== *)
(** Mutexes, lib/mtx.c: a word per mutex that threads change with atomic operations, and
    a thread that puts those in order which have to wait.

    Each access to the word of a mutex is a step of its own, as is each message to or
    from the serializing thread, and steps of all threads interleave freely.  Mutexes are
    ones that mtx_init() has made and mtx_destroy() has not unmade, so that the magic
    numbers match.  Threads are known by their local IDs.  A call to the serializing
    thread may fail before it is received, that of mtx_unlock() as well, which then
    returns success with the mutex still locked; after a call was received, IPC does
    not fail. *)
From S2P Require Import Prelude.
From stdpp Require Import functions list.
#[local] Open Scope Z_scope.

Definition LOCKED : Z := 1.
Definition CONFLICT : Z := 2.

(** Local IDs are nonzero and leave the low six bits clear, L4.X2 says. *)
Definition local_id (t : Z) : Prop := 0 < t /\ t mod 64 = 0.
#[global] Instance local_id_dec t : Decision (local_id t).
Proof. unfold local_id. apply _. Defined.

(** Where a thread is in mtx_lock() or mtx_unlock(). *)
Inductive pc :=
| Idle                        (* in neither *)
| LockLoad (m : Z)            (* before the load *)
| LockTop (m prev : Z)        (* at the top of the loop *)
| LockMark (m prev : Z)       (* at its condition *)
| LockCall (m : Z)            (* calling the serializing thread *)
| LockSleep (m : Z)           (* its call was received *)
| LockCheck (m : Z)           (* back from the call, at the assertion *)
| UnlockFast (m : Z)          (* before the compare-and-exchange *)
| UnlockCall (m : Z)
| UnlockSleep (m : Z)
| Dead (m : Z).               (* an assertion failed *)

(** Where the serializing thread is. *)
Inductive ser_pc :=
| SerWait                                   (* receiving *)
| SerLockLoad (t m : Z)                     (* ser_lock_op() *)
| SerLockTop (t m prev : Z)
| SerLockMark (t m prev : Z)
| SerUnlock (t m : Z)                       (* ser_unlock_op() *)
| SerLater (m later final prev next : Z)    (* before L4_Reply(later) *)
| SerExchange (m final prev next : Z)       (* before atomic_exchange() *)
| SerReply (t m : Z).                       (* before the reply of ser_fn() *)

#[global] Instance pc_eq_dec : EqDecision pc.
Proof. solve_decision. Defined.
#[global] Instance ser_pc_eq_dec : EqDecision ser_pc.
Proof. solve_decision. Defined.

Record mtx_state := MtxState {
  word : Z -> Z;              (* s of each mutex *)
  waits : Z -> list Z;        (* threads on the list of each mutex *)
  pcs : Z -> pc;
  ser : ser_pc;
  holding : gset (Z * Z);     (* threads, and the mutexes that are locked in their name *)
  lost : gset (Z * Z)         (* those among them whose mtx_unlock() has failed *)
}.
Definition set_word m v w := MtxState (<[m := v]> (word w)) (waits w) (pcs w) (ser w) (holding w) (lost w).
Definition set_waits m l w := MtxState (word w) (<[m := l]> (waits w)) (pcs w) (ser w) (holding w) (lost w).
Definition set_pc t p w := MtxState (word w) (waits w) (<[t := p]> (pcs w)) (ser w) (holding w) (lost w).
Definition set_ser p w := MtxState (word w) (waits w) (pcs w) p (holding w) (lost w).
Definition set_holding h w := MtxState (word w) (waits w) (pcs w) (ser w) h (lost w).
Definition set_lost l w := MtxState (word w) (waits w) (pcs w) (ser w) (holding w) l.

(** A thread has locked a mutex. *)
Definition acquired (t m : Z) (w : mtx_state) : mtx_state := set_pc t Idle (set_holding ({[(t, m)]} ∪ holding w) w).

(** ** Calls *)

Inductive mtx_call := MtxLock (m : Z) | MtxTrylock (m : Z) | MtxUnlock (m : Z).

(** A thread unlocks only what it has locked, and not again when that has returned. *)
Definition begin_call (t : Z) (c : mtx_call) (w : mtx_state) : option mtx_state :=
  match pcs w t with
  | Idle =>
      match c with
      | MtxLock m => Some (set_pc t (LockLoad m) w)
      | MtxTrylock m => Some (if word w m =? 0 then acquired t m (set_word m (Z.lor t LOCKED) w) else w)
      | MtxUnlock m =>
          if decide ((t, m) ∈ holding w /\ (t, m) ∉ lost w) then Some (set_pc t (UnlockFast m) (set_holding (holding w ∖ {[(t, m)]}) w))
          else None
      end
  | _ => None
  end.

(** The next access of a thread that is within mtx_lock() or mtx_unlock(). *)
Definition thread_step (t : Z) (w : mtx_state) : option mtx_state :=
  match pcs w t with
  | LockLoad m => Some (set_pc t (LockTop m (word w m)) w)
  | LockTop m prev =>
      Some (if prev =? 0 then
              if word w m =? 0 then acquired t m (set_word m (Z.lor t LOCKED) w)
              else set_pc t (LockMark m (word w m)) w
            else set_pc t (LockMark m prev) w)
  | LockMark m prev =>
      Some (if Z.land (Z.lnot prev) CONFLICT =? 0 then set_pc t (LockCall m) w
            else if word w m =? prev then set_pc t (LockCall m) (set_word m (Z.lor prev CONFLICT) w)
            else set_pc t (LockTop m (word w m)) w)
  | LockCheck m =>
      Some (if Z.land (word w m) (Z.lnot 0x3f) =? t then acquired t m w else set_pc t (Dead m) w)
  | UnlockFast m =>
      Some (if word w m =? Z.lor t LOCKED then set_pc t Idle (set_word m 0 w)
            else if word w m =? Z.lor (Z.lor t LOCKED) CONFLICT then set_pc t (UnlockCall m) w
            else set_pc t (Dead m) w)
  | _ => None
  end.

(** The call failed: mtx_lock() starts again, and mtx_unlock() returns all the same. *)
Definition cancel_call (t : Z) (w : mtx_state) : option mtx_state :=
  match pcs w t with
  | LockCall m => Some (set_pc t (LockLoad m) w)
  | UnlockCall m =>
      Some (set_pc t Idle (set_holding ({[(t, m)]} ∪ holding w) (set_lost ({[(t, m)]} ∪ lost w) w)))
  | _ => None
  end.

(** ** The serializing thread *)

(** A message is received. *)
Definition ser_take (t : Z) (w : mtx_state) : option mtx_state :=
  match ser w, pcs w t with
  | SerWait, LockCall m => Some (set_pc t (LockSleep m) (set_ser (SerLockLoad t m) w))
  | SerWait, UnlockCall m => Some (set_pc t (UnlockSleep m) (set_ser (SerUnlock t m) w))
  | _, _ => None
  end.

(** A reply arrives. *)
Definition resume (t : Z) (w : mtx_state) : mtx_state :=
  match pcs w t with
  | LockSleep m => set_pc t (LockCheck m) w
  | UnlockSleep m => set_pc t Idle w
  | _ => w
  end.

(** [xcpu] is L4_IpcXcpu() of the message that ser_unlock_op() is for. *)
Definition ser_step (xcpu : bool) (w : mtx_state) : option mtx_state :=
  match ser w with
  | SerWait => None
  | SerLockLoad t m => Some (set_ser (SerLockTop t m (word w m)) w)
  | SerLockTop t m prev =>
      Some (if prev =? 0 then
              if word w m =? 0 then set_ser (SerReply t m) (set_word m (Z.lor t LOCKED) w)
              else set_ser (SerLockMark t m (word w m)) w
            else set_ser (SerLockMark t m prev) w)
  | SerLockMark t m prev =>
      Some (if Z.land (Z.lnot prev) CONFLICT =? 0 then set_ser SerWait (set_waits m (waits w m ++ [t]) w)
            else if word w m =? prev
            then set_ser SerWait (set_waits m (waits w m ++ [t]) (set_word m (Z.lor prev CONFLICT) w))
            else set_ser (SerLockTop t m (word w m)) w)
  | SerUnlock t m =>
      let prev := word w m in
      Some (if negb (Z.land prev (Z.lnot 0x3f) =? t) then set_ser SerWait w       (* "bad unlock" *)
            else match waits w m with
                 | [] => set_ser (SerExchange m t prev 0) w
                 | u :: l =>
                     let next := Z.lor (Z.lor u CONFLICT) LOCKED in
                     let '(later, final) :=
                       if negb (bool_decide (l = [])) || xcpu then (t, u) else (u, t) in
                     set_ser (SerLater m later final prev next) (set_waits m l w)
                 end)
  | SerLater m later final prev next => Some (set_ser (SerExchange m final prev next) (resume later w))
  | SerExchange m final prev next => Some (set_ser (SerReply final m) (set_word m next w))
  | SerReply t m => Some (set_ser SerWait (resume t w))
  end.

(** ** All of them together *)

Definition mtx_start : mtx_state := MtxState (fun _ => 0) (fun _ => []) (fun _ => Idle) SerWait ∅ ∅.

(** What happens without a new call. *)
Inductive inner_step (w w' : mtx_state) : Prop :=
| is_thread t : thread_step t w = Some w' -> inner_step w w'
| is_take t : ser_take t w = Some w' -> inner_step w w'
| is_ser xcpu : ser_step xcpu w = Some w' -> inner_step w w'.

Inductive mtx_step (w w' : mtx_state) : Prop :=
| ms_call t c : local_id t -> begin_call t c w = Some w' -> mtx_step w w'
| ms_cancel t : cancel_call t w = Some w' -> mtx_step w w'
| ms_inner : inner_step w w' -> mtx_step w w'.

Inductive mtx_reachable : mtx_state -> Prop :=
| mx_start : mtx_reachable mtx_start
| mx_step w w' : mtx_reachable w -> mtx_step w w' -> mtx_reachable w'.
