(* ===== verification/MtxProps.v ===== *)
(** Mutexes: at most one thread has a mutex, however threads interleave; no thread sleeps
    on a mutex that nobody is to unlock, unless an mtx_unlock() has failed unnoticed; and
    the assertions hold, but for one that a thread can fail when it is resumed before the
    word of its mutex was changed. *)
From S2P Require Import Prelude Mtx.
From stdpp Require Import functions list.
#[local] Open Scope Z_scope.

(** ** Words *)

Lemma lor_low t c : t mod 64 = 0 -> 0 <= c < 64 -> Z.lor t c = t + c.
Proof.
  intros Ht Hc. pose proof (lor_shiftl_add (t / 64) c 6 ltac:(lia) ltac:(lia)) as H.
  rewrite Z.shiftl_mul_pow2 in H by lia. replace (t / 64 * 2 ^ 6) with t in H; [done|].
  pose proof (Z.div_mod t 64). lia.
Qed.
Lemma word_locked t : local_id t -> Z.lor t LOCKED = t + 1.
Proof. intros [_ H]. by apply lor_low. Qed.
Lemma word_both t : local_id t -> Z.lor (Z.lor t LOCKED) CONFLICT = t + 3.
Proof. intros [_ H]. rewrite <- Z.lor_assoc. by apply lor_low. Qed.
Lemma word_next t : local_id t -> Z.lor (Z.lor t CONFLICT) LOCKED = t + 3.
Proof. intros [_ H]. rewrite <- Z.lor_assoc. by apply lor_low. Qed.
Lemma word_marked t : local_id t -> Z.lor (t + 1) CONFLICT = t + 3.
Proof. intros H. by rewrite <- word_locked, word_both. Qed.

Lemma word_owner t c : local_id t -> 0 <= c < 64 -> Z.land (t + c) (Z.lnot 0x3f) = t.
Proof.
  intros [_ H] Hc. rewrite <- Z.ldiff_land. change 63 with (Z.ones 6). rewrite Z.ldiff_ones_r, Z.shiftl_mul_pow2, Z.shiftr_div_pow2 by lia.
  change (2 ^ 6) with 64. Z.div_mod_to_equations. lia.
Qed.

Definition conflicted (v : Z) : bool := Z.land (Z.lnot v) CONFLICT =? 0.
Lemma conflicted_mod v : conflicted v = (2 <=? v mod 4).
Proof.
  unfold conflicted, CONFLICT.
  assert (Z.land (Z.lnot v) 2 = if Z.testbit v 1 then 0 else 2) as ->.
  { apply Z.bits_inj'. intros n Hn. rewrite Z.land_spec, Z.lnot_spec by lia. change 2 with (2 ^ 1) at 1.
    rewrite Z.pow2_bits_eqb by lia. destruct (Z.eqb_spec 1 n) as [<-|Hne]; [by destruct (Z.testbit v 1)|].
    rewrite andb_false_r. destruct (Z.testbit v 1); [by rewrite Z.bits_0|].
    change 2 with (2 ^ 1). rewrite Z.pow2_bits_eqb by lia. by destruct (Z.eqb_spec 1 n). }
  rewrite Z.testbit_eqb by lia. change (2 ^ 1) with 2.
  destruct (Z.eqb_spec ((v / 2) mod 2) 1), (Z.leb_spec 2 (v mod 4)); try done; Z.div_mod_to_equations; lia.
Qed.
Lemma conflicted_0 : conflicted 0 = false.
Proof. done. Qed.
Lemma conflicted_1 t : local_id t -> conflicted (t + 1) = false.
Proof. intros [_ H]. rewrite conflicted_mod. apply Z.leb_gt. Z.div_mod_to_equations. lia. Qed.
Lemma conflicted_3 t : local_id t -> conflicted (t + 3) = true.
Proof. intros [_ H]. rewrite conflicted_mod. apply Z.leb_le. Z.div_mod_to_equations. lia. Qed.

Lemma id_gap t u : local_id t -> local_id u -> t <> u -> t + 64 <= u \/ u + 64 <= t.
Proof. intros [_ H] [_ H'] Hn. Z.div_mod_to_equations. lia. Qed.

(** ** Who a mutex belongs to *)

Definition pc_owns (s : ser_pc) (m t : Z) (p : pc) : Prop :=
  match p with
  | UnlockFast m' | UnlockCall m' | LockCheck m' | Dead m' => m' = m
  | UnlockSleep m' => m' = m /\ s = SerUnlock t m
  | LockSleep m' => m' = m /\ s = SerReply t m
  | _ => False
  end.
Definition owner (w : mtx_state) (m t : Z) : Prop := (t, m) ∈ holding w \/ pc_owns (ser w) m t (pcs w t).

(** A thread that was resumed, and has not got to its assertion or failed it. *)
Definition checking (w : mtx_state) (m t : Z) : Prop := pcs w t = LockCheck m \/ pcs w t = Dead m.

(** The word and its next value, while the serializing thread hands a mutex on. *)
Definition at_hand (s : ser_pc) (m : Z) : option (Z * Z) :=
  match s with
  | SerLater m' _ _ prev next | SerExchange m' _ prev next => if decide (m' = m) then Some (prev, next) else None
  | _ => None
  end.

Definition word_ok (w : mtx_state) (m : Z) : Prop :=
  match at_hand (ser w) m with
  | None =>
      (word w m = 0 /\ waits w m = [] /\ forall t, ~ owner w m t) \/
      exists o, local_id o /\ (word w m = o + 1 /\ waits w m = [] \/ word w m = o + 3) /\
        owner w m o /\ forall t, owner w m t -> t = o
  | Some (prev, next) =>
      word w m = prev /\ exists u, local_id u /\ prev = u + 3 /\
      (next = 0 /\ waits w m = [] /\ (forall t, ~ owner w m t) \/
       exists v, local_id v /\ v <> u /\ next = v + 3 /\ forall t, owner w m t -> t = v /\ checking w m t)
  end.

(** The thread whose call the serializing thread has in hand. *)
Definition busy (s : ser_pc) (m t : Z) : Prop :=
  match s with
  | SerWait => False
  | SerLockLoad t' m' | SerLockTop t' m' _ | SerLockMark t' m' _ | SerReply t' m' | SerUnlock t' m' => t' = t /\ m' = m
  | SerLater m' later final _ _ => m' = m /\ (t = later \/ t = final)
  | SerExchange m' final _ _ => m' = m /\ t = final
  end.

Definition ser_ok (w : mtx_state) : Prop :=
  match ser w with
  | SerWait => True
  | SerLockLoad t m => pcs w t = LockSleep m
  | SerLockTop t m prev => pcs w t = LockSleep m /\ (conflicted prev = true -> word w m = prev)
  | SerLockMark t m prev => pcs w t = LockSleep m /\ prev <> 0 /\ (conflicted prev = true -> word w m = prev)
  | SerUnlock t m => pcs w t = UnlockSleep m
  | SerLater m later final prev next => exists u v, u <> v /\ prev = u + 3 /\ next = v + 3 /\
      pcs w u = UnlockSleep m /\ pcs w v = LockSleep m /\ (later = u /\ final = v \/ later = v /\ final = u)
  | SerExchange m final prev next => exists u, prev = u + 3 /\
      (next = 0 /\ final = u /\ pcs w u = UnlockSleep m \/
       exists v, v <> u /\ next = v + 3 /\
         (final = u /\ pcs w u = UnlockSleep m /\ checking w m v \/ final = v /\ pcs w v = LockSleep m))
  | SerReply t m => pcs w t = LockSleep m \/ pcs w t = UnlockSleep m
  end.

(** The mutex that a thread's call is about. *)
Definition about (p : pc) (m : Z) : Prop :=
  match p with
  | Idle => False
  | LockLoad m' | LockTop m' _ | LockMark m' _ | LockCall m' | LockSleep m' | LockCheck m'
  | UnlockFast m' | UnlockCall m' | UnlockSleep m' | Dead m' => m' = m
  end.

Record mtx_ok (w : mtx_state) : Prop := {
  ok_word m : word_ok w m;
  ok_ser : ser_ok w;
  ok_nodup m : NoDup (waits w m);
  ok_waits m t : t ∈ waits w m -> pcs w t = LockSleep m /\ ~ busy (ser w) m t;
  ok_sleep m t : pcs w t = LockSleep m -> t ∈ waits w m \/ busy (ser w) m t;
  ok_unsleep m t : pcs w t = UnlockSleep m -> busy (ser w) m t;
  ok_mark m t prev : pcs w t = LockMark m prev -> prev <> 0;
  ok_once m t : pc_owns (ser w) m t (pcs w t) -> (t, m) ∉ holding w;
  ok_slow m t : pcs w t = UnlockCall m \/ ser w = SerUnlock t m -> conflicted (word w m) = true;
  ok_pc_id t : pcs w t <> Idle -> local_id t;
  ok_hold_id t m : (t, m) ∈ holding w -> local_id t }.

Lemma mtx_start_ok : mtx_ok mtx_start.
Proof.
  split; try done; simpl.
  - intros m. left. split_and!; [done|done|]. intros t [H|H]; [set_solver|done].
  - intros m. constructor.
  - intros m t H. by apply not_elem_of_nil in H.
  - by intros m t [H|H].
Qed.

(** ** What does not matter to whom *)

Lemma word_ok_ext w w' m : word w' m = word w m -> waits w' m = waits w m ->
  at_hand (ser w') m = at_hand (ser w) m -> (forall t, owner w' m t <-> owner w m t) ->
  (forall t, checking w m t -> checking w' m t) -> word_ok w m -> word_ok w' m.
Proof.
  unfold word_ok. intros -> -> -> Ho Hc. destruct (at_hand (ser w) m) as [[prev next]|].
  - intros (E & u & Hu & Hp & [(Hn & Hw & Hno)|(v & Hv & Hvu & Hn & Hall)]); (split; [done|]); exists u; (split_and!; [done|done|]).
    + left. split_and!; [done|done|]. intros t Ht%Ho. by apply (Hno t).
    + right. exists v. split_and!; [done..|]. intros t Ht%Ho. destruct (Hall t Ht). auto.
  - intros [(E & Hw & Hno)|(o & Hid & Hw & Hown & Hall)]; [left|right].
    + split_and!; [done|done|]. intros t Ht%Ho. by apply (Hno t).
    + exists o. split_and!; [done|done|by apply Ho|]. intros t Ht%Ho. auto.
Qed.

Definition neutral (p : pc) : Prop :=
  match p with Idle | LockLoad _ | LockTop _ _ | LockMark _ _ | LockCall _ => True | _ => False end.

Definition asleep (p : pc) : Prop := match p with LockSleep _ | UnlockSleep _ => True | _ => False end.

Lemma ser_ok_ext w w' : ser w' = ser w ->
  (forall m, conflicted (word w m) = true -> word w' m = word w m) ->
  (forall t, asleep (pcs w t) -> pcs w' t = pcs w t) ->
  (forall m t, at_hand (ser w) m <> None -> checking w m t -> checking w' m t) -> ser_ok w -> ser_ok w'.
Proof.
  unfold ser_ok. intros E Hword Hp Hck. rewrite E.
  assert (forall t p, asleep p -> pcs w t = p -> pcs w' t = p) as Hp' by (intros t p Hs <-; by apply Hp).
  destruct (ser w) as [|t m|t m prev|t m prev|t m|m later final prev next|m final prev next|t m].
  - done.
  - by apply Hp'.
  - intros [H1 H2]. split; [by apply Hp'|]. intros Hc. rewrite <- (H2 Hc). apply Hword. by rewrite H2.
  - intros (H1 & H2 & H3). split_and!; [by apply Hp'|done|]. intros Hc. rewrite <- (H3 Hc). apply Hword. by rewrite H3.
  - by apply Hp'.
  - intros (u & v & Huv & Hpr & Hn & Hu & Hv & Hlf). exists u, v. split_and!; auto; by apply Hp'.
  - assert (at_hand (SerExchange m final prev next) m <> None) as Hat by (simpl; by rewrite decide_True).
    intros (u & Hpr & H). exists u. split; [done|]. destruct H as [(? & ? & H)|(v & Hvu & Hn & H)].
    + left. split_and!; [done|done|by apply Hp'].
    + right. exists v. split_and!; [done|done|]. destruct H as [(Hf & Hu & Hc)|[Hf Hv]]; [left|right].
      * split_and!; [done|by apply Hp'|by apply Hck].
      * split; [done|by apply Hp'].
  - intros [H|H]; [left|right]; by apply Hp'.
Qed.

Lemma neutral_awake p : neutral p -> ~ asleep p.
Proof. intros H Ha. by destruct p. Qed.

(** What a step of a thread keeps, when it does not fall asleep or wake up. *)
Lemma thread_move w w' t p : mtx_ok w -> local_id t -> ser w' = ser w -> waits w' = waits w -> pcs w' = <[t := p]> (pcs w) ->
  ~ asleep (pcs w t) -> ~ asleep p -> (forall m, checking w m t -> p = Dead m \/ at_hand (ser w) m = None) ->
  (forall m prev, p = LockMark m prev -> prev <> 0) ->
  (forall t' m, (t', m) ∈ holding w' -> (t', m) ∈ holding w \/ t' = t) ->
  (forall m, pc_owns (ser w) m t p -> (t, m) ∉ holding w') ->
  (forall m, p = UnlockCall m -> conflicted (word w m) = true) ->
  (forall m, conflicted (word w m) = true -> word w' m = word w m) ->
  (forall m, word_ok w' m) -> mtx_ok w'.
Proof.
  intros [Hw Hs Hn Hwa Hsl Hus Hm Hon Hslow Hi Hh] Hid Es Ew Ep Ha Ha' Hck Hmark Hhold Hab Huc Hconf Hw'.
  assert (forall t', t' <> t -> pcs w' t' = pcs w t') as Hne by (intros t' Hne; by rewrite Ep, fn_lookup_insert_ne).
  assert (pcs w' t = p) as Heq by (by rewrite Ep, fn_lookup_insert).
  split; rewrite ?Es, ?Ew; try done.
  - apply (ser_ok_ext w); try done.
    + intros t' Ht'. apply Hne. intros ->. by apply Ha.
    + intros m t' Hat Hc. destruct (decide (t' = t)) as [->|Hn']; [|unfold checking in *; by rewrite Hne].
      destruct (Hck m Hc) as [->|]; [by right|done].
  - intros m t' Ht'. destruct (Hwa m t' Ht') as [H1 H2]. split; [|done]. rewrite Hne; [done|].
    intros ->. apply Ha. by rewrite H1.
  - intros m t' Ht'. destruct (decide (t' = t)) as [->|Hn']; [|rewrite Hne in Ht' by done; auto].
    rewrite Heq in Ht'. exfalso. apply Ha'. by rewrite Ht'.
  - intros m t' Ht'. destruct (decide (t' = t)) as [->|Hn']; [|rewrite Hne in Ht' by done; auto].
    rewrite Heq in Ht'. exfalso. apply Ha'. by rewrite Ht'.
  - intros m t' prev Ht'. destruct (decide (t' = t)) as [->|Hn']; [|rewrite Hne in Ht' by done; by eapply Hm].
    rewrite Heq in Ht'. by apply (Hmark m).
  - intros m t' Ht'. destruct (decide (t' = t)) as [->|Hn']; [rewrite Heq in Ht'; auto|].
    rewrite Hne in Ht' by done. intros [Hx|?]%Hhold; [by apply (Hon m t')|done].
  - intros m t' Ht'. assert (conflicted (word w m) = true) as Hc; [|by rewrite Hconf].
    destruct Ht' as [Ht'|Ht']; [|apply (Hslow m t'); by right].
    destruct (decide (t' = t)) as [->|Hn']; [rewrite Heq in Ht'; by apply Huc|].
    rewrite Hne in Ht' by done. apply (Hslow m t'). by left.
  - intros t' Ht'. destruct (decide (t' = t)) as [->|Hn']; [done|rewrite Hne in Ht' by done; auto].
  - intros t' m Ht'. destruct (Hhold t' m Ht') as [?| ->]; [by eapply Hh|done].
Qed.

(** Whether a thread owns a mutex, after it has moved. *)
Lemma owner_moved w w' m t t' p : ser w' = ser w -> pcs w' = <[t := p]> (pcs w) -> holding w' = holding w ->
  owner w' m t' <-> if decide (t' = t) then (t, m) ∈ holding w \/ pc_owns (ser w) m t p else owner w m t'.
Proof.
  intros Es Ep Eh. unfold owner. rewrite Es, Ep, Eh. case_decide as E; [subst; by rewrite fn_lookup_insert|].
  by rewrite fn_lookup_insert_ne.
Qed.
Lemma owner_here w m t : owner w m t <-> (t, m) ∈ holding w \/ pc_owns (ser w) m t (pcs w t).
Proof. done. Qed.

Lemma checking_moved w w' m t t' p : pcs w' = <[t := p]> (pcs w) -> t' <> t -> checking w m t' -> checking w' m t'.
Proof. intros Ep Hn. unfold checking. rewrite Ep. by rewrite fn_lookup_insert_ne. Qed.

(** A thread that does not own anything by its place, and does not come to. *)
Lemma neutral_move w t p : mtx_ok w -> local_id t -> neutral (pcs w t) -> neutral p ->
  (forall m prev, p = LockMark m prev -> prev <> 0) -> mtx_ok (set_pc t p w).
Proof.
  intros H Hid Hp Hp' Hmark. apply (thread_move w _ t p); try done.
  - intros Ha. by destruct (pcs w t).
  - intros Ha. by destruct p.
  - intros m [Hc|Hc]; by rewrite Hc in Hp.
  - by left.
  - intros m Ho. by destruct p.
  - by intros m ->.
  - intros m. apply (word_ok_ext w); try done; [|..|apply (ok_word w H)].
    + intros t'. rewrite (owner_moved w _ m t t' p) by done. case_decide as E; [subst t'|done]. rewrite owner_here.
      assert (forall q, neutral q -> ~ pc_owns (ser w) m t q) as Hno by (intros q Hq Hq'; by destruct q).
      split; (intros [?|Hx]; [by left|]); exfalso; by eapply Hno, Hx.
    + intros t' Hc. apply (checking_moved w _ m t t' p); try done. intros ->. destruct Hc as [Hc|Hc]; by rewrite Hc in Hp.
Qed.

(** A thread moves on and everything belongs to whom it did. *)
Lemma keep_move w w' t p : mtx_ok w -> local_id t -> word w' = word w -> ser w' = ser w -> waits w' = waits w ->
  pcs w' = <[t := p]> (pcs w) -> ~ asleep (pcs w t) -> ~ asleep p ->
  (forall m, checking w m t -> p = Dead m \/ at_hand (ser w) m = None) ->
  (forall m prev, p = LockMark m prev -> prev <> 0) ->
  (forall t' m, (t', m) ∈ holding w' -> (t', m) ∈ holding w \/ t' = t) ->
  (forall m, pc_owns (ser w) m t p -> (t, m) ∉ holding w') ->
  (forall m, p = UnlockCall m -> conflicted (word w m) = true) ->
  (forall m t', owner w' m t' <-> owner w m t') -> mtx_ok w'.
Proof.
  intros H Hid Eo Es Ew Ep Ha Ha' Hck Hmark Hhold Hab Huc Hown. apply (thread_move w w' t p); try done; [by rewrite Eo|].
  intros m. pose proof (ok_word w H m) as Hw. destruct (at_hand (ser w) m) as [[prev next]|] eqn:Hat.
  - apply (word_ok_ext w); rewrite ?Eo, ?Es, ?Ew; try done. intros t' Hc.
    destruct (decide (t' = t)) as [->|Hn]; [|by apply (checking_moved w w' m t t' p)].
    destruct (Hck m Hc) as [->|?]; [|congruence]. right. by rewrite Ep, fn_lookup_insert.
  - unfold word_ok in *. rewrite Eo, Es, Ew, Hat in *. destruct Hw as [(E & Hwt & Hno)|(o & Ho & Hwd & Hoo & Hall)].
    + left. split_and!; [done|done|]. intros t' Ht'%Hown. by apply (Hno t').
    + right. exists o. split_and!; [done|done|by apply Hown|]. intros t' Ht'%Hown. auto.
Qed.

(** The kinds of changes of a word. *)
Lemma free_word w m : mtx_ok w -> word w m = 0 ->
  at_hand (ser w) m = None /\ waits w m = [] /\ forall t, ~ owner w m t.
Proof.
  intros H Hz. pose proof (ok_word w H m) as Hw. unfold word_ok in Hw.
  destruct (at_hand (ser w) m) as [[prev next]|].
  - destruct Hw as (E & u & [Hu _] & Hp & _). lia.
  - destruct Hw as [(_ & Hwt & Hno)|(o & [Ho _] & [[E _]|E] & _)]; [done|lia|lia].
Qed.

Lemma taken_word w w' m t : mtx_ok w -> local_id t -> word w m = 0 -> word w' m = t + 1 -> waits w' m = waits w m ->
  at_hand (ser w') m = at_hand (ser w) m -> (forall t', owner w' m t' <-> t' = t \/ owner w m t') -> word_ok w' m.
Proof.
  intros H Hid Hz E Ew Eh Hown. destruct (free_word w m H Hz) as (Hat & Hwt & Hno).
  unfold word_ok. rewrite Eh, Hat. right. exists t. split_and!; [done|left; by rewrite Ew|apply Hown; by left|].
  intros t' [?|Ht']%Hown; [done|by destruct (Hno t')].
Qed.

Lemma conflict_word w w' m : word_ok w m -> at_hand (ser w) m = None -> word w m <> 0 ->
  word w' m = Z.lor (word w m) CONFLICT -> at_hand (ser w') m = None -> (forall t, owner w' m t <-> owner w m t) -> word_ok w' m.
Proof.
  unfold word_ok. intros Hw Hat Hz E Eh Hown. rewrite Hat in Hw. rewrite Eh.
  destruct Hw as [(?&_)|(o & Ho & Hwd & Hoo & Hall)]; [done|]. right. exists o.
  split_and!; [done| |by apply Hown|intros t Ht%Hown; auto]. right. rewrite E.
  destruct Hwd as [[-> _]| ->]; [by apply word_marked|]. rewrite <- (word_marked o) by done.
  by rewrite <- Z.lor_assoc, Z.lor_diag.
Qed.

Lemma unconflicted_hand w m : mtx_ok w -> conflicted (word w m) = false -> at_hand (ser w) m = None.
Proof.
  intros H Hc. pose proof (ok_word w H m) as Hw. unfold word_ok in Hw.
  destruct (at_hand (ser w) m) as [[prev next]|]; [|done]. destruct Hw as (E & u & Hu & Hp & _).
  rewrite E, Hp, conflicted_3 in Hc by done. done.
Qed.

Lemma neutral_owns s m t p : neutral p -> ~ pc_owns s m t p.
Proof. intros H Ho. by destruct p. Qed.

(** ** Steps of threads *)

Lemma acquire_ok w t m : mtx_ok w -> local_id t -> neutral (pcs w t) -> word w m = 0 ->
  mtx_ok (acquired t m (set_word m (Z.lor t LOCKED) w)).
Proof.
  intros H Hid Hp Hz. set (w' := acquired _ _ _).
  assert (forall m' t', owner w' m' t' <-> t' = t /\ m' = m \/ owner w m' t') as Hown.
  { intros m' t'. unfold owner. cbn [w' acquired set_pc set_holding set_word holding ser pcs].
    rewrite elem_of_union, elem_of_singleton. destruct (decide (t' = t)) as [->|Hn].
    - rewrite fn_lookup_insert. split; [intros [[[= ->]|?]|[]]; auto|]. intros [[_ ->]|[?|Hx]]; auto.
      by apply neutral_owns in Hx.
    - rewrite fn_lookup_insert_ne by done. split; [intros [[[= ? ?]|?]|?]; auto; done|].
      intros [[? _]|[?|?]]; [done|auto..]. }
  apply (thread_move w w' t Idle); try done.
  - by apply neutral_awake.
  - by intros [].
  - intros m' [Hc|Hc]; by rewrite Hc in Hp.
  - intros t' m'. cbn [w' acquired set_pc set_holding set_word holding]. rewrite elem_of_union, elem_of_singleton.
    intros [[= -> ->]|?]; auto.
  - intros m' Hc. cbn [w' acquired set_pc set_holding set_word word].
    rewrite fn_lookup_insert_ne; [done|]. intros ->. by rewrite Hz in Hc.
  - intros m'. destruct (decide (m' = m)) as [->|Hn].
    + apply (taken_word w w' m t); try done.
      * cbn. by rewrite fn_lookup_insert, word_locked.
      * intros t'. rewrite Hown. tauto.
    + apply (word_ok_ext w); try done; [|..|apply (ok_word w H)].
      * cbn. by rewrite fn_lookup_insert_ne.
      * intros t'. rewrite Hown. tauto.
      * intros t' Hc. apply (checking_moved w w' m' t t' Idle); try done. intros ->. destruct Hc as [Hc|Hc]; by rewrite Hc in Hp.
Qed.

Lemma mark_ok w t m prev : mtx_ok w -> pcs w t = LockMark m prev -> conflicted prev = false -> word w m = prev ->
  mtx_ok (set_pc t (LockCall m) (set_word m (Z.lor prev CONFLICT) w)).
Proof.
  intros H Hp Hc Hw. set (w' := set_pc _ _ _). pose proof (ok_mark w H m t prev Hp) as Hnz.
  assert (forall m' t', owner w' m' t' <-> owner w m' t') as Hown.
  { intros m' t'. rewrite (owner_moved w w' m' t t' (LockCall m)) by done. case_decide as E; [subst t'|done].
    unfold owner. by rewrite Hp. }
  apply (thread_move w w' t (LockCall m)); try done; [..|].
  - apply (ok_pc_id w H). by rewrite Hp.
  - rewrite Hp. by intros [].
  - by intros [].
  - intros m' [Hx|Hx]; congruence.
  - by left.
  - intros m' Hc'. cbn. rewrite fn_lookup_insert_ne; [done|]. intros ->. congruence.
  - intros m'. destruct (decide (m' = m)) as [->|Hn].
    + pose proof (unconflicted_hand w m H ltac:(by rewrite Hw)) as Hat.
      apply (conflict_word w w'); try done; [apply (ok_word w H)|congruence|cbn; by rewrite fn_lookup_insert, Hw].
    + apply (word_ok_ext w); try done; [cbn; by rewrite fn_lookup_insert_ne| |apply (ok_word w H)].
      intros t' Hck. apply (checking_moved w w' m' t t' (LockCall m)); try done. intros ->. destruct Hck; congruence.
Qed.

Lemma release_ok w t m : mtx_ok w -> pcs w t = UnlockFast m -> word w m = t + 1 ->
  mtx_ok (set_pc t Idle (set_word m 0 w)).
Proof.
  intros H Hp Hw. set (w' := set_pc _ _ _). assert (local_id t) as Hid by (apply (ok_pc_id w H); by rewrite Hp).
  pose proof (unconflicted_hand w m H ltac:(by rewrite Hw, conflicted_1)) as Hat.
  assert (waits w m = [] /\ forall t', owner w m t' -> t' = t) as [Hwt Hall].
  { pose proof (ok_word w H m) as Hwd. unfold word_ok in Hwd. rewrite Hat in Hwd.
    destruct Hwd as [(E & _)|(o & Ho & Hwd & Hoo & Hall)]; [destruct Hid; lia|].
    assert (t = o) as -> by (apply Hall; right; by rewrite Hp). destruct Hwd as [[_ ?]|?]; [done|lia]. }
  pose proof (ok_once w H m t ltac:(by rewrite Hp)) as Hnh.
  assert (forall m' t', owner w' m' t' <-> owner w m' t' /\ ~ (m' = m /\ t' = t)) as Hown.
  { intros m' t'. rewrite (owner_moved w w' m' t t' Idle) by done. case_decide as E; [subst t'|tauto].
    unfold owner. rewrite Hp. simpl. split; [intros [Hx|[]]; split; [by left|]; by intros [-> _]|].
    intros [[?| ->] Hx]; [by left|]. by destruct Hx. }
  apply (thread_move w w' t Idle); try done; [..|].
  - rewrite Hp. by intros [].
  - by intros [].
  - intros m' [Hx|Hx]; congruence.
  - by left.
  - intros m' Hc'. cbn. rewrite fn_lookup_insert_ne; [done|]. intros ->.
    by rewrite Hw, conflicted_1 in Hc'.
  - intros m'. destruct (decide (m' = m)) as [->|Hn].
    + unfold word_ok. cbn [w' set_pc set_word ser word waits]. rewrite Hat, fn_lookup_insert. left.
      split_and!; [done|done|]. intros t' [Ht' Hx]%Hown. apply Hx. auto.
    + apply (word_ok_ext w); try done; [cbn; by rewrite fn_lookup_insert_ne| | |apply (ok_word w H)].
      * intros t'. rewrite Hown. tauto.
      * intros t' Hck. apply (checking_moved w w' m' t t' Idle); try done. intros ->. destruct Hck; congruence.
Qed.

Lemma own_word w m t : mtx_ok w -> owner w m t ->
  at_hand (ser w) m = None /\ local_id t /\ (word w m = t + 1 \/ word w m = t + 3) \/
  exists u, u <> t /\ local_id u /\ word w m = u + 3 /\ at_hand (ser w) m = Some (u + 3, t + 3) /\ checking w m t.
Proof.
  intros H Ho. pose proof (ok_word w H m) as Hw. unfold word_ok in Hw.
  destruct (at_hand (ser w) m) as [[prev next]|].
  - right. destruct Hw as (E & u & Hu & Hp & [(_ & _ & Hno)|(v & Hv & Hvu & Hn & Hall)]); [by destruct (Hno t)|].
    destruct (Hall t Ho) as [-> Hck]. exists u. split_and!; congruence || done.
  - left. destruct Hw as [(_ & _ & Hno)|(o & Hid & Hwd & _ & Hall)]; [by destruct (Hno t)|].
    rewrite (Hall t Ho). split_and!; [done|done|]. destruct Hwd as [[? _]|?]; auto.
Qed.

Lemma check_ok w t m : mtx_ok w -> pcs w t = LockCheck m ->
  mtx_ok (if Z.land (word w m) (Z.lnot 0x3f) =? t then acquired t m w else set_pc t (Dead m) w).
Proof.
  intros H Hp. assert (local_id t) as Hid by (apply (ok_pc_id w H); by rewrite Hp).
  assert (owner w m t) as Ho by (right; by rewrite Hp). pose proof (ok_once w H m t ltac:(by rewrite Hp)) as Hnh.
  destruct (Z.eqb_spec (Z.land (word w m) (Z.lnot 0x3f)) t) as [E|E].
  - assert (at_hand (ser w) m = None) as Hat.
    { destruct (own_word w m t H Ho) as [[? _]|(u & Hn & Hu & Hw & _)]; [done|].
      by rewrite Hw, word_owner in E by (done || lia). }
    apply (keep_move w _ t Idle); try done.
    + rewrite Hp. by intros [].
    + by intros [].
    + intros m' [Hc|Hc]; [|congruence]. right. congruence.
    + intros t' m'. cbn. rewrite elem_of_union, elem_of_singleton. intros [[= -> ->]|?]; auto.
    + intros m' t'. unfold owner. cbn. rewrite elem_of_union, elem_of_singleton. destruct (decide (t' = t)) as [->|Hn].
      * rewrite fn_lookup_insert, Hp. simpl. split; [intros [[[= ->]|?]|[]]; auto|]. intros [?| ->]; auto.
      * rewrite fn_lookup_insert_ne by done. split; [intros [[[= ? ?]|?]|?]; auto; done|tauto].
  - apply (keep_move w _ t (Dead m)); try done.
    + rewrite Hp. by intros [].
    + by intros [].
    + intros m' [Hc|Hc]; [|congruence]. left. congruence.
    + by left.
    + intros m' Hx. apply (ok_once w H). by rewrite Hp.
    + intros m' t'. rewrite (owner_moved w _ m' t t' (Dead m)) by done. case_decide; [subst t'|done].
      unfold owner. by rewrite Hp.
Qed.

(** The start of mtx_unlock(), and its way to the serializing thread. *)
Lemma unlock_ok w t m : mtx_ok w -> pcs w t = Idle -> (t, m) ∈ holding w ->
  mtx_ok (set_pc t (UnlockFast m) (set_holding (holding w ∖ {[(t, m)]}) w)).
Proof.
  intros H Hp Hin. apply (keep_move w _ t (UnlockFast m)); try done.
  - by apply (ok_hold_id w H t m).
  - rewrite Hp. by intros [].
  - by intros [].
  - intros m' [Hc|Hc]; congruence.
  - intros t' m'. cbn. rewrite elem_of_difference. tauto.
  - intros m' Hx. cbn. simpl in Hx. subst m'. set_solver.
  - intros m' t'. unfold owner. cbn. rewrite elem_of_difference, elem_of_singleton. destruct (decide (t' = t)) as [->|Hn].
    + rewrite fn_lookup_insert, Hp. simpl. split; [intros [[? _]| ->]; auto|]. intros [?|[]].
      destruct (decide (m' = m)) as [->|]; [by right|left]. split; [done|]. intros [=]. done.
    + rewrite fn_lookup_insert_ne by done. split; [tauto|]. intros [?|?]; [left|by right]. split; [done|]. intros [=]. done.
Qed.

Lemma to_unlock_call w t m p : mtx_ok w -> pcs w t = UnlockFast m ->
  p = UnlockCall m /\ word w m = Z.lor (Z.lor t LOCKED) CONFLICT \/ p = Dead m -> mtx_ok (set_pc t p w).
Proof.
  intros H Hp Hp'. assert (local_id t) as Hid by (apply (ok_pc_id w H); by rewrite Hp).
  apply (keep_move w _ t p); try done.
  - rewrite Hp. by intros [].
  - destruct Hp' as [[-> _]| ->]; by intros [].
  - intros m' [Hc|Hc]; congruence.
  - intros m' prev ->. by destruct Hp' as [[? _]|?].
  - by left.
  - intros m' Hx. apply (ok_once w H). rewrite Hp. by destruct Hp' as [[-> _]| ->].
  - intros m' ->. destruct Hp' as [[[= ->] Hw]|]; [|done]. by rewrite Hw, word_both, conflicted_3.
  - intros m' t'. rewrite (owner_moved w _ m' t t' p) by done. case_decide; [subst t'|done].
    unfold owner. rewrite Hp. by destruct Hp' as [[-> _]| ->].
Qed.

(** Each step of a thread keeps the books. *)
Lemma begin_call_ok w t c w' : mtx_ok w -> local_id t -> begin_call t c w = Some w' -> mtx_ok w'.
Proof.
  intros H Hid. unfold begin_call. destruct (pcs w t) eqn:Hp; try done. destruct c as [m|m|m].
  - intros [= <-]. apply neutral_move; try done. by rewrite Hp.
  - intros [= <-]. destruct (Z.eqb_spec (word w m) 0) as [Hz|]; [|done]. apply acquire_ok; try done. by rewrite Hp.
  - case_decide as E; [|done]. intros [= <-]. by apply unlock_ok; [..|apply E].
Qed.

Lemma thread_step_ok w t w' : mtx_ok w -> thread_step t w = Some w' -> mtx_ok w'.
Proof.
  intros H E. assert (forall p, pcs w t = p -> p <> Idle -> local_id t) as Hab.
  { intros p Hp Hn. apply (ok_pc_id w H); congruence. }
  unfold thread_step in E. destruct (pcs w t) as [|m|m prev|m prev|m|m|m|m|m|m|m] eqn:Hp; try done; injection E as <-;
    pose proof (Hab _ eq_refl ltac:(done)) as Hid.
  - apply neutral_move; try done. by rewrite Hp.
  - destruct (Z.eqb_spec prev 0) as [->|Hn]; [destruct (Z.eqb_spec (word w m) 0) as [Hz|Hn]|].
    + apply acquire_ok; try done. by rewrite Hp.
    + apply neutral_move; try done; [by rewrite Hp|by intros ? ? [= <- <-]].
    + apply neutral_move; try done; [by rewrite Hp|by intros ? ? [= <- <-]].
  - fold (conflicted prev). destruct (conflicted prev) eqn:Hc; [|destruct (Z.eqb_spec (word w m) prev) as [Hw|]].
    + apply neutral_move; try done. by rewrite Hp.
    + by apply mark_ok.
    + apply neutral_move; try done. by rewrite Hp.
  - by apply check_ok.
  - destruct (Z.eqb_spec (word w m) (Z.lor t LOCKED)) as [Hw|]; [|destruct (Z.eqb_spec (word w m) (Z.lor (Z.lor t LOCKED) CONFLICT))].
    + apply release_ok; [done|done|]. by rewrite Hw, word_locked.
    + apply (to_unlock_call w t m); auto.
    + apply (to_unlock_call w t m); auto.
Qed.

(** An mtx_unlock() that returns without having unlocked the mutex: it stays locked in the
    thread's name. *)
Lemma unlock_fails_ok w t m : mtx_ok w -> pcs w t = UnlockCall m ->
  mtx_ok (set_pc t Idle (set_holding ({[(t, m)]} ∪ holding w) (set_lost ({[(t, m)]} ∪ lost w) w))).
Proof.
  intros H Hp. assert (local_id t) as Hid by (apply (ok_pc_id w H); by rewrite Hp).
  apply (keep_move w _ t Idle); try done.
  - rewrite Hp. by intros [].
  - by intros [].
  - intros m' [Hc|Hc]; congruence.
  - intros t' m'. cbn. rewrite elem_of_union, elem_of_singleton. intros [[= -> ->]|?]; auto.
  - intros m' t'. unfold owner. cbn. rewrite elem_of_union, elem_of_singleton. destruct (decide (t' = t)) as [->|Hn].
    + rewrite fn_lookup_insert, Hp. simpl. split; [intros [[[= ->]|?]|[]]; auto|]. intros [?| ->]; auto.
    + rewrite fn_lookup_insert_ne by done. split; [intros [[[= ? ?]|?]|?]; auto; done|tauto].
Qed.

Lemma cancel_call_ok w t w' : mtx_ok w -> cancel_call t w = Some w' -> mtx_ok w'.
Proof.
  intros H E. unfold cancel_call in E. destruct (pcs w t) as [| | | |m| | | |m| |] eqn:Hp; try done; injection E as <-.
  - apply neutral_move; try done; [apply (ok_pc_id w H); by rewrite Hp|by rewrite Hp].
  - by apply unlock_fails_ok.
Qed.

(** ** Steps of the serializing thread *)

(** What the steps of the serializing thread have in common: threads are where they were but
    for sleep. *)
Lemma ser_move w w' : mtx_ok w -> holding w' = holding w ->
  (forall t m, pc_owns (ser w') m t (pcs w' t) -> (t, m) ∉ holding w) -> (forall t, pcs w' t <> Idle -> pcs w t <> Idle) ->
  (forall t m prev, pcs w' t = LockMark m prev -> pcs w t = LockMark m prev) ->
  (forall t m, pcs w' t = UnlockCall m \/ ser w' = SerUnlock t m -> conflicted (word w' m) = true) ->
  (forall m, word_ok w' m) -> ser_ok w' -> (forall m, NoDup (waits w' m)) ->
  (forall m t, t ∈ waits w' m -> pcs w' t = LockSleep m /\ ~ busy (ser w') m t) ->
  (forall m t, pcs w' t = LockSleep m -> t ∈ waits w' m \/ busy (ser w') m t) ->
  (forall m t, pcs w' t = UnlockSleep m -> busy (ser w') m t) -> mtx_ok w'.
Proof.
  intros H Eh Hab Hid Hmark Hslow Hw Hs Hn Hwa Hsl Hus. split; try done; rewrite ?Eh.
  - intros m t prev Ht%Hmark. by apply (ok_mark w H m t).
  - intros m t. apply Hab.
  - intros m t. apply Hslow.
  - intros t Ht%Hid. by apply (ok_pc_id w H).
  - intros t m. by apply (ok_hold_id w H).
Qed.

(** A thread owns a mutex by its place in no more cases than before. *)
Lemma once_kept w s t m : mtx_ok w -> (forall t m, s <> SerUnlock t m \/ ser w = s) -> (forall t m, s <> SerReply t m \/ ser w = s) ->
  pc_owns s m t (pcs w t) -> (t, m) ∉ holding w.
Proof.
  intros H Hu Hr Ho. apply (ok_once w H). destruct (pcs w t); simpl in *; try done; destruct Ho as [-> ->].
  - destruct (Hr t m) as [?| ->]; done.
  - destruct (Hu t m) as [?| ->]; done.
Qed.

(** Only the place of the serializing thread matters to those who sleep. *)
Lemma owner_same w w' m t : holding w' = holding w -> pcs w' t = pcs w t ->
  (ser w' = SerUnlock t m <-> ser w = SerUnlock t m) -> (ser w' = SerReply t m <-> ser w = SerReply t m) ->
  owner w' m t <-> owner w m t.
Proof. unfold owner. intros -> -> Hu Hr. destruct (pcs w t); simpl; rewrite ?Hu, ?Hr; done. Qed.

Lemma not_busy_owner w t m : pcs w t = LockCall m -> (t, m) ∉ holding w -> ~ owner w m t.
Proof. intros Hp Hn [?|Ho]; [done|]. by rewrite Hp in Ho. Qed.

Lemma take_ok w t w' : mtx_ok w -> ser_take t w = Some w' -> mtx_ok w'.
Proof.
  intros H E. unfold ser_take in E. destruct (ser w) eqn:Es; try done. pose proof (ok_ser w H) as Hs.
  assert (forall s p m, pcs w t = LockCall m /\ s = SerLockLoad t m /\ p = LockSleep m \/
      pcs w t = UnlockCall m /\ s = SerUnlock t m /\ p = UnlockSleep m -> mtx_ok (set_pc t p (set_ser s w))) as G.
  2:{ destruct (pcs w t) eqn:Hp; try done; injection E as <-; apply (G _ _ m); auto. }
  intros s p m Hcase. set (w1 := set_pc t p (set_ser s w)).
  assert (forall t', t' <> t -> pcs w1 t' = pcs w t') as Hne by (intros t' Hn; cbn; by rewrite fn_lookup_insert_ne).
  assert (pcs w1 t = p) as Heq by (cbn; by rewrite fn_lookup_insert).
  assert (forall m' t', t' <> t -> owner w1 m' t' <-> owner w m' t') as Hoth.
  { intros m' t' Hn. apply owner_same; [done|by apply Hne|..]; rewrite Es; cbn;
      split; try done; intros ->; destruct Hcase as [(_ & ? & _)|(_ & ? & _)]; congruence. }
  apply (ser_move w); try done.
  - intros t' m' Ho. apply (ok_once w H). destruct (decide (t' = t)) as [->|Hn].
    + rewrite Heq in Ho. destruct Hcase as [(-> & Eq & ->)|(-> & Eq & ->)]; cbn in *; subst s; by destruct Ho.
    + rewrite Hne in Ho by done. cbn in Ho. destruct (pcs w t'); simpl in *; try done; destruct Ho as [-> Ho]; subst s;
        destruct Hcase as [(_ & ? & _)|(_ & ? & _)]; congruence.
  - intros t'. destruct (decide (t' = t)) as [->|Hn]; [|by rewrite Hne].
    destruct Hcase as [(-> & _)|(-> & _)]; done.
  - intros t' m' prev. destruct (decide (t' = t)) as [->|Hn]; [rewrite Heq|by rewrite Hne].
    destruct Hcase as [(_ & _ & ->)|(_ & _ & ->)]; done.
  - intros t' m' Ht'. destruct (decide (t' = t)) as [->|Hn].
    + destruct Hcase as [(Hp & -> & ->)|(Hp & -> & ->)]; destruct Ht' as [Ht'|Ht']; rewrite ?Heq in Ht'; try done.
      injection Ht' as <-. apply (ok_slow w H m t). by left.
    + destruct Ht' as [Ht'|Ht']; [rewrite Hne in Ht' by done; apply (ok_slow w H m' t'); by left|].
      cbn in Ht'. destruct Hcase as [(_ & -> & _)|(_ & -> & _)]; congruence.
  - intros m'. apply (word_ok_ext w); try done; [| |..|apply (ok_word w H)].
    + rewrite Es. cbn. destruct Hcase as [(_ & -> & _)|(_ & -> & _)]; done.
    + intros t'. destruct (decide (t' = t)) as [->|Hn]; [|by apply Hoth]. unfold owner. rewrite Heq. cbn.
      destruct Hcase as [(-> & -> & ->)|(-> & -> & ->)]; simpl; [naive_solver|]. naive_solver.
    + intros t' Hc. destruct (decide (t' = t)) as [->|Hn]; [|unfold checking; by rewrite Hne].
      destruct Hcase as [(Hp & _)|(Hp & _)], Hc; congruence.
  - unfold ser_ok. cbn [w1 set_pc set_ser ser]. destruct Hcase as [(_ & -> & ->)|(_ & -> & ->)]; done.
  - intros m'. apply (ok_nodup w H).
  - intros m' t' Ht'. destruct (ok_waits w H m' t' Ht') as [H1 _].
    assert (t' <> t) as Hn by (intros ->; destruct Hcase as [(Hp & _)|(Hp & _)]; congruence).
    rewrite Hne by done. split; [done|]. cbn. destruct Hcase as [(_ & -> & _)|(_ & -> & _)]; by intros [-> _].
  - intros m' t' Ht'. destruct (decide (t' = t)) as [->|Hn].
    + rewrite Heq in Ht'. destruct Hcase as [(_ & -> & ->)|(_ & -> & ->)]; [|done]. injection Ht' as <-. by right.
    + rewrite Hne in Ht' by done. destruct (ok_sleep w H m' t' Ht') as [?|Hb]; [by left|]. by rewrite Es in Hb.
  - intros m' t' Ht'. destruct (decide (t' = t)) as [->|Hn].
    + rewrite Heq in Ht'. destruct Hcase as [(_ & -> & ->)|(_ & -> & ->)]; [done|]. by injection Ht' as <-.
    + rewrite Hne in Ht' by done. pose proof (ok_unsleep w H m' t' Ht') as Hb. by rewrite Es in Hb.
Qed.

(** Steps within ser_lock_op() that do not end it. *)
Definition locking (s : ser_pc) (t m : Z) : Prop :=
  match s with SerLockLoad t' m' | SerLockTop t' m' _ | SerLockMark t' m' _ => t' = t /\ m' = m | _ => False end.

Lemma locking_busy s t m : locking s t m ->
  (forall m' t', busy s m' t' <-> t' = t /\ m' = m) /\ (forall m', at_hand s m' = None) /\
  (forall t' m', s <> SerUnlock t' m') /\ (forall t' m', s <> SerReply t' m').
Proof. destruct s; try done; intros [-> ->]; (split_and!; try done); simpl; naive_solver. Qed.

Lemma locking_asleep w t m : mtx_ok w -> locking (ser w) t m -> pcs w t = LockSleep m.
Proof. intros H. pose proof (ok_ser w H) as Hs. unfold ser_ok in Hs. destruct (ser w); try done; intros [-> ->]; tauto. Qed.

Lemma ser_inner_ok w s t m : mtx_ok w -> locking (ser w) t m -> locking s t m -> ser_ok (set_ser s w) -> mtx_ok (set_ser s w).
Proof.
  intros H Hl Hl' Hs. destruct (locking_busy _ _ _ Hl) as (Hb & Hh & Hu & Hr), (locking_busy _ _ _ Hl') as (Hb' & Hh' & Hu' & Hr').
  apply (ser_move w); try done; cbn [set_ser ser pcs word waits].
  - intros t' m'. apply (once_kept w); [done|..]; intros; left; [apply Hu'|apply Hr'].
  - intros t' m' [Ht'|Ht']; [apply (ok_slow w H m' t'); by left|by destruct (Hu' t' m')].
  - intros m'. apply (word_ok_ext w); try done; [|..|apply (ok_word w H)].
    + cbn. by rewrite Hh, Hh'.
    + intros t'. apply owner_same; try done; cbn; naive_solver.
  - apply (ok_nodup w H).
  - intros m' t' Ht'. destruct (ok_waits w H m' t' Ht') as [H1 H2]. split; [done|]. by rewrite Hb', <- Hb.
  - intros m' t' Ht'. rewrite Hb', <- Hb. by apply (ok_sleep w H).
  - intros m' t' Ht'. rewrite Hb', <- Hb. by apply (ok_unsleep w H).
Qed.

Lemma grant_ok w t m prev : mtx_ok w -> ser w = SerLockTop t m prev -> word w m = 0 ->
  mtx_ok (set_ser (SerReply t m) (set_word m (Z.lor t LOCKED) w)).
Proof.
  intros H Es Hz. assert (locking (ser w) t m) as Hl by (by rewrite Es).
  destruct (locking_busy _ _ _ Hl) as (Hb & Hh & Hu & Hr). pose proof (locking_asleep w t m H Hl) as Hp.
  assert (local_id t) as Hid by (apply (ok_pc_id w H); by rewrite Hp).
  set (w' := set_ser _ _).
  assert (forall m' t', owner w' m' t' <-> t' = t /\ m' = m \/ owner w m' t') as Hown.
  { intros m' t'. unfold owner. cbn [w' set_ser set_word holding ser pcs]. destruct (decide (t' = t /\ m' = m)) as [[-> ->]|Hn].
    - rewrite Hp. simpl. tauto.
    - assert (forall p, pc_owns (SerReply t m) m' t' p <-> pc_owns (ser w) m' t' p) as -> by
        (intros p; destruct p; simpl; try done; [|]; split; intros [? Hx]; (split; [done|]); naive_solver).
      tauto. }
  assert (forall m', m' <> m -> word w' m' = word w m') as Hne by (intros m' Hn; cbn; by rewrite fn_lookup_insert_ne).
  destruct (free_word w m H Hz) as (_ & _ & Hno). apply (ser_move w); try done.
  - intros t' m' Ho. cbn in Ho. destruct (decide (t' = t /\ m' = m)) as [[-> ->]|Hn].
    + intros Hin. apply (Hno t). by left.
    + apply (ok_once w H). destruct (pcs w t'); simpl in *; try done; destruct Ho as [-> Ho]; [|done]. injection Ho as <- <-. by destruct Hn.
  - intros t' m' [Ht'|Ht']; [|done]. pose proof (ok_slow w H m' t' (or_introl Ht')) as Hc.
    rewrite Hne; [done|]. intros ->. by rewrite Hz in Hc.
  - intros m'. destruct (decide (m' = m)) as [->|Hn].
    + apply (taken_word w w' m t); try done; [cbn; by rewrite fn_lookup_insert, word_locked|].
      intros t'. rewrite Hown. tauto.
    + apply (word_ok_ext w); try done; [by apply Hne| |apply (ok_word w H)].
      intros t'. rewrite Hown. tauto.
  - by left.
  - apply (ok_nodup w H).
  - intros m' t' Ht'. destruct (ok_waits w H m' t' Ht') as [H1 H2]. split; [done|]. rewrite Hb in H2. cbn. naive_solver.
  - intros m' t' Ht'. destruct (ok_sleep w H m' t' Ht') as [?|Hx]; [by left|right]. rewrite Hb in Hx. cbn. naive_solver.
  - intros m' t' Ht'. pose proof (ok_unsleep w H m' t' Ht') as Hx. rewrite Hb in Hx. cbn. naive_solver.
Qed.

Lemma lor_conflicted v : conflicted v = true -> Z.lor v CONFLICT = v.
Proof.
  unfold conflicted. intros Hc%Z.eqb_eq. apply Z.bits_inj'. intros n Hn. rewrite Z.lor_spec. unfold CONFLICT in *.
  apply (f_equal (fun x => Z.testbit x n)) in Hc. rewrite Z.land_spec, Z.lnot_spec, Z.bits_0 in Hc by lia.
  destruct (Z.testbit v n), (Z.testbit 2 n); done.
Qed.

(** The thread goes on the list, and the word says that there is one. *)
Lemma queue_ok w w' t m : mtx_ok w -> locking (ser w) t m -> word w m <> 0 ->
  ser w' = SerWait -> waits w' = <[m := waits w m ++ [t]]> (waits w) -> pcs w' = pcs w -> holding w' = holding w ->
  word w' m = Z.lor (word w m) CONFLICT -> (forall m', m' <> m -> word w' m' = word w m') -> mtx_ok w'.
Proof.
  intros H Hl Hz Es Ew Ep Eh Hwd Hwd'. destruct (locking_busy _ _ _ Hl) as (Hb & Hh & Hu & Hr). pose proof (locking_asleep w t m H Hl) as Hp.
  assert (t ∉ waits w m) as Hnw.
  { intros Hin. destruct (ok_waits w H m t Hin) as [_ Hx]. apply Hx, Hb. done. }
  assert (forall m' t', owner w' m' t' <-> owner w m' t') as Hown.
  { intros m' t'. apply owner_same; [done|by rewrite Ep|..]; rewrite Es; split; try done; intros Hx; exfalso;
      by eapply Hu, Hx || by eapply Hr, Hx. }
  assert (waits w' m = waits w m ++ [t]) as Hwm by (by rewrite Ew, fn_lookup_insert).
  assert (forall m', m' <> m -> waits w' m' = waits w m' /\ word w' m' = word w m') as Hne
    by (intros m' Hn; rewrite Ew, fn_lookup_insert_ne by done; auto).
  apply (ser_move w); rewrite ?Ep, ?Es; try done.
  - intros t' m'. by apply (once_kept w); [|intros; left|intros; left].
  - intros t' m' [Ht'|Ht']; [|done]. pose proof (ok_slow w H m' t' (or_introl Ht')) as Hc.
    destruct (decide (m' = m)) as [->|Hn]; [|by rewrite (proj2 (Hne m' Hn))].
    by rewrite Hwd, lor_conflicted.
  - intros m'. destruct (decide (m' = m)) as [->|Hn].
    + apply (conflict_word w w' m); try done; [apply (ok_word w H)|by rewrite Es].
    + destruct (Hne m' Hn). apply (word_ok_ext w); rewrite ?Es, ?Hh; try done; [|apply (ok_word w H)].
      intros t'. unfold checking. by rewrite Ep.
  - unfold ser_ok. by rewrite Es.
  - intros m'. destruct (decide (m' = m)) as [->|Hn]; [|rewrite (proj1 (Hne m' Hn)); apply (ok_nodup w H)].
    rewrite Hwm. apply NoDup_app. split_and!; [apply (ok_nodup w H)| |apply NoDup_singleton].
    intros x Hx ->%list_elem_of_singleton. done.
  - intros m' t' Ht'. split; [|by intros []].
    destruct (decide (m' = m)) as [->|Hn]; [|rewrite (proj1 (Hne m' Hn)) in Ht'; by apply (ok_waits w H)].
    rewrite Hwm, elem_of_app, list_elem_of_singleton in Ht'. destruct Ht' as [?| ->]; [by apply (ok_waits w H)|done].
  - intros m' t' Ht'. left. destruct (ok_sleep w H m' t' Ht') as [Hin|[-> ->]%Hb].
    + destruct (decide (m' = m)) as [->|Hn]; [rewrite Hwm, elem_of_app; by left|by rewrite (proj1 (Hne m' Hn))].
    + rewrite Hwm, elem_of_app, list_elem_of_singleton. by right.
  - intros m' t' Ht'. exfalso.
    pose proof (ok_unsleep w H m' t' Ht') as [-> ->]%Hb. congruence.
Qed.

(** ser_unlock_op() is called by the thread that has the mutex, whose word says that
    there may be threads on the list. *)
Lemma unlock_word w t m : mtx_ok w -> ser w = SerUnlock t m ->
  local_id t /\ pcs w t = UnlockSleep m /\ word w m = t + 3 /\ forall t', owner w m t' -> t' = t.
Proof.
  intros H Es. pose proof (ok_ser w H) as Hs. unfold ser_ok in Hs. rewrite Es in Hs.
  assert (local_id t) as Hid by (apply (ok_pc_id w H); by rewrite Hs).
  assert (owner w m t) as Ho by (right; rewrite Hs; simpl; by rewrite Es). split_and!; try done.
  - destruct (own_word w m t H Ho) as [(_ & _ & [E|E])|(u & _ & _ & _ & _ & [?|?])]; [|done|congruence|congruence].
    pose proof (ok_slow w H m t (or_intror Es)) as Hc. by rewrite E, conflicted_1 in Hc.
  - intros t' Ho'. pose proof (ok_word w H m) as Hw. unfold word_ok in Hw. rewrite Es in Hw. simpl in Hw.
    destruct Hw as [(_ & _ & Hno)|(o & _ & _ & _ & Hall)]; [by destruct (Hno t)|]. by rewrite (Hall t Ho), (Hall t' Ho').
Qed.

(** The owner of other mutexes does not change with a thread that is about this one. *)
Lemma owner_other w w' m m' t : holding w' = holding w -> m' <> m ->
  (forall t m', m' <> m -> ser w' <> SerUnlock t m' /\ ser w' <> SerReply t m' /\ ser w <> SerUnlock t m' /\ ser w <> SerReply t m') ->
  (pcs w' t = pcs w t \/ (forall x, about (pcs w t) x -> x = m) /\ forall x, about (pcs w' t) x -> x = m) ->
  owner w' m' t <-> owner w m' t.
Proof.
  intros Eh Hn Hs [Ep|[Ha Hb]].
  - destruct (Hs t m' Hn) as (? & ? & ? & ?). apply owner_same; done.
  - unfold owner. rewrite Eh. assert (forall s p, (forall x, about p x -> x = m) -> ~ pc_owns s m' t p) as Hno.
    { intros s p Hp Ho. apply Hn, Hp. destruct p; simpl in *; tauto. }
    split; (intros [?|Ho]; [by left|]); exfalso; by eapply Hno, Ho.
Qed.

(** The mutex is nobody's while it is handed on. *)
Lemma unlock_owners w w' t m : mtx_ok w -> ser w = SerUnlock t m -> holding w' = holding w -> pcs w' = pcs w ->
  at_hand (ser w') m <> None -> (forall t' m', ser w' <> SerUnlock t' m' /\ ser w' <> SerReply t' m') ->
  (forall t', ~ owner w' m t') /\ forall m' t', m' <> m -> owner w' m' t' <-> owner w m' t'.
Proof.
  intros H Es Eh Ep Hat Hs. destruct (unlock_word w t m H Es) as (Hid & Hp & Hw & Hall). split.
  - intros t' Ho. assert (owner w m t') as Ho'.
    { revert Ho. unfold owner. rewrite Eh, Ep. intros [?|Ho]; [by left|right]. destruct (pcs w t'); simpl in *; try done.
      - destruct Ho as [_ Ho]. by destruct (Hs t' m).
      - destruct Ho as [_ Ho]. by destruct (Hs t' m). }
    rewrite (Hall t' Ho') in Ho. destruct Ho as [Hin|Ho].
    + rewrite Eh in Hin. apply (ok_once w H m t) in Hin; [done|by rewrite Hp].
    + rewrite Ep, Hp in Ho. simpl in Ho. destruct Ho as [_ Ho]. by destruct (Hs t m).
  - intros m' t' Hn. apply (owner_other w w' m); [done|done| |by left; rewrite Ep].
    intros t1 m1 Hm1. destruct (Hs t1 m1). split_and!; [done|done|congruence|congruence].
Qed.

Lemma unlock_empty_ok w t m : mtx_ok w -> ser w = SerUnlock t m -> waits w m = [] ->
  mtx_ok (set_ser (SerExchange m t (word w m) 0) w).
Proof.
  intros H Es Hwt. destruct (unlock_word w t m H Es) as (Hid & Hp & Hw & Hall).
  destruct (unlock_owners w (set_ser (SerExchange m t (word w m) 0) w) t m) as [Hno Hoth]; try done.
  { simpl. by rewrite decide_True. }
  apply (ser_move w); try done.
  - intros t' m'. by apply (once_kept w); [|intros; left|intros; left].
  - intros t' m' [Ht'|Ht']; [|done]. apply (ok_slow w H m' t'). by left.
  - intros m'. destruct (decide (m' = m)) as [->|Hn].
    + unfold word_ok. cbn [set_ser ser at_hand]. rewrite decide_True by done. split; [done|]. exists t.
      split_and!; [done|done|]. left. by split_and!.
    + apply (word_ok_ext w); try done; [|intros t'; by apply Hoth|apply (ok_word w H)].
      rewrite Es. simpl. by rewrite decide_False.
  - exists t. split; [done|]. by left.
  - apply (ok_nodup w H).
  - intros m' t' Ht'. destruct (ok_waits w H m' t' Ht') as [H1 H2]. split; [done|]. cbn. intros [-> ->].
    cbn in Ht'. rewrite Hwt in Ht'. by apply not_elem_of_nil in Ht'.
  - intros m' t' Ht'. destruct (ok_sleep w H m' t' Ht') as [?|Hb]; [by left|]. rewrite Es in Hb. destruct Hb as [<- _].
    cbn in Ht'. congruence.
  - intros m' t' Ht'. pose proof (ok_unsleep w H m' t' Ht') as Hb. rewrite Es in Hb. by destruct Hb as [-> ->].
Qed.

Lemma unlock_pop_ok w t m v l later final : mtx_ok w -> ser w = SerUnlock t m -> waits w m = v :: l ->
  (later = t /\ final = v \/ later = v /\ final = t) ->
  mtx_ok (set_ser (SerLater m later final (word w m) (Z.lor (Z.lor v CONFLICT) LOCKED)) (set_waits m l w)).
Proof.
  intros H Es Hwt Hlf. destruct (unlock_word w t m H Es) as (Hid & Hp & Hw & Hall).
  destruct (ok_waits w H m v) as [Hv Hvb]; [rewrite Hwt; by constructor|].
  assert (local_id v) as Hvid by (apply (ok_pc_id w H); by rewrite Hv). rewrite word_next by done.
  assert (v <> t) as Hvt by congruence. set (w' := set_ser _ _).
  destruct (unlock_owners w w' t m) as [Hno Hoth]; try done.
  { simpl. by rewrite decide_True. }
  pose proof (ok_nodup w H m) as Hnd. rewrite Hwt in Hnd. apply NoDup_cons in Hnd as [Hvl Hnd].
  assert (waits w' m = l) as Hwm by (cbn; by rewrite fn_lookup_insert).
  assert (forall m', m' <> m -> waits w' m' = waits w m') as Hne by (intros m' Hn; cbn; by rewrite fn_lookup_insert_ne).
  apply (ser_move w); try done.
  - intros t' m'. by apply (once_kept w); [|intros; left|intros; left].
  - intros t' m' [Ht'|Ht']; [|done]. apply (ok_slow w H m' t'). by left.
  - intros m'. destruct (decide (m' = m)) as [->|Hn].
    + unfold word_ok. cbn [w' set_ser ser at_hand]. rewrite decide_True by done. split; [done|]. exists t.
      split_and!; [done|done|]. right. exists v. split_and!; try done. intros t' Ho. by destruct (Hno t').
    + apply (word_ok_ext w); try done; [by apply Hne| |intros t'; by apply Hoth|apply (ok_word w H)].
      rewrite Es. simpl. by rewrite decide_False.
  - exists t, v. split_and!; try done.
  - intros m'. destruct (decide (m' = m)) as [->|Hn]; [by rewrite Hwm|rewrite Hne by done; apply (ok_nodup w H)].
  - intros m' t' Ht'. assert (t' ∈ waits w m') as Hin.
    { destruct (decide (m' = m)) as [->|Hn]; [rewrite Hwt; constructor; by rewrite Hwm in Ht'|by rewrite Hne in Ht']. }
    destruct (ok_waits w H m' t' Hin) as [H1 H2]. split; [done|]. cbn. intros [-> Hx]. rewrite Hwm in Ht'.
    destruct Hx as [-> | ->], Hlf as [[-> ->]|[-> ->]]; congruence || done.
  - intros m' t' Ht'. change (pcs w' t') with (pcs w t') in Ht'. destruct (ok_sleep w H m' t' Ht') as [Hin|Hb].
    + destruct (decide (m' = m)) as [->|Hn]; [|left; by rewrite Hne]. rewrite Hwt, elem_of_cons in Hin.
      destruct Hin as [->|?]; [right|left; by rewrite Hwm]. cbn. split; [done|]. destruct Hlf as [[-> ->]|[-> ->]]; auto.
    + rewrite Es in Hb. destruct Hb as [<- _]. congruence.
  - intros m' t' Ht'. pose proof (ok_unsleep w H m' t' Ht') as Hb. rewrite Es in Hb. destruct Hb as [<- <-].
    cbn. split; [done|]. destruct Hlf as [[-> ->]|[-> ->]]; auto.
Qed.

Lemma unlock_step_ok w t m xcpu w' : mtx_ok w -> ser w = SerUnlock t m -> ser_step xcpu w = Some w' -> mtx_ok w'.
Proof.
  intros H Es E. destruct (unlock_word w t m H Es) as (Hid & Hp & Hw & _).
  unfold ser_step in E. rewrite Es in E. cbv zeta in E. rewrite Hw, word_owner, Z.eqb_refl in E by (done || lia).
  cbn [negb] in E. rewrite <- Hw in E. destruct (waits w m) as [|v l] eqn:Hwt.
  - injection E as <-. by apply unlock_empty_ok.
  - destruct (negb (bool_decide (l = [])) || xcpu); injection E as <-; apply (unlock_pop_ok w t m v l); auto.
Qed.

Lemma resume_unlock w t m : pcs w t = UnlockSleep m -> resume t w = set_pc t Idle w.
Proof. unfold resume. by intros ->. Qed.
Lemma resume_lock w t m : pcs w t = LockSleep m -> resume t w = set_pc t (LockCheck m) w.
Proof. unfold resume. by intros ->. Qed.

(** What ser_unlock_op() has in hand when it is about to reply. *)
Lemma later_facts w m later final prev next : mtx_ok w -> ser w = SerLater m later final prev next ->
  exists u v p, local_id u /\ local_id v /\ u <> v /\ prev = u + 3 /\ next = v + 3 /\ word w m = prev /\
    pcs w u = UnlockSleep m /\ pcs w v = LockSleep m /\ (forall t, ~ owner w m t) /\ resume later w = set_pc later p w /\
    (later = u /\ final = v /\ p = Idle \/ later = v /\ final = u /\ p = LockCheck m).
Proof.
  intros H Es. pose proof (ok_ser w H) as Hs. unfold ser_ok in Hs. rewrite Es in Hs.
  destruct Hs as (u & v & Huv & Hprev & Hnext & Hu & Hv & Hlf).
  assert (local_id v) as Hvid by (apply (ok_pc_id w H); by rewrite Hv).
  pose proof (ok_word w H m) as Hw. unfold word_ok in Hw. rewrite Es in Hw. simpl in Hw. rewrite decide_True in Hw by done.
  destruct Hw as (Hw & u' & Hu' & Hp' & [(Hn0 & _)|(v' & Hv' & Hvu' & Hn' & Hall)]); [destruct Hvid; lia|].
  assert (v' = v) as -> by lia. assert (u' = u) as -> by lia.
  assert (forall t, ~ owner w m t) as Hno by (intros t Ho; destruct (Hall t Ho) as [-> [?|?]]; congruence).
  destruct Hlf as [[-> ->]|[-> ->]].
  - exists u, v, Idle. split_and!; try done; [by apply (resume_unlock w u m)|by left].
  - exists u, v, (LockCheck m). split_and!; try done; [by apply (resume_lock w v m)|by right].
Qed.

(** Until its word is changed, the mutex is nobody's but the resumed thread's. *)
Lemma later_word w w' m later final prev next u v p : local_id u -> local_id v -> u <> v -> prev = u + 3 -> next = v + 3 ->
  word w m = prev -> (forall t, ~ owner w m t) ->
  (later = u /\ final = v /\ p = Idle \/ later = v /\ final = u /\ p = LockCheck m) ->
  word w' = word w -> holding w' = holding w -> pcs w' = <[later := p]> (pcs w) -> ser w' = SerExchange m final prev next ->
  word_ok w' m.
Proof.
  intros Hu Hv Huv Hprev Hnext Hw Hno Hp Ew Eh Ep Es. unfold word_ok. rewrite Es. cbn [at_hand]. rewrite decide_True by done.
  rewrite Ew. split; [done|]. exists u. split_and!; [done|done|]. right. exists v. split_and!; [done..|]. intros t' Ho.
  assert (t' = later) as ->.
  { destruct (decide (t' = later)) as [?|Hn]; [done|]. exfalso. apply (Hno t'). revert Ho. unfold owner.
    rewrite Eh, Ep, Es, fn_lookup_insert_ne by done. intros [?|Ho]; [by left|right].
    destruct (pcs w t'); simpl in *; try done; by destruct Ho. }
  assert (pcs w' later = p) as Heq by (by rewrite Ep, fn_lookup_insert).
  destruct Hp as [(-> & -> & ->)|(-> & -> & ->)]; [|split; [done|by left]]. destruct Ho as [Ho|Ho]; [|by rewrite Heq in Ho].
  exfalso. apply (Hno u). left. by rewrite <- Eh.
Qed.

(** A thread about the mutex moves to a place that is about no other. *)
Lemma owner_elsewhere w w' m m' t' t p : mtx_ok w -> holding w' = holding w -> pcs w' = <[t := p]> (pcs w) -> m' <> m ->
  about (pcs w t) m -> (forall x, about p x -> x = m) ->
  (forall t m', m' <> m -> ser w' <> SerUnlock t m' /\ ser w' <> SerReply t m' /\ ser w <> SerUnlock t m' /\ ser w <> SerReply t m') ->
  owner w' m' t' <-> owner w m' t'.
Proof.
  intros H Eh Ep Hn Hab Hp Hs. apply (owner_other w w' m); [done..|]. rewrite Ep.
  destruct (decide (t' = t)) as [->|Hq]; [right|left; by rewrite fn_lookup_insert_ne].
  rewrite fn_lookup_insert. split; [|done]. intros x Hx. destruct (pcs w t); simpl in *; congruence || done.
Qed.

Lemma later_ok w m later final prev next : mtx_ok w -> ser w = SerLater m later final prev next ->
  mtx_ok (set_ser (SerExchange m final prev next) (resume later w)).
Proof.
  intros H Es.
  destruct (later_facts w m later final prev next H Es) as (u & v & p & Hu' & Hv' & Huv & Hprev & Hnext & Hw & Hu & Hv & Hno & -> & Hp).
  set (w' := set_ser _ _).
  assert (forall t', t' <> later -> pcs w' t' = pcs w t') as Hne by (intros t' Hn; cbn; by rewrite fn_lookup_insert_ne).
  assert (pcs w' later = p) as Heq by (cbn; by rewrite fn_lookup_insert).
  assert (asleep (pcs w later) /\ about (pcs w later) m) as [Hsl Hab].
  { destruct Hp as [(-> & _)|(-> & _)]; by rewrite ?Hu, ?Hv. }
  assert ((forall x, about p x -> x = m) /\ ~ asleep p /\ (forall m' prev', p <> LockMark m' prev') /\ forall m', p <> UnlockCall m')
    as (Hpab & Hpsl & Hpm & Hpu) by (destruct Hp as [(_ & _ & ->)|(_ & _ & ->)]; split_and!; simpl; naive_solver).
  apply (ser_move w); try done.
  - intros t' m' Ho. destruct (decide (t' = later)) as [->|Hn].
    + rewrite Heq in Ho. destruct Hp as [(_ & _ & ->)|(_ & _ & ->)]; simpl in Ho; [done|subst m']. intros Hin. apply (Hno later). by left.
    + rewrite Hne in Ho by done. revert Ho. by apply (once_kept w); [|intros; left|intros; left].
  - intros t'. destruct (decide (t' = later)) as [->|Hn]; [|by rewrite Hne]. intros _ E. by rewrite E in Hsl.
  - intros t' m' pr. destruct (decide (t' = later)) as [->|Hn]; [|by rewrite Hne]. rewrite Heq. intros E. by destruct (Hpm m' pr).
  - intros t' m' [Ht'|Ht']; [|done]. apply (ok_slow w H m' t'). left.
    destruct (decide (t' = later)) as [->|Hn]; [|by rewrite <- Hne]. rewrite Heq in Ht'. by destruct (Hpu m').
  - intros m'. destruct (decide (m' = m)) as [->|Hn].
    + apply (later_word w w' m later final prev next u v p); done.
    + apply (word_ok_ext w); try done; [by rewrite Es| | |apply (ok_word w H)].
      * intros t'. apply (owner_elsewhere w w' m m' t' later p); try done. intros t1 m1 _. by rewrite Es.
      * intros t' Hc. destruct (decide (t' = later)) as [->|Hq]; [|unfold checking; by rewrite Hne].
        exfalso. destruct Hc as [Hc|Hc]; by rewrite Hc in Hsl.
  - exists u. split; [done|]. right. exists v. split_and!; [done|done|].
    destruct Hp as [(-> & -> & ->)|(-> & -> & ->)]; [right|left]; (split; [done|]); [by rewrite Hne|].
    split; [by rewrite Hne|by left].
  - apply (ok_nodup w H).
  - intros m' t' Ht'. destruct (ok_waits w H m' t' Ht') as [H1 H2]. rewrite Es in H2. cbn in H2.
    assert (t' <> later) as Hn by (intros ->; apply H2; rewrite H1 in Hab; simpl in Hab; auto).
    rewrite Hne by done. split; [done|]. cbn. intros [-> ->]. apply H2. auto.
  - intros m' t' Ht'. destruct (decide (t' = later)) as [->|Hn]; [rewrite Heq in Ht'; exfalso; apply Hpsl; by rewrite Ht'|].
    rewrite Hne in Ht' by done. destruct (ok_sleep w H m' t' Ht') as [?|Hb]; [by left|right]. rewrite Es in Hb.
    cbn. destruct Hb as [<- [?|?]]; done.
  - intros m' t' Ht'. destruct (decide (t' = later)) as [->|Hn]; [rewrite Heq in Ht'; exfalso; apply Hpsl; by rewrite Ht'|].
    rewrite Hne in Ht' by done. pose proof (ok_unsleep w H m' t' Ht') as Hb. rewrite Es in Hb.
    cbn. destruct Hb as [<- [?|?]]; done.
Qed.

(** Who has the mutex once its word was changed. *)
Lemma exchange_owner w w' m final prev next : ser w = SerExchange m final prev next -> holding w' = holding w ->
  pcs w' = pcs w -> ser w' = SerReply final m -> forall m' t,
  owner w' m' t <-> owner w m' t \/ (m' = m /\ t = final /\ pcs w t = LockSleep m).
Proof.
  intros Es Eh Ep Es' m' t. unfold owner. rewrite Eh, Ep, Es', Es.
  destruct (pcs w t) eqn:Hp; simpl; try naive_solver.
Qed.

Lemma exchange_ok w m final prev next : mtx_ok w -> ser w = SerExchange m final prev next ->
  mtx_ok (set_ser (SerReply final m) (set_word m next w)).
Proof.
  intros H Es. pose proof (ok_ser w H) as Hs. unfold ser_ok in Hs. rewrite Es in Hs. destruct Hs as (u & Hprev & Hs).
  pose proof (ok_word w H m) as Hw. unfold word_ok in Hw. rewrite Es in Hw. simpl in Hw. rewrite decide_True in Hw by done.
  destruct Hw as (Hw & u' & Hu' & Hp' & Hw'). set (w' := set_ser _ _).
  assert (word w' m = next) as Hwm by (cbn; by rewrite fn_lookup_insert).
  assert (forall m', m' <> m -> word w' m' = word w m') as Hne by (intros m' Hn; cbn; by rewrite fn_lookup_insert_ne).
  pose proof (exchange_owner w w' m final prev next Es eq_refl eq_refl eq_refl) as Hown.
  assert (forall m' t, busy (ser w') m' t <-> busy (ser w) m' t) as Hb.
  { intros m' t. rewrite Es. cbn. split; intros [-> ->]; done. }
  apply (ser_move w); try done.
  - intros t' m' Ho. cbn in Ho. destruct (pcs w t') eqn:Hp; simpl in Ho; try (apply (ok_once w H); by rewrite Hp).
    + destruct Ho as [-> Ho]. injection Ho as -> ->. intros Hin.
      destruct Hw' as [(_ & _ & Hno)|(v & _ & _ & _ & Hall)]; [apply (Hno t'); by left|].
      destruct (Hall t' ltac:(by left)) as [_ [?|?]]; congruence.
    + by destruct Ho.
  - intros t' m' [Ht'|Ht']; [|done]. pose proof (ok_slow w H m' t' (or_introl Ht')) as Hc.
    rewrite Hne; [done|]. intros ->. assert (owner w m t') as Ho by (right; cbn in Ht'; by rewrite Ht').
    cbn in Ht'. destruct Hw' as [(_ & _ & Hno)|(v & _ & _ & _ & Hall)]; [by apply (Hno t')|].
    destruct (Hall t' Ho) as [_ [?|?]]; congruence.
  - intros m'. destruct (decide (m' = m)) as [->|Hn].
    + unfold word_ok. rewrite Hwm. cbn [w' set_ser ser at_hand waits set_word].
      destruct Hs as [(Hn0 & Hf & Hsl)|(v & Hvu & Hnext & Hs)].
      * left. destruct Hw' as [(_ & Hwt & Hno)|(v & [Hv _] & _ & Hn' & _)]; [|lia].
        split_and!; [done|done|]. intros t [Ho|(_ & -> & ?)]%Hown; [by apply (Hno t)|congruence].
      * assert (0 < v) as Hv0 by (destruct Hs as [(_ & _ & [Hc|Hc])|[_ Hc]]; apply (ok_pc_id w H); by rewrite Hc).
        right. exists v. destruct Hw' as [(Hn0 & _)|(v' & Hv' & _ & Hn' & Hall)]; [lia|].
        assert (v' = v) as -> by lia. split_and!; [done|by right| |].
        -- apply Hown. destruct Hs as [(_ & _ & Hc)|[-> Hc]]; [left; right|by right]. by destruct Hc as [-> | ->].
        -- intros t [Ho|(_ & -> & Hc)]%Hown; [by apply Hall|]. destruct Hs as [(-> & Hsl & _)|[-> _]]; [congruence|done].
    + apply (word_ok_ext w); try done; [by apply Hne| |intros t; rewrite Hown; naive_solver|apply (ok_word w H)].
      rewrite Es. simpl. by rewrite decide_False.
  - cbn. destruct Hs as [(_ & -> & ?)|(v & _ & _ & [(-> & ? & _)|[-> ?]])]; auto.
  - apply (ok_nodup w H).
  - intros m' t' Ht'. destruct (ok_waits w H m' t' Ht'). by rewrite Hb.
  - intros m' t' Ht'. destruct (ok_sleep w H m' t' Ht') as [?|?]; [by left|right; by rewrite Hb].
  - intros m' t' Ht'. rewrite Hb. by apply (ok_unsleep w H).
Qed.

Lemma reply_ok w t m : mtx_ok w -> ser w = SerReply t m -> mtx_ok (set_ser SerWait (resume t w)).
Proof.
  intros H Es. pose proof (ok_ser w H) as Hs. unfold ser_ok in Hs. rewrite Es in Hs.
  assert (exists p, resume t w = set_pc t p w /\ (pcs w t = LockSleep m /\ p = LockCheck m \/
    pcs w t = UnlockSleep m /\ p = Idle)) as (p & -> & Hp).
  { unfold resume. destruct Hs as [-> | ->]; eexists; (split; [done|]); auto. }
  set (w' := set_ser _ _).
  assert (forall t', t' <> t -> pcs w' t' = pcs w t') as Hne by (intros t' Hn; cbn; by rewrite fn_lookup_insert_ne).
  assert (pcs w' t = p) as Heq by (cbn; by rewrite fn_lookup_insert).
  assert (forall m' t', owner w' m' t' <-> owner w m' t') as Hown.
  { intros m' t'. destruct (decide (t' = t)) as [->|Hn].
    - unfold owner. rewrite Heq. cbn [w' set_ser set_pc holding]. rewrite Es.
      destruct Hp as [[-> ->]|[-> ->]]; simpl; naive_solver.
    - apply owner_same; [done|by apply Hne|rewrite Es; done|]. rewrite Es. cbn. split; [done|]. intros [=]. congruence. }
  apply (ser_move w); try done.
  - intros t' m' Ho. destruct (decide (t' = t)) as [->|Hn].
    + rewrite Heq in Ho. apply (ok_once w H). destruct Hp as [[-> ->]|[_ ->]]; simpl in *; [|done]. by subst.
    + rewrite Hne in Ho by done. revert Ho. by apply (once_kept w); [|intros; left|intros; left].
  - intros t'. destruct (decide (t' = t)) as [->|Hn]; [|by rewrite Hne]. destruct Hp as [[-> _]|[-> _]]; done.
  - intros t' m' pr. destruct (decide (t' = t)) as [->|Hn]; [|by rewrite Hne]. rewrite Heq.
    destruct Hp as [[_ ->]|[_ ->]]; done.
  - intros t' m' [Ht'|Ht']; [|done]. apply (ok_slow w H m' t'). left.
    destruct (decide (t' = t)) as [->|Hn]; [|by rewrite <- Hne]. rewrite Heq in Ht'. destruct Hp as [[_ ->]|[_ ->]]; done.
  - intros m'. apply (word_ok_ext w); try done; [by rewrite Es| |apply (ok_word w H)].
    intros t' Hc. destruct (decide (t' = t)) as [->|Hn]; [|unfold checking; by rewrite Hne].
    exfalso. destruct Hp as [[Hp _]|[Hp _]], Hc; congruence.
  - apply (ok_nodup w H).
  - intros m' t' Ht'. destruct (ok_waits w H m' t' Ht') as [H1 H2]. rewrite Es in H2.
    destruct (decide (t' = t)) as [->|Hn]; [|rewrite Hne by done; split; [done|]; by intros []].
    exfalso. apply H2. destruct Hp as [[Hp _]|[Hp _]]; [|congruence]. cbn. split; [done|congruence].
  - intros m' t' Ht'. destruct (decide (t' = t)) as [->|Hn]; [rewrite Heq in Ht'; destruct Hp as [[_ ->]|[_ ->]]; done|].
    rewrite Hne in Ht' by done. destruct (ok_sleep w H m' t' Ht') as [?|Hb]; [by left|]. rewrite Es in Hb. by destruct Hb.
  - intros m' t' Ht'. destruct (decide (t' = t)) as [->|Hn]; [rewrite Heq in Ht'; destruct Hp as [[_ ->]|[_ ->]]; done|].
    rewrite Hne in Ht' by done. pose proof (ok_unsleep w H m' t' Ht') as Hb. rewrite Es in Hb. by destruct Hb.
Qed.

Lemma ser_step_ok w xcpu w' : mtx_ok w -> ser_step xcpu w = Some w' -> mtx_ok w'.
Proof.
  intros H E. pose proof (ok_ser w H) as Hs. unfold ser_ok in Hs.
  destruct (ser w) as [|t m|t m prev|t m prev|t m|m later final prev next|m final prev next|t m] eqn:Es.
  5: by apply (unlock_step_ok w t m xcpu).
  all: unfold ser_step in E; rewrite Es in E; try done; injection E as <-.
  - apply (ser_inner_ok w _ t m); [done|by rewrite Es|done|]. cbn. by split.
  - destruct Hs as [Hp Hc]. destruct (Z.eqb_spec prev 0) as [->|Hn]; [destruct (Z.eqb_spec (word w m) 0) as [Hz|Hn]|].
    + by apply (grant_ok w t m 0).
    + apply (ser_inner_ok w _ t m); [done|by rewrite Es|done|]. by cbn.
    + apply (ser_inner_ok w _ t m); [done|by rewrite Es|done|]. by cbn.
  - destruct Hs as (Hp & Hn & Hc). fold (conflicted prev). destruct (conflicted prev) eqn:Hcf; [|destruct (Z.eqb_spec (word w m) prev) as [<-|]].
    + apply (queue_ok w _ t m); try done; [by rewrite Es|by rewrite Hc|]. cbn. by rewrite Hc, lor_conflicted.
    + apply (queue_ok w _ t m); try done; [by rewrite Es|cbn; by rewrite fn_lookup_insert|].
      intros m' Hn'. cbn. by rewrite fn_lookup_insert_ne.
    + apply (ser_inner_ok w _ t m); [done|by rewrite Es|done|]. by cbn.
  - by apply (later_ok w m later final prev next).
  - by apply (exchange_ok w m final prev next).
  - by apply (reply_ok w t m).
Qed.

Lemma inner_step_ok w w' : mtx_ok w -> inner_step w w' -> mtx_ok w'.
Proof.
  intros H [t E|t E|xcpu E]; [by eapply thread_step_ok|by eapply take_ok|by eapply ser_step_ok].
Qed.

Lemma mtx_reachable_ok w : mtx_reachable w -> mtx_ok w.
Proof.
  induction 1 as [|w w' _ IH [t c Hid E|t E|E]]; [apply mtx_start_ok|..].
  - by eapply begin_call_ok.
  - by eapply cancel_call_ok.
  - by eapply inner_step_ok.
Qed.

(** ** What follows for threads *)

Lemma owner_unique w m t u : mtx_ok w -> owner w m t -> owner w m u -> t = u.
Proof.
  intros H Ht Hu. pose proof (ok_word w H m) as Hw. unfold word_ok in Hw. destruct (at_hand (ser w) m) as [[prev next]|].
  - destruct Hw as (_ & o & _ & _ & [(_ & _ & Hno)|(v & _ & _ & _ & Hall)]); [by destruct (Hno t)|].
    by rewrite (proj1 (Hall t Ht)), (proj1 (Hall u Hu)).
  - destruct Hw as [(_ & _ & Hno)|(o & _ & _ & _ & Hall)]; [by destruct (Hno t)|]. by rewrite (Hall t Ht), (Hall u Hu).
Qed.

Lemma stuck_ser w : (forall w', ~ inner_step w w') -> ser w = SerWait.
Proof.
  intros Hst. destruct (ser w) eqn:Es; [done|exfalso..]; destruct (ser_step false w) as [w'|] eqn:E;
    try (by apply (Hst w'), (is_ser w w' false)); unfold ser_step in E; rewrite Es in E; try done.
Qed.

Lemma stuck_thread w t : (forall w', ~ inner_step w w') -> ser w = SerWait ->
  pcs w t = Idle \/ exists m, pcs w t = LockSleep m \/ pcs w t = UnlockSleep m \/ pcs w t = Dead m.
Proof.
  intros Hst Es. destruct (pcs w t) eqn:Hp; eauto 6; exfalso.
  all: first [destruct (thread_step t w) as [w'|] eqn:E; [by apply (Hst w'), (is_thread w w' t)|];
              unfold thread_step in E; by rewrite Hp in E
             |destruct (ser_take t w) as [w'|] eqn:E; [by apply (Hst w'), (is_take w w' t)|];
              unfold ser_take in E; by rewrite Es, Hp in E].
Qed.

Lemma stuck_sleeper w t m : mtx_ok w -> (forall w', ~ inner_step w w') -> pcs w t = LockSleep m ->
  t ∈ waits w m /\ exists o, word w m = o + 3 /\ local_id o /\ ((o, m) ∈ holding w \/ pcs w o = Dead m).
Proof.
  intros H Hst Hp. pose proof (stuck_ser w Hst) as Es.
  destruct (ok_sleep w H m t Hp) as [Hin|Hb]; [|by rewrite Es in Hb]. split; [done|].
  pose proof (ok_word w H m) as Hw. unfold word_ok in Hw. rewrite Es in Hw. simpl in Hw.
  assert (waits w m <> []) as Hwt by (intros E; rewrite E in Hin; by apply not_elem_of_nil in Hin).
  destruct Hw as [(_ & ? & _)|(o & Hid & [[_ ?]|Hwd] & Ho & _)]; [done|done|]. exists o. split_and!; [done|done|].
  destruct Ho as [?|Ho]; [by left|right]. destruct (stuck_thread w o Hst Es) as [Hi|(m' & [Hi|[Hi|Hi]])]; rewrite Hi in Ho; simpl in Ho.
  - done.
  - rewrite Es in Ho. by destruct Ho.
  - rewrite Es in Ho. by destruct Ho.
  - congruence.
Qed.

(** The way from the choice of the next owner to its being one. *)
Lemma handed_over w t m v l later final prev next xcpu : pcs w t = UnlockSleep m -> pcs w v = LockSleep m -> v <> t ->
  (later = t /\ final = v \/ later = v /\ final = t) ->
  exists w2 w3 w', ser_step xcpu (set_ser (SerLater m later final prev next) (set_waits m l w)) = Some w2 /\
    ser_step xcpu w2 = Some w3 /\ ser_step xcpu w3 = Some w' /\
    ser w' = SerWait /\ waits w' m = l /\ word w' m = next /\ pcs w' v = LockCheck m /\ pcs w' t = Idle.
Proof.
  intros Hp Hv Hvt [[-> ->]|[-> ->]]; do 3 eexists; (split; [reflexivity|]); (split; [reflexivity|]); (split; [reflexivity|]).
  - rewrite (resume_unlock _ t m), (resume_lock _ v m) by (cbn; rewrite ?fn_lookup_insert_ne; done).
    cbn. rewrite !fn_lookup_insert, fn_lookup_insert_ne, fn_lookup_insert by done. done.
  - rewrite (resume_lock _ v m), (resume_unlock _ t m) by (cbn; rewrite ?fn_lookup_insert_ne; done).
    cbn. rewrite !fn_lookup_insert, fn_lookup_insert_ne, fn_lookup_insert by done. done.
Qed.

(** ** The theorems *)

(** C27: However threads interleave and calls to the serializing thread fail, a mutex is
    locked in the name of at most one thread, and while it is, its word is that thread's ID with
    LOCKED, or with LOCKED and CONFLICT. *)
Theorem mtx_mutual_exclusion w t m (HW : mtx_reachable w) (Ht : (t, m) ∈ holding w) :
  (forall u, (u, m) ∈ holding w -> u = t) /\
  (word w m = Z.lor t LOCKED \/ word w m = Z.lor (Z.lor t LOCKED) CONFLICT).
Proof.
  apply mtx_reachable_ok in HW. assert (owner w m t) as Ho by by left. split.
  - intros u Hu. apply (owner_unique w m); [done|by left|done].
  - assert (local_id t) as Hid by (by apply (ok_hold_id w HW t m)). rewrite word_both, word_locked by done.
    destruct (own_word w m t HW Ho) as [(_ & _ & ?)|(u & _ & _ & _ & _ & Hc)]; [done|].
    exfalso. apply (ok_once w HW m t); [|done]. by destruct Hc as [-> | ->].
Qed.

(** C28: No thread is forgotten by the protocol: when nothing can happen without a new call,
    each thread that sleeps in mtx_lock() is on the list of its mutex, and the word of the mutex
    has CONFLICT and names a thread that has locked it and not yet unlocked it, or whose
    mtx_unlock() has failed to get through to the serializing thread and returned (the one way
    for a sleeper to be left with nobody to wake it), or that its assertion has stopped; and
    all other threads are outside of mtx_lock() and mtx_unlock(). *)
Theorem mtx_no_lost_waiter w (HW : mtx_reachable w) (Hstuck : forall w', ~ inner_step w w') :
  ser w = SerWait /\ forall t, pcs w t = Idle \/ exists m, pcs w t = Dead m \/
    pcs w t = LockSleep m /\ t ∈ waits w m /\
    exists o, word w m = Z.lor (Z.lor o LOCKED) CONFLICT /\
      ((o, m) ∈ holding w /\ (o, m) ∉ lost w \/ (o, m) ∈ lost w \/ pcs w o = Dead m).
Proof.
  apply mtx_reachable_ok in HW. pose proof (stuck_ser w Hstuck) as Es. split; [done|]. intros t.
  destruct (stuck_thread w t Hstuck Es) as [?|(m & [Hp|[Hp|Hp]])]; [by left|right; exists m..].
  - right. destruct (stuck_sleeper w t m HW Hstuck Hp) as (Hin & o & Hw & Hid & Ho). split_and!; [done|done|].
    exists o. rewrite word_both by done. split; [done|].
    destruct (decide ((o, m) ∈ lost w)); [by right; left|destruct Ho; auto].
  - apply (ok_unsleep w HW) in Hp. by rewrite Es in Hp.
  - by left.
Qed.

(** C29: The assertion of mtx_unlock() never fails, and neither of the complaints of
    ser_unlock_op() is ever made; the assertion of mtx_lock() can fail only while the
    serializing thread has replied to the thread and not yet changed the mutex's word. *)
Theorem mtx_assertions_hold w (HW : mtx_reachable w) :
  (forall t m, pcs w t = UnlockFast m -> word w m = Z.lor t LOCKED \/ word w m = Z.lor (Z.lor t LOCKED) CONFLICT) /\
  (forall t m, ser w = SerUnlock t m -> Z.land (word w m) (Z.lnot 0x3f) = t) /\
  (forall m final prev next, ser w = SerExchange m final prev next -> word w m = prev) /\
  (forall t m, pcs w t = LockCheck m -> Z.land (word w m) (Z.lnot 0x3f) = t \/
     exists later final prev, ser w = SerLater m later final prev (t + 3) \/ ser w = SerExchange m final prev (t + 3)).
Proof.
  apply mtx_reachable_ok in HW. split_and!.
  - intros t m Hp. assert (local_id t) as Hid by (apply (ok_pc_id w HW); by rewrite Hp). rewrite word_both, word_locked by done.
    destruct (own_word w m t HW ltac:(right; by rewrite Hp)) as [(_ & _ & ?)|(u & _ & _ & _ & _ & [?|?])]; [done|congruence|congruence].
  - intros t m Es. destruct (unlock_word w t m HW Es) as (Hid & _ & -> & _). by apply word_owner; [|lia].
  - intros m final prev next Es. pose proof (ok_word w HW m) as Hw. unfold word_ok in Hw. rewrite Es in Hw. simpl in Hw.
    rewrite decide_True in Hw by done. by destruct Hw.
  - intros t m Hp. destruct (own_word w m t HW ltac:(right; by rewrite Hp)) as [(_ & Hid & Hw)|(u & _ & _ & _ & Hat & _)].
    + left. destruct Hw as [-> | ->]; (apply word_owner; [done|lia]).
    + right. destruct (ser w) as [| | | | |m' later final prev next|m' final prev next|]; try done; simpl in Hat;
        (case_decide; [|done]); injection Hat as -> ->; subst; [by exists later, final, (u + 3); left|by exists 0, final, (u + 3); right].
Qed.

(** C30: When ser_unlock_op() finds threads waiting, the mutex goes to the first of
    them on the list: left to itself the serializing thread makes it the owner, takes it off
    the list, and resumes both it and the thread that unlocked. *)
Theorem mtx_handed_in_order w t m v l xcpu (HW : mtx_reachable w) (Hs : ser w = SerUnlock t m) (Hl : waits w m = v :: l) :
  exists w1 w2 w3 w', ser_step xcpu w = Some w1 /\ ser_step xcpu w1 = Some w2 /\ ser_step xcpu w2 = Some w3 /\
    ser_step xcpu w3 = Some w' /\ ser w' = SerWait /\ waits w' m = l /\
    word w' m = Z.lor (Z.lor v LOCKED) CONFLICT /\ pcs w' v = LockCheck m /\ pcs w' t = Idle.
Proof.
  apply mtx_reachable_ok in HW. destruct (unlock_word w t m HW Hs) as (Hid & Hp & Hw & _).
  destruct (ok_waits w HW m v) as [Hv _]; [rewrite Hl; by constructor|].
  assert (local_id v) as Hvid by (apply (ok_pc_id w HW); by rewrite Hv). assert (v <> t) as Hvt by congruence.
  assert (exists later final, ser_step xcpu w = Some (set_ser (SerLater m later final (t + 3) (v + 3)) (set_waits m l w)) /\
    (later = t /\ final = v \/ later = v /\ final = t)) as (later & final & E & Hlf).
  { unfold ser_step. rewrite Hs. cbv zeta. rewrite Hw, word_owner, Z.eqb_refl, Hl, word_next by (done || lia). cbn [negb].
    destruct (negb (bool_decide (l = [])) || xcpu); eauto 6. }
  destruct (handed_over w t m v l later final (t + 3) (v + 3) xcpu Hp Hv Hvt Hlf) as (w2 & w3 & w' & E2 & E3 & E4 & H5).
  exists (set_ser (SerLater m later final (t + 3) (v + 3)) (set_waits m l w)), w2, w3, w'.
  rewrite word_both by done. destruct H5 as (?&?&?&?&?). by split_and!.
Qed.

(** ** Runs *)

Inductive event := EvCall (t : Z) (c : mtx_call) | EvThread (t : Z) | EvTake (t : Z) | EvSer (xcpu : bool)
| EvFail (t : Z).

Definition happen (e : event) (w : mtx_state) : option mtx_state :=
  match e with
  | EvCall t c => if decide (local_id t) then begin_call t c w else None
  | EvThread t => thread_step t w
  | EvTake t => ser_take t w
  | EvSer xcpu => ser_step xcpu w
  | EvFail t => cancel_call t w
  end.

Fixpoint run (l : list event) (w : mtx_state) : option mtx_state :=
  match l with [] => Some w | e :: l => w ← happen e w; run l w end.

Lemma run_reachable l : forall w w', mtx_reachable w -> run l w = Some w' -> mtx_reachable w'.
Proof.
  induction l as [|e l IH]; intros w w' H; [by intros [= <-]|]. cbn [run]. destruct (happen e w) as [w1|] eqn:E; [|done].
  apply IH. apply (mx_step w); [done|]. destruct e as [t c|t|t|xcpu|t]; cbn [happen] in E.
  - case_decide; [|done]. by apply (ms_call w w1 t c).
  - by apply ms_inner, (is_thread w w1 t).
  - by apply ms_inner, (is_take w w1 t).
  - by apply ms_inner, (is_ser w w1 xcpu).
  - by apply (ms_cancel w w1 t).
Qed.

(** One thread locks a mutex, a second goes to sleep on it. *)
Definition contend : list event :=
  [EvCall 64 (MtxLock 5); EvThread 64; EvThread 64; EvCall 128 (MtxLock 5); EvThread 128; EvThread 128; EvThread 128;
   EvTake 128; EvSer false; EvSer false; EvSer false].
Definition contended : mtx_state := default mtx_start (run contend mtx_start).
(** The first unlocks it. *)
Definition handing : mtx_state := default mtx_start (run [EvCall 64 (MtxUnlock 5); EvThread 64; EvTake 64] contended).

Lemma contended_reachable : mtx_reachable contended.
Proof. apply (run_reachable contend mtx_start); [apply mx_start|by vm_compute]. Qed.
Lemma handing_reachable : mtx_reachable handing.
Proof. apply (run_reachable [EvCall 64 (MtxUnlock 5); EvThread 64; EvTake 64] contended); [apply contended_reachable|by vm_compute]. Qed.

Lemma mtx_mutual_exclusion_witness : (forall u, (u, 5) ∈ holding contended -> u = 64) /\
  (word contended 5 = Z.lor 64 LOCKED \/ word contended 5 = Z.lor (Z.lor 64 LOCKED) CONFLICT).
Proof. apply (mtx_mutual_exclusion contended 64 5); [apply contended_reachable|]. apply elem_of_union_l, elem_of_singleton_2. done. Defined.

(** A thread that nothing happens to stays where it is. *)
Definition event_of (e : event) (t : Z) : Prop :=
  match e with EvCall u _ | EvThread u | EvTake u | EvFail u => u = t | EvSer _ => False end.

Lemma idle_resume w t u : pcs w t = Idle -> pcs (resume u w) t = Idle.
Proof.
  intros H. unfold resume. destruct (pcs w u) eqn:E; try done; cbn; (rewrite fn_lookup_insert_ne; [done|]); congruence.
Qed.
Lemma idle_happen e w w' t : happen e w = Some w' -> ~ event_of e t -> pcs w t = Idle -> pcs w' t = Idle.
Proof.
  intros E Hn Hp. destruct e as [u c|u|u|xcpu|u]; simpl in E, Hn.
  - case_decide; [|done]. unfold begin_call in E. destruct (pcs w u); try done. destruct c; repeat case_match; try done;
      injection E as <-; cbn; by rewrite ?fn_lookup_insert_ne.
  - unfold thread_step in E. destruct (pcs w u); try done; injection E as <-; repeat case_match; cbn; by rewrite ?fn_lookup_insert_ne.
  - unfold ser_take in E. destruct (ser w), (pcs w u); try done; injection E as <-; cbn; by rewrite ?fn_lookup_insert_ne.
  - unfold ser_step in E. destruct (ser w); try done; cbv zeta in E; repeat case_match; try done; injection E as <-; try done;
      by apply idle_resume.
  - unfold cancel_call in E. destruct (pcs w u); try done; injection E as <-; cbn; by rewrite ?fn_lookup_insert_ne.
Qed.
Lemma idle_run l : forall w w' t, run l w = Some w' -> Forall (fun e => ~ event_of e t) l -> pcs w t = Idle -> pcs w' t = Idle.
Proof.
  induction l as [|e l IH]; intros w w' t; cbn [run]; [by intros [= <-]|]. destruct (happen e w) as [w1|] eqn:E; [|done].
  intros Hr [He Hl]%Forall_cons Hp. apply (IH w1); [done|done|]. by apply (idle_happen e w).
Qed.

Lemma contended_pcs t : pcs contended t = if decide (t = 128) then LockSleep 5 else Idle.
Proof.
  case_decide as E1; [subst; by vm_compute|]. destruct (decide (t = 64)) as [->|E2]; [by vm_compute|].
  apply (idle_run contend mtx_start contended); [by vm_compute| |done]. unfold contend. repeat constructor; simpl; congruence || tauto.
Qed.
Lemma contended_stuck w' : ~ inner_step contended w'.
Proof.
  intros [t E|t E|xcpu E].
  - unfold thread_step in E. rewrite contended_pcs in E. by case_decide.
  - unfold ser_take in E. rewrite contended_pcs in E. change (ser contended) with SerWait in E. by case_decide.
  - by vm_compute in E.
Qed.

Lemma mtx_no_lost_waiter_witness : (forall w', ~ inner_step contended w') /\
  ser contended = SerWait /\ forall t, pcs contended t = Idle \/ exists m, pcs contended t = Dead m \/
    pcs contended t = LockSleep m /\ t ∈ waits contended m /\
    exists o, word contended m = Z.lor (Z.lor o LOCKED) CONFLICT /\
      ((o, m) ∈ holding contended /\ (o, m) ∉ lost contended \/ (o, m) ∈ lost contended \/ pcs contended o = Dead m).
Proof. split; [apply contended_stuck|]. apply (mtx_no_lost_waiter contended contended_reachable contended_stuck). Defined.

Lemma mtx_assertions_hold_witness : Z.land (word handing 5) (Z.lnot 0x3f) = 64.
Proof. apply (mtx_assertions_hold handing handing_reachable). by vm_compute. Defined.

(** A call of mtx_unlock() that fails leaves the second thread asleep with nobody to wake it. *)
Example mtx_unlock_failure_strands : exists w, mtx_reachable w /\ pcs w 64 = Idle /\ (64, 5) ∈ lost w /\
  pcs w 128 = LockSleep 5 /\ word w 5 = Z.lor (Z.lor 64 LOCKED) CONFLICT /\ ser w = SerWait.
Proof.
  exists (default mtx_start (run [EvCall 64 (MtxUnlock 5); EvThread 64; EvFail 64] contended)). split.
  - apply (run_reachable [EvCall 64 (MtxUnlock 5); EvThread 64; EvFail 64] contended); [apply contended_reachable|by vm_compute].
  - by vm_compute.
Qed.

(** The assertion of mtx_lock() does fail when the thread is quick. *)
Example mtx_lock_assertion_fails : exists w, mtx_reachable w /\ pcs w 128 = Dead 5.
Proof.
  exists (default mtx_start (run [EvSer false; EvSer false; EvThread 128] handing)). split; [|by vm_compute].
  apply (run_reachable [EvSer false; EvSer false; EvThread 128] handing); [apply handing_reachable|by vm_compute].
Qed.

Lemma mtx_handed_in_order_witness : exists w1 w2 w3 w', ser_step false handing = Some w1 /\ ser_step false w1 = Some w2 /\
  ser_step false w2 = Some w3 /\ ser_step false w3 = Some w' /\ ser w' = SerWait /\ waits w' 5 = [] /\
  word w' 5 = Z.lor (Z.lor 128 LOCKED) CONFLICT /\ pcs w' 128 = LockCheck 5 /\ pcs w' 64 = Idle.
Proof. apply (mtx_handed_in_order handing 64 5 128 [] false handing_reachable); by vm_compute. Defined.
